(* ===== verification/_CoqProject ===== *)
-Q . S2P
Prelude.v
Types.v
Instances.v
Address.v
Finality.v
Storage.v
UtxoManager.v
UtxoProofs.v
UtxoTheorems.v
UtxoLocks.v
UtxoSync.v
TransactionPool.v
PoolProofs.v
PoolPersist.v
Reward.v
BlockVotes.v
TimeVoteEngine.v
Governance.v
GovernancePersist.v
Lru.v
BlockTypes.v
BlockProofs.v
BlockVrf.v
Genesis.v
Utf8.v
Float64.v
AiValidator.v
TxValidation.v
TxProofs.v
Consensus.v
ConsensusProofs.v
Signing.v
Fallback.v
FallbackProofs.v
BlockLedger.v
Registry.v
RegistryProofs.v
BlockCache.v
Chain.v
ChainApply.v
ChainProofs.v
ChainLedger.v
ChainSamples.v
ForkChoice.v
ForkProofs.v
Reorg.v
ReorgProofs.v
ReorgSamples.v
BanList.v
BanProofs.v
NetGuards.v
NetProofs.v
Admission.v
AdmissionProofs.v
AdmissionSamples.v
Production.v
ProductionProofs.v
ProducedBlock.v
ProductionSamples.v
IpText.v
BlockRound.v
Leader.v
BlockRoundProofs.v
LeaderProofs.v
RoundSamples.v
Maintenance.v
EngineSteps.v
MaintenanceProofs.v
BlockSteps.v
TxMessages.v
TxMessageProofs.v
MessageSamples.v
PaymentRequests.v
GovMessages.v
PeerBook.v
BlockMessages.v
BlockMessageProofs.v
BlockSync.v
BlockSyncSamples.v
