(* ===== verification/Prelude.v ===== *)
(** * TIME Coin masternode: a verification library

    This library models the consensus-relevant state of the TIME Coin masternode
    daemon (Rust, under src/src/) and proves the properties that make it correct.
    File names below are relative to src/src/.

    ** The program

    A masternode keeps a set of unspent outputs with a life-cycle state each
    (utxo_manager.rs over storage.rs), a pool of transactions (transaction_pool.rs,
    with the ban list of purge_list.rs) and a chain of blocks (blockchain.rs over
    block/ and block_cache.rs).  The consensus engine (consensus.rs) validates
    transactions, locks their inputs, collects signed votes of other masternodes on
    transactions and on blocks, assembles finality proofs (types.rs,
    finality_proof.rs) and falls back to leader proposals when votes stall.  Blocks
    pay a split reward (reward_calculator.rs), carry governance (governance.rs) and
    register masternodes (masternode_registry.rs); leaders are drawn by a verifiable
    random function (block/vrf.rs).  Addresses and collateral claims (address.rs,
    crypto/base58.rs) tie masternodes to the outputs they lock.  When peers offer another
    branch, fork choice (ai/fork_resolver.rs, masternode_authority.rs and blockchain.rs)
    decides whether the chain is reorganized.  At the network's edge a ban list, a rate
    limiter, a connection guard, a duplicate filter and a sync coordinator (network/)
    decide which peers and messages are served.  The production loop of the daemon
    (main.rs) elects the node by lottery, produces a block and proposes it; the message
    handlers (network/message_handler/) check proposals, collect the votes of a round and
    add the block that a quorum agrees on.

    The engine reads the active masternodes from the registry and drives the pool and
    the UTXO manager; the chain applies blocks to the UTXO manager, the registry, the
    pool, governance and the transaction index; the UTXO manager and the chain are
    generic in their storage backends.

    ** Files

    - [Prelude]: results and their notation, machine integers, sums, byte strings,
      iteration over hash maps, stable sorting, tactics, the hint database [timecoin].
    - [Types] (types.rs, constants.rs, the records of masternode_registry.rs): data,
      constants, txid, the checks of special transactions, tiers.  The class
      [Externals] holds the functions of external crates.
    - [Instances]: a computable instance of [Externals], used by witnesses only.
    - [Address] (address.rs, crypto/base58.rs): Base58 is positional arithmetic;
      printing and parsing addresses; collateral claims.
    - [Finality] (types.rs, finality_proof.rs): signed messages, TimeProof and
      VerifiableFinality verification, the proof manager.
    - [Storage] (storage.rs): the class [UtxoStorage] is the Rust trait,
      [UtxoStorageLaws] what its clients rely on; two instances.
    - [UtxoManager] (utxo_manager.rs): the record and one definition per method;
      [UtxoProofs] the invariant and histories; [UtxoTheorems] spends and restores;
      [UtxoLocks] locks and finalization; [UtxoSync] peers, start-up and statistics.
    - [TransactionPool] (transaction_pool.rs, purge_list.rs); [PoolProofs] the invariant
      and the behaviour of operations; [PoolPersist] the database and restarts.
    - [Reward] (reward_calculator.rs).
    - [BlockVotes] (consensus.rs): fee schedule, prepare and precommit accumulators.
    - [TimeVoteEngine] (consensus.rs, AVSSnapshot of types.rs): accumulation of votes,
      finality check, assembly and verification of proofs, competing proofs.
    - [Governance], [GovernancePersist] (governance.rs): proposals, votes, tally,
      treasury forecast, persistence.
    - [BlockTypes], [BlockProofs] (block/types.rs, block validation of blockchain.rs):
      hashes, Merkle roots, structural and sequence validation.
    - [BlockVrf] (block/vrf.rs): proofs, sortition and leader selection.
    - [Genesis] (block/genesis.rs).
    - [Utf8], [Float64]: strings as sequences of characters; the [f64] arithmetic the
      code uses.  [AiValidator] (ai/transaction_validator.rs) is their client.
    - [TxValidation], [TxProofs] (consensus.rs, script and fee checks).
    - [Consensus], [ConsensusProofs] (consensus.rs): submission, processing, status
      machine and finalization of transactions; [Signing] the votes it signs.
    - [Fallback], [FallbackProofs] (consensus.rs): stall detection, liveness alerts,
      leader election and fallback resolution.
    - [BlockLedger] (process_block_utxos and undo of blockchain.rs): what a block does
      to the UTXO set, against the abstract ledger of outputs.
    - [Registry], [RegistryProofs] (masternode_registry.rs): slots, the active bitmap,
      on-chain registration, collateral, liveness and persistence.
    - [Lru]: the class [LruCrate], the operations of the lru crate with what its
      documentation says of them; [BlockCache] (block_cache.rs).
    - [Chain] (blockchain.rs): the chain's record, storage, checkpoints, transaction
      index, reward and treasury rules; [ChainApply] adding blocks, governance
      execution, rollback, reset, reindexing and start-up; [ChainProofs] the invariant
      and histories; [ChainLedger] the refinement of the ledger; [ChainSamples]
      concrete chains, their witnesses and counterexamples.
    - [ForkChoice], [ForkProofs] (ai/fork_resolver.rs, masternode_authority.rs): what a
      fork decision depends on, and that the two sides agree.
    - [Reorg] (the fork handling of blockchain.rs over [ChainApply]): a fork's state
      machine, reorganization, the finality lock; [ReorgProofs], [ReorgSamples].
    - [BanList], [BanProofs] (network/banlist.rs).
    - [NetGuards], [NetProofs] (network/rate_limiter.rs, ddos_guard.rs, dedup_filter.rs,
      sync_coordinator.rs).
    - [Admission], [AdmissionProofs], [AdmissionSamples] (masternode_registry.rs): how
      announcements, disconnects, audits and restarts change the registry.
    - [Production] (produce_block_at_height of blockchain.rs, block votes of consensus.rs);
      [ProductionProofs] what is selected from the pool; [ProducedBlock] that the block
      passes the checks of [ChainApply]; [ProductionSamples].
    - [IpText]: reading IP addresses, as the standard library does.
    - [BlockRound] (network/message_handler/consensus.rs, core.rs, network/block_cache.rs):
      proposals, prepare and precommit votes; [Leader] (main.rs): self-selection and the
      leader's side of a round; [BlockRoundProofs], [LeaderProofs], [RoundSamples].
    - [TxMessages] (network/message_handler/transactions.rs, utxo.rs, consensus.rs, core.rs):
      messages about transactions, votes, the fallback and UTXO sets; [TxMessageProofs];
      [MessageSamples].
    - [Maintenance] (consensus.rs): the repairs at start-up and the timers of the engine;
      [EngineSteps] the changes of an engine that all of its operations are made of,
      [BlockSteps] adding a block as such changes; [MaintenanceProofs].
    - [PaymentRequests] (consensus.rs, message_handler/core.rs, rpc/handler.rs) and
      [GovMessages] (message_handler/core.rs): the other messages of that handler.
    - [PeerBook] (network/peer_connection_registry/): what the node knows of its peers.
    - [BlockMessages] (network/message_handler/blocks.rs, consensus.rs, health.rs): messages
      by which chains are compared and synchronized; [BlockMessageProofs] that they keep the
      chain; [BlockSync] synchronization in any order; [BlockSyncSamples].

    ** How code becomes definitions

    A struct is a record, an enum an inductive type, a method a function from the
    state and its arguments to the new state and its result; [Err] values carry the
    error the code returns, as a constructor per message.  A [HashMap], [DashMap] or
    sled tree is a [gmap]; code that iterates over one goes through the class
    [MapIter], whose only law is that iteration visits each entry once, so no theorem
    depends on an order.  A [u64] is a [Z] and arithmetic is written with the wrapping,
    saturating or checked operation the code uses; the release build does not check
    overflow.  An [f64] is an exact dyadic or special value ([Float64]).  The clock is
    an argument: one value per call.  A component's operations are also constructors of
    an operation type ([op], [pool_op], [vote_op], [tv_op], [gov_op], [chain_op],
    [node_op], [ban_op], [guard_op], [sync_op], [adm_op], [round_op], [node_event],
    [pay_op], [block_event], ...);
    a history is a list of them, so interleavings of the node's tasks at the granularity
    of calls are lists, and invariants hold for all of them.

    SHA-256, Ed25519, hex, bincode, serde_json, zstd, sled and lru are members of classes
    ([Externals], [UtxoCodec], [SledDb], [PoolCodec], [GovCodec], [Zstd], [BlockCodec],
    [LegacyCodec], [LruCrate]); what is used of them is stated as laws (digests have 32
    bytes, decoders invert encoders, hex writes two characters per byte, a cache answers
    with what was put last and may drop any other entry; [BlockFormat] that a stored block
    reads back) with instances that satisfy them.

    ** What the theorems show

    - The UTXO set: a consistency invariant in every reachable state, no double spend,
      exclusive locks, permanent finalization, atomic locking of inputs, rollback of a
      spend, canonical set hash, convergence of reconciliation with a peer whose outputs
      were not spent here, monotone state merge,
      sound collateral locks and exact supply figures.
    - The pool: its invariant, admission and eviction on every branch, exact conflict
      detection, a database that mirrors it and restarts that restore it.
    - Votes: soundness of accumulated votes, verification as a declarative validity
      predicate, quorum intersection, proofs that verify once assembled, exact finality
      check, agreement of fork detection and resolution, uniqueness of block consensus.
    - The engine: validation accepts exactly the valid transactions, processing is
      atomic, statuses only move forward, fallback terminates and its leaders agree.
    - Rewards and fees: conservation of every satoshi in both distribution modes,
      independence of the order of nodes, sufficiency of subtracted fees.
    - Governance: the exact 67% quorum, the life of a proposal, the tally of a block,
      the treasury forecast, restarts.
    - The registry: unique slots, a bitmap that agrees with the nodes, exact cleanup,
      suspended nodes receive nothing.
    - The chain: complete and linked in every reachable state, a cache that is never
      stale, blocks that mint at most their subsidy (and no less than that less one unit per
      reward entry) when they spend stored outputs once each, refinement of the abstract
      ledger, rollback as the inverse of application.
    - Fork choice and reorganization: one winner whichever side decides, the common
      ancestor is the highest shared block, a reorganization that succeeds ends with exactly
      the fork's blocks on the kept ones, confirmed blocks stay unless some peer reports the
      fork.
    - Network guards: a ban outlives a restart, a window of the rate limiter admits at
      most twice its limit.
    - Admission: one masternode per collateral, what a relayed announcement can do to
      the entries, what an anchor protects.
    - Production: the selection from the pool is sound and keeps dependencies in order, and the producer's own block passes
      every check of a new block, except for too few recipients.
    - Agreement on blocks: what stands behind a block that votes add to the chain, and that
      a self-selected proposer is accepted by the validators.
    - Messages: whatever peers send, and whichever blocks are added, the UTXO set, the pool
      and the votes stay consistent and spent outputs stay spent; what stands behind an accepting vote; a UTXO set sent in
      chunks arrives whole; no message changes a proposal that is known; the store of payment
      requests is bounded.
    - Synchronization: whatever peers send about blocks, the chain stays complete and linked
      on its genesis block and the buffer bounded; blocks delivered in any order, batches and
      repetition by confirmed peers lead to the chain that adding them in order gives; an
      exchange with a peer ahead raises the tip.
    - Upkeep: a retry settles every pending transaction without a conflict, eviction gives
      back what a transaction reserved, the groups of a batch are free of conflicts.
    - Addresses: round trip, soundness of collateral claims.
    - Theorems without a claim number record where behaviour departs from what comments
      or sibling code say (repeated and self-declared votes, ties, late votes,
      unregistered governance keys, inputs that are skipped or spent twice, transfers that
      are not checked, rewards scaled twice).

    ** Bounds and fuel

    Loops are structural folds.  Fuel appears where a loop is not structural: the carry
    loop of Base58 gets 32 rounds, more than a 32-bit carry lasts, and the proofs show
    that it is enough ([Address.decode_encode]); trimming the rejection cache gets the
    size of the cache, one round per removal; scans over heights get the number of
    heights between their ends, which is how often the code's range is stepped; draining the buffer gets a round per
    buffered block, and cutting an answer to a frame one more than its blocks
    ([BlockMessageProofs.trim_longest]); Kahn's
    algorithm gets a round per transaction, since a node enters its queue once
    ([ProductionProofs.kahn_enough]), and without a cycle it orders every transaction
    ([ProductionProofs.topological_complete]).  Limits
    that the code sets (100 blocks of a treasury scan, 1000 of a search, the block and
    reorganization sizes) are its constants.  Hypotheses that sums stay below 2^64
    appear where the code sums without checks.

    ** Not modelled

    Logging, metrics, locks and tasks inside a call; database write failures outside
    [Storage] and the UTXO manager; the synchronization loop and repair of the chain in
    blockchain.rs; messages about peers and masternodes; sockets and TLS; heuristic
    scores of peers and attacks; RPC beyond payment requests, command line and dashboards.  The
    voter of timevote.rs, timelock.rs and block/generator.rs are not started by the daemon.

    ** Plan

    The synchronization loop of blockchain.rs and the messages about masternodes. *)

From Stdlib Require Import ZArith Lia Ascii String.
From stdpp Require Import base gmap strings list sorting.

#[global] Open Scope Z_scope.
#[export] Set Warnings "-clear-no-such-hyp".

(** ** Notations and scopes *)

Declare Scope timecoin_scope.
Delimit Scope timecoin_scope with time.

(** Rust's [Result<A, E>]. *)
Inductive result (E A : Type) :=
| Ok (a : A)
| Err (e : E).
Arguments Ok {E A} a.
Arguments Err {E A} e.

(** [let? x := e in k] is Rust's [let x = e?; k] in a function without state. *)
Notation "'let?' x ':=' e 'in' k" :=
  (match e with Ok x => k | Err err => Err err end)
    (at level 10, x name, e at level 100, k at level 200) : timecoin_scope.
(** [fail_if c with err in k] is [if c { return Err(err); } k]. *)
Notation "'fail_if' c 'with' err 'in' k" :=
  (if c then Err err else k)
    (at level 10, c at level 100, err at level 100, k at level 200) : timecoin_scope.
#[global] Open Scope timecoin_scope.

Definition is_ok {E A} (r : result E A) : bool :=
  match r with Ok _ => true | Err _ => false end.
Definition is_err {E A} (r : result E A) : bool := negb (is_ok r).

(** [Result::map_err]. *)
Definition map_err {E F A} (f : E → F) (r : result E A) : result F A :=
  match r with Ok a => Ok a | Err e => Err (f e) end.

(** [Option::ok_or]. *)
Definition ok_or {E A} (e : E) (o : option A) : result E A :=
  match o with Some a => Ok a | None => Err e end.

(** When a chain of checks succeeds. *)
Lemma let_ok_iff {E B} (e : result E ()) (k : result E B) b :
  (let? u := e in k) = Ok b ↔ e = Ok tt ∧ k = Ok b.
Proof. destruct e as [[]|]; naive_solver. Qed.
Lemma bind_ok_iff {E A B} (e : result E A) (k : A → result E B) b :
  (let? a := e in k a) = Ok b ↔ ∃ a, e = Ok a ∧ k a = Ok b.
Proof. destruct e; naive_solver. Qed.
Lemma ok_or_iff {E A} (e : E) (o : option A) a : ok_or e o = Ok a ↔ o = Some a.
Proof. destruct o; naive_solver. Qed.
Lemma map_err_ok_iff {E F A} (f : E → F) (r : result E A) a : map_err f r = Ok a ↔ r = Ok a.
Proof. destruct r; naive_solver. Qed.
Lemma fail_ok_iff {E B} (c : bool) (err : E) (k : result E B) b :
  (fail_if c with err in k) = Ok b ↔ c = false ∧ k = Ok b.
Proof. destruct c; naive_solver. Qed.

(** ** Machine integers

    The release profile sets [overflow-checks = false], so [+], [-] and [*] on
    [u64] (and [usize], 64 bits on the supported targets) wrap around. *)

Definition U64 : Z := 2 ^ 64.
Definition U32 : Z := 2 ^ 32.
Definition add64 (a b : Z) : Z := (a + b) mod U64.
Definition sub64 (a b : Z) : Z := (a - b) mod U64.
Definition mul64 (a b : Z) : Z := (a * b) mod U64.
(** [u64::saturating_sub] and [u64::saturating_add]. *)
Definition sat_sub (a b : Z) : Z := Z.max 0 (a - b).
Definition sat_add (a b : Z) : Z := Z.min (U64 - 1) (a + b).
(** [u64::div_ceil]. *)
Definition div_ceil (a b : Z) : Z := if a mod b =? 0 then a / b else a / b + 1.
(** [x as u32]. *)
Definition as_u32 (a : Z) : Z := a mod U32.

Definition u64_ok (a : Z) : Prop := 0 ≤ a < U64.
Definition u8_ok (b : Z) : Prop := 0 ≤ b < 256.

(** [Iterator::sum::<u64>()]: additions wrap like [+]. *)
Definition sum64 (l : list Z) : Z := foldl add64 0 l.
(** The unbounded sum the wrapped one is compared with. *)
Definition sumZ (l : list Z) : Z := foldr Z.add 0 l.

(** [to_le_bytes] of an [n]-byte integer. *)
Fixpoint le_bytes (n : nat) (z : Z) : list Z :=
  match n with
  | O => []
  | S n' => z mod 256 :: le_bytes n' (z / 256)
  end.

(** Bytes of a Rust string (its UTF-8 encoding). *)
Definition str_bytes (s : string) : list Z :=
  map (λ c, Z.of_nat (nat_of_ascii c)) (list_ascii_of_string s).

(** Lexicographic [<=] on byte strings: [Ord] of [[u8]] and of [str]. *)
Fixpoint bytes_leb (a b : list Z) : bool :=
  match a, b with
  | [], _ => true
  | _ :: _, [] => false
  | x :: a, y :: b => if x =? y then bytes_leb a b else x <? y
  end.

(** ** Iteration order

    [HashMap] and [DashMap] promise no iteration order: an operation that
    iterates over a map is stated for every order that lists each entry once. *)
Class MapIter := {
  iter : ∀ {K V : Type} `{Countable K}, gmap K V → list (K * V);
  iter_perm : ∀ {K V : Type} `{Countable K} (m : gmap K V),
    iter m ≡ₚ map_to_list m;
}.

Definition canonical_iter : MapIter :=
  {| iter K V _ _ m := map_to_list m; iter_perm K V _ _ m := reflexivity _ |}.

(** A property kept by a step is kept by a loop of such steps. *)
Lemma foldl_preserve {A B} (f : A → B → A) (P : A → Prop) l a :
  (∀ a b, P a → P (f a b)) → P a → P (foldl f a l).
Proof. intros Hf. revert a. induction l as [|b l IH]; intros a Ha; cbn; auto. Qed.

(** ** Stable sorting ([slice::sort_by]) *)
Section stable_sort.
Context {A : Type} (leb : A → A → bool).

(** [x] goes before the first element it is not greater than, so equal
    elements keep their order when sorting from the right. *)
Fixpoint sort_insert (x : A) (l : list A) : list A :=
  match l with
  | [] => [x]
  | y :: l' => if leb x y then x :: l else y :: sort_insert x l'
  end.

Definition sort_by (l : list A) : list A := foldr sort_insert [] l.
End stable_sort.

(** ** Shared automation *)

Create HintDb timecoin.

(** Case analysis on the discriminees of a goal or hypothesis. *)
Ltac split_match :=
  match goal with
  | |- context [match ?e with _ => _ end] =>
      lazymatch e with
      | context [match _ with _ => _ end] => fail
      | _ => let E := fresh "E" in destruct e eqn:E
      end
  end.
Ltac split_match_in H :=
  match type of H with
  | context [match ?e with _ => _ end] =>
      lazymatch e with
      | context [match _ with _ => _ end] => fail
      | _ => let E := fresh "E" in destruct e eqn:E
      end
  end.
Ltac split_matches := repeat (split_match; simplify_eq/=).
Ltac split_matches_in H := repeat (split_match_in H; simplify_eq/=).

(** Arithmetic with the wrap-around operators and constants unfolded. *)
Ltac u64_lia :=
  unfold u64_ok, u8_ok, add64, sub64, mul64, sat_sub, sat_add, as_u32, U64, U32 in *;
  rewrite ?Z.mod_small by lia; lia.

(** ** Lemmas on machine integers *)

Lemma add64_small a b : 0 ≤ a + b < U64 → add64 a b = a + b.
Proof. intros. by apply Z.mod_small. Qed.
Lemma sub64_small a b : 0 ≤ a - b < U64 → sub64 a b = a - b.
Proof. intros. by apply Z.mod_small. Qed.
Lemma mul64_small a b : 0 ≤ a * b < U64 → mul64 a b = a * b.
Proof. intros. by apply Z.mod_small. Qed.

Lemma div_ceil_spec a b : 0 ≤ a → 0 < b → (div_ceil a b - 1) * b < a ≤ div_ceil a b * b.
Proof.
  intros Ha Hb. unfold div_ceil. pose proof (Z.div_mod a b ltac:(lia)).
  pose proof (Z.mod_pos_bound a b Hb). destruct (Z.eqb_spec (a mod b) 0); nia.
Qed.

Lemma filter_ext_in {A} (P Q : A → Prop) `{∀ x, Decision (P x)} `{∀ x, Decision (Q x)} (l : list A) :
  (∀ x, x ∈ l → P x ↔ Q x) → filter P l = filter Q l.
Proof.
  induction l as [|x l IH]; intros HPQ; [done|]. rewrite !filter_cons.
  rewrite IH by (intros; apply HPQ; by apply elem_of_cons; right).
  pose proof (HPQ x (list_elem_of_here _ _)). repeat case_decide; by try tauto.
Qed.
Lemma sumZ_cons x l : sumZ (x :: l) = x + sumZ l.
Proof. done. Qed.
Lemma sumZ_app l1 l2 : sumZ (l1 ++ l2) = sumZ l1 + sumZ l2.
Proof. unfold sumZ. induction l1 as [|x l1 IH]; simpl; lia. Qed.

#[export] Instance sumZ_perm : Proper ((≡ₚ) ==> (=)) sumZ.
Proof. induction 1; simpl in *; unfold sumZ in *; simpl in *; lia. Qed.

Lemma sumZ_nonneg l : Forall (λ z, 0 ≤ z) l → 0 ≤ sumZ l.
Proof. unfold sumZ. induction 1; simpl; lia. Qed.

Lemma sumZ_elem l x : Forall (λ z, 0 ≤ z) l → x ∈ l → x ≤ sumZ l.
Proof.
  induction 1 as [|y l Hy Hl IH]; [by intros ?%elem_of_nil|].
  pose proof (sumZ_nonneg l Hl). rewrite elem_of_cons. unfold sumZ in *; simpl in *.
  intros [->|Hx]; [lia|]. specialize (IH Hx). lia.
Qed.

Lemma foldl_add64 l a : 0 ≤ a < U64 → foldl add64 a l = (a + sumZ l) mod U64.
Proof.
  revert a. induction l as [|x l IH]; intros a Ha; simpl.
  - by rewrite Z.add_0_r, Z.mod_small.
  - rewrite IH by (apply Z.mod_pos_bound; done). unfold add64.
    rewrite Zplus_mod_idemp_l. f_equal. unfold sumZ. simpl. lia.
Qed.

Lemma sum64_mod l : sum64 l = sumZ l mod U64.
Proof. unfold sum64. by rewrite foldl_add64. Qed.

Lemma sum64_small l : 0 ≤ sumZ l < U64 → sum64 l = sumZ l.
Proof. intros. by rewrite sum64_mod, Z.mod_small. Qed.

Lemma sumZ_repeat n x : sumZ (replicate n x) = Z.of_nat n * x.
Proof. unfold sumZ. induction n as [|n IH]; simpl; lia. Qed.

Lemma sumZ_sublist l1 l2 : Forall (λ z, 0 ≤ z) l2 → l1 `sublist_of` l2 → sumZ l1 ≤ sumZ l2.
Proof.
  intros HF Hs. induction Hs as [|x l1 l2 Hs IH|x l1 l2 Hs IH]; [done| |];
    inversion_clear HF; specialize (IH ltac:(done)); unfold sumZ in *; simpl; lia.
Qed.

Lemma Forall_filter {A} (P Q : A → Prop) `{!∀ x, Decision (Q x)} (l : list A) :
  Forall P l → Forall P (filter Q l).
Proof. rewrite !Forall_forall. intros HF x [_ Hx]%list_elem_of_filter. auto. Qed.

(** ** Lemmas on byte strings *)

Lemma length_le_bytes n z : length (le_bytes n z) = n.
Proof. revert z. induction n as [|n IH]; intros; [done|]. cbn [le_bytes length]. by f_equal. Qed.

Lemma le_bytes_inj n a b :
  0 ≤ a < 256 ^ Z.of_nat n → 0 ≤ b < 256 ^ Z.of_nat n → le_bytes n a = le_bytes n b → a = b.
Proof.
  revert a b. induction n as [|n IH]; intros a b Ha Hb He; cbn [le_bytes] in He.
  { change (256 ^ Z.of_nat 0) with 1 in *. lia. }
  injection He as Hm Hd. rewrite Nat2Z.inj_succ, Z.pow_succ_r in Ha, Hb by lia.
  rewrite (Z.div_mod a 256), (Z.div_mod b 256) by lia. rewrite Hm. do 2 f_equal.
  apply IH; [split; [apply Z.div_pos; lia|apply Z.div_lt_upper_bound; lia]..|done].
Qed.

Lemma str_bytes_inj s t : str_bytes s = str_bytes t → s = t.
Proof.
  unfold str_bytes. intros H.
  rewrite <-(string_of_list_ascii_of_string s), <-(string_of_list_ascii_of_string t).
  f_equal. revert H. generalize (list_ascii_of_string t).
  induction (list_ascii_of_string s) as [|c l IH]; intros [|d l'] H; simpl in H; try done.
  injection H as Hc Hl. apply Nat2Z.inj in Hc. f_equal; [|by apply IH].
  by rewrite <-(ascii_nat_embedding c), <-(ascii_nat_embedding d), Hc.
Qed.

Lemma bytes_leb_refl l : bytes_leb l l = true.
Proof. induction l; cbn; [done|]. by rewrite Z.eqb_refl. Qed.
Lemma bytes_leb_total a b : bytes_leb a b = false → bytes_leb b a = true.
Proof.
  revert b. induction a as [|x a IH]; intros [|y b]; cbn; try done.
  rewrite (Z.eqb_sym y x). destruct (Z.eqb_spec x y); [apply IH|].
  rewrite Z.ltb_ge, Z.ltb_lt. lia.
Qed.
Lemma bytes_leb_trans a b c : bytes_leb a b → bytes_leb b c → bytes_leb a c.
Proof.
  revert b c. induction a as [|x a IH]; intros [|y b] [|z c]; cbn; try done.
  destruct (Z.eqb_spec x y), (Z.eqb_spec y z), (Z.eqb_spec x z); subst; try lia; try done; eauto.
  all: rewrite !Is_true_true; lia.
Qed.
Lemma bytes_leb_antisym a b : bytes_leb a b → bytes_leb b a → a = b.
Proof.
  revert b. induction a as [|x a IH]; intros [|y b]; cbn; try done.
  rewrite (Z.eqb_sym y x). destruct (Z.eqb_spec x y); [subst; intros; f_equal; auto|].
  intros H1%Is_true_true H2%Is_true_true. lia.
Qed.

(** Two messages with fields of fixed width in front are equal field by field. *)
Lemma app_inj_len {A} (a b c d : list A) :
  length a = length b → a ++ c = b ++ d → a = b ∧ c = d.
Proof. apply app_inj_1. Qed.
(** The same for a field of fixed width at the end. *)
Lemma app_inj_len_r {A} (a b c d : list A) :
  length c = length d → a ++ c = b ++ d → a = b ∧ c = d.
Proof. apply app_inj_2. Qed.

(** ** Lemmas on stable sorting *)
Section sort_lemmas.
Context {A : Type} (leb : A → A → bool).
Context (leb_total : ∀ x y, leb x y = false → leb y x = true).

Lemma sort_insert_perm x l : sort_insert leb x l ≡ₚ x :: l.
Proof.
  induction l as [|y l IH]; simpl; [done|].
  destruct (leb x y); [done|]. rewrite IH. apply Permutation_swap.
Qed.

Lemma sort_by_perm l : sort_by leb l ≡ₚ l.
Proof.
  induction l as [|x l IH]; simpl; [done|]. by rewrite sort_insert_perm, IH.
Qed.

Lemma sort_insert_sorted x l :
  Sorted leb l → Sorted leb (sort_insert leb x l).
Proof.
  induction 1 as [|y l Hl IH Hhd]; simpl; [by repeat constructor|].
  destruct (leb x y) eqn:E; [by repeat constructor; rewrite ?E|].
  constructor; [done|]. apply leb_total in E.
  destruct Hhd as [|z l Hz]; simpl; [by constructor; rewrite E|].
  destruct (leb x z); constructor; by rewrite ?E.
Qed.

Lemma sort_by_sorted l : Sorted leb (sort_by leb l).
Proof. induction l; simpl; [constructor|]. by apply sort_insert_sorted. Qed.

(** With a transitive order that is antisymmetric on the elements sorted, the
    result does not depend on the order of the input. *)
Lemma sort_by_ext l1 l2 :
  (∀ x y z, leb x y → leb y z → leb x z) →
  (∀ x y, x ∈ l1 → y ∈ l1 → leb x y → leb y x → x = y) →
  l1 ≡ₚ l2 → sort_by leb l1 = sort_by leb l2.
Proof.
  intros Htr Hanti Hp.
  assert (Hs : ∀ l, StronglySorted leb (sort_by leb l)).
  { intros l. apply Sorted_StronglySorted; [exact Htr|apply sort_by_sorted]. }
  apply (StronglySorted_unique_strong leb); [|apply Hs..|by rewrite !sort_by_perm].
  intros x y. rewrite !sort_by_perm, <-Hp. apply Hanti.
Qed.
End sort_lemmas.

#[global] Arguments le_bytes : simpl never.
#[global] Arguments str_bytes : simpl never.

(** A loop over the entries of a map acts once on each key. *)
Section keyed_loop.
Context {K V X A : Type} `{Countable K} `{MapIter}.
Variables (f : A → K * V → A) (view : A → K → X).
Hypothesis f_other : ∀ a k v k', k ≠ k' → view (f a (k, v)) k' = view a k'.

Lemma loop_skips (l : list (K * V)) a k : k ∉ l.*1 → view (foldl f a l) k = view a k.
Proof.
  revert a. induction l as [|[k' v] l IH]; intros a Hk; [done|]. cbn in *.
  apply not_elem_of_cons in Hk as [Hne Hk]. by rewrite IH, f_other.
Qed.
Lemma loop_hits (l : list (K * V)) a k v g :
  (∀ a', view a' k = view a k → view (f a' (k, v)) k = g) →
  NoDup l.*1 → (k, v) ∈ l → view (foldl f a l) k = g.
Proof.
  intros Hg Hnd Hin. revert a Hg. induction l as [|[k' v'] l IH]; intros a Hg; [by apply elem_of_nil in Hin|].
  cbn in *. apply NoDup_cons in Hnd as [Hnk Hnd]. apply elem_of_cons in Hin as [[= -> ->]|Hin].
  - rewrite loop_skips by done. by apply Hg.
  - apply IH; [done|done|]. intros a' Ha'. apply Hg. rewrite Ha'. apply f_other. intros ->.
    apply Hnk, list_elem_of_fmap. by exists (k, v).
Qed.
End keyed_loop.

Lemma iter_filter_nodup `{MapIter} {K V} `{Countable K} (P : K * V → Prop) `{∀ x, Decision (P x)} (m : gmap K V) :
  NoDup (filter P (iter m)).*1.
Proof. eapply sublist_NoDup; [|apply fmap_sublist, sublist_filter]. rewrite iter_perm. apply NoDup_fst_map_to_list. Qed.
Lemma elem_of_iter_filter `{MapIter} {K V} `{Countable K} (P : K * V → Prop) `{∀ x, Decision (P x)} (m : gmap K V) k v :
  (k, v) ∈ filter P (iter m) ↔ P (k, v) ∧ m !! k = Some v.
Proof. by rewrite list_elem_of_filter, iter_perm, elem_of_map_to_list. Qed.
