(* ===== verification/Types.v ===== *)
(** * Core data types of the node (src/types.rs, src/constants.rs)

    Structs are records and enums are inductive types with the source's
    constructors.  A [Hash256] and every other byte array is a list of bytes,
    a byte being a [Z] in [0, 256); a [String] is the string of its UTF-8 bytes.
    What the node takes from crates that are not part of this repository
    (SHA-256, Ed25519, [hex], [serde_json] and [bincode] encodings) is the
    interface [Externals], an argument of every definition that uses it. *)

From Stdlib Require Import ZArith Lia Ascii String.
From stdpp Require Import base gmap strings list pretty.
From S2P Require Import Prelude.

Abbreviation Hash256 := (list Z) (only parsing).
Abbreviation bytes := (list Z) (only parsing).
(** [ed25519_dalek::VerifyingKey], by its 32 compressed bytes. *)
Abbreviation VerifyingKey := (list Z) (only parsing).

(** ** Constants (src/constants.rs) *)

Definition SATOSHIS_PER_TIME : Z := 100000000.
Definition BLOCK_REWARD_SATOSHIS : Z := 100 * SATOSHIS_PER_TIME.
Definition PRODUCER_REWARD_SATOSHIS : Z := 30 * SATOSHIS_PER_TIME.
Definition TREASURY_POOL_SATOSHIS : Z := 5 * SATOSHIS_PER_TIME.
Definition GOLD_POOL_SATOSHIS : Z := 25 * SATOSHIS_PER_TIME.
Definition SILVER_POOL_SATOSHIS : Z := 18 * SATOSHIS_PER_TIME.
Definition BRONZE_POOL_SATOSHIS : Z := 14 * SATOSHIS_PER_TIME.
Definition FREE_POOL_SATOSHIS : Z := 8 * SATOSHIS_PER_TIME.
Definition TOTAL_POOL_SATOSHIS : Z :=
  GOLD_POOL_SATOSHIS + SILVER_POOL_SATOSHIS + BRONZE_POOL_SATOSHIS + FREE_POOL_SATOSHIS.
Definition MAX_FREE_TIER_RECIPIENTS : nat := 25.
Definition FREE_TIER_SYBIL_FORK_HEIGHT : Z := 1950.

(** ** Transactions *)

Record OutPoint := mkOutPoint { op_txid : Hash256; vout : Z }.

Record UTXO := mkUTXO {
  outpoint : OutPoint;
  value : Z;
  script_pubkey : bytes;
  address : string;
  masternode_key : option string;
}.

Record TxInput := mkTxInput {
  previous_output : OutPoint;
  script_sig : bytes;
  sequence : Z;
}.

Record TxOutput := mkTxOutput { out_value : Z; out_script_pubkey : bytes }.

Inductive SpecialTransactionData :=
| MasternodeRegistration
    (node_address wallet_address reward_address collateral_outpoint
     pubkey signature : string)
| MasternodeDeregistration (node_address : string) (slot_id : Z) (pubkey signature : string)
| MasternodePayoutUpdate (node_address new_reward_address pubkey signature : string).

Record Transaction := mkTransaction {
  version : Z;
  inputs : list TxInput;
  outputs : list TxOutput;
  lock_time : Z;
  timestamp : Z;
  special_data : option SpecialTransactionData;
  encrypted_memo : option bytes;
}.

(** ** External crates *)

Class Externals := {
  (** [sha2::Sha256::digest] *)
  sha256 : bytes → bytes;
  (** [hex::encode], [hex::decode] *)
  hex_encode : bytes → string;
  hex_decode : string → option bytes;
  (** [serde_json::to_string] and [bincode::serialize] of a transaction *)
  tx_json : Transaction → bytes;
  tx_bincode : Transaction → bytes;
  (** [ed25519_dalek::VerifyingKey::from_bytes]: not every 32 bytes are a point *)
  vk_from_bytes : bytes → option VerifyingKey;
  (** [VerifyingKey::verify] on a message and a 64-byte signature *)
  ed25519_verify : VerifyingKey → bytes → bytes → bool;
}.

(** SHA-256 returns 32 bytes. *)
Class ExternalsLaws `{Externals} := {
  sha256_length : ∀ m, length (sha256 m) = 32%nat;
  sha256_bytes : ∀ m, Forall u8_ok (sha256 m);
}.

(** [ed25519_dalek::Signature::from_slice]. *)
Definition sig_from_slice (b : bytes) : option bytes :=
  if decide (length b = 64%nat) then Some b else None.

Section transactions.
Context `{Externals}.

Definition set_encrypted_memo (m : option bytes) (tx : Transaction) : Transaction :=
  mkTransaction (version tx) (inputs tx) (outputs tx) (lock_time tx) (timestamp tx)
    (special_data tx) m.

Definition txid (tx : Transaction) : Hash256 :=
  sha256 (tx_json (set_encrypted_memo None tx)).

Definition is_masternode_reg (tx : Transaction) : bool :=
  match special_data tx with Some (MasternodeRegistration _ _ _ _ _ _) => true | _ => false end.
Definition is_masternode_dereg (tx : Transaction) : bool :=
  match special_data tx with Some (MasternodeDeregistration _ _ _ _) => true | _ => false end.
Definition is_masternode_update (tx : Transaction) : bool :=
  match special_data tx with Some (MasternodePayoutUpdate _ _ _ _) => true | _ => false end.
Definition is_special (tx : Transaction) : bool := bool_decide (is_Some (special_data tx)).
End transactions.

(** ** Special transactions *)

(** [char::is_ascii_hexdigit]. *)
Definition is_ascii_hexdigit (c : ascii) : bool :=
  let n := nat_of_ascii c in
  ((48 <=? n) && (n <=? 57) || (65 <=? n) && (n <=? 70) || (97 <=? n) && (n <=? 102))%nat.

Definition str_all (f : ascii → bool) (s : string) : bool :=
  forallb f (list_ascii_of_string s).
Definition str_contains (c : ascii) (s : string) : bool :=
  existsb (Ascii.eqb c) (list_ascii_of_string s).
Definition str_is_empty (s : string) : bool := String.eqb s "".

Definition bad_pubkey (pubkey : string) : bool :=
  negb (String.length pubkey =? 64)%nat || negb (str_all is_ascii_hexdigit pubkey).

(** The reasons [validate_fields] and its siblings reject with. *)
Inductive special_error :=
| NodeAddressEmpty | NodeAddressNoPort | WalletAddressEmpty | RewardAddressEmpty
| PubkeyNotHex64 | SignatureEmpty
| InvalidPubkeyHex | PubkeyNot32Bytes | InvalidEd25519Pubkey
| InvalidSigHex | SigNot64Bytes | SignatureInvalid | AddressNotBound.

Definition validate_fields (sd : SpecialTransactionData) : result special_error () :=
  match sd with
  | MasternodeRegistration node_address wallet_address _ _ pubkey signature =>
      fail_if str_is_empty node_address with NodeAddressEmpty in
      fail_if negb (str_contains ":" node_address) with NodeAddressNoPort in
      fail_if str_is_empty wallet_address with WalletAddressEmpty in
      fail_if bad_pubkey pubkey with PubkeyNotHex64 in
      fail_if str_is_empty signature with SignatureEmpty in
      Ok tt
  | MasternodeDeregistration node_address _ pubkey signature =>
      fail_if str_is_empty node_address with NodeAddressEmpty in
      fail_if bad_pubkey pubkey with PubkeyNotHex64 in
      fail_if str_is_empty signature with SignatureEmpty in
      Ok tt
  | MasternodePayoutUpdate node_address new_reward_address pubkey signature =>
      fail_if str_is_empty node_address with NodeAddressEmpty in
      fail_if str_is_empty new_reward_address with RewardAddressEmpty in
      fail_if bad_pubkey pubkey with PubkeyNotHex64 in
      fail_if str_is_empty signature with SignatureEmpty in
      Ok tt
  end.

Section special.
Context `{Externals}.

(** The message each special transaction signs. *)
Definition special_message (sd : SpecialTransactionData) : string :=
  match sd with
  | MasternodeRegistration node_address wallet_address _ collateral_outpoint pubkey _ =>
      let collateral := if str_is_empty collateral_outpoint then "none"%string
                        else collateral_outpoint in
      "MNREG:" +:+ node_address +:+ ":" +:+ wallet_address +:+ ":" +:+ pubkey +:+ ":"
        +:+ collateral
  | MasternodeDeregistration node_address slot_id _ _ =>
      "MNDEREG:" +:+ node_address +:+ ":" +:+ pretty slot_id
  | MasternodePayoutUpdate node_address new_reward_address _ _ =>
      "MNPAYOUT:" +:+ node_address +:+ ":" +:+ new_reward_address
  end.

Definition special_pubkey (sd : SpecialTransactionData) : string :=
  match sd with
  | MasternodeRegistration _ _ _ _ pubkey _ => pubkey
  | MasternodeDeregistration _ _ pubkey _ => pubkey
  | MasternodePayoutUpdate _ _ pubkey _ => pubkey
  end.
Definition special_signature (sd : SpecialTransactionData) : string :=
  match sd with
  | MasternodeRegistration _ _ _ _ _ signature => signature
  | MasternodeDeregistration _ _ _ signature => signature
  | MasternodePayoutUpdate _ _ _ signature => signature
  end.

(** The three arms of [verify_signature] differ only in the message. *)
Definition verify_signature (sd : SpecialTransactionData) : result special_error () :=
  let? pk_bytes := ok_or InvalidPubkeyHex (hex_decode (special_pubkey sd)) in
  fail_if negb (length pk_bytes =? 32)%nat with PubkeyNot32Bytes in
  let? vk := ok_or InvalidEd25519Pubkey (vk_from_bytes pk_bytes) in
  let? sig_bytes := ok_or InvalidSigHex (hex_decode (special_signature sd)) in
  fail_if negb (length sig_bytes =? 64)%nat with SigNot64Bytes in
  if ed25519_verify vk (str_bytes (special_message sd)) sig_bytes
  then Ok tt else Err SignatureInvalid.
End special.

(** ** UTXO states *)

Inductive UTXOState :=
| Unspent
| Locked (txid : Hash256) (locked_at : Z)
| SpentPending (txid : Hash256) (votes total_nodes : Z) (spent_at : Z)
| SpentFinalized (txid : Hash256) (finalized_at : Z) (votes : Z)
| Archived (txid : Hash256) (block_height : Z) (archived_at : Z).

Inductive TransactionStatus :=
| Seen
| Voting (confidence counter started_at : Z)
| FallbackResolution (started_at round alerts_count : Z)
| Finalized (finalized_at vfp_weight : Z)
| Rejected (rejected_at : Z) (reason : string)
| TxArchived (block_height archived_at : Z).

Definition is_terminal (s : TransactionStatus) : bool :=
  match s with Finalized _ _ | Rejected _ _ | TxArchived _ _ => true | _ => false end.
Definition is_pending_status (s : TransactionStatus) : bool :=
  match s with Seen | Voting _ _ _ | FallbackResolution _ _ _ => true | _ => false end.

(** ** Masternodes *)

Inductive MasternodeTier := Free | Bronze | Silver | Gold.

Definition can_vote_governance (t : MasternodeTier) : bool :=
  match t with Free => false | _ => true end.
Definition collateral (t : MasternodeTier) : Z :=
  match t with
  | Free => 0
  | Bronze => 1000 * 100000000
  | Silver => 10000 * 100000000
  | Gold => 100000 * 100000000
  end.
Definition from_collateral_value (v : Z) : option MasternodeTier :=
  if collateral Gold <=? v then Some Gold
  else if collateral Silver <=? v then Some Silver
  else if collateral Bronze <=? v then Some Bronze
  else None.
Definition reward_weight (t : MasternodeTier) : Z :=
  match t with Free => 1 | Bronze => 5 | Silver => 20 | Gold => 60 end.
Definition pool_allocation (t : MasternodeTier) : Z :=
  match t with
  | Gold => GOLD_POOL_SATOSHIS
  | Silver => SILVER_POOL_SATOSHIS
  | Bronze => BRONZE_POOL_SATOSHIS
  | Free => FREE_POOL_SATOSHIS
  end.
Definition voting_power (t : MasternodeTier) : Z :=
  match t with Free => 0 | Bronze => 1 | Silver => 10 | Gold => 100 end.
Definition sampling_weight (t : MasternodeTier) : Z :=
  match t with Free => 1 | Bronze => 10 | Silver => 100 | Gold => 1000 end.

Record Masternode := mkMasternode {
  mn_address : string;
  wallet_address : string;
  mn_reward_address : string;
  mn_collateral : Z;
  collateral_outpoint : option OutPoint;
  mn_locked_at : Z;
  mn_unlock_height : option Z;
  public_key : VerifyingKey;
  tier : MasternodeTier;
  registered_at : Z;
  slot_id : Z;
}.

Definition new_legacy (addr wallet : string) (coll : Z) (pk : VerifyingKey)
    (t : MasternodeTier) (registered : Z) : Masternode :=
  mkMasternode addr wallet "" coll None registered None pk t registered (U32 - 1).
Definition new_with_collateral (addr wallet : string) (coll : Z) (op : OutPoint)
    (pk : VerifyingKey) (t : MasternodeTier) (registered : Z) : Masternode :=
  mkMasternode addr wallet "" coll (Some op) registered None pk t registered (U32 - 1).
Definition has_locked_collateral (m : Masternode) : bool :=
  bool_decide (is_Some (collateral_outpoint m)).

(** How a masternode was registered (src/masternode_registry.rs). *)
Inductive RegistrationSource := Handshake | OnChain (height : Z).

Record MasternodeInfo := mkMasternodeInfo {
  masternode : Masternode;
  reward_address : string;
  uptime_start : Z;
  total_uptime : Z;
  is_active : bool;
  consensus_suspended : bool;
  daemon_started_at : Z;
  last_reward_height : Z;
  blocks_without_reward : Z;
  registration_height : Z;
  registration_source : RegistrationSource;
  peer_reports : gmap string Z;
  operator_pubkey : option string;
  is_publicly_reachable : bool;
  reachability_checked_at : Z;
  first_seen_at : Z;
  last_seen_at : Z;
}.

Record LockedCollateral := mkLockedCollateral {
  lc_outpoint : OutPoint;
  masternode_address : string;
  lock_height : Z;
  lc_locked_at : Z;
  unlock_height : option Z;
  amount : Z;
}.

(** [LockedCollateral::new], the current time being an argument. *)
Definition new_locked_collateral (now : Z) (op : OutPoint) (mn : string)
    (height amt : Z) : LockedCollateral :=
  mkLockedCollateral op mn height now None amt.

Definition is_unlockable (l : LockedCollateral) (current_height : Z) : bool :=
  match unlock_height l with Some h => h <=? current_height | None => false end.

(** ** Decidable equality and countability *)

#[export] Instance OutPoint_eq_dec : EqDecision OutPoint.
Proof. solve_decision. Defined.
#[export] Instance OutPoint_countable : Countable OutPoint.
Proof.
  refine (inj_countable' (λ o, (op_txid o, vout o)) (λ p, mkOutPoint p.1 p.2) _).
  by intros [].
Defined.
#[export] Instance UTXO_eq_dec : EqDecision UTXO.
Proof. solve_decision. Defined.
#[export] Instance TxInput_eq_dec : EqDecision TxInput.
Proof. solve_decision. Defined.
#[export] Instance TxOutput_eq_dec : EqDecision TxOutput.
Proof. solve_decision. Defined.
#[export] Instance Special_eq_dec : EqDecision SpecialTransactionData.
Proof. solve_decision. Defined.
#[export] Instance Transaction_eq_dec : EqDecision Transaction.
Proof. solve_decision. Defined.
#[export] Instance TxInput_countable : Countable TxInput.
Proof.
  refine (inj_countable' (λ i, (previous_output i, script_sig i, sequence i))
    (λ '(o, s, n), mkTxInput o s n) _). by intros [].
Defined.
#[export] Instance TxOutput_countable : Countable TxOutput.
Proof.
  refine (inj_countable' (λ o, (out_value o, out_script_pubkey o)) (λ '(v, s), mkTxOutput v s) _).
  by intros [].
Defined.
#[export] Instance Special_countable : Countable SpecialTransactionData.
Proof.
  refine (inj_countable'
    (λ sd, match sd with
           | MasternodeRegistration a b c d e f => inl (a, b, c, d, e, f)
           | MasternodeDeregistration a b c d => inr (inl (a, b, c, d))
           | MasternodePayoutUpdate a b c d => inr (inr (a, b, c, d))
           end)
    (λ x, match x with
          | inl (a, b, c, d, e, f) => MasternodeRegistration a b c d e f
          | inr (inl (a, b, c, d)) => MasternodeDeregistration a b c d
          | inr (inr (a, b, c, d)) => MasternodePayoutUpdate a b c d
          end) _). by intros [].
Defined.
#[export] Instance Transaction_countable : Countable Transaction.
Proof.
  refine (inj_countable'
    (λ t, (version t, inputs t, outputs t, lock_time t, timestamp t, special_data t, encrypted_memo t))
    (λ '(a, b, c, d, e, f, g), mkTransaction a b c d e f g) _). by intros [].
Defined.
#[export] Instance UTXOState_eq_dec : EqDecision UTXOState.
Proof. solve_decision. Defined.
#[export] Instance MasternodeTier_eq_dec : EqDecision MasternodeTier.
Proof. solve_decision. Defined.
#[export] Instance LockedCollateral_eq_dec : EqDecision LockedCollateral.
Proof. solve_decision. Defined.
