(* ===== verification/Instances.v ===== *)
(** * A concrete instance of the external crates

    A small computable instance of [Externals] with its laws: the witnesses of
    theorems that are parametric in the external crates are evaluated at it.  Its
    digest is not SHA-256 and its signature check is not Ed25519; nothing but the
    witnesses uses it. *)

From Stdlib Require Import ZArith Lia Ascii String.
From stdpp Require Import base gmap strings list.
From S2P Require Import Prelude Types.

Definition hex_digit (n : Z) : ascii :=
  ascii_of_nat (Z.to_nat (if n <? 10 then 48 + n else 87 + n)).
Definition hex_of_bytes (b : bytes) : string :=
  string_of_list_ascii (flat_map (λ x, [hex_digit (x / 16); hex_digit (x mod 16)]) b).
Definition hex_value (c : ascii) : option Z :=
  let n := Z.of_nat (nat_of_ascii c) in
  if (48 <=? n) && (n <=? 57) then Some (n - 48)
  else if (97 <=? n) && (n <=? 102) then Some (n - 87)
  else if (65 <=? n) && (n <=? 70) then Some (n - 55) else None.
Fixpoint bytes_of_hex (s : string) : option bytes :=
  match s with
  | EmptyString => Some []
  | String a (String b s) =>
      match hex_value a, hex_value b, bytes_of_hex s with
      | Some x, Some y, Some l => Some (x * 16 + y :: l)
      | _, _, _ => None
      end
  | _ => None
  end.

(** Some byte string that tells the transactions of the witnesses apart. *)
Definition model_tx_bytes (tx : Transaction) : bytes :=
  le_bytes 8 (timestamp tx) ++ le_bytes 4 (lock_time tx)
    ++ flat_map (λ o, le_bytes 8 (out_value o)) (outputs tx).

Definition model_digest (m : bytes) : bytes :=
  take 32 (map (λ x, x mod 256) m ++ replicate 32 0).

Definition model_externals : Externals := {|
  sha256 := model_digest;
  hex_encode := hex_of_bytes;
  hex_decode := bytes_of_hex;
  tx_json := model_tx_bytes;
  tx_bincode := model_tx_bytes;
  vk_from_bytes b := if (length b =? 32)%nat then Some b else None;
  ed25519_verify pk m s := bool_decide (take (length pk) s = pk);
|}.

Lemma model_externals_laws : @ExternalsLaws model_externals.
Proof.
  split; intros m; cbn; unfold model_digest.
  - rewrite length_take, length_app, length_replicate. lia.
  - apply Forall_take, Forall_app. split; [|apply Forall_replicate; unfold u8_ok; lia].
    apply Forall_map, Forall_forall. intros x _. unfold u8_ok. by apply Z.mod_pos_bound.
Defined.

(** An instance whose digest starts with the length of the message, which tells the
    messages of a small Merkle tree apart. *)
Definition tagged_digest (m : bytes) : bytes :=
  take 32 (map (λ x, x mod 256) (Z.of_nat (length m) :: m) ++ replicate 32 0).
Definition tagged_externals : Externals := {|
  sha256 := tagged_digest;
  hex_encode := hex_of_bytes;
  hex_decode := bytes_of_hex;
  tx_json := model_tx_bytes;
  tx_bincode := model_tx_bytes;
  vk_from_bytes b := if (length b =? 32)%nat then Some b else None;
  ed25519_verify pk m s := bool_decide (take (length pk) s = pk);
|}.
Lemma tagged_externals_laws : @ExternalsLaws tagged_externals.
Proof.
  split; intros m; cbn [sha256 tagged_externals]; unfold tagged_digest.
  - rewrite length_take, length_app, length_replicate. lia.
  - apply Forall_take, Forall_app. split; [|apply Forall_replicate; unfold u8_ok; lia].
    apply Forall_map, Forall_forall. intros x _. unfold u8_ok. by apply Z.mod_pos_bound.
Defined.
