(* ===== verification/Address.v ===== *)
(** * Base58, addresses and collateral-claim proofs
    (src/crypto/base58.rs, src/address.rs, the address binding of src/types.rs)

    A [&str] that is read character by character is the list of its Unicode
    code points; the strings the encoder writes are ASCII. *)

From Stdlib Require Import ZArith Lia Ascii String.
From stdpp Require Import base gmap strings list pretty.
From S2P Require Import Prelude Types Instances.

(** ** Base58 *)

Definition BASE58_ALPHABET : list Z :=
  str_bytes "123456789ABCDEFGHJKLMNPQRSTUVWXYZabcdefghijkmnopqrstuvwxyz".

(** The inner [for d in digits.iter_mut()] loop of [encode]. *)
Fixpoint encode_loop (carry : Z) (digits : list Z) : list Z * Z :=
  match digits with
  | [] => ([], carry)
  | d :: ds =>
      let carry := carry + Z.shiftl d 8 in
      let '(ds', c') := encode_loop (carry / 58) ds in
      (carry mod 58 :: ds', c')
  end.

(** [while carry > 0 { digits.push(..); carry /= 58 }]; a [u32] carry is
    exhausted after at most 32 rounds. *)
Fixpoint encode_push (fuel : nat) (carry : Z) : list Z :=
  match fuel with
  | O => []
  | S fuel => if 0 <? carry then carry mod 58 :: encode_push fuel (carry / 58) else []
  end.

Definition encode_byte (digits : list Z) (byte : Z) : list Z :=
  let '(digits, carry) := encode_loop byte digits in
  digits ++ encode_push 32 carry.

Fixpoint take_while {A} (f : A → bool) (l : list A) : list A :=
  match l with [] => [] | x :: l => if f x then x :: take_while f l else [] end.

(** [encode], as the character codes of the string it returns. *)
Definition encode (data : bytes) : list Z :=
  let digits := foldl encode_byte [] data in
  let ones := map (λ _, Z.of_nat (nat_of_ascii "1")) (take_while (Z.eqb 0) data) in
  ones ++ map (λ d, nth (Z.to_nat d) BASE58_ALPHABET 0) (reverse digits).

Fixpoint decode_loop (carry : Z) (bs : list Z) : list Z * Z :=
  match bs with
  | [] => ([], carry)
  | b :: bs =>
      let carry := carry + b * 58 in
      let '(bs', c') := decode_loop (Z.shiftr carry 8) bs in
      (Z.land carry 255 :: bs', c')
  end.

Fixpoint decode_push (fuel : nat) (carry : Z) : list Z :=
  match fuel with
  | O => []
  | S fuel =>
      if 0 <? carry then Z.land carry 255 :: decode_push fuel (Z.shiftr carry 8) else []
  end.

(** [BASE58_ALPHABET.iter().position(|&c| c == ch as u8)]: the cast keeps the
    low byte of the code point. *)
Fixpoint position (c : Z) (l : list Z) : option Z :=
  match l with
  | [] => None
  | x :: l => if x =? c then Some 0 else Z.succ <$> position c l
  end.
Definition base58_index (ch : Z) : option Z := position (ch mod 256) BASE58_ALPHABET.

(** [None] stands for the error "Invalid base58 character". *)
Fixpoint decode_chars (s : list Z) (bs : list Z) : option (list Z) :=
  match s with
  | [] => Some bs
  | ch :: s =>
      match base58_index ch with
      | None => None
      | Some idx =>
          let '(bs, carry) := decode_loop idx bs in
          decode_chars s (bs ++ decode_push 32 carry)
      end
  end.

Definition decode (s : list Z) : option bytes :=
  match decode_chars s [] with
  | None => None
  | Some bs =>
      let leading_ones := length (take_while (Z.eqb (Z.of_nat (nat_of_ascii "1"))) s) in
      Some (replicate leading_ones 0 ++ reverse bs)
  end.

(** ** Positional notation

    Both loops multiply a little-endian digit string by one base and add a
    carry; they are the same algorithm at (58, 256) and (256, 58). *)

Fixpoint val (b : Z) (ds : list Z) : Z :=
  match ds with [] => 0 | d :: ds => d + b * val b ds end.

Definition digits_ok (b : Z) (ds : list Z) : Prop := Forall (λ d, 0 ≤ d < b) ds.
(** No superfluous most significant zero. *)
Definition canonical (b : Z) (ds : list Z) : Prop :=
  digits_ok b ds ∧ (ds = [] ∨ b ^ (Z.of_nat (length ds) - 1) ≤ val b ds).

Fixpoint mul_add (b m carry : Z) (ds : list Z) : list Z * Z :=
  match ds with
  | [] => ([], carry)
  | d :: ds =>
      let c := carry + d * m in
      let '(ds', c') := mul_add b m (c / b) ds in (c mod b :: ds', c')
  end.
Fixpoint push_digits (b : Z) (fuel : nat) (c : Z) : list Z :=
  match fuel with
  | O => []
  | S f => if 0 <? c then c mod b :: push_digits b f (c / b) else []
  end.
Definition step_digits (b m : Z) (ds : list Z) (x : Z) : list Z :=
  let '(ds, c) := mul_add b m x ds in ds ++ push_digits b 32 c.

Section positional.
Context (b : Z) (Hb : 2 ≤ b).

Lemma val_app ds es : val b (ds ++ es) = val b ds + b ^ Z.of_nat (length ds) * val b es.
Proof.
  induction ds as [|d ds IH]; cbn [val app length]; [rewrite Z.pow_0_r; lia|].
  rewrite IH, Nat2Z.inj_succ, Z.pow_succ_r by lia. lia.
Qed.

Lemma val_bound ds : digits_ok b ds → 0 ≤ val b ds < b ^ Z.of_nat (length ds).
Proof.
  induction 1 as [|d ds Hd _ IH]; cbn [val length]; [rewrite Z.pow_0_r; lia|].
  rewrite Nat2Z.inj_succ, Z.pow_succ_r by lia. nia.
Qed.

Lemma val_inj ds es :
  digits_ok b ds → digits_ok b es → length ds = length es → val b ds = val b es → ds = es.
Proof.
  intros Hds. revert es. induction Hds as [|d ds Hd _ IH]; intros [|e es] Hes Hl Hv;
    try done. inversion_clear Hes as [|?? He Hes']. cbn [val] in Hv.
  assert (d = e ∧ val b ds = val b es) as [-> Hv'].
  { enough (val b ds = val b es) by lia.
    apply (f_equal (λ v, v / b)) in Hv.
    rewrite !(Z.add_comm _ (b * _)), !(Z.mul_comm b), !Z.div_add_l, !Z.div_small in Hv by lia.
    lia. }
  f_equal. apply IH; [done| |done]. by injection Hl.
Qed.

Lemma canonical_inj ds es :
  canonical b ds → canonical b es → val b ds = val b es → ds = es.
Proof.
  intros [Hd Cd] [He Ce] Hv. apply val_inj; [done..| |done].
  pose proof (val_bound ds Hd) as Bd. pose proof (val_bound es He) as Be.
  destruct (lt_eq_lt_dec (length ds) (length es)) as [[Hlt|]|Hlt]; [|done|].
  - destruct Ce as [->|Ce]; [simpl in *; lia|].
    assert (b ^ Z.of_nat (length ds) ≤ b ^ (Z.of_nat (length es) - 1))
      by (apply Z.pow_le_mono_r; lia). lia.
  - destruct Cd as [->|Cd]; [simpl in *; lia|].
    assert (b ^ Z.of_nat (length es) ≤ b ^ (Z.of_nat (length ds) - 1))
      by (apply Z.pow_le_mono_r; lia). lia.
Qed.

Lemma canonical_last ds d : canonical b (ds ++ [d]) → d ≠ 0.
Proof.
  intros [Ho [Hn|Hv]] ->; [by destruct ds|].
  apply Forall_app in Ho as [Ho _]. pose proof (val_bound ds Ho).
  rewrite val_app, length_app in Hv. cbn [val length] in Hv.
  replace (Z.of_nat (length ds + 1) - 1) with (Z.of_nat (length ds)) in Hv by lia. lia.
Qed.

Lemma canonical_snoc ds d : digits_ok b ds → 0 < d < b → canonical b (ds ++ [d]).
Proof.
  intros Ho Hd. split; [apply Forall_app; split; [done|by repeat constructor; lia]|].
  right. pose proof (val_bound ds Ho). rewrite val_app, length_app. cbn [val length].
  replace (Z.of_nat (length ds + 1) - 1) with (Z.of_nat (length ds)) by lia. nia.
Qed.

Lemma mul_add_spec m c ds :
  0 ≤ c < m → digits_ok b ds →
  let '(ds', c') := mul_add b m c ds in
  digits_ok b ds' ∧ length ds' = length ds ∧ 0 ≤ c' < m ∧
  val b ds' + b ^ Z.of_nat (length ds) * c' = c + m * val b ds.
Proof.
  intros Hc Ho. revert c Hc. induction Ho as [|d ds Hd _ IH]; intros c Hc;
    cbn [mul_add].
  { cbn [val length]. rewrite Z.pow_0_r. split_and!; [constructor|done|lia|lia|lia]. }
  assert (0 ≤ (c + d * m) / b < m) as Hc'.
  { split; [apply Z.div_pos; nia|apply Z.div_lt_upper_bound; nia]. }
  specialize (IH _ Hc'). destruct (mul_add b m ((c + d * m) / b) ds) as [ds' c'].
  destruct IH as (Ho' & Hl & Hb' & Hv). cbn [val length].
  pose proof (Z.mod_pos_bound (c + d * m) b ltac:(lia)).
  pose proof (Z.div_mod (c + d * m) b ltac:(lia)) as E.
  split_and!; [by constructor|by f_equal|lia|lia|].
  rewrite Nat2Z.inj_succ, Z.pow_succ_r by lia. nia.
Qed.

Lemma push_digits_spec fuel c :
  0 ≤ c < b ^ Z.of_nat fuel →
  canonical b (push_digits b fuel c) ∧ val b (push_digits b fuel c) = c.
Proof.
  revert c. induction fuel as [|f IH]; intros c Hc; cbn [push_digits].
  { rewrite Z.pow_0_r in Hc. cbn. split; [split; [constructor|by left]|lia]. }
  destruct (Z.ltb_spec 0 c); [|cbn; split; [split; [constructor|by left]|lia]].
  rewrite Nat2Z.inj_succ, Z.pow_succ_r in Hc by lia.
  assert (0 ≤ c / b < b ^ Z.of_nat f) as Hq.
  { split; [apply Z.div_pos; lia|apply Z.div_lt_upper_bound; lia]. }
  destruct (IH _ Hq) as [[Ho Hcan] Hv]. pose proof (Z.div_mod c b ltac:(lia)).
  pose proof (Z.mod_pos_bound c b ltac:(lia)).
  split; [|cbn [val]; rewrite Hv; lia]. split; [by constructor|right].
  cbn [val length]. rewrite Hv. destruct Hcan as [Hn|Hcan].
  { rewrite Hn. cbn [length]. change (Z.of_nat 1 - 1) with 0. rewrite Z.pow_0_r. lia. }
  destruct (push_digits b f (c / b)) as [|d ds]; [cbn; rewrite Z.pow_0_r; lia|].
  cbn [length] in *. replace (Z.of_nat (S (S (length ds))) - 1)
    with (Z.succ (Z.of_nat (S (length ds)) - 1)) by lia.
  rewrite Z.pow_succ_r by lia. nia.
Qed.

Lemma step_digits_spec m x ds :
  1 ≤ m ≤ 2 ^ 32 → 0 ≤ x < m → canonical b ds →
  canonical b (step_digits b m ds x) ∧ val b (step_digits b m ds x) = x + m * val b ds.
Proof.
  intros Hm Hx [Ho Hc]. unfold step_digits.
  pose proof (mul_add_spec m x ds Hx Ho) as Hs. destruct (mul_add b m x ds) as [ds' c'].
  destruct Hs as (Ho' & Hl & Hb' & Hv).
  assert (0 ≤ c' < b ^ Z.of_nat 32) as Hc'.
  { assert (2 ^ 32 ≤ b ^ Z.of_nat 32) by (apply Z.pow_le_mono_l; lia). lia. }
  destruct (push_digits_spec 32 c' Hc') as [[Hpo Hpc] Hpv].
  pose proof (val_bound ds Ho). pose proof (val_bound ds' Ho').
  rewrite val_app, Hpv, Hl. split; [|lia]. split; [by apply Forall_app|].
  destruct (push_digits b 32 c') as [|p ps] eqn:Hp.
  - cbn in Hpv. subst c'. rewrite app_nil_r.
    destruct Hc as [->|Hc]; [left; by apply length_zero_iff_nil|].
    right. rewrite Hl. nia.
  - right. destruct Hpc as [|Hpc]; [done|].
    rewrite val_app, Hpv, length_app, Hl, Nat2Z.inj_add, <-Z.add_sub_assoc,
      Z.pow_add_r by (cbn [length]; lia). rewrite <-Hpv. nia.
Qed.

Lemma fold_digits_spec m xs ds :
  1 ≤ m ≤ 2 ^ 32 → Forall (λ x, 0 ≤ x < m) xs → canonical b ds →
  canonical b (foldl (step_digits b m) ds xs) ∧
  val b (foldl (step_digits b m) ds xs)
    = val m (reverse xs) + m ^ Z.of_nat (length xs) * val b ds.
Proof.
  intros Hm Hxs. revert ds. induction Hxs as [|x xs Hx _ IH]; intros ds Hc.
  { cbn [foldl length]. rewrite reverse_nil, Z.pow_0_r. cbn [val]. split; [done|lia]. }
  destruct (step_digits_spec m x ds Hm Hx Hc) as [Hc' Hv'].
  cbn [foldl]. destruct (IH _ Hc') as [Hc'' Hv'']. split; [done|].
  rewrite Hv'', Hv', reverse_cons.
  assert (∀ l, val m (l ++ [x]) = val m l + m ^ Z.of_nat (length l) * x) as ->.
  { intros l. induction l as [|y l IHl]; cbn [val app length]; [rewrite Z.pow_0_r; lia|].
    rewrite IHl, Nat2Z.inj_succ, Z.pow_succ_r by lia. lia. }
  rewrite length_reverse. cbn [length]. rewrite Nat2Z.inj_succ, Z.pow_succ_r by lia. lia.
Qed.
End positional.

(** ** Base58 round trip *)

Lemma encode_byte_step ds x : encode_byte ds x = step_digits 58 256 ds x.
Proof.
  assert (∀ c ds, encode_loop c ds = mul_add 58 256 c ds) as Hl.
  { intros c l. revert c. induction l as [|d l IH]; intros c; cbn [encode_loop mul_add]; [done|].
    by rewrite Z.shiftl_mul_pow2, IH by lia. }
  assert (∀ f c, encode_push f c = push_digits 58 f c) as Hp.
  { intros f. induction f as [|f IH]; intros c; cbn; [done|]. by rewrite IH. }
  unfold encode_byte, step_digits. rewrite Hl. destruct (mul_add 58 256 x ds). by rewrite Hp.
Qed.

Lemma land_255 c : Z.land c 255 = c mod 256.
Proof. change 255 with (Z.ones 8). by rewrite Z.land_ones. Qed.

Lemma decode_loop_step ds x :
  (let '(ds, c) := decode_loop x ds in ds ++ decode_push 32 c) = step_digits 256 58 ds x.
Proof.
  assert (∀ c ds, decode_loop c ds = mul_add 256 58 c ds) as Hl.
  { intros c l. revert c. induction l as [|d l IH]; intros c; cbn [decode_loop mul_add]; [done|].
    by rewrite land_255, Z.shiftr_div_pow2, IH by lia. }
  assert (∀ f c, decode_push f c = push_digits 256 f c) as Hp.
  { intros f. induction f as [|f IH]; intros c; cbn [decode_push push_digits]; [done|].
    by rewrite IH, land_255, Z.shiftr_div_pow2 by lia. }
  unfold step_digits. rewrite Hl. destruct (mul_add 256 58 x ds). by rewrite Hp.
Qed.

Definition alphabet_char (d : Z) : Z := nth (Z.to_nat d) BASE58_ALPHABET 0.

(** Facts about the alphabet are decided by running through its 58 digits. *)
Definition alphabet_check (n : nat) : bool :=
  let d := Z.of_nat n in let c := alphabet_char d in
  bool_decide (base58_index c = Some d) && eqb (c =? 49) (d =? 0) && (0 <=? c) && (c <? 128).

Lemma alphabet_char_spec d :
  0 ≤ d < 58 →
  base58_index (alphabet_char d) = Some d ∧ (alphabet_char d = 49 ↔ d = 0) ∧
  0 ≤ alphabet_char d < 128.
Proof.
  intros Hd. assert (forallb alphabet_check (seq 0 58) = true) as HF by by vm_compute.
  rewrite forallb_forall in HF. specialize (HF (Z.to_nat d)).
  rewrite in_seq in HF. specialize (HF ltac:(lia)). unfold alphabet_check in HF.
  rewrite Z2Nat.id in HF by lia. rewrite !andb_true_iff, bool_decide_eq_true, eqb_true_iff in HF.
  destruct HF as [[[? He] ?] ?]. split_and!; [done| |lia..].
  rewrite <-Z.eqb_eq, He. apply Z.eqb_eq.
Qed.

Lemma decode_chars_digits ds bs :
  digits_ok 58 ds → decode_chars (map alphabet_char ds) bs = Some (foldl (step_digits 256 58) bs ds).
Proof.
  intros Ho. revert bs. induction Ho as [|d ds Hd _ IH]; intros bs; cbn [map decode_chars foldl]; [done|].
  destruct (alphabet_char_spec d Hd) as [-> _].
  pose proof (decode_loop_step bs d) as Hs. destruct (decode_loop d bs) as [bs' c].
  by rewrite Hs, IH.
Qed.

Lemma take_while_zeros data :
  ∃ rest, data = take_while (Z.eqb 0) data ++ rest ∧
    take_while (Z.eqb 0) data = replicate (length (take_while (Z.eqb 0) data)) 0 ∧
    match rest with [] => True | x :: _ => x ≠ 0 end.
Proof.
  induction data as [|x data (rest & E1 & E2 & E3)]; cbn [take_while]; [by exists []|].
  destruct (Z.eqb_spec 0 x) as [<-|Hx]; [|by exists (x :: data)].
  exists rest. cbn [length replicate app]. split_and!; [by f_equal|by f_equal|done].
Qed.

Lemma fold_step_zeros b m n : 2 ≤ b → foldl (step_digits b m) [] (replicate n 0) = [].
Proof. intros Hb. induction n as [|n IH]; cbn; done. Qed.

Lemma decode_chars_ones n s : decode_chars (replicate n 49 ++ s) [] = decode_chars s [].
Proof. induction n as [|n IH]; [done|]. exact IH. Qed.

Lemma canonical_nil b : canonical b [].
Proof. split; [constructor|by left]. Qed.
#[export] Hint Resolve canonical_nil : timecoin.

(** A big-endian digit string without a leading zero is canonical read backwards. *)
Lemma canonical_reverse b ds :
  2 ≤ b → digits_ok b ds → match ds with [] => True | x :: _ => x ≠ 0 end →
  canonical b (reverse ds).
Proof.
  intros Hb Ho Hx. destruct ds as [|x ds]; [auto with timecoin|].
  inversion_clear Ho as [|?? Hx' Ho']. rewrite reverse_cons. apply canonical_snoc; [done| |lia].
  by apply Forall_reverse.
Qed.

(** The digits [encode] accumulates are the canonical base-58 digits of the
    big-endian number the data denotes. *)
Lemma encode_digits data :
  Forall u8_ok data →
  ∃ ds rest, let k := length (take_while (Z.eqb 0) data) in
    data = replicate k 0 ++ rest ∧ canonical 256 (reverse rest) ∧
    canonical 58 ds ∧ val 58 ds = val 256 (reverse rest) ∧
    encode data = replicate k 49 ++ map alphabet_char (reverse ds).
Proof.
  intros Hd. destruct (take_while_zeros data) as (rest & E1 & E2 & E3).
  set (k := length (take_while (Z.eqb 0) data)) in *. rewrite E2 in E1.
  assert (Forall u8_ok rest) as Hr by (rewrite E1 in Hd; by apply Forall_app in Hd as [_ ?]).
  assert (foldl encode_byte [] data = foldl (step_digits 58 256) [] rest) as Hf.
  { rewrite E1 at 1. rewrite foldl_app.
    assert (∀ l a, foldl encode_byte a l = foldl (step_digits 58 256) a l) as Hs.
    { intros l. induction l as [|x l IH]; intros a; cbn; [done|]. by rewrite encode_byte_step, IH. }
    by rewrite !Hs, fold_step_zeros by lia. }
  destruct (fold_digits_spec 58 ltac:(lia) 256 rest [] ltac:(lia) Hr (canonical_nil _)) as [Hc Hv].
  exists (foldl (step_digits 58 256) [] rest), rest. cbn zeta.
  split_and!; [done|by apply canonical_reverse|done|cbn [val] in Hv; lia|].
  unfold encode. rewrite Hf, E2. f_equal. clear. fold k.
  induction k as [|k IH]; cbn; [done|]. by f_equal.
Qed.

Lemma take_while_replicate n x s :
  match s with [] => True | y :: _ => y ≠ x end →
  length (take_while (Z.eqb x) (replicate n x ++ s)) = n.
Proof.
  intros Hs. induction n as [|n IH]; cbn [replicate app take_while].
  - destruct s as [|y s]; [done|]. cbn. by destruct (Z.eqb_spec x y) as [->|].
  - rewrite Z.eqb_refl. cbn. by f_equal.
Qed.

Lemma decode_encode data : Forall u8_ok data → decode (encode data) = Some data.
Proof.
  intros Hd. destruct (encode_digits data Hd) as (ds & rest & Hdata & Hr & Hc & Hv & He).
  set (k := length (take_while (Z.eqb 0) data)) in *.
  unfold decode. rewrite He, decode_chars_ones.
  assert (digits_ok 58 (reverse ds)) as Ho by apply Forall_reverse, Hc.
  rewrite decode_chars_digits by done.
  destruct (fold_digits_spec 256 ltac:(lia) 58 (reverse ds) [] ltac:(lia) Ho (canonical_nil _))
    as [Hc' Hv']. rewrite reverse_involutive in Hv'. cbn [val] in Hv'.
  assert (foldl (step_digits 256 58) [] (reverse ds) = reverse rest) as ->.
  { apply (canonical_inj 256); [lia|done|done|lia]. }
  rewrite reverse_involutive, Hdata. f_equal. f_equal. f_equal.
  apply take_while_replicate. destruct ds as [|d ds _] using rev_ind; [done|].
  rewrite reverse_snoc. cbn [map]. apply canonical_last in Hc as Hd'; [|lia].
  destruct Hc as [Hc _]. apply Forall_app in Hc as [_ Hc]. inversion_clear Hc.
  intros E. by apply (alphabet_char_spec d) in E.
Qed.

(** ** Addresses *)

Inductive NetworkType := Mainnet | Testnet.

Record Address := mkAddress { addr_network : NetworkType; payload : bytes }.

Inductive AddressError :=
| InvalidLength | InvalidPrefix | InvalidNetwork | InvalidPayload
| InvalidChecksum | InvalidBase58.

(** Bytes of a code point in UTF-8, so that [str::len] is [utf8_len]. *)
Definition char_len (c : Z) : Z :=
  if c <? 128 then 1 else if c <? 2048 then 2 else if c <? 65536 then 3 else 4.
Definition utf8_len (s : list Z) : Z := sumZ (map char_len s).

Definition digit_char (n : NetworkType) : Z :=
  match n with Testnet => 48 | Mainnet => 49 end.

(** A string of ASCII character codes. *)
Definition ascii_string (s : list Z) : string :=
  string_of_list_ascii (map (λ c, ascii_of_nat (Z.to_nat c)) s).

Section address.
Context `{Externals}.

(** [base58::checksum], the first four bytes of a double SHA-256. *)
Definition checksum (data : bytes) : bytes := take 4 (sha256 (sha256 data)).

Definition hash_public_key (pubkey : bytes) : bytes := take 20 (sha256 pubkey).

Definition from_public_key (pubkey : bytes) (network : NetworkType) : Address :=
  mkAddress network (hash_public_key pubkey).

(** [as_string], as character codes and as a string. *)
Definition as_chars (a : Address) : list Z :=
  let data := payload a ++ take 4 (checksum (payload a)) in
  str_bytes "TIME" ++ digit_char (addr_network a) :: encode data.
Definition as_string (a : Address) : string := ascii_string (as_chars a).

Definition from_string (s : list Z) : result AddressError Address :=
  fail_if (utf8_len s <? 35) || (45 <? utf8_len s) with InvalidLength in
  fail_if negb (bool_decide (take 4 s = str_bytes "TIME")) with InvalidPrefix in
  let? network :=
    match s !! 4%nat with
    | Some 48 => Ok Testnet
    | Some 49 => Ok Mainnet
    | _ => Err InvalidNetwork
    end in
  let? decoded := ok_or InvalidBase58 (decode (drop 5 s)) in
  fail_if negb (length decoded =? 24)%nat with InvalidPayload in
  let payload_bytes := take 20 decoded in
  let cs := take 4 (drop 20 decoded) in
  fail_if negb (bool_decide (cs = take 4 (checksum payload_bytes))) with InvalidChecksum in
  Ok (mkAddress network payload_bytes).

(** The message a collateral claim signs. *)
Definition claim_message (outpoint_txid : Hash256) (outpoint_vout : Z) : bytes :=
  str_bytes ("TIME_COLLATERAL_CLAIM:" +:+ hex_encode outpoint_txid +:+ ":"
               +:+ pretty outpoint_vout).

(** [verify_collateral_claim_proof]. *)
Definition verify_collateral_claim_proof (public_key : VerifyingKey) (proof : bytes)
    (reward_address utxo_address : string) (outpoint_txid : Hash256)
    (outpoint_vout : Z) : bool :=
  if (length proof =? 0)%nat || str_is_empty utxo_address then false
  else if negb (String.eqb reward_address utxo_address) then false
  else
    match (if String.prefix "TIME0" utxo_address then Some Testnet
           else if String.prefix "TIME1" utxo_address then Some Mainnet else None) with
    | None => false
    | Some network =>
        let proof_msg := claim_message outpoint_txid outpoint_vout in
        if (length proof =? 64)%nat then
          let derived := as_string (from_public_key public_key network) in
          if negb (String.eqb derived utxo_address) then false
          else match sig_from_slice proof with
               | Some sig => ed25519_verify public_key proof_msg sig
               | None => false
               end
        else if (length proof =? 96)%nat then
          match vk_from_bytes (take 32 proof) with
          | None => false
          | Some wallet_pk =>
              let derived := as_string (from_public_key wallet_pk network) in
              if negb (String.eqb derived utxo_address) then false
              else match sig_from_slice (drop 32 proof) with
                   | Some sig => ed25519_verify wallet_pk proof_msg sig
                   | None => false
                   end
          end
        else false
    end.

(** [SpecialTransactionData::verify_address_binding]. *)
Definition verify_address_binding (sd : SpecialTransactionData) : result special_error () :=
  match sd with
  | MasternodeRegistration _ wallet_address _ _ pubkey _ =>
      let? pk_bytes := ok_or InvalidPubkeyHex (hex_decode pubkey) in
      fail_if negb (length pk_bytes =? 32)%nat with PubkeyNot32Bytes in
      let expected_mainnet := as_string (from_public_key pk_bytes Mainnet) in
      let expected_testnet := as_string (from_public_key pk_bytes Testnet) in
      fail_if negb (String.eqb wallet_address expected_mainnet)
              && negb (String.eqb wallet_address expected_testnet)
        with AddressNotBound in
      Ok tt
  | _ => Ok tt
  end.

(** ** Theorems *)

(** An encoding of [n] bytes of which the first [k] are zero has [k + len]
    characters, [len] being the number of base-58 digits. *)
Lemma encode_length data k len :
  Forall u8_ok data → k = length (take_while (Z.eqb 0) data) →
  (k < length data)%nat →
  58 ^ Z.of_nat len ≤ 256 ^ Z.of_nat (length data - k - 1) →
  256 ^ Z.of_nat (length data - k) ≤ 58 ^ Z.of_nat (40 - k) → (k ≤ 40)%nat →
  (k + len + 1 ≤ length (encode data) ≤ 40)%nat.
Proof.
  intros Hd -> Hk Hlo Hhi Hk40.
  destruct (encode_digits data Hd) as (ds & rest & Hdata & Hr & Hc & Hv & He).
  set (k := length (take_while (Z.eqb 0) data)) in *.
  assert (length rest = (length data - k)%nat) as Hl.
  { rewrite Hdata, length_app, length_replicate. lia. }
  rewrite He, length_app, length_map, length_reverse, length_replicate.
  destruct Hr as [Hro [Hrn|Hrv]].
  { apply (f_equal length) in Hrn. rewrite length_reverse in Hrn. cbn in Hrn. lia. }
  pose proof (val_bound 256 ltac:(lia) _ Hro) as Bv. rewrite length_reverse, Hl in *.
  destruct Hc as [Hco Hcn]. pose proof (val_bound 58 ltac:(lia) ds Hco) as Bd. split.
  - assert (len < length ds)%nat; [|lia].
    apply Nat2Z.inj_lt, (Z.pow_lt_mono_r_iff 58); [lia|lia|].
    replace (Z.of_nat (length data - k) - 1) with (Z.of_nat (length data - k - 1)) in Hrv by lia.
    lia.
  - destruct (decide (length ds ≤ 40 - k)%nat); [lia|].
    destruct Hcn as [->|Hcn]; [cbn in *; lia|].
    assert (58 ^ Z.of_nat (40 - k) ≤ 58 ^ (Z.of_nat (length ds) - 1)); [|lia].
    apply Z.pow_le_mono_r; lia.
Qed.

Lemma utf8_len_ascii s : Forall (λ c, 0 ≤ c < 128) s → utf8_len s = Z.of_nat (length s).
Proof.
  unfold utf8_len, sumZ. induction 1 as [|c s Hc _ IH]; cbn [map foldr length]; [done|].
  unfold char_len at 1. destruct (Z.ltb_spec c 128); lia.
Qed.

Lemma encode_ascii data : Forall u8_ok data → Forall (λ c, 0 ≤ c < 128) (encode data).
Proof.
  intros Hd. destruct (encode_digits data Hd) as (ds & rest & _ & _ & [Ho _] & _ & ->).
  apply Forall_app. split; [apply Forall_replicate; lia|].
  apply Forall_map, Forall_reverse. eapply Forall_impl; [exact Ho|].
  intros d Hd'. by destruct (alphabet_char_spec d Hd') as (_ & _ & ?).
Qed.

Lemma take_while_app l m :
  (length (take_while (Z.eqb 0) l) < length l)%nat →
  take_while (Z.eqb 0) (l ++ m) = take_while (Z.eqb 0) l.
Proof.
  induction l as [|x l IH]; cbn [take_while length app]; [lia|].
  destruct (0 =? x); cbn [length]; intros; [|done]. rewrite IH by lia. done.
Qed.

Lemma checksum_length `{!ExternalsLaws} data : length (checksum data) = 4%nat.
Proof. unfold checksum. rewrite length_take, sha256_length. done. Qed.

Lemma encode_24_length data :
  Forall u8_ok data → length data = 24%nat →
  (length (take_while (Z.eqb 0) data) ≤ 6)%nat → (30 ≤ length (encode data) ≤ 40)%nat.
Proof.
  intros Hd Hl Hk. remember (length (take_while (Z.eqb 0) data)) as k eqn:Ek.
  assert (58 ^ Z.of_nat (29 - k) ≤ 256 ^ Z.of_nat (length data - k - 1) ∧
          256 ^ Z.of_nat (length data - k) ≤ 58 ^ Z.of_nat (40 - k)) as [Hlo Hhi].
  { rewrite Hl. clear -Hk. do 7 (destruct k as [|k]; [by vm_compute|]). lia. }
  pose proof (encode_length data k (29 - k) Hd Ek ltac:(lia) Hlo Hhi ltac:(lia)). lia.
Qed.

(** Parsing a printed address gives it back, for every 20-byte payload with at most six
    leading zero bytes, over any digest of 32 bytes. *)
Theorem address_roundtrip `{!ExternalsLaws} (a : Address) :
  length (payload a) = 20%nat → Forall u8_ok (payload a) →
  (length (take_while (Z.eqb 0) (payload a)) ≤ 6)%nat →
  from_string (as_chars a) = Ok a.
Proof.
  intros Hl Hb Hz. destruct a as [net p]. cbn [payload] in *.
  unfold as_chars. cbn [payload addr_network].
  rewrite take_ge by (rewrite checksum_length; lia).
  set (data := p ++ checksum p).
  assert (Forall u8_ok data) as Hd.
  { apply Forall_app. split; [done|]. apply Forall_take, sha256_bytes. }
  assert (length data = 24%nat) as Hdl by (unfold data; rewrite length_app, checksum_length; lia).
  assert (30 ≤ length (encode data) ≤ 40)%nat as He.
  { apply encode_24_length; [done..|]. unfold data. rewrite take_while_app by lia. done. }
  unfold from_string. change (str_bytes "TIME") with [84; 73; 77; 69].
  rewrite utf8_len_ascii.
  2: { repeat (constructor; [try (destruct net); simpl; lia|]). by apply encode_ascii. }
  cbn [length app take drop lookup list_lookup].
  rewrite bool_decide_true by done. cbn [negb].
  destruct (Z.ltb_spec (Z.of_nat (S (S (S (S (S (length (encode data)))))))) 35); [lia|].
  destruct (Z.ltb_spec 45 (Z.of_nat (S (S (S (S (S (length (encode data)))))))))
    ; [lia|]. cbn [orb].
  rewrite drop_0. assert (decode (encode data) = Some data) as -> by by apply decode_encode.
  assert (take 20 data = p ∧ drop 20 data = checksum p) as [Ht Hdr].
  { unfold data. rewrite <-Hl. by rewrite take_app_length, drop_app_length. }
  destruct net; cbn [digit_char ok_or]; rewrite Hdl, Hdr, Ht, bool_decide_true by done; done.
Qed.

(** A collateral claim is accepted only with the owner's consent: the reward address is the
    UTXO's address, and that address is derived from a key that signed the claim message of
    this outpoint: the registered key itself, or the wallet key carried by the proof. *)
Theorem collateral_claim_sound pk proof reward utxo_addr tid v :
  verify_collateral_claim_proof pk proof reward utxo_addr tid v = true →
  reward = utxo_addr ∧
  ∃ owner net sig,
    utxo_addr = as_string (from_public_key owner net) ∧
    ed25519_verify owner (claim_message tid v) sig = true ∧
    ((proof = sig ∧ owner = pk) ∨
     (drop 32 proof = sig ∧ vk_from_bytes (take 32 proof) = Some owner)).
Proof.
  unfold verify_collateral_claim_proof, sig_from_slice. intros Hv.
  destruct (_ || _); [done|]. destruct (String.eqb_spec reward utxo_addr); [|done].
  cbn [negb] in Hv. split; [done|]. destruct (if String.prefix _ _ then _ else _) as [net|]; [|done].
  destruct (length proof =? 64)%nat.
  - destruct (String.eqb_spec (as_string (from_public_key pk net)) utxo_addr); [|done].
    cbn [negb] in Hv. case_decide; [|done]. exists pk, net, proof. auto.
  - destruct (length proof =? 96)%nat; [|done].
    destruct (vk_from_bytes (take 32 proof)) as [owner|]; [|done].
    destruct (String.eqb_spec (as_string (from_public_key owner net)) utxo_addr); [|done].
    cbn [negb] in Hv. case_decide; [|done]. exists owner, net, (drop 32 proof). auto.
Qed.
End address.

(** ** Witnesses *)

Definition sample_address : Address := mkAddress Mainnet (map Z.of_nat (seq 0 20)).

Lemma address_roundtrip_witness :
  @from_string model_externals (@as_chars model_externals sample_address) = Ok sample_address.
Proof.
  refine (@address_roundtrip model_externals model_externals_laws sample_address _ _ _).
  - reflexivity.
  - by vm_compute; repeat constructor.
  - vm_compute. lia.
Defined.

Definition sample_key : VerifyingKey := replicate 32 7.
Definition sample_owner : string :=
  @as_string model_externals (@from_public_key model_externals sample_key Mainnet).

Lemma collateral_claim_sound_witness :
  sample_owner = sample_owner ∧
  ∃ owner net sig,
    sample_owner = @as_string model_externals (@from_public_key model_externals owner net) ∧
    @ed25519_verify model_externals owner
      (@claim_message model_externals (replicate 32 1) 0) sig = true ∧
    ((sample_key ++ sample_key = sig ∧ owner = sample_key) ∨
     (drop 32 (sample_key ++ sample_key) = sig ∧
      @vk_from_bytes model_externals (take 32 (sample_key ++ sample_key)) = Some owner)).
Proof.
  apply (@collateral_claim_sound model_externals sample_key (sample_key ++ sample_key)).
  by vm_compute.
Defined.
