(* ===== verification/Finality.v ===== *)
(** * Finality votes and proofs (the voting types of src/types.rs and
    src/finality_proof.rs)

    Signing messages, [TimeProof::verify], [VerifiableFinality::validate], the
    active-validator-set snapshot and the [FinalityProofManager]. *)

From Stdlib Require Import ZArith Lia Ascii String.
From stdpp Require Import base gmap strings list.
From S2P Require Import Prelude Types Instances.

(** ** Votes and their signing messages *)

Inductive VoteDecision := Accept | Reject.
#[export] Instance VoteDecision_eq_dec : EqDecision VoteDecision.
Proof. solve_decision. Defined.

(** [decision as u8]. *)
Definition decision_byte (d : VoteDecision) : Z := match d with Accept => 1 | Reject => 0 end.

Record TimeVote := mkTimeVote {
  chain_id : Z;
  tv_txid : Hash256;
  tx_hash_commitment : Hash256;
  slot_index : Z;
  decision : VoteDecision;
  voter_mn_id : string;
  voter_weight : Z;
  signature : bytes;
}.

Definition signing_message (v : TimeVote) : bytes :=
  le_bytes 4 (chain_id v) ++ tv_txid v ++ tx_hash_commitment v ++ le_bytes 8 (slot_index v)
    ++ [decision_byte (decision v)] ++ str_bytes (voter_mn_id v) ++ le_bytes 8 (voter_weight v).

Definition contributes_to_finality (v : TimeVote) : bool :=
  match decision v with Accept => true | Reject => false end.

Inductive FallbackDecision := FbAccept | FbReject.
Record FinalityProposal := mkFinalityProposal {
  fp_chain_id : Z;
  fp_txid : Hash256;
  fp_commitment : Hash256;
  fp_slot_index : Z;
  fp_decision : FallbackDecision;
  justification : string;
  leader_mn_id : string;
  leader_signature : bytes;
}.
Definition fallback_decision_byte (d : FallbackDecision) : Z :=
  match d with FbAccept => 1 | FbReject => 0 end.
Definition proposal_signing_message (p : FinalityProposal) : bytes :=
  le_bytes 4 (fp_chain_id p) ++ fp_txid p ++ fp_commitment p ++ le_bytes 8 (fp_slot_index p)
    ++ [fallback_decision_byte (fp_decision p)] ++ str_bytes (leader_mn_id p).

Inductive FallbackVoteDecision := FvApprove | FvReject.
Record FallbackVote := mkFallbackVote {
  fv_chain_id : Z;
  fv_proposal_hash : Hash256;
  fv_vote : FallbackVoteDecision;
  fv_voter_mn_id : string;
  fv_voter_weight : Z;
  fv_signature : bytes;
}.
Definition fallback_vote_byte (d : FallbackVoteDecision) : Z :=
  match d with FvApprove => 1 | FvReject => 0 end.
Definition fallback_vote_message (v : FallbackVote) : bytes :=
  le_bytes 4 (fv_chain_id v) ++ fv_proposal_hash v ++ [fallback_vote_byte (fv_vote v)]
    ++ str_bytes (fv_voter_mn_id v) ++ le_bytes 8 (fv_voter_weight v).

Record PollResult := mkPollResult {
  poll_round : Z; votes_valid : Z; votes_invalid : Z; votes_unknown : Z; timestamp_ms : Z;
}.
Record LivenessAlert := mkLivenessAlert {
  la_chain_id : Z;
  la_txid : Hash256;
  la_commitment : Hash256;
  la_slot_index : Z;
  poll_history : list PollResult;
  current_confidence : Z;
  stall_duration_ms : Z;
  reporter_mn_id : string;
  reporter_signature : bytes;
}.
Definition alert_signing_message (a : LivenessAlert) : bytes :=
  le_bytes 4 (la_chain_id a) ++ la_txid a ++ la_commitment a ++ le_bytes 8 (la_slot_index a)
    ++ le_bytes 4 (current_confidence a) ++ le_bytes 8 (stall_duration_ms a)
    ++ str_bytes (reporter_mn_id a).

(** ** TimeProof *)

Record TimeProof := mkTimeProof {
  tp_txid : Hash256;
  tp_slot_index : Z;
  tp_votes : list TimeVote;
}.

Inductive proof_error :=
| ProofNoVotes
| ProofFieldsMismatch
| ProofNonAccept
| ProofDuplicateVoter (id : string)
| ProofNotInAVS (id : string)
| ProofInvalidSignature (id : string)
| ProofInsufficientWeight (accumulated threshold : Z)
| VfpChainIdMismatch | VfpTxidMismatch | VfpCommitmentMismatch | VfpSlotMismatch
| VfpDuplicateVoter | VfpNotInSnapshot (id : string) | VfpBadSignature.

(** 67% of a weight, rounded up; the product wraps like the source's. *)
Definition finality_threshold (total_avs_weight : Z) : Z :=
  div_ceil (mul64 total_avs_weight 67) 100.

Section timeproof.
Context `{Externals}.

(** [vote.verify(&pubkey).is_ok()], shared by every signed message. *)
Definition signed_by (pk : VerifyingKey) (msg sig : bytes) : bool :=
  match sig_from_slice sig with Some s => ed25519_verify pk msg s | None => false end.
Definition vote_verify (v : TimeVote) (pk : VerifyingKey) : bool :=
  signed_by pk (signing_message v) (signature v).

Definition same_subject (r v : TimeVote) : bool :=
  (chain_id v =? chain_id r) && bool_decide (tv_txid v = tv_txid r)
    && bool_decide (tx_hash_commitment v = tx_hash_commitment r)
    && (slot_index v =? slot_index r).

(** The [for vote in &self.votes] loop of [TimeProof::verify]. *)
Fixpoint verify_votes (get_validator_pubkey : string → option VerifyingKey) (r : TimeVote)
    (votes : list TimeVote) (seen : gset string) (acc : Z) : result proof_error Z :=
  match votes with
  | [] => Ok acc
  | vote :: votes =>
      fail_if negb (same_subject r vote) with ProofFieldsMismatch in
      fail_if bool_decide (decision vote ≠ Accept) with ProofNonAccept in
      fail_if bool_decide (voter_mn_id vote ∈ seen)
        with ProofDuplicateVoter (voter_mn_id vote) in
      let? pubkey := ok_or (ProofNotInAVS (voter_mn_id vote))
                           (get_validator_pubkey (voter_mn_id vote)) in
      fail_if negb (vote_verify vote pubkey)
        with ProofInvalidSignature (voter_mn_id vote) in
      verify_votes get_validator_pubkey r votes ({[voter_mn_id vote]} ∪ seen)
        (add64 acc (voter_weight vote))
  end.

(** [TimeProof::verify]. *)
Definition verify (tp : TimeProof) (total_avs_weight : Z)
    (get_validator_pubkey : string → option VerifyingKey) : result proof_error Z :=
  match tp_votes tp with
  | [] => Err ProofNoVotes
  | ref_vote :: _ =>
      let? accumulated := verify_votes get_validator_pubkey ref_vote (tp_votes tp) ∅ 0 in
      let threshold := finality_threshold total_avs_weight in
      fail_if accumulated <? threshold
        with ProofInsufficientWeight accumulated threshold in
      Ok accumulated
  end.

Definition timeproof_hash (tp : TimeProof) : Hash256 :=
  sha256 (tp_txid tp ++ le_bytes 8 (tp_slot_index tp)
    ++ le_bytes 8 (Z.of_nat (length (tp_votes tp))) ++ flat_map signature (tp_votes tp)).

Definition proposal_hash (p : FinalityProposal) : Hash256 :=
  sha256 (proposal_signing_message p).
Definition proposal_verify (p : FinalityProposal) (pk : VerifyingKey) : bool :=
  signed_by pk (proposal_signing_message p) (leader_signature p).
Definition fallback_vote_verify (v : FallbackVote) (pk : VerifyingKey) : bool :=
  signed_by pk (fallback_vote_message v) (fv_signature v).
Definition alert_verify (a : LivenessAlert) (pk : VerifyingKey) : bool :=
  signed_by pk (alert_signing_message a) (reporter_signature a).

(** ** Verifiable finality proofs *)

(** [TimeVote::calculate_tx_commitment]. *)
Definition calculate_tx_commitment (tx : Transaction) : Hash256 := txid tx.
(** The commitment [VerifiableFinality::validate] recomputes. *)
Definition vfp_commitment (tx : Transaction) : Hash256 := sha256 (tx_bincode tx).

Record VerifiableFinality := mkVfp {
  vfp_tx : Transaction;
  vfp_slot_index : Z;
  vfp_votes : list TimeVote;
}.

Definition snapshot_entry : Type := string * Z * VerifyingKey.
Definition entry_of (id : string) (e : snapshot_entry) : bool := String.eqb e.1.1 id.

Fixpoint validate_votes (vfp : VerifiableFinality) (cid : Z)
    (avs_snapshot : list snapshot_entry) (votes : list TimeVote)
    (seen : gset string) (total : Z) : result proof_error Z :=
  match votes with
  | [] => Ok total
  | vote :: votes =>
      fail_if negb (chain_id vote =? cid) with VfpChainIdMismatch in
      fail_if bool_decide (tv_txid vote ≠ txid (vfp_tx vfp)) with VfpTxidMismatch in
      fail_if bool_decide (tx_hash_commitment vote ≠ vfp_commitment (vfp_tx vfp))
        with VfpCommitmentMismatch in
      fail_if negb (slot_index vote =? vfp_slot_index vfp) with VfpSlotMismatch in
      fail_if bool_decide (voter_mn_id vote ∈ seen) with VfpDuplicateVoter in
      let seen := {[voter_mn_id vote]} ∪ seen in
      match List.find (entry_of (voter_mn_id vote)) avs_snapshot with
      | None => Err (VfpNotInSnapshot (voter_mn_id vote))
      | Some (_, weight, pk) =>
          fail_if negb (signed_by pk (signing_message vote) (signature vote))
            with VfpBadSignature in
          validate_votes vfp cid avs_snapshot votes seen (add64 total weight)
      end
  end.

(** [VerifiableFinality::validate]. *)
Definition validate (vfp : VerifiableFinality) (cid : Z)
    (avs_snapshot : list snapshot_entry) : result proof_error Z :=
  validate_votes vfp cid avs_snapshot (vfp_votes vfp) ∅ 0.

(** ** FinalityProofManager (src/finality_proof.rs) *)

Record FinalityProofManager := mkFpm {
  fpm_votes : gmap Hash256 (list TimeVote);
  finalized_txs : gmap Hash256 VerifiableFinality;
  timeproofs : gmap Hash256 TimeProof;
  fpm_chain_id : Z;
}.

Definition fpm_new (cid : Z) : FinalityProofManager := mkFpm ∅ ∅ ∅ cid.

Definition get_votes (m : FinalityProofManager) (t : Hash256) : list TimeVote :=
  default [] (fpm_votes m !! t).

Definition add_vote (m : FinalityProofManager) (t : Hash256) (vote : TimeVote)
    : FinalityProofManager * bool :=
  if negb (chain_id vote =? fpm_chain_id m) then (m, false)
  else if bool_decide (tv_txid vote ≠ t) then (m, false)
  else (mkFpm (<[t := get_votes m t ++ [vote]]> (fpm_votes m)) (finalized_txs m)
          (timeproofs m) (fpm_chain_id m), false).

Definition check_finality_threshold (m : FinalityProofManager) (t : Hash256)
    (total_avs_weight : Z) : option Z :=
  match fpm_votes m !! t with
  | Some votes =>
      let total_weight := sum64 (map voter_weight votes) in
      if finality_threshold total_avs_weight <=? total_weight then Some total_weight else None
  | None => None
  end.

Definition finalize_transaction (m : FinalityProofManager) (tx : Transaction)
    (slot : Z) (avs_snapshot : list snapshot_entry)
    : FinalityProofManager * result proof_error VerifiableFinality :=
  let vfp := mkVfp tx slot (get_votes m (txid tx)) in
  match validate vfp (fpm_chain_id m) avs_snapshot with
  | Err e => (m, Err e)
  | Ok _ => (mkFpm (fpm_votes m) (<[txid tx := vfp]> (finalized_txs m)) (timeproofs m)
               (fpm_chain_id m), Ok vfp)
  end.

Definition is_globally_finalized (m : FinalityProofManager) (t : Hash256) : bool :=
  bool_decide (is_Some (finalized_txs m !! t)).
Definition clear_votes (m : FinalityProofManager) (t : Hash256) : FinalityProofManager :=
  mkFpm (delete t (fpm_votes m)) (finalized_txs m) (timeproofs m) (fpm_chain_id m).

Definition set_timeproofs (m : FinalityProofManager) (tps : gmap Hash256 TimeProof)
    : FinalityProofManager :=
  mkFpm (fpm_votes m) (finalized_txs m) tps (fpm_chain_id m).
Definition store_timeproof (m : FinalityProofManager) (tp : TimeProof) : FinalityProofManager :=
  set_timeproofs m (<[tp_txid tp := tp]> (timeproofs m)).
Definition get_timeproof (m : FinalityProofManager) (t : Hash256) : option TimeProof :=
  timeproofs m !! t.
Definition remove_timeproof (m : FinalityProofManager) (t : Hash256)
    : FinalityProofManager * option TimeProof :=
  (set_timeproofs m (delete t (timeproofs m)), timeproofs m !! t).

(** [cleanup_old_timeproofs]: the first [to_remove] entries in map order go. *)
Definition cleanup_old_timeproofs `{MapIter} (m : FinalityProofManager) (keep_count : nat)
    : FinalityProofManager * nat :=
  let current_count := size (timeproofs m) in
  if (current_count <=? keep_count)%nat then (m, 0%nat)
  else
    let to_remove := (current_count - keep_count)%nat in
    let keys := map fst (take to_remove (iter (timeproofs m))) in
    foldl (λ '(m, removed) key,
      match timeproofs m !! key with
      | Some _ => (set_timeproofs m (delete key (timeproofs m)), S removed)
      | None => (m, removed)
      end) (m, 0%nat) keys.
End timeproof.
Arguments VerifiableFinality : clear implicits.
Arguments FinalityProofManager : clear implicits.

(** ** What a valid proof is *)

Section finality_theorems.
Context `{Externals}.

(** A vote counted by [TimeProof::verify] with [r] as the reference vote. *)
Definition good_vote (get : string → option VerifyingKey) (r v : TimeVote) : Prop :=
  same_subject r v ∧ decision v = Accept ∧
  ∃ pk, get (voter_mn_id v) = Some pk ∧ vote_verify v pk.

(** The declarative reading of the six validity requirements. *)
Definition valid_timeproof (tp : TimeProof) (W : Z) (get : string → option VerifyingKey)
    (w : Z) : Prop :=
  (∃ r rest, tp_votes tp = r :: rest ∧ Forall (good_vote get r) (tp_votes tp)) ∧
  NoDup (map voter_mn_id (tp_votes tp)) ∧
  w = sum64 (map voter_weight (tp_votes tp)) ∧
  finality_threshold W ≤ w.

Lemma verify_votes_spec get r votes seen acc w :
  verify_votes get r votes seen acc = Ok w ↔
  Forall (good_vote get r) votes ∧ NoDup (map voter_mn_id votes) ∧
  Forall (λ v, voter_mn_id v ∉ seen) votes ∧
  w = foldl add64 acc (map voter_weight votes).
Proof.
  revert seen acc. induction votes as [|v votes IH]; intros seen acc; cbn [verify_votes map foldl].
  { split; [intros [= ->]; by repeat constructor|]. by intros (_ & _ & _ & ->). }
  unfold good_vote at 1. rewrite !Forall_cons, NoDup_cons, list_elem_of_fmap.
  destruct (same_subject r v) eqn:Es; cbn [negb];
    [|split; [done|by intros ([([] & _) _] & _)]].
  case_bool_decide as Ed; [split; [done|by intros ([(_ & ? & _) _] & _)]|].
  case_bool_decide as Em; [split; [done|by intros (_ & _ & [? _] & _)]|].
  destruct (get (voter_mn_id v)) as [pk|] eqn:Eg; cbn [ok_or];
    [|split; [done|by intros ([(_ & _ & ? & [=] & _) _] & _)]].
  destruct (vote_verify v pk) eqn:Ev; cbn [negb].
  2: { split; [done|]. intros ([(_ & _ & pk' & [= <-] & Hv) _] & _). by rewrite Ev in Hv. }
  rewrite IH. split.
  - intros (Hg & Hn & Hs & ->). rewrite Forall_forall in Hs. split_and!; try done.
    + exists pk. by rewrite Ev.
    + intros (v' & Heq & Hin). apply (Hs v' Hin). set_solver.
    + apply Forall_forall. intros v' Hin. specialize (Hs v' Hin). set_solver.
  - intros ([_ Hg] & [Hni Hn] & [_ Hs] & ->). split_and!; try done.
    rewrite Forall_forall in Hs |- *. intros v' Hin. specialize (Hs v' Hin).
    rewrite elem_of_union, elem_of_singleton. intros [Heq|]; [|done]. apply Hni. eauto.
Qed.

Lemma verify_spec tp W get w : verify tp W get = Ok w ↔ valid_timeproof tp W get w.
Proof.
  unfold verify, valid_timeproof. destruct (tp_votes tp) as [|r rest] eqn:E.
  { split; [done|]. intros ((r & rest & [=] & _) & _). }
  destruct (verify_votes get r (r :: rest) ∅ 0) as [acc|e] eqn:Ev.
  - apply verify_votes_spec in Ev as (Hg & Hn & _ & ->).
    fold (sum64 (map voter_weight (r :: rest))).
    destruct (Z.ltb_spec (sum64 (map voter_weight (r :: rest))) (finality_threshold W)).
    + split; [done|]. intros (_ & _ & -> & ?). lia.
    + split; [intros [= <-]; eauto 10|]. by intros (_ & _ & -> & _).
  - split; [done|]. intros ((r' & rest' & [= <- <-] & Hg) & Hn & _).
    assert (verify_votes get r (r :: rest) ∅ 0
            = Ok (sum64 (map voter_weight (r :: rest)))) as Hok; [|congruence].
    apply verify_votes_spec. split_and!; try done. apply Forall_forall. set_solver.
Qed.

(** TimeProof verification accepts with weight w exactly the valid proofs: at least one
    vote, all on the same chain, transaction, commitment and slot as the first, all
    accepting, from distinct known validators with valid signatures, w being their
    (wrapping) total and at least 67% of the validator weight rounded up. *)
Theorem timeproof_verify_valid tp W get w :
  verify tp W get = Ok w ↔ valid_timeproof tp W get w.
Proof. apply verify_spec. Qed.

(** The voters of a proof, as entries of the validator set. *)
Definition vote_entry (v : TimeVote) : string * Z := (voter_mn_id v, voter_weight v).
Definition weight_of (ids : list string) (avs : list (string * Z)) : Z :=
  sumZ (map snd (filter (λ e, e.1 ∈ ids) avs)).

Lemma votes_weight_of avs votes :
  NoDup (map fst avs) → NoDup (map voter_mn_id votes) →
  Forall (λ v, vote_entry v ∈ avs) votes →
  sumZ (map voter_weight votes) = weight_of (map voter_mn_id votes) avs.
Proof.
  intros Ha Hv Hin. unfold weight_of.
  replace (map voter_weight votes) with (map snd (map vote_entry votes)) by by rewrite map_map.
  apply sumZ_perm, Permutation_map, NoDup_Permutation.
  - apply (NoDup_fmap_1 fst). by rewrite <-list_fmap_compose.
  - apply NoDup_filter. by apply (NoDup_fmap_1 fst).
  - intros e. rewrite list_elem_of_filter, !list_elem_of_fmap. split.
    + intros (v & -> & Hv'). rewrite Forall_forall in Hin. eauto 10.
    + intros ((v & Heq & Hv') & He). exists v. split; [|done].
      rewrite Forall_forall in Hin. specialize (Hin v Hv').
      destruct e as [i w]. cbn in Heq. subst i. unfold vote_entry in *. f_equal.
      apply (elem_of_list_to_map_1 (M := gmap string)) in Hin, He; [|done..]. congruence.
Qed.

Lemma weight_of_inter avs ids1 ids2 :
  Forall (λ e, 0 ≤ e.2) avs →
  weight_of ids1 avs + weight_of ids2 avs
    ≤ weight_of (filter (λ i, i ∈ ids2) ids1) avs + sumZ (map snd avs).
Proof.
  assert (∀ ids i w l, weight_of ids ((i, w) :: l)
            = (if decide (i ∈ ids) then w else 0) + weight_of ids l) as Hc.
  { intros ids i w l. unfold weight_of. rewrite filter_cons. cbn [fst].
    by destruct (decide (i ∈ ids)). }
  induction 1 as [|[i w] avs Hw _ IH]; [cbn; lia|]. rewrite !Hc. cbn [map sumZ foldr snd] in *.
  unfold sumZ in *. destruct (decide (i ∈ filter _ ids1)) as [Hf|Hf];
    rewrite list_elem_of_filter in Hf;
    destruct (decide (i ∈ ids1)), (decide (i ∈ ids2)); try lia; tauto.
Qed.

Lemma threshold_bound W : 0 ≤ W → W * 67 < U64 → W * 67 ≤ finality_threshold W * 100.
Proof.
  intros. unfold finality_threshold. rewrite mul64_small by lia.
  pose proof (div_ceil_spec (W * 67) 100 ltac:(lia) ltac:(lia)). lia.
Qed.

(** C19: Quorum intersection: if the votes of two verified TimeProofs carry the weights of
    the validator set, the validators that voted in both hold at least 34% of the total
    weight; so conflicting finalizations need more than a third of the weight to vote twice.
    *)
Theorem timeproof_quorum_intersection tp1 tp2 get avs W w1 w2 :
  NoDup (map fst avs) → Forall (λ e, 0 ≤ e.2) avs → W = sumZ (map snd avs) → W * 67 < U64 →
  Forall (λ v, vote_entry v ∈ avs) (tp_votes tp1) →
  Forall (λ v, vote_entry v ∈ avs) (tp_votes tp2) →
  verify tp1 W get = Ok w1 → verify tp2 W get = Ok w2 →
  34 * W ≤ 100 * weight_of (filter (λ i, i ∈ map voter_mn_id (tp_votes tp2))
                                   (map voter_mn_id (tp_votes tp1))) avs.
Proof.
  intros Hnd Hpos HW Hov Hin1 Hin2 Hv1 Hv2.
  apply verify_spec in Hv1 as (_ & Hn1 & -> & Ht1).
  apply verify_spec in Hv2 as (_ & Hn2 & -> & Ht2).
  assert (0 ≤ W) as HW0.
  { rewrite HW. apply sumZ_nonneg, Forall_map. eapply Forall_impl; [exact Hpos|done]. }
  assert (∀ ids, weight_of ids avs ≤ W) as Hle.
  { intros ids. rewrite HW. unfold weight_of. apply sumZ_sublist.
    - apply Forall_map. eapply Forall_impl; [exact Hpos|done].
    - apply (fmap_sublist snd), sublist_filter. }
  assert (∀ ids, 0 ≤ weight_of ids avs) as Hge.
  { intros ids. apply sumZ_nonneg, Forall_map, Forall_filter.
    eapply Forall_impl; [exact Hpos|done]. }
  pose proof (votes_weight_of avs _ Hnd Hn1 Hin1) as E1.
  pose proof (votes_weight_of avs _ Hnd Hn2 Hin2) as E2.
  rewrite sum64_small, E1 in Ht1 by (rewrite E1; split; [apply Hge|]; specialize (Hle (map voter_mn_id (tp_votes tp1))); lia).
  rewrite sum64_small, E2 in Ht2 by (rewrite E2; split; [apply Hge|]; specialize (Hle (map voter_mn_id (tp_votes tp2))); lia).
  pose proof (threshold_bound W HW0 Hov).
  pose proof (weight_of_inter avs (map voter_mn_id (tp_votes tp1)) (map voter_mn_id (tp_votes tp2)) Hpos).
  lia.
Qed.

(** One self-declared vote is enough: verification sums the weights the votes declare, and
    never compares the proof's own txid and slot with them. *)
Theorem timeproof_weight_self_declared v pk get W t slot :
  get (voter_mn_id v) = Some pk → vote_verify v pk = true → decision v = Accept →
  finality_threshold W ≤ voter_weight v < U64 → 0 ≤ voter_weight v →
  verify (mkTimeProof t slot [v]) W get = Ok (voter_weight v).
Proof.
  intros Hg Hv Hd Hw Hp. apply verify_spec.
  assert (sum64 [voter_weight v] = voter_weight v) as Hs.
  { rewrite sum64_small; cbn; lia. }
  unfold valid_timeproof. cbn [tp_votes map]. rewrite Hs. split_and!; [|repeat constructor; set_solver|lia|lia].
  exists v, []. split; [done|]. constructor; [|constructor]. split_and!; [|done|].
  - unfold same_subject. by rewrite !Z.eqb_refl, !bool_decide_true.
  - exists pk. by rewrite Hv.
Qed.

(** ** Verifiable finality proofs *)

(** What [VerifiableFinality::validate] checks of a vote; the decision is not
    among it. *)
Definition vfp_good_vote (vfp : VerifiableFinality) (cid : Z)
    (avs : list snapshot_entry) (v : TimeVote) (weight : Z) : Prop :=
  chain_id v = cid ∧ tv_txid v = txid (vfp_tx vfp) ∧
  tx_hash_commitment v = vfp_commitment (vfp_tx vfp) ∧ slot_index v = vfp_slot_index vfp ∧
  ∃ id pk, List.find (entry_of (voter_mn_id v)) avs = Some (id, weight, pk) ∧
           signed_by pk (signing_message v) (signature v).

Lemma validate_votes_spec vfp cid avs votes seen total w :
  validate_votes vfp cid avs votes seen total = Ok w →
  NoDup (map voter_mn_id votes) ∧ Forall (λ v, voter_mn_id v ∉ seen) votes ∧
  ∃ weights, Forall2 (vfp_good_vote vfp cid avs) votes weights ∧
             w = foldl add64 total weights.
Proof.
  revert seen total. induction votes as [|v votes IH]; intros seen total; cbn [validate_votes].
  { intros [= <-]. split_and!; [constructor|constructor|]. exists []. by split. }
  destruct (Z.eqb_spec (chain_id v) cid); cbn [negb]; [|done].
  case_bool_decide; [done|]. case_bool_decide; [done|].
  destruct (Z.eqb_spec (slot_index v) (vfp_slot_index vfp)); cbn [negb]; [|done].
  case_bool_decide as Hseen; [done|].
  destruct (List.find (entry_of (voter_mn_id v)) avs) as [[[id weight] pk]|] eqn:Ef; [|done].
  destruct (signed_by pk _ _) eqn:Es; cbn [negb]; [|done].
  intros (Hn & Hs & ws & Hf & ->)%IH. rewrite Forall_forall in Hs. cbn [map]. split_and!.
  - constructor; [|done]. intros (v' & Heq & Hin)%list_elem_of_fmap. apply (Hs v' Hin). set_solver.
  - constructor; [done|]. apply Forall_forall. intros v' Hin. specialize (Hs v' Hin). set_solver.
  - exists (weight :: ws). split; [|done]. constructor; [|done].
    unfold vfp_good_vote. split_and!; [done..|]. exists id, pk. by rewrite Es.
Qed.

(** A finality proof is recorded only if valid: finalize_transaction succeeds with the
    accumulated votes of the transaction from distinct voters, each on this chain,
    transaction, commitment and slot, from a snapshot member with a valid signature; exactly
    the finalized table changes. *)
Theorem finalize_transaction_sound m tx slot avs m' vfp :
  finalize_transaction m tx slot avs = (m', Ok vfp) →
  vfp_tx vfp = tx ∧ vfp_slot_index vfp = slot ∧ vfp_votes vfp = get_votes m (txid tx) ∧
  NoDup (map voter_mn_id (vfp_votes vfp)) ∧
  (∃ weights, Forall2 (vfp_good_vote vfp (fpm_chain_id m) avs) (vfp_votes vfp) weights) ∧
  finalized_txs m' = <[txid tx := vfp]> (finalized_txs m) ∧
  fpm_votes m' = fpm_votes m ∧ timeproofs m' = timeproofs m.
Proof.
  unfold finalize_transaction, validate. destruct (validate_votes _ _ _ _ _ _) eqn:E; [|done].
  intros [= <- <-]. apply validate_votes_spec in E as (Hn & _ & ws & Hf & _).
  cbn. split_and!; eauto.
Qed.

(** Repeated votes are all kept and all counted towards the threshold. *)
Theorem add_vote_repeats m t v n :
  chain_id v = fpm_chain_id m → tv_txid v = t → get_votes m t = [] →
  let m' := Nat.iter n (λ m, (add_vote m t v).1) m in
  get_votes m' t = replicate n v ∧
  (n ≠ 0%nat → 0 ≤ Z.of_nat n * voter_weight v < U64 →
   ∀ W, finality_threshold W ≤ Z.of_nat n * voter_weight v →
   check_finality_threshold m' t W = Some (Z.of_nat n * voter_weight v)).
Proof.
  intros Hc Ht Hempty m'.
  assert (fpm_chain_id m' = fpm_chain_id m ∧ get_votes m' t = replicate n v ∧
          (n ≠ 0%nat → fpm_votes m' !! t = Some (replicate n v))) as (_ & Hg & Hl).
  { unfold m'. clear m'. induction n as [|n (IHc & IHg & _)]; [done|].
    cbn [Nat.iter nat_rect] in *. set (m1 := Nat.iter n _ m) in *. change (nat_rect _ _ _ _) with m1 in *.
    unfold add_vote. rewrite IHc, Hc, Z.eqb_refl, bool_decide_false by (intros []; done). cbn.
    unfold get_votes at 1. cbn. rewrite lookup_insert_eq. cbn.
    rewrite IHg, <-replicate_S_end. done. }
  split; [done|]. intros Hn Hb W HW. unfold check_finality_threshold. rewrite Hl by done.
  assert (sum64 (map voter_weight (replicate n v)) = Z.of_nat n * voter_weight v) as ->.
  { replace (map voter_weight (replicate n v)) with (replicate n (voter_weight v))
      by (clear; induction n; cbn; by f_equal).
    rewrite sum64_small; rewrite sumZ_repeat; done. }
  by destruct (Z.leb_spec (finality_threshold W) (Z.of_nat n * voter_weight v)); [|lia].
Qed.
End finality_theorems.

(** ** Signed messages determine the fields they cover *)

Definition hash_ok (h : Hash256) : Prop := length h = 32%nat.
Definition vote_ok (v : TimeVote) : Prop :=
  0 ≤ chain_id v < U32 ∧ hash_ok (tv_txid v) ∧ hash_ok (tx_hash_commitment v) ∧
  u64_ok (slot_index v) ∧ u64_ok (voter_weight v).
Definition fallback_vote_ok (v : FallbackVote) : Prop :=
  0 ≤ fv_chain_id v < U32 ∧ hash_ok (fv_proposal_hash v) ∧ u64_ok (fv_voter_weight v).

Lemma fallback_vote_message_inj v w :
  fallback_vote_ok v → fallback_vote_ok w →
  fallback_vote_message v = fallback_vote_message w →
  w = mkFallbackVote (fv_chain_id v) (fv_proposal_hash v) (fv_vote v) (fv_voter_mn_id v)
        (fv_voter_weight v) (fv_signature w).
Proof.
  destruct v as [c h d i n g], w as [c' h' d' i' n' g'].
  intros (Hc & Hh & Hn) (Hc' & Hh' & Hn') He.
  unfold fallback_vote_message, hash_ok, u64_ok, U32, U64 in *. cbn in *.
  apply app_inj_len in He as [Ec He]; [|by rewrite !length_le_bytes].
  apply app_inj_len in He as [Eh He]; [|congruence].
  injection He as Ed He. apply app_inj_len_r in He as [Ei He]; [|by rewrite !length_le_bytes].
  apply str_bytes_inj in Ei. apply (le_bytes_inj 8) in He; [|done..].
  apply (le_bytes_inj 4) in Ec; [|done..]. subst. by destruct d, d'.
Qed.

(** A TimeVote signature fixes the vote: two well-typed votes with the same signing message
    agree in every field but the signature. *)
Theorem signing_message_injective v w :
  vote_ok v → vote_ok w → signing_message v = signing_message w →
  w = mkTimeVote (chain_id v) (tv_txid v) (tx_hash_commitment v) (slot_index v) (decision v)
        (voter_mn_id v) (voter_weight v) (signature w).
Proof.
  destruct v as [c t h s d i n g], w as [c' t' h' s' d' i' n' g'].
  intros (Hc & Ht & Hh & Hs & Hn) (Hc' & Ht' & Hh' & Hs' & Hn') He.
  unfold signing_message, hash_ok, u64_ok, U32, U64 in *. cbn in *.
  apply app_inj_len in He as [Ec He]; [|by rewrite !length_le_bytes].
  apply app_inj_len in He as [Et He]; [|congruence].
  apply app_inj_len in He as [Eh He]; [|congruence].
  apply app_inj_len in He as [Es He]; [|by rewrite !length_le_bytes].
  injection He as Ed He. apply app_inj_len_r in He as [Ei He]; [|by rewrite !length_le_bytes].
  apply str_bytes_inj in Ei. apply (le_bytes_inj 8) in He, Es; [|done..].
  apply (le_bytes_inj 4) in Ec; [|done..]. subst. by destruct d, d'.
Qed.

(** ** Witnesses *)

Section witnesses.
#[local] Existing Instance model_externals.

Definition w_key : VerifyingKey := replicate 32 7.
Definition w_vote (t : Z) (id : string) (w : Z) : TimeVote :=
  mkTimeVote 1 (replicate 32 t) (replicate 32 t) 5 Accept id w (replicate 64 7).
Definition w_get (id : string) : option VerifyingKey := Some w_key.
Definition w_avs : list (string * Z) := [("a", 10); ("b", 10); ("c", 10); ("d", 10)]%string.
Definition w_tp1 : TimeProof :=
  mkTimeProof (replicate 32 1) 5 [w_vote 1 "a" 10; w_vote 1 "b" 10; w_vote 1 "c" 10].
Definition w_tp2 : TimeProof :=
  mkTimeProof (replicate 32 2) 5 [w_vote 2 "b" 10; w_vote 2 "c" 10; w_vote 2 "d" 10].

Lemma timeproof_quorum_intersection_witness :
  34 * 40 ≤ 100 * weight_of (filter (λ i, i ∈ map voter_mn_id (tp_votes w_tp2))
                                    (map voter_mn_id (tp_votes w_tp1))) w_avs.
Proof.
  apply (timeproof_quorum_intersection w_tp1 w_tp2 w_get w_avs 40 30 30).
  - by apply (bool_decide_unpack _); vm_compute.
  - by repeat constructor.
  - done.
  - done.
  - by apply (bool_decide_unpack _); vm_compute.
  - by apply (bool_decide_unpack _); vm_compute.
  - by vm_compute.
  - by vm_compute.
Defined.

Lemma timeproof_weight_self_declared_witness :
  verify (mkTimeProof (replicate 32 9) 77 [w_vote 1 "a" 27]) 40 w_get = Ok 27.
Proof.
  by apply (timeproof_weight_self_declared (w_vote 1 "a" 27) w_key w_get 40 (replicate 32 9) 77);
    vm_compute.
Defined.

Definition w_tx : Transaction := mkTransaction 2 [] [mkTxOutput 5 [1]] 0 3 None None.
Definition w_vfp_vote : TimeVote :=
  mkTimeVote 1 (txid w_tx) (vfp_commitment w_tx) 5 Reject "a" 10 (replicate 64 7).
Definition w_fpm : FinalityProofManager := mkFpm {[txid w_tx := [w_vfp_vote]]} ∅ ∅ 1.
Definition w_vfp : VerifiableFinality := mkVfp w_tx 5 [w_vfp_vote].
Definition w_fpm' : FinalityProofManager :=
  mkFpm {[txid w_tx := [w_vfp_vote]]} {[txid w_tx := w_vfp]} ∅ 1.
Definition w_snapshot : list snapshot_entry := [("a"%string, 10, w_key)].

Lemma finalize_transaction_sound_witness :
  vfp_tx w_vfp = w_tx ∧ vfp_slot_index w_vfp = 5 ∧ vfp_votes w_vfp = get_votes w_fpm (txid w_tx) ∧
  NoDup (map voter_mn_id (vfp_votes w_vfp)) ∧
  (∃ weights, Forall2 (vfp_good_vote w_vfp (fpm_chain_id w_fpm) w_snapshot) (vfp_votes w_vfp) weights) ∧
  finalized_txs w_fpm' = <[txid w_tx := w_vfp]> (finalized_txs w_fpm) ∧
  fpm_votes w_fpm' = fpm_votes w_fpm ∧ timeproofs w_fpm' = timeproofs w_fpm.
Proof.
  apply (finalize_transaction_sound w_fpm w_tx 5 w_snapshot w_fpm' w_vfp). by vm_compute.
Defined.

Lemma add_vote_repeats_witness :
  let m' := Nat.iter 3 (λ m, (add_vote m (replicate 32 1) (w_vote 1 "a" 10)).1) (fpm_new 1) in
  get_votes m' (replicate 32 1) = replicate 3 (w_vote 1 "a" 10) ∧
  (3%nat ≠ 0%nat → 0 ≤ Z.of_nat 3 * 10 < U64 →
   ∀ W, finality_threshold W ≤ Z.of_nat 3 * 10 →
   check_finality_threshold m' (replicate 32 1) W = Some (Z.of_nat 3 * 10)).
Proof.
  apply (add_vote_repeats (fpm_new 1) (replicate 32 1) (w_vote 1 "a" 10) 3); reflexivity.
Defined.

Lemma signing_message_injective_witness :
  let v := w_vote 1 "a" 10 in
  v = mkTimeVote (chain_id v) (tv_txid v) (tx_hash_commitment v) (slot_index v) (decision v)
        (voter_mn_id v) (voter_weight v) (signature v).
Proof.
  cbn zeta. apply (signing_message_injective (w_vote 1 "a" 10) (w_vote 1 "a" 10)).
  - by repeat split.
  - by repeat split.
  - reflexivity.
Defined.
End witnesses.
