(* ===== verification/Storage.v ===== *)
(** * Storage backends (src/storage.rs)

    The [UtxoStorage] trait is a type class of operations with a class of laws;
    the in-memory backend and the sled backend are two instances that discharge
    them, so that the UTXO manager is verified against the interface.  The sled
    database and the [bincode] encodings are parameters of the sled backend. *)

From Stdlib Require Import ZArith Lia Ascii String.
From stdpp Require Import base gmap strings list.
From S2P Require Import Prelude Types.

(** ** Block compression *)

Definition COMPRESSED_MAGIC : bytes := str_bytes "ZSTD".

(** The [zstd] crate: [encode_all] and [decode_all]. *)
Class Zstd := {
  zstd_encode : bytes → option bytes;
  zstd_decode : bytes → option bytes;
}.

Section compression.
Context `{Zstd}.

Definition compress_block (data : bytes) : bytes :=
  let compressed := default data (zstd_encode data) in
  COMPRESSED_MAGIC ++ compressed.

(** [None] is the error "Decompression failed". *)
Definition decompress_block (data : bytes) : option bytes :=
  if (4 <? length data)%nat && bool_decide (take 4 data = COMPRESSED_MAGIC)
  then zstd_decode (drop 4 data)
  else Some data.

Definition should_compress (original compressed : bytes) : bool :=
  Z.of_nat (length compressed) <? Z.of_nat (length original) * 9 / 10.
End compression.

(** ** The storage interface *)

Inductive StorageError :=
| Serialization | Database | TaskJoin | StorageNotFound (o : OutPoint).

(** An operation that fails returns no new store: the caller keeps the old one. *)
Class UtxoStorage (S : Type) := {
  st_get_utxo : S → OutPoint → option UTXO;
  st_add_utxo : S → UTXO → result StorageError S;
  st_remove_utxo : S → OutPoint → result StorageError S;
  st_list_utxos : S → list UTXO;
  st_batch_update : S → list UTXO → list OutPoint → result StorageError S;
  st_clear_all : S → result StorageError S;
}.

(** What a backend promises, through the map of UTXOs it holds. *)
Class UtxoStorageLaws (S : Type) `{UtxoStorage S} := {
  st_wf : S → Prop;
  st_view : S → gmap OutPoint UTXO;
  st_view_key : ∀ s o u, st_wf s → st_view s !! o = Some u → outpoint u = o;
  st_get_view : ∀ s o, st_wf s → st_get_utxo s o = st_view s !! o;
  st_add_view : ∀ s u s', st_wf s → st_add_utxo s u = Ok s' →
    st_wf s' ∧ st_view s' = <[outpoint u := u]> (st_view s);
  st_remove_view : ∀ s o s', st_wf s → st_remove_utxo s o = Ok s' →
    st_wf s' ∧ st_view s' = delete o (st_view s);
  st_list_view : ∀ s, st_wf s → st_list_utxos s ≡ₚ (map_to_list (st_view s)).*2;
  st_clear_view : ∀ s s', st_wf s → st_clear_all s = Ok s' → st_wf s' ∧ st_view s' = ∅;
}.

(** ** In-memory backend *)

Section in_memory.
Context `{MapIter}.

Definition mem_get_utxo (s : gmap OutPoint UTXO) (o : OutPoint) : option UTXO := s !! o.
Definition mem_add_utxo (s : gmap OutPoint UTXO) (u : UTXO)
    : result StorageError (gmap OutPoint UTXO) := Ok (<[outpoint u := u]> s).
Definition mem_remove_utxo (s : gmap OutPoint UTXO) (o : OutPoint)
    : result StorageError (gmap OutPoint UTXO) := Ok (delete o s).
Definition mem_list_utxos (s : gmap OutPoint UTXO) : list UTXO := (iter s).*2.
(** Additions first, then removals. *)
Definition mem_batch_update (s : gmap OutPoint UTXO) (add : list UTXO) (remove : list OutPoint)
    : result StorageError (gmap OutPoint UTXO) :=
  let s := foldl (λ s u, <[outpoint u := u]> s) s add in
  Ok (foldl (λ s o, delete o s) s remove).
Definition mem_clear_all (s : gmap OutPoint UTXO)
    : result StorageError (gmap OutPoint UTXO) := Ok ∅.

#[export] Instance InMemoryUtxoStorage : UtxoStorage (gmap OutPoint UTXO) := {|
  st_get_utxo := mem_get_utxo;
  st_add_utxo := mem_add_utxo;
  st_remove_utxo := mem_remove_utxo;
  st_list_utxos := mem_list_utxos;
  st_batch_update := mem_batch_update;
  st_clear_all := mem_clear_all;
|}.

Definition mem_wf (s : gmap OutPoint UTXO) : Prop :=
  ∀ o u, s !! o = Some u → outpoint u = o.

#[export] Program Instance InMemoryUtxoStorage_laws : UtxoStorageLaws (gmap OutPoint UTXO) := {|
  st_wf := mem_wf;
  st_view s := s;
|}.
Next Obligation. intros s o u Hwf. apply Hwf. Qed.
Next Obligation. done. Qed.
Next Obligation.
  intros s u s' Hwf [= <-]. split; [|done]. intros o v.
  rewrite lookup_insert_Some. naive_solver.
Qed.
Next Obligation.
  intros s o s' Hwf [= <-]. split; [|done]. intros p v. rewrite lookup_delete_Some. naive_solver.
Qed.
Next Obligation. intros s _. cbn. unfold mem_list_utxos. by rewrite iter_perm. Qed.
Next Obligation. intros s s' _ [= <-]. split; [|done]. intros o u. by rewrite lookup_empty. Qed.
End in_memory.

(** ** Sled backend *)

Inductive batch_op := BatchInsert (k v : bytes) | BatchRemove (k : bytes).

(** The part of [sled::Db] the backend uses; any operation may fail. *)
Class SledDb (T : Type) := {
  sled_get : T → bytes → option (option bytes);
  sled_insert : T → bytes → bytes → option T;
  sled_remove : T → bytes → option T;
  sled_iter : T → list (option (bytes * bytes));
  sled_apply_batch : T → list batch_op → option T;
  sled_clear : T → option T;
  sled_flush : T → option T;
}.

Definition batch_apply (m : gmap bytes bytes) (b : batch_op) : gmap bytes bytes :=
  match b with BatchInsert k v => <[k := v]> m | BatchRemove k => delete k m end.

(** The documented behaviour of sled: an ordered map of byte strings, batches
    applied in order, no read failing while the file is intact. *)
Class SledLaws (T : Type) `{SledDb T} := {
  sled_map : T → gmap bytes bytes;
  sled_get_map : ∀ t k, sled_get t k = Some (sled_map t !! k);
  sled_insert_map : ∀ t k v t', sled_insert t k v = Some t' → sled_map t' = <[k := v]> (sled_map t);
  sled_remove_map : ∀ t k t', sled_remove t k = Some t' → sled_map t' = delete k (sled_map t);
  sled_iter_map : ∀ t, sled_iter t ≡ₚ Some <$> map_to_list (sled_map t);
  sled_batch_map : ∀ t bs t', sled_apply_batch t bs = Some t' →
    sled_map t' = foldl batch_apply (sled_map t) bs;
  sled_clear_map : ∀ t t', sled_clear t = Some t' → sled_map t' = ∅;
  sled_flush_map : ∀ t t', sled_flush t = Some t' → sled_map t' = sled_map t;
}.

(** [bincode] of the keys and values. *)
Class UtxoCodec := {
  op_serialize : OutPoint → option bytes;
  utxo_serialize : UTXO → option bytes;
  utxo_deserialize : bytes → option UTXO;
}.
Class UtxoCodecLaws `{UtxoCodec} := {
  op_serialize_inj : ∀ o o' k, op_serialize o = Some k → op_serialize o' = Some k → o = o';
  op_serialize_total : ∀ o, is_Some (op_serialize o);
  utxo_roundtrip : ∀ u b, utxo_serialize u = Some b → utxo_deserialize b = Some u;
}.

(** [SledUtxoStorage], a database handle. *)
Record SledUtxoStorage (T : Type) := mkSled { sled_db : T }.
Arguments mkSled {T} _.
Arguments sled_db {T} _.

Section sled.
Context {T : Type} `{SledDb T} `{UtxoCodec}.

Definition sled_get_utxo (s : SledUtxoStorage T) (o : OutPoint) : option UTXO :=
  key ← op_serialize o; r ← sled_get (sled_db s) key; v ← r; utxo_deserialize v.

Definition sled_add_utxo (s : SledUtxoStorage T) (u : UTXO)
    : result StorageError (SledUtxoStorage T) :=
  let? key := ok_or Serialization (op_serialize (outpoint u)) in
  let? v := ok_or Serialization (utxo_serialize u) in
  let? t := ok_or Database (sled_insert (sled_db s) key v) in
  Ok (mkSled t).

Definition sled_remove_utxo (s : SledUtxoStorage T) (o : OutPoint)
    : result StorageError (SledUtxoStorage T) :=
  let? key := ok_or Serialization (op_serialize o) in
  let? t := ok_or Database (sled_remove (sled_db s) key) in
  Ok (mkSled t).

Definition sled_list_utxos (s : SledUtxoStorage T) : list UTXO :=
  omap (λ item : option (bytes * bytes), kv ← item; utxo_deserialize kv.2)
    (sled_iter (sled_db s)).

(** Removals are put into the batch first, then the additions. *)
Fixpoint batch_removals (remove : list OutPoint) : result StorageError (list batch_op) :=
  match remove with
  | [] => Ok []
  | o :: remove =>
      let? key := ok_or Serialization (op_serialize o) in
      let? rest := batch_removals remove in
      Ok (BatchRemove key :: rest)
  end.
Fixpoint batch_inserts (add : list UTXO) : result StorageError (list batch_op) :=
  match add with
  | [] => Ok []
  | u :: add =>
      let? key := ok_or Serialization (op_serialize (outpoint u)) in
      let? v := ok_or Serialization (utxo_serialize u) in
      let? rest := batch_inserts add in
      Ok (BatchInsert key v :: rest)
  end.
Definition sled_batch_update (s : SledUtxoStorage T) (add : list UTXO) (remove : list OutPoint)
    : result StorageError (SledUtxoStorage T) :=
  let? removals := batch_removals remove in
  let? inserts := batch_inserts add in
  let? t := ok_or Database (sled_apply_batch (sled_db s) (removals ++ inserts)) in
  Ok (mkSled t).

Definition sled_clear_all (s : SledUtxoStorage T) : result StorageError (SledUtxoStorage T) :=
  let? t := ok_or Database (sled_clear (sled_db s)) in
  let? t := ok_or Database (sled_flush t) in
  Ok (mkSled t).

#[export] Instance SledStorage : UtxoStorage (SledUtxoStorage T) := {|
  st_get_utxo := sled_get_utxo;
  st_add_utxo := sled_add_utxo;
  st_remove_utxo := sled_remove_utxo;
  st_list_utxos := sled_list_utxos;
  st_batch_update := sled_batch_update;
  st_clear_all := sled_clear_all;
|}.
End sled.

(** ** Byte maps that hold UTXOs *)
Section kv_store.
Context `{UtxoCodecLaws}.
Implicit Types M : gmap bytes bytes.

(** Every entry is a UTXO under the key of its outpoint. *)
Definition kv_wf (M : gmap bytes bytes) : Prop :=
  ∀ k v, M !! k = Some v →
    ∃ u, utxo_deserialize v = Some u ∧ op_serialize (outpoint u) = Some k.

Definition kv_entries (M : gmap bytes bytes) : list UTXO :=
  omap (λ kv : bytes * bytes, utxo_deserialize kv.2) (map_to_list M).
Definition kv_view (M : gmap bytes bytes) : gmap OutPoint UTXO :=
  list_to_map (map (λ u, (outpoint u, u)) (kv_entries M)).

Lemma kv_entries_spec M u :
  u ∈ kv_entries M ↔ ∃ k v, M !! k = Some v ∧ utxo_deserialize v = Some u.
Proof.
  unfold kv_entries. rewrite list_elem_of_omap. split.
  - intros ([k v] & Hin & Hd). apply elem_of_map_to_list in Hin. eauto.
  - intros (k & v & Hl & Hd). exists (k, v). by rewrite elem_of_map_to_list.
Qed.

Lemma kv_view_lookup M o u :
  kv_wf M →
  kv_view M !! o = Some u ↔
  ∃ k v, op_serialize o = Some k ∧ M !! k = Some v ∧ utxo_deserialize v = Some u.
Proof.
  intros Hwf. unfold kv_view. rewrite <-elem_of_list_to_map'.
  - rewrite list_elem_of_fmap. setoid_rewrite kv_entries_spec. split.
    + intros (u' & [= -> ->] & k & v & Hl & Hd).
      destruct (Hwf k v Hl) as (u'' & Hd' & Hk). simplify_eq. eauto.
    + intros (k & v & Hk & Hl & Hd). exists u. split; [|eauto].
      destruct (Hwf k v Hl) as (u' & Hd' & Hk'). simplify_eq. f_equal.
      by eapply op_serialize_inj.
  - intros u' Hin' (u0 & [= -> ->] & Hin)%list_elem_of_fmap.
    apply list_elem_of_fmap in Hin' as (u1 & [= Ho ->] & Hin').
    apply kv_entries_spec in Hin as (k & v & Hl & Hd).
    apply kv_entries_spec in Hin' as (k' & v' & Hl' & Hd').
    destruct (Hwf k v Hl) as (? & ? & Hk). destruct (Hwf k' v' Hl') as (? & ? & Hk').
    simplify_eq. congruence.
Qed.

Lemma kv_view_key M o u : kv_wf M → kv_view M !! o = Some u → outpoint u = o.
Proof.
  intros Hwf (k & v & Hk & Hl & Hd)%kv_view_lookup; [|done].
  destruct (Hwf k v Hl) as (u' & Hd' & Hk'). simplify_eq. by eapply op_serialize_inj.
Qed.

Lemma kv_insert M u k v :
  kv_wf M → op_serialize (outpoint u) = Some k → utxo_serialize u = Some v →
  kv_wf (<[k := v]> M) ∧ kv_view (<[k := v]> M) = <[outpoint u := u]> (kv_view M).
Proof.
  intros Hwf Ek Ev%utxo_roundtrip.
  assert (kv_wf (<[k := v]> M)) as Hwf'.
  { intros k' w. rewrite lookup_insert_Some. intros [[<- <-]|[_ Hl]]; [eauto|by apply Hwf]. }
  split; [done|]. apply map_eq. intros o. apply option_eq. intros u'.
  rewrite lookup_insert_Some, !kv_view_lookup by done. split.
  - intros (k' & w & Hk & Hl & Hd). apply lookup_insert_Some in Hl as [[<- <-]|[Hne Hl]].
    + left. split; [by eapply op_serialize_inj|congruence].
    + right. split; [congruence|eauto].
  - intros [[<- <-]|[Hne (k' & w & Hk & Hl & Hd)]].
    + exists k, v. by rewrite lookup_insert_eq.
    + exists k', w. rewrite lookup_insert_ne; [done|]. intros ->. apply Hne. by eapply op_serialize_inj.
Qed.

Lemma kv_delete M o k :
  kv_wf M → op_serialize o = Some k →
  kv_wf (delete k M) ∧ kv_view (delete k M) = delete o (kv_view M).
Proof.
  intros Hwf Ek. assert (kv_wf (delete k M)) as Hwf'.
  { intros k' w. rewrite lookup_delete_Some. intros [_ Hl]. by apply Hwf. }
  split; [done|]. apply map_eq. intros p. apply option_eq. intros u.
  rewrite lookup_delete_Some, !kv_view_lookup by done. split.
  - intros (k' & w & Hk & Hl & Hd). apply lookup_delete_Some in Hl as [Hne Hl].
    split; [congruence|eauto].
  - intros [Hne (k' & w & Hk & Hl & Hd)]. exists k', w. rewrite lookup_delete_ne; [done|].
    intros ->. apply Hne. by eapply op_serialize_inj.
Qed.

Lemma kv_entries_nodup M : kv_wf M → NoDup (kv_entries M).
Proof.
  intros Hwf. unfold kv_entries.
  assert (Forall (λ kv, M !! kv.1 = Some kv.2) (map_to_list M)) as HF.
  { apply Forall_forall. intros [k v]. apply elem_of_map_to_list. }
  pose proof (NoDup_fst_map_to_list M) as Hnd.
  induction HF as [|[k v] l Hkv HF IH]; cbn; [constructor|].
  cbn in Hnd, Hkv. apply NoDup_cons in Hnd as [Hni Hnd]. specialize (IH Hnd).
  destruct (Hwf k v Hkv) as (u & Hd & Hk). rewrite Hd. constructor; [|done].
  intros ([k' v'] & Hin & Hd')%list_elem_of_omap. cbn in Hd'.
  apply Hni. apply list_elem_of_fmap. exists (k', v'). split; [|done]. cbn.
  rewrite Forall_forall in HF. specialize (HF _ Hin). cbn in HF.
  destruct (Hwf k' v' HF) as (u' & ? & ?). simplify_eq. congruence.
Qed.

Lemma kv_entries_view M : kv_wf M → kv_entries M ≡ₚ (map_to_list (kv_view M)).*2.
Proof.
  intros Hwf. apply NoDup_Permutation; [by apply kv_entries_nodup| |].
  - apply NoDup_fmap_2_strong; [|apply NoDup_map_to_list].
    intros [o u] [o' u'] Hin Hin' Heq. cbn in Heq. subst.
    apply elem_of_map_to_list in Hin, Hin'. apply kv_view_key in Hin, Hin'; [|done..]. congruence.
  - intros u. rewrite kv_entries_spec, list_elem_of_fmap. split.
    + intros (k & v & Hl & Hd). destruct (Hwf k v Hl) as (u' & ? & Hk). simplify_eq.
      exists (outpoint u, u). split; [done|]. apply elem_of_map_to_list, kv_view_lookup; eauto.
    + intros ([o u'] & -> & Hin%elem_of_map_to_list). cbn.
      apply kv_view_lookup in Hin as (k & v & _ & ? & ?); eauto.
Qed.

(** Batches, against the updates of the view in the order sled applies them. *)
Lemma batch_removals_view M remove bs :
  kv_wf M → batch_removals remove = Ok bs →
  kv_wf (foldl batch_apply M bs) ∧
  kv_view (foldl batch_apply M bs) = foldl (λ s o, delete o s) (kv_view M) remove.
Proof.
  intros Hwf. revert M bs Hwf. induction remove as [|o remove IH]; intros M bs Hwf; cbn.
  { by intros [= <-]. }
  destruct (op_serialize o) as [k|] eqn:Ek; [|done]. cbn.
  destruct (batch_removals remove) as [rest|]; [|done]. intros [= <-]. cbn.
  destruct (kv_delete M o k Hwf Ek) as [Hwf' Hv]. rewrite <-Hv. by apply IH.
Qed.
Lemma batch_inserts_view M add bs :
  kv_wf M → batch_inserts add = Ok bs →
  kv_wf (foldl batch_apply M bs) ∧
  kv_view (foldl batch_apply M bs) = foldl (λ s u, <[outpoint u := u]> s) (kv_view M) add.
Proof.
  intros Hwf. revert M bs Hwf. induction add as [|u add IH]; intros M bs Hwf; cbn.
  { by intros [= <-]. }
  destruct (op_serialize (outpoint u)) as [k|] eqn:Ek; [|done]. cbn.
  destruct (utxo_serialize u) as [v|] eqn:Ev; [|done]. cbn.
  destruct (batch_inserts add) as [rest|]; [|done]. intros [= <-]. cbn.
  destruct (kv_insert M u k v Hwf Ek Ev) as [Hwf' Hv]. rewrite <-Hv. by apply IH.
Qed.
End kv_store.

(** ** The sled backend discharges the interface *)
Section sled_laws.
Context {T : Type} `{SledLaws T} `{UtxoCodecLaws}.

Definition sled_wf (s : SledUtxoStorage T) : Prop := kv_wf (sled_map (sled_db s)).
Definition sled_view (s : SledUtxoStorage T) : gmap OutPoint UTXO :=
  kv_view (sled_map (sled_db s)).

Lemma sled_get_view s o : sled_wf s → sled_get_utxo s o = sled_view s !! o.
Proof.
  intros Hwf. apply option_eq. intros u. unfold sled_view. rewrite kv_view_lookup by done.
  unfold sled_get_utxo. rewrite bind_Some. setoid_rewrite bind_Some.
  setoid_rewrite bind_Some. setoid_rewrite sled_get_map. naive_solver.
Qed.

Lemma sled_add_view s u s' :
  sled_wf s → sled_add_utxo s u = Ok s' →
  sled_wf s' ∧ sled_view s' = <[outpoint u := u]> (sled_view s).
Proof.
  unfold sled_add_utxo, sled_wf, sled_view. intros Hwf.
  destruct (op_serialize (outpoint u)) as [key|] eqn:Ek; [|done].
  destruct (utxo_serialize u) as [v|] eqn:Ev; [|done]. cbn [ok_or].
  destruct (sled_insert (sled_db s) key v) as [t|] eqn:Ei; [|done]. cbn. intros [= <-].
  apply sled_insert_map in Ei. cbn. rewrite Ei. by apply kv_insert.
Qed.

Lemma sled_remove_view s o s' :
  sled_wf s → sled_remove_utxo s o = Ok s' →
  sled_wf s' ∧ sled_view s' = delete o (sled_view s).
Proof.
  unfold sled_remove_utxo, sled_wf, sled_view. intros Hwf.
  destruct (op_serialize o) as [key|] eqn:Ek; [|done]. cbn [ok_or].
  destruct (sled_remove (sled_db s) key) as [t|] eqn:Ei; [|done]. cbn. intros [= <-].
  apply sled_remove_map in Ei. cbn. rewrite Ei. by apply kv_delete.
Qed.

Lemma sled_list_view s : sled_wf s → sled_list_utxos s ≡ₚ (map_to_list (sled_view s)).*2.
Proof.
  intros Hwf. unfold sled_view. rewrite <-kv_entries_view by done.
  unfold sled_list_utxos, kv_entries. rewrite sled_iter_map. clear.
  induction (map_to_list (sled_map (sled_db s))) as [|kv l IH]; [done|].
  cbn. destruct (utxo_deserialize kv.2); [by f_equiv|done].
Qed.

Lemma sled_clear_view s s' :
  sled_wf s → sled_clear_all s = Ok s' → sled_wf s' ∧ sled_view s' = ∅.
Proof.
  intros Hwf. unfold sled_clear_all.
  destruct (sled_clear (sled_db s)) as [t|] eqn:E; [|done]. cbn.
  destruct (sled_flush t) as [t'|] eqn:E'; [|done]. cbn. intros [= <-].
  apply sled_clear_map in E. apply sled_flush_map in E'. rewrite E in E'.
  split; [intros k v; cbn; by rewrite E', lookup_empty|].
  unfold sled_view, kv_view, kv_entries. cbn. by rewrite E', map_to_list_empty.
Qed.

#[export] Instance SledStorage_laws : UtxoStorageLaws (SledUtxoStorage T) := {|
  st_wf := sled_wf;
  st_view := sled_view;
  st_view_key s o u Hwf := kv_view_key _ o u Hwf;
  st_get_view := sled_get_view;
  st_add_view := sled_add_view;
  st_remove_view := sled_remove_view;
  st_list_view := sled_list_view;
  st_clear_view := sled_clear_view;
|}.

(** Inserting and deleting different keys commute. *)
Lemma foldl_delete_insert (m : gmap OutPoint UTXO) u remove :
  outpoint u ∉ remove →
  foldl (λ s o, delete o s) (<[outpoint u := u]> m) remove
    = <[outpoint u := u]> (foldl (λ s o, delete o s) m remove).
Proof.
  revert m. induction remove as [|o remove IH]; intros m Hni; [done|]. cbn.
  apply not_elem_of_cons in Hni as [Hne Hni]. rewrite delete_insert_ne by congruence. by apply IH.
Qed.

(** The sled backend refines the in-memory one: on a batch whose additions and removals are
    disjoint, a successful batch update of the database is the in-memory update of the map
    it represents. *)
Theorem batch_update_agree s add remove s' :
  sled_wf s → (∀ u, u ∈ add → outpoint u ∉ remove) →
  sled_batch_update s add remove = Ok s' →
  sled_wf s' ∧ mem_batch_update (sled_view s) add remove = Ok (sled_view s').
Proof.
  unfold sled_batch_update, sled_wf, sled_view, mem_batch_update. intros Hwf Hdisj.
  destruct (batch_removals remove) as [rs|] eqn:Er; [|done].
  destruct (batch_inserts add) as [ins|] eqn:Ei; [|done].
  destruct (sled_apply_batch (sled_db s) (rs ++ ins)) as [t|] eqn:Et; [|done]. cbn. intros [= <-].
  apply sled_batch_map in Et. cbn. rewrite Et, foldl_app.
  destruct (batch_removals_view _ _ _ Hwf Er) as [Hwf1 Hv1].
  destruct (batch_inserts_view _ _ _ Hwf1 Ei) as [Hwf2 Hv2].
  split; [done|]. rewrite Hv2, Hv1. f_equal. clear -Hdisj.
  generalize (kv_view (sled_map (sled_db s))). intros m. revert m.
  induction add as [|u add IH]; intros m; [done|]. cbn.
  rewrite IH by set_solver. by rewrite foldl_delete_insert by set_solver.
Qed.

(** The backends disagree on an outpoint that is both added and removed: the database keeps
    it, the map drops it. *)
Theorem batch_update_overlap s u s' :
  sled_wf s → sled_batch_update s [u] [outpoint u] = Ok s' →
  sled_view s' !! outpoint u = Some u ∧
  ∀ m m', mem_batch_update m [u] [outpoint u] = Ok m' → m' !! outpoint u = None.
Proof.
  unfold sled_batch_update, sled_wf, sled_view, mem_batch_update. intros Hwf.
  destruct (batch_removals [outpoint u]) as [rs|] eqn:Er; [|done].
  destruct (batch_inserts [u]) as [ins|] eqn:Ei; [|done].
  destruct (sled_apply_batch (sled_db s) (rs ++ ins)) as [t|] eqn:Et; [|done]. cbn. intros [= <-].
  apply sled_batch_map in Et. cbn. rewrite Et, foldl_app.
  destruct (batch_removals_view _ _ _ Hwf Er) as [Hwf1 Hv1].
  destruct (batch_inserts_view _ _ _ Hwf1 Ei) as [Hwf2 Hv2].
  rewrite Hv2. cbn. rewrite lookup_insert_eq. split; [done|].
  intros m m' [= <-]. apply lookup_delete_eq.
Qed.
End sled_laws.

(** ** Compression round trip *)

(** Block compression round trip, when the encoder succeeds and the decoder inverts it. *)
Theorem compress_roundtrip `{Zstd} data c :
  zstd_encode data = Some c → c ≠ [] → zstd_decode c = Some data →
  decompress_block (compress_block data) = Some data.
Proof.
  intros He Hc Hd. unfold decompress_block, compress_block. rewrite He. cbn [default].
  change COMPRESSED_MAGIC with [90; 83; 84; 68]. destruct c as [|x c]; [done|].
  cbn [app length take drop]. rewrite bool_decide_true by done. exact Hd.
Qed.

(** ** A concrete database for the witnesses *)

#[export] Instance UTXO_countable : Countable UTXO.
Proof.
  refine (inj_countable'
    (λ u, (outpoint u, value u, script_pubkey u, address u, masternode_key u))
    (λ '(o, v, s, a, k), mkUTXO o v s a k) _). by intros [].
Defined.

Definition model_sled : SledDb (gmap bytes bytes) := {|
  sled_get t k := Some (t !! k);
  sled_insert t k v := Some (<[k := v]> t);
  sled_remove t k := Some (delete k t);
  sled_iter t := Some <$> map_to_list t;
  sled_apply_batch t bs := Some (foldl batch_apply t bs);
  sled_clear t := Some ∅;
  sled_flush t := Some t;
|}.
Definition model_codec : UtxoCodec := {|
  op_serialize o := Some (vout o :: op_txid o);
  utxo_serialize u := Some [Zpos (countable.encode u)];
  utxo_deserialize b := match b with [Zpos p] => countable.decode p | _ => None end;
|}.
Lemma model_sled_laws : @SledLaws _ model_sled.
Proof. by refine (@Build_SledLaws _ model_sled (λ t, t) _ _ _ _ _ _ _); intros; cbn in *; simplify_eq. Defined.
Lemma model_codec_laws : @UtxoCodecLaws model_codec.
Proof.
  split.
  - intros [t v] [t' v'] k [= <-]; cbn. by intros [= -> ->].
  - intros o. by eexists.
  - intros u b [= <-]. cbn. apply countable.decode_encode.
Defined.

Definition w_op (n : Z) : OutPoint := mkOutPoint (replicate 32 n) 0.
Definition w_utxo (n v : Z) : UTXO := mkUTXO (w_op n) v [1] "TIME1a" None.

Lemma batch_update_agree_witness :
  let s := @sled_add_utxo _ model_sled model_codec (mkSled ∅) (w_utxo 1 5) in
  ∃ s0 s', s = Ok s0 ∧
    @sled_wf _ model_sled model_sled_laws model_codec s' ∧
    mem_batch_update (@sled_view _ model_sled model_sled_laws model_codec s0) [w_utxo 2 6] [w_op 1]
      = Ok (@sled_view _ model_sled model_sled_laws model_codec s').
Proof.
  eexists _, _. split; [reflexivity|].
  apply (@batch_update_agree _ model_sled model_sled_laws model_codec model_codec_laws
           _ [w_utxo 2 6] [w_op 1] _).
  - refine (proj1 (@sled_add_view _ model_sled model_sled_laws model_codec model_codec_laws
             (mkSled ∅) (w_utxo 1 5) _ _ eq_refl)). intros k v Hl. by destruct (lookup_empty_Some k v).
  - intros u ->%list_elem_of_singleton. by rewrite list_elem_of_singleton.
  - reflexivity.
Defined.

Lemma batch_update_overlap_witness :
  ∃ s', @sled_view _ model_sled model_sled_laws model_codec s' !! w_op 1 = Some (w_utxo 1 5) ∧
    ∀ m m', mem_batch_update m [w_utxo 1 5] [w_op 1] = Ok m' → m' !! w_op 1 = None.
Proof.
  eexists. apply (@batch_update_overlap _ model_sled model_sled_laws model_codec model_codec_laws
           (mkSled ∅) (w_utxo 1 5)).
  - intros k v Hl. by destruct (lookup_empty_Some k v).
  - reflexivity.
Defined.

Definition model_zstd : Zstd := {|
  zstd_encode d := Some (0 :: d);
  zstd_decode c := match c with 0 :: d => Some d | _ => None end;
|}.
Lemma compress_roundtrip_witness :
  @decompress_block model_zstd (@compress_block model_zstd [1; 2; 3]) = Some [1; 2; 3].
Proof. by apply (@compress_roundtrip model_zstd [1; 2; 3] [0; 1; 2; 3]). Defined.
