(* ===== verification/UtxoManager.v ===== *)
(** * The UTXO state manager (src/utxo_manager.rs)

    One record for [UTXOStateManager], one definition per method.  The methods
    take [&self] and mutate concurrent maps in place: a method here takes the
    manager and returns the new one with its result, so an error keeps the
    changes made before it, as in the source.  The clock is the argument [now].
    The write-behind sled trees ([collateral_db], [spent_db]) are the maps they
    persist; their writes succeed (the source only logs a failure). *)

From Stdlib Require Import ZArith Lia Ascii String.
From stdpp Require Import base gmap strings list.
From S2P Require Import Prelude Types Storage.

Definition LOCK_TIMEOUT_SECS : Z := 600.

Inductive UtxoError :=
| NotFound
| AlreadyLocked (by_tx : Hash256)
| AlreadySpent
| LockExpired
| LockMismatch
| StorageFailure (e : StorageError)
| LockedAsCollateral.

(** The "collateral_locks" tree: locks by outpoint, and the local node's own
    outpoint under its reserved key. *)
Record CollateralTree := mkCollateralTree {
  ct_locks : gmap OutPoint LockedCollateral;
  ct_local : option OutPoint;
}.

Record UTXOStateManager (S : Type) := mkManager {
  storage : S;
  utxo_states : gmap OutPoint UTXOState;
  locked_collaterals : gmap OutPoint LockedCollateral;
  collateral_db : option CollateralTree;
  address_index : gmap string (gset OutPoint);
  pubkey_cache : gmap string bytes;
  spent_tombstones : gset OutPoint;
  spent_db : option (gset OutPoint);
  creation_heights : gmap OutPoint Z;
}.
Arguments mkManager {S}.
Arguments storage {S}.
Arguments utxo_states {S}.
Arguments locked_collaterals {S}.
Arguments collateral_db {S}.
Arguments address_index {S}.
Arguments pubkey_cache {S}.
Arguments spent_tombstones {S}.
Arguments spent_db {S}.
Arguments creation_heights {S}.

Record SupplyStats := mkSupplyStats {
  total_unspent_satoshis : Z;
  locked_collateral_satoshis : Z;
  circulating_satoshis : Z;
  dormant_satoshis : Z;
  dormant_utxo_count : Z;
  adjusted_circulating_satoshis : Z;
  unknown_age_satoshis : Z;
}.

(** [i64] subtraction wraps. *)
Definition sub_i64 (a b : Z) : Z := (a - b + 2 ^ 63) mod 2 ^ 64 - 2 ^ 63.

Definition is_lock_expired (now locked_at : Z) : bool := LOCK_TIMEOUT_SECS <? sub_i64 now locked_at.

Section manager.
Context {S : Type} `{UtxoStorage S} `{MapIter} `{Externals}.
Implicit Types m : UTXOStateManager S.

(** ** Field updates *)

Definition set_storage (s : S) m : UTXOStateManager S :=
  mkManager s (utxo_states m) (locked_collaterals m) (collateral_db m) (address_index m)
    (pubkey_cache m) (spent_tombstones m) (spent_db m) (creation_heights m).
Definition set_states (st : gmap OutPoint UTXOState) m : UTXOStateManager S :=
  mkManager (storage m) st (locked_collaterals m) (collateral_db m) (address_index m)
    (pubkey_cache m) (spent_tombstones m) (spent_db m) (creation_heights m).
Definition set_collaterals (lc : gmap OutPoint LockedCollateral) m : UTXOStateManager S :=
  mkManager (storage m) (utxo_states m) lc (collateral_db m) (address_index m)
    (pubkey_cache m) (spent_tombstones m) (spent_db m) (creation_heights m).
Definition set_collateral_db (db : option CollateralTree) m : UTXOStateManager S :=
  mkManager (storage m) (utxo_states m) (locked_collaterals m) db (address_index m)
    (pubkey_cache m) (spent_tombstones m) (spent_db m) (creation_heights m).
Definition set_index (ix : gmap string (gset OutPoint)) m : UTXOStateManager S :=
  mkManager (storage m) (utxo_states m) (locked_collaterals m) (collateral_db m) ix
    (pubkey_cache m) (spent_tombstones m) (spent_db m) (creation_heights m).
Definition set_pubkeys (pk : gmap string bytes) m : UTXOStateManager S :=
  mkManager (storage m) (utxo_states m) (locked_collaterals m) (collateral_db m)
    (address_index m) pk (spent_tombstones m) (spent_db m) (creation_heights m).
Definition set_tombstones (t : gset OutPoint) (db : option (gset OutPoint)) m
    : UTXOStateManager S :=
  mkManager (storage m) (utxo_states m) (locked_collaterals m) (collateral_db m)
    (address_index m) (pubkey_cache m) t db (creation_heights m).
Definition set_heights (h : gmap OutPoint Z) m : UTXOStateManager S :=
  mkManager (storage m) (utxo_states m) (locked_collaterals m) (collateral_db m)
    (address_index m) (pubkey_cache m) (spent_tombstones m) (spent_db m) h.

Definition new_with_storage (s : S) : UTXOStateManager S :=
  mkManager s ∅ ∅ None ∅ ∅ ∅ None ∅.

(** ** Persistence *)

(** [enable_collateral_persistence]: the tree found on disk. *)
Definition enable_collateral_persistence (tree : CollateralTree) m : UTXOStateManager S :=
  set_collateral_db (Some tree) m.
(** [enable_spent_persistence]: the tombstones on disk join those in memory. *)
Definition enable_spent_persistence (tree : gset OutPoint) m : UTXOStateManager S :=
  set_tombstones (spent_tombstones m ∪ tree) (Some tree) m.

Definition is_tombstoned m (o : OutPoint) : bool := bool_decide (o ∈ spent_tombstones m).

Definition record_spent m (o : OutPoint) : UTXOStateManager S :=
  set_tombstones ({[o]} ∪ spent_tombstones m) ((λ t, {[o]} ∪ t) <$> spent_db m) m.

Definition register_pubkey m (addr : string) (pk : bytes) : UTXOStateManager S :=
  set_pubkeys (<[addr := pk]> (pubkey_cache m)) m.
Definition find_pubkey_for_address m (addr : string) : option bytes := pubkey_cache m !! addr.
Definition get_pubkey_by_address_hash m (hash : bytes) : option bytes :=
  snd <$> List.find (λ e : string * bytes, bool_decide (sha256 (str_bytes e.1) = hash))
                    (iter (pubkey_cache m)).

Definition is_unspent_at m (o : OutPoint) : bool :=
  match utxo_states m !! o with Some Unspent => true | _ => false end.

(** [tree.remove(key)] on the collateral tree, when there is one. *)
Definition db_remove_lock (o : OutPoint) m : UTXOStateManager S :=
  set_collateral_db
    ((λ t, mkCollateralTree (delete o (ct_locks t)) (ct_local t)) <$> collateral_db m) m.
Definition db_insert_lock (o : OutPoint) (l : LockedCollateral) m : UTXOStateManager S :=
  set_collateral_db
    ((λ t, mkCollateralTree (<[o := l]> (ct_locks t)) (ct_local t)) <$> collateral_db m) m.

Definition load_persisted_collateral_locks m : UTXOStateManager S * Z :=
  match collateral_db m with
  | None => (m, 0)
  | Some tree =>
      foldl (λ '(m, loaded) '(key, locked),
        let o := lc_outpoint locked in
        if is_unspent_at m o
        then (set_collaterals (<[o := locked]> (locked_collaterals m)) m, loaded + 1)
        else (db_remove_lock key m, loaded))
        (m, 0) (iter (ct_locks tree))
  end.

Definition save_local_collateral_outpoint m (o : option OutPoint) : UTXOStateManager S :=
  set_collateral_db ((λ t, mkCollateralTree (ct_locks t) o) <$> collateral_db m) m.
Definition load_local_collateral_outpoint m : option OutPoint :=
  t ← collateral_db m; ct_local t.

(** ** Address index *)

Definition index_insert (a : string) (o : OutPoint) m : UTXOStateManager S :=
  set_index (<[a := {[o]} ∪ default ∅ (address_index m !! a)]> (address_index m)) m.

Definition remove_from_address_index (a : string) (o : OutPoint) m : UTXOStateManager S :=
  match address_index m !! a with
  | None => m
  | Some set =>
      let set := set ∖ {[o]} in
      if bool_decide (set = ∅) then set_index (delete a (address_index m)) m
      else set_index (<[a := set]> (address_index m)) m
  end.

(** [if let Some(utxo) = self.storage.get_utxo(o) { remove_from_address_index(..) }]. *)
Definition unindex (o : OutPoint) m : UTXOStateManager S :=
  match st_get_utxo (storage m) o with
  | Some u => remove_from_address_index (address u) o m
  | None => m
  end.

(** ** Start-up and reset *)

Fixpoint initialize_loop (utxos : list UTXO) m : UTXOStateManager S :=
  match utxos with
  | [] => m
  | u :: utxos =>
      if bool_decide (outpoint u ∈ spent_tombstones m) then
        let m := match st_remove_utxo (storage m) (outpoint u) with
                 | Ok s => set_storage s m
                 | Err _ => m
                 end in
        initialize_loop utxos m
      else
        let m := match utxo_states m !! outpoint u with
                 | Some _ => m
                 | None => set_states (<[outpoint u := Unspent]> (utxo_states m)) m
                 end in
        initialize_loop utxos (index_insert (address u) (outpoint u) m)
  end.
Definition initialize_states m : UTXOStateManager S * result UtxoError Z :=
  let utxos := st_list_utxos (storage m) in
  (initialize_loop utxos m, Ok (Z.of_nat (length utxos))).

Definition clear_all m : UTXOStateManager S * result UtxoError () :=
  match st_clear_all (storage m) with
  | Err e => (m, Err (StorageFailure e))
  | Ok s =>
      (mkManager s ∅ ∅ ((λ _, mkCollateralTree ∅ None) <$> collateral_db m) ∅
         (pubkey_cache m) ∅ ((λ _, ∅) <$> spent_db m) ∅, Ok tt)
  end.

(** ** Adding, removing, spending and restoring *)

Definition add_utxo m (u : UTXO) : UTXOStateManager S * result UtxoError () :=
  let o := outpoint u in
  if bool_decide (o ∈ spent_tombstones m) then (m, Err AlreadySpent)
  else
    match utxo_states m !! o with
    | Some Unspent => (m, Ok tt)
    | Some _ => (m, Err AlreadySpent)
    | None =>
        match st_add_utxo (storage m) u with
        | Err e => (m, Err (StorageFailure e))
        | Ok s =>
            let m := set_states (<[o := Unspent]> (utxo_states m)) (set_storage s m) in
            (index_insert (address u) o m, Ok tt)
        end
    end.

Definition is_collateral_locked m (o : OutPoint) : bool :=
  bool_decide (is_Some (locked_collaterals m !! o)).

Definition unlock_collateral m (o : OutPoint) : UTXOStateManager S * result UtxoError () :=
  match locked_collaterals m !! o with
  | Some _ => (db_remove_lock o (set_collaterals (delete o (locked_collaterals m)) m), Ok tt)
  | None => (m, Err NotFound)
  end.

Definition release_stale_local_collateral m (old : OutPoint) : UTXOStateManager S * bool :=
  if is_collateral_locked m old then
    match unlock_collateral m old with
    | (m, Ok _) => (m, true)
    | (m, Err _) => (m, false)
    end
  else (m, false).

Definition remove_utxo m (o : OutPoint) : UTXOStateManager S * result UtxoError () :=
  let m := unindex o m in
  match st_remove_utxo (storage m) o with
  | Err e => (m, Err (StorageFailure e))
  | Ok s =>
      let m := set_states (delete o (utxo_states m)) (set_storage s m) in
      let m := match locked_collaterals m !! o with
               | Some _ => db_remove_lock o (set_collaterals (delete o (locked_collaterals m)) m)
               | None => m
               end in
      (m, Ok tt)
  end.

Definition get_utxo m (o : OutPoint) : result UtxoError UTXO :=
  ok_or NotFound (st_get_utxo (storage m) o).

Definition spend_utxo (now : Z) m (o : OutPoint) : UTXOStateManager S * result UtxoError () :=
  let m := if is_collateral_locked m o then (unlock_collateral m o).1 else m in
  let m := unindex o m in
  match st_remove_utxo (storage m) o with
  | Err e => (m, Err (StorageFailure e))
  | Ok s =>
      let m := set_states (<[o := SpentFinalized (replicate 32 0) now 0]> (utxo_states m))
                 (set_storage s m) in
      (record_spent m o, Ok tt)
  end.

(** The early return of [restore_utxo]: already unspent, and stored. *)
Definition already_restored m (o : OutPoint) : bool :=
  match utxo_states m !! o with
  | Some Unspent => bool_decide (is_Some (st_get_utxo (storage m) o))
  | _ => false
  end.
Definition restore_utxo m (u : UTXO) : UTXOStateManager S * result UtxoError () :=
  let o := outpoint u in
  if already_restored m o then (index_insert (address u) o m, Ok tt)
  else
    let m := set_tombstones (spent_tombstones m ∖ {[o]}) ((λ t, t ∖ {[o]}) <$> spent_db m) m in
    match st_add_utxo (storage m) u with
    | Err e => (m, Err (StorageFailure e))
    | Ok s =>
        let m := set_states (<[o := Unspent]> (utxo_states m)) (set_storage s m) in
        (index_insert (address u) o m, Ok tt)
    end.

(** ** Transaction locks *)

Definition lock_utxo (now : Z) m (o : OutPoint) (tx : Hash256)
    : UTXOStateManager S * result UtxoError () :=
  if is_collateral_locked m o then (m, Err LockedAsCollateral)
  else
    match utxo_states m !! o with
    | Some Unspent => (set_states (<[o := Locked tx now]> (utxo_states m)) m, Ok tt)
    | Some (Locked existing_txid locked_at) =>
        if bool_decide (existing_txid = tx) then (m, Ok tt)
        else if is_lock_expired now locked_at
        then (set_states (<[o := Locked tx now]> (utxo_states m)) m, Ok tt)
        else (m, Err (AlreadyLocked existing_txid))
    | Some (SpentPending _ _ _ _) | Some (SpentFinalized _ _ _) | Some (Archived _ _ _) =>
        (m, Err AlreadySpent)
    | None => (m, Err NotFound)
    end.

Definition unlock_utxo m (o : OutPoint) (tx : Hash256) : UTXOStateManager S * result UtxoError () :=
  match utxo_states m !! o with
  | Some (Locked locked_txid _) =>
      if bool_decide (locked_txid = tx)
      then (set_states (<[o := Unspent]> (utxo_states m)) m, Ok tt)
      else (m, Err LockMismatch)
  | Some Unspent => (m, Ok tt)
  | Some _ => (m, Err AlreadySpent)
  | None => (m, Err NotFound)
  end.

Definition commit_spend (now : Z) m (o : OutPoint) (tx : Hash256) (block_height : Z)
    : UTXOStateManager S * result UtxoError () :=
  let archive m :=
    match st_remove_utxo (storage m) o with
    | Err e => (m, Err (StorageFailure e))
    | Ok s => (set_states (<[o := Archived tx block_height now]> (utxo_states m))
                 (set_storage s m), Ok tt)
    end in
  match utxo_states m !! o with
  | Some (Locked locked_txid _) =>
      if bool_decide (locked_txid ≠ tx) then (m, Err LockMismatch) else archive m
  | Some Unspent => archive m
  | Some _ => (m, Err AlreadySpent)
  | None => (m, Err NotFound)
  end.

(** The loop of [lock_utxos_atomic]; [locked] is the vector of outpoints this
    call has locked, in order. *)
Fixpoint lock_utxos_loop (now : Z) (ops locked : list OutPoint) (tx : Hash256) m
    : UTXOStateManager S * result UtxoError () :=
  match ops with
  | [] => (m, Ok tt)
  | o :: ops =>
      match lock_utxo now m o tx with
      | (m, Ok _) => lock_utxos_loop now ops (locked ++ [o]) tx m
      | (m, Err e) => (foldl (λ m lo, (unlock_utxo m lo tx).1) m locked, Err e)
      end
  end.
Definition lock_utxos_atomic (now : Z) m (ops : list OutPoint) (tx : Hash256)
    : UTXOStateManager S * result UtxoError () :=
  lock_utxos_loop now ops [] tx m.

Definition expired_lock (now : Z) (s : UTXOState) : bool :=
  match s with Locked _ locked_at => is_lock_expired now locked_at | _ => false end.
Definition cleanup_expired_locks (now : Z) m : UTXOStateManager S * Z :=
  (set_states ((λ s, if expired_lock now s then Unspent else s) <$> utxo_states m) m,
   Z.of_nat (size (filter (λ kv : OutPoint * UTXOState, expired_lock now kv.2) (utxo_states m)))).

Definition get_state m (o : OutPoint) : option UTXOState := utxo_states m !! o.
Definition update_state m (o : OutPoint) (s : UTXOState) : UTXOStateManager S :=
  set_states (<[o := s]> (utxo_states m)) m.

(** ** Finalization *)

(** The early returns of [mark_timevote_finalized]. *)
Definition refuses_finalization m (o : OutPoint) (tx : Hash256) : bool :=
  match get_state m o with
  | Some (SpentFinalized existing _ _) => true
  | Some (SpentPending existing _ _ _) => bool_decide (existing ≠ tx)
  | Some (Archived existing _ _) => bool_decide (existing ≠ tx)
  | Some (Locked existing _) => bool_decide (existing ≠ tx)
  | Some Unspent => false
  | None => is_tombstoned m o
  end.

Definition mark_timevote_finalized (now : Z) m (o : OutPoint) (tx : Hash256)
    : UTXOStateManager S :=
  if refuses_finalization m o tx then m
  else
    let m := unindex o m in
    let m := match st_remove_utxo (storage m) o with
             | Ok s => set_storage s m
             | Err _ => m
             end in
    let m := set_states (<[o := SpentFinalized tx now 0]> (utxo_states m)) m in
    record_spent m o.

Definition force_unlock m (o : OutPoint) : UTXOStateManager S * bool :=
  if is_collateral_locked m o then (m, false)
  else match utxo_states m !! o with
       | Some _ => (set_states (<[o := Unspent]> (utxo_states m)) m, true)
       | None => (m, false)
       end.

(** ** Queries *)

Definition record_utxo_height m (o : OutPoint) (height : Z) : UTXOStateManager S :=
  set_heights (<[o := height]> (creation_heights m)) m.

Record supply_acc := mkSupplyAcc {
  sa_total : Z; sa_locked : Z; sa_dormant : Z; sa_dormant_count : Z; sa_unknown : Z;
}.
Definition supply_step m (current_height dormant_after : Z) (a : supply_acc) (u : UTXO) : supply_acc :=
  if negb (is_unspent_at m (outpoint u)) then a
  else
    let a := mkSupplyAcc (add64 (sa_total a) (value u)) (sa_locked a) (sa_dormant a)
               (sa_dormant_count a) (sa_unknown a) in
    if is_collateral_locked m (outpoint u) then
      mkSupplyAcc (sa_total a) (add64 (sa_locked a) (value u)) (sa_dormant a)
        (sa_dormant_count a) (sa_unknown a)
    else
      match creation_heights m !! outpoint u with
      | Some h =>
          if dormant_after <? sat_sub current_height h then
            mkSupplyAcc (sa_total a) (sa_locked a) (add64 (sa_dormant a) (value u))
              (sa_dormant_count a + 1) (sa_unknown a)
          else a
      | None =>
          mkSupplyAcc (sa_total a) (sa_locked a) (sa_dormant a) (sa_dormant_count a)
            (add64 (sa_unknown a) (value u))
      end.
Definition get_supply_stats m (current_height dormant_after : Z) : SupplyStats :=
  let a := foldl (supply_step m current_height dormant_after) (mkSupplyAcc 0 0 0 0 0)
             (st_list_utxos (storage m)) in
  let circulating := sat_sub (sa_total a) (sa_locked a) in
  let adjusted := sat_sub circulating (sa_dormant a) in
  mkSupplyStats (sa_total a) (sa_locked a) circulating (sa_dormant a) (sa_dormant_count a)
    adjusted (sa_unknown a).

Definition list_utxos_by_address m (a : string) : list UTXO :=
  match address_index m !! a with
  | Some set => omap (st_get_utxo (storage m)) (elements set)
  | None => []
  end.

Definition get_locked_utxos m : list (OutPoint * Hash256 * Z) :=
  omap (λ e : OutPoint * UTXOState,
    match e.2 with Locked t at_ => Some (e.1, t, at_) | _ => None end) (iter (utxo_states m)).

Definition is_spendable (now : Z) m (o : OutPoint) (by_txid : option Hash256) : bool :=
  if is_collateral_locked m o then false
  else match utxo_states m !! o with
       | Some Unspent => true
       | Some (Locked t locked_at) =>
           bool_decide (by_txid = Some t) || is_lock_expired now locked_at
       | _ => false
       end.

(** ** Comparison and reconciliation with peers *)

Definition state_ord (s : UTXOState) : Z :=
  match s with
  | Unspent => 0 | Locked _ _ => 1 | SpentPending _ _ _ _ => 2
  | SpentFinalized _ _ _ => 3 | Archived _ _ _ => 4
  end.

(** Lexicographic [<=] on [(txid, vout)]. *)
Definition op_leb (a b : OutPoint) : bool :=
  if bool_decide (op_txid a = op_txid b) then vout a <=? vout b
  else bytes_leb (op_txid a) (op_txid b).
Definition utxo_leb (a b : UTXO) : bool := op_leb (outpoint a) (outpoint b).

Definition state_disc m (o : OutPoint) : Z :=
  match utxo_states m !! o with None => 0 | Some s => state_ord s end.
Definition utxo_digest m (u : UTXO) : bytes :=
  op_txid (outpoint u) ++ le_bytes 4 (vout (outpoint u)) ++ le_bytes 8 (value u)
    ++ script_pubkey u ++ [state_disc m (outpoint u)].
Definition calculate_utxo_set_hash m : Hash256 :=
  sha256 (flat_map (utxo_digest m) (sort_by utxo_leb (st_list_utxos (storage m)))).

Definition apply_state_updates m (updates : list (OutPoint * UTXOState)) : UTXOStateManager S :=
  foldl (λ m '(o, remote_state),
    match utxo_states m !! o with
    | Some s =>
        if state_ord s <? state_ord remote_state
        then set_states (<[o := remote_state]> (utxo_states m)) m else m
    | None => m
    end) m updates.

Definition utxo_key (u : UTXO) : OutPoint * Z := (outpoint u, value u).
Definition get_utxo_diff m (remote_utxos : list UTXO) : list OutPoint * list UTXO :=
  let local_set : gset (OutPoint * Z) := list_to_set (map utxo_key (st_list_utxos (storage m))) in
  let remote_set : gset (OutPoint * Z) := list_to_set (map utxo_key remote_utxos) in
  ((elements (local_set ∖ remote_set)).*1,
   filter (λ u, utxo_key u ∉ local_set) remote_utxos).

Definition reconcile_remove m (o : OutPoint) : UTXOStateManager S :=
  let m := if is_collateral_locked m o then (unlock_collateral m o).1 else m in
  let m := unindex o m in
  let m := match st_remove_utxo (storage m) o with
           | Ok s => set_storage s m
           | Err _ => m
           end in
  set_states (delete o (utxo_states m)) m.
Definition reconcile_utxo_state m (to_remove : list OutPoint) (to_add : list UTXO)
    : UTXOStateManager S :=
  let m := foldl reconcile_remove m to_remove in
  foldl (λ m u, (add_utxo m u).1) m to_add.

(** ** Masternode collateral *)

Definition lock_collateral_inner (now : Z) m (o : OutPoint) (mn : string)
    (height amt : Z) (persist : bool) : UTXOStateManager S * result UtxoError () :=
  match utxo_states m !! o with
  | None => (m, Err NotFound)
  | Some Unspent =>
      if is_collateral_locked m o then (m, Err LockedAsCollateral)
      else
        let l := new_locked_collateral now o mn height amt in
        let m := set_collaterals (<[o := l]> (locked_collaterals m)) m in
        (if persist then db_insert_lock o l m else m, Ok tt)
  | Some _ => (m, Err AlreadySpent)
  end.
Definition lock_collateral (now : Z) m o mn height amt :=
  lock_collateral_inner now m o mn height amt false.
Definition lock_local_collateral (now : Z) m o mn height amt :=
  lock_collateral_inner now m o mn height amt true.

Definition unlock_all_collaterals m : UTXOStateManager S * Z :=
  let ops := (iter (locked_collaterals m)).*1 in
  (foldl (λ m o, (unlock_collateral m o).1) m ops, Z.of_nat (length ops)).

Definition get_locked_collateral m (o : OutPoint) : option LockedCollateral :=
  locked_collaterals m !! o.

Definition list_locked_collaterals m : UTXOStateManager S * list LockedCollateral :=
  let entries := iter (locked_collaterals m) in
  let exists_ (e : OutPoint * LockedCollateral) := bool_decide (is_Some (utxo_states m !! e.1)) in
  let stale := (filter (λ e, negb (exists_ e)) entries).*1 in
  (foldl (λ m k, db_remove_lock k (set_collaterals (delete k (locked_collaterals m)) m)) m stale,
   (filter exists_ entries).*2).

Definition list_collaterals_for_masternode m (mn : string) : list LockedCollateral :=
  filter (λ l, masternode_address l = mn) (iter (locked_collaterals m)).*2.

Definition purge_one m (o : OutPoint) : UTXOStateManager S :=
  match locked_collaterals m !! o with
  | None => m
  | Some _ =>
      let m := db_remove_lock o (set_collaterals (delete o (locked_collaterals m)) m) in
      match utxo_states m !! o with
      | Some (Locked _ _) => set_states (<[o := Unspent]> (utxo_states m)) m
      | _ => m
      end
  end.
Definition stale_locks m : list OutPoint :=
  (filter (λ e : OutPoint * LockedCollateral, negb (is_unspent_at m e.1))
    (iter (locked_collaterals m))).*1.
Definition purge_stale_collateral_locks m : UTXOStateManager S * Z :=
  (foldl purge_one m (stale_locks m), Z.of_nat (length (stale_locks m))).

Definition rebuild_one (now : Z) (acc : UTXOStateManager S * Z)
    (e : OutPoint * string * Z * Z) : UTXOStateManager S * Z :=
  let '(m, restored) := acc in
  let '(o, mn, height, amt) := e in
  if is_collateral_locked m o then (m, restored)
  else if is_unspent_at m o then
    (set_collaterals (<[o := new_locked_collateral now o mn height amt]> (locked_collaterals m)) m,
     restored + 1)
  else (m, restored).
Definition rebuild_collateral_locks (now : Z) m (entries : list (OutPoint * string * Z * Z))
    : UTXOStateManager S * Z :=
  let '(m, restored) := foldl (rebuild_one now) (m, 0) entries in
  ((purge_stale_collateral_locks m).1, restored).
End manager.
