(* ===== verification/UtxoProofs.v ===== *)
(** * The UTXO state manager: invariant and theorems

    Proved against the storage interface of Storage.v: [inv] is the
    well-formedness of the manager, [op] and [exec] its operations as data, so
    that a history of the node is a list of operations. *)

From Stdlib Require Import ZArith Lia Ascii String.
From stdpp Require Import base gmap strings list.
From S2P Require Import Prelude Types Instances Storage UtxoManager.

(** A backend whose writes do not fail: the in-memory map, and a sled database
    on a healthy disk. *)
Class StorageReliable (S : Type) `{UtxoStorage S} := {
  st_remove_ok : ∀ s o, ∃ s', st_remove_utxo s o = Ok s';
  st_add_ok : ∀ s u, ∃ s', st_add_utxo s u = Ok s';
}.

#[export] Instance InMemory_reliable `{MapIter} : StorageReliable (gmap OutPoint UTXO).
Proof. split; intros; by eexists. Qed.

Section invariant.
Context {S : Type} `{UtxoStorageLaws S} `{!StorageReliable S} `{MapIter}.
Implicit Types m : UTXOStateManager S.

Abbreviation view m := (st_view (storage m)).

(** The invariant: tombstoned outpoints are not stored, the tombstones on disk
    are those in memory, every stored UTXO is tracked and is found under its
    address. *)
Record inv m : Prop := mkInv {
  inv_wf : st_wf (storage m);
  inv_tomb : ∀ o, o ∈ spent_tombstones m → view m !! o = None;
  inv_db : ∀ t, spent_db m = Some t → t = spent_tombstones m;
  inv_tracked : ∀ o u, view m !! o = Some u → is_Some (utxo_states m !! o);
  inv_index : ∀ o u, view m !! o = Some u →
    ∃ set, address_index m !! address u = Some set ∧ o ∈ set;
}.

(** Operations that touch neither the store, the tombstones nor the index. *)
Lemma inv_same m m' :
  storage m' = storage m → utxo_states m' = utxo_states m →
  address_index m' = address_index m → spent_tombstones m' = spent_tombstones m →
  spent_db m' = spent_db m → inv m → inv m'.
Proof.
  intros E1 E2 E3 E4 E5 [? ? ? ? ?]. split; rewrite ?E1, ?E2, ?E3, ?E4, ?E5; done.
Qed.

Lemma inv_set_states m st :
  inv m → (∀ o, is_Some (utxo_states m !! o) → is_Some (view m !! o) → is_Some (st !! o)) →
  inv (set_states st m).
Proof.
  intros [? ? ? Ht ?] Hst. split; cbn; try done. intros o u Hu. apply Hst; [by eapply Ht|by eexists].
Qed.

Lemma inv_insert_state m o s : inv m → inv (set_states (<[o := s]> (utxo_states m)) m).
Proof.
  intros Hi. apply inv_set_states; [done|]. intros p Hp _.
  rewrite lookup_insert. case_decide; [by eexists|done].
Qed.

Lemma index_insert_lookup m a o p b set :
  address_index m !! b = Some set → p ∈ set →
  ∃ set', address_index (index_insert a o m) !! b = Some set' ∧ p ∈ set'.
Proof.
  intros Hb Hp. cbn. rewrite lookup_insert. case_decide as Hab; [|eauto].
  subst. eexists. split; [done|]. rewrite Hb. set_solver.
Qed.

Lemma inv_index_insert m a o : inv m → inv (index_insert a o m).
Proof.
  intros [? ? ? ? Hix]. split; try done. intros p u Hp.
  destruct (Hix p u Hp) as (set & Hs & Hin). by eapply index_insert_lookup.
Qed.

Lemma unindex_fields o m :
  storage (unindex o m) = storage m ∧ utxo_states (unindex o m) = utxo_states m ∧
  spent_tombstones (unindex o m) = spent_tombstones m ∧ spent_db (unindex o m) = spent_db m ∧
  locked_collaterals (unindex o m) = locked_collaterals m ∧
  collateral_db (unindex o m) = collateral_db m ∧
  pubkey_cache (unindex o m) = pubkey_cache m ∧ creation_heights (unindex o m) = creation_heights m.
Proof. unfold unindex, remove_from_address_index. split_matches; done. Qed.

(** Only the outpoint itself leaves the index. *)
Lemma unindex_keeps o m p b set :
  p ≠ o → address_index m !! b = Some set → p ∈ set →
  ∃ set', address_index (unindex o m) !! b = Some set' ∧ p ∈ set'.
Proof.
  intros Hne Hb Hp. unfold unindex, remove_from_address_index.
  destruct (st_get_utxo _ _) as [u|]; [|eauto].
  destruct (address_index m !! address u) as [set0|] eqn:Ea; [|eauto].
  case_bool_decide as He; cbn.
  - rewrite lookup_delete. case_decide; [|eauto]. subst. simplify_eq. set_solver.
  - rewrite lookup_insert. case_decide; [|eauto]. subst. simplify_eq.
    eexists. split; [done|]. set_solver.
Qed.

(** Taking an outpoint out of the index and out of the store. *)
Lemma inv_unindex_remove m o s :
  inv m → st_remove_utxo (storage m) o = Ok s →
  inv (set_storage s (unindex o m)) ∧ st_view s = delete o (view m).
Proof.
  intros [Hwf Ht Hdb Htr Hix] Hrm. destruct (st_remove_view _ _ _ Hwf Hrm) as [Hwf' Hv].
  destruct (unindex_fields o m) as (E1 & E2 & E3 & E4 & _).
  split; [|done]. split; cbn; rewrite ?E2, ?E3, ?E4, ?Hv; try done.
  - intros p Hp. apply lookup_delete_None. auto.
  - intros p u [_ Hp]%lookup_delete_Some. eauto.
  - intros p u [Hne Hp]%lookup_delete_Some. destruct (Hix p u Hp) as (set & Hs & Hin).
    by eapply unindex_keeps.
Qed.

Lemma inv_record_spent m o : inv m → view m !! o = None → inv (record_spent m o).
Proof.
  intros [? Ht Hdb ? ?] Ho. split; cbn; try done.
  - intros p. rewrite elem_of_union, elem_of_singleton. intros [->|Hp]; auto.
  - intros t. rewrite fmap_Some. intros (t0 & Ht0 & ->). by rewrite (Hdb t0 Ht0).
Qed.

Lemma inv_lift_tombstone m o :
  inv m → inv (set_tombstones (spent_tombstones m ∖ {[o]}) ((λ t, t ∖ {[o]}) <$> spent_db m) m).
Proof.
  intros [? Ht Hdb ? ?]. split; cbn; try done.
  - intros p Hp. apply Ht. set_solver.
  - intros t. rewrite fmap_Some. intros (t0 & Ht0 & ->). by rewrite (Hdb t0 Ht0).
Qed.

(** Storing a UTXO whose outpoint is not tombstoned. *)
Lemma inv_store m u s :
  inv m → outpoint u ∉ spent_tombstones m → st_add_utxo (storage m) u = Ok s →
  inv (index_insert (address u) (outpoint u)
         (set_states (<[outpoint u := Unspent]> (utxo_states m)) (set_storage s m))).
Proof.
  intros [Hwf Ht Hdb Htr Hix] Hnt Hadd. destruct (st_add_view _ _ _ Hwf Hadd) as [Hwf' Hv].
  split; cbn; rewrite ?Hv; try done.
  - intros p Hp. rewrite lookup_insert_ne by congruence. auto.
  - intros p u' Hp. rewrite lookup_insert. case_decide; [by eexists|].
    rewrite lookup_insert_ne in Hp by done. eauto.
  - intros p u' Hp. apply lookup_insert_Some in Hp as [[<- <-]|[Hne Hp]].
    + rewrite lookup_insert_eq. eexists. split; [done|]. set_solver.
    + destruct (Hix p u' Hp) as (set & Hs & Hin).
      by apply (index_insert_lookup m (address u) (outpoint u) p (address u') set).
Qed.

(** ** Every operation preserves the invariant *)

Lemma inv_unlock_collateral m o : inv m → inv (unlock_collateral m o).1.
Proof. unfold unlock_collateral. destruct (_ !! o); [|done]. by apply inv_same. Qed.

Lemma unlock_collateral_fields m o :
  storage (unlock_collateral m o).1 = storage m ∧
  utxo_states (unlock_collateral m o).1 = utxo_states m ∧
  spent_tombstones (unlock_collateral m o).1 = spent_tombstones m.
Proof. unfold unlock_collateral. by destruct (_ !! o). Qed.

Lemma inv_release_if m o :
  inv m → inv (if is_collateral_locked m o then (unlock_collateral m o).1 else m).
Proof. destruct (is_collateral_locked m o); [apply inv_unlock_collateral|done]. Qed.

Lemma inv_add_utxo m u : inv m → inv (add_utxo m u).1.
Proof.
  intros Hi. unfold add_utxo. case_bool_decide; [done|].
  destruct (utxo_states m !! outpoint u) as [[]|]; try done.
  destruct (st_add_utxo (storage m) u) eqn:E; [|done]. by apply inv_store.
Qed.

Lemma inv_remove_utxo m o : inv m → inv (remove_utxo m o).1.
Proof.
  intros Hi. unfold remove_utxo. destruct (unindex_fields o m) as (E1 & E2 & _).
  rewrite E1. destruct (st_remove_ok (storage m) o) as [s Hs]. rewrite Hs.
  destruct (inv_unindex_remove m o s Hi Hs) as [Hi' Hv].
  assert (inv (set_states (delete o (utxo_states (unindex o m))) (set_storage s (unindex o m)))) as Hi2.
  { apply inv_set_states; [done|]. cbn. intros p Hp. rewrite Hv.
    intros [u [Hne _]%lookup_delete_Some]. by rewrite lookup_delete_ne. }
  cbn. destruct (_ !! o); cbn; [by eapply inv_same, Hi2|done].
Qed.

Lemma inv_finalize_at m o t now :
  inv m → ∀ s, st_remove_utxo (storage m) o = Ok s →
  inv (record_spent (set_states (<[o := SpentFinalized t now 0]> (utxo_states (unindex o m)))
         (set_storage s (unindex o m))) o).
Proof.
  intros Hi s Hs. destruct (inv_unindex_remove m o s Hi Hs) as [Hi' Hv].
  apply inv_record_spent; [by apply (inv_insert_state (set_storage s (unindex o m)))|].
  cbn. rewrite Hv. apply lookup_delete_eq.
Qed.

Lemma inv_spend_utxo now m o : inv m → inv (spend_utxo now m o).1.
Proof.
  intros Hi. unfold spend_utxo. apply (inv_release_if m o) in Hi.
  set (m1 := if is_collateral_locked m o then _ else m) in *.
  rewrite (proj1 (unindex_fields o m1)).
  destruct (st_remove_ok (storage m1) o) as [s Hs]. rewrite Hs. by apply inv_finalize_at.
Qed.

Lemma inv_mark_timevote_finalized now m o t : inv m → inv (mark_timevote_finalized now m o t).
Proof.
  intros Hi. unfold mark_timevote_finalized. destruct (refuses_finalization m o t); [done|].
  rewrite (proj1 (unindex_fields o m)).
  destruct (st_remove_ok (storage m) o) as [s Hs]. rewrite Hs. by apply inv_finalize_at.
Qed.

Lemma inv_restore_utxo m u : inv m → inv (restore_utxo m u).1.
Proof.
  intros Hi. unfold restore_utxo. destruct (already_restored m (outpoint u)).
  { by apply inv_index_insert. }
  apply (inv_lift_tombstone m (outpoint u)) in Hi. cbn [storage set_tombstones].
  destruct (st_add_utxo (storage m) u) as [s|] eqn:E; [|done].
  apply (inv_store (set_tombstones _ _ m) u s) in Hi; [done| |done]. cbn. set_solver.
Qed.

Lemma inv_lock_utxo now m o t : inv m → inv (lock_utxo now m o t).1.
Proof.
  intros Hi. unfold lock_utxo. split_matches; auto using inv_insert_state.
Qed.
Lemma inv_unlock_utxo m o t : inv m → inv (unlock_utxo m o t).1.
Proof. intros Hi. unfold unlock_utxo. split_matches; auto using inv_insert_state. Qed.

Lemma inv_lock_utxos_loop now ops locked t m :
  inv m → inv (lock_utxos_loop now ops locked t m).1.
Proof.
  revert locked m. induction ops as [|o ops IH]; intros locked m Hi; cbn; [done|].
  pose proof (inv_lock_utxo now m o t Hi) as Hl. destruct (lock_utxo now m o t) as [m' [|e]]; cbn in *.
  { by apply IH. }
  revert m' Hl. induction locked as [|p locked IHl]; intros m' Hl; cbn; [done|].
  apply IHl. by apply inv_unlock_utxo.
Qed.

(** Removing from the store without touching the index keeps the invariant:
    the index may then hold outpoints that are gone. *)
Lemma inv_remove_only m o s st :
  inv m → st_remove_utxo (storage m) o = Ok s →
  inv (set_states (<[o := st]> (utxo_states m)) (set_storage s m)).
Proof.
  intros [Hwf Ht Hdb Htr Hix] Hrm. destruct (st_remove_view _ _ _ Hwf Hrm) as [Hwf' Hv].
  split; cbn; rewrite ?Hv; try done.
  - intros p Hp. apply lookup_delete_None. auto.
  - intros p u [Hne Hp]%lookup_delete_Some. rewrite lookup_insert_ne by done. eauto.
  - intros p u [Hne Hp]%lookup_delete_Some. eauto.
Qed.

Lemma inv_commit_spend now m o t h : inv m → inv (commit_spend now m o t h).1.
Proof.
  intros Hi. destruct (st_remove_ok (storage m) o) as [s Hs].
  pose proof (inv_remove_only m o s (Archived t h now) Hi Hs).
  unfold commit_spend. rewrite Hs. split_matches; done.
Qed.

Lemma inv_cleanup_expired_locks now m : inv m → inv (cleanup_expired_locks now m).1.
Proof.
  intros Hi. apply inv_set_states; [done|]. intros o [s Hs] _. rewrite lookup_fmap, Hs. by eexists.
Qed.

Lemma inv_force_unlock m o : inv m → inv (force_unlock m o).1.
Proof. intros Hi. unfold force_unlock. split_matches; auto using inv_insert_state. Qed.

Lemma inv_apply_state_updates m ups : inv m → inv (apply_state_updates m ups).
Proof.
  unfold apply_state_updates. revert m. induction ups as [|[o s] ups IH]; intros m Hi; cbn; [done|].
  apply IH. split_matches; auto using inv_insert_state.
Qed.

Lemma inv_reconcile_remove m o : inv m → inv (reconcile_remove m o).
Proof.
  intros Hi. unfold reconcile_remove. apply (inv_release_if m o) in Hi.
  set (m1 := if is_collateral_locked m o then _ else m) in *.
  rewrite (proj1 (unindex_fields o m1)).
  destruct (st_remove_ok (storage m1) o) as [s Hs]. rewrite Hs.
  destruct (inv_unindex_remove m1 o s Hi Hs) as [Hi' Hv].
  apply inv_set_states; [done|]. cbn. intros p Hp. rewrite Hv.
  intros [u [Hne _]%lookup_delete_Some]. by rewrite lookup_delete_ne.
Qed.
Lemma inv_reconcile m rem add : inv m → inv (reconcile_utxo_state m rem add).
Proof.
  intros Hi. unfold reconcile_utxo_state.
  assert (inv (foldl reconcile_remove m rem)) as Hi'.
  { revert m Hi. induction rem; intros m Hi; cbn; auto using inv_reconcile_remove. }
  revert Hi'. generalize (foldl reconcile_remove m rem). clear Hi m.
  induction add as [|u add IH]; intros m Hi; cbn; auto using inv_add_utxo.
Qed.

Lemma inv_lock_collateral_inner now m o mn h a p :
  inv m → inv (lock_collateral_inner now m o mn h a p).1.
Proof.
  intros Hi. unfold lock_collateral_inner. split_matches; try done; by eapply inv_same, Hi.
Qed.

Lemma inv_purge m : inv m → inv (purge_stale_collateral_locks m).1.
Proof.
  unfold purge_stale_collateral_locks. cbn. generalize (stale_locks m) as l.
  intros l. revert m. induction l as [|o l IH]; intros m Hi; cbn; [done|]. apply IH.
  unfold purge_one. destruct (locked_collaterals m !! o); [|done].
  set (m1 := db_remove_lock o (set_collaterals (delete o (locked_collaterals m)) m)).
  assert (inv m1) as Hi' by by eapply inv_same, Hi.
  destruct (utxo_states m1 !! o) as [[]|]; auto using inv_insert_state.
Qed.

Lemma inv_rebuild now m es : inv m → inv (rebuild_collateral_locks now m es).1.
Proof.
  intros Hi. unfold rebuild_collateral_locks.
  assert (∀ r, inv (foldl (rebuild_one now) (m, r) es).1) as Hr.
  { revert m Hi. induction es as [|[[[o mn] h] a] es IH]; intros m Hi r; [done|].
    cbn [foldl]. unfold rebuild_one at 2. split_matches; auto; apply IH; by eapply inv_same, Hi. }
  specialize (Hr 0). destruct (foldl (rebuild_one now) (m, 0) es) as [m' r]. cbn in *.
  by apply inv_purge.
Qed.

Lemma inv_clear_all m : inv m → inv (clear_all m).1.
Proof.
  intros Hi. unfold clear_all. destruct (st_clear_all (storage m)) as [s|] eqn:E; [|done].
  destruct (st_clear_view _ _ (inv_wf m Hi) E) as [Hwf Hv].
  split; cbn; rewrite ?Hv; try done; try set_solver.
  intros t. rewrite fmap_Some. by intros (? & _ & ->).
Qed.

Lemma inv_unlock_all m : inv m → inv (unlock_all_collaterals m).1.
Proof.
  unfold unlock_all_collaterals. cbn. generalize ((iter (locked_collaterals m)).*1) as l.
  intros l. revert m. induction l; intros m Hi; cbn; auto using inv_unlock_collateral.
Qed.

Lemma inv_list_locked m : inv m → inv (list_locked_collaterals m).1.
Proof.
  unfold list_locked_collaterals. cbn. generalize ((filter (λ e, negb (bool_decide (is_Some (utxo_states m !! e.1))))
    (iter (locked_collaterals m))).*1) as l. intros l. revert m.
  induction l as [|o l IH]; intros m Hi; cbn; [done|]. apply IH. by eapply inv_same, Hi.
Qed.

Lemma inv_load_persisted m : inv m → inv (load_persisted_collateral_locks m).1.
Proof.
  intros Hi. unfold load_persisted_collateral_locks. destruct (collateral_db m) as [tree|]; [|done].
  generalize 0. revert m Hi. induction (iter (ct_locks tree)) as [|[k l] es IH]; intros m Hi z; [done|].
  cbn [foldl]. destruct (is_unspent_at m _); apply IH; by eapply inv_same, Hi.
Qed.

(** ** Start-up *)

Definition settled m (o : OutPoint) (u : UTXO) : Prop :=
  (o ∉ spent_tombstones m) ∧ is_Some (utxo_states m !! o) ∧
  ∃ set, address_index m !! address u = Some set ∧ o ∈ set.

(** Between two rounds of the start-up loop every stored UTXO is settled or
    still to come. *)
Definition init_ok (todo : list UTXO) m : Prop :=
  st_wf (storage m) ∧ (∀ t, spent_db m = Some t → t = spent_tombstones m) ∧
  (∀ o u, view m !! o = Some u → (u ∈ todo) ∨ settled m o u).

Lemma init_loop_inv todo m : init_ok todo m → inv (initialize_loop todo m).
Proof.
  revert m. induction todo as [|u todo IH]; intros m (Hwf & Hdb & Hall); cbn.
  { assert (∀ o u, view m !! o = Some u → settled m o u) as Hs.
    { intros o u Hu. destruct (Hall o u Hu) as [?%elem_of_nil|]; done. }
    split; try done.
    - intros o Ho. apply eq_None_not_Some. intros [u Hu]. by destruct (Hs o u Hu).
    - intros o u Hu. by destruct (Hs o u Hu) as (_ & ? & _).
    - intros o u Hu. by destruct (Hs o u Hu) as (_ & _ & ?). }
  case_bool_decide as Ht.
  - destruct (st_remove_ok (storage m) (outpoint u)) as [s Hs]. rewrite Hs. apply IH.
    destruct (st_remove_view _ _ _ Hwf Hs) as [Hwf' Hv]. split_and!; [done..|].
    cbn. rewrite Hv. intros o u' [Hne Hu]%lookup_delete_Some.
    destruct (Hall o u' Hu) as [[->|Hin]%elem_of_cons|]; [|by left|by right].
    by apply st_view_key in Hu.
  - apply IH. set (m1 := match utxo_states m !! outpoint u with Some _ => m | None => _ end).
    assert (storage m1 = storage m ∧ spent_tombstones m1 = spent_tombstones m ∧
            spent_db m1 = spent_db m ∧ address_index m1 = address_index m) as (E1 & E2 & E3 & E4)
      by by (unfold m1; destruct (utxo_states m !! outpoint u)).
    assert (is_Some (utxo_states m1 !! outpoint u) ∧
            ∀ o, is_Some (utxo_states m !! o) → is_Some (utxo_states m1 !! o)) as [Hs1 Hs2].
    { unfold m1. destruct (utxo_states m !! outpoint u) eqn:E; cbn; [by rewrite E|].
      rewrite lookup_insert_eq. split; [by eexists|]. intros o Ho.
      rewrite lookup_insert. case_decide; [by eexists|done]. }
    split_and!; cbn; rewrite ?E1, ?E2, ?E3; [done..|].
    intros o u' Hu. destruct (Hall o u' Hu) as [[->|Hin]%elem_of_cons|(Hnt & Hst & set & Hix & Hin)];
      [|by left|]; right.
    + apply st_view_key in Hu as <-; [|done]. split_and!; cbn; [by rewrite E2|done|].
      rewrite lookup_insert_eq. eexists. split; [done|]. set_solver.
    + split_and!; cbn; [by rewrite E2|by apply Hs2|].
      apply (index_insert_lookup m1 (address u) (outpoint u) o (address u') set); [by rewrite E4|done].
Qed.

Lemma init_states_inv m :
  st_wf (storage m) → (∀ t, spent_db m = Some t → t = spent_tombstones m) →
  inv (initialize_states m).1.
Proof.
  intros Hwf Hdb. apply init_loop_inv. split_and!; [done..|]. intros o u Hu. left.
  rewrite (st_list_view _ Hwf). apply list_elem_of_fmap. exists (o, u). split; [done|].
  by apply elem_of_map_to_list.
Qed.

(** A node that starts on an existing database: the persisted tombstones and
    collateral locks are attached, then the states are initialised. *)
Definition boot (s : S) (tombs : gset OutPoint) (tree : CollateralTree) : UTXOStateManager S :=
  (initialize_states (enable_collateral_persistence tree
     (enable_spent_persistence tombs (new_with_storage s)))).1.

Lemma boot_inv s tombs tree : st_wf s → inv (boot s tombs tree).
Proof. intros Hwf. apply init_states_inv; [done|]. cbn. intros t [= <-]. set_solver. Qed.
End invariant.

(** ** Operations as data *)

Inductive op :=
| OpAdd (u : UTXO) | OpRemove (o : OutPoint) | OpSpend (now : Z) (o : OutPoint)
| OpRestore (u : UTXO)
| OpLock (now : Z) (o : OutPoint) (tx : Hash256) | OpUnlock (o : OutPoint) (tx : Hash256)
| OpLockAll (now : Z) (os : list OutPoint) (tx : Hash256)
| OpCommit (now : Z) (o : OutPoint) (tx : Hash256) (height : Z)
| OpCleanup (now : Z) | OpUpdate (o : OutPoint) (s : UTXOState)
| OpFinalize (now : Z) (o : OutPoint) (tx : Hash256) | OpForceUnlock (o : OutPoint)
| OpApply (ups : list (OutPoint * UTXOState))
| OpReconcile (rem : list OutPoint) (add : list UTXO)
| OpLockCollateral (now : Z) (o : OutPoint) (mn : string) (height amt : Z) (persist : bool)
| OpUnlockCollateral (o : OutPoint) | OpUnlockAllCollaterals | OpListCollaterals
| OpRebuild (now : Z) (es : list (OutPoint * string * Z * Z)) | OpPurge
| OpLoadPersisted | OpSaveLocal (o : option OutPoint)
| OpHeight (o : OutPoint) (h : Z) | OpPubkey (a : string) (pk : bytes) | OpClear.

Section histories.
Context {S : Type} `{UtxoStorage S} `{MapIter}.

Definition exec (m : UTXOStateManager S) (p : op) : UTXOStateManager S :=
  match p with
  | OpAdd u => (add_utxo m u).1
  | OpRemove o => (remove_utxo m o).1
  | OpSpend now o => (spend_utxo now m o).1
  | OpRestore u => (restore_utxo m u).1
  | OpLock now o tx => (lock_utxo now m o tx).1
  | OpUnlock o tx => (unlock_utxo m o tx).1
  | OpLockAll now os tx => (lock_utxos_atomic now m os tx).1
  | OpCommit now o tx height => (commit_spend now m o tx height).1
  | OpCleanup now => (cleanup_expired_locks now m).1
  | OpUpdate o s => update_state m o s
  | OpFinalize now o tx => mark_timevote_finalized now m o tx
  | OpForceUnlock o => (force_unlock m o).1
  | OpApply ups => apply_state_updates m ups
  | OpReconcile rem add => reconcile_utxo_state m rem add
  | OpLockCollateral now o mn height amt persist =>
      (lock_collateral_inner now m o mn height amt persist).1
  | OpUnlockCollateral o => (unlock_collateral m o).1
  | OpUnlockAllCollaterals => (unlock_all_collaterals m).1
  | OpListCollaterals => (list_locked_collaterals m).1
  | OpRebuild now es => (rebuild_collateral_locks now m es).1
  | OpPurge => (purge_stale_collateral_locks m).1
  | OpLoadPersisted => (load_persisted_collateral_locks m).1
  | OpSaveLocal o => save_local_collateral_outpoint m o
  | OpHeight o h => record_utxo_height m o h
  | OpPubkey a pk => register_pubkey m a pk
  | OpClear => (clear_all m).1
  end.

Definition run (m : UTXOStateManager S) (ps : list op) : UTXOStateManager S := foldl exec m ps.

(** The operations that give a tombstoned outpoint back. *)
Definition lifts_tombstone (o : OutPoint) (p : op) : Prop :=
  match p with OpRestore u => outpoint u = o | OpClear => True | _ => False end.
End histories.

Section histories_inv.
Context {S : Type} `{UtxoStorageLaws S} `{!StorageReliable S} `{MapIter}.
Implicit Types m : UTXOStateManager S.

Lemma exec_inv m p : inv m → inv (exec m p).
Proof.
  intros Hi. destruct p; cbn [exec];
    first [ by eapply inv_same, Hi
          | auto using inv_add_utxo, inv_remove_utxo, inv_spend_utxo, inv_restore_utxo,
              inv_lock_utxo, inv_unlock_utxo, inv_lock_utxos_loop, inv_commit_spend,
              inv_cleanup_expired_locks, inv_insert_state, inv_mark_timevote_finalized,
              inv_force_unlock, inv_apply_state_updates, inv_reconcile,
              inv_lock_collateral_inner, inv_unlock_collateral, inv_unlock_all,
              inv_list_locked, inv_rebuild, inv_purge, inv_load_persisted, inv_clear_all ].
  - by apply inv_lock_utxos_loop.
  - by apply inv_insert_state.
Qed.

Lemma run_inv m ps : inv m → inv (run m ps).
Proof. revert m. induction ps as [|p ps IH]; intros m Hi; [done|]. apply IH. by apply exec_inv. Qed.

(** C5: In every state reached from start-up by any sequence of UTXO-manager operations,
    over any storage backend whose writes succeed, the UTXO set is consistent: no tombstoned
    (spent) outpoint is stored, the persisted tombstones are the ones in memory, every
    stored UTXO has a state and is listed in the address index under its own address. *)
Theorem reachable_inv s tombs tree ps : st_wf s → inv (run (boot s tombs tree) ps).
Proof. intros Hwf. by apply run_inv, boot_inv. Qed.
End histories_inv.

Section witnesses.
#[local] Existing Instance canonical_iter.

(** A node that starts on an empty in-memory store and receives one output. *)
Definition w_boot : UTXOStateManager (gmap OutPoint UTXO) := boot ∅ ∅ (mkCollateralTree ∅ None).
Definition w_started : UTXOStateManager (gmap OutPoint UTXO) := run w_boot [OpAdd (w_utxo 1 100)].

Lemma w_boot_wf : st_wf (∅ : gmap OutPoint UTXO).
Proof. intros o u Ho. by rewrite lookup_empty in Ho. Qed.
Lemma w_inv ps : inv (run w_boot ps).
Proof. apply run_inv, boot_inv, w_boot_wf. Qed.

Lemma reachable_inv_witness :
  inv (run w_boot [OpAdd (w_utxo 1 100); OpLock 7 (w_op 1) [1]; OpFinalize 8 (w_op 1) [1]; OpAdd (w_utxo 1 100)]).
Proof. apply reachable_inv. apply w_boot_wf. Defined.
End witnesses.
