(* ===== verification/UtxoTheorems.v ===== *)
(** * The UTXO state manager: safety and functional theorems *)

From Stdlib Require Import ZArith Lia Ascii String.
From stdpp Require Import base gmap strings list.
From S2P Require Import Prelude Types Instances Storage UtxoManager UtxoProofs.

Section tombstones.
Context {S : Type} `{UtxoStorage S} `{MapIter}.
Implicit Types m : UTXOStateManager S.

Lemma keeps_unindex o m : spent_tombstones (unindex o m) = spent_tombstones m.
Proof. unfold unindex, remove_from_address_index. split_matches; done. Qed.
Lemma keeps_unlock_collateral m o :
  spent_tombstones (unlock_collateral m o).1 = spent_tombstones m.
Proof. unfold unlock_collateral. by destruct (_ !! o). Qed.
Lemma keeps_release m o :
  spent_tombstones (if is_collateral_locked m o then (unlock_collateral m o).1 else m)
    = spent_tombstones m.
Proof. destruct (is_collateral_locked m o); [apply keeps_unlock_collateral|done]. Qed.
Lemma keeps_add u m : spent_tombstones (add_utxo m u).1 = spent_tombstones m.
Proof. unfold add_utxo. case_bool_decide; [done|]. split_matches; done. Qed.
Lemma keeps_lock now o t m : spent_tombstones (lock_utxo now m o t).1 = spent_tombstones m.
Proof. unfold lock_utxo. split_matches; done. Qed.
Lemma keeps_unlock o t m : spent_tombstones (unlock_utxo m o t).1 = spent_tombstones m.
Proof. unfold unlock_utxo. split_matches; done. Qed.
Lemma keeps_reconcile_remove o m : spent_tombstones (reconcile_remove m o) = spent_tombstones m.
Proof.
  unfold reconcile_remove. rewrite <-(keeps_release m o).
  set (m1 := if is_collateral_locked m o then _ else m). rewrite <-(keeps_unindex o m1).
  by destruct (st_remove_utxo _ o).
Qed.
Lemma keeps_purge_one m o : spent_tombstones (purge_one m o) = spent_tombstones m.
Proof. unfold purge_one. split_matches; done. Qed.

Lemma keeps_purge m : spent_tombstones (purge_stale_collateral_locks m).1 = spent_tombstones m.
Proof.
  cbn. apply (foldl_preserve purge_one (λ m', spent_tombstones m' = spent_tombstones m)); [|done].
  intros a b <-. apply keeps_purge_one.
Qed.

Lemma keeps_lock_loop now ops locked t m :
  spent_tombstones (lock_utxos_loop now ops locked t m).1 = spent_tombstones m.
Proof.
  revert locked m. induction ops as [|o ops IH]; intros locked m; cbn; [done|].
  pose proof (keeps_lock now o t m) as Hl. destruct (lock_utxo now m o t) as [m' [|e]]; cbn in *.
  { by rewrite IH. }
  apply (foldl_preserve (λ m lo, (unlock_utxo m lo t).1) (λ m', spent_tombstones m' = spent_tombstones m));
    [|done]. intros a b <-. apply keeps_unlock.
Qed.

Lemma keeps_spend now o m :
  spent_tombstones m ⊆ spent_tombstones (spend_utxo now m o).1.
Proof.
  unfold spend_utxo. rewrite <-(keeps_release m o).
  set (m1 := if is_collateral_locked m o then _ else m). rewrite <-(keeps_unindex o m1).
  destruct (st_remove_utxo _ o); cbn; [|done]. set_solver.
Qed.
Lemma keeps_mark now o t m :
  spent_tombstones m ⊆ spent_tombstones (mark_timevote_finalized now m o t).
Proof.
  unfold mark_timevote_finalized. destruct (refuses_finalization m o t); [done|].
  rewrite <-(keeps_unindex o m). destruct (st_remove_utxo _ o); cbn; set_solver.
Qed.

Lemma keeps_fold {B} (f : UTXOStateManager S → B → UTXOStateManager S) l m :
  (∀ m b, spent_tombstones (f m b) = spent_tombstones m) →
  spent_tombstones (foldl f m l) = spent_tombstones m.
Proof.
  intros Hf. apply (foldl_preserve f (λ m', spent_tombstones m' = spent_tombstones m)); [|done].
  intros a b <-. apply Hf.
Qed.

Lemma keeps_rebuild now es m :
  spent_tombstones (rebuild_collateral_locks now m es).1 = spent_tombstones m.
Proof.
  unfold rebuild_collateral_locks.
  assert (∀ r, spent_tombstones (foldl (rebuild_one now) (m, r) es).1 = spent_tombstones m) as Hf.
  { intros r. apply (foldl_preserve (rebuild_one now)
      (λ a : UTXOStateManager S * Z, spent_tombstones a.1 = spent_tombstones m)); [|done].
    intros [m' z] [[[o mn] h] a] Ha. cbn in *. split_matches; done. }
  specialize (Hf 0). destruct (foldl _ _ es) as [u r]. cbn in *. exact (eq_trans (keeps_purge u) Hf).
Qed.

Lemma keeps_load m :
  spent_tombstones (load_persisted_collateral_locks m).1 = spent_tombstones m.
Proof.
  unfold load_persisted_collateral_locks. destruct (collateral_db m) as [tree|]; [|done].
  match goal with |- spent_tombstones (foldl ?f _ _).1 = _ =>
    apply (foldl_preserve f (λ a, spent_tombstones a.1 = spent_tombstones m)) end; [|done].
  intros [m' z] [k l] Ha. cbn in *. by destruct (is_unspent_at m' _).
Qed.

Lemma exec_keeps_tombstone m p o :
  ¬ lifts_tombstone o p → o ∈ spent_tombstones m → o ∈ spent_tombstones (exec m p).
Proof.
  intros Hl Ho. destruct p; cbn [exec lifts_tombstone] in *;
    rewrite ?keeps_add, ?keeps_lock, ?keeps_unlock, ?keeps_purge, ?keeps_rebuild, ?keeps_load,
      ?keeps_unlock_collateral; try done.
  - unfold remove_utxo. rewrite <-(keeps_unindex o0 m) in Ho.
    destruct (st_remove_utxo _ o0); cbn; [|done]. by destruct (_ !! o0).
  - by apply keeps_spend.
  - unfold restore_utxo. destruct (already_restored _ _); [done|]. cbn.
    destruct (st_add_utxo _ u); cbn; set_solver.
  - unfold lock_utxos_atomic. by rewrite keeps_lock_loop.
  - unfold commit_spend. split_matches; done.
  - by apply keeps_mark.
  - unfold force_unlock. split_matches; done.
  - unfold apply_state_updates. rewrite keeps_fold; [done|]. intros m' [o' s]. split_matches; done.
  - unfold reconcile_utxo_state. rewrite !keeps_fold; [done| |].
    + intros. apply keeps_reconcile_remove.
    + intros. apply keeps_add.
  - unfold lock_collateral_inner. split_matches; done.
  - unfold unlock_all_collaterals. cbn. rewrite keeps_fold; [done|]. intros. apply keeps_unlock_collateral.
  - unfold list_locked_collaterals. cbn. by rewrite keeps_fold.
Qed.
End tombstones.

Section safety.
Context {S : Type} `{UtxoStorageLaws S} `{!StorageReliable S} `{MapIter}.
Implicit Types m : UTXOStateManager S.
Abbreviation view m := (st_view (storage m)).

(** C6: No double spend: once an outpoint is tombstoned it stays out of the UTXO set through
    every sequence of operations other than the restore of a rolled-back block for that very
    outpoint and a full reset, and adding a UTXO with that outpoint is refused with
    AlreadySpent and changes nothing. *)
Theorem spent_stays_spent m o ps :
  inv m → o ∈ spent_tombstones m → Forall (λ p, ¬ lifts_tombstone o p) ps →
  o ∈ spent_tombstones (run m ps) ∧ view (run m ps) !! o = None ∧
  ∀ u, outpoint u = o → add_utxo (run m ps) u = (run m ps, Err AlreadySpent).
Proof.
  intros Hi Ho Hps.
  assert (o ∈ spent_tombstones (run m ps)) as Ho'.
  { revert m Hi Ho. induction Hps as [|p ps Hp Hps IH]; intros m Hi Ho; [done|].
    apply IH; [by apply exec_inv|by apply exec_keeps_tombstone]. }
  split_and!; [done| |].
  - by apply inv_tomb; [apply run_inv|].
  - intros u <-. unfold add_utxo. by rewrite bool_decide_true.
Qed.

(** Two managers with the same content, whatever the representation of the store. *)
Definition same_content m m' : Prop :=
  view m = view m' ∧ utxo_states m = utxo_states m' ∧
  locked_collaterals m = locked_collaterals m' ∧ collateral_db m = collateral_db m' ∧
  address_index m = address_index m' ∧ pubkey_cache m = pubkey_cache m' ∧
  spent_tombstones m = spent_tombstones m' ∧ spent_db m = spent_db m' ∧
  creation_heights m = creation_heights m'.

(** Undoing the index update of a spend. *)
Lemma unindex_reindex m o u set :
  st_get_utxo (storage m) o = Some u → address_index m !! address u = Some set → o ∈ set →
  <[address u := {[o]} ∪ default ∅ (address_index (unindex o m) !! address u)]>
    (address_index (unindex o m)) = address_index m.
Proof.
  intros Hg Hix Hin. unfold unindex, remove_from_address_index. rewrite Hg, Hix.
  case_bool_decide as He; cbn.
  - rewrite lookup_delete_eq. cbn. rewrite insert_delete_eq. apply insert_id. rewrite Hix. f_equal.
    apply set_eq. intros x. destruct (decide (x = o)) as [->|]; set_solver.
  - rewrite lookup_insert_eq. cbn. rewrite insert_insert_eq. apply insert_id. rewrite Hix. f_equal.
    apply set_eq. intros x. destruct (decide (x = o)) as [->|]; set_solver.
Qed.

(** Rolling back a spend undoes it: from a consistent state, spending an unspent output that
    is no collateral and then restoring it (as a reorg does) both succeed and give back the
    same stored set, states, collateral locks, index and tombstones, while in between
    re-adding the output is refused. *)
Theorem spend_restore_roundtrip now m o u :
  inv m → view m !! o = Some u → utxo_states m !! o = Some Unspent →
  is_collateral_locked m o = false →
  ∃ m1 m2, spend_utxo now m o = (m1, Ok tt) ∧ restore_utxo m1 u = (m2, Ok tt) ∧
    add_utxo m1 u = (m1, Err AlreadySpent) ∧ same_content m2 m.
Proof.
  intros Hi Hu Hst Hnc.
  pose proof (inv_wf m Hi) as Hwf. pose proof (st_view_key _ _ _ Hwf Hu) as Hk.
  assert (o ∉ spent_tombstones m) as Hnt.
  { intros Ht. pose proof (inv_tomb m Hi o Ht). congruence. }
  assert (st_get_utxo (storage m) o = Some u) as Hg by by rewrite st_get_view.
  destruct (inv_index m Hi o u Hu) as (set & Hix & Hin).
  unfold spend_utxo. rewrite Hnc.
  destruct (unindex_fields o m) as (E1 & E2 & E3 & E4 & E5 & E6 & E7 & E8).
  rewrite E1. destruct (st_remove_ok (storage m) o) as [s Hs]. rewrite Hs.
  destruct (st_remove_view _ _ _ Hwf Hs) as [Hwf1 Hv1].
  destruct (st_add_ok s u) as [s' Ha]. destruct (st_add_view _ _ _ Hwf1 Ha) as [Hwf2 Hv2].
  eexists _, _. split; [done|].
  unfold restore_utxo, already_restored. cbn. rewrite Hk, lookup_insert_eq, Ha. split; [done|].
  split. { unfold add_utxo. rewrite Hk, bool_decide_true; [done|]. cbn. set_solver. }
  unfold same_content. cbn. rewrite E2, E3, E4, E5, E6, E7, E8.
  split_and!; try done.
  - rewrite Hv2, Hv1, Hk, insert_delete_eq. by apply insert_id.
  - rewrite insert_insert_eq. by apply insert_id.
  - by eapply unindex_reindex.
  - apply set_eq. intros x. destruct (decide (x = o)) as [->|]; set_solver.
  - destruct (spent_db m) as [t|] eqn:Ed; cbn; [|done]. f_equal.
    pose proof (inv_db m Hi t Ed) as ->. apply set_eq. intros x.
    destruct (decide (x = o)) as [->|]; set_solver.
Qed.
End safety.

Section witnesses.
#[local] Existing Instance canonical_iter.

Lemma spent_stays_spent_witness :
  let m := run w_boot [OpAdd (w_utxo 1 100); OpSpend 5 (w_op 1)] in
  (w_op 1) ∈ spent_tombstones (run m [OpAdd (w_utxo 1 100); OpForceUnlock (w_op 1); OpCleanup 9]).
Proof.
  apply (spent_stays_spent (run w_boot [OpAdd (w_utxo 1 100); OpSpend 5 (w_op 1)])).
  - apply w_inv.
  - by apply (bool_decide_unpack _); vm_compute.
  - rewrite !Forall_cons, Forall_nil. split_and!; cbn; tauto.
Defined.

Lemma spend_restore_roundtrip_witness :
  ∃ m1 m2, spend_utxo 5 w_started (w_op 1) = (m1, Ok tt) ∧ restore_utxo m1 (w_utxo 1 100) = (m2, Ok tt) ∧
    add_utxo m1 (w_utxo 1 100) = (m1, Err AlreadySpent) ∧ same_content m2 w_started.
Proof.
  apply (spend_restore_roundtrip 5 w_started (w_op 1) (w_utxo 1 100));
    [apply w_inv|vm_compute; reflexivity..].
Defined.
End witnesses.
