(* ===== verification/UtxoLocks.v ===== *)
(** * The UTXO state manager: transaction locks and finalization

    Double-spend protection: a lock keeps other transactions away until it
    expires, locking several inputs is all or nothing, and a finalized spend is
    not changed by the operations of consensus. *)

From Stdlib Require Import ZArith Lia Ascii String.
From stdpp Require Import base gmap strings list.
From S2P Require Import Prelude Types Instances Storage UtxoManager UtxoProofs.

Section locks.
Context {S : Type} `{UtxoStorage S} `{MapIter}.
Implicit Types m : UTXOStateManager S.

Lemma set_states_id m : set_states (utxo_states m) m = m.
Proof. by destruct m. Qed.
Lemma set_states_twice m st st' : set_states st (set_states st' m) = set_states st m.
Proof. done. Qed.

Lemma lock_utxo_ok_iff now m o tx :
  (lock_utxo now m o tx).2 = Ok tt ↔ is_spendable now m o (Some tx) = true.
Proof.
  unfold lock_utxo, is_spendable. destruct (is_collateral_locked m o); [done|].
  destruct (utxo_states m !! o) as [[]|]; try done.
  case_bool_decide as E; cbn.
  - subst. by rewrite bool_decide_true.
  - rewrite (bool_decide_false (Some tx = _)) by congruence. by destruct (is_lock_expired _ _).
Qed.

Lemma lock_utxo_err now m o tx e : (lock_utxo now m o tx).2 = Err e → (lock_utxo now m o tx).1 = m.
Proof. unfold lock_utxo. split_matches; done. Qed.

(** The time stamp of a lock: kept when the transaction already held it. *)
Definition lock_stamp (now : Z) (tx : Hash256) (s : option UTXOState) : Z :=
  match s with Some (Locked t at_) => if bool_decide (t = tx) then at_ else now | _ => now end.

Lemma lock_utxo_effect now m o tx :
  (lock_utxo now m o tx).2 = Ok tt →
  (lock_utxo now m o tx).1 =
    set_states (<[o := Locked tx (lock_stamp now tx (utxo_states m !! o))]> (utxo_states m)) m.
Proof.
  unfold lock_utxo, lock_stamp. destruct (is_collateral_locked m o); [done|].
  destruct (utxo_states m !! o) as [[]|] eqn:E; try done.
  case_bool_decide; subst; [|by destruct (is_lock_expired _ _)].
  intros _. cbn. by rewrite insert_id, set_states_id.
Qed.

(** A lock taken for [tx] does not change what [tx] can still lock. *)
Lemma spendable_after_lock now m o o' tx at_ :
  is_spendable now m o (Some tx) = true →
  is_spendable now (set_states (<[o := Locked tx at_]> (utxo_states m)) m) o' (Some tx)
    = is_spendable now m o' (Some tx).
Proof.
  unfold is_spendable, is_collateral_locked. cbn. intros Ho. rewrite lookup_insert.
  case_decide; [|done]. subst o'. rewrite Ho. rewrite (bool_decide_true (Some tx = _)) by done.
  by destruct (bool_decide _).
Qed.

Lemma lock_loop_ok_iff now ops locked tx m :
  (lock_utxos_loop now ops locked tx m).2 = Ok tt ↔
  Forall (λ o, is_spendable now m o (Some tx) = true) ops.
Proof.
  revert locked m. induction ops as [|o ops IH]; intros locked m; cbn; [by rewrite Forall_nil|].
  rewrite Forall_cons, <-(lock_utxo_ok_iff now m o).
  pose proof (lock_utxo_effect now m o tx) as He.
  destruct (lock_utxo now m o tx) as [m' [[]|e]] eqn:E; cbn in *.
  - rewrite IH, (He eq_refl). split; [intros HF; split; [done|]|intros [_ HF]];
      (eapply Forall_impl; [exact HF|]); intros o' Ho'; cbn in *;
      rewrite spendable_after_lock in * by (apply lock_utxo_ok_iff; by rewrite E); done.
  - split; [done|]. by intros [? _].
Qed.

Lemma lock_loop_success now ops locked tx m :
  (lock_utxos_loop now ops locked tx m).2 = Ok tt →
  let m' := (lock_utxos_loop now ops locked tx m).1 in
  m' = set_states (utxo_states m') m ∧
  (∀ o, o ∉ ops → utxo_states m' !! o = utxo_states m !! o) ∧
  (∀ o, o ∈ ops → utxo_states m' !! o =
     Some (Locked tx (lock_stamp now tx (utxo_states m !! o)))).
Proof.
  revert locked m. induction ops as [|o ops IH]; intros locked m; cbn.
  { intros _. rewrite set_states_id. split_and!; [done..|]. by intros o ?%elem_of_nil. }
  pose proof (lock_utxo_effect now m o tx) as He.
  destruct (lock_utxo now m o tx) as [m1 [[]|e]] eqn:E; cbn in *; [|done].
  specialize (He eq_refl). subst m1. intros Hok. destruct (IH _ _ Hok) as (IH1 & IH2 & IH3).
  set (m2 := (lock_utxos_loop now ops (locked ++ [o]) tx _).1) in *. cbn in IH2, IH3.
  split_and!; [exact IH1| |].
  - intros p [Hne Hp]%not_elem_of_cons. rewrite IH2 by done. by rewrite lookup_insert_ne.
  - intros p Hp. destruct (decide (p ∈ ops)) as [Hin|Hin].
    + rewrite IH3 by done. rewrite lookup_insert. case_decide; [|done]. subst. cbn.
      by rewrite bool_decide_true.
    + apply elem_of_cons in Hp as [->|]; [|done]. rewrite IH2 by done. by rewrite lookup_insert_eq.
Qed.

(** The rollback of the outpoints in [l] gives the manager the call started from. *)
Lemma rollback_restores m0 tx l st :
  (∀ o, o ∈ l → utxo_states m0 !! o = Some Unspent ∧
     (st !! o = Some Unspent ∨ ∃ at_, st !! o = Some (Locked tx at_))) →
  (∀ o, o ∉ l → st !! o = utxo_states m0 !! o) →
  foldl (λ m lo, (unlock_utxo m lo tx).1) (set_states st m0) l = m0.
Proof.
  revert st. induction l as [|o l IH]; intros st Hin Hout; cbn.
  { rewrite <-(set_states_id m0) at 2. f_equal. apply map_eq. intros o. apply Hout. set_solver. }
  assert ((unlock_utxo (set_states st m0) o tx).1 = set_states (<[o := Unspent]> st) m0) as ->.
  { unfold unlock_utxo. cbn. destruct (Hin o (list_elem_of_here _ _)) as [_ [Ho|[a Ho]]]; rewrite Ho.
    - cbn. by rewrite insert_id.
    - by rewrite bool_decide_true. }
  apply IH.
  - intros p Hp. destruct (Hin p ltac:(set_solver)) as [? ?]. split; [done|].
    rewrite lookup_insert. case_decide; [by left|done].
  - intros p Hp. rewrite lookup_insert. case_decide; subst.
    + symmetry. by apply Hin; set_solver.
    + apply Hout. set_solver.
Qed.

Definition not_locked m (o : OutPoint) : Prop :=
  match utxo_states m !! o with Some (Locked _ _) => False | _ => True end.

Lemma lock_loop_failure now ops locked tx m0 st e :
  (∀ o, o ∈ ops → not_locked m0 o) →
  (∀ o, o ∈ locked → utxo_states m0 !! o = Some Unspent ∧ ∃ at_, st !! o = Some (Locked tx at_)) →
  (∀ o, o ∉ locked → st !! o = utxo_states m0 !! o) →
  (lock_utxos_loop now ops locked tx (set_states st m0)).2 = Err e →
  (lock_utxos_loop now ops locked tx (set_states st m0)).1 = m0.
Proof.
  revert locked st. induction ops as [|o ops IH]; intros locked st Hnl Hin Hout; cbn; [done|].
  pose proof (lock_utxo_effect now (set_states st m0) o tx) as He.
  pose proof (lock_utxo_err now (set_states st m0) o tx) as Hr.
  destruct (lock_utxo now (set_states st m0) o tx) as [m1 [[]|e']] eqn:E; cbn in *.
  - rewrite (He eq_refl), set_states_twice. intros Herr. apply IH; [set_solver| | |done].
    + intros p [Hp| ->%list_elem_of_singleton]%elem_of_app.
      * destruct (Hin p Hp) as [? [a Ha]]. split; [done|].
        rewrite lookup_insert. case_decide; eauto.
      * rewrite lookup_insert_eq. split; [|eauto].
        destruct (decide (o ∈ locked)) as [Hl|Hl]; [by apply Hin|].
        pose proof (lock_utxo_ok_iff now (set_states st m0) o tx) as [Hs _]. rewrite E in Hs.
        specialize (Hs eq_refl). unfold is_spendable in Hs. cbn in Hs. rewrite Hout in Hs by done.
        specialize (Hnl o ltac:(set_solver)). unfold not_locked in Hnl.
        destruct (is_collateral_locked _ _); [done|]. by destruct (utxo_states m0 !! o) as [[]|].
    + intros p Hp. rewrite elem_of_app, list_elem_of_singleton in Hp.
      rewrite lookup_insert_ne by naive_solver. apply Hout. naive_solver.
  - intros [= ->]. rewrite (Hr e eq_refl). apply rollback_restores; [|done].
    intros p Hp. destruct (Hin p Hp). auto.
Qed.

(** Locking the inputs of a transaction is all or nothing: it succeeds iff every input is
    spendable by the transaction, success locks exactly these inputs for it and touches
    nothing else, and failure leaves the manager as it was when none of the inputs was
    locked before. *)
Theorem lock_utxos_atomic_spec now m ops tx :
  let '(m', r) := lock_utxos_atomic now m ops tx in
  (r = Ok tt ↔ ∀ o, o ∈ ops → is_spendable now m o (Some tx) = true) ∧
  (r = Ok tt → m' = set_states (utxo_states m') m ∧ ∀ o,
     utxo_states m' !! o = if bool_decide (o ∈ ops)
                           then Some (Locked tx (lock_stamp now tx (utxo_states m !! o)))
                           else utxo_states m !! o) ∧
  (r ≠ Ok tt → (∀ o, o ∈ ops → not_locked m o) → m' = m).
Proof.
  unfold lock_utxos_atomic. pose proof (lock_loop_ok_iff now ops [] tx m) as H1.
  pose proof (lock_loop_success now ops [] tx m) as H2.
  pose proof (λ e, lock_loop_failure now ops [] tx m (utxo_states m) e) as H3.
  rewrite set_states_id in H3. destruct (lock_utxos_loop now ops [] tx m) as [m' r]; cbn in *.
  rewrite Forall_forall in H1. split_and!; [done| |].
  - intros Hr. destruct (H2 Hr) as (? & Hout & Hin). split; [done|]. intros o. case_bool_decide; auto.
  - intros Hne Hnl. destruct r as [[]|e]; [done|]. by apply (H3 e); [|set_solver| |].
Qed.
End locks.

(** ** Histories *)

(** The operations that set the state of [o] from outside consensus: block
    processing and rollback, reconciliation with peers, operator commands. *)
Definition overrides (o : OutPoint) (p : op) : Prop :=
  match p with
  | OpRemove o' | OpSpend _ o' | OpUpdate o' _ | OpForceUnlock o' => o' = o
  | OpRestore u => outpoint u = o
  | OpApply ups => o ∈ ups.*1
  | OpReconcile rem _ => o ∈ rem
  | OpClear => True
  | _ => False
  end.


Section histories.
Context {S : Type} `{UtxoStorage S} `{MapIter}.
Implicit Types m : UTXOStateManager S.

(** [o] is locked for [tx] and is nobody's collateral, or, in general, keeps
    the state [s] outside the collateral set. *)
Definition holds (s : UTXOState) (o : OutPoint) m : Prop :=
  utxo_states m !! o = Some s ∧ (∀ t a, s = Locked t a → is_collateral_locked m o = false).

Lemma holds_foldl {B} (f : UTXOStateManager S → B → UTXOStateManager S) s o l m :
  (∀ m b, b ∈ l → holds s o m → holds s o (f m b)) → holds s o m → holds s o (foldl f m l).
Proof.
  revert m. induction l as [|b l IH]; intros m Hf Hm; cbn; [done|].
  apply IH; [intros; apply Hf; set_solver|apply Hf; set_solver].
Qed.

(** A map that shrinks keeps an outpoint out of the collateral set. *)
Lemma holds_same s o m m' :
  utxo_states m' !! o = utxo_states m !! o →
  (locked_collaterals m' !! o = None ∨ locked_collaterals m' !! o = locked_collaterals m !! o) →
  holds s o m → holds s o m'.
Proof.
  intros E1 E2 [Hs Hc]. split; [by rewrite E1|]. intros t a Ht. specialize (Hc t a Ht).
  unfold is_collateral_locked in *. apply bool_decide_eq_false in Hc. apply bool_decide_eq_false_2.
  destruct E2 as [->| ->]; [by intros [? ?]|done].
Qed.

(** A new collateral lock needs an unspent output. *)
Lemma holds_new_collateral s o o' l m m' :
  utxo_states m' = utxo_states m → locked_collaterals m' = <[o' := l]> (locked_collaterals m) →
  utxo_states m !! o' = Some Unspent → holds s o m → holds s o m'.
Proof.
  intros E1 E2 Hu [Hs Hc]. split; [by rewrite E1|]. intros t a ->. specialize (Hc t a eq_refl).
  unfold is_collateral_locked in *. rewrite E2, lookup_insert_ne; [done|]. intros ->. congruence.
Qed.

Lemma holds_insert_ne s o o' x m :
  o' ≠ o → holds s o m → holds s o (set_states (<[o' := x]> (utxo_states m)) m).
Proof. intros Hne. apply holds_same; cbn; [by rewrite lookup_insert_ne|by right]. Qed.

Lemma unindex_same o' m :
  utxo_states (unindex o' m) = utxo_states m ∧
  locked_collaterals (unindex o' m) = locked_collaterals m.
Proof. unfold unindex, remove_from_address_index. split_matches; done. Qed.

Lemma holds_unindex s o o' m : holds s o m → holds s o (unindex o' m).
Proof.
  destruct (unindex_same o' m) as [E1 E2]. apply holds_same; [by rewrite E1|]. right. by rewrite E2.
Qed.
Lemma holds_unlock_collateral s o o' m : holds s o m → holds s o (unlock_collateral m o').1.
Proof.
  unfold unlock_collateral. destruct (_ !! o'); [|done]. apply holds_same; [done|]. cbn.
  rewrite lookup_delete. case_decide; auto.
Qed.
Lemma holds_release s o o' m :
  holds s o m → holds s o (if is_collateral_locked m o' then (unlock_collateral m o').1 else m).
Proof. destruct (is_collateral_locked m o'); [apply holds_unlock_collateral|done]. Qed.
Lemma holds_delete_ne s o o' m :
  o' ≠ o → holds s o m → holds s o (set_states (delete o' (utxo_states m)) m).
Proof. intros Hne. apply holds_same; cbn; [by rewrite lookup_delete_ne|by right]. Qed.
Lemma holds_storage s o st m : holds s o m → holds s o (set_storage st m).
Proof. done. Qed.

Lemma holds_add s o u m : holds s o m → holds s o (add_utxo m u).1.
Proof.
  intros Hm. unfold add_utxo. case_bool_decide; [done|].
  destruct (utxo_states m !! outpoint u) as [[]|] eqn:E; try done.
  destruct (st_add_utxo _ u); [|done].
  assert (outpoint u ≠ o) by (intros <-; destruct Hm; congruence).
  by apply (holds_insert_ne s o (outpoint u) Unspent (set_storage a m)).
Qed.

Lemma holds_remove s o o' m : o' ≠ o → holds s o m → holds s o (remove_utxo m o').1.
Proof.
  intros Hne Hm. unfold remove_utxo. destruct (st_remove_utxo _ o') as [st|]; [|by apply holds_unindex].
  assert (holds s o (set_states (delete o' (utxo_states (unindex o' m))) (set_storage st (unindex o' m))))
    as Hm' by by apply (holds_delete_ne s o o' (set_storage st (unindex o' m))), holds_unindex.
  cbn. destruct (_ !! o') eqn:E; [|done]. eapply holds_same, Hm'; [done|].
  cbn. rewrite lookup_delete. case_decide; auto.
Qed.

Lemma holds_spend s o now o' m : o' ≠ o → holds s o m → holds s o (spend_utxo now m o').1.
Proof.
  intros Hne Hm. unfold spend_utxo. apply (holds_release s o o'), (holds_unindex s o o') in Hm.
  destruct (st_remove_utxo _ o') as [st|]; [|done].
  exact (holds_insert_ne s o o' _ (set_storage st _) Hne Hm).
Qed.

Lemma holds_restore s o u m : outpoint u ≠ o → holds s o m → holds s o (restore_utxo m u).1.
Proof.
  intros Hne Hm. unfold restore_utxo. destruct (already_restored _ _); [done|].
  destruct (st_add_utxo _ u) as [st|]; [|done].
  exact (holds_insert_ne s o (outpoint u) Unspent (set_storage st m) Hne Hm).
Qed.

Lemma holds_reconcile_remove s o o' m : o' ≠ o → holds s o m → holds s o (reconcile_remove m o').
Proof.
  intros Hne Hm. unfold reconcile_remove. apply (holds_release s o o'), (holds_unindex s o o') in Hm.
  apply holds_delete_ne; [done|]. by destruct (st_remove_utxo _ o').
Qed.

Lemma holds_apply s o ups m : o ∉ ups.*1 → holds s o m → holds s o (apply_state_updates m ups).
Proof.
  intros Hn. apply holds_foldl. intros m' [o' r] Hb Hm'.
  assert (o' ≠ o) by (intros ->; apply Hn, list_elem_of_fmap; by exists (o, r)).
  destruct (_ !! o'); [|done]. destruct (_ <? _); [by apply holds_insert_ne|done].
Qed.

Lemma holds_lock_collateral s o now o' mn h a p m :
  holds s o m → holds s o (lock_collateral_inner now m o' mn h a p).1.
Proof.
  intros Hm. unfold lock_collateral_inner. destruct (utxo_states m !! o') as [[]|] eqn:E; try done.
  destruct (is_collateral_locked m o'); [done|]. eapply (holds_new_collateral s o o'), Hm; [| |done];
    by destruct p.
Qed.

Lemma holds_rebuild_fold s o now es m r :
  holds s o m → holds s o (foldl (rebuild_one now) (m, r) es).1.
Proof.
  revert m r. induction es as [|[[[o' mn] h] a] es IH]; intros m r Hm; [done|].
  cbn [foldl]. unfold rebuild_one at 2. destruct (is_collateral_locked m o'); [by apply IH|].
  unfold is_unspent_at. destruct (utxo_states m !! o') as [[]|] eqn:E; try by apply IH.
  apply IH. by eapply (holds_new_collateral s o o'), Hm.
Qed.

Lemma holds_load s o m : holds s o m → holds s o (load_persisted_collateral_locks m).1.
Proof.
  intros Hm. unfold load_persisted_collateral_locks. destruct (collateral_db m) as [tree|]; [|done].
  generalize 0. revert m Hm. induction (iter (ct_locks tree)) as [|[k l] es IH]; intros m Hm z; [done|].
  cbn [foldl]. unfold is_unspent_at.
  destruct (utxo_states m !! lc_outpoint l) as [[]|] eqn:E; try by apply IH.
  apply IH. by eapply (holds_new_collateral s o (lc_outpoint l)), Hm.
Qed.

Lemma holds_purge_one s o o' m : holds s o m → holds s o (purge_one m o').
Proof.
  intros Hm. unfold purge_one. destruct (locked_collaterals m !! o') eqn:E; [|done].
  assert (holds s o (db_remove_lock o' (set_collaterals (delete o' (locked_collaterals m)) m))) as Hm'.
  { eapply holds_same, Hm; [done|]. cbn. rewrite lookup_delete. case_decide; auto. }
  destruct (utxo_states _ !! o') as [[| t a | | |]|] eqn:E'; try done.
  apply holds_insert_ne; [|done]. intros ->. destruct Hm as [Hs Hc]. cbn in E'.
  assert (s = Locked t a) as -> by congruence. specialize (Hc t a eq_refl).
  unfold is_collateral_locked in Hc. rewrite E in Hc. by apply bool_decide_eq_false in Hc as [].
Qed.
Lemma holds_purge s o m : holds s o m → holds s o (purge_stale_collateral_locks m).1.
Proof. cbn. apply holds_foldl. intros. by apply holds_purge_one. Qed.
Lemma holds_rebuild s o now es m : holds s o m → holds s o (rebuild_collateral_locks now m es).1.
Proof.
  intros Hm. unfold rebuild_collateral_locks. pose proof (holds_rebuild_fold s o now es m 0 Hm) as Hf.
  destruct (foldl _ _ es) as [m' r]. by apply holds_purge.
Qed.
Lemma holds_list s o m : holds s o m → holds s o (list_locked_collaterals m).1.
Proof.
  unfold list_locked_collaterals. cbn. apply holds_foldl. intros m' k _. apply holds_same; [done|].
  cbn. rewrite lookup_delete. case_decide; auto.
Qed.

(** The operations a transaction drives. *)
Definition tx_op (p : op) : bool :=
  match p with
  | OpLock _ _ _ | OpUnlock _ _ | OpLockAll _ _ _ | OpCommit _ _ _ _ | OpCleanup _
  | OpFinalize _ _ _ => true
  | _ => false
  end.

Lemma holds_exec s o p m : ¬ overrides o p → tx_op p = false → holds s o m → holds s o (exec m p).
Proof.
  intros Ho Ht Hm. destruct p; cbn [exec overrides] in *; try done;
    auto using holds_add, holds_remove, holds_spend, holds_restore, holds_insert_ne,
      holds_lock_collateral, holds_unlock_collateral, holds_list, holds_rebuild, holds_purge,
      holds_load, holds_apply.
  - by apply holds_insert_ne.
  - unfold force_unlock. destruct (is_collateral_locked m o0); [done|].
    destruct (_ !! o0); [by apply holds_insert_ne|done].
  - unfold reconcile_utxo_state. apply holds_foldl; [intros; by apply holds_add|].
    apply holds_foldl; [|done]. intros m' b Hb. apply holds_reconcile_remove. by intros ->.
  - apply holds_foldl; [|done]. intros. by apply holds_unlock_collateral.
Qed.

(** ** Finalized outputs *)

Definition is_final (s : UTXOState) : bool :=
  match s with SpentFinalized _ _ _ | Archived _ _ _ => true | _ => false end.

Lemma final_lock s o now o' t m :
  is_final s = true → holds s o m → holds s o (lock_utxo now m o' t).1.
Proof.
  intros Hf Hm. unfold lock_utxo. destruct (is_collateral_locked m o'); [done|].
  destruct (decide (o' = o)) as [->|Hne]; [rewrite (proj1 Hm); by destruct s|].
  split_matches; try done; by apply holds_insert_ne.
Qed.
Lemma final_unlock s o o' t m :
  is_final s = true → holds s o m → holds s o (unlock_utxo m o' t).1.
Proof.
  intros Hf Hm. unfold unlock_utxo.
  destruct (decide (o' = o)) as [->|Hne]; [rewrite (proj1 Hm); by destruct s|].
  split_matches; try done; by apply holds_insert_ne.
Qed.
Lemma holds_lock_loop s o now ops locked t m :
  (∀ o' m, o' ∈ ops → holds s o m → holds s o (lock_utxo now m o' t).1) →
  (∀ o' m, o' ∈ locked ++ ops → holds s o m → holds s o (unlock_utxo m o' t).1) →
  holds s o m → holds s o (lock_utxos_loop now ops locked t m).1.
Proof.
  revert locked m. induction ops as [|o' ops IH]; intros locked m Hl Hu Hm; cbn; [done|].
  pose proof (Hl o' m ltac:(set_solver) Hm) as Hl'.
  destruct (lock_utxo now m o' t) as [m' [|e]]; cbn in *.
  - apply IH; [|intros; apply Hu; set_solver|done]. intros; apply Hl; set_solver.
  - apply holds_foldl; [|done]. intros m1 b Hb. apply Hu. set_solver.
Qed.
Lemma holds_commit_ne s o now o' t h m : o' ≠ o → holds s o m → holds s o (commit_spend now m o' t h).1.
Proof.
  intros Hne Hm. unfold commit_spend. split_matches; try done;
    exact (holds_insert_ne s o o' _ (set_storage a m) Hne Hm) ||
    exact (holds_insert_ne s o o' _ (set_storage _ m) Hne Hm).
Qed.
Lemma holds_finalize_ne s o now o' t m :
  o' ≠ o → holds s o m → holds s o (mark_timevote_finalized now m o' t).
Proof.
  intros Hne Hm. unfold mark_timevote_finalized. destruct (refuses_finalization m o' t); [done|].
  apply (holds_unindex s o o') in Hm.
  destruct (st_remove_utxo _ o') as [st|]; exact (holds_insert_ne s o o' _ (set_storage _ _) Hne Hm) ||
    exact (holds_insert_ne s o o' _ _ Hne Hm).
Qed.
Lemma holds_cleanup s o now m :
  expired_lock now s = false → holds s o m → holds s o (cleanup_expired_locks now m).1.
Proof. intros He [Hs Hc]. split; [|done]. cbn. by rewrite lookup_fmap, Hs; cbn; rewrite He. Qed.

Lemma final_exec s o p m :
  is_final s = true → ¬ overrides o p → (∀ now t, p = OpFinalize now o t → ∃ t' a v, s = SpentFinalized t' a v) →
  holds s o m → holds s o (exec m p).
Proof.
  intros Hf Ho Hfin Hm. destruct (tx_op p) eqn:Ht; [|by apply holds_exec].
  destruct p; try done; cbn [exec].
  - by apply final_lock.
  - by apply final_unlock.
  - apply holds_lock_loop; [..|done]; intros; [by apply final_lock|by apply final_unlock].
  - destruct (decide (o0 = o)) as [->|]; [|by apply holds_commit_ne].
    unfold commit_spend. rewrite (proj1 Hm). by destruct s.
  - by apply holds_cleanup; [destruct s|].
  - destruct (decide (o0 = o)) as [->|]; [|by apply holds_finalize_ne].
    destruct (Hfin now tx eq_refl) as (t' & a & v & ->).
    unfold mark_timevote_finalized, refuses_finalization, get_state. by rewrite (proj1 Hm).
Qed.

(** ** Locked outputs *)




(** An output in state SpentFinalized keeps exactly that state through all locking,
    committing, finalizing and clean-up operations; only an administrative override
    (removal, restore, forced update, sync update, reset) of that outpoint can change it,
    and every attempt to lock, commit or re-finalize it fails. *)
Theorem finalized_is_permanent m o t at_ v ps :
  utxo_states m !! o = Some (SpentFinalized t at_ v) → Forall (λ p, ¬ overrides o p) ps →
  utxo_states (run m ps) !! o = Some (SpentFinalized t at_ v) ∧
  ∀ now t', is_spendable now (run m ps) o (Some t') = false ∧
    (lock_utxo now (run m ps) o t').2 ≠ Ok tt ∧
    (∀ h, commit_spend now (run m ps) o t' h = (run m ps, Err AlreadySpent)) ∧
    mark_timevote_finalized now (run m ps) o t' = run m ps.
Proof.
  intros Hs Hps.
  assert (holds (SpentFinalized t at_ v) o (run m ps)) as [Hs' _].
  { assert (holds (SpentFinalized t at_ v) o m) as Hm by done. clear Hs. revert m Hm.
    induction Hps as [|p ps Hp Hps IH]; intros m Hm; [done|]. apply IH, final_exec; eauto. }
  split; [done|]. intros now t'.
  unfold lock_utxo, commit_spend, mark_timevote_finalized, refuses_finalization, get_state, is_spendable.
  rewrite Hs'. by destruct (is_collateral_locked _ _).
Qed.
End histories.

Section witnesses.
#[local] Existing Instance canonical_iter.


Lemma finalized_is_permanent_witness :
  let m := run w_boot [OpAdd (w_utxo 1 100); OpFinalize 50 (w_op 1) [1]] in
  utxo_states (run m [OpLock 90 (w_op 1) [2]; OpFinalize 91 (w_op 1) [2]; OpAdd (w_utxo 1 100)]) !! (w_op 1)
    = Some (SpentFinalized [1] 50 0).
Proof.
  apply (finalized_is_permanent (run w_boot [OpAdd (w_utxo 1 100); OpFinalize 50 (w_op 1) [1]]) (w_op 1) [1] 50 0);
    [vm_compute; reflexivity|]. rewrite !Forall_cons, Forall_nil. split_and!; cbn; tauto.
Defined.
End witnesses.
