(* ===== verification/UtxoSync.v ===== *)
(** * The UTXO state manager: peer synchronisation, collateral, supply

    How nodes compare and reconcile their UTXO sets, what the collateral
    clean-up guarantees, and the supply figures. *)

From Stdlib Require Import ZArith Lia Ascii String.
From stdpp Require Import base gmap strings list sorting.
From S2P Require Import Prelude Types Instances Storage UtxoManager UtxoProofs.

(** ** The canonical order of outpoints *)

Lemma op_leb_total a b : op_leb a b = false → op_leb b a = true.
Proof.
  unfold op_leb. case_bool_decide as E.
  - rewrite (bool_decide_true (op_txid b = _)) by done. lia.
  - rewrite (bool_decide_false (op_txid b = _)) by done. apply bytes_leb_total.
Qed.
Lemma op_leb_antisym a b : op_leb a b → op_leb b a → a = b.
Proof.
  unfold op_leb. destruct a as [ta va], b as [tb vb]. cbn. case_bool_decide as E.
  - rewrite (bool_decide_true (tb = _)) by done. intros H1%Is_true_true H2%Is_true_true.
    subst. f_equal. lia.
  - rewrite (bool_decide_false (tb = _)) by done. intros H1 H2. by pose proof (bytes_leb_antisym _ _ H1 H2).
Qed.
Lemma op_leb_trans a b c : op_leb a b → op_leb b c → op_leb a c.
Proof.
  unfold op_leb. destruct a as [ta va], b as [tb vb], c as [tc vc]. cbn.
  repeat case_bool_decide; subst; try done; eauto using bytes_leb_trans.
  - rewrite !Is_true_true. lia.
  - intros Hab Hbc. by pose proof (bytes_leb_antisym _ _ Hab Hbc).
Qed.

Section hash.
Context `{Externals} `{MapIter}.
Context {S1 S2 : Type} `{UtxoStorageLaws S1} `{UtxoStorageLaws S2}.

(** The UTXO set hash is canonical: two nodes, with whatever storage backends and iteration
    orders, that hold the same UTXOs in states of the same stage compute the same hash. *)
Theorem utxo_set_hash_canonical (m1 : UTXOStateManager S1) (m2 : UTXOStateManager S2) :
  st_wf (storage m1) → st_wf (storage m2) → st_view (storage m1) = st_view (storage m2) →
  (∀ o, is_Some (st_view (storage m1) !! o) → state_disc m1 o = state_disc m2 o) →
  calculate_utxo_set_hash m1 = calculate_utxo_set_hash m2.
Proof.
  intros Hw1 Hw2 Hv Hd. unfold calculate_utxo_set_hash. f_equal.
  pose proof (st_list_view _ Hw1) as P1. pose proof (st_list_view _ Hw2) as P2. rewrite <-Hv in P2.
  assert (Hin : ∀ u, u ∈ st_list_utxos (storage m1) →
    st_view (storage m1) !! outpoint u = Some u).
  { intros u. rewrite P1. intros ([o u'] & -> & Ho%elem_of_map_to_list)%list_elem_of_fmap.
    cbn. by rewrite (st_view_key _ _ _ Hw1 Ho). }
  assert (sort_by utxo_leb (st_list_utxos (storage m1)) = sort_by utxo_leb (st_list_utxos (storage m2)))
    as <-.
  { apply sort_by_ext; [intros x y; apply op_leb_total|intros x y z; apply op_leb_trans| |by rewrite P1, P2].
    intros x y Hx%Hin Hy%Hin Hxy Hyx. pose proof (op_leb_antisym _ _ Hxy Hyx) as E.
    rewrite E in Hx. congruence. }
  assert (∀ u, u ∈ sort_by utxo_leb (st_list_utxos (storage m1)) → utxo_digest m1 u = utxo_digest m2 u)
    as Hall.
  { intros u. rewrite sort_by_perm. intros Hu%Hin. unfold utxo_digest. rewrite Hd; eauto. }
  revert Hall. generalize (sort_by utxo_leb (st_list_utxos (storage m1))) as l.
  induction l as [|u l IH]; intros Hall; cbn; [done|].
  rewrite (Hall u) by set_solver. f_equal. apply IH. set_solver.
Qed.
End hash.

Section sync.
Context {S : Type} `{UtxoStorage S} `{MapIter}.
Implicit Types m : UTXOStateManager S.

(** The stage of [o] after hearing the updates [ups]: the furthest one. *)
Definition merged_ord m (ups : list (OutPoint * UTXOState)) (o : OutPoint) : option Z :=
  (λ s, foldr Z.max (state_ord s) (state_ord <$> (filter (λ e, e.1 = o) ups).*2)) <$> utxo_states m !! o.

Lemma foldr_max_start l a b : foldr Z.max (Z.max a b) l = Z.max a (foldr Z.max b l).
Proof. induction l as [|x l IH]; cbn; [done|]. rewrite IH. lia. Qed.

(** State updates received from peers only move tracked outputs forward: the stage of each
    output becomes the furthest of its own and those received, whatever the order of the
    updates, and unknown outputs are ignored. *)
Theorem apply_state_updates_merge m ups o :
  state_ord <$> utxo_states (apply_state_updates m ups) !! o = merged_ord m ups o ∧
  ∀ ups', ups ≡ₚ ups' → merged_ord m ups' o = merged_ord m ups o.
Proof.
  split.
  - unfold apply_state_updates, merged_ord. revert m.
    induction ups as [|[p s] ups IH]; intros m; [cbn; by destruct (_ !! o)|].
    cbn [foldl]. rewrite IH, filter_cons. cbn [fst]. case_decide as Hp; [subst p|].
    + destruct (utxo_states m !! o) as [s0|] eqn:E; cbn; [|by rewrite E].
      destruct (Z.ltb_spec (state_ord s0) (state_ord s)); cbn.
      * rewrite lookup_insert_eq. cbn. f_equal. rewrite <-foldr_max_start. f_equal. lia.
      * rewrite E. cbn. f_equal. rewrite <-foldr_max_start. f_equal. lia.
    + f_equal. destruct (utxo_states m !! p); [|done]. destruct (_ <? _); [|done].
      cbn. by rewrite lookup_insert_ne.
  - intros ups' Hp. unfold merged_ord. destruct (utxo_states m !! o) as [s|]; cbn; [|done]. f_equal.
    assert (state_ord <$> (filter (λ e : OutPoint * UTXOState, e.1 = o) ups').*2
      ≡ₚ state_ord <$> (filter (λ e : OutPoint * UTXOState, e.1 = o) ups).*2) as Hq by by rewrite Hp.
    revert Hq. generalize (state_ord <$> (filter (λ e : OutPoint * UTXOState, e.1 = o) ups').*2).
    generalize (state_ord <$> (filter (λ e : OutPoint * UTXOState, e.1 = o) ups).*2).
    induction 1; cbn; lia.
Qed.
End sync.

(** ** Collateral clean-up *)

Section collateral.
Context {S : Type} `{UtxoStorage S} `{MapIter}.
Implicit Types m : UTXOStateManager S.

Lemma elem_of_stale_locks m o :
  o ∈ stale_locks m ↔ is_collateral_locked m o = true ∧ is_unspent_at m o = false.
Proof.
  unfold stale_locks, is_collateral_locked. rewrite list_elem_of_fmap, bool_decide_eq_true. split.
  - intros ([o' l] & -> & [Hs Hin]%list_elem_of_filter). cbn in *.
    rewrite iter_perm, elem_of_map_to_list in Hin. split; [by eexists|].
    by apply negb_true_iff, Is_true_true.
  - intros [[l Hl] Hu]. exists (o, l). split; [done|]. apply list_elem_of_filter. cbn. split.
    + by rewrite Hu.
    + by rewrite iter_perm, elem_of_map_to_list.
Qed.

Definition is_locked_state (s : option UTXOState) : bool :=
  match s with Some (Locked _ _) => true | _ => false end.

Lemma purge_one_lookup m o p :
  locked_collaterals (purge_one m o) !! p =
    (if bool_decide (p = o) then None else locked_collaterals m !! p) ∧
  utxo_states (purge_one m o) !! p =
    (if bool_decide (p = o) && is_collateral_locked m o && is_locked_state (utxo_states m !! o)
     then Some Unspent else utxo_states m !! p).
Proof.
  unfold purge_one, is_collateral_locked. destruct (locked_collaterals m !! o) eqn:E; cbn.
  - destruct (utxo_states m !! o) as [[]|] eqn:E'; cbn; rewrite ?lookup_delete, ?lookup_insert;
      repeat case_decide; repeat case_bool_decide; subst; try done; by rewrite ?E'.
  - by case_bool_decide; subst.
Qed.

Lemma purge_fold_lookup l m p :
  locked_collaterals (foldl purge_one m l) !! p =
    (if bool_decide (p ∈ l) then None else locked_collaterals m !! p) ∧
  utxo_states (foldl purge_one m l) !! p =
    (if bool_decide (p ∈ l) && is_collateral_locked m p && is_locked_state (utxo_states m !! p)
     then Some Unspent else utxo_states m !! p).
Proof.
  revert m. induction l as [|o l IH]; intros m; cbn [foldl].
  { rewrite bool_decide_false by set_solver. done. }
  destruct (IH (purge_one m o)) as [-> ->]. unfold is_collateral_locked.
  destruct (purge_one_lookup m o p) as [-> ->]. unfold is_collateral_locked.
  destruct (decide (p = o)) as [->|Hne].
  - rewrite !(bool_decide_true (o = o)), !(bool_decide_true (o ∈ o :: l)) by set_solver.
    cbn.
    rewrite andb_false_r. split; [by case_bool_decide|done].
  - rewrite !(bool_decide_false (p = o)) by done. cbn.
    rewrite (bool_decide_ext (p ∈ o :: l) (p ∈ l)) by set_solver. done.
Qed.

(** The state after the clean-up, outpoint by outpoint. *)
Lemma purge_lookup m p :
  locked_collaterals (purge_stale_collateral_locks m).1 !! p =
    (if is_unspent_at m p then locked_collaterals m !! p else None) ∧
  utxo_states (purge_stale_collateral_locks m).1 !! p =
    (if is_collateral_locked m p && is_locked_state (utxo_states m !! p)
     then Some Unspent else utxo_states m !! p).
Proof.
  cbn. destruct (purge_fold_lookup (stale_locks m) m p) as [-> ->].
  pose proof (elem_of_stale_locks m p) as Hst. split.
  - case_bool_decide as Hin.
    + by apply Hst in Hin as [_ ->].
    + destruct (is_unspent_at m p); [done|]. unfold is_collateral_locked in Hst.
      apply eq_None_not_Some. intros Hs. apply Hin, Hst. by rewrite bool_decide_true.
  - case_bool_decide as Hin; cbn; [done|].
    destruct (is_collateral_locked m p) eqn:Hc; [|done]. cbn. unfold is_unspent_at in Hst.
    destruct (utxo_states m !! p) as [[]|] eqn:E; try done. cbn. by destruct Hin; apply Hst.
Qed.

Lemma rebuild_one_spec now m r o mn h a :
  let m' := (rebuild_one now (m, r) (o, mn, h, a)).1 in
  utxo_states m' = utxo_states m ∧
  (∀ p, is_collateral_locked m p = true → locked_collaterals m' !! p = locked_collaterals m !! p) ∧
  (is_unspent_at m o = true → is_collateral_locked m' o = true).
Proof.
  cbn. destruct (is_collateral_locked m o) eqn:Ec; [done|].
  destruct (is_unspent_at m o); [|done]. cbn. split_and!; [done| |].
  - intros p Hp. rewrite lookup_insert_ne; [done|]. intros ->. congruence.
  - intros _. unfold is_collateral_locked. cbn. by rewrite lookup_insert_eq.
Qed.

Lemma locked_transfer m m' o :
  locked_collaterals m' !! o = locked_collaterals m !! o →
  is_collateral_locked m' o = is_collateral_locked m o.
Proof. unfold is_collateral_locked. by intros ->. Qed.

Lemma rebuild_fold_spec now es m r :
  let m' := (foldl (rebuild_one now) (m, r) es).1 in
  utxo_states m' = utxo_states m ∧
  (∀ o, is_collateral_locked m o = true → locked_collaterals m' !! o = locked_collaterals m !! o) ∧
  (∀ e, e ∈ es → is_unspent_at m e.1.1.1 = true → is_collateral_locked m' e.1.1.1 = true).
Proof.
  revert m r. induction es as [|[[[o mn] h] a] es IH]; intros m r; cbn [foldl].
  { split_and!; [done..|]. by intros e ?%elem_of_nil. }
  pose proof (rebuild_one_spec now m r o mn h a) as (E1 & E2 & E3).
  destruct (rebuild_one now (m, r) (o, mn, h, a)) as [m1 r']. cbn [fst] in *.
  destruct (IH m1 r') as (F1 & F2 & F3).
  assert (∀ p, is_collateral_locked m p = true → is_collateral_locked m1 p = true) as Hmono.
  { intros p Hp. by rewrite (locked_transfer m m1 p (E2 p Hp)). }
  split_and!.
  - by rewrite F1, E1.
  - intros p Hp. by rewrite F2, E2 by auto.
  - intros e [->|He]%elem_of_cons Hu; cbn in *.
    + rewrite (locked_transfer m1); auto.
    + apply F3; [done|]. unfold is_unspent_at in *. by rewrite E1.
Qed.

(** After the collateral locks are rebuilt at start-up every locked outpoint is unspent,
    locks already held on unspent outputs are kept as they were, every requested unspent
    output is locked, and a further purge finds nothing stale. *)
Theorem rebuild_collateral_sound now m es :
  let m' := (rebuild_collateral_locks now m es).1 in
  (∀ o, is_collateral_locked m' o = true → is_unspent_at m' o = true) ∧
  (∀ o, is_collateral_locked m o = true → is_unspent_at m o = true →
     locked_collaterals m' !! o = locked_collaterals m !! o) ∧
  (∀ e, e ∈ es → is_unspent_at m e.1.1.1 = true → is_collateral_locked m' e.1.1.1 = true) ∧
  stale_locks m' = [].
Proof.
  unfold rebuild_collateral_locks. pose proof (rebuild_fold_spec now es m 0) as (E1 & E2 & E3).
  destruct (foldl (rebuild_one now) (m, 0) es) as [m1 r]. cbn [fst] in *.
  assert (∀ o, is_unspent_at m1 o = is_unspent_at m o) as Eu
    by (intros o; unfold is_unspent_at; by rewrite E1).
  pose proof (λ o, proj1 (purge_lookup m1 o)) as P1.
  pose proof (λ o, proj2 (purge_lookup m1 o)) as P2.
  revert P1 P2. generalize (purge_stale_collateral_locks m1).1 as m'. intros m' P1 P2.
  assert (∀ o, is_collateral_locked m' o = true → is_unspent_at m' o = true) as Hsafe.
  { intros o. unfold is_collateral_locked, is_unspent_at. rewrite P1, P2.
    unfold is_unspent_at. destruct (utxo_states m1 !! o) as [[]|]; cbn; try done.
    by rewrite andb_false_r. }
  split_and!; [done| | |].
  - intros o Hc Hu. rewrite P1, Eu, Hu. auto.
  - intros e He Hu. specialize (E3 e He Hu). unfold is_collateral_locked in *.
    by rewrite P1, Eu, Hu.
  - destruct (stale_locks m') as [|o l] eqn:E; [done|].
    assert (o ∈ stale_locks m') as [Hc Hu]%elem_of_stale_locks by (rewrite E; set_solver).
    apply Hsafe in Hc. congruence.
Qed.
End collateral.

(** ** Supply figures *)

Section supply.
Context {S : Type} `{UtxoStorage S} `{MapIter}.
Implicit Types m : UTXOStateManager S.

Definition values (l : list UTXO) : Z := sumZ (value <$> l).
Definition unspents m : list UTXO :=
  filter (λ u, is_unspent_at m (outpoint u)) (st_list_utxos (storage m)).
(** The classes of unspent outputs. *)
Definition free_of_collateral m (u : UTXO) : bool := negb (is_collateral_locked m (outpoint u)).
Definition is_dormant m (height after : Z) (u : UTXO) : bool :=
  match creation_heights m !! outpoint u with
  | Some h => after <? sat_sub height h
  | None => false
  end.
Definition is_unknown_age m (u : UTXO) : bool :=
  bool_decide (creation_heights m !! outpoint u = None).

Definition pick (b : bool) (z : Z) : Z := if b then z else 0.

Lemma values_filter (P : UTXO → bool) u l :
  values (filter P (u :: l)) = pick (P u) (value u) + values (filter P l).
Proof. rewrite filter_cons. unfold pick. destruct (P u); cbn; by rewrite ?Z.add_0_l. Qed.

Lemma supply_step_small m h d a u :
  0 ≤ value u → Forall (λ z, 0 ≤ z ≤ sa_total a) [sa_locked a; sa_dormant a; sa_unknown a] →
  0 ≤ sa_total a → sa_total a + pick (is_unspent_at m (outpoint u)) (value u) < U64 →
  let unsp := is_unspent_at m (outpoint u) in
  let free := unsp && free_of_collateral m u in
  let a' := supply_step m h d a u in
  sa_total a' = sa_total a + pick unsp (value u) ∧
  sa_locked a' = sa_locked a + pick (unsp && negb (free_of_collateral m u)) (value u) ∧
  sa_dormant a' = sa_dormant a + pick (free && is_dormant m h d u) (value u) ∧
  sa_unknown a' = sa_unknown a + pick (free && is_unknown_age m u) (value u).
Proof.
  rewrite !Forall_cons. intros Hv (? & ? & ? & _) Ht Hb. unfold supply_step, free_of_collateral.
  destruct (is_unspent_at m (outpoint u)); cbn in *; [|lia].
  unfold is_dormant, is_unknown_age.
  destruct (is_collateral_locked m (outpoint u)); cbn;
    [|destruct (creation_heights m !! outpoint u); cbn; [destruct (_ <? _); cbn|]];
    rewrite ?add64_small by lia; lia.
Qed.

Lemma pick_le b z : 0 ≤ z → 0 ≤ pick b z ≤ z.
Proof. destruct b; cbn; lia. Qed.
Lemma pick_andb b c z : 0 ≤ z → 0 ≤ pick (b && c) z ≤ pick b z.
Proof. destruct b, c; cbn; lia. Qed.

Lemma values_nonneg l : Forall (λ u, 0 ≤ value u) l → 0 ≤ values l.
Proof. intros HF. by apply sumZ_nonneg, Forall_fmap. Qed.

Lemma supply_fold m h d l a :
  Forall (λ u, 0 ≤ value u) l → 0 ≤ sa_total a →
  Forall (λ z, 0 ≤ z ≤ sa_total a) [sa_locked a; sa_dormant a; sa_unknown a] →
  sa_total a + values (filter (λ u, is_unspent_at m (outpoint u)) l) < U64 →
  let a' := foldl (supply_step m h d) a l in
  let free u := is_unspent_at m (outpoint u) && free_of_collateral m u in
  sa_total a' = sa_total a + values (filter (λ u, is_unspent_at m (outpoint u)) l) ∧
  sa_locked a' = sa_locked a +
    values (filter (λ u, is_unspent_at m (outpoint u) && negb (free_of_collateral m u)) l) ∧
  sa_dormant a' = sa_dormant a + values (filter (λ u, free u && is_dormant m h d u) l) ∧
  sa_unknown a' = sa_unknown a + values (filter (λ u, free u && is_unknown_age m u) l).
Proof.
  intros HF. revert a. induction HF as [|u l Hu HF IH]; intros a Ht Hall Hb; [cbn; lia|].
  cbn [foldl]. rewrite !values_filter in *.
  pose proof (values_nonneg (filter (λ u, is_unspent_at m (outpoint u)) l)) as Hnn.
  specialize (Hnn (Forall_filter _ _ _ HF)).
  pose proof (supply_step_small m h d a u Hu Hall Ht ltac:(lia)) as (E1 & E2 & E3 & E4).
  cbn zeta in *. rewrite !Forall_cons in Hall. destruct Hall as (? & ? & ? & _).
  set (un := is_unspent_at m (outpoint u)) in *. set (fr := free_of_collateral m u) in *.
  pose proof (pick_andb un (negb fr) _ Hu). pose proof (pick_andb un (fr && is_dormant m h d u) _ Hu).
  pose proof (pick_andb un (fr && is_unknown_age m u) _ Hu). pose proof (pick_le un _ Hu).
  rewrite !andb_assoc in *. rewrite <-!andb_assoc in E3, E4 |- *. rewrite <-!andb_assoc in *.
  destruct (IH (supply_step m h d a u)) as (F1 & F2 & F3 & F4); [lia| |lia|].
  { rewrite !Forall_cons. split_and!; try lia. by apply Forall_nil. }
  rewrite F1, F2, F3, F4. lia.
Qed.

Lemma values_split (P Q : UTXO → bool) l :
  values (filter (λ u, P u && Q u) l) + values (filter (λ u, P u && negb (Q u)) l) = values (filter P l).
Proof.
  induction l as [|u l IH]; [done|]. rewrite !values_filter. destruct (P u), (Q u); cbn; lia.
Qed.
Lemma values_mono (P Q : UTXO → bool) l :
  Forall (λ u, 0 ≤ value u) l → (∀ u, P u = true → Q u = true) →
  0 ≤ values (filter P l) ≤ values (filter Q l).
Proof.
  intros HF HPQ. induction HF as [|u l Hu HF IH]; [done|]. rewrite !values_filter.
  specialize (HPQ u). destruct (P u), (Q u); cbn; (lia || by specialize (HPQ eq_refl)).
Qed.

(** The supply figures are exact and add up when the total fits in 64 bits: total unspent =
    locked collateral + circulating, circulating = dormant + adjusted circulating, and each
    is the sum over the outputs it should count. *)
Theorem supply_stats_identity m h d :
  Forall (λ u, 0 ≤ value u) (st_list_utxos (storage m)) → values (unspents m) < U64 →
  let st := get_supply_stats m h d in
  let unspent u := is_unspent_at m (outpoint u) in
  let free u := unspent u && free_of_collateral m u in
  total_unspent_satoshis st = values (unspents m) ∧
  circulating_satoshis st = values (filter free (st_list_utxos (storage m))) ∧
  locked_collateral_satoshis st + circulating_satoshis st = total_unspent_satoshis st ∧
  dormant_satoshis st =
    values (filter (λ u, free u && is_dormant m h d u) (st_list_utxos (storage m))) ∧
  dormant_satoshis st + adjusted_circulating_satoshis st = circulating_satoshis st ∧
  0 ≤ unknown_age_satoshis st ≤ adjusted_circulating_satoshis st.
Proof.
  intros HF Hb. unfold get_supply_stats, unspents in *. set (l := st_list_utxos (storage m)) in *.
  set (unspent u := is_unspent_at m (outpoint u)) in *.
  pose proof (supply_fold m h d l (mkSupplyAcc 0 0 0 0 0) HF ltac:(done)
    ltac:(repeat constructor; done) Hb) as (E1 & E2 & E3 & E4).
  fold unspent in E1, E2, E3, E4. cbn in *. rewrite !Z.add_0_l in *. rewrite E1, E2, E3, E4.
  pose proof (values_split unspent (free_of_collateral m) l) as Hs.
  set (free u := unspent u && free_of_collateral m u) in *.
  pose proof (values_split free (is_dormant m h d) l) as Hd.
  assert (0 ≤ values (filter free l) ≤ values (filter unspent l)) as Hm1
    by (apply values_mono; [done|]; by intros u [? _]%andb_prop).
  assert (0 ≤ values (filter (λ u, free u && is_dormant m h d u) l) ≤ values (filter free l)) as Hm2
    by (apply values_mono; [done|]; by intros u [? _]%andb_prop).
  assert (0 ≤ values (filter (λ u, free u && is_unknown_age m u) l)
            ≤ values (filter (λ u, free u && negb (is_dormant m h d u)) l)) as Hm3.
  { apply values_mono; [done|]. intros u [-> Hu%bool_decide_eq_true]%andb_prop.
    unfold is_dormant. by rewrite Hu. }
  subst unspent free. cbv beta in *. unfold sat_sub. lia.
Qed.
End supply.

(** ** Reconciliation *)

Section reconcile.
Context {S : Type} `{UtxoStorageLaws S} `{!StorageReliable S} `{MapIter}.
Implicit Types m : UTXOStateManager S.
Abbreviation view m := (st_view (storage m)).

Lemma reconcile_remove_spec m o :
  inv m → view (reconcile_remove m o) = delete o (view m) ∧
  utxo_states (reconcile_remove m o) = delete o (utxo_states m) ∧
  spent_tombstones (reconcile_remove m o) = spent_tombstones m.
Proof.
  intros Hi. unfold reconcile_remove.
  set (m1 := if is_collateral_locked m o then _ else m).
  assert (inv m1 ∧ storage m1 = storage m ∧ utxo_states m1 = utxo_states m ∧
    spent_tombstones m1 = spent_tombstones m) as (Hi1 & <- & <- & <-).
  { split; [by apply inv_release_if|]. unfold m1. destruct (is_collateral_locked m o); [|done].
    by destruct (unlock_collateral_fields m o) as (? & ? & ?). }
  destruct (unindex_fields o m1) as (E1 & E2 & E3 & _). rewrite E1.
  destruct (st_remove_ok (storage m1) o) as [s Hs]. rewrite Hs. cbn. rewrite E2, E3.
  split; [|done]. by destruct (st_remove_view _ _ _ (inv_wf m1 Hi1) Hs).
Qed.

Lemma reconcile_removes_spec rem m :
  inv m → let m' := foldl reconcile_remove m rem in
  inv m' ∧ spent_tombstones m' = spent_tombstones m ∧ ∀ o,
    view m' !! o = (if bool_decide (o ∈ rem) then None else view m !! o) ∧
    utxo_states m' !! o = (if bool_decide (o ∈ rem) then None else utxo_states m !! o).
Proof.
  revert m. induction rem as [|p rem IH]; intros m Hi; cbn [foldl].
  { split_and!; [done..|]. intros o. by rewrite bool_decide_false by set_solver. }
  destruct (reconcile_remove_spec m p Hi) as (E1 & E2 & E3).
  destruct (IH _ (inv_reconcile_remove m p Hi)) as (Hi' & Ht & Hl).
  split_and!; [done|by rewrite Ht|]. intros o. destruct (Hl o) as [-> ->]. rewrite E1, E2.
  destruct (decide (o = p)) as [->|Hne].
  - rewrite !(bool_decide_true (p ∈ p :: rem)) by set_solver. rewrite !lookup_delete_eq.
    by case_bool_decide.
  - rewrite !lookup_delete_ne by done.
    by rewrite !(bool_decide_ext (o ∈ p :: rem) (o ∈ rem)) by set_solver.
Qed.

Lemma reconcile_adds_spec add m :
  inv m → NoDup (outpoint <$> add) →
  (∀ u, u ∈ add → (outpoint u ∉ spent_tombstones m) ∧ utxo_states m !! outpoint u = None) →
  let m' := foldl (λ m u, (add_utxo m u).1) m add in
  (∀ u, u ∈ add → view m' !! outpoint u = Some u) ∧
  (∀ o, o ∉ outpoint <$> add → view m' !! o = view m !! o) ∧ inv m'.
Proof.
  revert m. induction add as [|u add IH]; intros m Hi Hnd Hadd; cbn [foldl].
  { split_and!; [by intros u ?%elem_of_nil|done..]. }
  apply NoDup_cons in Hnd as [Hnin Hnd]. destruct (Hadd u ltac:(set_solver)) as [Hnt Hns].
  assert (∃ s, st_add_utxo (storage m) u = Ok s ∧ (add_utxo m u).1 =
    index_insert (address u) (outpoint u)
      (set_states (<[outpoint u := Unspent]> (utxo_states m)) (set_storage s m))) as (s & Hs & E).
  { destruct (st_add_ok (storage m) u) as [s Hs]. exists s. split; [done|].
    unfold add_utxo. by rewrite bool_decide_false, Hns, Hs. }
  destruct (st_add_view _ _ _ (inv_wf m Hi) Hs) as [_ Hv].
  destruct (IH (add_utxo m u).1) as (IH1 & IH2 & IH3); [by apply inv_add_utxo|done| |].
  { intros u' Hu'. destruct (Hadd u' ltac:(set_solver)) as [? ?]. rewrite E. cbn. split; [done|].
    rewrite lookup_insert_ne; [done|]. intros Heq. apply Hnin, list_elem_of_fmap. eauto. }
  rewrite E in IH2. cbn [storage set_states set_storage index_insert set_index] in IH2.
  rewrite Hv in IH2. split_and!; [| |done].
  - intros u' [->|Hu']%elem_of_cons; [|by apply IH1]. rewrite E, IH2 by done.
    by rewrite lookup_insert_eq.
  - intros o Ho. rewrite fmap_cons, not_elem_of_cons in Ho. destruct Ho as [Hne Ho].
    rewrite E, IH2 by done. by rewrite lookup_insert_ne.
Qed.

Definition keys m : gset (OutPoint * Z) := list_to_set (map utxo_key (st_list_utxos (storage m))).

Lemma elem_of_keys m o v : st_wf (storage m) → (o, v) ∈ keys m ↔ ∃ u, view m !! o = Some u ∧ value u = v.
Proof.
  intros Hwf. unfold keys. rewrite elem_of_list_to_set, list_elem_of_fmap. split.
  - intros (u & [= -> ->] & Hu). rewrite (st_list_view _ Hwf) in Hu.
    apply list_elem_of_fmap in Hu as ([o u'] & -> & Hu%elem_of_map_to_list). cbn.
    rewrite (st_view_key _ _ _ Hwf Hu). eauto.
  - intros (u & Hu & <-). exists u. unfold utxo_key. rewrite (st_view_key _ _ _ Hwf Hu).
    split; [done|]. rewrite (st_list_view _ Hwf). apply list_elem_of_fmap. exists (o, u).
    split; [done|]. by apply elem_of_map_to_list.
Qed.

Lemma elem_of_remote (remote : list UTXO) o v :
  (o, v) ∈ (list_to_set (map utxo_key remote) : gset (OutPoint * Z)) ↔
  ∃ u, u ∈ remote ∧ outpoint u = o ∧ value u = v.
Proof.
  rewrite elem_of_list_to_set, list_elem_of_fmap. unfold utxo_key. naive_solver.
Qed.

Lemma NoDup_fmap_eq {A B} (f : A → B) l x y :
  NoDup (f <$> l) → x ∈ l → y ∈ l → f x = f y → x = y.
Proof.
  induction l as [|a l IH]; [by intros _ ?%elem_of_nil|].
  rewrite fmap_cons, NoDup_cons, !elem_of_cons, list_elem_of_fmap. naive_solver.
Qed.

(** C30: One round of reconciliation with a peer converges, when the storage does not fail
    and this node has not spent what the peer has: let the peer's list name no outpoint
    twice, let none of its outputs be tombstoned here, and let the node keep no state for
    those it does not have. Then after applying the difference to the list the node holds
    exactly the peer's outputs and values, the difference is empty, and the consistency
    invariant still holds. (An output that is tombstoned here is refused, and stays in the
    difference.) *)
Theorem reconcile_converges m remote :
  inv m → NoDup (outpoint <$> remote) →
  (∀ u, u ∈ remote → outpoint u ∉ spent_tombstones m) →
  (∀ u, u ∈ remote → view m !! outpoint u = None → utxo_states m !! outpoint u = None) →
  let '(to_remove, to_add) := get_utxo_diff m remote in
  let m' := reconcile_utxo_state m to_remove to_add in
  inv m' ∧ keys m' = list_to_set (map utxo_key remote) ∧ get_utxo_diff m' remote = ([], []).
Proof.
  intros Hi Hnd Hnt Hns. unfold get_utxo_diff at 1.
  fold (keys m). set (R := list_to_set (map utxo_key remote) : gset (OutPoint * Z)).
  set (rem := (elements (keys m ∖ R)).*1). set (add := filter _ remote).
  set (m' := reconcile_utxo_state m rem add).
  assert (Hrem : ∀ o, o ∈ rem ↔ ∃ u, view m !! o = Some u ∧ (o, value u) ∉ R).
  { intros o. unfold rem. rewrite list_elem_of_fmap. setoid_rewrite elem_of_elements.
    setoid_rewrite elem_of_difference. split.
    - intros ([o' v] & -> & Hk & Hr). apply elem_of_keys in Hk as (u & Hu & <-); [eauto|apply Hi].
    - intros (u & Hu & Hr). exists (o, value u). split_and!; try done. apply elem_of_keys; [apply Hi|eauto]. }
  assert (Hadd : ∀ u, u ∈ add ↔ u ∈ remote ∧ utxo_key u ∉ keys m).
  { intros u. unfold add. rewrite list_elem_of_filter. naive_solver. }
  assert (Hnd' : NoDup (outpoint <$> add)).
  { eapply sublist_NoDup; [exact Hnd|]. apply fmap_sublist, sublist_filter. }
  destruct (reconcile_removes_spec rem m Hi) as (Hi1 & Ht1 & Hl1).
  destruct (reconcile_adds_spec add (foldl reconcile_remove m rem) Hi1 Hnd') as (Ha & Ho & Hi').
  { intros u [Hu Hk]%Hadd. rewrite Ht1. split; [by apply Hnt|]. rewrite (proj2 (Hl1 _)).
    case_bool_decide as Hin; [done|]. destruct (view m !! outpoint u) as [u0|] eqn:E; [|by apply Hns].
    destruct Hin. apply Hrem. exists u0. split; [done|].
    intros (u1 & Hu1 & Ho1 & Hv1)%elem_of_remote. apply Hk. apply elem_of_keys; [apply Hi|].
    exists u0. split; [done|]. rewrite <-Hv1. f_equal. by apply (NoDup_fmap_eq outpoint remote). }
  fold (reconcile_utxo_state m rem add) in Ha, Ho, Hi'. fold m' in Ha, Ho, Hi'.
  assert (Hkeys : keys m' = R).
  { apply set_eq. intros [o v]. rewrite (elem_of_keys m') by apply Hi'. unfold R at 1.
    rewrite elem_of_remote. destruct (decide (o ∈ outpoint <$> add)) as [Hin|Hin].
    - apply list_elem_of_fmap in Hin as (u & -> & Hu). rewrite (Ha u Hu).
      apply Hadd in Hu as [Hu _]. split; [naive_solver|]. intros (u' & Hu' & Heq & <-).
      exists u. split; [done|]. f_equal. by apply (NoDup_fmap_eq outpoint remote).
    - rewrite Ho, (proj1 (Hl1 o)) by done. case_bool_decide as Hr.
      + split; [naive_solver|]. intros (u & Hu & <- & <-). destruct Hin.
        apply list_elem_of_fmap. exists u. split; [done|]. apply Hadd. split; [done|].
        apply Hrem in Hr as (u0 & Hu0 & Hr). intros (u1 & Hu1 & Hv1)%elem_of_keys; [|apply Hi].
        destruct Hr. apply elem_of_remote. exists u. naive_solver.
      + split.
        * intros (u & Hu & <-). apply elem_of_remote. destruct (decide ((o, value u) ∈ R)); [done|].
          destruct Hr. apply Hrem. eauto.
        * intros (u & Hu & <- & <-). apply elem_of_keys; [apply Hi|].
          destruct (decide (utxo_key u ∈ keys m)) as [Hk|Hk]; [done|].
          destruct Hin. apply list_elem_of_fmap. exists u. split; [done|]. by apply Hadd. }
  split_and!; [done|done|]. unfold get_utxo_diff. fold (keys m'). rewrite Hkeys. fold R. f_equal.
  - by rewrite difference_diag_L, elements_empty.
  - apply elem_of_nil_inv. intros u [Hk Hu]%list_elem_of_filter. destruct Hk. apply elem_of_remote. eauto.
Qed.
End reconcile.

Section witnesses.
#[local] Existing Instance canonical_iter.
#[local] Existing Instance model_externals.

Definition w_small (n v : Z) : UTXO := mkUTXO (mkOutPoint [n] 0) v [1] "a" None.
Definition w_node1 := run w_boot [OpAdd (w_small 1 5); OpAdd (w_small 2 6); OpLock 5 (mkOutPoint [1] 0) [1]].
Definition w_node2 := run w_boot [OpAdd (w_small 2 6); OpAdd (w_small 1 5); OpLock 9 (mkOutPoint [1] 0) [3]].

(** The same two outputs, received in the two orders. *)
Lemma utxo_set_hash_canonical_witness :
  calculate_utxo_set_hash w_node1 = calculate_utxo_set_hash w_node2.
Proof.
  apply utxo_set_hash_canonical; [apply inv_wf, w_inv..|vm_compute; reflexivity|].
  assert (map_Forall (λ o _, state_disc w_node1 o = state_disc w_node2 o) (st_view (storage w_node1))) as HF
    by (apply (bool_decide_unpack _); vm_compute; exact I).
  intros o [u Hu]. exact (HF o u Hu).
Defined.

Lemma supply_stats_identity_witness :
  let st := get_supply_stats (run w_boot [OpAdd (w_utxo 1 100); OpAdd (w_utxo 2 40);
    OpLockCollateral 1 (w_op 1) "mn" 3 100 true; OpHeight (outpoint (w_utxo 2 40)) 5]) 1000 100 in
  locked_collateral_satoshis st + circulating_satoshis st = total_unspent_satoshis st.
Proof.
  apply (supply_stats_identity (run w_boot [OpAdd (w_utxo 1 100); OpAdd (w_utxo 2 40);
    OpLockCollateral 1 (w_op 1) "mn" 3 100 true; OpHeight (outpoint (w_utxo 2 40)) 5]) 1000 100).
  - vm_compute. repeat constructor; discriminate.
  - vm_compute. reflexivity.
Defined.

Lemma reconcile_converges_witness :
  let '(to_remove, to_add) := get_utxo_diff w_started [(w_utxo 2 40)] in
  let m' := reconcile_utxo_state w_started to_remove to_add in
  inv m' ∧ keys m' = list_to_set (map utxo_key [(w_utxo 2 40)]) ∧ get_utxo_diff m' [(w_utxo 2 40)] = ([], []).
Proof.
  apply (reconcile_converges w_started [(w_utxo 2 40)]).
  - apply w_inv.
  - repeat constructor; set_solver.
  - intros u ->%list_elem_of_singleton. by apply (bool_decide_unpack _); vm_compute.
  - intros u ->%list_elem_of_singleton _. vm_compute. reflexivity.
Defined.
End witnesses.
