(* ===== verification/TransactionPool.v ===== *)
(** * The transaction pool (src/transaction_pool.rs, src/purge_list.rs)

    One record for [TransactionPool] and one definition per method.  A method
    returns the new pool with its result.  An [Instant] is a number of
    nanoseconds and the current time is the argument [now].  The mempool tree of
    the node's database is a field of the record: [enable_persistence],
    [save_to_sled] and [load_from_sled] all open that tree, and [sled_enabled]
    says whether the write-through handle is set.  Tree writes succeed (the source
    only logs a failure).  Memory pressure is compared with the thresholds as a
    rational number: the bounds 83,886,080 bytes and 8,000 entries of the 80%
    threshold (94,371,840 and 9,000 of 90%) are integers that the rounded [f64]
    quotients do not move across. *)

From Stdlib Require Import ZArith Lia Ascii String.
From stdpp Require Import base gmap strings list.
From S2P Require Import Prelude Types Address.

Definition MAX_POOL_SIZE : Z := 10000.
Definition MAX_POOL_BYTES : Z := 100 * 1024 * 1024.
Definition REJECT_CACHE_SIZE : Z := 1000.

Record PoolEntry := mkPoolEntry {
  pe_tx : Transaction;
  pe_fee : Z;
  added_at : Z;
  pe_size : Z;
  submitter_ip : option string;
}.

Inductive PoolError := PoolFull | AlreadyExists | PreviouslyRejected.

Record TransactionPool := mkPool {
  pending : gmap Hash256 PoolEntry;
  confirmed : gmap Hash256 PoolEntry;
  rejected : gmap Hash256 (string * Z);
  pending_count : Z;
  pending_bytes : Z;
  sled_tree : gmap Hash256 bytes;
  sled_enabled : bool;
  loading : bool;
}.

Record PoolMetrics := mkPoolMetrics {
  pm_pending_count : Z; pm_pending_bytes : Z; pm_finalized_count : Z; pm_rejected_count : Z;
  pm_total_fees_pending : Z; pm_avg_fee_rate : Z; pm_oldest_pending_age_secs : Z;
}.
Inductive PressureLevel := Low | Medium | High | Critical.
Record MemPoolPressure := mkPressure {
  level : PressureLevel; current_count : Z; max_count : Z; current_bytes : Z; max_bytes : Z;
}.
Record MempoolSyncEntry := mkSyncEntry { se_tx : Transaction; se_fee : Z; se_is_finalized : bool }.

(** What [serde_json] makes of a stored entry: the fields of the parsed value,
    each absent when it is missing or of the wrong type. *)
Record JsonEntry := mkJsonEntry {
  je_tx : option Transaction; je_fee : option Z; je_is_finalized : option bool;
}.
Class PoolCodec := {
  entry_to_vec : Transaction → Z → bool → option bytes;
  entry_from_slice : bytes → option JsonEntry;
}.
(** An entry that was written is read back. *)
Class PoolCodecLaws `{PoolCodec} := {
  entry_to_vec_total : ∀ tx fee fin, is_Some (entry_to_vec tx fee fin);
  entry_from_to : ∀ tx fee fin b, entry_to_vec tx fee fin = Some b →
    entry_from_slice b = Some (mkJsonEntry (Some tx) (Some fee) (Some fin));
}.

(** ** The ban list of phantom transactions *)

Record PhantomTxRecord := mkPhantom {
  txid_hex : string; real_inputs : list (string * Z); phantom_output_vouts : list Z;
  reason : string;
}.
Definition PHANTOM_FINALIZED_TXS : list PhantomTxRecord := [
  mkPhantom "c19c230fe4b8e60545e1e4423710108fbc3d5fe1a15f4984bd99fc3bd12477a5"
    [("3a99ec9ec2576536bad0490a1c0ef943ffd6e774bec1c46dcc8b74a9df599817"%string, 0);
     ("b275010b92f69d3b1782f48b6b07d93fe25c6451f8d730a03ff84395da639c7c"%string, 0)]
    [0; 1]
    "Pre-hardening phantom-input TX: third input 20b9365e...:0 never existed on-chain; minted ~99,900 TIME and cannot be included in a block by post-fix validators."].

Section purge_list.
Context `{Externals}.

Definition parse_txid (hex_str : string) : option Hash256 :=
  b ← hex_decode hex_str; if (length b =? 32)%nat then Some b else None.
Definition is_banned (t : Hash256) : bool :=
  existsb (λ r, bool_decide (parse_txid (txid_hex r) = Some t)) PHANTOM_FINALIZED_TXS.
Definition iter_records : list (Hash256 * list OutPoint * list OutPoint * string) :=
  omap (λ r,
    t ← parse_txid (txid_hex r);
    Some (t, omap (λ iv : string * Z, i ← parse_txid iv.1; Some (mkOutPoint i iv.2)) (real_inputs r),
          map (mkOutPoint t) (phantom_output_vouts r), reason r))
    PHANTOM_FINALIZED_TXS.
End purge_list.

(** [Vec::starts_with]. *)
Fixpoint starts_with (prefix l : bytes) : bool :=
  match prefix, l with
  | [], _ => true
  | x :: prefix, y :: l => (x =? y) && starts_with prefix l
  | _ :: _, [] => false
  end.

(** [Iterator::min_by_key]: the first of the smallest. *)
Fixpoint min_by_key {A} (f : A → Z) (l : list A) : option A :=
  match l with
  | [] => None
  | x :: l => match min_by_key f l with
              | Some y => if f y <? f x then Some y else Some x
              | None => Some x
              end
  end.

Section pool.
Context `{Externals} `{MapIter} `{PoolCodec}.
Implicit Types p : TransactionPool.

Definition set_pending (pe : gmap Hash256 PoolEntry) (n b : Z) p : TransactionPool :=
  mkPool pe (confirmed p) (rejected p) n b (sled_tree p) (sled_enabled p) (loading p).
Definition set_confirmed (c : gmap Hash256 PoolEntry) p : TransactionPool :=
  mkPool (pending p) c (rejected p) (pending_count p) (pending_bytes p) (sled_tree p)
    (sled_enabled p) (loading p).
Definition set_rejected (r : gmap Hash256 (string * Z)) p : TransactionPool :=
  mkPool (pending p) (confirmed p) r (pending_count p) (pending_bytes p) (sled_tree p)
    (sled_enabled p) (loading p).
Definition set_tree (t : gmap Hash256 bytes) p : TransactionPool :=
  mkPool (pending p) (confirmed p) (rejected p) (pending_count p) (pending_bytes p) t
    (sled_enabled p) (loading p).
Definition set_loading (l : bool) p : TransactionPool :=
  mkPool (pending p) (confirmed p) (rejected p) (pending_count p) (pending_bytes p) (sled_tree p)
    (sled_enabled p) l.

(** A new pool on a database whose mempool tree is [tree]. *)
Definition new_pool (tree : gmap Hash256 bytes) : TransactionPool :=
  mkPool ∅ ∅ ∅ 0 0 tree false false.
Definition enable_persistence p : TransactionPool :=
  mkPool (pending p) (confirmed p) (rejected p) (pending_count p) (pending_bytes p)
    (sled_tree p) true (loading p).

Definition sled_persist p (t : Hash256) (tx : Transaction) (fee : Z) (is_finalized : bool)
    : TransactionPool :=
  if loading p then p
  else if sled_enabled p then
    match entry_to_vec tx fee is_finalized with
    | Some b => set_tree (<[t := b]> (sled_tree p)) p
    | None => p
    end
  else p.
Definition sled_remove p (t : Hash256) : TransactionPool :=
  if sled_enabled p then set_tree (delete t (sled_tree p)) p else p.
Definition sled_clear p : TransactionPool :=
  if sled_enabled p then set_tree ∅ p else p.

(** [bincode::serialized_size]. *)
Definition serialized_size (tx : Transaction) : Z := Z.of_nat (length (tx_bincode tx)).

Definition is_block_only_tx (tx : Transaction) : bool :=
  match inputs tx with
  | [] => true
  | _ => existsb (λ o, starts_with (str_bytes "BLOCK_REWARD_") (out_script_pubkey o)) (outputs tx)
  end.

Definition dereg_slot (tx : Transaction) : option Z :=
  match special_data tx with Some (MasternodeDeregistration _ s _ _) => Some s | _ => None end.

(** [get_memory_pressure() > num/den]. *)
Definition pressure_above p (num den : Z) : bool :=
  (num * MAX_POOL_BYTES <? den * pending_bytes p) || (num * MAX_POOL_SIZE <? den * pending_count p).
Definition is_high_pressure p : bool := pressure_above p 9 10.
Definition get_pressure_status p : MemPoolPressure :=
  mkPressure
    (if pressure_above p 9 10 then Critical
     else if pressure_above p 8 10 then High
     else if pressure_above p 1 2 then Medium else Low)
    (pending_count p) MAX_POOL_SIZE (pending_bytes p) MAX_POOL_BYTES.

(** [if let Some((_, entry)) = self.pending.remove(&txid) { count and bytes -= .. }]. *)
Definition take_pending p (t : Hash256) : TransactionPool * option PoolEntry :=
  match pending p !! t with
  | Some e => (set_pending (delete t (pending p)) (sub64 (pending_count p) 1)
                 (sub64 (pending_bytes p) (pe_size e)) p, Some e)
  | None => (p, None)
  end.

(** ** Eviction *)

Definition fee_per_byte (e : PoolEntry) : Z :=
  if 0 <? pe_size e then pe_fee e / pe_size e else 0.
(** [a.1.cmp(&b.1).then_with(|| a.2.cmp(&b.2))] is [Less] or [Equal]. *)
Definition priority_leb (a b : Hash256 * PoolEntry) : bool :=
  if fee_per_byte a.2 =? fee_per_byte b.2 then added_at a.2 <=? added_at b.2
  else fee_per_byte a.2 <? fee_per_byte b.2.
Definition by_priority p : list (Hash256 * PoolEntry) := sort_by priority_leb (iter (pending p)).
Definition evict_step (acc : TransactionPool * Z) (te : Hash256 * PoolEntry) : TransactionPool * Z :=
  match take_pending acc.1 te.1 with
  | (p, Some _) => (sled_remove p te.1, acc.2 + 1)
  | (p, None) => (p, acc.2)
  end.
Definition evict_low_fee_transactions p (count : nat) : TransactionPool * result PoolError Z :=
  if bool_decide (pending p = ∅) then (p, Ok 0)
  else let '(p, evicted) := foldl evict_step (p, 0) (take count (by_priority p)) in (p, Ok evicted).

(** ** Adding *)

(** The AV49 guard: another pending deregistration of the same slot. *)
Definition duplicate_dereg p (tx : Transaction) : bool :=
  match dereg_slot tx with
  | Some slot => existsb (λ te : Hash256 * PoolEntry, bool_decide (dereg_slot (pe_tx te.2) = Some slot))
                   (iter (pending p))
  | None => false
  end.

Definition contains (m : gmap Hash256 PoolEntry) (t : Hash256) : bool := bool_decide (is_Some (m !! t)).

Definition insert_pending p (t : Hash256) (e : PoolEntry) : TransactionPool :=
  let p := sled_persist p t (pe_tx e) (pe_fee e) false in
  set_pending (<[t := e]> (pending p)) (add64 (pending_count p) 1)
    (add64 (pending_bytes p) (pe_size e)) p.

Definition add_pending_with_submitter (now : Z) p (tx : Transaction) (fee : Z) (ip : option string)
    : TransactionPool * result PoolError () :=
  let t := txid tx in
  if is_banned t then (sled_remove p t, Err PreviouslyRejected)
  else if is_block_only_tx tx then (sled_remove p t, Err PreviouslyRejected)
  else if contains (pending p) t || contains (confirmed p) t then (p, Err AlreadyExists)
  else if duplicate_dereg p tx then (p, Err AlreadyExists)
  else if bool_decide (is_Some (rejected p !! t)) then (p, Err PreviouslyRejected)
  else
    let tx_size := serialized_size tx in
    let e := mkPoolEntry tx fee now tx_size ip in
    if (MAX_POOL_SIZE <=? pending_count p) || (MAX_POOL_BYTES <? add64 (pending_bytes p) tx_size)
    then
      if pressure_above p 8 10 then
        match evict_low_fee_transactions p 1 with
        | (p, Err e) => (p, Err e)
        | (p, Ok _) => (insert_pending p t e, Ok tt)
        end
      else (p, Err PoolFull)
    else (insert_pending p t e, Ok tt).
Definition add_pending (now : Z) p (tx : Transaction) (fee : Z) :=
  add_pending_with_submitter now p tx fee None.

Definition add_finalized_direct (now : Z) p (tx : Transaction) (fee : Z) : TransactionPool :=
  let t := txid tx in
  if is_banned t then sled_remove p t
  else if is_block_only_tx tx then sled_remove p t
  else if contains (pending p) t || contains (confirmed p) t then p
  else
    let e := mkPoolEntry tx fee now (serialized_size tx) None in
    let p := sled_persist p t tx fee true in
    set_confirmed (<[t := e]> (confirmed p)) p.

(** ** Moving and removing *)

Definition confirm_transaction p (t : Hash256) : TransactionPool * bool :=
  if is_banned t then (sled_remove (take_pending p t).1 t, false)
  else
    match take_pending p t with
    | (p', Some e) =>
        let p' := sled_persist p' t (pe_tx e) (pe_fee e) true in
        (set_confirmed (<[t := e]> (confirmed p')) p', true)
    | (p', None) => (p', false)
    end.

Definition reject_transaction (now : Z) p (t : Hash256) (reason : string) : TransactionPool :=
  let p := sled_remove (take_pending p t).1 t in
  set_rejected (<[t := (reason, now)]> (rejected p)) p.

(** [j["is_finalized"].as_bool()] is [Some(true)]. *)
Definition stored_finalized (b : bytes) : bool :=
  default false (j ← entry_from_slice b; je_is_finalized j).
Definition clear_finalized p : TransactionPool :=
  let p := set_confirmed ∅ p in
  if sled_enabled p
  then set_tree (filter (λ kb : Hash256 * bytes, negb (stored_finalized kb.2)) (sled_tree p)) p
  else p.

Definition archive_one p (t : Hash256) : TransactionPool :=
  let p := match confirmed p !! t with
           | Some _ => sled_remove (set_confirmed (delete t (confirmed p)) p) t
           | None => p
           end in
  match take_pending p t with
  | (p, Some _) => sled_remove p t
  | (p, None) => p
  end.
Definition archive_confirmed_txs p (txids : list Hash256) : TransactionPool :=
  foldl archive_one p txids.

Definition is_older (now limit : Z) (te : Hash256 * PoolEntry) : bool :=
  limit <? sat_sub now (added_at te.2).
Definition cleanup_step (acc : TransactionPool * list Transaction) (t : Hash256)
    : TransactionPool * list Transaction :=
  match take_pending acc.1 t with
  | (p, Some e) => (sled_remove p t, acc.2 ++ [pe_tx e])
  | (p, None) => (p, acc.2)
  end.
Definition cleanup_stale_pending (now : Z) p (max_age : Z) : TransactionPool * list Transaction :=
  foldl cleanup_step (p, []) (filter (is_older now max_age) (iter (pending p))).*1.
Definition get_stale_pending (now : Z) p (min_age : Z) : list (Hash256 * Transaction) :=
  (λ te : Hash256 * PoolEntry, (te.1, pe_tx te.2)) <$> filter (is_older now min_age) (iter (pending p)).
Definition get_stale_finalized (now : Z) p (min_age : Z) : list (Hash256 * Transaction) :=
  (λ te : Hash256 * PoolEntry, (te.1, pe_tx te.2))
    <$> filter (λ te : Hash256 * PoolEntry, min_age <=? sat_sub now (added_at te.2)) (iter (confirmed p)).

Definition update_pending_fee p (t : Hash256) (fee : Z) : TransactionPool * bool :=
  match pending p !! t with
  | Some e =>
      if pe_fee e =? fee then (p, true)
      else
        let e := mkPoolEntry (pe_tx e) fee (added_at e) (pe_size e) (submitter_ip e) in
        let p := set_pending (<[t := e]> (pending p)) (pending_count p) (pending_bytes p) p in
        (sled_persist p t (pe_tx e) fee false, true)
  | None => (p, false)
  end.

(** The loop that enforces [REJECT_CACHE_SIZE]; [fuel] bounds its rounds. *)
Fixpoint trim_rejected (fuel : nat) (r : gmap Hash256 (string * Z)) : gmap Hash256 (string * Z) :=
  match fuel with
  | O => r
  | Datatypes.S fuel =>
      if REJECT_CACHE_SIZE <? Z.of_nat (size r) then
        match min_by_key (λ e : Hash256 * (string * Z), e.2.2) (iter r) with
        | Some e => trim_rejected fuel (delete e.1 r)
        | None => r
        end
      else r
  end.
Definition NANOS_PER_SEC : Z := 1000000000.
Definition cleanup_rejected (now : Z) p (max_age_secs : Z) : TransactionPool :=
  let r := filter (λ e : Hash256 * (string * Z), sat_sub now e.2.2 / NANOS_PER_SEC < max_age_secs)
             (rejected p) in
  set_rejected (trim_rejected (size r) r) p.

Definition drop_banned p (t : Hash256) : TransactionPool * bool :=
  let '(p, e) := take_pending p t in
  let found := bool_decide (is_Some e) || contains (confirmed p) t in
  (sled_remove (set_confirmed (delete t (confirmed p)) p) t, found).

Definition is_ghost (tx : Transaction) : bool :=
  match inputs tx, outputs tx with
  | [], [] =>
      match special_data tx with
      | None => true
      | Some sd => is_err (validate_fields sd) || is_err (verify_signature sd)
                   || is_err (verify_address_binding sd)
      end
  | _, _ => false
  end.
Definition ghosts (m : gmap Hash256 PoolEntry) : list Hash256 :=
  (filter (λ te : Hash256 * PoolEntry, is_ghost (pe_tx te.2)) (iter m)).*1.
Definition purge_confirmed_step (acc : TransactionPool * Z) (t : Hash256) : TransactionPool * Z :=
  match confirmed acc.1 !! t with
  | Some _ => (sled_remove (set_confirmed (delete t (confirmed acc.1)) acc.1) t, acc.2 + 1)
  | None => acc
  end.
Definition purge_pending_step (acc : TransactionPool * Z) (t : Hash256) : TransactionPool * Z :=
  match take_pending acc.1 t with
  | (p, Some _) => (sled_remove p t, acc.2 + 1)
  | (p, None) => (p, acc.2)
  end.
Definition purge_ghost_transactions p : TransactionPool * Z :=
  let acc := foldl purge_pending_step (p, 0) (ghosts (pending p)) in
  foldl purge_confirmed_step acc (ghosts (confirmed acc.1)).

(** [is_input_coinbase] looks a txid up on the chain. *)
Definition block_only_finalized (is_input_coinbase : Hash256 → bool) (te : Hash256 * PoolEntry) : bool :=
  is_block_only_tx (pe_tx te.2) ||
  match inputs (pe_tx te.2) with
  | [i] => is_input_coinbase (op_txid (previous_output i))
  | _ => false
  end.
Definition purge_block_only_finalized (is_input_coinbase : Hash256 → bool) p : TransactionPool * Z :=
  let to_remove := (filter (block_only_finalized is_input_coinbase) (iter (confirmed p))).*1 in
  (foldl (λ p t, sled_remove (set_confirmed (delete t (confirmed p)) p) t) p to_remove,
   Z.of_nat (length to_remove)).

(** ** Conflicts and queries *)

Definition input_set (ins : list TxInput) : gset OutPoint := list_to_set (previous_output <$> ins).
Definition spends_any (s : gset OutPoint) (tx : Transaction) : bool :=
  existsb (λ i, bool_decide (previous_output i ∈ s)) (inputs tx).
Definition pool_inputs_overlap (m : gmap Hash256 PoolEntry) (s : gset OutPoint) (exclude : Hash256) : bool :=
  existsb (λ te : Hash256 * PoolEntry,
    if bool_decide (te.1 = exclude) then false else spends_any s (pe_tx te.2)) (iter m).
Definition has_conflicting_transaction p (ins : list TxInput) (exclude : Hash256) : bool :=
  match ins with
  | [] => false
  | _ => pool_inputs_overlap (pending p) (input_set ins) exclude
         || pool_inputs_overlap (confirmed p) (input_set ins) exclude
  end.
Definition get_conflicting_pending p (ins : list TxInput) (exclude : Hash256)
    : list (Hash256 * Transaction) :=
  match ins with
  | [] => []
  | _ => (λ te : Hash256 * PoolEntry, (te.1, pe_tx te.2)) <$>
           filter (λ te : Hash256 * PoolEntry,
             negb (bool_decide (te.1 = exclude)) && spends_any (input_set ins) (pe_tx te.2))
             (iter (pending p))
  end.
Definition has_conflicting_confirmed p (ins : list TxInput) (exclude : Hash256) : bool :=
  match ins with
  | [] => false
  | _ => pool_inputs_overlap (confirmed p) (input_set ins) exclude
  end.

Definition has_transaction p (t : Hash256) : bool :=
  contains (pending p) t || contains (confirmed p) t.
Definition is_pending p (t : Hash256) : bool := contains (pending p) t.
Definition is_finalized p (t : Hash256) : bool := contains (confirmed p) t.
Definition get_pending p (t : Hash256) : option Transaction := pe_tx <$> pending p !! t.
Definition get_transaction p (t : Hash256) : option Transaction :=
  match pending p !! t with
  | Some e => Some (pe_tx e)
  | None => pe_tx <$> confirmed p !! t
  end.
Definition get_fee p (t : Hash256) : option Z :=
  match pending p !! t with
  | Some e => Some (pe_fee e)
  | None => pe_fee <$> confirmed p !! t
  end.
Definition get_rejection_reason p (t : Hash256) : option string := fst <$> rejected p !! t.
Definition get_total_fees p : Z := sum64 (pe_fee <$> (iter (confirmed p)).*2).
Definition get_finalized_transactions_with_fees p : list (Transaction * Z) :=
  (λ e, (pe_tx e, pe_fee e)) <$> (iter (confirmed p)).*2.
Definition get_all_pending p : list Transaction := pe_tx <$> (iter (pending p)).*2.

Definition get_metrics (now : Z) p : PoolMetrics :=
  let es := (iter (pending p)).*2 in
  let oldest := foldr Z.max 0 ((λ e, sat_sub now (added_at e) / NANOS_PER_SEC) <$> es) in
  let total_fees := sum64 (pe_fee <$> es) in
  let total_size := sum64 (pe_size <$> es) in
  mkPoolMetrics (pending_count p) (pending_bytes p) (Z.of_nat (size (confirmed p)))
    (Z.of_nat (size (rejected p))) total_fees
    (if 0 <? total_size then total_fees / total_size else 0) oldest.

(** ** Synchronisation and persistence *)

Definition get_all_for_sync p : list MempoolSyncEntry :=
  ((λ e, mkSyncEntry (pe_tx e) (pe_fee e) false) <$> (iter (pending p)).*2)
    ++ ((λ e, mkSyncEntry (pe_tx e) (pe_fee e) true) <$> (iter (confirmed p)).*2).

Definition save_step (fin : bool) (tree : gmap Hash256 bytes) (te : Hash256 * PoolEntry)
    : gmap Hash256 bytes :=
  match entry_to_vec (pe_tx te.2) (pe_fee te.2) fin with
  | Some b => <[te.1 := b]> tree
  | None => tree
  end.
Definition save_to_sled p : TransactionPool :=
  let tree := foldl (save_step false) (sled_tree p) (iter (pending p)) in
  set_tree (foldl (save_step true) tree (iter (confirmed p))) p.

(** One stored entry; the keys of banned transactions are dropped at the end. *)
Definition load_step (now : Z) (acc : TransactionPool * Z * list Hash256) (kv : Hash256 * bytes)
    : TransactionPool * Z * list Hash256 :=
  let '(p, restored, drop_) := acc in
  match entry_from_slice kv.2 with
  | None => acc
  | Some j =>
      match je_tx j with
      | None => acc
      | Some tx =>
          if is_banned (txid tx) then (p, restored, drop_ ++ [kv.1])
          else
            let fee := default 0 (je_fee j) in
            if default false (je_is_finalized j)
            then (add_finalized_direct now p tx fee, restored + 1, drop_)
            else match add_pending now p tx fee with
                 | (p, Ok _) => (p, restored + 1, drop_)
                 | (p, Err _) => (p, restored, drop_)
                 end
      end
  end.
Definition load_from_sled (now : Z) p : TransactionPool * Z :=
  let '(p, restored, drop_) :=
    foldl (load_step now) (set_loading true p, 0, []) (iter (sled_tree p)) in
  let p := set_tree (foldl (λ t k, delete k t) (sled_tree p) drop_) p in
  (set_loading false p, restored).
End pool.
