(* ===== verification/PoolProofs.v ===== *)
(** * The transaction pool: invariant and theorems

    The invariant holds in every pool reachable by any sequence of the pool's
    methods: both maps are keyed by transaction id, disjoint and free of banned and
    block-only transactions, and the atomic counters are the size of the pending map
    and the bytes it holds.  With write-through persistence on, the database mirrors
    the pool, and a restart restores it. *)

From Stdlib Require Import ZArith Lia Ascii String.
From stdpp Require Import base gmap strings list sorting.
From S2P Require Import Prelude Types Address Instances TransactionPool.

Definition sizes (m : gmap Hash256 PoolEntry) : list Z := pe_size <$> (map_to_list m).*2.

Lemma sizes_insert m t e : m !! t = None → sumZ (sizes (<[t := e]> m)) = pe_size e + sumZ (sizes m).
Proof. intros Ht. unfold sizes. by rewrite map_to_list_insert. Qed.
Lemma sizes_delete m t e : m !! t = Some e → sumZ (sizes m) = pe_size e + sumZ (sizes (delete t m)).
Proof. intros Ht. unfold sizes. by rewrite <-(map_to_list_delete m t e Ht). Qed.
Lemma sizes_same_size m t e e' :
  m !! t = Some e → pe_size e' = pe_size e → sumZ (sizes (<[t := e']> m)) = sumZ (sizes m).
Proof.
  intros Ht Hs. rewrite (sizes_delete m t e Ht), <-Hs, <-insert_delete_eq.
  apply sizes_insert, lookup_delete_eq.
Qed.

Section invariant.
Context `{Externals} `{MapIter} `{PoolCodec}.
Implicit Types p : TransactionPool.

Definition entry_ok (t : Hash256) (e : PoolEntry) : Prop :=
  txid (pe_tx e) = t ∧ is_banned t = false ∧ is_block_only_tx (pe_tx e) = false ∧
  pe_size e = serialized_size (pe_tx e).

(** At most one pending deregistration per slot. *)
Definition slots_unique (m : gmap Hash256 PoolEntry) : Prop :=
  ∀ t t' e e' s, m !! t = Some e → m !! t' = Some e' →
    dereg_slot (pe_tx e) = Some s → dereg_slot (pe_tx e') = Some s → t = t'.

Record pool_inv p : Prop := mkPoolInv {
  pi_pending : map_Forall entry_ok (pending p);
  pi_confirmed : map_Forall entry_ok (confirmed p);
  pi_disjoint : pending p ##ₘ confirmed p;
  pi_count : pending_count p = Z.of_nat (size (pending p));
  pi_max : Z.of_nat (size (pending p)) ≤ MAX_POOL_SIZE;
  pi_bytes : pending_bytes p = sumZ (sizes (pending p)) mod U64;
  pi_slots : slots_unique (pending p);
}.

(** Everything but the database, the rejections and the flags. *)
Definition same_pools p p' : Prop :=
  pending p' = pending p ∧ confirmed p' = confirmed p ∧
  pending_count p' = pending_count p ∧ pending_bytes p' = pending_bytes p.

Lemma inv_same_pools p p' : same_pools p p' → pool_inv p → pool_inv p'.
Proof. intros (E1 & E2 & E3 & E4) []. split; by rewrite ?E1, ?E2, ?E3, ?E4. Qed.

Lemma same_remove p t : same_pools p (sled_remove p t).
Proof. unfold sled_remove. by destruct (sled_enabled p). Qed.
Lemma same_persist p t tx fee fin : same_pools p (sled_persist p t tx fee fin).
Proof. unfold sled_persist. split_matches; done. Qed.

Lemma inv_sled_remove p t : pool_inv p → pool_inv (sled_remove p t).
Proof. apply inv_same_pools, same_remove. Qed.
Lemma inv_sled_persist p t tx fee fin : pool_inv p → pool_inv (sled_persist p t tx fee fin).
Proof. apply inv_same_pools, same_persist. Qed.

Lemma size_delete_Z (m : gmap Hash256 PoolEntry) t :
  is_Some (m !! t) → Z.of_nat (size (delete t m)) = Z.of_nat (size m) - 1.
Proof.
  intros [e He]. rewrite map_size_delete, He.
  assert (size m ≠ 0%nat) by (rewrite map_size_non_empty_iff; intros ->; by rewrite lookup_empty in He).
  cbn. lia.
Qed.

Lemma inv_take_pending p t : pool_inv p → pool_inv (take_pending p t).1.
Proof.
  unfold take_pending. destruct (pending p !! t) as [e|] eqn:E; [|done]. intros [Hp Hc Hd Hn Hm Hb Hsl].
  assert (Z.of_nat (size (delete t (pending p))) = Z.of_nat (size (pending p)) - 1) as Hs
    by (apply size_delete_Z; eauto).
  split; cbn.
  - by apply map_Forall_delete.
  - done.
  - by apply map_disjoint_delete_l.
  - rewrite Hs, Hn. unfold MAX_POOL_SIZE in *. u64_lia.
  - lia.
  - unfold sub64. rewrite Hb, Zminus_mod_idemp_l, (sizes_delete _ _ _ E). f_equal. lia.
  - intros t1 t2 e1 e2 s [_ H1']%lookup_delete_Some [_ H2']%lookup_delete_Some. by apply (Hsl t1 t2 e1 e2 s).
Qed.

Lemma duplicate_dereg_false p tx t e s :
  duplicate_dereg p tx = false → pending p !! t = Some e →
  dereg_slot (pe_tx e) = Some s → dereg_slot tx = Some s → False.
Proof.
  unfold duplicate_dereg. intros Hd Ht He Htx. rewrite Htx in Hd.
  apply not_true_iff_false in Hd. destruct Hd. apply existsb_exists. exists (t, e). split.
  - apply list_elem_of_In. by rewrite iter_perm, elem_of_map_to_list.
  - cbn. by apply bool_decide_eq_true.
Qed.

Lemma inv_insert_pending p t e :
  pool_inv p → entry_ok t e → pending p !! t = None → confirmed p !! t = None →
  Z.of_nat (size (pending p)) < MAX_POOL_SIZE →
  (∀ t' e' s, pending p !! t' = Some e' → dereg_slot (pe_tx e') = Some s →
     dereg_slot (pe_tx e) = Some s → False) →
  pool_inv (insert_pending p t e).
Proof.
  intros Hi He Hn1 Hn2 Hlt Hdup. unfold insert_pending.
  destruct (same_persist p t (pe_tx e) (pe_fee e) false) as (E1 & E2 & E3 & E4).
  destruct Hi as [Hp Hc Hd Hn Hm Hb Hsl]. split; cbn; rewrite ?E1, ?E2, ?E3, ?E4.
  - by apply map_Forall_insert_2.
  - done.
  - by apply map_disjoint_insert_l_2.
  - rewrite map_size_insert_None, Hn by done. unfold MAX_POOL_SIZE in *. u64_lia.
  - rewrite map_size_insert_None by done. lia.
  - unfold add64. rewrite Hb, Zplus_mod_idemp_l, sizes_insert by done. f_equal. lia.
  - intros t1 t2 e1 e2 s [[<- <-]|[_ H1']]%lookup_insert_Some [[<- <-]|[_ H2']]%lookup_insert_Some;
      try done; [intros; by destruct (Hdup t2 e2 s)..|intros; by destruct (Hdup t1 e1 s)|by apply (Hsl t1 t2 e1 e2 s)].
Qed.

Lemma inv_insert_confirmed p t e :
  pool_inv p → entry_ok t e → pending p !! t = None →
  pool_inv (set_confirmed (<[t := e]> (confirmed p)) p).
Proof.
  intros [Hp Hc Hd Hn Hm Hb Hsl] He Hn1. split; cbn; try done.
  - by apply map_Forall_insert_2.
  - by apply map_disjoint_insert_r_2.
Qed.
Lemma inv_sub_confirmed p c : c ⊆ confirmed p → pool_inv p → pool_inv (set_confirmed c p).
Proof.
  intros Hs [Hp Hc Hd Hn Hm Hb Hsl]. split; cbn; try done.
  - intros t e Ht. by eapply Hc, lookup_weaken.
  - by eapply map_disjoint_weaken_r.
Qed.
Lemma inv_delete_confirmed p t : pool_inv p → pool_inv (set_confirmed (delete t (confirmed p)) p).
Proof. apply inv_sub_confirmed, delete_subseteq. Qed.

(** ** Eviction *)

Lemma inv_evict_step acc te : pool_inv acc.1 → pool_inv (evict_step acc te).1.
Proof.
  intros Hi. unfold evict_step. pose proof (inv_take_pending acc.1 te.1 Hi) as Ht.
  destruct (take_pending acc.1 te.1) as [p' [e|]]; cbn in *; [by apply inv_sled_remove|done].
Qed.
Lemma inv_evict p n : pool_inv p → pool_inv (evict_low_fee_transactions p n).1.
Proof.
  intros Hi. unfold evict_low_fee_transactions. case_bool_decide; [done|].
  pose proof (foldl_preserve evict_step (λ acc, pool_inv acc.1) (take n (by_priority p)) (p, 0)
    inv_evict_step Hi) as Hf. by destruct (foldl _ _ _).
Qed.

Lemma priority_total x y : priority_leb x y = false → priority_leb y x = true.
Proof.
  unfold priority_leb. rewrite (Z.eqb_sym (fee_per_byte y.2)).
  destruct (Z.eqb_spec (fee_per_byte x.2) (fee_per_byte y.2)); lia.
Qed.
Lemma priority_trans x y z : priority_leb x y → priority_leb y z → priority_leb x z.
Proof.
  unfold priority_leb. rewrite !Is_true_true.
  destruct (Z.eqb_spec (fee_per_byte x.2) (fee_per_byte y.2)),
    (Z.eqb_spec (fee_per_byte y.2) (fee_per_byte z.2)),
    (Z.eqb_spec (fee_per_byte x.2) (fee_per_byte z.2)); lia.
Qed.

Lemma by_priority_perm p : by_priority p ≡ₚ map_to_list (pending p).
Proof. unfold by_priority. by rewrite sort_by_perm, iter_perm. Qed.

(** The head of the queue has the least fee per byte, and is the oldest such. *)
Lemma by_priority_head p t e l :
  by_priority p = (t, e) :: l →
  pending p !! t = Some e ∧ ∀ t' e', pending p !! t' = Some e' → priority_leb (t, e) (t', e') = true.
Proof.
  intros E. pose proof (by_priority_perm p) as Hp. rewrite E in Hp. split.
  - apply elem_of_map_to_list. rewrite <-Hp. set_solver.
  - intros t' e' Ht'. apply elem_of_map_to_list in Ht'. rewrite <-Hp in Ht'.
    assert (Sorted priority_leb ((t, e) :: l)) as Hs
      by (rewrite <-E; apply sort_by_sorted, priority_total).
    apply Sorted_StronglySorted in Hs; [|intros x y z; apply priority_trans].
    apply StronglySorted_inv in Hs as [_ Hall]. apply elem_of_cons in Ht' as [[= -> ->]|Hin].
    + unfold priority_leb. rewrite Z.eqb_refl. lia.
    + rewrite Forall_forall in Hall. by apply Is_true_true, Hall.
Qed.

Lemma evict_one p :
  pending p ≠ ∅ → ∃ t e, pending p !! t = Some e ∧
    (∀ t' e', pending p !! t' = Some e' → priority_leb (t, e) (t', e') = true) ∧
    evict_low_fee_transactions p 1 = (sled_remove (take_pending p t).1 t, Ok 1).
Proof.
  intros Hne. unfold evict_low_fee_transactions. rewrite bool_decide_false by done.
  destruct (by_priority p) as [|[t e] l] eqn:E.
  { pose proof (by_priority_perm p) as Hp. rewrite E in Hp.
    symmetry in Hp. apply Permutation_nil_r in Hp. by apply map_to_list_empty_iff in Hp. }
  destruct (by_priority_head p t e l E) as [Ht Hmin]. exists t, e. split_and!; [done..|].
  cbn. unfold evict_step. cbn. unfold take_pending. by rewrite Ht.
Qed.

(** Pressure needs something in the pool. *)
Lemma pressure_nonempty p num den :
  0 ≤ num → pool_inv p → pressure_above p num den = true → pending p ≠ ∅.
Proof.
  intros Hn [_ _ _ Hc _ Hb _] Hp He. unfold pressure_above in Hp. rewrite Hc, Hb, He, map_size_empty in Hp.
  unfold sizes in Hp. rewrite map_to_list_empty in Hp.
  change (sumZ _ mod U64) with 0 in Hp. change (Z.of_nat 0) with 0 in Hp.
  rewrite !Z.mul_0_r in Hp. unfold MAX_POOL_BYTES, MAX_POOL_SIZE in Hp. lia.
Qed.

(** ** Adding *)

Lemma contains_false m t : contains m t = false → m !! t = None.
Proof. unfold contains. rewrite bool_decide_eq_false. apply eq_None_not_Some. Qed.
Lemma contains_true m t : contains m t = true ↔ is_Some (m !! t).
Proof. unfold contains. apply bool_decide_eq_true. Qed.

(** After the evictions of one admission there is room. *)
Lemma evict_one_room p p' r :
  pool_inv p → pending p ≠ ∅ → evict_low_fee_transactions p 1 = (p', r) →
  pool_inv p' ∧ Z.of_nat (size (pending p')) < MAX_POOL_SIZE ∧
  pending p' ⊆ pending p ∧ confirmed p' = confirmed p.
Proof.
  intros Hi Hne Hev. pose proof (inv_evict p 1 Hi) as Hi'. rewrite Hev in Hi'.
  destruct (evict_one p Hne) as (t & e & Ht & _ & E). rewrite E in Hev. injection Hev as <- _.
  split; [exact Hi'|].
  destruct (same_remove (take_pending p t).1 t) as (E1 & E2 & _). rewrite E1, E2.
  unfold take_pending. rewrite Ht. cbn. split_and!; [|apply delete_subseteq|done].
  rewrite size_delete_Z by eauto. destruct Hi. lia.
Qed.

Lemma inv_add_pending now p tx fee ip :
  pool_inv p → pool_inv (add_pending_with_submitter now p tx fee ip).1.
Proof.
  intros Hi. unfold add_pending_with_submitter.
  destruct (is_banned (txid tx)) eqn:Hb; [by apply inv_sled_remove|].
  destruct (is_block_only_tx tx) eqn:Ho; [by apply inv_sled_remove|].
  destruct (contains (pending p) (txid tx)) eqn:Hp; [done|]. apply contains_false in Hp.
  destruct (contains (confirmed p) (txid tx)) eqn:Hc; [done|]. apply contains_false in Hc.
  cbn [orb]. destruct (duplicate_dereg p tx) eqn:Hdd; [done|]. case_bool_decide; [done|].
  set (e := mkPoolEntry tx fee now (serialized_size tx) ip).
  assert (entry_ok (txid tx) e) as He by done.
  destruct ((MAX_POOL_SIZE <=? pending_count p) || _) eqn:Hfull.
  - destruct (pressure_above p 8 10) eqn:Hpr; [|done].
    apply pressure_nonempty in Hpr; [|done..].
    destruct (evict_low_fee_transactions p 1) as [p' [z|er]] eqn:Hev; cbn;
      destruct (evict_one_room p _ _ Hi Hpr Hev) as (Hi' & Hr & Hsub & Hcf); [|done].
    apply inv_insert_pending; try done; [exact (lookup_weaken_None _ _ _ Hp Hsub)|by rewrite Hcf|].
    intros t' e' s Ht'. by apply (duplicate_dereg_false p tx t' e' s Hdd), (lookup_weaken _ _ _ _ Ht' Hsub).
  - apply orb_false_iff in Hfull as [Hfull _]. destruct Hi as [? ? ? Hn ? ? ?] eqn:E.
    rewrite Hn in Hfull. apply inv_insert_pending; try done; [lia|]. intros t' e' s.
    by apply duplicate_dereg_false.
Qed.

Lemma inv_add_finalized now p tx fee : pool_inv p → pool_inv (add_finalized_direct now p tx fee).
Proof.
  intros Hi. unfold add_finalized_direct.
  destruct (is_banned (txid tx)) eqn:Hb; [by apply inv_sled_remove|].
  destruct (is_block_only_tx tx) eqn:Ho; [by apply inv_sled_remove|].
  destruct (contains (pending p) (txid tx)) eqn:Hp; [done|]. apply contains_false in Hp.
  destruct (contains (confirmed p) (txid tx)) eqn:Hc; [done|]. cbn [orb].
  destruct (same_persist p (txid tx) tx fee true) as (E1 & _).
  apply inv_insert_confirmed; [by apply inv_sled_persist|done|by rewrite E1].
Qed.

(** ** Moving and removing *)

Lemma inv_confirm p t : pool_inv p → pool_inv (confirm_transaction p t).1.
Proof.
  intros Hi. unfold confirm_transaction. destruct (is_banned t).
  { by apply inv_sled_remove, inv_take_pending. }
  pose proof (inv_take_pending p t Hi) as Ht. unfold take_pending in *.
  destruct (pending p !! t) as [e|] eqn:E; [|done]. cbn in *.
  set (p1 := set_pending _ _ _ p) in *.
  destruct (same_persist p1 t (pe_tx e) (pe_fee e) true) as (E1 & _).
  apply inv_insert_confirmed; [by apply inv_sled_persist|by destruct Hi as [Hp ? ? ? ? ? ?]; apply Hp|].
  rewrite E1. apply lookup_delete_eq.
Qed.
Lemma inv_reject now p t r : pool_inv p → pool_inv (reject_transaction now p t r).
Proof.
  intros Hi. apply (inv_take_pending p t), (inv_sled_remove _ t) in Hi. by eapply inv_same_pools, Hi.
Qed.
Lemma inv_clear_finalized p : pool_inv p → pool_inv (clear_finalized p).
Proof.
  intros Hi. assert (pool_inv (set_confirmed ∅ p)) as Hc
    by (apply inv_sub_confirmed; [apply map_empty_subseteq|done]).
  unfold clear_finalized. destruct (sled_enabled _); [|done]. by eapply inv_same_pools, Hc.
Qed.
Lemma inv_archive_one p t : pool_inv p → pool_inv (archive_one p t).
Proof.
  intros Hi. unfold archive_one. set (p1 := match confirmed p !! t with Some _ => _ | None => p end).
  assert (pool_inv p1) as Hi1.
  { unfold p1. destruct (confirmed p !! t); [|done]. by apply inv_sled_remove, inv_delete_confirmed. }
  pose proof (inv_take_pending p1 t Hi1) as Ht.
  destruct (take_pending p1 t) as [p2 [e|]]; [by apply inv_sled_remove|done].
Qed.
Lemma inv_cleanup_step acc t : pool_inv acc.1 → pool_inv (cleanup_step acc t).1.
Proof.
  intros Hi. unfold cleanup_step. pose proof (inv_take_pending acc.1 t Hi) as Ht.
  destruct (take_pending acc.1 t) as [p' [e|]]; cbn in *; [by apply inv_sled_remove|done].
Qed.
Lemma inv_update_fee p t fee : pool_inv p → pool_inv (update_pending_fee p t fee).1.
Proof.
  intros Hi. unfold update_pending_fee. destruct (pending p !! t) as [e|] eqn:E; [|done].
  destruct (pe_fee e =? fee); [done|]. cbn. apply inv_sled_persist.
  destruct Hi as [Hp Hc Hd Hn Hm Hb Hsl]. split; cbn; try done.
  - by apply map_Forall_insert_2; [apply (Hp t e E)|].
  - apply map_disjoint_insert_l_2; [|done].
    apply (map_disjoint_Some_l _ _ t e Hd E).
  - rewrite map_size_insert_Some; eauto.
  - rewrite map_size_insert_Some; eauto.
  - by rewrite (sizes_same_size _ t e).
  - intros t1 t2 e1 e2 s [[<- <-]|[_ H1']]%lookup_insert_Some [[<- <-]|[_ H2']]%lookup_insert_Some; cbn;
      try done; intros; [by apply (Hsl t t2 e e2 s)|by apply (Hsl t1 t e1 e s)|by apply (Hsl t1 t2 e1 e2 s)].
Qed.
Lemma inv_purge_pending_step acc t : pool_inv acc.1 → pool_inv (purge_pending_step acc t).1.
Proof.
  intros Hi. unfold purge_pending_step. pose proof (inv_take_pending acc.1 t Hi) as Ht.
  destruct (take_pending acc.1 t) as [p' [e|]]; cbn in *; [by apply inv_sled_remove|done].
Qed.
Lemma inv_purge_confirmed_step acc t : pool_inv acc.1 → pool_inv (purge_confirmed_step acc t).1.
Proof.
  intros Hi. unfold purge_confirmed_step. destruct (confirmed acc.1 !! t); [|done].
  by apply inv_sled_remove, inv_delete_confirmed.
Qed.
Lemma inv_drop_banned p t : pool_inv p → pool_inv (drop_banned p t).1.
Proof.
  intros Hi. unfold drop_banned. pose proof (inv_take_pending p t Hi) as Ht.
  destruct (take_pending p t) as [p' e]. by apply inv_sled_remove, inv_delete_confirmed.
Qed.
Lemma inv_load_step now acc kv : pool_inv acc.1.1 → pool_inv (load_step now acc kv).1.1.
Proof.
  destruct acc as [[p r] d]. intros Hi. unfold load_step.
  destruct (entry_from_slice kv.2) as [j|]; [|done]. destruct (je_tx j) as [tx|]; [|done].
  destruct (is_banned _); [done|]. destruct (default false _); [by apply inv_add_finalized|].
  pose proof (inv_add_pending now p tx (default 0 (je_fee j)) None Hi) as Ha.
  unfold add_pending. by destruct (add_pending_with_submitter now p tx _ None) as [p' []].
Qed.
Lemma inv_load now p : pool_inv p → pool_inv (load_from_sled now p).1.
Proof.
  intros Hi. unfold load_from_sled.
  pose proof (foldl_preserve (load_step now) (λ acc, pool_inv acc.1.1) (iter (sled_tree p))
    (set_loading true p, 0, []) (inv_load_step now)) as Hf.
  destruct (foldl _ _ _) as [[p' r] d]. cbn in *.
  assert (pool_inv p') as Hi' by (apply Hf; by eapply inv_same_pools, Hi).
  by eapply inv_same_pools, Hi'.
Qed.
End invariant.

(** ** Histories *)

Inductive pool_op :=
| PAdd (now : Z) (tx : Transaction) (fee : Z) (ip : option string)
| PAddFinalized (now : Z) (tx : Transaction) (fee : Z)
| PConfirm (t : Hash256) | PReject (now : Z) (t : Hash256) (reason : string)
| PClearFinalized | PArchive (txids : list Hash256)
| PCleanupStale (now max_age : Z) | PUpdateFee (t : Hash256) (fee : Z)
| PCleanupRejected (now max_age_secs : Z) | PEvict (count : nat) | PDropBanned (t : Hash256)
| PPurgeGhosts | PPurgeBlockOnly (is_input_coinbase : Hash256 → bool)
| PSave | PLoad (now : Z) | PEnablePersistence.

Section histories.
Context `{Externals} `{MapIter} `{PoolCodec}.
Implicit Types p : TransactionPool.

Definition pool_exec p (o : pool_op) : TransactionPool :=
  match o with
  | PAdd now tx fee ip => (add_pending_with_submitter now p tx fee ip).1
  | PAddFinalized now tx fee => add_finalized_direct now p tx fee
  | PConfirm t => (confirm_transaction p t).1
  | PReject now t reason => reject_transaction now p t reason
  | PClearFinalized => clear_finalized p
  | PArchive txids => archive_confirmed_txs p txids
  | PCleanupStale now max_age => (cleanup_stale_pending now p max_age).1
  | PUpdateFee t fee => (update_pending_fee p t fee).1
  | PCleanupRejected now max_age => cleanup_rejected now p max_age
  | PEvict count => (evict_low_fee_transactions p count).1
  | PDropBanned t => (drop_banned p t).1
  | PPurgeGhosts => (purge_ghost_transactions p).1
  | PPurgeBlockOnly f => (purge_block_only_finalized f p).1
  | PSave => save_to_sled p
  | PLoad now => (load_from_sled now p).1
  | PEnablePersistence => enable_persistence p
  end.
Definition pool_run p (os : list pool_op) : TransactionPool := foldl pool_exec p os.

Lemma pool_exec_inv p o : pool_inv p → pool_inv (pool_exec p o).
Proof.
  intros Hi. destruct o; cbn [pool_exec];
    auto using inv_add_pending, inv_add_finalized, inv_confirm, inv_reject, inv_clear_finalized,
      inv_update_fee, inv_evict, inv_drop_banned, inv_load; try by eapply inv_same_pools, Hi.
  - apply (foldl_preserve archive_one pool_inv); [apply inv_archive_one|done].
  - apply (foldl_preserve cleanup_step (λ acc, pool_inv acc.1)); [apply inv_cleanup_step|done].
  - apply (foldl_preserve purge_confirmed_step (λ acc, pool_inv acc.1)); [apply inv_purge_confirmed_step|].
    apply (foldl_preserve purge_pending_step (λ acc, pool_inv acc.1)); [apply inv_purge_pending_step|done].
  - cbn. apply (foldl_preserve _ pool_inv); [|done]. intros p' t Hp'.
    by apply inv_sled_remove, inv_delete_confirmed.
Qed.

Lemma pool_run_inv p os : pool_inv p → pool_inv (pool_run p os).
Proof. apply (foldl_preserve pool_exec pool_inv). intros a b. apply pool_exec_inv. Qed.
Lemma new_pool_inv tree : pool_inv (new_pool tree).
Proof.
  split; cbn [new_pool pending confirmed pending_count pending_bytes];
    [apply map_Forall_empty|apply map_Forall_empty|apply map_disjoint_empty_l|by rewrite map_size_empty|..].
  - rewrite map_size_empty. done.
  - unfold sizes. by rewrite map_to_list_empty.
  - intros ? ? ? ? ? Hl. by rewrite lookup_empty in Hl.
Qed.

(** C18: In every reachable state of the transaction pool: entries are keyed by their txid,
    hold no banned or block-only transaction and record their serialized size; the pending
    and finalized pools are disjoint; the pending counter and byte total are those of the
    map; the number of pending transactions never exceeds its limit (the limit on their
    bytes may be exceeded); and no two pending deregistrations name the same slot. *)
Theorem pool_reachable_inv tree os : pool_inv (pool_run (new_pool tree) os).
Proof. apply pool_run_inv, new_pool_inv. Qed.

Lemma block_only_ghost tx : is_block_only_tx tx = false → is_ghost tx = false.
Proof. unfold is_block_only_tx, is_ghost. by destruct (inputs tx). Qed.
Lemma no_ghosts m : map_Forall entry_ok m → ghosts m = [].
Proof.
  intros Hm. unfold ghosts. apply elem_of_nil_inv.
  intros t' ([t e] & _ & Hf)%list_elem_of_fmap.
  apply list_elem_of_filter in Hf as [Hg Hin]. rewrite iter_perm, elem_of_map_to_list in Hin.
  destruct (Hm t e Hin) as (_ & _ & Hb & _). cbn in Hg. by rewrite block_only_ghost in Hg.
Qed.

(** The ghost sweep finds nothing in a reachable pool. *)
Theorem purge_ghosts_noop tree os :
  let p := pool_run (new_pool tree) os in purge_ghost_transactions p = (p, 0).
Proof.
  cbn. pose proof (pool_run_inv (new_pool tree) os (new_pool_inv tree)) as [Hp Hc _ _ _ _ _].
  unfold purge_ghost_transactions. rewrite (no_ghosts _ Hp). cbn. by rewrite (no_ghosts _ Hc).
Qed.

(** Admission of a fresh transaction, on every branch: with room it is inserted with its
    fee, time, size and submitter; in a full pool above 80% pressure it replaces the entry
    of lowest fee per byte (the oldest of these); otherwise the pool is unchanged and full.
    *)
Theorem add_pending_spec now p tx fee ip :
  pool_inv p → is_banned (txid tx) = false → is_block_only_tx tx = false →
  has_transaction p (txid tx) = false → duplicate_dereg p tx = false →
  rejected p !! txid tx = None →
  let e := mkPoolEntry tx fee now (serialized_size tx) ip in
  let '(p', r) := add_pending_with_submitter now p tx fee ip in
  let full := (MAX_POOL_SIZE <=? pending_count p)
              || (MAX_POOL_BYTES <? add64 (pending_bytes p) (serialized_size tx)) in
  if full then
    if pressure_above p 8 10 then
      r = Ok tt ∧ ∃ t v, pending p !! t = Some v ∧ pending p' = <[txid tx := e]> (delete t (pending p)) ∧
        ∀ t' v', pending p !! t' = Some v' →
          fee_per_byte v < fee_per_byte v' ∨ fee_per_byte v = fee_per_byte v' ∧ added_at v ≤ added_at v'
    else r = Err PoolFull ∧ p' = p
  else r = Ok tt ∧ pending p' = <[txid tx := e]> (pending p).
Proof.
  intros Hi Hb Ho Hh Hd Hr. unfold add_pending_with_submitter, has_transaction in *.
  rewrite Hb, Ho, Hh, Hd, Hr, bool_decide_false by (by intros [? ?]).
  assert (∀ p t e, pending (insert_pending p t e) = <[t := e]> (pending p)) as Hins.
  { intros p0 t e. unfold insert_pending. by destruct (same_persist p0 t (pe_tx e) (pe_fee e) false) as [-> _]. }
  clear Hh. cbv zeta. destruct ((MAX_POOL_SIZE <=? _) || _); [|split; [done|apply Hins]]. destruct (pressure_above p 8 10) eqn:Hp; [|done].
  apply pressure_nonempty in Hp; [|done..].
  destruct (evict_one p Hp) as (t & v & Ht & Hmin & ->). split; [done|]. exists t, v.
  rewrite Hins. destruct (same_remove (take_pending p t).1 t) as [-> _].
  unfold take_pending. rewrite Ht. split_and!; [done..|]. intros t' v' Ht'.
  specialize (Hmin t' v' Ht'). unfold priority_leb in Hmin. cbn in Hmin.
  destruct (Z.eqb_spec (fee_per_byte v) (fee_per_byte v')); lia.
Qed.

(** Conflict detection is exact: it reports a conflict iff some pending or finalized
    transaction other than the excluded one spends one of the given inputs. *)
Theorem has_conflicting_transaction_iff p ins exclude :
  has_conflicting_transaction p ins exclude = true ↔
  ∃ t e i j, (pending p !! t = Some e ∨ confirmed p !! t = Some e) ∧ t ≠ exclude ∧
    i ∈ inputs (pe_tx e) ∧ j ∈ ins ∧ previous_output i = previous_output j.
Proof.
  assert (∀ m, pool_inputs_overlap m (input_set ins) exclude = true ↔
    ∃ t e i j, m !! t = Some e ∧ t ≠ exclude ∧ i ∈ inputs (pe_tx e) ∧ j ∈ ins ∧
      previous_output i = previous_output j) as Ho.
  { intros m. unfold pool_inputs_overlap. rewrite existsb_exists. split.
    - intros ([t e] & Hin & He). cbn in He. case_bool_decide; [done|].
      apply list_elem_of_In in Hin. rewrite iter_perm, elem_of_map_to_list in Hin.
      apply existsb_exists in He as (i & Hi & Hs%bool_decide_eq_true). unfold input_set in Hs.
      apply elem_of_list_to_set, list_elem_of_fmap in Hs as (j & Hij & Hj).
      apply list_elem_of_In in Hi. naive_solver.
    - intros (t & e & i & j & Hm & Hne & Hi & Hj & Hij). exists (t, e). split.
      + apply list_elem_of_In. by rewrite iter_perm, elem_of_map_to_list.
      + cbn. rewrite bool_decide_false by done. apply existsb_exists. exists i.
        split; [by apply list_elem_of_In|]. apply bool_decide_eq_true. unfold input_set.
        apply elem_of_list_to_set, list_elem_of_fmap. eauto. }
  unfold has_conflicting_transaction. destruct ins as [|j0 ins].
  { split; [done|]. intros (? & ? & ? & ? & _ & _ & _ & ?%elem_of_nil & _). done. }
  rewrite orb_true_iff, !Ho. naive_solver.
Qed.
End histories.

(** ** The cache of rejections *)

Lemma min_by_key_spec {A} (f : A → Z) l :
  match min_by_key f l with
  | Some x => x ∈ l ∧ ∀ y, y ∈ l → f x ≤ f y
  | None => l = []
  end.
Proof.
  induction l as [|x l IH]; cbn; [done|]. destruct (min_by_key f l) as [y|].
  - destruct IH as [Hin Hmin]. destruct (Z.ltb_spec (f y) (f x)).
    + split; [set_solver|]. intros z [->|Hz]%elem_of_cons; [lia|auto].
    + split; [set_solver|]. intros z [->|Hz]%elem_of_cons; [lia|]. specialize (Hmin z Hz). lia.
  - subst. split; [set_solver|]. intros z [->|Hz%elem_of_nil]%elem_of_cons; [lia|done].
Qed.

Section rejections.
Context `{Externals} `{MapIter} `{PoolCodec}.

Lemma trim_rejected_spec fuel r :
  let r' := trim_rejected fuel r in
  r' ⊆ r ∧ (Z.of_nat (size r) ≤ Z.of_nat fuel + REJECT_CACHE_SIZE → Z.of_nat (size r') ≤ REJECT_CACHE_SIZE) ∧
  ∀ k v k' v', r' !! k = Some v → r !! k' = Some v' → r' !! k' = None → v'.2 ≤ v.2.
Proof.
  revert r. induction fuel as [|fuel IH]; intros r; cbn [trim_rejected].
  { split_and!; [done|intros; lia|]. intros k v k' v' _ Hk Hn. congruence. }
  destruct (Z.ltb_spec REJECT_CACHE_SIZE (Z.of_nat (size r))) as [Hgt|Hle]; cbn [Is_true].
  2: { split_and!; [done|done|]. intros k v k' v' _ Hk Hn. congruence. }
  pose proof (min_by_key_spec (λ e : Hash256 * (string * Z), e.2.2) (iter r)) as Hmin.
  destruct (min_by_key _ (iter r)) as [[k0 v0]|].
  2: { split_and!; [done| |].
       - intros _. apply (f_equal length) in Hmin. rewrite iter_perm, length_map_to_list in Hmin.
         unfold REJECT_CACHE_SIZE in *. cbn in Hmin. lia.
       - intros k v k' v' _ Hk Hn. congruence. }
  destruct Hmin as [Hin Hmin]. rewrite iter_perm, elem_of_map_to_list in Hin. cbn [fst snd] in *.
  destruct (IH (delete k0 r)) as (IH1 & IH2 & IH3). split_and!.
  - etrans; [exact IH1|apply delete_subseteq].
  - intros Hf. apply IH2. rewrite map_size_delete, Hin. unfold REJECT_CACHE_SIZE in *. cbn. lia.
  - intros k v k' v' Hk Hk' Hn. destruct (decide (k' = k0)) as [->|Hne].
    + assert (v' = v0) as -> by congruence. apply (Hmin (k, v)). rewrite iter_perm, elem_of_map_to_list.
      apply (lookup_weaken _ _ _ _ Hk). etrans; [exact IH1|apply delete_subseteq].
    + apply (IH3 k v k' v' Hk); [by rewrite lookup_delete_ne|done].
Qed.

(** The cache of rejections is bounded after a clean-up, which keeps only young entries and
    drops the oldest first. *)
Theorem cleanup_rejected_spec now p max_age :
  let r := rejected p in let r' := rejected (cleanup_rejected now p max_age) in
  let young (v : string * Z) := sat_sub now v.2 / NANOS_PER_SEC < max_age in
  Z.of_nat (size r') ≤ REJECT_CACHE_SIZE ∧
  (∀ k v, r' !! k = Some v → r !! k = Some v ∧ young v) ∧
  (∀ k v k' v', r' !! k = Some v → r !! k' = Some v' → young v' → r' !! k' = None → v'.2 ≤ v.2).
Proof.
  cbn. set (f := filter _ (rejected p)).
  destruct (trim_rejected_spec (size f) f) as (H1' & H2' & H3'). split_and!.
  - apply H2'. unfold REJECT_CACHE_SIZE. lia.
  - intros k v Hk. apply (lookup_weaken _ _ _ _ Hk), map_lookup_filter_Some in H1' as [? ?]. done.
  - intros k v k' v' Hk Hk' Hy Hn. apply (H3' k v k' v' Hk); [|done].
    by apply map_lookup_filter_Some.
Qed.
End rejections.

Section witnesses.
#[local] Existing Instance canonical_iter.
#[local] Existing Instance model_externals.

(** A codec with its laws, for the witnesses. *)
Definition model_pool_codec : PoolCodec := {|
  entry_to_vec tx fee fin := Some [Zpos (countable.encode (tx, fee, fin))];
  entry_from_slice b :=
    match b with
    | [Zpos n] => (λ x : Transaction * Z * bool, mkJsonEntry (Some x.1.1) (Some x.1.2) (Some x.2))
                    <$> countable.decode n
    | _ => None
    end;
|}.
Lemma model_pool_codec_laws : @PoolCodecLaws model_pool_codec.
Proof.
  split.
  - intros tx fee fin. by eexists.
  - intros tx fee fin b [= <-]. cbn [entry_from_slice model_pool_codec].
    by rewrite countable.decode_encode.
Defined.
#[local] Existing Instance model_pool_codec.

(** Transactions told apart by their time stamps. *)
Definition w_tx (n : Z) : Transaction :=
  mkTransaction 1 [mkTxInput (mkOutPoint [n] 0) [] 0] [mkTxOutput 5 [1]] 0 n None None.

Definition w_pool1 : TransactionPool := pool_run (new_pool ∅) [PAdd 1 (w_tx 1) 10 None].

Lemma add_pending_spec_witness :
  (add_pending_with_submitter 2 w_pool1 (w_tx 2) 20 None).2 = Ok tt ∧
  pending (add_pending_with_submitter 2 w_pool1 (w_tx 2) 20 None).1 =
    <[txid (w_tx 2) := mkPoolEntry (w_tx 2) 20 2 (serialized_size (w_tx 2)) None]> (pending w_pool1).
Proof.
  assert ((MAX_POOL_SIZE <=? pending_count w_pool1)
    || (MAX_POOL_BYTES <? add64 (pending_bytes w_pool1) (serialized_size (w_tx 2))) = false) as Hf
    by (vm_compute; reflexivity).
  pose proof (add_pending_spec 2 w_pool1 (w_tx 2) 20 None) as Hs.
  rewrite Hf in Hs. cbv zeta in Hs.
  destruct (add_pending_with_submitter 2 w_pool1 (w_tx 2) 20 None) as [p' r].
  apply Hs; [apply pool_run_inv, new_pool_inv|vm_compute; reflexivity..].
Defined.
End witnesses.
