(* ===== verification/PoolPersist.v ===== *)
(** * The transaction pool: persistence

    With write-through on, the mempool tree mirrors the two maps of the pool, and a
    node that restarts on that tree has the same transactions and fees. *)

From Stdlib Require Import ZArith Lia Ascii String.
From stdpp Require Import base gmap strings list sorting.
From S2P Require Import Prelude Types Address Instances TransactionPool PoolProofs.

Section mirror.
Context `{Externals} `{MapIter} `{PoolCodecLaws}.
Implicit Types p : TransactionPool.

Definition enc (fin : bool) (e : PoolEntry) : bytes :=
  default [] (entry_to_vec (pe_tx e) (pe_fee e) fin).
Lemma enc_spec fin e : entry_to_vec (pe_tx e) (pe_fee e) fin = Some (enc fin e).
Proof. unfold enc. by destruct (entry_to_vec_total (pe_tx e) (pe_fee e) fin) as [b ->]. Qed.
Lemma enc_read fin e :
  entry_from_slice (enc fin e) = Some (mkJsonEntry (Some (pe_tx e)) (Some (pe_fee e)) (Some fin)).
Proof. apply entry_from_to, enc_spec. Qed.
Lemma stored_finalized_enc fin e : stored_finalized (enc fin e) = fin.
Proof. unfold stored_finalized. by rewrite enc_read. Qed.

(** What the tree should hold at a key. *)
Definition stored p (t : Hash256) : option bytes :=
  match pending p !! t with
  | Some e => Some (enc false e)
  | None => enc true <$> confirmed p !! t
  end.
Record mirror p : Prop := mkMirror {
  mi_enabled : sled_enabled p = true;
  mi_loading : loading p = false;
  mi_tree : ∀ t, sled_tree p !! t = stored p t;
}.

Lemma mirror_persist_enabled p t tx fee fin :
  mirror p → sled_persist p t tx fee fin =
    set_tree (<[t := default [] (entry_to_vec tx fee fin)]> (sled_tree p)) p.
Proof.
  intros [He Hl _]. unfold sled_persist. rewrite He, Hl.
  by destruct (entry_to_vec_total tx fee fin) as [b ->].
Qed.
Lemma mirror_remove_enabled p t : mirror p → sled_remove p t = set_tree (delete t (sled_tree p)) p.
Proof. intros [He _ _]. unfold sled_remove. by rewrite He. Qed.

(** A key that is in neither map may be removed from the tree. *)
Lemma mirror_remove_absent p t :
  mirror p → pending p !! t = None → confirmed p !! t = None → mirror (sled_remove p t).
Proof.
  intros Hm Hp Hc. rewrite mirror_remove_enabled by done. destruct Hm as [He Hl Ht].
  split; cbn; [done..|]. intros k. rewrite lookup_delete. unfold stored; cbn.
  case_decide; [subst; by rewrite Hp, Hc|apply Ht].
Qed.
Lemma mirror_same p p' :
  same_pools p p' → sled_enabled p' = sled_enabled p → loading p' = loading p →
  (∀ k, sled_tree p' !! k = sled_tree p !! k) → mirror p → mirror p'.
Proof.
  intros (E1 & E2 & _ & _) E3 E4 E5 [He Hl Ht]. split; [by rewrite E3|by rewrite E4|].
  intros k. rewrite E5, Ht. unfold stored. by rewrite E1, E2.
Qed.

(** The tree follows the removal of a pending entry. *)
Lemma mirror_take p t :
  mirror p → confirmed p !! t = None → mirror (sled_remove (take_pending p t).1 t).
Proof.
  intros Hm Hc. unfold take_pending. destruct (pending p !! t) as [e|] eqn:E; cbn.
  - destruct Hm as [He Hl Ht]. unfold sled_remove. cbn. rewrite He. split; cbn; [done..|].
    intros k. unfold stored. cbn. rewrite !lookup_delete. case_decide; [subst; by rewrite Hc|apply Ht].
  - by apply mirror_remove_absent.
Qed.
Lemma mirror_take_some p t e :
  pool_inv p → mirror p → pending p !! t = Some e → mirror (sled_remove (take_pending p t).1 t).
Proof.
  intros Hi Hm E. apply mirror_take; [done|]. by eapply map_disjoint_Some_l; [apply Hi|].
Qed.
(** ... and of a confirmed one. *)
Lemma mirror_delete_confirmed p t :
  mirror p → pending p !! t = None → mirror (sled_remove (set_confirmed (delete t (confirmed p)) p) t).
Proof.
  intros [He Hl Ht] Hp. unfold sled_remove. cbn. rewrite He. split; cbn; [done..|]. intros k.
  unfold stored. cbn. rewrite !lookup_delete. case_decide; [subst; by rewrite Hp|apply Ht].
Qed.
Lemma mirror_insert_pending p t e : mirror p → mirror (insert_pending p t e).
Proof.
  intros Hm. unfold insert_pending. rewrite mirror_persist_enabled by done.
  destruct Hm as [He Hl Ht]. split; cbn; [done..|]. intros k. unfold stored. cbn.
  rewrite !lookup_insert. case_decide; [done|apply Ht].
Qed.
Lemma mirror_insert_confirmed p t e :
  mirror p → pending p !! t = None →
  mirror (set_confirmed (<[t := e]> (confirmed (sled_persist p t (pe_tx e) (pe_fee e) true)))
            (sled_persist p t (pe_tx e) (pe_fee e) true)).
Proof.
  intros Hm Hp. rewrite mirror_persist_enabled by done. destruct Hm as [He Hl Ht].
  split; cbn; [done..|]. intros k. unfold stored. cbn. rewrite !lookup_insert.
  case_decide; [subst; by rewrite Hp|apply Ht].
Qed.

(** A loop of steps that keep the invariant and the mirror. *)
Lemma foldl_mirror {A B} (f : A → B → A) (pool : A → TransactionPool) l a :
  (∀ a b, pool_inv (pool a) → pool_inv (pool (f a b))) →
  (∀ a b, pool_inv (pool a) → mirror (pool a) → mirror (pool (f a b))) →
  pool_inv (pool a) → mirror (pool a) → mirror (pool (foldl f a l)).
Proof.
  intros Hfi Hfm Hi Hm.
  apply (foldl_preserve f (λ a, pool_inv (pool a) ∧ mirror (pool a))); [|done]. naive_solver.
Qed.

Lemma take_pending_cases p t :
  (∃ e, pending p !! t = Some e ∧ (take_pending p t).2 = Some e) ∨
  (pending p !! t = None ∧ take_pending p t = (p, None)).
Proof. unfold take_pending. destruct (pending p !! t) eqn:E; [left; eauto|by right]. Qed.

Lemma mirror_evict_step acc te : pool_inv acc.1 → mirror acc.1 → mirror (evict_step acc te).1.
Proof.
  intros Hi Hm. unfold evict_step. destruct (take_pending_cases acc.1 te.1) as [(e & E & E2)|[E ->]]; [|done].
  pose proof (mirror_take_some acc.1 te.1 e Hi Hm E) as Hr.
  destruct (take_pending acc.1 te.1) as [p' o]. cbn in *. by subst o.
Qed.
Lemma mirror_cleanup_step acc t : pool_inv acc.1 → mirror acc.1 → mirror (cleanup_step acc t).1.
Proof.
  intros Hi Hm. unfold cleanup_step. destruct (take_pending_cases acc.1 t) as [(e & E & E2)|[E ->]]; [|done].
  pose proof (mirror_take_some acc.1 t e Hi Hm E) as Hr.
  destruct (take_pending acc.1 t) as [p' o]. cbn in *. by subst o.
Qed.
Lemma mirror_purge_pending_step acc t : pool_inv acc.1 → mirror acc.1 → mirror (purge_pending_step acc t).1.
Proof.
  intros Hi Hm. unfold purge_pending_step.
  destruct (take_pending_cases acc.1 t) as [(e & E & E2)|[E ->]]; [|done].
  pose proof (mirror_take_some acc.1 t e Hi Hm E) as Hr.
  destruct (take_pending acc.1 t) as [p' o]. cbn in *. by subst o.
Qed.
Lemma mirror_purge_confirmed_step acc t :
  pool_inv acc.1 → mirror acc.1 → mirror (purge_confirmed_step acc t).1.
Proof.
  intros Hi Hm. unfold purge_confirmed_step. destruct (confirmed acc.1 !! t) eqn:E; [|done].
  apply mirror_delete_confirmed; [done|]. by eapply map_disjoint_Some_r; [apply Hi|].
Qed.
Lemma foldl_delete_confirmed_sub l p :
  let p' := foldl (λ p t, sled_remove (set_confirmed (delete t (confirmed p)) p) t) p l in
  mirror p → (∀ t, t ∈ l → pending p !! t = None) → mirror p'.
Proof.
  revert p. induction l as [|t l IH]; intros p; cbn; [done|]. intros Hm Hn. apply IH.
  - apply mirror_delete_confirmed; [done|]. apply Hn. set_solver.
  - intros t' Ht'. destruct (same_remove (set_confirmed (delete t (confirmed p)) p) t) as [-> _].
    apply Hn. set_solver.
Qed.
Lemma purge_block_only_mirror f p :
  pool_inv p → mirror p → mirror (purge_block_only_finalized f p).1.
Proof.
  intros Hi Hm. apply foldl_delete_confirmed_sub; [done|].
  intros t ([t' e] & -> & [_ Hin]%list_elem_of_filter)%list_elem_of_fmap.
  rewrite iter_perm, elem_of_map_to_list in Hin. by eapply map_disjoint_Some_r; [apply Hi|].
Qed.
Lemma mirror_evict p n : pool_inv p → mirror p → mirror (evict_low_fee_transactions p n).1.
Proof.
  intros Hi Hm. unfold evict_low_fee_transactions. case_bool_decide; [done|].
  pose proof (foldl_mirror evict_step fst (take n (by_priority p)) (p, 0)
    inv_evict_step mirror_evict_step Hi Hm) as Hf. by destruct (foldl _ _ _).
Qed.

Lemma banned_absent p t :
  pool_inv p → is_banned t = true → pending p !! t = None ∧ confirmed p !! t = None.
Proof.
  intros Hi Hb. split; apply eq_None_not_Some; intros [e He];
    [apply (pi_pending p Hi) in He as (_ & ? & _)|apply (pi_confirmed p Hi) in He as (_ & ? & _)];
    congruence.
Qed.

(** The operations that keep the mirror: a rejection is of a transaction that is
    not confirmed, a refused block-only transaction is not in the pool, and the
    tree is not reloaded. *)
Definition safe_op p (o : pool_op) : Prop :=
  match o with
  | PAdd _ tx _ _ | PAddFinalized _ tx _ =>
      is_block_only_tx tx = true → has_transaction p (txid tx) = false
  | PReject _ t _ => confirmed p !! t = None
  | PLoad _ => False
  | _ => True
  end.
Fixpoint safe_run p (os : list pool_op) : Prop :=
  match os with
  | [] => True
  | o :: os => safe_op p o ∧ safe_run (pool_exec p o) os
  end.

Lemma has_transaction_false p t :
  has_transaction p t = false → pending p !! t = None ∧ confirmed p !! t = None.
Proof. unfold has_transaction. rewrite orb_false_iff. intros [? ?]. split; by apply contains_false. Qed.

Lemma mirror_add now p tx fee ip :
  safe_op p (PAdd now tx fee ip) → pool_inv p → mirror p →
  mirror (add_pending_with_submitter now p tx fee ip).1.
Proof.
  intros Hs Hi Hm. unfold add_pending_with_submitter.
  destruct (is_banned (txid tx)) eqn:Hb; [apply mirror_remove_absent; by destruct (banned_absent p _ Hi Hb)|].
  destruct (is_block_only_tx tx) eqn:Ho; cbn in Hs.
  { apply mirror_remove_absent; [done|..]; by apply has_transaction_false; auto. }
  destruct (_ || _); [done|]. destruct (duplicate_dereg p tx); [done|]. case_bool_decide; [done|].
  destruct ((MAX_POOL_SIZE <=? _) || _); [|by apply mirror_insert_pending].
  destruct (pressure_above p 8 10); [|done]. pose proof (mirror_evict p 1 Hi Hm) as He.
  destruct (evict_low_fee_transactions p 1) as [p' [z|er]]; [by apply mirror_insert_pending|done].
Qed.
Lemma mirror_add_finalized now p tx fee :
  safe_op p (PAddFinalized now tx fee) → pool_inv p → mirror p → mirror (add_finalized_direct now p tx fee).
Proof.
  intros Hs Hi Hm. unfold add_finalized_direct.
  destruct (is_banned (txid tx)) eqn:Hb; [apply mirror_remove_absent; by destruct (banned_absent p _ Hi Hb)|].
  destruct (is_block_only_tx tx) eqn:Ho; cbn in Hs.
  { apply mirror_remove_absent; [done|..]; by apply has_transaction_false; auto. }
  destruct (contains (pending p) (txid tx)) eqn:Hp; [done|]. destruct (contains (confirmed p) _); [done|].
  apply (mirror_insert_confirmed p (txid tx) (mkPoolEntry tx fee now (serialized_size tx) None) Hm).
  by apply contains_false.
Qed.
Lemma mirror_confirm p t : pool_inv p → mirror p → mirror (confirm_transaction p t).1.
Proof.
  intros Hi Hm. unfold confirm_transaction. destruct (is_banned t) eqn:Hb.
  { apply mirror_take; [done|]. by destruct (banned_absent p t Hi Hb). }
  unfold take_pending. destruct (pending p !! t) as [e|] eqn:E; [|done]. cbn.
  destruct Hm as [He Hl Ht]. unfold sled_persist. cbn. rewrite He, Hl, enc_spec.
  split; cbn; [done..|]. intros k. unfold stored. cbn. rewrite !lookup_insert, lookup_delete.
  case_decide; [done|apply Ht].
Qed.
Lemma mirror_clear_finalized p : pool_inv p → mirror p → mirror (clear_finalized p).
Proof.
  intros Hi [He Hl Ht]. unfold clear_finalized. cbn. rewrite He. split; cbn; [done..|]. intros k.
  specialize (Ht k). unfold stored in *. cbn. rewrite lookup_empty.
  destruct (pending p !! k) as [e|]; cbn.
  - apply map_lookup_filter_Some. split; [done|]. cbn. rewrite stored_finalized_enc. exact I.
  - apply map_lookup_filter_None. destruct (confirmed p !! k) as [e|]; cbn in Ht; [right|by left].
    intros b Hb. rewrite Ht in Hb. injection Hb as <-. cbn. rewrite stored_finalized_enc. by intros [].
Qed.
Lemma mirror_archive_one p t : pool_inv p → mirror p → mirror (archive_one p t).
Proof.
  intros Hi Hm. unfold archive_one. set (p1 := match confirmed p !! t with Some _ => _ | None => p end).
  assert (pool_inv p1 ∧ mirror p1) as [Hi1 Hm1].
  { unfold p1. destruct (confirmed p !! t) eqn:E; [|done]. split.
    - by apply inv_sled_remove, inv_delete_confirmed.
    - apply mirror_delete_confirmed; [done|]. by eapply map_disjoint_Some_r; [apply Hi|]. }
  destruct (take_pending_cases p1 t) as [(e & E & E2)|[E ->]]; [|done].
  pose proof (mirror_take_some p1 t e Hi1 Hm1 E) as Hr.
  destruct (take_pending p1 t) as [p' o]. cbn in *. by subst o.
Qed.
Lemma mirror_update_fee p t fee : mirror p → mirror (update_pending_fee p t fee).1.
Proof.
  intros Hm. unfold update_pending_fee. destruct (pending p !! t) as [e|] eqn:E; [|done].
  destruct (pe_fee e =? fee); [done|]. cbn. destruct Hm as [He Hl Ht].
  unfold sled_persist. cbn. rewrite He, Hl.
  pose proof (enc_spec false (mkPoolEntry (pe_tx e) fee (added_at e) (pe_size e) (submitter_ip e))) as Hx.
  cbn in Hx. rewrite Hx. split; cbn; [done..|]. intros k. unfold stored. cbn. rewrite !lookup_insert.
  case_decide; [done|apply Ht].
Qed.
Lemma mirror_drop_banned p t : pool_inv p → mirror p → mirror (drop_banned p t).1.
Proof.
  intros Hi [He Hl Ht]. unfold drop_banned, take_pending.
  destruct (pending p !! t) as [e|] eqn:E; unfold sled_remove; cbn; rewrite He; (split; cbn; [done..|]);
    intros k; unfold stored; cbn; rewrite !lookup_delete; (case_decide; [subst; by rewrite ?E|apply Ht]).
Qed.

(** Saving again what the tree already holds. *)
Lemma save_fold fin m tree k :
  foldl (save_step fin) tree (iter m) !! k =
    match m !! k with Some e => Some (enc fin e) | None => tree !! k end.
Proof.
  assert (∀ (l : list (Hash256 * PoolEntry)) tree', NoDup l.*1 →
    foldl (save_step fin) tree' l !! k =
      match (list_to_map l : gmap Hash256 PoolEntry) !! k with
      | Some e => Some (enc fin e) | None => tree' !! k end) as Hf.
  { induction l as [|[t e] l IH]; intros tree' Hnd; [done|].
    apply NoDup_cons in Hnd as [Hn Hnd]. cbn [foldl]. rewrite IH by done. cbn.
    unfold save_step. cbn. rewrite enc_spec, !lookup_insert.
    case_decide; [subst|done]. by rewrite not_elem_of_list_to_map_1. }
  rewrite Hf.
  - assert (list_to_map (iter m) = m) as ->; [|done].
    rewrite <-(list_to_map_to_list m) at 2. apply list_to_map_proper; [|apply iter_perm].
    rewrite iter_perm. apply NoDup_fst_map_to_list.
  - rewrite iter_perm. apply NoDup_fst_map_to_list.
Qed.
Lemma mirror_save p : pool_inv p → mirror p → mirror (save_to_sled p).
Proof.
  intros Hi [He Hl Ht]. split; [done..|]. intros k. unfold save_to_sled. cbn.
  rewrite !save_fold, Ht. unfold stored. cbn.
  destruct (confirmed p !! k) as [e|] eqn:Ec; [|by destruct (pending p !! k)].
  by rewrite (map_disjoint_Some_r _ _ _ _ (pi_disjoint p Hi) Ec).
Qed.

Lemma mirror_exec p o : safe_op p o → pool_inv p → mirror p → mirror (pool_exec p o).
Proof.
  intros Hs Hi Hm. destruct o; cbn [pool_exec];
    auto using mirror_add, mirror_add_finalized, mirror_confirm, mirror_clear_finalized,
      mirror_update_fee, mirror_evict, mirror_drop_banned, mirror_save.
  - by eapply (mirror_same (sled_remove (take_pending p t).1 t)), mirror_take.
  - by apply (foldl_mirror archive_one id); [apply inv_archive_one|apply mirror_archive_one|..].
  - by apply (foldl_mirror cleanup_step fst); [apply inv_cleanup_step|apply mirror_cleanup_step|..].
  - by eapply mirror_same, Hm.
  - apply (foldl_mirror purge_confirmed_step fst);
      [apply inv_purge_confirmed_step|apply mirror_purge_confirmed_step|..].
    + by apply (foldl_preserve purge_pending_step (λ acc, pool_inv acc.1)); [apply inv_purge_pending_step|].
    + by apply (foldl_mirror purge_pending_step fst);
        [apply inv_purge_pending_step|apply mirror_purge_pending_step|..].
  - by apply purge_block_only_mirror.
  - done.
  - by destruct Hm.
Qed.

Lemma mirror_run p os : safe_run p os → pool_inv p → mirror p → mirror (pool_run p os).
Proof.
  revert p. induction os as [|o os IH]; intros p Hs Hi Hm; [done|]. destruct Hs as [Ho Hs].
  apply IH; [done|by apply pool_exec_inv|by apply mirror_exec].
Qed.

(** With persistence on, the database mirrors the pool after every operation: the stored
    entry of each txid is the encoding of its pool entry with its finalized flag, for
    histories that do not re-submit a held transaction as block-only, reject a finalized
    one, or load. *)
Theorem write_through_mirrors os :
  safe_run (enable_persistence (new_pool ∅)) os →
  let p := pool_run (enable_persistence (new_pool ∅)) os in
  ∀ t, sled_tree p !! t = stored p t.
Proof.
  intros Hs. apply mirror_run; [done| |].
  - apply (inv_same_pools (new_pool ∅)); [done|apply new_pool_inv].
  - by split.
Qed.
End mirror.

(** ** Restart *)

Section restart.
Context `{Externals} `{MapIter} `{PoolCodecLaws}.
Implicit Types p q : TransactionPool.

(** What of an entry is on disk. *)
Definition core (e : PoolEntry) : Transaction * Z := (pe_tx e, pe_fee e).
Abbreviation cores m := (core <$> m).
Definition weight (c : gmap Hash256 (Transaction * Z)) : Z :=
  sumZ ((λ x : Hash256 * (Transaction * Z), serialized_size x.2.1) <$> map_to_list c).

Lemma weight_mono c1 c2 : c1 ⊆ c2 → weight c1 ≤ weight c2.
Proof.
  intros (l & Hl)%map_to_list_submseteq%submseteq_Permutation. unfold weight. rewrite Hl, fmap_app, sumZ_app.
  assert (0 ≤ sumZ ((λ x : Hash256 * (Transaction * Z), serialized_size x.2.1) <$> l)); [|lia].
  apply sumZ_nonneg, Forall_fmap, Forall_forall. intros x _. cbn. unfold serialized_size. lia.
Qed.
Lemma weight_insert c t x : c !! t = None → weight (<[t := x]> c) = serialized_size x.1 + weight c.
Proof. intros Ht. unfold weight. by rewrite map_to_list_insert. Qed.
Lemma sizes_weight m : map_Forall entry_ok m → sumZ (sizes m) = weight (cores m).
Proof.
  induction m as [|t e m Ht IH] using map_ind; intros Hm.
  { unfold sizes, weight. by rewrite fmap_empty, !map_to_list_empty. }
  apply map_Forall_insert in Hm as [(_ & _ & _ & He) Hm]; [|done].
  rewrite fmap_insert, weight_insert, sizes_insert, IH, He; [done..|by rewrite lookup_fmap, Ht].
Qed.

(** The reload [q] has restored the keys in [done] of the pool [p]. *)
Record restoring p (dn : gset Hash256) q : Prop := mkRestoring {
  rs_inv : pool_inv q;
  rs_rejected : rejected q = ∅;
  rs_pending : ∀ t, core <$> pending q !! t = if decide (t ∈ dn) then core <$> pending p !! t else None;
  rs_confirmed : ∀ t, core <$> confirmed q !! t = if decide (t ∈ dn) then core <$> confirmed p !! t else None;
}.

Lemma restoring_subset p dn q : restoring p dn q → cores (pending q) ⊆ cores (pending p).
Proof.
  intros Hr. apply map_subseteq_spec. intros t c. rewrite !lookup_fmap, (rs_pending p dn q Hr t).
  by case_decide.
Qed.
Lemma restoring_absent p dn q t :
  restoring p dn q → t ∉ dn → pending q !! t = None ∧ confirmed q !! t = None.
Proof.
  intros [_ _ Hp Hc] Ht. specialize (Hp t). specialize (Hc t). rewrite !decide_False in * by done.
  split; by apply fmap_None in Hp, Hc.
Qed.

(** Adding [t] to the restored keys. *)
Lemma decide_union (A : Type) (t t' : Hash256) (dn : gset Hash256) (x y : A) :
  (if decide (t' ∈ {[t]} ∪ dn) then x else y) =
    if decide (t' = t) then x else if decide (t' ∈ dn) then x else y.
Proof. repeat case_decide; set_solver. Qed.

Lemma load_not_duplicate p dn q t e :
  pool_inv p → restoring p dn q → t ∉ dn → pending p !! t = Some e →
  duplicate_dereg q (pe_tx e) = false.
Proof.
  intros Hi Hr Ht He. destruct (restoring_absent p dn q t Hr Ht) as [Hp _].
  unfold duplicate_dereg. destruct (dereg_slot (pe_tx e)) as [s|] eqn:Es; [|done].
  apply not_true_is_false. intros ([t' e'] & Hin & Hs%bool_decide_eq_true)%existsb_exists.
  apply list_elem_of_In in Hin. rewrite iter_perm, elem_of_map_to_list in Hin.
  assert (cores (pending p) !! t' = Some (core e')) as Hl
    by (eapply lookup_weaken; [|exact (restoring_subset p dn q Hr)]; by rewrite lookup_fmap, Hin).
  rewrite lookup_fmap, fmap_Some in Hl. destruct Hl as (e0 & He0 & [= Hcore _]).
  assert (t = t') as <-; [|congruence]. apply (pi_slots p Hi t t' e e0 s); try done. by rewrite <-Hcore.
Qed.

Lemma load_has_room p dn q t e :
  pool_inv p → sumZ (sizes (pending p)) ≤ MAX_POOL_BYTES → restoring p dn q → t ∉ dn →
  pending p !! t = Some e →
  (MAX_POOL_SIZE <=? pending_count q)
    || (MAX_POOL_BYTES <? add64 (pending_bytes q) (serialized_size (pe_tx e))) = false.
Proof.
  intros Hi Hb Hr Ht He. destruct (restoring_absent p dn q t Hr Ht) as [Hp _].
  assert (cores (<[t := e]> (pending q)) ⊆ cores (pending p)) as Hsub.
  { rewrite fmap_insert. apply insert_subseteq_l; [by rewrite lookup_fmap, He|].
    by eapply restoring_subset. }
  pose proof (map_subseteq_size _ _ Hsub) as Hsz. rewrite !map_size_fmap in Hsz.
  rewrite map_size_insert_None in Hsz by done.
  pose proof (weight_mono _ _ Hsub) as Hw. rewrite fmap_insert, weight_insert in Hw
    by by rewrite lookup_fmap, Hp.
  rewrite <-!sizes_weight in Hw by (apply Hi || apply Hr). cbn in Hw.
  assert (0 ≤ serialized_size (pe_tx e)) by (unfold serialized_size; lia).
  assert (0 ≤ sumZ (sizes (pending q))).
  { rewrite sizes_weight by apply Hr. apply sumZ_nonneg, Forall_fmap, Forall_forall.
    intros x _. cbn. unfold serialized_size. lia. }
  destruct (rs_inv p dn q Hr) as [_ _ _ Hn _ Hbq _]. pose proof (pi_max p Hi).
  rewrite Hn, Hbq, (Z.mod_small (sumZ _)) by (unfold MAX_POOL_BYTES, U64 in *; lia).
  rewrite add64_small by (unfold MAX_POOL_BYTES, U64 in *; lia). lia.
Qed.

Lemma load_pending now p dn q t e :
  pool_inv p → sumZ (sizes (pending p)) ≤ MAX_POOL_BYTES → restoring p dn q → t ∉ dn →
  pending p !! t = Some e →
  ∃ q', add_pending now q (pe_tx e) (pe_fee e) = (q', Ok tt) ∧ restoring p ({[t]} ∪ dn) q'.
Proof.
  intros Hi Hb Hr Ht He. destruct (restoring_absent p dn q t Hr Ht) as [Hp Hc].
  destruct (pi_pending p Hi t e He) as (Htx & Hban & Hbo & Hsz).
  pose proof (inv_add_pending now q (pe_tx e) (pe_fee e) None (rs_inv p dn q Hr)) as Hiq'.
  unfold add_pending, add_pending_with_submitter, contains in *.
  rewrite Htx, Hban, Hbo, Hp, Hc, (load_not_duplicate p dn q t e), (load_has_room p dn q t e),
    (rs_rejected p dn q Hr), lookup_empty in * by done.
  cbn [orb] in *. eexists. split; [done|].
  unfold insert_pending in *. set (e' := mkPoolEntry (pe_tx e) (pe_fee e) now _ None) in *.
  destruct (same_persist q t (pe_tx e) (pe_fee e) false) as (F1 & F2 & _).
  split; [done|..]; cbn.
  - unfold sled_persist. split_matches; apply Hr.
  - intros t'. rewrite F1, decide_union, lookup_insert. destruct (decide (t' = t)) as [->|Hne].
    + rewrite decide_True by done. by rewrite He.
    + rewrite decide_False by done. apply Hr.
  - intros t'. rewrite F2, decide_union, (rs_confirmed p dn q Hr). destruct (decide (t' = t)) as [->|]; [|done].
    rewrite decide_False by done. by rewrite (map_disjoint_Some_l _ _ _ _ (pi_disjoint p Hi) He).
Qed.

Lemma load_confirmed now p dn q t e :
  pool_inv p → restoring p dn q → t ∉ dn → confirmed p !! t = Some e →
  restoring p ({[t]} ∪ dn) (add_finalized_direct now q (pe_tx e) (pe_fee e)).
Proof.
  intros Hi Hr Ht He. destruct (restoring_absent p dn q t Hr Ht) as [Hp Hc].
  destruct (pi_confirmed p Hi t e He) as (Htx & Hban & Hbo & Hsz).
  pose proof (inv_add_finalized now q (pe_tx e) (pe_fee e) (rs_inv p dn q Hr)) as Hiq'.
  unfold add_finalized_direct, contains in *. rewrite Htx, Hban, Hbo, Hp, Hc in *. cbn [orb] in *.
  destruct (same_persist q t (pe_tx e) (pe_fee e) true) as (F1 & F2 & _).
  split; [done|..]; cbn.
  - unfold sled_persist. split_matches; apply Hr.
  - intros t'. rewrite F1, decide_union, (rs_pending p dn q Hr). destruct (decide (t' = t)) as [->|]; [|done].
    rewrite decide_False by done. by rewrite (map_disjoint_Some_r _ _ _ _ (pi_disjoint p Hi) He).
  - intros t'. rewrite F2, decide_union, lookup_insert. destruct (decide (t' = t)) as [->|Hne].
    + rewrite decide_True by done. by rewrite He.
    + rewrite decide_False by done. apply Hr.
Qed.

Lemma load_fold now p l dn q r :
  pool_inv p → sumZ (sizes (pending p)) ≤ MAX_POOL_BYTES → NoDup l.*1 →
  (∀ t b, (t, b) ∈ l → stored p t = Some b ∧ t ∉ dn) → restoring p dn q →
  ∃ q', foldl (load_step now) (q, r, []) l = (q', r + Z.of_nat (length l), []) ∧
    restoring p (list_to_set l.*1 ∪ dn) q'.
Proof.
  intros Hi Hb. revert dn q r. induction l as [|[t b] l IH]; intros dn q r Hnd Hl Hr.
  { exists q. rewrite Z.add_0_r. split; [done|]. by replace (list_to_set _ ∪ dn) with dn by set_solver. }
  apply NoDup_cons in Hnd as [Hn Hnd]. destruct (Hl t b ltac:(set_solver)) as [Hs Ht].
  assert (∃ q1, load_step now (q, r, []) (t, b) = (q1, r + 1, []) ∧ restoring p ({[t]} ∪ dn) q1)
    as (q1 & E & Hr1).
  { unfold stored in Hs. unfold load_step. cbn [snd].
    destruct (pending p !! t) as [e|] eqn:Ep.
    - injection Hs as <-. rewrite enc_read. cbn [je_tx je_fee je_is_finalized default]. destruct (pi_pending p Hi t e Ep) as (Htx & Hban & _). rewrite Htx, Hban.
      destruct (load_pending now p dn q t e) as (q1 & Ha & ?); [done..|]. exists q1. split; [|done].
      cbn [default from_option id]. by rewrite Ha.
    - apply fmap_Some in Hs as (e & Ec & ->). rewrite enc_read. cbn [je_tx je_fee je_is_finalized default].
      destruct (pi_confirmed p Hi t e Ec) as (Htx & Hban & _). rewrite Htx, Hban. eexists. split; [done|].
      by apply load_confirmed. }
  cbn [foldl]. rewrite E. destruct (IH ({[t]} ∪ dn) q1 (r + 1)) as (q' & E' & Hr'); [done| |done|].
  { intros t' b' Hin. destruct (Hl t' b' ltac:(set_solver)) as [? ?]. split; [done|].
    rewrite not_elem_of_union, not_elem_of_singleton. split; [|done]. intros ->. apply Hn.
    apply list_elem_of_fmap. by exists (t, b'). }
  exists q'. rewrite E'. split; [f_equal; f_equal; cbn; lia|]. cbn.
  by replace ({[t]} ∪ list_to_set l.*1 ∪ dn) with (list_to_set l.*1 ∪ ({[t]} ∪ dn)) by set_solver.
Qed.

(** A restart on a mirrored database whose pending bytes fit restores the pool: the same
    pending and finalized transactions with their fees and sizes come back, all are counted,
    and the pool invariant holds. *)
Theorem restart_restores now p :
  pool_inv p → (∀ t, sled_tree p !! t = stored p t) → sumZ (sizes (pending p)) ≤ MAX_POOL_BYTES →
  let '(q, restored) := load_from_sled now (new_pool (sled_tree p)) in
  cores (pending q) = cores (pending p) ∧ cores (confirmed q) = cores (confirmed p) ∧
  restored = Z.of_nat (size (pending p) + size (confirmed p)) ∧ pool_inv q.
Proof.
  intros Hi Ht Hb. pose proof (inv_load now _ (new_pool_inv (sled_tree p))) as Hinv.
  unfold load_from_sled in *. cbn [sled_tree new_pool] in *.
  destruct (load_fold now p (iter (sled_tree p)) ∅ (set_loading true (new_pool (sled_tree p))) 0)
    as (q & E & Hr); [done..| | | |].
  - rewrite iter_perm. apply NoDup_fst_map_to_list.
  - intros t b. rewrite iter_perm, elem_of_map_to_list, Ht. set_solver.
  - split; [|done..]. apply (inv_same_pools (new_pool (sled_tree p))); [done|apply new_pool_inv].
  - rewrite E in *. cbn [fst] in *.
    assert (∀ (A : Type) t (o : option A), (pending p !! t = None → confirmed p !! t = None → o = None) →
      (if decide (t ∈ (list_to_set (iter (sled_tree p)).*1 ∪ ∅ : gset Hash256)) then o else None) = o) as Hd.
    { intros A t o Ho. case_decide as Hin; [done|]. symmetry. rewrite right_id_L, elem_of_list_to_set in Hin by apply _.
      rewrite iter_perm in Hin. assert (sled_tree p !! t = None) as Hn.
      { apply eq_None_not_Some. intros [b Hb']. apply Hin, list_elem_of_fmap. exists (t, b).
        split; [done|]. by apply elem_of_map_to_list. }
      rewrite Ht in Hn. unfold stored in Hn. destruct (pending p !! t); [done|].
      apply Ho; [done|]. by apply fmap_None in Hn. }
    split_and!; [| | |done].
    + apply map_eq. intros t. rewrite !lookup_fmap. cbn. rewrite (rs_pending _ _ _ Hr), Hd; [done|].
      by intros ->.
    + apply map_eq. intros t. rewrite !lookup_fmap. cbn. rewrite (rs_confirmed _ _ _ Hr), Hd; [done|].
      by intros _ ->.
    + rewrite iter_perm, length_map_to_list. rewrite <-(map_size_fmap (enc false)), <-(map_size_fmap (enc true)).
      rewrite <-map_size_disj_union by (by apply map_disjoint_fmap, Hi). rewrite Z.add_0_l. do 2 f_equal.
      apply map_eq. intros t. rewrite Ht, lookup_union, !lookup_fmap. unfold stored.
      destruct (pending p !! t) eqn:Ep; cbn; [|by destruct (confirmed p !! t)].
      by rewrite (map_disjoint_Some_l _ _ _ _ (pi_disjoint p Hi) Ep).
Qed.
End restart.

Section witnesses.
#[local] Existing Instance canonical_iter.
#[local] Existing Instance model_externals.
#[local] Existing Instance model_pool_codec.
#[local] Existing Instance model_pool_codec_laws.

Definition w_history : list pool_op :=
  [PAdd 1 (w_tx 1) 10 None; PAdd 2 (w_tx 2) 20 None; PConfirm (txid (w_tx 1)); PUpdateFee (txid (w_tx 2)) 25].
Definition w_pool : TransactionPool := pool_run (enable_persistence (new_pool ∅)) w_history.

Lemma w_pool_safe : safe_run (enable_persistence (new_pool ∅)) w_history.
Proof. cbn [safe_run w_history safe_op]. by split_and!. Qed.
Lemma w_pool_inv : pool_inv w_pool.
Proof. apply pool_run_inv, (inv_same_pools (new_pool ∅)), new_pool_inv. done. Qed.

Lemma write_through_mirrors_witness :
  let p := pool_run (enable_persistence (new_pool ∅)) w_history in
  safe_run (enable_persistence (new_pool ∅)) w_history ∧ ∀ t, sled_tree p !! t = stored p t.
Proof. split; [apply w_pool_safe|]. apply write_through_mirrors. apply w_pool_safe. Defined.

Lemma restart_restores_witness :
  let '(q, restored) := load_from_sled 9 (new_pool (sled_tree w_pool)) in
  core <$> pending q = core <$> pending w_pool ∧ core <$> confirmed q = core <$> confirmed w_pool ∧
  restored = Z.of_nat (size (pending w_pool) + size (confirmed w_pool)) ∧ pool_inv q.
Proof.
  apply (restart_restores 9 w_pool).
  - apply w_pool_inv.
  - apply mirror_run; [apply w_pool_safe| |by split].
    by apply (inv_same_pools (new_pool ∅)), new_pool_inv.
  - vm_compute. discriminate.
Defined.
End witnesses.
