(* ===== verification/Reward.v ===== *)
(** * Block reward distribution (src/reward_calculator.rs)

    [compute] is the function the block producer and every validator run; its
    theorems are conservation of the reward, the shape of the payout list and
    independence of the order in which the active nodes are listed. *)

From Stdlib Require Import ZArith Lia Ascii String.
From stdpp Require Import base gmap strings list sorting.
From S2P Require Import Prelude Types.

Definition payout_addr (info : MasternodeInfo) : string :=
  if negb (str_is_empty (reward_address info)) then reward_address info
  else wallet_address (masternode info).

Record RewardInput := mkRewardInput {
  height : Z;
  producer_wallet : string;
  active_nodes : list MasternodeInfo;
  fairness_map : gmap string Z;
  fees : Z;
  total_reward : Z;
  free_tier_registered : gset string;
}.

Abbreviation rewards := (list (string * Z)) (only parsing).

(** The closure [push_reward]: merge into the entry of the address, or append. *)
Fixpoint push_reward (r : rewards) (addr : string) (amt : Z) : rewards :=
  match r with
  | [] => [(addr, amt)]
  | (a, x) :: r => if bool_decide (a = addr) then (a, add64 x amt) :: r
                   else (a, x) :: push_reward r addr amt
  end.
(** [rewards[0].1 += amt]. *)
Definition add_first (r : rewards) (amt : Z) : rewards :=
  match r with [] => [] | (a, x) :: r => (a, add64 x amt) :: r end.

(** A node with its fairness bonus. *)
Definition node_addr (n : MasternodeInfo * Z) : string := mn_address (masternode n.1).
Definition node_payout (n : MasternodeInfo * Z) : string := payout_addr n.1.

(** One round of the Sybil filter: [seen] maps the payout addresses of [deduped]
    to their positions. *)
Fixpoint dedupe_insert (deduped : list (MasternodeInfo * Z)) (n : MasternodeInfo * Z)
    : list (MasternodeInfo * Z) :=
  match deduped with
  | [] => [n]
  | d :: ds => if bool_decide (node_payout d = node_payout n)
               then (if d.2 <? n.2 then n else d) :: ds
               else d :: dedupe_insert ds n
  end.
Definition dedupe (nodes : list (MasternodeInfo * Z)) : list (MasternodeInfo * Z) :=
  foldl dedupe_insert [] nodes.

(** Highest bonus first, then by node address. *)
Definition node_leb (a b : MasternodeInfo * Z) : bool :=
  if a.2 =? b.2 then bytes_leb (str_bytes (node_addr a)) (str_bytes (node_addr b)) else b.2 <? a.2.

Definition is_tier (t : MasternodeTier) (info : MasternodeInfo) : bool :=
  bool_decide (tier (masternode info) = t).

Section compute.
Context (input : RewardInput).

Definition with_bonus (info : MasternodeInfo) : MasternodeInfo * Z :=
  (info, default 0 (fairness_map input !! mn_address (masternode info))).
Definition has_paid_tier_nodes : bool := existsb (λ mn, negb (is_tier Free mn)) (active_nodes input).
Definition apply_onchain_filter : bool := negb (bool_decide (free_tier_registered input = ∅)).
Definition onchain_ok (mn : MasternodeInfo) : bool :=
  if apply_onchain_filter
  then bool_decide (mn_address (masternode mn) ∈ free_tier_registered input) else true.
Definition sybil_active : bool := FREE_TIER_SYBIL_FORK_HEIGHT <=? height input.

(** ** All-Free mode *)

Definition free_candidates : list (MasternodeInfo * Z) :=
  with_bonus <$> filter (λ mn, is_tier Free mn && negb (str_is_empty (payout_addr mn)) && onchain_ok mn)
    (active_nodes input).
Definition free_nodes : list (MasternodeInfo * Z) :=
  sort_by node_leb (if sybil_active then dedupe free_candidates else free_candidates).

(** The payout loop: [i] counts the recipients, the last one gets the rest. *)
Fixpoint free_loop (nodes : list (MasternodeInfo * Z)) (i n : nat) (per_node distributed : Z)
    (r : rewards) : rewards :=
  match nodes with
  | [] => r
  | mn :: nodes =>
      let share := if (i =? n - 1)%nat then sat_sub (total_reward input) distributed else per_node in
      free_loop nodes (i + 1) n per_node (add64 distributed share)
        (push_reward r (node_payout mn) share)
  end.
Definition compute_all_free : rewards :=
  let recipient_count := (length free_nodes `min` MAX_FREE_TIER_RECIPIENTS)%nat in
  if (recipient_count =? 0)%nat then []
  else
    let per_node := total_reward input / Z.of_nat recipient_count in
    free_loop (take recipient_count free_nodes) 0 recipient_count per_node 0 [].

(** ** Tier-based mode *)

Definition paid_tier_wallet_set : gset string :=
  list_to_set (payout_addr <$> filter (λ mn, negb (is_tier Free mn)) (active_nodes input)).

Definition tier_eligible (t : MasternodeTier) (mn : MasternodeInfo) : bool :=
  is_tier t mn && negb (str_is_empty (payout_addr mn))
  && negb (bool_decide (payout_addr mn = producer_wallet input))
  && (if bool_decide (t = Free) then negb (bool_decide (payout_addr mn ∈ paid_tier_wallet_set)) else true)
  && (if bool_decide (t = Free) then onchain_ok mn else true).
Definition tier_candidates (t : MasternodeTier) : list (MasternodeInfo * Z) :=
  with_bonus <$> filter (tier_eligible t) (active_nodes input).
Definition tier_nodes (t : MasternodeTier) : list (MasternodeInfo * Z) :=
  sort_by node_leb (if bool_decide (t = Free) && sybil_active then dedupe (tier_candidates t)
                    else tier_candidates t).

Definition recipients (t : MasternodeTier) : nat :=
  if bool_decide (t = Free) then (length (tier_nodes t) `min` MAX_FREE_TIER_RECIPIENTS)%nat else 1%nat.

(** One round of the loop over the tiers; the state is the list and the dust. *)
Definition pay_step (per_node : Z) (acc : rewards * Z) (mn : MasternodeInfo * Z) : rewards * Z :=
  (push_reward acc.1 (node_payout mn) per_node, add64 acc.2 per_node).
Definition tier_step (acc : rewards * Z) (t : MasternodeTier) : rewards * Z :=
  let '(r, dust) := acc in
  let tier_pool := pool_allocation t in
  match tier_nodes t with
  | [] => (add_first r tier_pool, dust)
  | _ =>
      let per_node := tier_pool / Z.of_nat (recipients t) in
      let '(r, distributed) := foldl (pay_step per_node) (r, 0) (take (recipients t) (tier_nodes t)) in
      (r, add64 dust (sat_sub tier_pool distributed))
  end.
Definition compute_tiers : rewards :=
  let r := push_reward [] (producer_wallet input) (add64 PRODUCER_REWARD_SATOSHIS (fees input)) in
  let '(r, dust) := foldl tier_step (r, 0) [Gold; Silver; Bronze; Free] in
  if 0 <? dust then add_first r dust else r.

Definition compute : rewards :=
  match active_nodes input with
  | [] => []
  | _ => if negb has_paid_tier_nodes then compute_all_free else compute_tiers
  end.
End compute.

Definition normalize_step (m : gmap string Z) (e : string * Z) : gmap string Z :=
  if 0 <? e.2 then <[e.1 := add64 (default 0 (m !! e.1)) e.2]> m else m.
Definition normalize (r : rewards) : gmap string Z := foldl normalize_step ∅ r.

(** ** The payout list *)

Definition amounts (r : rewards) : Z := sumZ r.*2.
Definition amounts_ok (r : rewards) : Prop := Forall (λ e : string * Z, 0 ≤ e.2) r.

Lemma amounts_nonneg r : amounts_ok r → 0 ≤ amounts r.
Proof. intros Hr. by apply sumZ_nonneg, Forall_fmap. Qed.

Lemma amounts_cons a x r : amounts ((a, x) :: r) = x + amounts r.
Proof. done. Qed.

Lemma push_reward_sum r a x :
  amounts_ok r → 0 ≤ x → amounts r + x < U64 →
  amounts_ok (push_reward r a x) ∧ amounts (push_reward r a x) = amounts r + x.
Proof.
  intros Hr Hx. induction Hr as [|[b y] r Hy Hr IH]; intros Hb; cbn [push_reward].
  { rewrite amounts_cons. split; [by repeat constructor|done || (unfold amounts; cbn; lia)]. }
  pose proof (amounts_nonneg r Hr) as Hnn. rewrite amounts_cons in Hb. cbn [snd] in *.
  case_bool_decide; rewrite !amounts_cons.
  - rewrite add64_small by lia. split; [constructor; [cbn; lia|done]|lia].
  - destruct IH as [? ->]; [lia|]. split; [by constructor|lia].
Qed.
Lemma add_first_sum r x :
  r ≠ [] → amounts_ok r → 0 ≤ x → amounts r + x < U64 →
  amounts_ok (add_first r x) ∧ amounts (add_first r x) = amounts r + x.
Proof.
  destruct r as [|[a y] r]; [done|]. intros _ Hr Hx Hb. apply Forall_cons in Hr as [Hy Hr].
  pose proof (amounts_nonneg r Hr). cbn [add_first]. rewrite !amounts_cons in *. cbn [snd] in *.
  rewrite add64_small by lia. split; [constructor; [cbn; lia|done]|lia].
Qed.

Lemma push_reward_addrs r a x b : b ∈ (push_reward r a x).*1 ↔ b = a ∨ b ∈ r.*1.
Proof.
  induction r as [|[c y] r IH]; cbn; [set_solver|]. case_bool_decide; subst; cbn; [set_solver|].
  rewrite !elem_of_cons, IH. tauto.
Qed.
Lemma push_reward_NoDup r a x : NoDup r.*1 → NoDup (push_reward r a x).*1.
Proof.
  induction r as [|[c y] r IH]; cbn; [intros _; by apply NoDup_singleton|].
  rewrite NoDup_cons. intros [Hn Hr]. case_bool_decide; cbn; rewrite NoDup_cons; [done|].
  split; [|auto]. rewrite push_reward_addrs. naive_solver.
Qed.
Lemma add_first_addrs r x : (add_first r x).*1 = r.*1.
Proof. by destruct r as [|[a y] r]. Qed.
(** The first entry keeps its address and does not shrink. *)
Definition leads (w : string) (least : Z) (r : rewards) : Prop :=
  ∃ v r', r = (w, v) :: r' ∧ least ≤ v.
Lemma leads_push w k r a x :
  amounts_ok r → 0 ≤ x → amounts r + x < U64 → leads w k r → leads w k (push_reward r a x).
Proof.
  intros Hr Hx Hb (v & r' & -> & Hv). apply Forall_cons in Hr as [Hy Hr].
  pose proof (amounts_nonneg r' Hr). rewrite amounts_cons in Hb. cbn [push_reward snd] in *. case_bool_decide.
  - rewrite add64_small by lia. eexists _, _. split; [done|lia].
  - by eexists _, _.
Qed.
Lemma leads_add_first w k r x :
  amounts_ok r → 0 ≤ x → amounts r + x < U64 → leads w k r → leads w k (add_first r x).
Proof.
  intros Hr Hx Hb (v & r' & -> & Hv). apply Forall_cons in Hr as [Hy Hr].
  pose proof (amounts_nonneg r' Hr). rewrite amounts_cons in Hb. cbn [add_first snd] in *. rewrite add64_small by lia.
  eexists _, _. split; [done|lia].
Qed.

Lemma node_leb_total a b : node_leb a b = false → node_leb b a = true.
Proof.
  unfold node_leb. rewrite (Z.eqb_sym b.2). destruct (Z.eqb_spec a.2 b.2); [apply bytes_leb_total|]. lia.
Qed.
Lemma node_leb_trans a b c : node_leb a b → node_leb b c → node_leb a c.
Proof.
  unfold node_leb. destruct (Z.eqb_spec a.2 b.2), (Z.eqb_spec b.2 c.2), (Z.eqb_spec a.2 c.2);
    try apply bytes_leb_trans; rewrite ?Is_true_true; lia.
Qed.
Lemma node_leb_antisym a b : node_leb a b → node_leb b a → node_addr a = node_addr b.
Proof.
  unfold node_leb. rewrite (Z.eqb_sym b.2). destruct (Z.eqb_spec a.2 b.2).
  - intros H1 H2. by apply str_bytes_inj, bytes_leb_antisym.
  - rewrite !Is_true_true. lia.
Qed.

(** ** The Sybil filter *)

Lemma dedupe_insert_payouts ds n a :
  a ∈ node_payout <$> dedupe_insert ds n ↔ a = node_payout n ∨ a ∈ node_payout <$> ds.
Proof.
  induction ds as [|d ds IH]; cbn; [set_solver|]. case_bool_decide as E; cbn.
  - rewrite !elem_of_cons. destruct (d.2 <? n.2); rewrite ?E; tauto.
  - rewrite !elem_of_cons, IH. tauto.
Qed.
Lemma dedupe_insert_NoDup ds n :
  NoDup (node_payout <$> ds) → NoDup (node_payout <$> dedupe_insert ds n).
Proof.
  induction ds as [|d ds IH]; cbn; [intros _; by apply NoDup_singleton|].
  rewrite NoDup_cons. intros [Hn Hd]. case_bool_decide as E; cbn; rewrite NoDup_cons.
  - split; [|done]. destruct (d.2 <? n.2); congruence.
  - split; [|auto]. rewrite dedupe_insert_payouts. naive_solver.
Qed.
Lemma dedupe_insert_elem ds n x : x ∈ dedupe_insert ds n → x = n ∨ x ∈ ds.
Proof.
  induction ds as [|d ds IH]; cbn; [set_solver|]. case_bool_decide; rewrite !elem_of_cons; [|naive_solver].
  destruct (d.2 <? n.2); naive_solver.
Qed.
(** Every node, old or new, is covered by a survivor of its payout address. *)
Lemma dedupe_insert_covers ds n x :
  x = n ∨ x ∈ ds → ∃ y, y ∈ dedupe_insert ds n ∧ node_payout y = node_payout x ∧ x.2 ≤ y.2.
Proof.
  induction ds as [|d ds IH]; cbn; [intros [->|?%elem_of_nil]; [|done]; exists n; split_and!; [set_solver|done|lia]|].
  case_bool_decide as E.
  - intros Hx. set (k := if d.2 <? n.2 then n else d).
    assert (node_payout k = node_payout n ∧ n.2 ≤ k.2 ∧ d.2 ≤ k.2) as (Hk & Hk1 & Hk2)
      by (unfold k; destruct (Z.ltb_spec d.2 n.2); split_and!; (done || lia)).
    rewrite elem_of_cons in Hx. destruct Hx as [->|[->|Hx]];
      [exists k|exists k|exists x]; split_and!; try set_solver; try lia; congruence.
  - intros [->|[->|Hx]%elem_of_cons].
    + destruct IH as (y & ? & ? & ?); [by left|]. exists y. split_and!; [set_solver|done..].
    + exists d. split_and!; [set_solver|done|lia].
    + destruct IH as (y & ? & ? & ?); [by right|]. exists y. split_and!; [set_solver|done..].
Qed.

Lemma dedupe_fold_spec l ds :
  NoDup (node_payout <$> ds) →
  NoDup (node_payout <$> foldl dedupe_insert ds l) ∧
  (∀ x, x ∈ foldl dedupe_insert ds l → x ∈ l ∨ x ∈ ds) ∧
  (∀ x, x ∈ l ∨ x ∈ ds → ∃ y, y ∈ foldl dedupe_insert ds l ∧ node_payout y = node_payout x ∧ x.2 ≤ y.2).
Proof.
  revert ds. induction l as [|n l IH]; intros ds Hd; cbn.
  { split_and!; [done|by right|]. intros x [?%elem_of_nil|Hx]; [done|]. exists x. split_and!; [done..|lia]. }
  destruct (IH (dedupe_insert ds n) (dedupe_insert_NoDup ds n Hd)) as (IH1 & IH2 & IH3).
  split_and!; [done| |].
  - intros x [Hx|[->|Hx]%dedupe_insert_elem]%IH2; set_solver.
  - intros x Hx. assert (x ∈ l ∨ (x = n ∨ x ∈ ds)) as [Hl|Hl] by set_solver; [apply IH3; by left|].
    destruct (dedupe_insert_covers ds n x Hl) as (y & Hy & Hp & Hle).
    destruct (IH3 y) as (z & Hz & Hp' & Hle'); [by right|]. exists z. split_and!; [done|congruence|lia].
Qed.

(** ** Tier-based mode *)

Definition cap (t : MasternodeTier) : nat := if bool_decide (t = Free) then MAX_FREE_TIER_RECIPIENTS else 1%nat.

(** The payout list between two rounds of the loop: [total] is what the list, the
    dust and the pools still to come hold together. *)
Record tier_inv (total least : Z) (w : string) (rest : list MasternodeTier) (acc : rewards * Z) : Prop :=
  mkTierInv {
    ti_ok : amounts_ok acc.1;
    ti_nodup : NoDup acc.1.*1;
    ti_leads : leads w least acc.1;
    ti_dust : 0 ≤ acc.2;
    ti_sum : amounts acc.1 + acc.2 + sumZ (pool_allocation <$> rest) = total;
    ti_length : (length acc.1 + sum_list (cap <$> rest) ≤ 29)%nat;
  }.

Lemma push_reward_length r a x : (length (push_reward r a x) ≤ length r + 1)%nat.
Proof. induction r as [|[b y] r IH]; cbn; [lia|]. case_bool_decide; cbn; lia. Qed.

Lemma pay_fold per w k l r d :
  0 ≤ per → 0 ≤ d → amounts_ok r → NoDup r.*1 → leads w k r →
  amounts r + per * Z.of_nat (length l) < U64 → d + per * Z.of_nat (length l) < U64 →
  ∃ r', foldl (pay_step per) (r, d) l = (r', d + per * Z.of_nat (length l)) ∧
    amounts_ok r' ∧ NoDup r'.*1 ∧ leads w k r' ∧ amounts r' = amounts r + per * Z.of_nat (length l) ∧
    (length r' ≤ length r + length l)%nat.
Proof.
  intros Hper. revert r d. induction l as [|n l IH]; intros r d Hd Hok Hnd Hl Hb1 Hb2.
  { exists r. cbn. rewrite Z.mul_0_r, !Z.add_0_r. split_and!; try done. lia. }
  cbn [foldl length] in *. rewrite Nat2Z.inj_succ in *.
  destruct (push_reward_sum r (node_payout n) per) as [Hok1 Hs1]; [done..|nia|].
  pose proof (push_reward_length r (node_payout n) per) as Hlen.
  unfold pay_step at 2. cbn [fst snd]. rewrite add64_small by nia.
  destruct (IH (push_reward r (node_payout n) per) (d + per)) as (r' & -> & ? & ? & ? & Hs & ?);
    [lia|done|by apply push_reward_NoDup|apply leads_push; (done || nia)|nia|nia|].
  exists r'. split_and!; [f_equal; nia|done..|nia|lia].
Qed.

Section tiers.
Context (input : RewardInput).

Lemma recipients_pos t : tier_nodes input t ≠ [] → (1 ≤ recipients input t ≤ length (tier_nodes input t))%nat.
Proof.
  intros Hne. unfold recipients. destruct (tier_nodes input t); [done|].
  case_bool_decide; cbn [length]; unfold MAX_FREE_TIER_RECIPIENTS; lia.
Qed.
Lemma recipients_cap t : (recipients input t ≤ cap t)%nat.
Proof. unfold recipients, cap. case_bool_decide; lia. Qed.
Lemma pool_pos t : 0 ≤ pool_allocation t.
Proof. by destruct t. Qed.
Lemma pools_nonneg rest : 0 ≤ sumZ (pool_allocation <$> rest).
Proof. apply sumZ_nonneg, Forall_fmap, Forall_forall. intros t _. apply pool_pos. Qed.

Lemma tier_step_inv total least w t rest acc :
  total < U64 → tier_inv total least w (t :: rest) acc →
  tier_inv total least w rest (tier_step input acc t).
Proof.
  destruct acc as [r dust]. intros Htot [Hok Hnd Hl Hd Hs Hlen]. cbn [fst snd] in *.
  change (sumZ (pool_allocation <$> t :: rest)) with (pool_allocation t + sumZ (pool_allocation <$> rest)) in Hs.
  change (sum_list (cap <$> t :: rest)) with (cap t + sum_list (cap <$> rest))%nat in Hlen.
  pose proof (pools_nonneg rest). pose proof (pool_pos t). pose proof (amounts_nonneg r Hok).
  unfold tier_step. destruct (tier_nodes input t) as [|n0 ns] eqn:En.
  { assert (r ≠ []) as Hne by (by destruct Hl as (? & ? & -> & _)).
    destruct (add_first_sum r (pool_allocation t)) as [Hok' Hs']; [done..|lia|].
    split; cbn [fst snd]; [done|by rewrite add_first_addrs| |done|lia|].
    - apply leads_add_first; (done || lia).
    - replace (length (add_first r (pool_allocation t))) with (length r) by (by destruct r as [|[]]). lia. }
  rewrite <-En. pose proof (recipients_pos t ltac:(by rewrite En)) as Hr. pose proof (recipients_cap t) as Hcap.
  set (n := recipients input t) in *. set (per := pool_allocation t / Z.of_nat n).
  assert (0 ≤ per * Z.of_nat n ≤ pool_allocation t) as Hper.
  { pose proof (Z.mul_div_le (pool_allocation t) (Z.of_nat n)). pose proof (Z.div_pos (pool_allocation t) (Z.of_nat n)).
    unfold per. nia. }
  assert (0 ≤ per) by (apply Z.div_pos; lia).
  assert (length (take n (tier_nodes input t)) = n) as Hlt by (rewrite length_take; lia).
  destruct (pay_fold per w least (take n (tier_nodes input t)) r 0) as (r' & -> & ? & ? & ? & Hs' & Hlen');
    rewrite ?Hlt; try done; try lia. rewrite Hlt in *.
  unfold sat_sub. rewrite Z.add_0_l, Z.max_r by lia. rewrite add64_small by lia.
  split; cbn [fst snd]; try done; lia.
Qed.

Lemma tiers_inv total least w ts acc :
  total < U64 → tier_inv total least w ts acc → tier_inv total least w [] (foldl (tier_step input) acc ts).
Proof.
  intros Ht. revert acc. induction ts as [|t ts IH]; intros acc Hi; [done|]. by apply IH, tier_step_inv.
Qed.

Lemma compute_paid : has_paid_tier_nodes input = true → compute input = compute_tiers input.
Proof.
  unfold compute, has_paid_tier_nodes. intros Hp. rewrite Hp. by destruct (active_nodes input).
Qed.

(** Reward conservation with a paid tier active: the payouts of a block add up exactly to
    the producer bonus, the four tier pools and the fees, the producer's wallet comes first
    with at least the bonus and fees, addresses are distinct, and there are at most 29
    recipients. *)
Theorem tier_rewards_conserved :
  has_paid_tier_nodes input = true → 0 ≤ fees input →
  PRODUCER_REWARD_SATOSHIS + TOTAL_POOL_SATOSHIS + fees input < U64 →
  let r := compute input in
  amounts r = PRODUCER_REWARD_SATOSHIS + TOTAL_POOL_SATOSHIS + fees input ∧
  leads (producer_wallet input) (PRODUCER_REWARD_SATOSHIS + fees input) r ∧
  NoDup r.*1 ∧ Forall (λ e : string * Z, 0 ≤ e.2) r ∧ (length r ≤ 29)%nat.
Proof.
  intros Hp Hf Hb. cbv zeta. rewrite compute_paid by done. unfold compute_tiers.
  assert (0 ≤ PRODUCER_REWARD_SATOSHIS ∧ 0 ≤ TOTAL_POOL_SATOSHIS) as [Hnn1 Hnn2] by done.
  rewrite add64_small by lia. cbn [push_reward].
  set (start := PRODUCER_REWARD_SATOSHIS + fees input).
  assert (tier_inv (PRODUCER_REWARD_SATOSHIS + TOTAL_POOL_SATOSHIS + fees input) start
    (producer_wallet input) [Gold; Silver; Bronze; Free] ([(producer_wallet input, start)], 0)) as Hi.
  { split; cbn [fst snd]; [apply Forall_singleton; cbn; lia|by apply NoDup_singleton| |done| |change (sum_list _) with 28%nat; cbn; lia].
    - by eexists _, _.
    - rewrite amounts_cons. change (sumZ _) with TOTAL_POOL_SATOSHIS.
      change (amounts []) with 0. unfold start. lia. }
  apply tiers_inv in Hi; [|done]. destruct (foldl _ _ _) as [r dust].
  destruct Hi as [Hok Hnd Hl Hd Hs Hlen]. cbn [fst snd fmap list_fmap] in *.
  change (sumZ []) with 0 in Hs. change (sum_list []) with 0%nat in Hlen.
  destruct (Z.ltb_spec 0 dust).
  - assert (r ≠ []) as Hne by (by destruct Hl as (? & ? & -> & _)).
    destruct (add_first_sum r dust) as [Hok' Hs']; [done..|lia|].
    rewrite add_first_addrs. split_and!; try done; [lia|apply leads_add_first; (done || lia)|].
    replace (length (add_first r dust)) with (length r) by (by destruct r as [|[]]). lia.
  - split_and!; try done; lia.
Qed.
End tiers.

(** ** All-Free mode *)

Section all_free.
Context (input : RewardInput).

Lemma free_loop_sum nodes i n per dist r :
  nodes ≠ [] → (i + length nodes = n)%nat → 0 ≤ per → per * Z.of_nat n ≤ total_reward input < U64 →
  dist = per * Z.of_nat i → amounts r = dist → amounts_ok r → NoDup r.*1 →
  let r' := free_loop input nodes i n per dist r in
  amounts r' = total_reward input ∧ amounts_ok r' ∧ NoDup r'.*1 ∧ (length r' ≤ length r + length nodes)%nat.
Proof.
  revert i dist r. induction nodes as [|mn nodes IH]; intros i dist r Hne Hn Hper Htot Hd Hs Hok Hnd; [done|].
  cbn [free_loop length] in *. pose proof (push_reward_length r (node_payout mn)) as Hlen.
  destruct (decide (nodes = [])) as [->|Hne'].
  - cbn in Hn. assert ((i =? n - 1)%nat = true) as -> by (apply Nat.eqb_eq; lia).
    cbn [free_loop]. unfold sat_sub. rewrite Z.max_r by nia.
    destruct (push_reward_sum r (node_payout mn) (total_reward input - dist)) as [Hok' Hs']; [done|nia|nia|].
    split_and!; [lia|done|by apply push_reward_NoDup|]. specialize (Hlen (total_reward input - dist)). cbn. lia.
  - assert (length nodes ≠ 0)%nat by (by destruct nodes).
    assert ((i =? n - 1)%nat = false) as -> by (apply Nat.eqb_neq; lia).
    destruct (push_reward_sum r (node_payout mn) per) as [Hok' Hs']; [done|done|nia|].
    rewrite add64_small by nia.
    destruct (IH (i + 1)%nat (dist + per) (push_reward r (node_payout mn) per)) as (? & ? & ? & ?);
      try done; try lia; try nia; [by apply push_reward_NoDup|].
    split_and!; try done. specialize (Hlen per). lia.
Qed.

(** Reward conservation with only free nodes: when some free node is eligible the payouts
    add up exactly to the block reward, to at most 25 distinct addresses. *)
Theorem free_rewards_conserved :
  has_paid_tier_nodes input = false → 0 ≤ total_reward input < U64 → free_nodes input ≠ [] →
  let r := compute input in
  amounts r = total_reward input ∧ NoDup r.*1 ∧ Forall (λ e : string * Z, 0 ≤ e.2) r ∧
  (length r ≤ MAX_FREE_TIER_RECIPIENTS)%nat.
Proof.
  intros Hp Htot Hne. cbv zeta. unfold compute. rewrite Hp.
  assert (active_nodes input ≠ []) as Hact.
  { intros E. apply Hne. unfold free_nodes, free_candidates. rewrite E. cbn. by destruct (sybil_active input). }
  destruct (active_nodes input) as [|a l]; [done|]. cbn [negb]. unfold compute_all_free.
  assert (length (free_nodes input) ≠ 0%nat) by (by destruct (free_nodes input)).
  set (n := (length (free_nodes input) `min` MAX_FREE_TIER_RECIPIENTS)%nat).
  assert (1 ≤ n ≤ 25 ∧ n ≤ length (free_nodes input))%nat as [Hn1 Hn2]
    by (unfold n, MAX_FREE_TIER_RECIPIENTS; lia).
  rewrite (proj2 (Nat.eqb_neq n 0)) by lia.
  destruct (free_loop_sum (take n (free_nodes input)) 0 n (total_reward input / Z.of_nat n) 0 [])
    as (? & ? & ? & Hl).
  - intros E. apply (f_equal length) in E. rewrite length_take in E. cbn in E. lia.
  - rewrite length_take. lia.
  - apply Z.div_pos; lia.
  - pose proof (Z.mul_div_le (total_reward input) (Z.of_nat n)). nia.
  - lia.
  - done.
  - by apply Forall_nil.
  - by apply NoDup_nil_2.
  - split_and!; try done. rewrite length_take in Hl. unfold MAX_FREE_TIER_RECIPIENTS. cbn in Hl. lia.
Qed.
End all_free.

(** ** Order independence *)

Section order.
(** Nodes are listed once, and no two nodes of one payout address tie. *)
Definition distinct_nodes (l : list MasternodeInfo) : Prop :=
  NoDup (mn_address ∘ masternode <$> l).
Definition no_ties (l : list (MasternodeInfo * Z)) : Prop :=
  ∀ x y, x ∈ l → y ∈ l → node_payout x = node_payout y → x.2 = y.2 → x = y.

Lemma dedupe_elem l x :
  no_ties l → x ∈ dedupe l ↔ x ∈ l ∧ ∀ y, y ∈ l → node_payout y = node_payout x → y.2 ≤ x.2.
Proof.
  intros Hnt. destruct (dedupe_fold_spec l [] ltac:(apply NoDup_nil_2)) as (Hnd & Hsub & Hcov).
  fold (dedupe l) in *.
  assert (∀ a b, a ∈ dedupe l → b ∈ dedupe l → node_payout a = node_payout b → a = b) as Huniq.
  { revert Hnd. generalize (dedupe l) as k. induction k as [|c k IH]; cbn; [set_solver|].
    rewrite NoDup_cons. intros [Hc Hk] a b. rewrite !elem_of_cons. intros [->|Ha] [->|Hb] E; auto.
    - destruct Hc. rewrite E. by apply list_elem_of_fmap_2.
    - destruct Hc. rewrite <-E. by apply list_elem_of_fmap_2. }
  split.
  - intros Hx. destruct (Hsub x Hx) as [Hl|?%elem_of_nil]; [|done]. split; [done|]. intros y Hy E.
    destruct (Hcov y (or_introl Hy)) as (z & Hz & Ez & Hle). assert (z = x) as -> by (apply Huniq; congruence). done.
  - intros [Hx Hmax]. destruct (Hcov x (or_introl Hx)) as (z & Hz & Ez & Hle).
    destruct (Hsub z Hz) as [Hzl|?%elem_of_nil]; [|done]. specialize (Hmax z Hzl Ez).
    by rewrite (Hnt x z Hx Hzl) by (done || lia).
Qed.

Lemma NoDup_of_fmap {A B} (f : A → B) l : NoDup (f <$> l) → NoDup l.
Proof. apply NoDup_fmap_1. Qed.

Lemma dedupe_perm l1 l2 : no_ties l1 → l1 ≡ₚ l2 → dedupe l1 ≡ₚ dedupe l2.
Proof.
  intros Hnt Hp. assert (no_ties l2) as Hnt2.
  { intros x y Hx Hy. rewrite <-Hp in Hx, Hy. by apply Hnt. }
  apply NoDup_Permutation.
  - eapply NoDup_of_fmap, dedupe_fold_spec, NoDup_nil_2.
  - eapply NoDup_of_fmap, dedupe_fold_spec, NoDup_nil_2.
  - intros x. rewrite !dedupe_elem by done. by setoid_rewrite Hp.
Qed.

(** Sorting nodes with distinct addresses. *)
Lemma sort_nodes_perm l1 l2 :
  NoDup (node_addr <$> l1) → l1 ≡ₚ l2 → sort_by node_leb l1 = sort_by node_leb l2.
Proof.
  intros Hnd Hp. apply sort_by_ext; [apply node_leb_total|apply node_leb_trans| |done].
  intros x y Hx Hy H1 H2. pose proof (node_leb_antisym x y H1 H2) as E. clear H1 H2 Hp.
  revert Hnd. induction l1 as [|c k IH]; cbn; [set_solver|]. rewrite NoDup_cons. intros [Hc Hk].
  apply elem_of_cons in Hx as [->|Hx], Hy as [->|Hy]; auto; destruct Hc;
    [rewrite E|rewrite <-E]; by apply list_elem_of_fmap_2.
Qed.
Lemma dedupe_addr_NoDup l : no_ties l → NoDup (node_addr <$> l) → NoDup (node_addr <$> dedupe l).
Proof.
  intros Hnt Hnd. apply NoDup_fmap_2_strong; [|eapply NoDup_of_fmap, dedupe_fold_spec, NoDup_nil_2].
  intros x y Hx Hy E. apply dedupe_elem in Hx as [Hx _], Hy as [Hy _]; [|done..].
  clear Hnt. induction l as [|c k IH]; [by apply elem_of_nil in Hx|]. cbn in Hnd. rewrite NoDup_cons in Hnd.
  destruct Hnd as [Hc Hk]. apply elem_of_cons in Hx as [->|Hx], Hy as [->|Hy]; auto; destruct Hc;
    [rewrite E|rewrite <-E]; by apply list_elem_of_fmap_2.
Qed.

Definition reorder (input : RewardInput) (l : list MasternodeInfo) : RewardInput :=
  mkRewardInput (height input) (producer_wallet input) l (fairness_map input) (fees input)
    (total_reward input) (free_tier_registered input).

Context (input : RewardInput) (l : list MasternodeInfo).
Hypothesis (Hperm : l ≡ₚ active_nodes input).
Hypothesis (Hdistinct : distinct_nodes (active_nodes input)).
Hypothesis (Hties : no_ties (with_bonus input <$> filter (is_tier Free) (active_nodes input))).

Lemma candidates_perm (f : MasternodeInfo → bool) :
  with_bonus input <$> filter f l ≡ₚ with_bonus input <$> filter f (active_nodes input).
Proof using Hperm. by rewrite Hperm. Qed.
Lemma candidates_addr (f : MasternodeInfo → bool) :
  NoDup (node_addr <$> (with_bonus input <$> filter f l)).
Proof using Hperm Hdistinct.
  rewrite candidates_perm, <-list_fmap_compose.
  eapply sublist_NoDup; [exact Hdistinct|]. apply (fmap_sublist (mn_address ∘ masternode)), sublist_filter.
Qed.
Lemma candidates_ties (f : MasternodeInfo → bool) :
  (∀ mn, f mn = true → is_tier Free mn = true) → no_ties (with_bonus input <$> filter f l).
Proof using Hperm Hties.
  intros Hf x y Hx Hy. apply Hties; [revert Hx|revert Hy]; rewrite candidates_perm;
    intros (mn & -> & [Hm Hin]%list_elem_of_filter)%list_elem_of_fmap; apply list_elem_of_fmap_2;
    apply list_elem_of_filter; (split; [|done]); apply Is_true_true, Hf; by apply Is_true_true.
Qed.

(** Both ways of sorting candidates. *)
Lemma selection_perm (b : bool) (f : MasternodeInfo → bool) :
  (b = true → ∀ mn, f mn = true → is_tier Free mn = true) →
  let c1 := with_bonus input <$> filter f l in
  let c2 := with_bonus input <$> filter f (active_nodes input) in
  sort_by node_leb (if b then dedupe c1 else c1) = sort_by node_leb (if b then dedupe c2 else c2).
Proof using Hperm Hdistinct Hties.
  intros Hf. cbv zeta. destruct b; apply sort_nodes_perm.
  - apply dedupe_addr_NoDup; [by apply candidates_ties; auto|apply candidates_addr].
  - apply dedupe_perm; [by apply candidates_ties; auto|apply candidates_perm].
  - apply candidates_addr.
  - apply candidates_perm.
Qed.

Lemma existsb_perm (f : MasternodeInfo → bool) : existsb f l = existsb f (active_nodes input).
Proof using Hperm.
  apply Bool.eq_iff_eq_true. rewrite !existsb_exists. setoid_rewrite <-list_elem_of_In. by setoid_rewrite Hperm.
Qed.

Lemma reorder_free_nodes : free_nodes (reorder input l) = free_nodes input.
Proof using Hperm Hdistinct Hties.
  apply (selection_perm (sybil_active input)
    (λ mn, is_tier Free mn && negb (str_is_empty (payout_addr mn)) && onchain_ok input mn)).
  intros _ mn. by rewrite !andb_true_iff; intros [[? _] _].
Qed.
Lemma reorder_eligible t mn : tier_eligible (reorder input l) t mn = tier_eligible input t mn.
Proof using Hperm.
  unfold tier_eligible. assert (paid_tier_wallet_set (reorder input l) = paid_tier_wallet_set input) as ->; [|done].
  apply set_eq. intros a. unfold paid_tier_wallet_set. rewrite !elem_of_list_to_set. cbn. by rewrite Hperm.
Qed.
Lemma reorder_tier_nodes t : tier_nodes (reorder input l) t = tier_nodes input t.
Proof using Hperm Hdistinct Hties.
  pose proof (selection_perm (bool_decide (t = Free) && sybil_active input) (tier_eligible input t)) as Hs.
  unfold tier_nodes, tier_candidates in *. cbn [active_nodes reorder].
  assert (filter (tier_eligible (reorder input l) t) l = filter (tier_eligible input t) l) as ->.
  { apply list_filter_iff. intros mn. by rewrite reorder_eligible. }
  apply Hs. intros [Ht _]%andb_true_iff mn. apply bool_decide_eq_true in Ht as ->.
  unfold tier_eligible. by rewrite !andb_true_iff; intros [[[[? _] _] _] _].
Qed.
Lemma reorder_tier_step acc t : tier_step (reorder input l) acc t = tier_step input acc t.
Proof using Hperm Hdistinct Hties.
  unfold tier_step, recipients. by rewrite reorder_tier_nodes.
Qed.

Lemma compute_unfold i :
  compute i = if (length (active_nodes i) =? 0)%nat then []
              else if negb (has_paid_tier_nodes i) then compute_all_free i else compute_tiers i.
Proof. unfold compute. by destruct (active_nodes i). Qed.

(** Producer and validators agree: the reward list does not depend on the order in which the
    active masternodes are listed, when their addresses are distinct and no two free nodes
    of one payout address tie for the fairness bonus. *)
Theorem compute_order_independent : compute (reorder input l) = compute input.
Proof using Hperm Hdistinct Hties.
  rewrite !compute_unfold. unfold has_paid_tier_nodes. cbn [active_nodes reorder].
  rewrite existsb_perm. replace (length l) with (length (active_nodes input)) by by rewrite Hperm.
  destruct (_ =? 0)%nat; [done|]. destruct (negb _).
  - unfold compute_all_free. by rewrite reorder_free_nodes.
  - unfold compute_tiers. cbn [producer_wallet fees reorder].
    assert (∀ ts acc, foldl (tier_step (reorder input l)) acc ts = foldl (tier_step input) acc ts) as ->; [|done].
    induction ts as [|t ts IH]; intros acc; cbn; [done|]. by rewrite reorder_tier_step.
Qed.
End order.

(** ** Comparison of reward lists *)

Definition positive_for (a : string) (r : rewards) : list Z :=
  (filter (λ e : string * Z, e.1 = a ∧ 0 < e.2) r).*2.

Lemma normalize_fold r m a :
  (∀ b x, m !! b = Some x → 0 ≤ x < U64) →
  default 0 (foldl normalize_step m r !! a) = (default 0 (m !! a) + sumZ (positive_for a r)) mod U64 ∧
  (is_Some (foldl normalize_step m r !! a) ↔ is_Some (m !! a) ∨ positive_for a r ≠ []).
Proof.
  revert m. induction r as [|[b x] r IH]; intros m Hm.
  { cbn. change (sumZ (positive_for a [])) with 0. rewrite Z.add_0_r. split; [|naive_solver].
    destruct (m !! a) as [y|] eqn:E; cbn; rewrite Z.mod_small; naive_solver. }
  cbn [foldl]. unfold normalize_step at 2 4. cbn [fst snd].
  assert (positive_for a ((b, x) :: r) = if decide (b = a ∧ 0 < x) then x :: positive_for a r else positive_for a r)
    as ->.
  { unfold positive_for. rewrite filter_cons. cbn. by case_decide. }
  destruct (Z.ltb_spec 0 x).
  - destruct (IH (<[b := add64 (default 0 (m !! b)) x]> m)) as [IH1 IH2].
    { intros c y [[<- <-]|[_ Hy]]%lookup_insert_Some; [|by eapply Hm]. apply Z.mod_pos_bound. done. }
    rewrite IH1, IH2. destruct (decide (b = a)) as [->|Hne].
    + rewrite lookup_insert_eq, (decide_True (P := a = a ∧ 0 < x)) by done. cbn [from_option id].
      split; [|split; [by right|left; by eexists]]. unfold add64. rewrite Zplus_mod_idemp_l. f_equal.
      change (sumZ (x :: positive_for a r)) with (x + sumZ (positive_for a r)). lia.
    + rewrite lookup_insert_ne by done. rewrite decide_False by naive_solver. done.
  - rewrite decide_False by lia. by apply IH.
Qed.

(** The normal form used to compare reward lists is, per address, the (wrapping) total of
    its positive entries, has exactly the addresses with one, and does not depend on the
    order of the list. *)
Theorem normalize_spec r a :
  default 0 (normalize r !! a) = sumZ (positive_for a r) mod U64 ∧
  (is_Some (normalize r !! a) ↔ positive_for a r ≠ []) ∧
  ∀ r', r ≡ₚ r' → normalize r' = normalize r.
Proof.
  assert (∀ r b, default 0 (normalize r !! b) = sumZ (positive_for b r) mod U64 ∧
    (is_Some (normalize r !! b) ↔ positive_for b r ≠ [])) as Hn.
  { intros r0 b. unfold normalize.
    destruct (normalize_fold r0 ∅ b ltac:(intros ? ? ?; by rewrite lookup_empty in * )) as [E1 E2].
    rewrite lookup_empty in *. split; [done|]. rewrite E2. split; [|by right]. intros [[? ?]|]; done. }
  split_and!; [apply Hn..|]. intros r' Hp. apply map_eq. intros b.
  assert (positive_for b r' ≡ₚ positive_for b r) as Hpb by (unfold positive_for; by rewrite Hp).
  destruct (Hn r b) as [E1 E2], (Hn r' b) as [F1 F2]. rewrite Hpb in F1.
  assert (positive_for b r' ≠ [] ↔ positive_for b r ≠ []) as Hne.
  { split; intros Hx Hy; apply Hx; rewrite Hy in Hpb; [by apply Permutation_nil_r in Hpb|].
    by symmetry in Hpb; apply Permutation_nil_r in Hpb. }
  destruct (normalize r !! b), (normalize r' !! b); cbn in *; try congruence; exfalso.
  - by apply (is_Some_None (A := Z)), F2, Hne, E2.
  - by apply (is_Some_None (A := Z)), E2, Hne, F2.
Qed.

(** ** Witnesses *)

Definition w_node (addr wallet : string) (t : MasternodeTier) : MasternodeInfo :=
  mkMasternodeInfo (new_legacy addr wallet 0 [] t 0) "" 0 0 true false 0 0 0 0 Handshake ∅ None true 0 0 0.
Definition w_input (l : list MasternodeInfo) : RewardInput :=
  mkRewardInput 2000 "prod" l {["n1"%string := 4; "n2"%string := 9]} 7 9500000000 ∅.

Lemma tier_rewards_conserved_witness :
  amounts (compute (w_input [w_node "n1" "a" Free; w_node "n2" "b" Gold; w_node "n3" "c" Free]))
    = PRODUCER_REWARD_SATOSHIS + TOTAL_POOL_SATOSHIS + 7.
Proof.
  apply (tier_rewards_conserved
    (w_input [w_node "n1" "a" Free; w_node "n2" "b" Gold; w_node "n3" "c" Free])).
  - reflexivity.
  - by vm_compute.
  - by vm_compute.
Defined.

Lemma free_rewards_conserved_witness :
  amounts (compute (w_input [w_node "n1" "a" Free; w_node "n2" "a" Free; w_node "n3" "c" Free])) = 9500000000.
Proof.
  apply (free_rewards_conserved
    (w_input [w_node "n1" "a" Free; w_node "n2" "a" Free; w_node "n3" "c" Free])).
  - reflexivity.
  - by vm_compute.
  - by vm_compute.
Defined.

Lemma compute_order_independent_witness :
  compute (reorder (w_input [w_node "n1" "a" Free; w_node "n2" "a" Free; w_node "n3" "c" Bronze])
             [w_node "n3" "c" Bronze; w_node "n2" "a" Free; w_node "n1" "a" Free])
  = compute (w_input [w_node "n1" "a" Free; w_node "n2" "a" Free; w_node "n3" "c" Bronze]).
Proof.
  apply compute_order_independent.
  - cbn [active_nodes w_input]. apply (Permutation_rev [w_node "n3" "c" Bronze; w_node "n2" "a" Free; w_node "n1" "a" Free]).
  - apply (bool_decide_unpack _). vm_compute. exact I.
  - intros x y. change (with_bonus _ <$> _) with [(w_node "n1" "a" Free, 4); (w_node "n2" "a" Free, 9)].
    rewrite !elem_of_cons, !elem_of_nil. intros [->|[->|[]]] [->|[->|[]]]; cbn; congruence.
Defined.
