(* ===== verification/BlockVotes.v ===== *)
(** * Block votes and fees (src/consensus.rs)

    The fee schedule, and the accumulators of prepare and precommit votes on blocks.
    The two accumulators differ in what a vote carries beside the voter and its
    weight (nothing, or a signature), so they are one record over that payload. *)

From Stdlib Require Import ZArith Lia Ascii String.
From stdpp Require Import base gmap strings list sorting.
From S2P Require Import Prelude Types.

(** ** Fee schedule *)

Definition MIN_TX_FEE : Z := 1000000.

Record FeeSchedule := mkFeeSchedule {
  fs_tiers : list (Z * Z);   (* upper bound, rate in basis points *)
  min_fee : Z;
}.
Definition default_fee_schedule : FeeSchedule :=
  mkFeeSchedule [(100 * SATOSHIS_PER_TIME, 100); (1000 * SATOSHIS_PER_TIME, 50);
                 (10000 * SATOSHIS_PER_TIME, 25); (U64 - 1, 10)] MIN_TX_FEE.

(** [u64::saturating_mul]. *)
Definition sat_mul (a b : Z) : Z := Z.min (U64 - 1) (a * b).

Definition rate_for (tiers : list (Z * Z)) (send_amount : Z) : Z :=
  default 10 (snd <$> List.find (λ t : Z * Z, send_amount <? t.1) tiers).
Definition required_fee (s : FeeSchedule) (send_amount : Z) : Z :=
  Z.max (mul64 send_amount (rate_for (fs_tiers s) send_amount) / 10000) (min_fee s).

Definition tier_fee (min_fee amt rate_bps : Z) : Z :=
  Z.max (div_ceil (sat_mul amt rate_bps) (10000 + rate_bps)) min_fee.
Fixpoint subtract_loop (tiers : list (Z * Z)) (min_fee amt : Z) : Z :=
  match tiers with
  | [] => min_fee
  | (tier_limit, rate_bps) :: tiers =>
      let f := tier_fee min_fee amt rate_bps in
      if sat_sub amt f <? tier_limit then f else subtract_loop tiers min_fee amt
  end.
Definition required_fee_subtract (s : FeeSchedule) (amt : Z) : Z :=
  subtract_loop (fs_tiers s) (min_fee s) amt.

(** ** Vote accumulators *)

Record VoteAccumulator (P : Type) := mkAccumulator {
  votes : gmap Hash256 (list (string * P * Z));   (* voter, payload, weight *)
  consensus_signaled : gset Hash256;
}.
Arguments mkAccumulator {P}.
Arguments votes {P}.
Arguments consensus_signaled {P}.

Section accumulator.
Context {P : Type} `{MapIter}.
Implicit Types a : VoteAccumulator P.

Definition acc_new : VoteAccumulator P := mkAccumulator ∅ ∅.
Definition voter_of (v : string * P * Z) : string := v.1.1.
Definition has_voter (id : string) (l : list (string * P * Z)) : bool :=
  existsb (λ v, String.eqb (voter_of v) id) l.

(** [add_vote]: the first vote of a voter counts, on one block. *)
Definition acc_add_vote a (block_hash : Hash256) (id : string) (x : P) (w : Z) : VoteAccumulator P :=
  if existsb (λ e : Hash256 * list (string * P * Z),
                negb (bool_decide (e.1 = block_hash)) && has_voter id e.2) (iter (votes a))
  then a
  else
    let l := default [] (votes a !! block_hash) in
    (* [entry(block_hash).or_default()] inserts the empty vector *)
    if has_voter id l then mkAccumulator (<[block_hash := l]> (votes a)) (consensus_signaled a)
    else mkAccumulator (<[block_hash := l ++ [(id, x, w)]]> (votes a)) (consensus_signaled a).

(** The weight of the voters not seen yet, over the votes of every block. *)
Fixpoint total_loop (l : list (string * P * Z)) (seen : gset string) (total : Z) : Z :=
  match l with
  | [] => total
  | (id, _, w) :: l =>
      if bool_decide (id ∈ seen) then total_loop l seen total
      else total_loop l ({[id]} ∪ seen) (add64 total w)
  end.
Definition total_weight a : Z := total_loop (concat (iter (votes a)).*2) ∅ 0.
Definition weight_of (l : list (string * P * Z)) : Z := sum64 (snd <$> l).

Definition check_consensus a (block_hash : Hash256) : VoteAccumulator P * bool :=
  if bool_decide (block_hash ∈ consensus_signaled a) then (a, false)
  else
    match votes a !! block_hash with
    | None => (a, false)
    | Some l =>
        if (length l <? 2)%nat then (a, false)
        else
          let total := total_weight a in
          if (0 <? total) && (total / 2 <? weight_of l)
          then (mkAccumulator (votes a) ({[block_hash]} ∪ consensus_signaled a), true)
          else (a, false)
    end.

Definition get_weight a (block_hash : Hash256) : Z :=
  default 0 (weight_of <$> votes a !! block_hash).
Definition get_voters a (block_hash : Hash256) : list string :=
  voter_of <$> default [] (votes a !! block_hash).
(** [get_signatures] of the precommit accumulator. *)
Definition get_signatures a (block_hash : Hash256) : list (string * P) :=
  fst <$> default [] (votes a !! block_hash).
(** [remove_voter] of the prepare accumulator. *)
Definition remove_voter a (id : string) : VoteAccumulator P :=
  mkAccumulator (filter (λ v, voter_of v ≠ id) <$> votes a) (consensus_signaled a).
Definition acc_clear a (block_hash : Hash256) : VoteAccumulator P :=
  mkAccumulator (delete block_hash (votes a)) (consensus_signaled a ∖ {[block_hash]}).
Definition acc_clear_all a : VoteAccumulator P := mkAccumulator ∅ ∅.
Definition get_all_voters a : list (Hash256 * list string) :=
  (λ e : Hash256 * list (string * P * Z), (e.1, voter_of <$> e.2)) <$> iter (votes a).
End accumulator.

(** The two accumulators of the engine. *)
Definition PrepareVoteAccumulator : Type := VoteAccumulator ().
Definition PrecommitVoteAccumulator : Type := VoteAccumulator bytes.
Definition prepare_add_vote `{MapIter} (a : PrepareVoteAccumulator) (h : Hash256) (id : string) (w : Z)
    : PrepareVoteAccumulator := acc_add_vote a h id tt w.
Definition prepare_check_consensus `{MapIter} (a : PrepareVoteAccumulator) (h : Hash256)
    : PrepareVoteAccumulator * bool := check_consensus a h.
Definition precommit_add_vote `{MapIter} (a : PrecommitVoteAccumulator) (h : Hash256) (id : string)
    (sig : bytes) (w : Z) : PrecommitVoteAccumulator := acc_add_vote a h id sig w.
Definition precommit_check_consensus `{MapIter} (a : PrecommitVoteAccumulator) (h : Hash256)
    : PrecommitVoteAccumulator * bool := check_consensus a h.

(** ** Fees *)

Section fees.
Context (min_fee amt : Z).
Hypothesis (Hmin : 0 ≤ min_fee) (Hamt : 0 ≤ amt) (Hbig : amt * 10000 < U64).

(** What the recipient gets after the fee of a rate pays no more than that fee. *)
Lemma tier_fee_covers r :
  0 < r ≤ 10000 → tier_fee min_fee amt r ≤ amt →
  mul64 (sat_sub amt (tier_fee min_fee amt r)) r / 10000 ≤ tier_fee min_fee amt r.
Proof using Hmin Hamt Hbig.
  intros Hr Hle. unfold tier_fee, sat_mul in *. rewrite Z.min_r in * by nia.
  pose proof (div_ceil_spec (amt * r) (10000 + r) ltac:(nia) ltac:(lia)) as [_ Hc].
  set (c := div_ceil (amt * r) (10000 + r)) in *. set (f := Z.max c min_fee) in *.
  assert (c ≤ f) by (unfold f; lia). unfold sat_sub. rewrite Z.max_r by lia.
  rewrite mul64_small by nia. apply Z.div_le_upper_bound; [lia|]. nia.
Qed.

(** A higher rate takes a higher fee. *)
Lemma tier_fee_mono r r' : 0 ≤ r ≤ r' → r' ≤ 10000 → tier_fee min_fee amt r ≤ tier_fee min_fee amt r'.
Proof using Hmin Hamt Hbig.
  intros Hr Hr'. unfold tier_fee, sat_mul. rewrite !Z.min_r by nia.
  pose proof (div_ceil_spec (amt * r) (10000 + r) ltac:(nia) ltac:(lia)) as [H1 _].
  pose proof (div_ceil_spec (amt * r') (10000 + r') ltac:(nia) ltac:(lia)) as [_ H2].
  assert (div_ceil (amt * r) (10000 + r) ≤ div_ceil (amt * r') (10000 + r')); [|lia].
  set (c := div_ceil (amt * r) (10000 + r)) in *. set (c' := div_ceil (amt * r') (10000 + r')) in *.
  destruct (Z.le_gt_cases c c') as [|Hgt]; [done|exfalso].
  assert (0 ≤ c') by nia. set (k := c - 1) in *.
  assert (c' * (10000 + r') ≤ k * (10000 + r')) by (apply Z.mul_le_mono_nonneg_r; lia).
  assert (k * 10000 < (amt - k) * r) by lia. assert ((amt - k) * r' ≤ k * 10000) by lia.
  assert (0 < amt - k) by nia.
  assert ((amt - k) * r ≤ (amt - k) * r') by (apply Z.mul_le_mono_nonneg_l; lia). lia.
Qed.
End fees.

(** Rates that do not grow with the amount sent. *)
Definition rates_ok (tiers : list (Z * Z)) : Prop :=
  StronglySorted (λ t t' : Z * Z, t'.2 ≤ t.2) tiers ∧ Forall (λ t : Z * Z, 0 < t.2 ≤ 10000) tiers.

Lemma subtract_loop_spec min_fee amt tiers :
  0 ≤ min_fee → 0 ≤ amt → amt * 10000 < U64 → rates_ok tiers →
  Exists (λ t : Z * Z, amt < t.1) tiers →
  let f := subtract_loop tiers min_fee amt in
  ∃ t, t ∈ tiers ∧ f = tier_fee min_fee amt t.2 ∧ rate_for tiers (sat_sub amt f) = t.2.
Proof.
  intros Hm Ha Hb [Hs Hf] He. induction Hs as [|[lim r] tiers Hs IH Hall]; [by inversion He|].
  apply Forall_cons in Hf as [Hr Hf]. cbn [subtract_loop].
  unfold rate_for. cbn [List.find fst].
  destruct (Z.ltb_spec (sat_sub amt (tier_fee min_fee amt r)) lim) as [Hlt|Hge].
  - exists (lim, r). split_and!; [set_solver|done|]. by rewrite (proj2 (Z.ltb_lt _ _) Hlt).
  - destruct IH as (t & Ht & Ef & Erate); [done| |].
    { apply Exists_cons in He as [Hlt|He]; [|done]. cbn in Hlt. unfold sat_sub in Hge.
      assert (0 ≤ tier_fee min_fee amt r) by (unfold tier_fee; lia). lia. }
    exists t. split_and!; [set_solver|done|].
    rewrite (proj2 (Z.ltb_ge _ _)); [done|].
    rewrite Forall_forall in Hall, Hf. specialize (Hall t Ht). specialize (Hf t Ht). cbn in *.
    assert (tier_fee min_fee amt t.2 ≤ tier_fee min_fee amt r) by (apply tier_fee_mono; lia).
    rewrite Ef. unfold sat_sub in *. lia.
Qed.

(** The fee computed for a subtract-fee send is enough: what remains of the amount after the
    fee requires at most that fee, for every fee schedule with positive rates of at most
    100% that do not increase, every amount within its bounds whose product with 10000 fits
    in 64 bits, and whenever the fee fits in the amount. *)
Theorem required_fee_subtract_valid s amt :
  rates_ok (fs_tiers s) → 0 ≤ min_fee s → 0 ≤ amt → amt * 10000 < U64 →
  Exists (λ t : Z * Z, amt < t.1) (fs_tiers s) → required_fee_subtract s amt ≤ amt →
  required_fee s (amt - required_fee_subtract s amt) ≤ required_fee_subtract s amt.
Proof.
  intros Hr Hm Ha Hb He Hle. unfold required_fee, required_fee_subtract in *.
  destruct (subtract_loop_spec (min_fee s) amt (fs_tiers s)) as (t & Ht & Ef & Erate); [done..|].
  set (f := subtract_loop (fs_tiers s) (min_fee s) amt) in *.
  assert (sat_sub amt f = amt - f) as E by (unfold sat_sub; lia). rewrite E in Erate. rewrite Erate.
  destruct Hr as [_ Hf]. rewrite Forall_forall in Hf. specialize (Hf t Ht).
  pose proof (tier_fee_covers (min_fee s) amt Hm Ha Hb t.2 Hf) as Hc. rewrite <-Ef in Hc.
  rewrite E in Hc. specialize (Hc Hle). apply Z.max_lub; [done|]. rewrite Ef. unfold tier_fee. lia.
Qed.

Lemma required_fee_subtract_valid_witness :
  required_fee default_fee_schedule
    (100 * SATOSHIS_PER_TIME - required_fee_subtract default_fee_schedule (100 * SATOSHIS_PER_TIME))
  ≤ required_fee_subtract default_fee_schedule (100 * SATOSHIS_PER_TIME).
Proof.
  apply (required_fee_subtract_valid default_fee_schedule (100 * SATOSHIS_PER_TIME)).
  - split; repeat constructor; by vm_compute.
  - by vm_compute.
  - by vm_compute.
  - by vm_compute.
  - apply Exists_cons_tl, Exists_cons_hd. by vm_compute.
  - by vm_compute.
Defined.

(** ** The accumulators: one vote per voter *)

Inductive vote_op (P : Type) :=
| VAdd (h : Hash256) (id : string) (x : P) (w : Z)
| VCheck (h : Hash256) | VRemoveVoter (id : string) | VClear (h : Hash256) | VClearAll.
Arguments VAdd {P}.
Arguments VCheck {P}.
Arguments VRemoveVoter {P}.
Arguments VClear {P}.
Arguments VClearAll {P}.

Section accumulator_proofs.
Context {P : Type} `{MapIter}.
Implicit Types a : VoteAccumulator P.

Definition vote_exec a (o : vote_op P) : VoteAccumulator P :=
  match o with
  | VAdd h id x w => acc_add_vote a h id x w
  | VCheck h => (check_consensus a h).1
  | VRemoveVoter id => remove_voter a id
  | VClear h => acc_clear a h
  | VClearAll => acc_clear_all a
  end.
Definition vote_run a (os : list (vote_op P)) : VoteAccumulator P := foldl vote_exec a os.

Record acc_ok a : Prop := mkAccOk {
  ao_nodup : ∀ h l, votes a !! h = Some l → NoDup (voter_of <$> l);
  ao_once : ∀ h h' l l' id, votes a !! h = Some l → votes a !! h' = Some l' →
    id ∈ voter_of <$> l → id ∈ voter_of <$> l' → h = h';
}.

Lemma has_voter_true id (l : list (string * P * Z)) : has_voter id l = true ↔ id ∈ voter_of <$> l.
Proof.
  unfold has_voter. rewrite existsb_exists, list_elem_of_fmap. setoid_rewrite <-list_elem_of_In.
  setoid_rewrite String.eqb_eq. naive_solver.
Qed.

Lemma acc_ok_add a h id x w : acc_ok a → acc_ok (acc_add_vote a h id x w).
Proof.
  intros [Hn Ho]. unfold acc_add_vote.
  destruct (existsb _ (iter (votes a))) eqn:Hex; [done|].
  assert (Hother : ∀ h' l', votes a !! h' = Some l' → id ∈ voter_of <$> l' → h' = h).
  { intros h' l' Hl' Hid. destruct (decide (h' = h)) as [|Hne]; [done|exfalso].
    apply not_true_iff_false in Hex. apply Hex, existsb_exists. exists (h', l'). split.
    - apply list_elem_of_In. by rewrite iter_perm, elem_of_map_to_list.
    - cbn. rewrite bool_decide_false by done. cbn. by apply has_voter_true. }
  set (l := default [] (votes a !! h)).
  assert (NoDup (voter_of <$> l) ∧ (∀ h' l' i, votes a !! h' = Some l' → i ∈ voter_of <$> l' →
    i ∈ voter_of <$> l → h' = h)) as [Hl1 Hl2].
  { unfold l. destruct (votes a !! h) eqn:E; cbn; [eauto|]. split; [apply NoDup_nil_2|set_solver]. }
  destruct (has_voter id l) eqn:Hv; split; cbn.
  - intros h' l' [[<- <-]|[_ Hl']]%lookup_insert_Some; eauto.
  - intros h1 h2 l1 l2 i [[<- <-]|[_ H1]]%lookup_insert_Some [[<- <-]|[_ H2]]%lookup_insert_Some Hi1 Hi2;
      [done|symmetry; eauto|eauto|eauto].
  - intros h' l' [[<- <-]|[_ Hl']]%lookup_insert_Some; [|eauto]. rewrite fmap_app. apply NoDup_app.
    split_and!; [done| |apply NoDup_singleton]. cbn. intros i Hi ->%list_elem_of_singleton.
    apply has_voter_true in Hi. congruence.
  - intros h1 h2 l1 l2 i [[<- <-]|[_ H1]]%lookup_insert_Some [[<- <-]|[_ H2]]%lookup_insert_Some Hi1 Hi2;
      try done; try (by eapply Ho).
    + rewrite fmap_app, elem_of_app in Hi1. cbn in Hi1. rewrite list_elem_of_singleton in Hi1.
      symmetry. destruct Hi1 as [Hi1| ->]; eauto.
    + rewrite fmap_app, elem_of_app in Hi2. cbn in Hi2. rewrite list_elem_of_singleton in Hi2.
      destruct Hi2 as [Hi2| ->]; eauto.
Qed.

Lemma acc_ok_sub a a' :
  (∀ h l', votes a' !! h = Some l' → ∃ l, votes a !! h = Some l ∧ l' `sublist_of` l) →
  acc_ok a → acc_ok a'.
Proof.
  intros Hs [Hn Ho]. split.
  - intros h l' (l & Hl & Hsub)%Hs. eapply sublist_NoDup; [by eapply Hn|by apply fmap_sublist].
  - intros h h' l l' id (k & Hk & Hsub)%Hs (k' & Hk' & Hsub')%Hs Hi Hi'. apply (Ho h h' k k' id); [done..| |].
    + eapply elem_of_sublist; [exact Hi|by apply fmap_sublist].
    + eapply elem_of_sublist; [exact Hi'|by apply fmap_sublist].
Qed.

Lemma check_votes a h : votes (check_consensus a h).1 = votes a.
Proof. unfold check_consensus. split_matches; done. Qed.

Lemma vote_exec_ok a o : acc_ok a → acc_ok (vote_exec a o).
Proof.
  destruct o; cbn; [apply acc_ok_add|apply acc_ok_sub..]; cbn; intros k l' Hl.
  - rewrite check_votes in Hl. by exists l'.
  - rewrite lookup_fmap, fmap_Some in Hl. destruct Hl as (l & Hl & ->). exists l. split; [done|].
    apply sublist_filter.
  - apply lookup_delete_Some in Hl as [_ Hl]. by exists l'.
  - by rewrite lookup_empty in Hl.
Qed.
Lemma vote_run_ok os : acc_ok (vote_run acc_new os).
Proof.
  apply (foldl_preserve vote_exec acc_ok); [apply vote_exec_ok|].
  split; [intros h l Hl|intros h h' l l' id Hl]; cbn in Hl; by rewrite lookup_empty in Hl.
Qed.

(** ** Weights *)

Lemma total_loop_NoDup (l : list (string * P * Z)) seen t :
  NoDup (voter_of <$> l) → (∀ id, id ∈ voter_of <$> l → id ∉ seen) →
  total_loop l seen t = foldl add64 t (snd <$> l).
Proof.
  revert seen t. induction l as [|[[id x] w] l IH]; intros seen t Hnd Hs; [done|].
  cbn in *. apply NoDup_cons in Hnd as [Hn Hnd]. rewrite bool_decide_false by set_solver.
  apply IH; [done|]. intros i Hi. rewrite not_elem_of_union, not_elem_of_singleton.
  split; [by intros ->|]. apply Hs. set_solver.
Qed.

Lemma all_voters_NoDup a : acc_ok a → NoDup (voter_of <$> concat (map_to_list (votes a)).*2).
Proof.
  intros [Hn Ho]. pose proof (NoDup_fst_map_to_list (votes a)) as Hk.
  assert (∀ h l, (h, l) ∈ map_to_list (votes a) → votes a !! h = Some l) as Hl
    by (intros; by apply elem_of_map_to_list).
  revert Hk Hl. generalize (map_to_list (votes a)) as ls.
  induction ls as [|[h l] ls IH]; intros Hk Hl; cbn; [apply NoDup_nil_2|].
  rewrite fmap_app. apply NoDup_cons in Hk as [Hh Hk]. apply NoDup_app. split_and!.
  - apply (Hn h), Hl. set_solver.
  - intros id Hid (v & -> & Hv)%list_elem_of_fmap. apply list_elem_of_In, in_concat in Hv as (l' & Hl' & Hv).
    apply list_elem_of_In, list_elem_of_fmap in Hl' as ([h' l''] & -> & Hin).
    apply list_elem_of_In in Hv. assert (h = h') as <-.
    { apply (Ho h h' l l'' (voter_of v)); [apply Hl; set_solver..|done|by apply list_elem_of_fmap_2]. }
    apply Hh, list_elem_of_fmap. by exists (h, l'').
  - apply IH; [done|]. intros h' l' Hin. apply Hl. set_solver.
Qed.

(** The votes cast on all blocks. *)
Definition all_votes a : list (string * P * Z) := concat (map_to_list (votes a)).*2.
Definition sane_weights a : Prop :=
  Forall (λ v : string * P * Z, 0 ≤ v.2) (all_votes a) ∧ sumZ (snd <$> all_votes a) < U64.

Lemma concat_perm (ls ls' : list (list (string * P * Z))) : ls ≡ₚ ls' → concat ls ≡ₚ concat ls'.
Proof.
  induction 1; cbn; [done|by f_equiv| |by etrans]. rewrite !(assoc_L (++)). by rewrite (comm (++) y).
Qed.

Lemma total_weight_sum a : acc_ok a → sane_weights a → total_weight a = sumZ (snd <$> all_votes a).
Proof.
  intros Hok [Hw Hb]. unfold total_weight.
  assert (concat (iter (votes a)).*2 ≡ₚ all_votes a) as Hp by (apply concat_perm; by rewrite iter_perm).
  rewrite total_loop_NoDup.
  - change (foldl add64 0 ?l) with (sum64 l). rewrite sum64_small; rewrite Hp; [done|]. split; [|done].
    by apply sumZ_nonneg, Forall_fmap.
  - rewrite Hp. by apply all_voters_NoDup.
  - set_solver.
Qed.

(** The weights of different blocks add up to at most the total. *)
Lemma block_weights_le a h1 h2 l1 l2 :
  h1 ≠ h2 → votes a !! h1 = Some l1 → votes a !! h2 = Some l2 → sane_weights a →
  weight_of l1 + weight_of l2 ≤ sumZ (snd <$> all_votes a).
Proof.
  intros Hne H1 H2 [Hw Hb].
  assert (∃ rest, all_votes a ≡ₚ l1 ++ l2 ++ rest) as [rest Hp].
  { unfold all_votes. exists (concat (map_to_list (delete h2 (delete h1 (votes a)))).*2).
    rewrite <-(map_to_list_delete _ _ _ H1), <-(map_to_list_delete (delete h1 (votes a)) h2 l2); [done|].
    by rewrite lookup_delete_ne. }
  rewrite Hp in Hw, Hb |- *. rewrite !Forall_app in Hw. destruct Hw as (W1 & W2 & W3).
  rewrite !fmap_app, !sumZ_app in *. unfold weight_of.
  assert (∀ l : list (string * P * Z), Forall (λ v, 0 ≤ v.2) l → 0 ≤ sumZ l.*2) as Hnn
    by (intros l Hl; by apply sumZ_nonneg, Forall_fmap).
  apply Hnn in W1, W2, W3.
  rewrite !sum64_small by lia. lia.
Qed.

Lemma check_true a h :
  (check_consensus a h).2 = true →
  ∃ l, votes a !! h = Some l ∧ (2 ≤ length l)%nat ∧ total_weight a / 2 < weight_of l ∧
    (h ∉ consensus_signaled a) ∧ h ∈ consensus_signaled (check_consensus a h).1.
Proof.
  unfold check_consensus. case_bool_decide; [done|]. destruct (votes a !! h) as [l|]; [|done].
  destruct (Nat.ltb_spec (length l) 2); [done|]. destruct (Z.ltb_spec 0 (total_weight a)); [|done].
  destruct (Z.ltb_spec (total_weight a / 2) (weight_of l)); [|done]. intros _. exists l.
  split_and!; [done..|]. cbn. set_solver.
Qed.

(** In any reachable state of a block-vote accumulator at most one block has consensus, when
    the weights are non-negative and add up within 64 bits. *)
Theorem consensus_unique os h1 h2 :
  let a := vote_run (acc_new : VoteAccumulator P) os in
  sane_weights a → (check_consensus a h1).2 = true → (check_consensus a h2).2 = true → h1 = h2.
Proof.
  cbn. set (a := vote_run acc_new os). intros Hw Hc1 Hc2.
  destruct (check_true a h1 Hc1) as (l1 & Hl1 & _ & Hm1 & _).
  destruct (check_true a h2 Hc2) as (l2 & Hl2 & _ & Hm2 & _).
  destruct (decide (h1 = h2)) as [|Hne]; [done|exfalso].
  pose proof (block_weights_le a h1 h2 l1 l2 Hne Hl1 Hl2 Hw) as Hle.
  rewrite <-(total_weight_sum a (vote_run_ok os) Hw) in Hle.
  pose proof (Z.div_mod (total_weight a) 2 ltac:(lia)). pose proof (Z.mod_pos_bound (total_weight a) 2). lia.
Qed.

(** Consensus on a block has at least two distinct voters and is signalled only once: until
    the block or the accumulator is cleared no later history signals it again. *)
Theorem consensus_signals_once os h os' :
  let a := vote_run (acc_new : VoteAccumulator P) os in
  (check_consensus a h).2 = true → Forall (λ o, o ≠ VClear h ∧ o ≠ VClearAll) os' →
  (∃ v1 v2, v1 ∈ get_voters a h ∧ v2 ∈ get_voters a h ∧ v1 ≠ v2) ∧
  (check_consensus (vote_run (check_consensus a h).1 os') h).2 = false.
Proof.
  cbn. pose proof (vote_run_ok os) as Hok. generalize dependent (vote_run acc_new os). intros a Hok Hc Hos.
  destruct (check_true a h Hc) as (l & Hl & Hlen & _ & _ & Hin). split.
  - unfold get_voters. rewrite Hl. cbn. pose proof (ao_nodup a Hok h l Hl) as Hnd.
    destruct l as [|v1 [|v2 l]]; cbn in *; [lia..|]. exists (voter_of v1), (voter_of v2).
    apply NoDup_cons in Hnd as [Hn _]. set_solver.
  - assert (h ∈ consensus_signaled (vote_run (check_consensus a h).1 os')) as Hs.
    { revert Hin. generalize (check_consensus a h).1 as b. clear Hc Hl. induction Hos as [|o os' [Ho1 Ho2] Hos IH];
        intros b Hb; [done|]. apply IH. destruct o; cbn; try done.
      - unfold acc_add_vote. split_matches; done.
      - unfold check_consensus. split_matches; try done. set_solver.
      - assert (h0 ≠ h) by congruence. set_solver. }
    unfold check_consensus. by rewrite bool_decide_true.
Qed.
End accumulator_proofs.

Section witnesses.
#[local] Existing Instance canonical_iter.

Definition w_votes : list (vote_op ()) := [VAdd [1] "a" tt 10; VAdd [1] "b" tt 1; VAdd [2] "c" tt 5; VAdd [2] "a" tt 10].

Lemma consensus_unique_witness : (check_consensus (vote_run acc_new w_votes) [1]).2 = true ∧ [1] = [1 : Z].
Proof.
  split; [vm_compute; reflexivity|]. apply (consensus_unique w_votes [1] [1]).
  - split; [|vm_compute; reflexivity]. apply (bool_decide_unpack _). vm_compute. exact I.
  - vm_compute. reflexivity.
  - vm_compute. reflexivity.
Defined.

Lemma consensus_signals_once_witness :
  (check_consensus (vote_run (check_consensus (vote_run acc_new w_votes) [1]).1
     [VAdd [1] "d" tt 3; VCheck [2]]) [1]).2 = false.
Proof.
  apply (consensus_signals_once w_votes [1] [VAdd [1] "d" tt 3; VCheck [2]]).
  - vm_compute. reflexivity.
  - rewrite !Forall_cons, Forall_nil. done.
Defined.

(** The majority is of the votes cast so far: a block that reached consensus does not keep
    votes that arrive later from giving it to another one. *)
Theorem late_votes_signal_another_block :
  let a1 := vote_run acc_new [VAdd [1] "a" tt 10; VAdd [1] "b" tt 10] in
  let a2 := vote_run (check_consensus a1 [1]).1 [VAdd [2] "c" tt 10; VAdd [2] "d" tt 10; VAdd [2] "e" tt 10] in
  (check_consensus a1 [1]).2 = true ∧ (check_consensus a2 [2]).2 = true ∧
  [1] ∈ consensus_signaled (check_consensus a2 [2]).1 ∧ [2] ∈ consensus_signaled (check_consensus a2 [2]).1.
Proof.
  cbv zeta. split_and!; [vm_compute; reflexivity|vm_compute; reflexivity|..];
    apply (bool_decide_unpack _); vm_compute; exact I.
Qed.
End witnesses.
