(* ===== verification/TimeVoteEngine.v ===== *)
(** * The TimeVote engine: votes on transactions (src/consensus.rs, TimeVoteConsensus)

    The part of [TimeVoteConsensus] that tracks transactions: preferences, validator
    set snapshots, the accumulation of signed votes, the assembly and verification
    of TimeProofs and the handling of competing ones.  The masternode registry is
    read through [active_masternodes_cached]: the list of active masternodes is an
    argument.  The maps of the liveness fallback are not part of the record. *)

From Stdlib Require Import ZArith Lia Ascii String.
From stdpp Require Import base gmap strings list.
From S2P Require Import Prelude Types Instances Finality.

Inductive Preference := PrefAccept | PrefReject.
Record VotingState := mkVotingState { preference : Preference; last_finalized : option Preference }.
Definition voting_new (p : Preference) : VotingState := mkVotingState p None.
Definition voting_finalize (v : VotingState) : VotingState :=
  mkVotingState (preference v) (Some (preference v)).

Record ValidatorInfo := mkValidatorInfo { vi_address : string; vi_weight : Z }.

(** A snapshot of the active validator set; [validators_ref] is the list used at
    run time, [validators] the one that is serialized. *)
Record AVSSnapshot := mkSnapshot {
  as_slot_index : Z;
  validators_ref : option (list ValidatorInfo);
  validators : list (string * Z);
  as_total_weight : Z;
  as_timestamp : Z;
}.
Definition snapshot_with_ref (now slot : Z) (vs : list ValidatorInfo) : AVSSnapshot :=
  mkSnapshot slot (Some vs) [] (sum64 (vi_weight <$> vs)) now.
Definition snapshot_new (now slot : Z) (vs : list (string * Z)) : AVSSnapshot :=
  mkSnapshot slot None vs (sum64 vs.*2) now.
Definition get_validator_weight (s : AVSSnapshot) (mn_id : string) : option Z :=
  match validators_ref s with
  | Some vs => vi_weight <$> List.find (λ v, String.eqb (vi_address v) mn_id) vs
  | None => snd <$> List.find (λ v : string * Z, String.eqb v.1 mn_id) (validators s)
  end.
Definition contains_validator (s : AVSSnapshot) (mn_id : string) : bool :=
  match validators_ref s with
  | Some vs => existsb (λ v, String.eqb (vi_address v) mn_id) vs
  | None => existsb (λ v : string * Z, String.eqb v.1 mn_id) (validators s)
  end.
Definition voting_threshold (s : AVSSnapshot) : Z := finality_threshold (as_total_weight s).

Record TimeProofConflictInfo := mkConflict {
  ci_txid : Hash256; ci_slot_index : Z; proof_count : Z; proof_weights : list Z; max_weight : Z;
  winning_proof_index : nat; detected_at : Z; resolved : bool;
}.

Record TimeVoteConsensus := mkTvc {
  tx_state : gmap Hash256 VotingState;
  tvc_finalized : gmap Hash256 (Preference * Z);
  avs_snapshots : gmap Z AVSSnapshot;
  timeproof_votes : gmap Hash256 (list TimeVote);
  accumulated_weight : gmap Hash256 Z;
  tx_status : gmap Hash256 TransactionStatus;
  competing_timeproofs : gmap Hash256 (list TimeProof);
  timeproof_conflicts : gmap (Hash256 * Z) TimeProofConflictInfo;
  txs_finalized : Z;
  timeproof_conflicts_detected : Z;
}.

Inductive tv_error :=
| VoterNotActive (id : string) | BadVoteSignature | DuplicateVote (id : string) | WeightOverflow
| DuplicateVoterInProof | NoVotes | NoAcceptVotes | MismatchedSlot | MismatchedSubject
| ProofInvalid (e : proof_error).

Section engine.
Context `{Externals}.
Implicit Types c : TimeVoteConsensus.

Definition tvc_new : TimeVoteConsensus := mkTvc ∅ ∅ ∅ ∅ ∅ ∅ ∅ ∅ 0 0.
Definition set_votes (v : gmap Hash256 (list TimeVote)) (w : gmap Hash256 Z) c : TimeVoteConsensus :=
  mkTvc (tx_state c) (tvc_finalized c) (avs_snapshots c) v w (tx_status c) (competing_timeproofs c)
    (timeproof_conflicts c) (txs_finalized c) (timeproof_conflicts_detected c).
Definition set_competing (m : gmap Hash256 (list TimeProof)) (k : gmap (Hash256 * Z) TimeProofConflictInfo)
    (n : Z) c : TimeVoteConsensus :=
  mkTvc (tx_state c) (tvc_finalized c) (avs_snapshots c) (timeproof_votes c) (accumulated_weight c)
    (tx_status c) m k (txs_finalized c) n.

(** [u64::checked_add]. *)
Definition checked_add (a b : Z) : option Z := if a + b <? U64 then Some (a + b) else None.

Definition get_validators (mns : list MasternodeInfo) : list ValidatorInfo :=
  (λ mn, mkValidatorInfo (mn_address (masternode mn)) (sampling_weight (tier (masternode mn)))) <$> mns.

Definition initiate_consensus c (t : Hash256) (p : Preference) : TimeVoteConsensus * bool :=
  if bool_decide (is_Some (tvc_finalized c !! t)) then (c, false)
  else if bool_decide (is_Some (tx_state c !! t)) then (c, false)
  else (mkTvc (<[t := voting_new p]> (tx_state c)) (tvc_finalized c) (avs_snapshots c) (timeproof_votes c)
          (accumulated_weight c) (tx_status c) (competing_timeproofs c) (timeproof_conflicts c)
          (txs_finalized c) (timeproof_conflicts_detected c), true).

Definition cleanup_one c (t : Hash256) : TimeVoteConsensus :=
  mkTvc (delete t (tx_state c)) (delete t (tvc_finalized c)) (avs_snapshots c)
    (delete t (timeproof_votes c)) (delete t (accumulated_weight c)) (tx_status c)
    (competing_timeproofs c) (timeproof_conflicts c) (txs_finalized c) (timeproof_conflicts_detected c).
(** Times are nanoseconds. *)
Definition cleanup_old_finalized `{MapIter} (now : Z) c (retention : Z) : TimeVoteConsensus * Z :=
  let old := (filter (λ e : Hash256 * (Preference * Z), e.2.2 < now - retention) (iter (tvc_finalized c))).*1 in
  (foldl cleanup_one c old, Z.of_nat (length old)).

Definition ASS_SNAPSHOT_RETENTION : Z := 100.
Definition create_avs_snapshot (now : Z) (mns : list MasternodeInfo) c (slot : Z)
    : TimeVoteConsensus * AVSSnapshot :=
  let s := snapshot_with_ref now slot (get_validators mns) in
  let snaps := <[slot := s]> (avs_snapshots c) in
  let snaps := if ASS_SNAPSHOT_RETENTION <? slot then delete (slot - ASS_SNAPSHOT_RETENTION) snaps else snaps in
  (mkTvc (tx_state c) (tvc_finalized c) snaps (timeproof_votes c) (accumulated_weight c) (tx_status c)
     (competing_timeproofs c) (timeproof_conflicts c) (txs_finalized c) (timeproof_conflicts_detected c), s).

Definition find_mn (mns : list MasternodeInfo) (id : string) : option MasternodeInfo :=
  List.find (λ info, String.eqb (mn_address (masternode info)) id) mns.

Definition get_accumulated_votes c (t : Hash256) : list TimeVote := default [] (timeproof_votes c !! t).
Definition get_accumulated_weight c (t : Hash256) : Z := default 0 (accumulated_weight c !! t).

Definition accumulate_timevote (mns : list MasternodeInfo) c (vote : TimeVote)
    : TimeVoteConsensus * result tv_error Z :=
  let t := tv_txid vote in
  match find_mn mns (voter_mn_id vote) with
  | None => (c, Err (VoterNotActive (voter_mn_id vote)))
  | Some info =>
      if negb (vote_verify vote (public_key (masternode info))) then (c, Err BadVoteSignature)
      else
        let vs := get_accumulated_votes c t in
        if existsb (λ v, String.eqb (voter_mn_id v) (voter_mn_id vote)) vs
        then (set_votes (<[t := vs]> (timeproof_votes c)) (accumulated_weight c) c,
              Err (DuplicateVote (voter_mn_id vote)))
        else
          let votes := <[t := vs ++ [vote]]> (timeproof_votes c) in
          let w := get_accumulated_weight c t in
          match decision vote with
          | Accept =>
              match checked_add w (voter_weight vote) with
              | Some w' => (set_votes votes (<[t := w']> (accumulated_weight c)) c, Ok w')
              | None => (set_votes votes (<[t := w]> (accumulated_weight c)) c, Err WeightOverflow)
              end
          | Reject => (set_votes votes (accumulated_weight c) c, Ok w)
          end
  end.

(** The loop of [check_timeproof_finality]. *)
Fixpoint snapshot_weight (s : AVSSnapshot) (vs : list TimeVote) (seen : gset string) (total : Z)
    : result tv_error Z :=
  match vs with
  | [] => Ok total
  | v :: vs =>
      if bool_decide (decision v ≠ Accept) then snapshot_weight s vs seen total
      else if negb (contains_validator s (voter_mn_id v)) then snapshot_weight s vs seen total
      else if bool_decide (voter_mn_id v ∈ seen) then Err DuplicateVoterInProof
      else
        let seen := {[voter_mn_id v]} ∪ seen in
        match get_validator_weight s (voter_mn_id v) with
        | Some w => match checked_add total w with
                    | Some total => snapshot_weight s vs seen total
                    | None => Err WeightOverflow
                    end
        | None => snapshot_weight s vs seen total
        end
  end.
Definition check_timeproof_finality c (t : Hash256) (s : AVSSnapshot) : result tv_error bool :=
  match get_accumulated_votes c t with
  | [] => Ok false
  | vs => let? total := snapshot_weight s vs ∅ 0 in Ok (voting_threshold s <=? total)
  end.

Definition clear_timeproof_votes c (t : Hash256) : TimeVoteConsensus :=
  set_votes (delete t (timeproof_votes c)) (delete t (accumulated_weight c)) c.

Fixpoint checked_sum (l : list Z) (total : Z) : result tv_error Z :=
  match l with
  | [] => Ok total
  | w :: l => match checked_add total w with Some t => checked_sum l t | None => Err WeightOverflow end
  end.
Definition calculate_timeproof_weight (p : TimeProof) : result tv_error Z :=
  checked_sum (voter_weight <$> tp_votes p) 0.

Fixpoint weights_of (ps : list TimeProof) : result tv_error (list Z) :=
  match ps with
  | [] => Ok []
  | p :: ps => let? w := calculate_timeproof_weight p in let? ws := weights_of ps in Ok (w :: ws)
  end.
(** [enumerate().max_by_key(|(_, w)| *w)]: the last of the largest; [i] and [best]
    are the position and the candidate. *)
Fixpoint max_by_weight (l : list Z) (i : nat) (best : option (nat * Z)) : option (nat * Z) :=
  match l with
  | [] => best
  | w :: l =>
      let best := match best with
                  | Some (j, b) => if w <? b then Some (j, b) else Some (i, w)
                  | None => Some (i, w)
                  end in
      max_by_weight l (Datatypes.S i) best
  end.

(** A failure to weigh an earlier proof leaves the entry created but not extended. *)
Definition detect_competing_timeproof (now : Z) c (new_proof : TimeProof) (new_weight : Z)
    : TimeVoteConsensus * result tv_error nat :=
  let t := tp_txid new_proof in
  let proofs := default [] (competing_timeproofs c !! t) in
  match weights_of proofs with
  | Err e => (set_competing (<[t := proofs]> (competing_timeproofs c)) (timeproof_conflicts c)
                (timeproof_conflicts_detected c) c, Err e)
  | Ok ws =>
      let proofs := proofs ++ [new_proof] in
      let ws := ws ++ [new_weight] in
      let m := <[t := proofs]> (competing_timeproofs c) in
      match max_by_weight ws 0 None with
      | None => (set_competing m (timeproof_conflicts c) (timeproof_conflicts_detected c) c, Err NoVotes)
      | Some (i, w) =>
          if (2 <=? length proofs)%nat then
            let info := mkConflict t (tp_slot_index new_proof) (Z.of_nat (length proofs)) ws w i now false in
            (set_competing m (<[(t, tp_slot_index new_proof) := info]> (timeproof_conflicts c))
               (timeproof_conflicts_detected c + 1) c, Ok i)
          else (set_competing m (timeproof_conflicts c) (timeproof_conflicts_detected c) c, Ok i)
      end
  end.

Fixpoint heaviest (ps : list TimeProof) (max : Z) (best : TimeProof) : result tv_error TimeProof :=
  match ps with
  | [] => Ok best
  | p :: ps => let? w := calculate_timeproof_weight p in
               if max <? w then heaviest ps w p else heaviest ps max best
  end.
Definition mark_resolved (k : Hash256 * Z) (m : gmap (Hash256 * Z) TimeProofConflictInfo)
    : gmap (Hash256 * Z) TimeProofConflictInfo :=
  alter (λ i, mkConflict (ci_txid i) (ci_slot_index i) (proof_count i) (proof_weights i) (max_weight i)
                (winning_proof_index i) (detected_at i) true) k m.
Definition resolve_timeproof_fork c (t : Hash256) : TimeVoteConsensus * result tv_error (option TimeProof) :=
  match competing_timeproofs c !! t with
  | None | Some [] => (c, Ok None)
  | Some (p0 :: ps) =>
      match heaviest (p0 :: ps) 0 p0 with
      | Err e => (c, Err e)
      | Ok p => (set_competing (competing_timeproofs c)
                   (mark_resolved (t, tp_slot_index p) (timeproof_conflicts c))
                   (timeproof_conflicts_detected c) c, Ok (Some p))
      end
  end.
Definition clear_competing_timeproofs c (t : Hash256) : TimeVoteConsensus :=
  set_competing (delete t (competing_timeproofs c)) (timeproof_conflicts c) (timeproof_conflicts_detected c) c.

Definition record_finalization (now now_ms : Z) c (t : Hash256) (w : Z) : TimeVoteConsensus :=
  mkTvc (tx_state c) (<[t := (PrefAccept, now)]> (tvc_finalized c)) (avs_snapshots c) (timeproof_votes c)
    (accumulated_weight c) (<[t := Finalized now_ms w]> (tx_status c)) (competing_timeproofs c)
    (timeproof_conflicts c) (txs_finalized c + 1) (timeproof_conflicts_detected c).

Definition is_accept (v : TimeVote) : bool := bool_decide (decision v = Accept).
Definition assemble_timeproof c (t : Hash256) : result tv_error TimeProof :=
  match get_accumulated_votes c t with
  | [] => Err NoVotes
  | all_votes =>
      match filter is_accept all_votes with
      | [] => Err NoAcceptVotes
      | v0 :: vs =>
          fail_if negb (forallb (λ v, slot_index v =? slot_index v0) (v0 :: vs)) with MismatchedSlot in
          fail_if negb (forallb (λ v, bool_decide (tv_txid v = t) &&
                          bool_decide (tx_hash_commitment v = tx_hash_commitment v0)) (v0 :: vs))
            with MismatchedSubject in
          Ok (mkTimeProof t (slot_index v0) (v0 :: vs))
      end
  end.

Definition avs_weight (mns : list MasternodeInfo) : Z :=
  sum64 ((λ mn, sampling_weight (tier (masternode mn))) <$> mns).
Definition verify_timeproof (mns : list MasternodeInfo) (tp : TimeProof) : result tv_error Z :=
  map_err ProofInvalid
    (verify tp (avs_weight mns) (λ id, (λ info, public_key (masternode info)) <$> find_mn mns id)).
End engine.

(** ** Histories *)

Inductive tv_op :=
| TvInit (t : Hash256) (p : Preference)
| TvSnapshot (now : Z) (mns : list MasternodeInfo) (slot : Z)
| TvVote (mns : list MasternodeInfo) (v : TimeVote)
| TvClear (t : Hash256)
| TvDetect (now : Z) (p : TimeProof) (w : Z) | TvResolve (t : Hash256) | TvClearCompeting (t : Hash256)
| TvRecord (now now_ms : Z) (t : Hash256) (w : Z)
| TvCleanup (now retention : Z).

Section engine_proofs.
Context `{Externals} `{MapIter}.
Implicit Types c : TimeVoteConsensus.

Definition tv_exec c (o : tv_op) : TimeVoteConsensus :=
  match o with
  | TvInit t p => (initiate_consensus c t p).1
  | TvSnapshot now mns slot => (create_avs_snapshot now mns c slot).1
  | TvVote mns v => (accumulate_timevote mns c v).1
  | TvClear t => clear_timeproof_votes c t
  | TvDetect now p w => (detect_competing_timeproof now c p w).1
  | TvResolve t => (resolve_timeproof_fork c t).1
  | TvClearCompeting t => clear_competing_timeproofs c t
  | TvRecord now now_ms t w => record_finalization now now_ms c t w
  | TvCleanup now retention => (cleanup_old_finalized now c retention).1
  end.
Definition tv_run c (os : list tv_op) : TimeVoteConsensus := foldl tv_exec c os.

(** Votes arrive with a weight that is a [u64]. *)
Definition op_u64 (o : tv_op) : Prop := match o with TvVote _ v => u64_ok (voter_weight v) | _ => True end.

Definition accept_weight (vs : list TimeVote) : Z := sumZ (voter_weight <$> filter is_accept vs).

(** The votes on one transaction, with the weight kept for them. *)
Record votes_ok (good : TimeVote → Prop) (t : Hash256) (vs : list TimeVote) (w : Z) : Prop := mkVotesOk {
  vo_nodup : NoDup (voter_mn_id <$> vs);
  vo_txid : Forall (λ v, tv_txid v = t ∧ u64_ok (voter_weight v) ∧ good v) vs;
  vo_weight : 0 ≤ w < U64 ∧ w ≤ accept_weight vs ∧ (accept_weight vs < U64 → w = accept_weight vs);
}.
Definition tvc_inv (good : TimeVote → Prop) c : Prop :=
  ∀ t, votes_ok good t (get_accumulated_votes c t) (get_accumulated_weight c t).

Lemma votes_ok_nil good t : votes_ok good t [] 0.
Proof. split; [apply NoDup_nil_2|done|]. by vm_compute. Qed.

Lemma tvc_inv_mono (good good' : TimeVote → Prop) c : (∀ v, good v → good' v) → tvc_inv good c → tvc_inv good' c.
Proof. intros Hg Hc t. destruct (Hc t) as [V1 V2 V3]. split; [done| |done]. eapply Forall_impl; [exact V2|]. naive_solver. Qed.
Lemma tvc_inv_same good c c' :
  timeproof_votes c' = timeproof_votes c → accumulated_weight c' = accumulated_weight c →
  tvc_inv good c → tvc_inv good c'.
Proof. intros E1 E2 Hc t. unfold get_accumulated_votes, get_accumulated_weight. rewrite E1, E2. apply Hc. Qed.

Lemma tvc_inv_delete good c c' t :
  timeproof_votes c' = delete t (timeproof_votes c) →
  accumulated_weight c' = delete t (accumulated_weight c) → tvc_inv good c → tvc_inv good c'.
Proof.
  intros E1 E2 Hc t'. unfold get_accumulated_votes, get_accumulated_weight. rewrite E1, E2, !lookup_delete.
  case_decide; [apply votes_ok_nil|apply Hc].
Qed.

Lemma accept_weight_snoc vs v :
  accept_weight (vs ++ [v]) = accept_weight vs + (if is_accept v then voter_weight v else 0).
Proof.
  unfold accept_weight. rewrite filter_app, fmap_app, sumZ_app. f_equal.
  rewrite filter_cons, filter_nil. destruct (is_accept v); unfold sumZ; cbn; case_decide; cbn; (done || lia).
Qed.

Lemma votes_ok_snoc good t vs w w' v :
  votes_ok good t vs w → (voter_mn_id v ∉ voter_mn_id <$> vs) → tv_txid v = t →
  u64_ok (voter_weight v) → good v →
  0 ≤ w' < U64 ∧ w' ≤ accept_weight (vs ++ [v]) ∧
    (accept_weight (vs ++ [v]) < U64 → w' = accept_weight (vs ++ [v])) →
  votes_ok good t (vs ++ [v]) w'.
Proof.
  intros [Hn Ht Hw] Hv Htx Hu Hg Hw'. split; [| |done].
  - rewrite fmap_app. apply NoDup_app. split_and!; [done| |apply NoDup_singleton].
    cbn. by intros i Hi ->%list_elem_of_singleton.
  - apply Forall_app. split; [done|]. by apply Forall_singleton.
Qed.

Lemma not_voted vs id :
  existsb (λ v, String.eqb (voter_mn_id v) id) vs = false → id ∉ voter_mn_id <$> vs.
Proof.
  intros Hf (v & -> & Hin)%list_elem_of_fmap. apply not_true_iff_false in Hf. apply Hf, existsb_exists.
  exists v. split; [by apply list_elem_of_In|apply String.eqb_refl].
Qed.

Definition valid_under (mns : list MasternodeInfo) (v : TimeVote) : Prop :=
  ∃ info, find_mn mns (voter_mn_id v) = Some info ∧ vote_verify v (public_key (masternode info)) = true.

Lemma tvc_inv_set good c t vs w :
  tvc_inv good c → votes_ok good t vs w →
  tvc_inv good (set_votes (<[t := vs]> (timeproof_votes c)) (<[t := w]> (accumulated_weight c)) c).
Proof.
  intros Hc Hv t'. unfold get_accumulated_votes, get_accumulated_weight. cbn. rewrite !lookup_insert.
  case_decide; [by subst|apply Hc].
Qed.
Lemma tvc_inv_set_votes good c t vs :
  tvc_inv good c → votes_ok good t vs (get_accumulated_weight c t) →
  tvc_inv good (set_votes (<[t := vs]> (timeproof_votes c)) (accumulated_weight c) c).
Proof.
  intros Hc Hv t'. unfold get_accumulated_votes, get_accumulated_weight in *. cbn. rewrite !lookup_insert.
  case_decide; [by subst|apply Hc].
Qed.

Lemma accumulate_inv (good : TimeVote → Prop) mns c v :
  (valid_under mns v → good v) → u64_ok (voter_weight v) → tvc_inv good c →
  tvc_inv good (accumulate_timevote mns c v).1.
Proof.
  intros Hgood Hu Hc. unfold accumulate_timevote.
  destruct (find_mn mns (voter_mn_id v)) as [info|] eqn:Em; [|done].
  destruct (vote_verify v _) eqn:Ev; [|done]. cbn [negb].
  pose proof (Hc (tv_txid v)) as Hok. set (vs := get_accumulated_votes c (tv_txid v)) in *.
  destruct (existsb _ vs) eqn:Hex; [by apply tvc_inv_set_votes|]. apply not_voted in Hex.
  assert (good v) as Hg by (apply Hgood; by exists info).
  pose proof (vo_weight _ _ _ _ Hok) as Hw. set (w := get_accumulated_weight c (tv_txid v)) in *.
  pose proof (accept_weight_snoc vs v) as Ha. unfold is_accept in Ha. unfold u64_ok in Hu.
  destruct (decision v) eqn:Ed.
  - rewrite bool_decide_true in Ha by done. unfold checked_add.
    destruct (Z.ltb_spec (w + voter_weight v) U64); apply tvc_inv_set; try done;
      (apply (votes_ok_snoc _ _ _ w); [done..|lia]).
  - rewrite bool_decide_false in Ha by done. apply tvc_inv_set_votes; [done|].
    apply (votes_ok_snoc _ _ _ w); [done..|fold w; lia].
Qed.

Lemma tv_exec_inv (good : TimeVote → Prop) c o :
  op_u64 o → (∀ mns v, o = TvVote mns v → valid_under mns v → good v) →
  tvc_inv good c → tvc_inv good (tv_exec c o).
Proof.
  intros Hu Hg Hc. destruct o; cbn [tv_exec].
  - eapply tvc_inv_same, Hc; unfold initiate_consensus; split_matches; done.
  - by eapply tvc_inv_same, Hc.
  - apply accumulate_inv; eauto.
  - by eapply tvc_inv_delete, Hc.
  - eapply tvc_inv_same, Hc; unfold detect_competing_timeproof; split_matches; done.
  - eapply tvc_inv_same, Hc; unfold resolve_timeproof_fork; split_matches; done.
  - by eapply tvc_inv_same, Hc.
  - by eapply tvc_inv_same, Hc.
  - cbn. apply (foldl_preserve cleanup_one (tvc_inv good)); [|done].
    intros c' t Hc'. by eapply tvc_inv_delete, Hc'.
Qed.

Lemma tv_run_inv (good : TimeVote → Prop) os :
  Forall op_u64 os → (∀ mns v, TvVote mns v ∈ os → valid_under mns v → good v) →
  tvc_inv good (tv_run tvc_new os).
Proof.
  intros Hu Hg. assert (tvc_inv good tvc_new) as Hc.
  { intros t. unfold get_accumulated_votes, get_accumulated_weight. cbn. rewrite !lookup_empty.
    apply votes_ok_nil. }
  revert Hc. generalize tvc_new as c. induction Hu as [|o os Ho Hu IH]; intros c Hc; [done|].
  apply IH; [intros mns v Hin; apply Hg; set_solver|]. apply tv_exec_inv; [done| |done].
  intros mns v ->. apply Hg. set_solver.
Qed.

(** In every reachable state of the vote accumulator, the votes held for a transaction come
    from distinct voters, each is for that transaction and was validly signed by a node
    active when it arrived, and the running weight is the weight of the accepting votes as
    long as that fits in 64 bits. *)
Theorem accumulated_votes_sound os t :
  Forall op_u64 os →
  let c := tv_run tvc_new os in let vs := get_accumulated_votes c t in
  NoDup (voter_mn_id <$> vs) ∧
  Forall (λ v, tv_txid v = t ∧ ∃ mns, TvVote mns v ∈ os ∧ valid_under mns v) vs ∧
  (accept_weight vs < U64 → get_accumulated_weight c t = accept_weight vs).
Proof.
  intros Hu. destruct (tv_run_inv (λ v, ∃ mns, TvVote mns v ∈ os ∧ valid_under mns v) os Hu)
    with (t := t) as [Hn Ht Hw]; [by eauto|]. cbn. split_and!; [done| |apply Hw].
  eapply Forall_impl; [exact Ht|]. naive_solver.
Qed.

(** ** Assembling and verifying *)

Lemma assemble_ok c t tp :
  assemble_timeproof c t = Ok tp →
  ∃ v0 vs, filter is_accept (get_accumulated_votes c t) = v0 :: vs ∧ tp = mkTimeProof t (slot_index v0) (v0 :: vs) ∧
    Forall (λ v, slot_index v = slot_index v0 ∧ tv_txid v = t ∧
                 tx_hash_commitment v = tx_hash_commitment v0) (v0 :: vs).
Proof.
  unfold assemble_timeproof. destruct (get_accumulated_votes c t) as [|a l]; [done|].
  destruct (filter is_accept (a :: l)) as [|v0 vs]; [done|].
  destruct (forallb (λ v, slot_index v =? slot_index v0) _) eqn:E1; [|done]. cbn [negb].
  destruct (forallb (λ v, bool_decide (tv_txid v = t) && _) (v0 :: vs)) eqn:E2; [|done]. cbn [negb].
  intros [= <-]. exists v0, vs. split_and!; [done..|].
  rewrite forallb_forall in E1, E2. apply Forall_forall. intros v Hv%list_elem_of_In.
  specialize (E1 v Hv). specialize (E2 v Hv). apply andb_true_iff in E2 as [E2 E3].
  apply bool_decide_eq_true in E2, E3. apply Z.eqb_eq in E1. done.
Qed.

(** C31: What one node assembles another accepts: a TimeProof assembled from accumulated
    votes of one chain passes verification against the same validator set, with the
    accumulated weight, as soon as that weight reaches the finality threshold, provided the
    weights that the accepting votes declare add up to less than 2^64. *)
Theorem assembled_timeproof_verifies mns os t tp :
  Forall op_u64 os → (∀ mns' v, TvVote mns' v ∈ os → mns' = mns) →
  (∀ v v', v ∈ get_accumulated_votes (tv_run tvc_new os) t →
     v' ∈ get_accumulated_votes (tv_run tvc_new os) t → chain_id v = chain_id v') →
  accept_weight (get_accumulated_votes (tv_run tvc_new os) t) < U64 →
  assemble_timeproof (tv_run tvc_new os) t = Ok tp →
  finality_threshold (avs_weight mns) ≤ get_accumulated_weight (tv_run tvc_new os) t →
  verify_timeproof mns tp = Ok (get_accumulated_weight (tv_run tvc_new os) t).
Proof.
  intros Hu Hmns Hchain Hb Ha Hthr.
  destruct (tv_run_inv (valid_under mns) os Hu) with (t := t) as [Hn Ht Hw].
  { intros mns' v Hin. by rewrite (Hmns mns' v Hin). }
  set (c := tv_run tvc_new os) in *. set (vs := get_accumulated_votes c t) in *.
  destruct (assemble_ok c t tp Ha) as (v0 & rest & Ef & -> & Hall). fold vs in Ef.
  assert (Hsub : ∀ v, v ∈ v0 :: rest → v ∈ vs ∧ is_accept v = true).
  { intros v. rewrite <-Ef, list_elem_of_filter. intros [Hv ?]. split; [done|by apply Is_true_true]. }
  assert (sumZ (voter_weight <$> v0 :: rest) = accept_weight vs) as Hsum by (unfold accept_weight; by rewrite Ef).
  destruct Hw as (Hw1 & _ & Hw2). specialize (Hw2 Hb).
  unfold verify_timeproof. erewrite (proj2 (verify_spec _ _ _ _)); [done|].
  split_and!; cbn [tp_votes].
  - exists v0, rest. split; [done|]. apply Forall_forall. intros v Hv.
    destruct (Hsub v Hv) as [Hin Hacc]. rewrite Forall_forall in Hall, Ht.
    destruct (Hall v Hv) as (Es & Et & Ec). destruct (Ht v Hin) as (_ & _ & info & Hf & Hver).
    destruct (Hsub v0 (list_elem_of_here _ _)) as [Hin0 _]. destruct (Hall v0 (list_elem_of_here _ _)) as (_ & Et0 & _).
    split_and!.
    + unfold same_subject. rewrite (Hchain v v0 Hin Hin0), Es, Z.eqb_refl, Z.eqb_refl.
      rewrite !bool_decide_true by congruence. done.
    + by apply bool_decide_eq_true in Hacc.
    + exists (public_key (masternode info)). rewrite Hf. by rewrite Hver.
  - change (NoDup (voter_mn_id <$> v0 :: rest)). rewrite <-Ef. eapply sublist_NoDup; [exact Hn|].
    apply fmap_sublist, sublist_filter.
  - change (map voter_weight (v0 :: rest)) with (voter_weight <$> v0 :: rest).
    rewrite sum64_small; rewrite Hsum; [done|lia].
  - done.
Qed.

(** One accepted vote with another slot keeps the proof from being assembled, whatever the
    weight of the others. *)
Theorem one_vote_blocks_assembly mns c v v' w :
  v ∈ get_accumulated_votes c (tv_txid v') → decision v = Accept → decision v' = Accept →
  slot_index v' ≠ slot_index v → (accumulate_timevote mns c v').2 = Ok w →
  ∃ e, assemble_timeproof (accumulate_timevote mns c v').1 (tv_txid v') = Err e.
Proof.
  intros Hin Hd Hd' Hs Hok. destruct (assemble_timeproof _ _) as [tp|e] eqn:Ha; [exfalso|eauto].
  assert (v' ∈ get_accumulated_votes (accumulate_timevote mns c v').1 (tv_txid v') ∧
          v ∈ get_accumulated_votes (accumulate_timevote mns c v').1 (tv_txid v')) as [H1 H2].
  { revert Hok. unfold accumulate_timevote. rewrite Hd'. destruct (find_mn _ _); [|done].
    destruct (vote_verify _ _); [|done]. cbn [negb]. destruct (existsb _ _); [done|].
    destruct (checked_add _ _); [|done]. intros _. unfold get_accumulated_votes at 1 3. cbn.
    rewrite lookup_insert_eq. cbn. rewrite !elem_of_app, list_elem_of_singleton. auto. }
  apply assemble_ok in Ha as (v0 & vs & Ef & _ & Hall). rewrite Forall_forall in Hall.
  assert (∀ u, u ∈ get_accumulated_votes (accumulate_timevote mns c v').1 (tv_txid v') →
    decision u = Accept → slot_index u = slot_index v0) as Hslot.
  { intros u Hu Hdu. apply Hall. rewrite <-Ef. apply list_elem_of_filter. split; [|done].
    apply Is_true_true. by apply bool_decide_eq_true. }
  rewrite (Hslot v' H1 Hd'), (Hslot v H2 Hd) in Hs. done.
Qed.

(** ** The monitoring check *)

Definition snapshot_weights (s : AVSSnapshot) (vs : list TimeVote) : list Z :=
  omap (λ v, if is_accept v then get_validator_weight s (voter_mn_id v) else None) vs.

Lemma existsb_find {A} (f : A → bool) l : existsb f l = true ↔ is_Some (List.find f l).
Proof.
  induction l as [|x l IH]; cbn; [split; [done|by intros [? ?]]|]. destruct (f x); cbn; [|done].
  split; [by eexists|done].
Qed.
Lemma contains_get s id : contains_validator s id = true ↔ is_Some (get_validator_weight s id).
Proof.
  unfold contains_validator, get_validator_weight.
  destruct (validators_ref s) as [l|]; by rewrite fmap_is_Some, existsb_find.
Qed.

Lemma snapshot_weight_spec s vs seen total :
  NoDup (voter_mn_id <$> vs) → (∀ id, id ∈ voter_mn_id <$> vs → id ∉ seen) →
  Forall (λ w, 0 ≤ w) (snapshot_weights s vs) → total + sumZ (snapshot_weights s vs) < U64 →
  snapshot_weight s vs seen total = Ok (total + sumZ (snapshot_weights s vs)).
Proof.
  revert seen total. induction vs as [|v vs IH]; intros seen total Hnd Hs Hw Hb.
  { cbn. f_equal. change (sumZ _) with 0. lia. }
  cbn [fmap list_fmap] in *. apply NoDup_cons in Hnd as [Hn Hnd].
  assert (∀ id, id ∈ voter_mn_id <$> vs → id ∉ seen) as Hs1 by (intros; apply Hs; set_solver).
  assert (∀ id, id ∈ voter_mn_id <$> vs → id ∉ {[voter_mn_id v]} ∪ seen) as Hs2.
  { intros id Hid. rewrite not_elem_of_union, not_elem_of_singleton. split; [by intros ->|auto]. }
  unfold snapshot_weights, is_accept in *. cbn [snapshot_weight omap list_omap] in *.
  destruct (decision v) eqn:Ed.
  2: { rewrite (bool_decide_true (Reject ≠ Accept)) by done.
       rewrite (bool_decide_false (Reject = Accept)) in * by done. by apply IH. }
  rewrite (bool_decide_false (Accept ≠ Accept)) by auto.
  rewrite (bool_decide_true (Accept = Accept)) in * by done.
  pose proof (contains_get s (voter_mn_id v)) as Hc.
  destruct (get_validator_weight s (voter_mn_id v)) as [w|] eqn:Eg.
  - rewrite (proj2 Hc) by eauto. cbn [negb]. rewrite bool_decide_false by (apply Hs; set_solver).
    apply Forall_cons in Hw as [Hw0 Hw]. unfold checked_add.
    change (sumZ (w :: ?l)) with (w + sumZ l) in Hb |- *.
    pose proof (sumZ_nonneg _ Hw). rewrite (proj2 (Z.ltb_lt (total + w) U64)) by lia.
    rewrite IH; [f_equal; lia|done..|lia].
  - destruct (contains_validator s (voter_mn_id v)) eqn:Ec; [by destruct (proj1 Hc eq_refl)|].
    by apply IH.
Qed.

(** The finality check never fails on reachable votes: it answers whether some vote is held
    and the snapshot weight of the accepting members reaches the 67% threshold. *)
Theorem check_timeproof_finality_exact os t s :
  Forall op_u64 os →
  let vs := get_accumulated_votes (tv_run tvc_new os) t in
  Forall (λ w, 0 ≤ w) (snapshot_weights s vs) → sumZ (snapshot_weights s vs) < U64 →
  check_timeproof_finality (tv_run tvc_new os) t s =
    Ok (negb (bool_decide (vs = [])) && (voting_threshold s <=? sumZ (snapshot_weights s vs))).
Proof.
  intros Hu. destruct (tv_run_inv (λ _, True) os Hu) with (t := t) as [Hn _ _]; [done|].
  cbv zeta. unfold check_timeproof_finality. intros Hw Hb.
  destruct (get_accumulated_votes (tv_run tvc_new os) t) as [|v vs] eqn:E; [done|].
  rewrite snapshot_weight_spec; [by rewrite Z.add_0_l|done|set_solver|done|by rewrite Z.add_0_l].
Qed.

(** ** Competing proofs *)

Lemma max_by_weight_spec ws i best :
  match max_by_weight ws i best with
  | Some (k, w) => (best = Some (k, w) ∨ ∃ j, ws !! j = Some w ∧ k = (i + j)%nat) ∧
      (∀ j w', ws !! j = Some w' → w' ≤ w) ∧ (∀ k' w', best = Some (k', w') → w' ≤ w)
  | None => ws = [] ∧ best = None
  end.
Proof.
  revert i best. induction ws as [|w ws IH]; intros i best; cbn.
  { destruct best as [[k b]|]; [|done]. split_and!; [by left|by intros j w'; rewrite lookup_nil|].
    intros k' w' [= -> ->]. lia. }
  set (best' := match best with Some (j, b) => if w <? b then Some (j, b) else Some (i, w) | None => Some (i, w) end).
  assert (∃ k b, best' = Some (k, b) ∧ w ≤ b ∧ (best = Some (k, b) ∨ (k, b) = (i, w)) ∧
    ∀ k' b', best = Some (k', b') → b' ≤ b) as (k & b & Eb & Hwb & Hor & Hbb).
  { unfold best'. destruct best as [[j b]|]; [|exists i, w; split_and!; [done|lia|by right|done]].
    destruct (Z.ltb_spec w b); [exists j, b|exists i, w]; split_and!; try done; try lia; try naive_solver lia. }
  specialize (IH (Datatypes.S i) best'). rewrite Eb in *.
  destruct (max_by_weight ws (Datatypes.S i) (Some (k, b))) as [[k' w']|]; [|by destruct IH].
  destruct IH as (H1 & H2 & H3). specialize (H3 k b eq_refl). split_and!.
  - destruct H1 as [[= -> ->]|(j & Hj & ->)].
    + destruct Hor as [->|[= -> ->]]; [by left|]. right. exists 0%nat. split; [done|lia].
    + right. exists (Datatypes.S j). split; [done|lia].
  - intros [|j] w'' Hj; cbn in Hj; [simplify_eq; lia|eauto].
  - intros k'' w'' E. specialize (Hbb k'' w'' E). lia.
Qed.

Lemma weights_of_lookup ps ws :
  weights_of ps = Ok ws → length ws = length ps ∧
  ∀ j p, ps !! j = Some p → ∃ w, calculate_timeproof_weight p = Ok w ∧ ws !! j = Some w.
Proof.
  revert ws. induction ps as [|p ps IH]; intros ws; cbn.
  { intros [= <-]. split; [done|]. intros j p. by rewrite lookup_nil. }
  destruct (calculate_timeproof_weight p) as [w|] eqn:Ew; [|done].
  destruct (weights_of ps) as [ws'|]; [|done]. intros [= <-].
  destruct (IH ws' eq_refl) as [Hl Hlk]. split; [cbn; by f_equal|].
  intros [|j] q Hq; cbn in *; [simplify_eq; eauto|eauto].
Qed.

Lemma heaviest_spec ps ws m best :
  weights_of ps = Ok ws →
  ∃ p, heaviest ps m best = Ok p ∧
    ((p = best ∧ Forall (λ w, w ≤ m) ws) ∨
     ∃ j w, ps !! j = Some p ∧ ws !! j = Some w ∧ m < w ∧ Forall (λ w', w' ≤ w) ws).
Proof.
  revert ws m best. induction ps as [|p ps IH]; intros ws m best; cbn.
  { intros [= <-]. exists best. split; [done|]. by left. }
  destruct (calculate_timeproof_weight p) as [w|] eqn:Ew; [|done].
  destruct (weights_of ps) as [ws'|]; [|done]. intros [= <-]. destruct (Z.ltb_spec m w) as [Hlt|Hge].
  - destruct (IH ws' w p eq_refl) as (q & Hq & Hor). exists q. split; [done|]. right.
    destruct Hor as [[-> HF]|(j & w' & H1 & H2 & H3 & H4)].
    + exists 0%nat, w. split_and!; [done..|]. by constructor.
    + exists (Datatypes.S j), w'. split_and!; [done..|lia|]. constructor; [lia|done].
  - destruct (IH ws' m best eq_refl) as (q & Hq & Hor). exists q. split; [done|].
    destruct Hor as [[-> HF]|(j & w' & H1 & H2 & H3 & H4)].
    + left. split; [done|]. by constructor.
    + right. exists (Datatypes.S j), w'. split_and!; [done..|]. constructor; [lia|done].
Qed.

Lemma weights_of_snoc ps ws p w :
  weights_of ps = Ok ws → calculate_timeproof_weight p = Ok w → weights_of (ps ++ [p]) = Ok (ws ++ [w]).
Proof.
  intros Hps Hp. revert ws Hps. induction ps as [|q ps IH]; intros ws; cbn.
  { intros [= <-]. by rewrite Hp. }
  destruct (calculate_timeproof_weight q) as [wq|]; [|done]. destruct (weights_of ps) as [ws'|]; [|done].
  intros [= <-]. by rewrite (IH ws').
Qed.

(** Fork handling: detection announces a proof of the largest weight among the competing
    ones, and resolution returns that proof whenever its weight is positive and no other
    proof ties with it. *)
Theorem fork_resolution_agrees now c p w c1 i :
  calculate_timeproof_weight p = Ok w → detect_competing_timeproof now c p w = (c1, Ok i) →
  let proofs := default [] (competing_timeproofs c1 !! tp_txid p) in
  ∃ q wq, proofs !! i = Some q ∧ calculate_timeproof_weight q = Ok wq ∧
    (∀ j q' w', proofs !! j = Some q' → calculate_timeproof_weight q' = Ok w' → w' ≤ wq) ∧
    (0 < wq → (∀ j q', proofs !! j = Some q' → calculate_timeproof_weight q' = Ok wq → j = i) →
     (resolve_timeproof_fork c1 (tp_txid p)).2 = Ok (Some q)).
Proof.
  intros Hp Hdet. unfold detect_competing_timeproof in Hdet.
  destruct (weights_of (default [] _)) as [ws|] eqn:Ews; [|done].
  set (old := default [] (competing_timeproofs c !! tp_txid p)) in *.
  pose proof (weights_of_snoc old ws p w Ews Hp) as Hall.
  pose proof (max_by_weight_spec (ws ++ [w]) 0 None) as Hmax.
  destruct (max_by_weight (ws ++ [w]) 0 None) as [[k wk]|]; [|by simplify_eq].
  destruct Hmax as ([[=]|(j & Hj & ->)] & Hle & _). cbn [Nat.add] in *.
  assert (i = j ∧ competing_timeproofs c1 !! tp_txid p = Some (old ++ [p])) as [-> Ec].
  { destruct (2 <=? length (old ++ [p]))%nat; injection Hdet as <- <-; cbn; by rewrite lookup_insert_eq. }
  clear Hdet. cbv zeta. rewrite Ec. cbn [default from_option id].
  destruct (weights_of_lookup _ _ Hall) as [Hlen Hlk].
  destruct (lookup_lt_is_Some_2 (old ++ [p]) j) as [q Hq].
  { rewrite <-Hlen. by eapply lookup_lt_Some. }
  destruct (Hlk j q Hq) as (wq & Ewq & Hwq). assert (wq = wk) as -> by congruence.
  exists q, wk. split_and!; [done..| |].
  - intros j' q' w' Hq' Ew'. destruct (Hlk j' q' Hq') as (w'' & Ew'' & Hl). assert (w'' = w') as -> by congruence. eauto.
  - intros Hpos Huniq. unfold resolve_timeproof_fork. rewrite Ec.
    destruct (old ++ [p]) as [|p0 ps] eqn:Eps; [by destruct old|].
    destruct (heaviest_spec (p0 :: ps) _ 0 p0 Hall) as (r & -> & Hr).
    cbn. do 2 f_equal. destruct Hr as [[-> HF]|(j' & w' & H1 & H2 & H3 & H4)].
    + rewrite Forall_lookup in HF. specialize (HF j wk Hj). cbn in HF. lia.
    + assert (w' = wk) as ->.
      { rewrite Forall_lookup in H4. specialize (H4 j wk Hj). specialize (Hle j' w' H2). cbn in *. lia. }
      destruct (Hlk j' r H1) as (w'' & Ew'' & Hl). assert (w'' = wk) as -> by congruence.
      assert (j' = j) as -> by eauto. congruence.
Qed.
End engine_proofs.

Section witnesses.
#[local] Existing Instance model_externals.
#[local] Existing Instance canonical_iter.

Definition w_mn (id : string) : MasternodeInfo :=
  mkMasternodeInfo (new_legacy id id 0 w_key Bronze 0) "" 0 0 true false 0 0 0 0 Handshake ∅ None true 0 0 0.
Definition w_mns : list MasternodeInfo := w_mn <$> ["a"; "b"; "c"]%string.
Definition w_txid : Hash256 := replicate 32 1.
Definition w_ops : list tv_op :=
  [TvInit w_txid PrefAccept; TvVote w_mns (w_vote 1 "a" 10); TvVote w_mns (w_vote 1 "b" 10);
   TvVote w_mns (w_vote 1 "b" 10); TvVote w_mns (w_vote 1 "z" 10)].

Lemma w_ops_u64 : Forall op_u64 w_ops.
Proof. unfold w_ops. rewrite !Forall_cons, Forall_nil. by vm_compute. Qed.
Lemma w_ops_registry mns v : TvVote mns v ∈ w_ops → mns = w_mns.
Proof.
  unfold w_ops. rewrite !elem_of_cons, elem_of_nil.
  intros [E|[E|[E|[E|[E|[]]]]]]; [done|injection E as -> _; reflexivity..].
Qed.

Lemma accumulated_votes_sound_witness :
  NoDup (voter_mn_id <$> get_accumulated_votes (tv_run tvc_new w_ops) w_txid).
Proof. apply (accumulated_votes_sound w_ops w_txid). apply w_ops_u64. Defined.

Lemma assembled_timeproof_verifies_witness :
  verify_timeproof w_mns (mkTimeProof w_txid 5 [w_vote 1 "a" 10; w_vote 1 "b" 10; w_vote 1 "c" 10])
    = Ok (get_accumulated_weight (tv_run tvc_new (w_ops ++ [TvVote w_mns (w_vote 1 "c" 10)])) w_txid).
Proof.
  apply (assembled_timeproof_verifies w_mns (w_ops ++ [TvVote w_mns (w_vote 1 "c" 10)]) w_txid).
  - apply Forall_app. split; [apply w_ops_u64|]. apply Forall_singleton. by vm_compute.
  - intros mns v [Hin|E%list_elem_of_singleton]%elem_of_app; [by eapply w_ops_registry|].
    injection E as -> _. reflexivity.
  - assert (Forall (λ v, chain_id v = 1) (get_accumulated_votes
      (tv_run tvc_new (w_ops ++ [TvVote w_mns (w_vote 1 "c" 10)])) w_txid)) as HF
      by (apply (bool_decide_unpack _); vm_compute; exact I).
    rewrite Forall_forall in HF. intros v v' Hv Hv'. by rewrite (HF v Hv), (HF v' Hv').
  - vm_compute. reflexivity.
  - vm_compute. reflexivity.
  - vm_compute. discriminate.
Defined.

(** Weights are what the votes declare: a vote with the largest weight is kept although the
    counter cannot take it, and the proof assembled from the votes, which verification adds
    up modulo 2^64, no longer verifies. *)
Theorem huge_weight_breaks_proof :
  let c := tv_run tvc_new (w_ops ++ [TvVote w_mns (w_vote 1 "c" (U64 - 15))]) in
  get_accumulated_weight c w_txid = 20
  ∧ match assemble_timeproof c w_txid with Ok tp => is_ok (verify_timeproof w_mns tp) | Err _ => true end = false.
Proof. vm_compute. done. Qed.
Lemma one_vote_blocks_assembly_witness :
  let v' := mkTimeVote 1 w_txid w_txid 6 Accept "c" 10 (replicate 64 7) in
  ∃ e, assemble_timeproof (accumulate_timevote w_mns (tv_run tvc_new w_ops) v').1 w_txid = Err e.
Proof.
  apply (one_vote_blocks_assembly w_mns (tv_run tvc_new w_ops) (w_vote 1 "a" 10)
    (mkTimeVote 1 w_txid w_txid 6 Accept "c" 10 (replicate 64 7)) 30).
  - assert (get_accumulated_votes (tv_run tvc_new w_ops) w_txid = [w_vote 1 "a" 10; w_vote 1 "b" 10]) as E
      by (vm_compute; reflexivity). cbn [tv_txid]. rewrite E. apply list_elem_of_here.
  - reflexivity.
  - reflexivity.
  - vm_compute. discriminate.
  - vm_compute. reflexivity.
Defined.

Lemma check_timeproof_finality_exact_witness :
  check_timeproof_finality (tv_run tvc_new w_ops) w_txid
    (snapshot_new 0 5 [("a", 10); ("b", 10); ("c", 9)]%string) = Ok true.
Proof.
  etransitivity; [apply (check_timeproof_finality_exact w_ops w_txid
    (snapshot_new 0 5 [("a", 10); ("b", 10); ("c", 9)]%string))|vm_compute; reflexivity].
  - apply w_ops_u64.
  - apply (bool_decide_unpack _). vm_compute. exact I.
  - vm_compute. reflexivity.
Defined.

Definition w_light : TimeProof := mkTimeProof w_txid 5 [w_vote 1 "a" 10; w_vote 1 "b" 10].
Definition w_heavy : TimeProof := mkTimeProof w_txid 5 [w_vote 1 "a" 10; w_vote 1 "b" 10; w_vote 1 "c" 10].
Definition w_engine : TimeVoteConsensus := (detect_competing_timeproof 1 tvc_new w_light 20).1.

Lemma fork_resolution_agrees_witness :
  ∃ q wq, [w_light; w_heavy] !! 1%nat = Some q ∧ calculate_timeproof_weight q = Ok wq.
Proof.
  destruct (fork_resolution_agrees 2 w_engine w_heavy 30
    (detect_competing_timeproof 2 w_engine w_heavy 30).1 1) as (q & wq & H1 & H2 & _).
  - vm_compute. reflexivity.
  - vm_compute. reflexivity.
  - exists q, wq. split; [|exact H2]. rewrite <-H1. vm_compute. reflexivity.
Defined.

(** When two proofs tie, detection announces the later one and resolution returns the
    earlier one. *)
Theorem fork_tie_disagrees :
  let p := mkTimeProof w_txid 5 [w_vote 1 "a" 10] in let q := mkTimeProof w_txid 5 [w_vote 1 "b" 10] in
  let c1 := (detect_competing_timeproof 1 tvc_new p 10).1 in
  let '(c2, i) := detect_competing_timeproof 2 c1 q 10 in
  i = Ok 1%nat ∧ (resolve_timeproof_fork c2 w_txid).2 = Ok (Some p).
Proof. vm_compute. split; reflexivity. Qed.
End witnesses.
