(* ===== verification/Governance.v ===== *)
(** * On-chain governance (src/governance.rs)

    Proposals, votes, the tally and the persistence of both.  The registry is read
    through [get_active_masternodes]: the list of active masternodes is an argument.
    The database is the map from keys to bytes of the sled tree; [bincode] is the
    interface [GovCodec].  Database writes succeed. *)

From Stdlib Require Import ZArith Lia Ascii String.
From stdpp Require Import base gmap strings list.
From S2P Require Import Prelude Types Instances.

Definition MAX_GOVERNANCE_VOTE_WEIGHT : Z := 10.
Definition VOTING_PERIOD_BLOCKS : Z := 1008.
Definition QUORUM_NUMERATOR : Z := 67.
Definition QUORUM_DENOMINATOR : Z := 100.
Definition MAX_DESCRIPTION_LEN : nat := 256.

Inductive ProposalPayload :=
| TreasurySpend (recipient : string) (amount : Z) (description : string)
| FeeScheduleChange (new_min_fee : Z) (new_tiers : list (Z * Z))
| EmissionRateChange (new_satoshis_per_block : Z) (description : string).

Inductive ProposalStatus := Active | Passed (execute_at_height : Z) | Failed | Executed.
#[export] Instance ProposalPayload_eq_dec : EqDecision ProposalPayload.
Proof. solve_decision. Defined.
#[export] Instance ProposalStatus_eq_dec : EqDecision ProposalStatus.
Proof. solve_decision. Defined.

Record GovernanceProposal := mkProposal {
  gp_id : Hash256;
  gp_payload : ProposalPayload;
  submitter_address : string;
  submitter_pubkey : bytes;
  submitter_signature : bytes;
  submit_height : Z;
  vote_end_height : Z;
  gp_status : ProposalStatus;
}.
Definition set_status (s : ProposalStatus) (p : GovernanceProposal) : GovernanceProposal :=
  mkProposal (gp_id p) (gp_payload p) (submitter_address p) (submitter_pubkey p)
    (submitter_signature p) (submit_height p) (vote_end_height p) s.

Record GovernanceVote := mkGovVote {
  gv_proposal_id : Hash256;
  gv_voter_address : string;
  gv_voter_pubkey : bytes;
  approve : bool;
  vote_height : Z;
  gv_signature : bytes;
}.

Class GovCodec := {
  proposal_bincode : GovernanceProposal → bytes;
  proposal_unbincode : bytes → option GovernanceProposal;
  vote_bincode : GovernanceVote → bytes;
  vote_unbincode : bytes → option GovernanceVote;
}.
(** [bincode] reads back what it wrote. *)
Class GovCodecLaws `{GovCodec} := {
  proposal_bincode_inv : ∀ p, proposal_unbincode (proposal_bincode p) = Some p;
  vote_bincode_inv : ∀ v, vote_unbincode (vote_bincode v) = Some v;
}.

Record GovernanceState := mkGov {
  gov_db : gmap string bytes;
  proposals : gmap string GovernanceProposal;
  gov_votes : gmap string (gmap string GovernanceVote);
}.

Inductive gov_error :=
| SubmitterNotActive | FreeTierSubmitter | BadSubmitterKey | BadProposalSignature
| AmountZero | AmountExceedsTreasury | DescriptionTooLong | RecipientEmpty
| MinFeeZero | TiersEmpty | TiersUnordered | RewardOutOfRange
| ProposalNotFound | ProposalNotActive | VoteTooLate | VoterNotActive | FreeTierVoter
| BadVoterKey | BadVoteSignature.

Section governance.
Context `{Externals} `{GovCodec} `{MapIter}.
Implicit Types g : GovernanceState.

Definition compute_id (payload_bytes submitter_pubkey : bytes) (height : Z) : Hash256 :=
  sha256 (payload_bytes ++ submitter_pubkey ++ le_bytes 8 height).

(** [VerifyingKey::from_bytes] then [verify]; a signature is an array of 64 bytes. *)
Definition check_signature (bad_key bad_sig : gov_error) (pk msg sig : bytes) : result gov_error () :=
  match vk_from_bytes pk with
  | None => Err bad_key
  | Some vk => if ed25519_verify vk msg sig then Ok tt else Err bad_sig
  end.
Definition proposal_verify_signature (p : GovernanceProposal) : result gov_error () :=
  check_signature BadSubmitterKey BadProposalSignature (submitter_pubkey p) (gp_id p) (submitter_signature p).

Definition vote_signing_message (v : GovernanceVote) : bytes :=
  gv_proposal_id v ++ str_bytes (gv_voter_address v) ++ [if approve v then 1 else 0]
    ++ le_bytes 8 (vote_height v).
Definition vote_verify_signature (v : GovernanceVote) : result gov_error () :=
  check_signature BadVoterKey BadVoteSignature (gv_voter_pubkey v) (vote_signing_message v) (gv_signature v).

(** ** Persistence *)

Definition proposal_key (id_hex : string) : string := "gov_proposal_" +:+ id_hex.
Definition vote_key (id_hex addr : string) : string := "gov_vote_" +:+ id_hex +:+ "_" +:+ addr.
(** [db.scan_prefix(prefix)]: the values of the keys with the prefix. *)
Definition scan_prefix (pre : string) (db : gmap string bytes) : list bytes :=
  (filter (λ kv : string * bytes, String.prefix pre kv.1) (iter db)).*2.

Definition persist_proposal (p : GovernanceProposal) g : GovernanceState :=
  mkGov (<[proposal_key (hex_encode (gp_id p)) := proposal_bincode p]> (gov_db g)) (proposals g) (gov_votes g).
Definition persist_vote (v : GovernanceVote) g : GovernanceState :=
  mkGov (<[vote_key (hex_encode (gv_proposal_id v)) (gv_voter_address v) := vote_bincode v]> (gov_db g))
    (proposals g) (gov_votes g).

Definition load_proposal (m : gmap string GovernanceProposal) (p : GovernanceProposal) :=
  <[hex_encode (gp_id p) := p]> m.
Definition load_vote (m : gmap string (gmap string GovernanceVote)) (v : GovernanceVote) :=
  let k := hex_encode (gv_proposal_id v) in
  <[k := <[gv_voter_address v := v]> (default ∅ (m !! k))]> m.
(** [GovernanceState::new] on an existing database. *)
Definition gov_load (db : gmap string bytes) : GovernanceState :=
  mkGov db
    (foldl load_proposal ∅ (omap proposal_unbincode (scan_prefix "gov_proposal_" db)))
    (foldl load_vote ∅ (omap vote_unbincode (scan_prefix "gov_vote_" db))).

(** ** Submission *)

(** [windows(2)]: strictly ascending upper bounds. *)
Fixpoint ascending (l : list (Z * Z)) : bool :=
  match l with
  | (a, _) :: l' => match l' with
                    | (b, _) :: _ => negb (b <=? a) && ascending l'
                    | [] => true
                    end
  | [] => true
  end.

Definition MIN_REWARD : Z := 10 * 100000000.
Definition MAX_REWARD : Z := 10000 * 100000000.
Definition validate_payload (pl : ProposalPayload) (treasury_balance : Z) : result gov_error () :=
  match pl with
  | TreasurySpend recipient amount description =>
      fail_if amount =? 0 with AmountZero in
      fail_if treasury_balance <? amount with AmountExceedsTreasury in
      fail_if (MAX_DESCRIPTION_LEN <? String.length description)%nat with DescriptionTooLong in
      fail_if str_is_empty recipient with RecipientEmpty in
      Ok tt
  | FeeScheduleChange new_min_fee new_tiers =>
      fail_if new_min_fee =? 0 with MinFeeZero in
      fail_if bool_decide (new_tiers = []) with TiersEmpty in
      fail_if negb (ascending new_tiers) with TiersUnordered in
      Ok tt
  | EmissionRateChange n description =>
      fail_if (n <? MIN_REWARD) || (MAX_REWARD <? n) with RewardOutOfRange in
      fail_if (MAX_DESCRIPTION_LEN <? String.length description)%nat with DescriptionTooLong in
      Ok tt
  end.

Definition find_node (mns : list MasternodeInfo) (addr : string) : option MasternodeInfo :=
  List.find (λ mn, String.eqb (mn_address (masternode mn)) addr) mns.
Definition is_free (mn : MasternodeInfo) : bool := bool_decide (tier (masternode mn) = Free).

Definition submit_proposal g (p : GovernanceProposal) (mns : list MasternodeInfo) (treasury_balance : Z)
    : GovernanceState * result gov_error () :=
  let id_hex := hex_encode (gp_id p) in
  if bool_decide (is_Some (proposals g !! id_hex)) then (g, Ok tt)
  else
    let checks :=
      let? submitter := ok_or SubmitterNotActive (find_node mns (submitter_address p)) in
      fail_if is_free submitter with FreeTierSubmitter in
      let? u := proposal_verify_signature p in
      validate_payload (gp_payload p) treasury_balance in
    match checks with
    | Err e => (g, Err e)
    | Ok _ =>
        let g := persist_proposal p g in
        (mkGov (gov_db g) (<[id_hex := p]> (proposals g)) (gov_votes g), Ok tt)
    end.

(** ** Voting *)

Definition vote_checks g (v : GovernanceVote) (mns : list MasternodeInfo) : result gov_error () :=
  let? p := ok_or ProposalNotFound (proposals g !! hex_encode (gv_proposal_id v)) in
  fail_if bool_decide (gp_status p ≠ Active) with ProposalNotActive in
  fail_if vote_end_height p <? vote_height v with VoteTooLate in
  let? mn := ok_or VoterNotActive (find_node mns (gv_voter_address v)) in
  fail_if is_free mn with FreeTierVoter in
  vote_verify_signature v.

Definition existing_approve g (v : GovernanceVote) : option bool :=
  m ← gov_votes g !! hex_encode (gv_proposal_id v); approve <$> m !! gv_voter_address v.

Definition record_vote g (v : GovernanceVote) (mns : list MasternodeInfo)
    : GovernanceState * result gov_error bool :=
  match vote_checks g v mns with
  | Err e => (g, Err e)
  | Ok _ =>
      if bool_decide (existing_approve g v = Some (approve v)) then (g, Ok false)
      else
        let g := persist_vote v g in
        (mkGov (gov_db g) (proposals g) (load_vote (gov_votes g) v), Ok true)
  end.

(** ** Tally and execution *)

Definition gov_weight (mn : MasternodeInfo) : Z :=
  Z.min (voting_power (tier (masternode mn))) MAX_GOVERNANCE_VOTE_WEIGHT.
Definition total_active_weight (mns : list MasternodeInfo) : Z := sum64 (gov_weight <$> mns).

(** [collect()] into a [HashMap]: the last entry of an address wins. *)
Definition addr_to_weight (mns : list MasternodeInfo) : gmap string Z :=
  list_to_map (reverse ((λ mn, (mn_address (masternode mn), gov_weight mn)) <$> mns)).
Definition tally_yes_weight g (id_hex : string) (mns : list MasternodeInfo) : Z :=
  match gov_votes g !! id_hex with
  | None => 0
  | Some m =>
      sum64 ((λ v, default 0 (addr_to_weight mns !! gv_voter_address v))
               <$> filter (λ v, approve v) (iter m).*2)
  end.

Definition quorum_met (yes total : Z) : bool :=
  (0 <? total) && (mul64 total QUORUM_NUMERATOR <=? mul64 yes QUORUM_DENOMINATOR).
Definition is_maturing (height : Z) (e : string * GovernanceProposal) : bool :=
  bool_decide (gp_status e.2 = Active) && (vote_end_height e.2 =? height).
Definition maturing g (height : Z) : list string :=
  (filter (is_maturing height) (iter (proposals g))).*1.

Definition set_proposal (id_hex : string) (p : GovernanceProposal) g : GovernanceState :=
  persist_proposal p (mkGov (gov_db g) (<[id_hex := p]> (proposals g)) (gov_votes g)).
Definition execute_step (height total : Z) (mns : list MasternodeInfo)
    (acc : GovernanceState * list GovernanceProposal) (id_hex : string)
    : GovernanceState * list GovernanceProposal :=
  let '(g, passed) := acc in
  let yes := tally_yes_weight g id_hex mns in
  match proposals g !! id_hex with
  | None => (g, passed)
  | Some p =>
      if quorum_met yes total then
        let p := set_status (Passed height) p in (set_proposal id_hex p g, passed ++ [p])
      else (set_proposal id_hex (set_status Failed p) g, passed)
  end.
Definition check_and_execute_proposals g (height : Z) (mns : list MasternodeInfo)
    : GovernanceState * list GovernanceProposal :=
  foldl (execute_step height (total_active_weight mns) mns) (g, []) (maturing g height).

Definition mark_executed g (id : Hash256) : GovernanceState :=
  match proposals g !! hex_encode id with
  | Some p => set_proposal (hex_encode id) (set_status Executed p) g
  | None => g
  end.

Definition spend_amount (p : GovernanceProposal) : Z :=
  match gp_payload p with TreasurySpend _ amount _ => amount | _ => 0 end.
Definition spend_step g (total : Z) (mns : list MasternodeInfo) (spend : Z) (id_hex : string) : Z :=
  if negb (quorum_met (tally_yes_weight g id_hex mns) total) then spend
  else match proposals g !! id_hex with
       | Some p => match gp_payload p with
                   | TreasurySpend _ amount _ => sat_add spend amount
                   | _ => spend
                   end
       | None => spend
       end.
Definition treasury_spends_maturing_at g (height : Z) (mns : list MasternodeInfo) : Z :=
  foldl (spend_step g (total_active_weight mns) mns) 0 (maturing g height).

Definition get_proposal g (id : Hash256) : option GovernanceProposal := proposals g !! hex_encode id.
Definition get_votes_for g (id : Hash256) : list GovernanceVote :=
  default [] ((λ m, (iter m).*2) <$> gov_votes g !! hex_encode id).
End governance.

(** ** Histories *)

Inductive gov_op :=
| GSubmit (p : GovernanceProposal) (mns : list MasternodeInfo) (treasury_balance : Z)
| GVote (v : GovernanceVote) (mns : list MasternodeInfo)
| GBlock (height : Z) (mns : list MasternodeInfo)
| GExecuted (id : Hash256).

Section lifecycle.
Context `{Externals} `{GovCodec} `{MapIter}.
Implicit Types g : GovernanceState.

Definition gov_exec g (o : gov_op) : GovernanceState :=
  match o with
  | GSubmit p mns bal => (submit_proposal g p mns bal).1
  | GVote v mns => (record_vote g v mns).1
  | GBlock height mns => (check_and_execute_proposals g height mns).1
  | GExecuted id => mark_executed g id
  end.
Definition gov_run g (os : list gov_op) : GovernanceState := foldl gov_exec g os.

(** Maps are keyed by the identifiers of what they hold. *)
Record gov_inv g : Prop := mkGovInv {
  gi_proposals : ∀ k p, proposals g !! k = Some p → k = hex_encode (gp_id p);
  gi_votes : ∀ k m a v, gov_votes g !! k = Some m → m !! a = Some v →
    gv_voter_address v = a ∧ hex_encode (gv_proposal_id v) = k;
}.

Lemma gov_inv_set g k p :
  k = hex_encode (gp_id p) → gov_inv g → gov_inv (set_proposal k p g).
Proof.
  intros -> [Hp Hv]. split; [|done]. cbn. intros k q [[<- <-]|[_ Hq]]%lookup_insert_Some; [done|eauto].
Qed.

Lemma gov_inv_step height total mns acc k :
  gov_inv acc.1 → gov_inv (execute_step height total mns acc k).1.
Proof.
  destruct acc as [g ps]. cbn. intros Hi. unfold execute_step.
  destruct (proposals g !! k) as [p|] eqn:E; [|done]. pose proof (gi_proposals g Hi k p E) as Hk.
  destruct (quorum_met _ _); by apply gov_inv_set.
Qed.

Lemma gov_exec_inv g o : gov_inv g → gov_inv (gov_exec g o).
Proof.
  intros Hi. destruct o as [p mns bal|v mns|height mns|id]; cbn [gov_exec].
  - unfold submit_proposal. case_bool_decide; [done|].
    destruct (ok_or _ _) as [s|]; [|done]. destruct (is_free s); [done|].
    destruct (proposal_verify_signature p); [|done]. destruct (validate_payload _ _); [|done].
    by apply (gov_inv_set g _ p).
  - unfold record_vote. destruct (vote_checks g v mns); [|done]. case_bool_decide; [done|].
    destruct Hi as [Hp Hv]. split; [done|]. cbn. unfold load_vote.
    intros k m b w [[<- <-]|[_ Hm]]%lookup_insert_Some Ha; [|eauto].
    apply lookup_insert_Some in Ha as [[<- <-]|[_ Ha]]; [done|].
    destruct (gov_votes g !! hex_encode (gv_proposal_id v)) as [m|] eqn:E; cbn in Ha; [eauto|].
    by rewrite lookup_empty in Ha.
  - apply (foldl_preserve _ (λ acc, gov_inv acc.1)); [intros; by apply gov_inv_step|done].
  - unfold mark_executed. destruct (proposals g !! hex_encode id) as [p|] eqn:E; [|done].
    apply gov_inv_set; [|done]. apply (gi_proposals g Hi _ _ E).
Qed.

(** What may happen to a proposal, by its status, in one operation. *)
Inductive status_step (end_height : Z) : ProposalStatus → ProposalStatus → Prop :=
| st_same s : status_step end_height s s
| st_pass : status_step end_height Active (Passed end_height)
| st_fail : status_step end_height Active Failed
| st_executed s : status_step end_height s Executed.

Definition same_proposal (p q : GovernanceProposal) : Prop := set_status Active p = set_status Active q.

Lemma same_proposal_status p s : same_proposal p (set_status s p).
Proof. done. Qed.

Definition evolves g g' : Prop :=
  ∀ k p, proposals g !! k = Some p → ∃ q, proposals g' !! k = Some q ∧ same_proposal p q ∧
    status_step (vote_end_height p) (gp_status p) (gp_status q).

Lemma evolves_same g g' : proposals g' = proposals g → evolves g g'.
Proof. intros E k p Hp. exists p. rewrite E. split_and!; [done|done|constructor]. Qed.
Lemma evolves_set g k p s :
  proposals g !! k = Some p → status_step (vote_end_height p) (gp_status p) s →
  evolves g (set_proposal k (set_status s p) g).
Proof.
  intros Hp Hs k' q Hq. cbn. rewrite lookup_insert. case_decide; subst.
  - assert (q = p) as -> by congruence. by exists (set_status s p).
  - exists q. split_and!; [done|done|constructor].
Qed.

(** The block loop treats each maturing proposal once. *)
Lemma execute_fold height total mns l g ps :
  NoDup l → (∀ k, k ∈ l → ∃ p, proposals g !! k = Some p ∧ gp_status p = Active ∧ vote_end_height p = height) →
  let '(g', ps') := foldl (execute_step height total mns) (g, ps) l in
  gov_votes g' = gov_votes g ∧
  (∀ k, k ∉ l → proposals g' !! k = proposals g !! k) ∧
  (∀ k, k ∈ l → proposals g' !! k =
     (λ p, set_status (if quorum_met (tally_yes_weight g k mns) total then Passed height else Failed) p)
       <$> proposals g !! k) ∧
  ps' = ps ++ omap (λ k, if quorum_met (tally_yes_weight g k mns) total
                         then set_status (Passed height) <$> proposals g !! k else None) l.
Proof.
  revert g ps. induction l as [|k l IH]; intros g ps Hnd Hl.
  { cbn. split_and!; [done|done|by intros k ?%elem_of_nil|]. by rewrite app_nil_r. }
  apply NoDup_cons in Hnd as [Hk Hnd]. destruct (Hl k (list_elem_of_here _ _)) as (p & Hp & Hs & He).
  cbn [foldl]. unfold execute_step at 2. rewrite Hp.
  set (q := quorum_met (tally_yes_weight g k mns) total).
  set (g1 := set_proposal k (set_status (if q then Passed height else Failed) p) g).
  assert ((if q then (set_proposal k (set_status (Passed height) p) g, ps ++ [set_status (Passed height) p])
           else (set_proposal k (set_status Failed p) g, ps))
          = (g1, ps ++ if q then [set_status (Passed height) p] else [])) as ->.
  { unfold g1. destruct q; [done|]. by rewrite app_nil_r. }
  assert (∀ k', k' ∈ l → proposals g1 !! k' = proposals g !! k') as Hsame.
  { intros k' Hk'. cbn. rewrite lookup_insert_ne; [done|]. by intros ->. }
  specialize (IH g1 (ps ++ if q then [set_status (Passed height) p] else []) Hnd).
  destruct (foldl (execute_step height total mns) (g1, _) l) as [g' ps'].
  destruct IH as (IH1 & IH2 & IH3 & IH4).
  { intros k' Hk'. rewrite (Hsame k' Hk'). apply Hl. by apply elem_of_cons; right. }
  assert (∀ k', tally_yes_weight g1 k' mns = tally_yes_weight g k' mns) as Ht by done.
  split_and!.
  - done.
  - intros k' [Hne Hk']%not_elem_of_cons. rewrite IH2 by done. cbn. by rewrite lookup_insert_ne.
  - intros k' [->|Hk']%elem_of_cons.
    + rewrite IH2 by done. cbn. rewrite lookup_insert_eq, Hp. done.
    + rewrite IH3, Ht, Hsame by done. done.
  - rewrite IH4, <-(assoc_L (++)). f_equal. cbn [omap list_omap]. fold q. rewrite Hp.
    assert (omap (λ k', if quorum_met (tally_yes_weight g1 k' mns) total
        then set_status (Passed height) <$> proposals g1 !! k' else None) l
      = omap (λ k', if quorum_met (tally_yes_weight g k' mns) total
        then set_status (Passed height) <$> proposals g !! k' else None) l) as ->; [|by destruct q].
    clear -Hsame Ht. induction l as [|k' l IH]; cbn [omap list_omap]; [done|].
    rewrite Ht, (Hsame k') by apply list_elem_of_here. rewrite IH; [done|].
    intros k'' Hk''. apply Hsame. by apply elem_of_cons; right.
Qed.

Lemma maturing_spec g height :
  NoDup (maturing g height) ∧ ∀ k, k ∈ maturing g height ↔
    ∃ p, proposals g !! k = Some p ∧ gp_status p = Active ∧ vote_end_height p = height.
Proof.
  unfold maturing. split.
  - eapply sublist_NoDup; [|apply fmap_sublist, sublist_filter]. rewrite iter_perm. apply NoDup_fst_map_to_list.
  - intros k. rewrite list_elem_of_fmap. split.
    + intros ([k' p] & -> & [Hm Hin]%list_elem_of_filter). rewrite iter_perm, elem_of_map_to_list in Hin.
      unfold is_maturing in Hm. apply Is_true_true, andb_true_iff in Hm as [Hs He].
      apply bool_decide_eq_true in Hs. apply Z.eqb_eq in He. by exists p.
    + intros (p & Hp & Hs & He). exists (k, p). split; [done|]. apply list_elem_of_filter. split.
      * apply Is_true_true, andb_true_iff. split; [by apply bool_decide_eq_true|by apply Z.eqb_eq].
      * by rewrite iter_perm, elem_of_map_to_list.
Qed.

(** The block tally in full: exactly the active proposals whose end height is this block are
    decided, each passes iff its own quorum is met at the state before the block, all others
    and all votes are untouched, and the returned list is the set of proposals that passed.
    *)
Theorem check_and_execute_spec g height mns :
  let total := total_active_weight mns in
  let due k := ∃ p, proposals g !! k = Some p ∧ gp_status p = Active ∧ vote_end_height p = height in
  let '(g', passed) := check_and_execute_proposals g height mns in
  (∀ k p, due k → proposals g !! k = Some p → proposals g' !! k =
     Some (set_status (if quorum_met (tally_yes_weight g k mns) total then Passed height else Failed) p)) ∧
  (∀ k, ¬ due k → proposals g' !! k = proposals g !! k) ∧
  gov_votes g' = gov_votes g ∧
  (∀ q, q ∈ passed ↔ ∃ k p, due k ∧ proposals g !! k = Some p ∧ q = set_status (Passed height) p ∧
     quorum_met (tally_yes_weight g k mns) total = true).
Proof.
  cbv zeta. unfold check_and_execute_proposals. destruct (maturing_spec g height) as [Hnd Hm].
  pose proof (execute_fold height (total_active_weight mns) mns (maturing g height) g [] Hnd
    (λ k Hk, proj1 (Hm k) Hk)) as Hf.
  destruct (foldl _ _ _) as [g' passed]. destruct Hf as (Hv & Hout & Hin & ->). split_and!; [| |done|].
  - intros k p Hd Hp. by rewrite Hin, Hp by by apply Hm.
  - intros k Hd. apply Hout. by intros Hk%Hm.
  - intros q. cbn [app]. rewrite list_elem_of_omap. split.
    + intros (k & Hk & Hq). destruct (quorum_met (tally_yes_weight g k mns) _) eqn:Eq; [|done].
      apply fmap_Some in Hq as (p & Hp & ->). exists k, p. split_and!; [by apply Hm|done..].
    + intros (k & p & Hd & Hp & -> & Eq). exists k. split; [by apply Hm|]. by rewrite Eq, Hp.
Qed.

Lemma exec_evolves g o : evolves g (gov_exec g o).
Proof.
  destruct o as [p mns bal|v mns|height mns|id]; cbn [gov_exec].
  - unfold submit_proposal. case_bool_decide as Hk; [by apply evolves_same|].
    destruct (ok_or _ _) as [s|]; [|by apply evolves_same]. destruct (is_free s); [by apply evolves_same|].
    destruct (proposal_verify_signature p); [|by apply evolves_same].
    destruct (validate_payload _ _); [|by apply evolves_same].
    intros k q Hq. exists q. cbn. rewrite lookup_insert_ne; [split_and!; [done|done|constructor]|].
    intros <-. apply Hk. by eexists.
  - unfold record_vote. destruct (vote_checks g v mns); [|by apply evolves_same].
    case_bool_decide; by apply evolves_same.
  - intros k p Hp. destruct (maturing_spec g height) as [Hnd Hm].
    pose proof (execute_fold height (total_active_weight mns) mns (maturing g height) g [] Hnd
      (λ k Hk, proj1 (Hm k) Hk)) as Hf. unfold check_and_execute_proposals.
    destruct (foldl _ _ _) as [g' passed]. destruct Hf as (_ & Hout & Hin & _). cbn [fst].
    destruct (decide (k ∈ maturing g height)) as [Hk|Hk].
    + rewrite (Hin k Hk), Hp. eexists. split; [done|]. split; [done|].
      apply Hm in Hk as (p' & Hp' & Hs & <-). assert (p' = p) as -> by congruence. cbn. rewrite Hs.
      destruct (quorum_met _ _); constructor.
    + rewrite Hout by done. exists p. split_and!; [done|done|constructor].
  - unfold mark_executed. destruct (proposals g !! hex_encode id) as [p|] eqn:E; [|by apply evolves_same].
    apply evolves_set; [done|constructor].
Qed.

Lemma status_step_cases e a b :
  status_step e a b → b = a ∨ (a = Active ∧ b = Passed e) ∨ (a = Active ∧ b = Failed) ∨ b = Executed.
Proof. destruct 1; auto. Qed.

(** Once decided, a proposal is decided for good. *)
Definition decided (s : ProposalStatus) : bool := match s with Active => false | _ => true end.

(** C32: The life of a proposal under any sequence of governance operations: it is never
    dropped and its content never changes, it leaves Active to Passed only at its own end
    height, and once decided it never returns to Active: it keeps its verdict or is marked
    executed. *)
Theorem proposal_lifecycle g os k p :
  proposals g !! k = Some p →
  ∃ q, proposals (gov_run g os) !! k = Some q ∧ same_proposal p q ∧
    (decided (gp_status p) = true → gp_status q = gp_status p ∨ gp_status q = Executed) ∧
    (∀ h, gp_status q = Passed h → gp_status p = Passed h ∨ gp_status p = Active ∧ h = vote_end_height p).
Proof.
  revert g p. induction os as [|o os IH]; intros g p Hp.
  { exists p. split_and!; [done|done|by left|by left]. }
  destruct (exec_evolves g o k p Hp) as (q1 & Hq1 & Hs1 & Hst1).
  destruct (IH _ q1 Hq1) as (q & Hq & Hs & Hd & Hpass). exists q. split_and!.
  - done.
  - unfold same_proposal in *. congruence.
  - intros Hdec. destruct (status_step_cases _ _ _ Hst1) as [E|[[E _]|[[E _]|E]]].
    + rewrite <-E. apply Hd. by rewrite E.
    + by rewrite E in Hdec.
    + by rewrite E in Hdec.
    + right. destruct Hd as [Hd|Hd]; [by rewrite E|congruence|done].
  - intros h Hh. specialize (Hpass h Hh). assert (vote_end_height q1 = vote_end_height p) as He.
    { by destruct p, q1; injection Hs1. }
    rewrite He in Hpass. destruct (status_step_cases _ _ _ Hst1) as [E|[[E1 E2]|[[E1 E2]|E]]].
    + by rewrite <-E.
    + rewrite E2 in Hpass. right. split; [done|]. by destruct Hpass as [[= <-]|[? _]].
    + rewrite E2 in Hpass. by destruct Hpass as [?|[? _]].
    + rewrite E in Hpass. by destruct Hpass as [?|[? _]].
Qed.

(** ** The tally *)

Lemma gov_weight_bound mn : 0 ≤ gov_weight mn ≤ 10.
Proof. unfold gov_weight. destruct (tier (masternode mn)); by vm_compute. Qed.

Lemma weights_bound (mns : list MasternodeInfo) :
  0 ≤ sumZ (gov_weight <$> mns) ≤ 10 * Z.of_nat (length mns).
Proof.
  induction mns as [|mn mns IH]; [done|]. pose proof (gov_weight_bound mn).
  change (sumZ (gov_weight <$> mn :: mns)) with (gov_weight mn + sumZ (gov_weight <$> mns)).
  rewrite length_cons, Nat2Z.inj_succ. lia.
Qed.

Lemma addr_to_weight_lookup mns a :
  NoDup (mn_address ∘ masternode <$> mns) →
  addr_to_weight mns !! a = gov_weight <$> List.find (λ mn, String.eqb (mn_address (masternode mn)) a) mns.
Proof.
  intros Hnd. unfold addr_to_weight.
  rewrite (list_to_map_proper _ ((λ mn, (mn_address (masternode mn), gov_weight mn)) <$> mns)).
  2: { rewrite fmap_reverse, <-list_fmap_compose. by rewrite reverse_Permutation. }
  2: by rewrite reverse_Permutation.
  induction mns as [|mn mns IH]; cbn; [done|]. apply NoDup_cons in Hnd as [_ Hnd].
  rewrite lookup_insert. destruct (String.eqb_spec (mn_address (masternode mn)) a) as [->|Hne].
  - by rewrite decide_True.
  - rewrite decide_False by done. by apply IH.
Qed.

(** Looking up distinct addresses adds up the weights of the nodes that have one. *)
Lemma distinct_weight_sum (mns : list MasternodeInfo) (ids : list string) :
  NoDup ids → NoDup (mn_address ∘ masternode <$> mns) →
  sumZ ((λ a, default 0 (gov_weight <$> find_node mns a)) <$> ids)
    = sumZ (gov_weight <$> filter (λ mn, mn_address (masternode mn) ∈ ids) mns).
Proof.
  intros Hids. revert ids Hids. induction mns as [|mn mns IH]; intros ids Hids Hnd.
  { clear Hids. induction ids as [|a ids IHi]; [done|]. exact IHi. }
  cbn [fmap list_fmap] in Hnd. apply NoDup_cons in Hnd as [Hn Hnd].
  set (a0 := mn_address (masternode mn)) in *.
  assert (∀ l : list string, a0 ∉ l → (λ a, default 0 (gov_weight <$> find_node (mn :: mns) a)) <$> l
    = (λ a, default 0 (gov_weight <$> find_node mns a)) <$> l) as Hext.
  { intros l Hl. apply list_fmap_ext. intros i a Ha. cbn. fold a0.
    destruct (String.eqb_spec a0 a) as [<-|]; [|done]. destruct Hl. by eapply list_elem_of_lookup_2. }
  rewrite filter_cons. fold a0. destruct (decide (a0 ∈ ids)) as [Hin|Hin].
  - apply elem_of_Permutation in Hin as (l & Hp).
    rewrite (sumZ_perm _ ((λ a, default 0 (gov_weight <$> find_node (mn :: mns) a)) <$> a0 :: l))
      by by apply fmap_Permutation.
    rewrite Hp in Hids. apply NoDup_cons in Hids as [Hnl Hl]. rewrite !fmap_cons, (Hext l Hnl), !sumZ_cons.
    rewrite (IH l Hl Hnd). f_equal; [unfold find_node; cbn; fold a0; by rewrite String.eqb_refl|].
    f_equal. f_equal. apply filter_ext_in. intros x Hx. rewrite Hp, elem_of_cons.
    split; [by right|]. intros [Hxa|?]; [|done]. destruct Hn. 
    apply list_elem_of_fmap. by exists x; split; [symmetry|].
  - rewrite Hext by done. by apply IH.
Qed.

(** The addresses behind the YES votes are distinct. *)
Lemma yes_addresses_NoDup g k m :
  gov_inv g → gov_votes g !! k = Some m →
  NoDup (gv_voter_address <$> filter (λ v, approve v) (iter m).*2).
Proof.
  intros Hi Hm. eapply sublist_NoDup; [|apply fmap_sublist, sublist_filter].
  rewrite iter_perm. assert (gv_voter_address <$> (map_to_list m).*2 = (map_to_list m).*1) as ->;
    [|apply NoDup_fst_map_to_list].
  assert (∀ a v, (a, v) ∈ map_to_list m → gv_voter_address v = a) as Ha.
  { intros a v Hav%elem_of_map_to_list. by destruct (gi_votes g Hi k m a v Hm Hav). }
  revert Ha. generalize (map_to_list m) as l. induction l as [|[a v] l IH]; intros Ha; cbn; [done|].
  rewrite (Ha a v) by apply list_elem_of_here. f_equal. apply IH. intros a' v' Hin. apply Ha.
  by apply elem_of_cons; right.
Qed.

(** The active nodes with a recorded approval. *)
Definition approved_by g (k : string) (mn : MasternodeInfo) : Prop :=
  ∃ m v, gov_votes g !! k = Some m ∧ m !! mn_address (masternode mn) = Some v ∧ approve v = true.
#[export] Instance approved_by_dec g k mn : Decision (approved_by g k mn).
Proof.
  refine (cast_if (decide (approve <$> (gov_votes g !! k ≫= (.!! mn_address (masternode mn))) = Some true)));
    unfold approved_by.
  - apply fmap_Some in e as (v & (m & ? & ?)%bind_Some & ?). by eauto.
  - intros (m & v & Hm & Hv & Ha). apply n. rewrite Hm. cbn. by rewrite Hv; cbn; rewrite Ha.
Defined.

Lemma yes_addresses_approved g k m mn :
  gov_inv g → gov_votes g !! k = Some m →
  mn_address (masternode mn) ∈ gv_voter_address <$> filter (λ v, approve v) (iter m).*2 ↔ approved_by g k mn.
Proof.
  intros Hi Hm. rewrite list_elem_of_fmap. split.
  - intros (v & Ha & [Hv Hin]%list_elem_of_filter). apply list_elem_of_fmap in Hin as ([a w] & -> & Hin).
    rewrite iter_perm, elem_of_map_to_list in Hin. cbn in *. exists m, w.
    destruct (gi_votes g Hi k m a w Hm Hin) as [<- _]. rewrite Ha. split_and!; [done|done|by apply Is_true_true].
  - intros (m' & v & Hm' & Hv & Ha). simplify_eq. destruct (gi_votes g Hi k m _ v Hm Hv) as [<- _].
    exists v. split; [done|]. apply list_elem_of_filter. split; [by apply Is_true_true|].
    apply list_elem_of_fmap. exists (mn_address (masternode mn), v). split; [done|]. by rewrite iter_perm, elem_of_map_to_list.
Qed.

Lemma filter_weight_le (P : MasternodeInfo → Prop) `{∀ x, Decision (P x)} mns :
  0 ≤ sumZ (gov_weight <$> filter P mns) ≤ sumZ (gov_weight <$> mns).
Proof.
  induction mns as [|mn mns IH]; [done|]. pose proof (gov_weight_bound mn). rewrite filter_cons.
  case_decide; rewrite ?fmap_cons, ?sumZ_cons; lia.
Qed.

Lemma tally_exact g k mns :
  gov_inv g → NoDup (mn_address ∘ masternode <$> mns) → Z.of_nat (length mns) < 2 ^ 52 →
  tally_yes_weight g k mns = sumZ (gov_weight <$> filter (approved_by g k) mns).
Proof.
  intros Hi Hnd Hlen. pose proof (weights_bound mns) as Hw.
  pose proof (filter_weight_le (approved_by g k) mns) as Hf.
  unfold tally_yes_weight. destruct (gov_votes g !! k) as [m|] eqn:Em.
  - set (ys := filter (λ v, approve v) (iter m).*2).
    assert ((λ v, default 0 (addr_to_weight mns !! gv_voter_address v)) <$> ys
      = (λ a, default 0 (gov_weight <$> find_node mns a)) <$> (gv_voter_address <$> ys)) as ->.
    { rewrite <-list_fmap_compose. apply list_fmap_ext. intros i v _. cbn.
      by rewrite (addr_to_weight_lookup mns (gv_voter_address v) Hnd). }
    pose proof (distinct_weight_sum mns _ (yes_addresses_NoDup g k m Hi Em) Hnd) as Hs.
    rewrite (filter_ext_in _ (approved_by g k)) in Hs by (intros; by apply yes_addresses_approved).
    rewrite sum64_small; [exact Hs|]. unfold U64, ys. rewrite Hs. lia.
  - rewrite (filter_ext_in _ (λ _, False)); [by clear; induction mns|].
    intros mn _. split; [|done]. by intros (m & v & Hm & _); rewrite Em in Hm.
Qed.

(** The quorum is the promised one: when the active nodes have distinct addresses, the
    machine arithmetic of the tally is exact after any history, and a proposal meets the
    quorum iff the active nodes whose recorded vote is an approval hold at least 67% of a
    positive total weight. *)
Theorem quorum_exact g os k mns :
  gov_inv g → NoDup (mn_address ∘ masternode <$> mns) → Z.of_nat (length mns) < 2 ^ 52 →
  let g' := gov_run g os in
  let total := sumZ (gov_weight <$> mns) in
  let yes := sumZ (gov_weight <$> filter (approved_by g' k) mns) in
  0 ≤ yes ≤ total ∧
  (quorum_met (tally_yes_weight g' k mns) (total_active_weight mns) = true ↔
   0 < total ∧ 67 * total ≤ 100 * yes).
Proof.
  intros Hi Hnd Hlen g' total yes. pose proof (weights_bound mns) as Hw.
  pose proof (filter_weight_le (approved_by g' k) mns) as Hf. split; [exact Hf|].
  assert (gov_inv g') as Hi' by (apply (foldl_preserve _ gov_inv); [intros; by apply gov_exec_inv|done]).
  rewrite (tally_exact g' k mns Hi' Hnd Hlen). unfold total_active_weight.
  rewrite sum64_small by (unfold U64; lia). fold total yes in Hf, Hw |- *.
  unfold quorum_met, QUORUM_NUMERATOR, QUORUM_DENOMINATOR. rewrite !mul64_small by (unfold U64; lia).
  rewrite andb_true_iff, Z.ltb_lt, Z.leb_le. lia.
Qed.
End lifecycle.
