(* ===== verification/GovernancePersist.v ===== *)
(** * Governance: the treasury forecast, restarts and the witnesses (src/governance.rs)

    The forecast a block producer commits to agrees with what the block loop then
    pays; the database mirrors the in-memory maps through every history, so a restart
    restores them; what a vote signature covers.  The witnesses of the governance
    theorems end the file. *)

From Stdlib Require Import ZArith Lia Ascii String.
From stdpp Require Import base gmap strings list.
From S2P Require Import Prelude Types Instances Governance.

Section treasury.
Context `{Externals} `{GovCodec} `{MapIter}.
Implicit Types g : GovernanceState.

Lemma sat_add_0_r a : a ≤ U64 - 1 → sat_add a 0 = a.
Proof. unfold sat_add. lia. Qed.
Lemma sat_add_max a b : sat_add a b ≤ U64 - 1.
Proof. unfold sat_add. lia. Qed.

Lemma spend_fold g total mns (s : ProposalStatus) l acc :
  acc ≤ U64 - 1 →
  foldl (spend_step g total mns) acc l
  = foldl sat_add acc (spend_amount <$> omap (λ k, if quorum_met (tally_yes_weight g k mns) total
      then set_status s <$> proposals g !! k else None) l).
Proof.
  revert acc. induction l as [|k l IH]; intros acc Ha; [done|].
  cbn [foldl omap list_omap]. unfold spend_step at 2.
  destruct (quorum_met _ _); cbn [negb]; [|by apply IH].
  destruct (proposals g !! k) as [p|]; cbn [fmap option_fmap option_map]; [|by apply IH].
  rewrite fmap_cons. cbn [foldl].
  assert (spend_amount (set_status s p) = spend_amount p) as -> by done.
  unfold spend_amount at 1. destruct (gp_payload p); [apply IH, sat_add_max|by rewrite sat_add_0_r; [apply IH|]..].
Qed.

(** The treasury forecast a producer commits to before sealing a block equals the saturating
    sum of the treasury spends that the block's tally then passes. *)
Theorem treasury_forecast_exact g height mns :
  treasury_spends_maturing_at g height mns
  = foldl sat_add 0 (spend_amount <$> (check_and_execute_proposals g height mns).2).
Proof.
  unfold treasury_spends_maturing_at, check_and_execute_proposals.
  destruct (maturing_spec g height) as [Hnd Hm].
  pose proof (execute_fold height (total_active_weight mns) mns (maturing g height) g [] Hnd
    (λ k Hk, proj1 (Hm k) Hk)) as Hf.
  destruct (foldl (execute_step _ _ _) _ _) as [g' passed]. destruct Hf as (_ & _ & _ & ->).
  cbn [app snd]. by apply (spend_fold g _ mns (Passed height)).
Qed.
End treasury.

(** ** Restart *)

(** [hex::encode] writes two characters per byte. *)
Class HexLaws `{Externals} := {
  hex_length : ∀ b, String.length (hex_encode b) = (2 * length b)%nat;
}.

Section restart.
Context `{Externals} `{!HexLaws} `{GovCodec} `{!GovCodecLaws} `{MapIter}.
Implicit Types g : GovernanceState.

(** The two-level lookup of the vote table. *)
Definition vlook (t : gmap string (gmap string GovernanceVote)) (k a : string) : option GovernanceVote :=
  m ← t !! k; m !! a.

(** The governance keys of the database are the entries of the maps. *)
Record mirror g : Prop := mkMirror {
  mi_inv : gov_inv g;
  mi_vote_ids : ∀ k m, gov_votes g !! k = Some m → String.length k = 64%nat ∧ m ≠ ∅;
  mi_props : ∀ key b, String.prefix "gov_proposal_" key = true →
    (gov_db g !! key = Some b ↔
     ∃ k p, key = proposal_key k ∧ proposals g !! k = Some p ∧ b = proposal_bincode p);
  mi_votes : ∀ key b, String.prefix "gov_vote_" key = true →
    (gov_db g !! key = Some b ↔
     ∃ k a v, key = vote_key k a ∧ vlook (gov_votes g) k a = Some v ∧ b = vote_bincode v);
}.

Lemma prefix_app (s t : string) : String.prefix s (s +:+ t) = true.
Proof.
  induction s as [|c s IH]; [by destruct t|].
  change (String c s +:+ t) with (String c (s +:+ t)). cbn [String.prefix]. by destruct (ascii_dec c c).
Qed.
Lemma str_app_inj (s t u : string) : s +:+ t = s +:+ u → t = u.
Proof. induction s as [|c s IH]; cbn; [done|]. intros [= E]. by apply IH. Qed.
Lemma str_app_inj_len (s s' t t' : string) :
  String.length s = String.length s' → s +:+ t = s' +:+ t' → s = s' ∧ t = t'.
Proof.
  revert s'. induction s as [|c s IH]; intros [|c' s'] Hl; cbn in *; [done..|].
  intros [= -> E]. destruct (IH s' ltac:(lia) E) as [-> ->]. done.
Qed.

Lemma proposal_key_inj k k' : proposal_key k = proposal_key k' → k = k'.
Proof. apply str_app_inj. Qed.
Lemma vote_key_inj k k' a a' :
  String.length k = 64%nat → String.length k' = 64%nat → vote_key k a = vote_key k' a' → k = k' ∧ a = a'.
Proof.
  unfold vote_key. intros Hk Hk' E%str_app_inj.
  destruct (str_app_inj_len k k' _ _ ltac:(congruence) E) as [-> E']. split; [done|].
  by apply (str_app_inj "_").
Qed.

Lemma vlook_load t v k a :
  vlook (load_vote t v) k a =
  if decide (hex_encode (gv_proposal_id v) = k ∧ gv_voter_address v = a) then Some v else vlook t k a.
Proof.
  unfold vlook, load_vote. set (kv := hex_encode (gv_proposal_id v)).
  destruct (decide (kv = k)) as [->|Hk].
  - rewrite lookup_insert_eq. cbn. destruct (decide (gv_voter_address v = a)) as [<-|Ha].
    + rewrite lookup_insert_eq, decide_True by done. done.
    + rewrite lookup_insert_ne, decide_False by (done || tauto). by destruct (t !! k).
  - rewrite lookup_insert_ne, decide_False by (done || tauto). done.
Qed.

Lemma mirror_set_proposal g p :
  mirror g → mirror (set_proposal (hex_encode (gp_id p)) p g).
Proof.
  intros [Hi Hid Hp Hv]. split; [by apply gov_inv_set|done| |].
  - intros key b Hpre. cbn. set (k0 := hex_encode (gp_id p)).
    destruct (decide (proposal_key k0 = key)) as [<-|Hne].
    + rewrite lookup_insert_eq. split.
      * intros [= <-]. exists k0, p. by rewrite lookup_insert_eq.
      * intros (k & q & <-%proposal_key_inj & Hq & ->). rewrite lookup_insert_eq in Hq. by simplify_eq.
    + rewrite lookup_insert_ne, Hp by done. split; intros (k & q & -> & Hq & ->); exists k, q.
      * rewrite lookup_insert_ne; [done|]. by intros ->.
      * rewrite lookup_insert_ne in Hq; [done|]. by intros ->.
  - intros key b Hpre. cbn. rewrite lookup_insert_ne; [by apply Hv|]. by intros <-.
Qed.

Lemma mirror_vote g v :
  length (gv_proposal_id v) = 32%nat → mirror g →
  mirror (mkGov (gov_db (persist_vote v g)) (proposals g) (load_vote (gov_votes g) v)).
Proof.
  intros Hlen [[Hip Hiv] Hid Hp Hv]. set (k0 := hex_encode (gv_proposal_id v)).
  assert (String.length k0 = 64%nat) as Hk0 by (unfold k0; by rewrite hex_length, Hlen). split.
  - split; [done|]. intros k m a w Hm Ha.
    assert (vlook (load_vote (gov_votes g) v) k a = Some w) as E by (unfold vlook; cbn in Hm; by rewrite Hm).
    rewrite vlook_load in E. case_decide as Hd; [by simplify_eq; destruct Hd|].
    apply bind_Some in E as (m' & ? & ?). by eapply Hiv.
  - cbn. unfold load_vote. fold k0. intros k m [[<- <-]|[_ Hm]]%lookup_insert_Some; [|by eapply Hid].
    split; [done|]. apply insert_non_empty.
  - intros key b Hpre. cbn. rewrite lookup_insert_ne; [by apply Hp|]. by intros <-.
  - intros key b Hpre. cbn. fold k0. destruct (decide (vote_key k0 (gv_voter_address v) = key)) as [<-|Hne].
    + rewrite lookup_insert_eq. split.
      * intros [= <-]. exists k0, (gv_voter_address v), v. rewrite vlook_load, decide_True by done. done.
      * intros (k & a & w & E & Hw & ->). rewrite vlook_load in Hw. fold k0 in Hw.
        case_decide as Hd; [by simplify_eq|]. exfalso. apply Hd.
        apply bind_Some in Hw as (m & Hm & _). apply vote_key_inj in E as [-> ->]; [done..|].
        by destruct (Hid k m Hm).
    + rewrite lookup_insert_ne, Hv by done. split; intros (k & a & w & -> & Hw & ->); exists k, a, w.
      * rewrite vlook_load, decide_False; [done|]. by intros [<- <-].
      * rewrite vlook_load, decide_False in Hw; [done|]. by intros [<- <-].
Qed.

(** Vote identifiers are the 32-byte arrays of their type. *)
Definition op_typed (o : gov_op) : Prop :=
  match o with GVote v _ => length (gv_proposal_id v) = 32%nat | _ => True end.

Lemma gov_mirror_exec g o : op_typed o → mirror g → mirror (gov_exec g o).
Proof.
  intros Ht Hi. destruct o as [p mns bal|v mns|height mns|id]; cbn [gov_exec].
  - unfold submit_proposal. case_bool_decide; [done|].
    destruct (ok_or _ _) as [s|]; [|done]. destruct (is_free s); [done|].
    destruct (proposal_verify_signature p); [|done]. destruct (validate_payload _ _); [|done].
    by apply (mirror_set_proposal g p).
  - unfold record_vote. destruct (vote_checks g v mns); [|done]. case_bool_decide; [done|].
    exact (mirror_vote g v Ht Hi).
  - apply (foldl_preserve _ (λ acc, mirror acc.1)); [|done]. intros [g' ps] k Hg'. cbn in Hg' |- *.
    unfold execute_step. destruct (proposals g' !! k) as [p|] eqn:E; [|done].
    rewrite (gi_proposals g' (mi_inv g' Hg') k p E). destruct (quorum_met _ _); by apply (mirror_set_proposal g' (set_status _ p)).
  - unfold mark_executed. destruct (proposals g !! hex_encode id) as [p|] eqn:E; [|done].
    rewrite (gi_proposals g (mi_inv g Hi) _ p E). by apply (mirror_set_proposal g (set_status Executed p)).
Qed.
(** Inserting by key a list without two values for one key. *)
Lemma load_proposals_lookup (l : list GovernanceProposal) (m : gmap string GovernanceProposal) k p :
  (∀ p q, p ∈ l → q ∈ l → hex_encode (gp_id p) = hex_encode (gp_id q) → p = q) →
  (∀ p q, m !! hex_encode (gp_id p) = Some q → p ∈ l → p = q) →
  foldl load_proposal m l !! k = Some p ↔ m !! k = Some p ∨ p ∈ l ∧ hex_encode (gp_id p) = k.
Proof.
  revert m. induction l as [|q l IH]; intros m Hu Hm; cbn [foldl].
  { split; [by left|]. intros [?|[?%elem_of_nil _]]; done. }
  rewrite IH.
  - unfold load_proposal. rewrite lookup_insert_Some, elem_of_cons. split.
    + intros [[[<- <-]|[_ ?]]|[? ?]]; auto.
    + intros [Hk|[[->|Hin] Hk]]; [|by left; left|by right].
      destruct (decide (hex_encode (gp_id q) = k)) as [Hq|]; [|by left; right]. left. left. split; [done|].
      rewrite <-Hq in Hk. exact (Hm q p Hk (list_elem_of_here _ _)).
  - intros p1 p2 H1' H2'. apply Hu; by apply elem_of_cons; right.
  - unfold load_proposal. intros p1 p2 [[Ek <-]|[_ Hk]]%lookup_insert_Some Hin.
    + apply Hu; [by apply elem_of_cons; right|apply list_elem_of_here|done].
    + apply Hm; [done|]. by apply elem_of_cons; right.
Qed.

Definition vote_at (v : GovernanceVote) (k a : string) : Prop :=
  hex_encode (gv_proposal_id v) = k ∧ gv_voter_address v = a.

Lemma load_votes_lookup (l : list GovernanceVote) t k a v :
  (∀ v w k a, v ∈ l → w ∈ l → vote_at v k a → vote_at w k a → v = w) →
  (∀ v w k a, vlook t k a = Some w → v ∈ l → vote_at v k a → v = w) →
  vlook (foldl load_vote t l) k a = Some v ↔ vlook t k a = Some v ∨ v ∈ l ∧ vote_at v k a.
Proof.
  revert t. induction l as [|w l IH]; intros t Hu Ht; cbn [foldl].
  { split; [by left|]. intros [?|[?%elem_of_nil _]]; done. }
  rewrite IH.
  - rewrite vlook_load, elem_of_cons. fold (vote_at w k a). split.
    + intros [Hv|[? ?]]; [|auto]. case_decide as Hd; [|auto]. simplify_eq. auto.
    + intros [Hv|[[->|Hin] Hk]]; [|by left; rewrite decide_True|by right].
      left. case_decide as Hd; [|done]. f_equal. exact (Ht w v k a Hv (list_elem_of_here _ _) Hd).
  - intros v1 v2 k' a' H1' H2'. apply Hu; by apply elem_of_cons; right.
  - intros v1 v2 k' a' Hv Hin Hat. rewrite vlook_load in Hv. fold (vote_at w k' a') in Hv.
    case_decide as Hd.
    + simplify_eq. eapply Hu; [by apply elem_of_cons; right|apply list_elem_of_here|done..].
    + eapply Ht; [done| |done]. by apply elem_of_cons; right.
Qed.

Lemma load_votes_nonempty (l : list GovernanceVote) t :
  (∀ k m, t !! k = Some m → m ≠ ∅) → ∀ k m, foldl load_vote t l !! k = Some m → m ≠ ∅.
Proof.
  revert t. induction l as [|v l IH]; intros t Ht; [done|]. apply IH. unfold load_vote.
  intros k m [[_ <-]|[_ Hm]]%lookup_insert_Some; [apply insert_non_empty|by eapply Ht].
Qed.

(** Vote tables without empty rows are equal when they agree at every pair. *)
Lemma vlook_ext t t' :
  (∀ k m, t !! k = Some m → m ≠ ∅) → (∀ k m, t' !! k = Some m → m ≠ ∅) →
  (∀ k a, vlook t k a = vlook t' k a) → t = t'.
Proof.
  intros Ht Ht' E. apply map_eq. intros k. unfold vlook in E. specialize (Ht k). specialize (Ht' k).
  assert (∀ m : gmap string GovernanceVote, m ≠ ∅ → ∃ a v, m !! a = Some v) as Hsome.
  { intros m Hm. apply map_choose in Hm as (a & v & ?). eauto. }
  destruct (t !! k) as [m|] eqn:Em, (t' !! k) as [m'|] eqn:Em'; [| | |done].
  - f_equal. apply map_eq. intros a. specialize (E k a). rewrite Em, Em' in E. exact E.
  - destruct (Hsome m (Ht m eq_refl)) as (a & v & Ha). specialize (E k a). rewrite Em, Em' in E. cbn in E. congruence.
  - destruct (Hsome m' (Ht' m' eq_refl)) as (a & v & Ha). specialize (E k a). rewrite Em, Em' in E. cbn in E. congruence.
Qed.

Lemma elem_scan {A} (un : bytes → option A) pre db x :
  x ∈ omap un (scan_prefix pre db) ↔
  ∃ key b, db !! key = Some b ∧ String.prefix pre key = true ∧ un b = Some x.
Proof.
  unfold scan_prefix. rewrite list_elem_of_omap. split.
  - intros (b & Hb & Hx). apply list_elem_of_fmap in Hb as ([key b'] & -> & [Hp Hin]%list_elem_of_filter).
    rewrite iter_perm, elem_of_map_to_list in Hin. exists key, b'. split_and!; [done|by apply Is_true_true|done].
  - intros (key & b & Hk & Hp & Hx). exists b. split; [|done]. apply list_elem_of_fmap. exists (key, b).
    split; [done|]. apply list_elem_of_filter. split; [by apply Is_true_true|]. by rewrite iter_perm, elem_of_map_to_list.
Qed.

Lemma scan_proposals g p : mirror g →
  p ∈ omap proposal_unbincode (scan_prefix "gov_proposal_" (gov_db g)) ↔ proposals g !! hex_encode (gp_id p) = Some p.
Proof.
  intros Hm. rewrite elem_scan. split.
  - intros (key & b & Hk & Hpre & Hun). apply (mi_props g Hm key b Hpre) in Hk as (k & q & -> & Hq & ->).
    rewrite proposal_bincode_inv in Hun. simplify_eq. by rewrite <-(gi_proposals g (mi_inv g Hm) k p Hq).
  - intros Hp. exists (proposal_key (hex_encode (gp_id p))), (proposal_bincode p).
    split_and!; [|apply prefix_app|by apply proposal_bincode_inv].
    apply (mi_props g Hm); [apply prefix_app|]. eauto.
Qed.

Lemma scan_votes g v : mirror g →
  v ∈ omap vote_unbincode (scan_prefix "gov_vote_" (gov_db g)) ↔
  vlook (gov_votes g) (hex_encode (gv_proposal_id v)) (gv_voter_address v) = Some v.
Proof.
  intros Hm. rewrite elem_scan. split.
  - intros (key & b & Hk & Hpre & Hun). apply (mi_votes g Hm key b Hpre) in Hk as (k & a & w & -> & Hw & ->).
    rewrite vote_bincode_inv in Hun. simplify_eq. pose proof Hw as (m & Hmk & Hma)%bind_Some.
    destruct (gi_votes g (mi_inv g Hm) k m a v Hmk Hma) as [-> ->]. done.
  - intros Hv. exists (vote_key (hex_encode (gv_proposal_id v)) (gv_voter_address v)), (vote_bincode v).
    split_and!; [|apply prefix_app|by apply vote_bincode_inv].
    apply (mi_votes g Hm); [apply prefix_app|]. eauto 6.
Qed.

Lemma load_mirror g : mirror g → gov_load (gov_db g) = g.
Proof.
  intros Hm. destruct g as [db ps vs] eqn:Eg. rewrite <-Eg in Hm. unfold gov_load. cbn [gov_db]. f_equal.
  - apply map_eq. intros k. apply option_eq. intros p. rewrite load_proposals_lookup.
    + rewrite lookup_empty. pose proof (scan_proposals g p Hm) as Hs. rewrite Eg in Hs. cbn in Hs. rewrite Hs. split.
      * intros [?|[? <-]]; done.
      * intros Hp. right. pose proof (gi_proposals g (mi_inv g Hm) k p) as Hk. rewrite Eg in Hk. cbn in Hk.
        by rewrite <-(Hk Hp).
    + intros p1 p2 H1' H2' E. pose proof (scan_proposals g p1 Hm) as S1. pose proof (scan_proposals g p2 Hm) as S2.
      rewrite Eg in S1, S2. apply S1 in H1'. apply S2 in H2'. rewrite E in H1'. congruence.
    + intros p1 p2. by rewrite lookup_empty.
  - apply vlook_ext.
    + apply load_votes_nonempty. intros k m. by rewrite lookup_empty.
    + intros k m Hk. pose proof (mi_vote_ids g Hm k m) as Hv. rewrite Eg in Hv. by apply Hv.
    + intros k a. apply option_eq. intros v. pose proof (λ v, scan_votes g v Hm) as Hs. rewrite Eg in Hs. cbn in Hs.
      rewrite load_votes_lookup.
      * rewrite Hs. unfold vote_at. split.
        -- intros [Hv|[Hv [<- <-]]]; [|done]. unfold vlook in Hv. by rewrite lookup_empty in Hv.
        -- intros Hv. right. pose proof Hv as (m & Hk & Ha)%bind_Some.
           pose proof (gi_votes g (mi_inv g Hm) k m a v) as Hi. rewrite Eg in Hi.
           destruct (Hi Hk Ha) as [<- <-]. done.
      * intros v1 v2 k' a' H1'%Hs H2'%Hs [E1 E2] [E3 E4]. rewrite E1, E2 in H1'. rewrite E3, E4 in H2'. congruence.
      * intros v1 v2 k' a' Hv. unfold vlook in Hv. by rewrite lookup_empty in Hv.
Qed.

(** A restart of the governance store loses nothing: loading the database of any state
    reached from a mirrored one gives that state back, proposals, statuses and votes. *)
Theorem governance_restart g os :
  mirror g → Forall op_typed os → gov_load (gov_db (gov_run g os)) = gov_run g os.
Proof.
  intros Hm Ht. apply load_mirror. revert g Hm. induction Ht as [|o os Ho _ IH]; intros g Hm; [done|].
  by apply IH, gov_mirror_exec.
Qed.
End restart.

(** ** Votes *)

Section votes.
Context `{Externals} `{GovCodec} `{MapIter}.
Implicit Types g : GovernanceState.

(** When a vote is accepted, in terms of the proposal, the registry and the key. *)
Definition vote_admissible g (v : GovernanceVote) (mns : list MasternodeInfo) : Prop :=
  ∃ p mn vk, proposals g !! hex_encode (gv_proposal_id v) = Some p ∧ gp_status p = Active ∧
    vote_height v ≤ vote_end_height p ∧
    find_node mns (gv_voter_address v) = Some mn ∧ tier (masternode mn) ≠ Free ∧
    vk_from_bytes (gv_voter_pubkey v) = Some vk ∧
    ed25519_verify vk (vote_signing_message v) (gv_signature v) = true.

Lemma vote_checks_ok g v mns : vote_checks g v mns = Ok tt ↔ vote_admissible g v mns.
Proof.
  unfold vote_checks, vote_admissible, vote_verify_signature, check_signature, is_free. split.
  - destruct (proposals g !! _) as [p|]; cbn; [|done]. case_bool_decide as Hs; [done|].
    destruct (Z.ltb_spec (vote_end_height p) (vote_height v)); [done|].
    destruct (find_node _ _) as [mn|]; cbn; [|done]. case_bool_decide; [done|].
    destruct (vk_from_bytes _) as [vk|]; [|done]. destruct (ed25519_verify _ _ _) eqn:E; [|done]. intros _.
    exists p, mn, vk. split_and!; [done|destruct (decide (gp_status p = Active)); naive_solver|done..].
  - intros (p & mn & vk & -> & Hs & Hh & -> & Ht & -> & Hv). cbn.
    rewrite bool_decide_eq_false_2 by (intros []; done).
    destruct (Z.ltb_spec (vote_end_height p) (vote_height v)); [lia|].
    by rewrite (bool_decide_eq_false_2 (tier _ = Free)), Hv by done.
Qed.

(** Recording a vote, on every branch: it is accepted iff the proposal is known, active and
    not past its end height, the voter is an active non-free node and the vote's signature
    verifies; then the voter's entry is the given vote's choice, no other entry changes and
    the answer tells whether the choice is new; otherwise nothing changes. *)
Theorem record_vote_spec g v mns :
  let k := hex_encode (gv_proposal_id v) in
  let a := gv_voter_address v in
  let '(g', r) := record_vote g v mns in
  match r with
  | Err _ => g' = g ∧ ¬ vote_admissible g v mns
  | Ok fresh =>
      vote_admissible g v mns ∧ proposals g' = proposals g ∧
      (fresh = true ↔ approve <$> vlook (gov_votes g) k a ≠ Some (approve v)) ∧
      approve <$> vlook (gov_votes g') k a = Some (approve v) ∧
      ∀ k' a', ¬ (k' = k ∧ a' = a) → vlook (gov_votes g') k' a' = vlook (gov_votes g) k' a'
  end.
Proof.
  cbv zeta. unfold record_vote. pose proof (vote_checks_ok g v mns) as Hc.
  destruct (vote_checks g v mns) as [[]|e] eqn:E.
  2: { split; [done|]. intros Ha%Hc. done. }
  assert (existing_approve g v = approve <$> vlook (gov_votes g) (hex_encode (gv_proposal_id v)) (gv_voter_address v)) as ->.
  { unfold existing_approve, vlook. by destruct (gov_votes g !! _). }
  case_bool_decide as Hb.
  - split_and!; [by apply Hc|done|by split|done|done].
  - cbn. split_and!; [by apply Hc|done|by split| |].
    + by rewrite vlook_load, decide_True.
    + intros k' a' Hne. rewrite vlook_load, decide_False; [done|]. intros [<- <-]. by apply Hne.
Qed.

Definition rekey (f : string → VerifyingKey) (mn : MasternodeInfo) : MasternodeInfo :=
  let m := masternode mn in
  mkMasternodeInfo
    (mkMasternode (mn_address m) (wallet_address m) (mn_reward_address m) (mn_collateral m)
       (collateral_outpoint m) (mn_locked_at m) (mn_unlock_height m) (f (mn_address m)) (tier m)
       (registered_at m) (slot_id m))
    (reward_address mn) (uptime_start mn) (total_uptime mn) (is_active mn) (consensus_suspended mn)
    (daemon_started_at mn) (last_reward_height mn) (blocks_without_reward mn) (registration_height mn)
    (registration_source mn) (peer_reports mn) (operator_pubkey mn) (is_publicly_reachable mn)
    (reachability_checked_at mn) (first_seen_at mn) (last_seen_at mn).

Lemma find_node_rekey f mns a : find_node (rekey f <$> mns) a = rekey f <$> find_node mns a.
Proof.
  unfold find_node. induction mns as [|mn mns IH]; [done|]. cbn. by destruct (String.eqb _ _).
Qed.

(** The key registered for a masternode plays no part in its votes. *)
Theorem vote_ignores_registered_key g v mns f :
  record_vote g v (rekey f <$> mns) = record_vote g v mns.
Proof.
  unfold record_vote, vote_checks. rewrite find_node_rekey.
  destruct (proposals g !! _) as [p|]; cbn; [|done]. case_bool_decide; [done|].
  destruct (_ <? _); [done|]. by destruct (find_node _ _).
Qed.

(** A signature fixes the proposal, voter, choice and height of the vote it was made for. *)
Theorem vote_message_injective v w :
  length (gv_proposal_id v) = 32%nat → length (gv_proposal_id w) = 32%nat →
  u64_ok (vote_height v) → u64_ok (vote_height w) →
  vote_signing_message v = vote_signing_message w →
  gv_proposal_id v = gv_proposal_id w ∧ gv_voter_address v = gv_voter_address w ∧
  approve v = approve w ∧ vote_height v = vote_height w.
Proof.
  intros Hv Hw Hhv Hhw E. unfold vote_signing_message in E.
  apply app_inj_1 in E as [E1 E]; [|congruence].
  rewrite !(assoc_L (++)) in E. apply app_inj_2 in E as [E E4]; [|by rewrite !length_le_bytes].
  apply app_inj_tail in E as [E2 E3]. split_and!; [done|by apply str_bytes_inj| |].
  - by destruct (approve v), (approve w).
  - by apply (le_bytes_inj 8).
Qed.
End votes.

(** ** Witnesses *)

#[export] Instance ProposalPayload_countable : Countable ProposalPayload.
Proof.
  refine (inj_countable'
    (λ x, match x with
          | TreasurySpend a b c => inl (a, b, c)
          | FeeScheduleChange a b => inr (inl (a, b))
          | EmissionRateChange a b => inr (inr (a, b))
          end)
    (λ x, match x with
          | inl (a, b, c) => TreasurySpend a b c
          | inr (inl (a, b)) => FeeScheduleChange a b
          | inr (inr (a, b)) => EmissionRateChange a b
          end) _). by intros [].
Defined.
#[export] Instance ProposalStatus_countable : Countable ProposalStatus.
Proof.
  refine (inj_countable'
    (λ x, match x with Active => inl false | Failed => inl true | Passed h => inr (Some h) | Executed => inr None end)
    (λ x, match x with inl false => Active | inl true => Failed | inr (Some h) => Passed h | inr None => Executed end) _).
  by intros [].
Defined.

Section witnesses.
#[local] Existing Instance canonical_iter.
#[local] Existing Instance model_externals.

(** A codec with its laws: the fields of a record, numbered. *)
Definition model_gov_codec : GovCodec := {|
  proposal_bincode p := [Zpos (countable.encode (gp_id p, gp_payload p, submitter_address p, submitter_pubkey p,
    submitter_signature p, submit_height p, vote_end_height p, gp_status p))];
  proposal_unbincode b :=
    match b with
    | [Zpos n] => (λ '(a, b, c, d, e, f, g, h), mkProposal a b c d e f g h) <$> countable.decode n
    | _ => None
    end;
  vote_bincode v := [Zpos (countable.encode (gv_proposal_id v, gv_voter_address v, gv_voter_pubkey v,
    approve v, vote_height v, gv_signature v))];
  vote_unbincode b :=
    match b with
    | [Zpos n] => (λ '(a, b, c, d, e, f), mkGovVote a b c d e f) <$> countable.decode n
    | _ => None
    end;
|}.
#[local] Existing Instance model_gov_codec.
#[local] Instance model_gov_codec_laws : GovCodecLaws.
Proof.
  split.
  - intros p. cbn [proposal_bincode proposal_unbincode model_gov_codec].
    rewrite countable.decode_encode. by destruct p.
  - intros v. cbn [vote_bincode vote_unbincode model_gov_codec].
    rewrite countable.decode_encode. by destruct v.
Defined.
#[local] Instance model_hex_laws : HexLaws.
Proof.
  split. intros b. cbn. unfold hex_of_bytes.
  induction b as [|x b IH]; [done|]. cbn. rewrite IH. lia.
Defined.

Definition w_gov_pk : bytes := replicate 32 7.
Definition w_gov_id : Hash256 := replicate 32 5.
Definition w_gov_node (addr : string) (t : MasternodeTier) : MasternodeInfo :=
  mkMasternodeInfo (new_legacy addr addr 0 w_gov_pk t 0) "" 0 0 true false 0 0 0 0 Handshake ∅ None true 0 0 0.
Definition w_gov_nodes : list MasternodeInfo := [w_gov_node "gold" Gold; w_gov_node "bronze" Bronze].
Definition w_proposal : GovernanceProposal :=
  mkProposal w_gov_id (TreasurySpend "dev" 500 "audit") "gold" w_gov_pk (replicate 64 7) 10 1018 Active.
Definition w_gov_vote (addr : string) (yes : bool) : GovernanceVote :=
  mkGovVote w_gov_id addr w_gov_pk yes 20 (replicate 64 7).
Definition w_gov_empty : GovernanceState := gov_load ∅.
Definition w_gov_ops : list gov_op :=
  [GSubmit w_proposal w_gov_nodes 1000; GVote (w_gov_vote "bronze" true) w_gov_nodes;
   GVote (w_gov_vote "bronze" false) w_gov_nodes; GVote (w_gov_vote "gold" true) w_gov_nodes].
Definition w_gov_voted : GovernanceState := gov_run w_gov_empty w_gov_ops.

Lemma w_gov_empty_inv : gov_inv w_gov_empty.
Proof. split; intros; done. Defined.
Lemma w_gov_empty_mirror : mirror w_gov_empty.
Proof.
  split; [apply w_gov_empty_inv|done|..]; intros key b _; (split; [done|]).
  - by intros (k & p & _ & ? & _).
  - by intros (k & a & v & _ & ? & _).
Defined.

(** The proposal passes at its end height with the gold node's approval. *)
Lemma proposal_lifecycle_witness :
  let g := gov_run w_gov_empty [GSubmit w_proposal w_gov_nodes 1000] in
  let g' := gov_run w_gov_voted [GBlock 1018 w_gov_nodes] in
  gp_status <$> proposals g' !! hex_encode w_gov_id = Some (Passed 1018) ∧
  ∃ q, proposals (gov_run g' [GExecuted w_gov_id]) !! hex_encode w_gov_id = Some q ∧
    same_proposal (set_status (Passed 1018) w_proposal) q ∧
    (decided (Passed 1018) = true → gp_status q = Passed 1018 ∨ gp_status q = Executed) ∧
    (∀ h, gp_status q = Passed h → Passed 1018 = Passed h ∨ Passed 1018 = Active ∧ h = 1018).
Proof.
  split; [by vm_compute|].
  apply (proposal_lifecycle (gov_run w_gov_voted [GBlock 1018 w_gov_nodes]) [GExecuted w_gov_id]
    (hex_encode w_gov_id) (set_status (Passed 1018) w_proposal)). by vm_compute.
Defined.

(** The bronze node changed its mind; 10 of the 11 units of weight approve. *)
Lemma quorum_exact_witness :
  gov_inv w_gov_empty ∧ tally_yes_weight w_gov_voted (hex_encode w_gov_id) w_gov_nodes = 10 ∧
  total_active_weight w_gov_nodes = 11 ∧
  let total := sumZ (gov_weight <$> w_gov_nodes) in
  let yes := sumZ (gov_weight <$> filter (approved_by w_gov_voted (hex_encode w_gov_id)) w_gov_nodes) in
  0 ≤ yes ≤ total ∧
  (quorum_met (tally_yes_weight w_gov_voted (hex_encode w_gov_id) w_gov_nodes) (total_active_weight w_gov_nodes) = true ↔
   0 < total ∧ 67 * total ≤ 100 * yes).
Proof.
  split_and!; [apply w_gov_empty_inv|by vm_compute|by vm_compute|].
  apply (quorum_exact w_gov_empty w_gov_ops (hex_encode w_gov_id) w_gov_nodes);
    [apply w_gov_empty_inv|by apply (bool_decide_unpack _); vm_compute|by vm_compute].
Defined.

Lemma governance_restart_witness :
  size (gov_db w_gov_voted) = 3%nat ∧ gov_load (gov_db w_gov_voted) = w_gov_voted.
Proof.
  split; [by vm_compute|].
  apply (governance_restart w_gov_empty w_gov_ops); [apply w_gov_empty_mirror|].
  repeat constructor.
Defined.

Lemma vote_message_injective_witness :
  let v := w_gov_vote "gold" true in
  let w := mkGovVote w_gov_id "gold" [1] true 20 [2] in
  gv_proposal_id v = gv_proposal_id w ∧ gv_voter_address v = gv_voter_address w ∧
  approve v = approve w ∧ vote_height v = vote_height w.
Proof. apply vote_message_injective; by vm_compute. Defined.
End witnesses.
