(* ===== verification/Lru.v ===== *)
(** * The [lru] crate

    [LruCache] of the crate is a parameter: its operations, and what its documentation
    promises of them.  What is kept is read by [lru_peek]; which entry an insertion into a
    full cache drops is left open.  [list_lru] is an instance, for the samples. *)

From Stdlib Require Import ZArith Lia.
From stdpp Require Import base list.
From S2P Require Import Prelude.

Class LruCrate := {
  LruCache : Type → Type → Type;
  (** [new] takes a capacity that is not zero. *)
  lru_new : ∀ {K V}, positive → LruCache K V;
  lru_peek : ∀ {K V} `{EqDecision K}, LruCache K V → K → option V;
  lru_get : ∀ {K V} `{EqDecision K}, LruCache K V → K → LruCache K V * option V;
  lru_put : ∀ {K V} `{EqDecision K}, LruCache K V → K → V → LruCache K V;
  (** As [put]; the old value of the key, or the entry that was dropped. *)
  lru_push : ∀ {K V} `{EqDecision K}, LruCache K V → K → V → LruCache K V * option (K * V);
  lru_pop : ∀ {K V} `{EqDecision K}, LruCache K V → K → LruCache K V * option V;
  lru_clear : ∀ {K V}, LruCache K V → LruCache K V;
  (** The entries, the most recently used first. *)
  lru_iter : ∀ {K V}, LruCache K V → list (K * V);

  lru_peek_new : ∀ {K V} `{EqDecision K} n k, lru_peek (lru_new n : LruCache K V) k = None;
  lru_get_value : ∀ {K V} `{EqDecision K} (c : LruCache K V) k, (lru_get c k).2 = lru_peek c k;
  lru_peek_get : ∀ {K V} `{EqDecision K} (c : LruCache K V) k k', lru_peek (lru_get c k).1 k' = lru_peek c k';
  lru_peek_put : ∀ {K V} `{EqDecision K} (c : LruCache K V) k v, lru_peek (lru_put c k v) k = Some v;
  lru_peek_put_ne : ∀ {K V} `{EqDecision K} (c : LruCache K V) k v k' v',
    k' ≠ k → lru_peek (lru_put c k v) k' = Some v' → lru_peek c k' = Some v';
  lru_peek_push : ∀ {K V} `{EqDecision K} (c : LruCache K V) k v, lru_peek (lru_push c k v).1 k = Some v;
  lru_peek_push_ne : ∀ {K V} `{EqDecision K} (c : LruCache K V) k v k' v',
    k' ≠ k → lru_peek (lru_push c k v).1 k' = Some v' → lru_peek c k' = Some v';
  lru_pop_value : ∀ {K V} `{EqDecision K} (c : LruCache K V) k, (lru_pop c k).2 = lru_peek c k;
  lru_peek_pop : ∀ {K V} `{EqDecision K} (c : LruCache K V) k k',
    lru_peek (lru_pop c k).1 k' = if decide (k' = k) then None else lru_peek c k';
  lru_peek_clear : ∀ {K V} `{EqDecision K} (c : LruCache K V) k, lru_peek (lru_clear c) k = None;
  lru_iter_peek : ∀ {K V} `{EqDecision K} (c : LruCache K V) k v, lru_peek c k = Some v → (k, v) ∈ lru_iter c;
}.

(** ** A cache as a list with the last used entry first *)

Section lists.
Context {K V : Type}.
Record list_cache := mkList { ll_cap : positive; ll_entries : list (K * V) }.
Implicit Types c : list_cache.
Definition ll_new (n : positive) : list_cache := mkList n [].
Definition ll_clear c : list_cache := mkList (ll_cap c) [].
Context `{EqDecision K}.
Definition ll_without (k : K) (l : list (K * V)) : list (K * V) := filter (λ e, e.1 ≠ k) l.
Definition ll_find (l : list (K * V)) (k : K) : option V := snd <$> List.find (λ e, bool_decide (e.1 = k)) l.
Definition ll_peek c (k : K) : option V := ll_find (ll_entries c) k.
Definition ll_get c (k : K) : list_cache * option V :=
  match ll_peek c k with
  | Some v => (mkList (ll_cap c) ((k, v) :: ll_without k (ll_entries c)), Some v)
  | None => (c, None)
  end.
Definition ll_push c (k : K) (v : V) : list_cache * option (K * V) :=
  let l := (k, v) :: ll_without k (ll_entries c) in
  (mkList (ll_cap c) (take (Pos.to_nat (ll_cap c)) l),
   match ll_peek c k with Some old => Some (k, old) | None => head (drop (Pos.to_nat (ll_cap c)) l) end).
Definition ll_pop c (k : K) : list_cache * option V := (mkList (ll_cap c) (ll_without k (ll_entries c)), ll_peek c k).

Lemma ll_find_elem l k v : ll_find l k = Some v → (k, v) ∈ l.
Proof.
  unfold ll_find. destruct (List.find _ l) as [[k' v']|] eqn:E; [|done]. intros [= <-].
  apply List.find_some in E as [Hin Hk%bool_decide_eq_true]. cbn in Hk. subst k'. by apply list_elem_of_In.
Qed.
Lemma ll_find_without l k k' : ll_find (ll_without k l) k' = if decide (k' = k) then None else ll_find l k'.
Proof.
  unfold ll_find, ll_without. induction l as [|[x v] l IH]; [cbn; by destruct (decide _)|]. rewrite filter_cons. cbn [fst].
  destruct (decide (x ≠ k)) as [Hx|Hx]; cbn [List.find fst].
  - case_bool_decide as E; [|exact IH]. subst x. by rewrite decide_False.
  - apply dec_stable in Hx as ->. rewrite IH. destruct (decide (k' = k)) as [->|Hne]; [done|]. by rewrite bool_decide_false.
Qed.
Lemma ll_find_cons l k v k' : ll_find ((k, v) :: ll_without k l) k' = if decide (k' = k) then Some v else ll_find l k'.
Proof.
  change (ll_find ((k, v) :: ll_without k l) k') with (snd <$> (if bool_decide (k = k') then Some (k, v) else List.find (λ e : K * V, bool_decide (e.1 = k')) (ll_without k l))).
  case_bool_decide as E; [subst; by rewrite decide_True|]. rewrite decide_False by congruence. fold (ll_find (ll_without k l) k').
  rewrite ll_find_without. by rewrite decide_False by congruence.
Qed.
Lemma ll_find_take n l k v : ll_find (take n l) k = Some v → ll_find l k = Some v.
Proof.
  revert n. induction l as [|[x y] l IH]; intros [|n]; try done. unfold ll_find. cbn [take List.find fst].
  case_bool_decide; [done|]. apply IH.
Qed.
Lemma ll_peek_get c k k' : ll_peek (ll_get c k).1 k' = ll_peek c k'.
Proof.
  unfold ll_get. destruct (ll_peek c k) as [v|] eqn:E; [|done]. cbn [fst]. unfold ll_peek in *. cbn [ll_entries]. rewrite ll_find_cons.
  by destruct (decide (k' = k)) as [->|].
Qed.
Lemma ll_peek_push c k v : ll_peek (ll_push c k v).1 k = Some v.
Proof.
  unfold ll_push, ll_peek. cbn [fst ll_entries]. destruct (Pos.to_nat (ll_cap c)) eqn:E; [lia|]. unfold ll_find. cbn. by rewrite bool_decide_true.
Qed.
Lemma ll_peek_push_ne c k v k' v' : k' ≠ k → ll_peek (ll_push c k v).1 k' = Some v' → ll_peek c k' = Some v'.
Proof. intros Hne. unfold ll_push, ll_peek. cbn [fst ll_entries]. intros Hf%ll_find_take. rewrite ll_find_cons in Hf. by rewrite decide_False in Hf. Qed.
End lists.
Arguments list_cache : clear implicits.

Definition list_lru : LruCrate.
Proof.
  refine {| LruCache := list_cache; lru_new K V := ll_new; lru_peek K V _ := ll_peek; lru_get K V _ := ll_get;
    lru_put K V _ c k v := (ll_push c k v).1; lru_push K V _ := ll_push; lru_pop K V _ := ll_pop; lru_clear K V := ll_clear;
    lru_iter K V := ll_entries |}.
  - done.
  - intros K V ? c k. unfold ll_get. by destruct (ll_peek c k).
  - intros K V ?. apply ll_peek_get.
  - intros K V ?. apply ll_peek_push.
  - intros K V ?. apply ll_peek_push_ne.
  - intros K V ?. apply ll_peek_push.
  - intros K V ?. apply ll_peek_push_ne.
  - done.
  - intros K V ? c k k'. apply ll_find_without.
  - done.
  - intros K V ? c k v. apply ll_find_elem.
Defined.
