(* ===== verification/BlockTypes.v ===== *)
(** * Blocks: data, hash, Merkle root and validation
    (src/block/types.rs, src/block/vrf.rs, src/blockchain_validation.rs, and
    [Blockchain::validate_block] of src/blockchain.rs)

    BLAKE3, the bincode encoding of a block and strict Ed25519 verification are the
    class [BlockExternals].  The clock is the argument [now], in seconds. *)

From Stdlib Require Import ZArith Lia Ascii String.
From stdpp Require Import base gmap strings list.
From S2P Require Import Prelude Types Address.

Definition MAX_BLOCK_SIZE : Z := 4000000.
Definition TIMESTAMP_TOLERANCE_SECS : Z := 5.
Definition BLOCK_TIME_SECONDS : Z := 600.

Record WitnessRecord := mkWitness {
  witness_address : string; witness_pubkey : string; witness_timestamp : Z; witness_signature : string;
}.
Record TimeAttestation := mkAttestation {
  masternode_address : string;
  sequence_number : Z;
  heartbeat_timestamp : Z;
  masternode_pubkey : string;
  heartbeat_signature : string;
  witnesses : list WitnessRecord;
}.
Record MasternodeTierCounts := mkTierCounts { tc_free : Z; tc_bronze : Z; tc_silver : Z; tc_gold : Z }.
Definition tier_total (c : MasternodeTierCounts) : Z :=
  as_u32 (tc_free c + tc_bronze c + tc_silver c + tc_gold c).

Record BlockHeader := mkHeader {
  bh_version : Z;
  bh_height : Z;
  previous_hash : Hash256;
  merkle_root : Hash256;
  bh_timestamp : Z;
  block_reward : Z;
  leader : string;
  attestation_root : Hash256;
  masternode_tiers : MasternodeTierCounts;
  vrf_proof : bytes;
  vrf_output : Hash256;
  vrf_score : Z;
  active_masternodes_bitmap : bytes;
  bh_liveness_recovery : option bool;
  producer_signature : bytes;
  total_fees : Z;
  treasury_balance : Z;
}.
Record Block := mkBlock {
  header : BlockHeader;
  transactions : list Transaction;
  masternode_rewards : list (string * Z);
  time_attestations : list TimeAttestation;
  consensus_participants_bitmap : bytes;
  b_liveness_recovery : option bool;
}.

Class BlockExternals := {
  (** [blake3::Hasher] on the concatenation of the updates *)
  blake3 : bytes → bytes;
  (** [bincode::serialize(block)] *)
  block_bincode : Block → option bytes;
  (** [VerifyingKey::verify_strict] *)
  verify_strict : VerifyingKey → bytes → bytes → bool;
}.

Definition genesis_timestamp (n : NetworkType) : Z :=
  match n with Mainnet => 1776211200 | Testnet => 1764547200 end.

(** ** Merkle root *)

Section merkle.
Context `{Externals}.

(** [if len % 2 == 1 { push(last) }]. *)
Definition merkle_pad (hashes : list Hash256) : list Hash256 :=
  if Nat.odd (length hashes) then hashes ++ [List.last hashes []] else hashes.
(** [chunks(2)], each hashed. *)
Fixpoint hash_pairs (hashes : list Hash256) : list Hash256 :=
  match hashes with
  | a :: b :: hashes => sha256 (a ++ b) :: hash_pairs hashes
  | _ => []
  end.
Definition merkle_round (hashes : list Hash256) : list Hash256 := hash_pairs (merkle_pad hashes).
(** [while hashes.len() > 1]: a round leaves fewer hashes. *)
Fixpoint merkle_loop (fuel : nat) (hashes : list Hash256) : list Hash256 :=
  match fuel with
  | O => hashes
  | S fuel => if (1 <? length hashes)%nat then merkle_loop fuel (merkle_round hashes) else hashes
  end.
Definition build_merkle_root (hashes : list Hash256) : Hash256 :=
  match hashes with
  | [] => replicate 32 0
  | _ => List.hd [] (merkle_loop (length hashes) hashes)
  end.

Definition calculate_merkle_root (txs : list Transaction) : Hash256 := build_merkle_root (txid <$> txs).
(** The txid before memos were left out of it. *)
Definition legacy_txid (tx : Transaction) : Hash256 := sha256 (tx_json tx).
Definition calculate_merkle_root_legacy (txs : list Transaction) : Hash256 :=
  build_merkle_root (legacy_txid <$> txs).
End merkle.

(** ** Block hash, signature and VRF fields *)

Section block.
Context `{Externals} `{BlockExternals}.
Implicit Types b : Block.

(** What [hash] feeds to the hasher. *)
Definition hash_preimage b : bytes :=
  let h := header b in
  le_bytes 4 (bh_version h) ++ le_bytes 8 (bh_height h) ++ previous_hash h ++ merkle_root h
    ++ le_bytes 8 (bh_timestamp h) ++ le_bytes 8 (block_reward h) ++ str_bytes (leader h)
    ++ vrf_output h ++ le_bytes 8 (vrf_score h) ++ active_masternodes_bitmap h
    ++ le_bytes 8 (treasury_balance h).
Definition hash b : Hash256 := blake3 (hash_preimage b).

(** Blocks without a signature are accepted. *)
Definition block_verify_signature b (pk : VerifyingKey) : bool :=
  match producer_signature (header b) with
  | [] => true
  | sig => (length sig =? 64)%nat && verify_strict pk (hash b) sig
  end.

(** [u64::from_le_bytes] of the first eight bytes. *)
Fixpoint from_le (l : bytes) : Z :=
  match l with [] => 0 | x :: l => x + 256 * from_le l end.
Definition vrf_output_to_score (output : Hash256) : Z := from_le (take 8 output).
Definition create_vrf_input (height : Z) (prev : Hash256) : bytes :=
  sha256 (str_bytes "TIMECOIN_VRF_V2" ++ le_bytes 8 height ++ prev).
(** [u64::from_be_bytes(hash[0..8])]. *)
Definition fallback_vrf (height : Z) (prev : Hash256) : bytes * Hash256 * Z :=
  let h := sha256 (str_bytes "TIMECOIN_VRF_FALLBACK_V2" ++ le_bytes 8 height ++ prev) in
  ([], h, from_le (reverse (take 8 h))).
Definition vrf_check_proposer_eligible (score node_weight total_weight : Z) : bool :=
  if (total_weight =? 0) || (node_weight =? 0) then false
  else score <? Z.min (node_weight * (U64 - 1) * 1 / total_weight) (U64 - 1).

(** ** [BlockValidator] *)

Inductive block_error :=
| PreviousHashMismatch (height : Z) | MerkleRootMismatch (height : Z) (expected actual : Hash256)
| TimestampInFuture (height : Z) | TimestampBeforeGenesis (height : Z)
| DuplicateTransaction (height : Z) | SerializationError | BlockTooLarge (height size max : Z)
| MissingBitmap (height : Z) | HeightGap (height : Z) | TimestampDecreases (height : Z)
| AboveExpectedHeight (height : Z) | ProducedTooEarly (height : Z) | GhostTransaction (height : Z)
| EmptyLeader (height : Z) | BadVrfLength (height : Z) | VrfScoreMismatch (height : Z)
| TooFewRecipients (height : Z).

Definition validate_timestamp (net : NetworkType) (now : Z) b : result block_error () :=
  let h := header b in
  fail_if now + TIMESTAMP_TOLERANCE_SECS <? bh_timestamp h with TimestampInFuture (bh_height h) in
  fail_if (0 <? bh_height h) && (bh_timestamp h <? genesis_timestamp net)
    with TimestampBeforeGenesis (bh_height h) in
  Ok tt.

(** [seen_txids.insert(txid)] returns whether the value is new. *)
Fixpoint check_duplicates (height : Z) (txs : list Transaction) (seen : gset Hash256) : result block_error () :=
  match txs with
  | [] => Ok tt
  | tx :: txs =>
      fail_if bool_decide (txid tx ∈ seen) with DuplicateTransaction height in
      check_duplicates height txs ({[txid tx]} ∪ seen)
  end.
Definition check_duplicate_transactions b : result block_error () :=
  check_duplicates (bh_height (header b)) (transactions b) ∅.

Definition validate_block_size b : result block_error () :=
  let? serialized := ok_or SerializationError (block_bincode b) in
  let size := Z.of_nat (length serialized) in
  fail_if MAX_BLOCK_SIZE <? size with BlockTooLarge (bh_height (header b)) size MAX_BLOCK_SIZE in
  Ok tt.

Definition check_previous (expected_prev : option Hash256) b : result block_error () :=
  match expected_prev with
  | Some prev =>
      if bool_decide (previous_hash (header b) ≠ prev) then Err (PreviousHashMismatch (bh_height (header b)))
      else Ok tt
  | None => Ok tt
  end.

Definition validator_validate_block (net : NetworkType) (now : Z) b (expected_prev : option Hash256)
    : result block_error () :=
  let h := header b in
  let? u := check_previous expected_prev b in
  let computed := calculate_merkle_root (transactions b) in
  fail_if bool_decide (computed ≠ merkle_root h) with MerkleRootMismatch (bh_height h) (merkle_root h) computed in
  let? u := validate_timestamp net now b in
  let? u := check_duplicate_transactions b in
  let? u := validate_block_size b in
  fail_if (0 <? bh_height h) && bool_decide (active_masternodes_bitmap h = []) with MissingBitmap (bh_height h) in
  Ok tt.

(** The loop over [windows(2)]. *)
Fixpoint sequence_from (net : NetworkType) (now : Z) (prev : Block) (blocks : list Block)
    : result block_error () :=
  match blocks with
  | [] => Ok tt
  | curr :: blocks =>
      let ch := header curr in
      fail_if negb (bh_height ch =? add64 (bh_height (header prev)) 1) with HeightGap (bh_height ch) in
      let? u := validator_validate_block net now curr (Some (hash prev)) in
      fail_if bh_timestamp ch <? bh_timestamp (header prev) with TimestampDecreases (bh_height ch) in
      sequence_from net now curr blocks
  end.
Definition validate_chain_sequence (net : NetworkType) (now : Z) (blocks : list Block) : result block_error () :=
  match blocks with [] => Ok tt | b :: blocks => sequence_from net now b blocks end.

(** ** [Blockchain::validate_block] *)

(** [i64::saturating_sub]. *)
Definition sat_sub_i64 (a b : Z) : Z := Z.max (- 2 ^ 63) (Z.min (2 ^ 63 - 1) (a - b)).
Definition calculate_expected_height (net : NetworkType) (now : Z) : Z :=
  if now <? genesis_timestamp net then 0 else (now - genesis_timestamp net) / BLOCK_TIME_SECONDS.

(** The Merkle root in the current or the legacy form. *)
Definition merkle_ok b : bool :=
  bool_decide (calculate_merkle_root (transactions b) = merkle_root (header b))
  || bool_decide (calculate_merkle_root_legacy (transactions b) = merkle_root (header b)).

(** Time and height against the schedule; the height is bounded by the second test
    before it is multiplied. *)
Definition check_schedule (net : NetworkType) (now chain_tip : Z) b : result block_error () :=
  let h := header b in
  let genesis := genesis_timestamp net in
  let now_with_grace := now + 10 in
  let max_expected := if now_with_grace <? genesis then 0
                      else (now_with_grace - genesis) / BLOCK_TIME_SECONDS in
  let early_by := sat_sub_i64 (genesis + bh_height h * BLOCK_TIME_SECONDS) (bh_timestamp h) in
  fail_if max_expected <? bh_height h with AboveExpectedHeight (bh_height h) in
  fail_if 600 <? early_by with ProducedTooEarly (bh_height h) in
  fail_if (chain_tip <? add64 (bh_height h) 10) && (30 <? early_by) with ProducedTooEarly (bh_height h) in
  Ok tt.

Definition GHOST_TX_ENFORCEMENT_WINDOW : Z := 10.
Definition is_ghost_tx (tx : Transaction) : bool :=
  bool_decide (inputs tx = []) && bool_decide (outputs tx = [])
  && negb (match special_data tx with
           | Some sd => is_ok (validate_fields sd) && is_ok (verify_signature sd)
                        && is_ok (verify_address_binding sd)
           | None => false
           end).
Definition check_ghosts (net : NetworkType) (now : Z) b : result block_error () :=
  fail_if (calculate_expected_height net now <=? add64 (bh_height (header b)) GHOST_TX_ENFORCEMENT_WINDOW)
          && existsb is_ghost_tx (List.tl (transactions b))
    with GhostTransaction (bh_height (header b)) in
  Ok tt.

Definition check_vrf b : result block_error () :=
  let h := header b in
  match vrf_proof h with
  | [] => Ok tt
  | proof =>
      fail_if negb (length proof =? 80)%nat with BadVrfLength (bh_height h) in
      fail_if negb (vrf_score h =? vrf_output_to_score (vrf_output h)) with VrfScoreMismatch (bh_height h) in
      Ok tt
  end.

(** [u8::count_ones]. *)
Definition count_ones (x : Z) : nat := length (filter (λ i, Z.testbit x i = true) [0; 1; 2; 3; 4; 5; 6; 7]).
Definition bitmap_eligible (bitmap : bytes) : nat := list_sum (count_ones <$> bitmap).
Definition paid_recipients (rewards : list (string * Z)) : gset string :=
  list_to_set (fst <$> filter (λ e : string * Z, 0 < e.2) rewards).
Definition min_paid_recipients (bitmap : bytes) : nat :=
  let n := bitmap_eligible bitmap in if (3 <=? n)%nat then 3%nat else (n `max` 1)%nat.
Definition check_recipients b : result block_error () :=
  let h := header b in
  fail_if (1 <=? bh_height h)
          && (size (paid_recipients (masternode_rewards b)) <? min_paid_recipients (active_masternodes_bitmap h))%nat
    with TooFewRecipients (bh_height h) in
  Ok tt.

Definition validate_block (net : NetworkType) (now chain_tip : Z) b (expected_prev : option Hash256)
    : result block_error () :=
  let h := header b in
  let? u := check_previous expected_prev b in
  fail_if negb (merkle_ok b)
    with MerkleRootMismatch (bh_height h) (merkle_root h) (calculate_merkle_root (transactions b)) in
  let? u := validate_timestamp net now b in
  let? u := check_schedule net now chain_tip b in
  let? u := check_duplicate_transactions b in
  let? u := check_ghosts net now b in
  let? u := validate_block_size b in
  fail_if (3 <? bh_height h) && str_is_empty (leader h) with EmptyLeader (bh_height h) in
  let? u := check_vrf b in
  check_recipients b.
End block.
