(* ===== verification/BlockProofs.v ===== *)
(** * Blocks: the Merkle root binds the transactions, the tip binds the chain
    (src/block/types.rs, src/blockchain_validation.rs)

    Collision resistance is stated about the messages that are actually hashed: no two
    of them have one digest.  Nothing is assumed of other messages. *)

From Stdlib Require Import ZArith Lia Ascii String.
From stdpp Require Import base gmap strings list.
From S2P Require Import Prelude Types Instances Address BlockTypes.

(** No two messages of [D] have the same digest. *)
Definition no_collision (digest : bytes → bytes) (D : list bytes) : Prop :=
  ∀ x y, x ∈ D → y ∈ D → digest x = digest y → x = y.

Lemma no_collision_sub digest D D' : (∀ x, x ∈ D' → x ∈ D) → no_collision digest D → no_collision digest D'.
Proof. intros Hs Hc x y Hx Hy. apply Hc; auto. Qed.

(** [k] rounds above the leaves [l]. *)
Abbreviation level k l := (Nat.iter k merkle_round l).

Section merkle.
Context `{Externals} `{!ExternalsLaws}.

(** The messages one round hashes. *)
Fixpoint pair_msgs (l : list Hash256) : list bytes :=
  match l with
  | [] => []
  | a :: l' => match l' with
               | [] => [a ++ a]
               | b :: l'' => (a ++ b) :: pair_msgs l''
               end
  end.

Lemma list_pair_ind {A} (P : list A → Prop) :
  P [] → (∀ a, P [a]) → (∀ a b l, P l → P (a :: b :: l)) → ∀ l, P l.
Proof.
  intros P0 P1 P2. enough (∀ l, P l ∧ ∀ a, P (a :: l)) as Hl by (intros l; apply Hl).
  induction l as [|b l [IH1 IH2]]; split; auto.
Qed.

Lemma merkle_round_msgs l : merkle_round l = sha256 <$> pair_msgs l.
Proof.
  unfold merkle_round, merkle_pad. induction l as [|a|a b l IH] using list_pair_ind; [done..|].
  cbn [length Nat.odd Nat.even negb]. change (Nat.odd (S (S (length l)))) with (Nat.odd (length l)).
  destruct (Nat.odd (length l)) eqn:E.
  - cbn [app hash_pairs pair_msgs fmap list_fmap]. f_equal. rewrite <-IH. by destruct l as [|x l]; [discriminate E|].
  - cbn [hash_pairs pair_msgs fmap list_fmap]. by rewrite <-IH.
Qed.

Lemma pair_msgs_length l : (2 * length (pair_msgs l) ≤ length l + 1)%nat ∧ (l ≠ [] → pair_msgs l ≠ []).
Proof. induction l as [|a|a b l IH] using list_pair_ind; cbn; (split; [lia|by intros]). Qed.

Lemma merkle_round_length l :
  (1 < length l)%nat → (length (merkle_round l) < length l)%nat ∧ merkle_round l ≠ [].
Proof.
  intros Hl. rewrite merkle_round_msgs, length_fmap. destruct (pair_msgs_length l) as [H1 H2].
  split; [lia|]. intros E%fmap_nil_inv. apply H2; [|done]. intros ->. cbn in Hl. lia.
Qed.

Definition hashes_ok (l : list Hash256) : Prop := Forall (λ h, length h = 32%nat) l.

Lemma merkle_round_ok l : hashes_ok (merkle_round l).
Proof. rewrite merkle_round_msgs. apply Forall_fmap, Forall_forall. intros m _. apply sha256_length. Qed.

Lemma pair_msgs_heads l : hashes_ok l → (take 32 <$> pair_msgs l) `sublist_of` l.
Proof.
  induction l as [|a|a b l IH] using list_pair_ind; intros Hl; cbn; [done|..].
  - inversion_clear Hl as [|?? Ha _]. rewrite take_app_length' by done. done.
  - inversion_clear Hl as [|?? Ha Hl']. inversion_clear Hl' as [|?? Hb Hl].
    rewrite take_app_length' by done. apply sublist_skip, sublist_cons. auto.
Qed.

Lemma pair_msgs_NoDup l : hashes_ok l → NoDup l → NoDup (pair_msgs l).
Proof.
  intros Hl Hnd. apply (NoDup_fmap_1 (take 32)). eapply sublist_NoDup; [done|by apply pair_msgs_heads].
Qed.

(** A round is injective on lists without duplicates. *)
Lemma pair_msgs_inj l1 l2 :
  hashes_ok l1 → hashes_ok l2 → NoDup l1 → NoDup l2 → pair_msgs l1 = pair_msgs l2 → l1 = l2.
Proof.
  revert l2. induction l1 as [|a|a b l1 IH] using list_pair_ind; intros l2 H1 H2 N1 N2 E.
  - destruct l2 as [|c [|d l2]]; done.
  - destruct l2 as [|c [|d l2]]; cbn in E; [done|..]; injection E as E.
    + inversion_clear H1 as [|?? Ha _]. inversion_clear H2 as [|?? Hc _].
      apply app_inj_len in E as [-> _]; [done|congruence].
    + inversion_clear H1 as [|?? Ha _]. inversion_clear H2 as [|?? Hc Hl2].
      apply app_inj_len in E as [-> ->]; [|congruence]. apply NoDup_cons in N2 as [Hn _].
      destruct Hn. apply list_elem_of_here.
  - inversion_clear H1 as [|?? Ha H1']. inversion_clear H1' as [|?? Hb H1''].
    destruct l2 as [|c [|d l2]]; cbn in E; [done|..]; injection E as E E'.
    + inversion_clear H2 as [|?? Hc _]. apply app_inj_len in E as [-> ->]; [|congruence].
      apply NoDup_cons in N1 as [Hn _]. destruct Hn. apply list_elem_of_here.
    + inversion_clear H2 as [|?? Hc H2']. inversion_clear H2' as [|?? Hd H2''].
      apply app_inj_len in E as [-> ->]; [|congruence].
      apply NoDup_cons in N1 as [_ N1], N2 as [_ N2]. apply NoDup_cons in N1 as [_ N1], N2 as [_ N2].
      by rewrite (IH l2).
Qed.

Lemma merkle_round_NoDup l :
  hashes_ok l → NoDup l → no_collision sha256 (pair_msgs l) → NoDup (merkle_round l).
Proof.
  intros Hl Hnd Hc. rewrite merkle_round_msgs. pose proof (pair_msgs_NoDup l Hl Hnd) as Hm.
  apply NoDup_fmap_2_strong; [|done]. intros x y Hx Hy. by apply Hc.
Qed.

Lemma merkle_round_inj l1 l2 :
  hashes_ok l1 → hashes_ok l2 → NoDup l1 → NoDup l2 →
  no_collision sha256 (pair_msgs l1 ++ pair_msgs l2) → merkle_round l1 = merkle_round l2 → l1 = l2.
Proof.
  intros H1 H2 N1 N2 Hc E. apply pair_msgs_inj; [done..|]. rewrite !merkle_round_msgs in E.
  revert Hc E. generalize (pair_msgs l1) as k1, (pair_msgs l2) as k2. clear.
  induction k1 as [|x k1 IH]; intros [|y k2] Hc E; cbn in E; [done..|].
  injection E as Exy E. f_equal.
  - apply Hc; [| |done]; apply elem_of_app; [left|right]; apply list_elem_of_here.
  - apply IH; [|done]. eapply no_collision_sub, Hc. intros z [Hz|Hz]%elem_of_app; apply elem_of_app.
    + left. by apply elem_of_cons; right.
    + right. by apply elem_of_cons; right.
Qed.

(** ** Levels of the tree *)

Lemma level_S k l : level (S k) l = level k (merkle_round l).
Proof. by rewrite Nat.iter_succ_r. Qed.
Definition grows (k : nat) (l : list Hash256) : Prop := ∀ j, (j < k)%nat → (1 < length (level j l))%nat.

(** The messages hashed on the way to the root. *)
Fixpoint merkle_msgs (fuel : nat) (l : list Hash256) : list bytes :=
  match fuel with
  | O => []
  | S fuel => if (1 <? length l)%nat then pair_msgs l ++ merkle_msgs fuel (merkle_round l) else []
  end.

Lemma grows_S k l : grows (S k) l ↔ (1 < length l)%nat ∧ grows k (merkle_round l).
Proof.
  split.
  - intros Hg. split; [by apply (Hg 0%nat); lia|]. intros j Hj. rewrite <-level_S. apply Hg. lia.
  - intros [Hl Hg] [|j] Hj; [done|]. rewrite level_S. apply Hg. lia.
Qed.

(** Enough fuel reaches the root, some number of rounds away. *)
Lemma merkle_loop_root n l :
  l ≠ [] → (length l ≤ n)%nat → ∃ k r, merkle_loop n l = [r] ∧ level k l = [r] ∧ grows k l.
Proof.
  revert l. induction n as [|n IH]; intros l Hne Hl; [by destruct l; cbn in *; [|lia]|].
  cbn [merkle_loop]. destruct (Nat.ltb_spec 1 (length l)) as [Hlt|Hge].
  - destruct (merkle_round_length l Hlt) as [Hr Hrn].
    destruct (IH (merkle_round l) Hrn ltac:(lia)) as (k & r & E1 & E2 & E3).
    exists (S k), r. rewrite level_S. split_and!; [done|done|by apply grows_S].
  - destruct l as [|r [|? ?]]; cbn in *; [done| |lia]. exists 0%nat, r. split_and!; [done|done|]. intros j Hj. lia.
Qed.

Lemma level_facts n k l D :
  (length l ≤ n)%nat → hashes_ok l → NoDup l → grows k l →
  (∀ m, m ∈ merkle_msgs n l → m ∈ D) → no_collision sha256 D →
  hashes_ok (level k l) ∧ NoDup (level k l) ∧
  ((1 < length (level k l))%nat → ∀ m, m ∈ pair_msgs (level k l) → m ∈ D).
Proof.
  revert n l. induction k as [|k IH]; intros n l Hn Hl Hnd Hg HD Hc.
  - split_and!; [done|done|]. intros Hlt m Hm. apply HD. destruct n as [|n]; [cbn in Hlt; lia|].
    cbn [merkle_msgs]. destruct (Nat.ltb_spec 1 (length l)); [|cbn in Hlt; lia]. apply elem_of_app. by left.
  - apply grows_S in Hg as [Hlt Hg]. rewrite level_S. destruct n as [|n]; [lia|].
    cbn [merkle_msgs] in HD. destruct (Nat.ltb_spec 1 (length l)); [|lia].
    destruct (merkle_round_length l Hlt) as [Hr _].
    apply (IH n); [lia|apply merkle_round_ok| |done| |done].
    + apply merkle_round_NoDup; [done|done|]. eapply no_collision_sub, Hc. intros x Hx. apply HD, elem_of_app. by left.
    + intros m Hm. apply HD, elem_of_app. by right.
Qed.

(** A list whose round is a level above [l] is the level below it. *)
Lemma level_up k l n l' D :
  grows (S k) l → (length l ≤ n)%nat → hashes_ok l → NoDup l → (∀ m, m ∈ merkle_msgs n l → m ∈ D) →
  no_collision sha256 D → hashes_ok l' → NoDup l' → (∀ m, m ∈ pair_msgs l' → m ∈ D) →
  merkle_round l' = level (S k) l → l' = level k l.
Proof.
  intros Hg Hn Hok Hnd HDl Hc Hok' Hnd' HD' Er.
  destruct (level_facts n k l D Hn Hok Hnd ltac:(intros j ?; apply Hg; lia) HDl Hc) as (F1 & F2 & F3).
  apply merkle_round_inj; [done..| |done]. eapply no_collision_sub, Hc.
  intros x [Hx|Hx]%elem_of_app; [auto|]. apply F3; [apply Hg; lia|done].
Qed.

(** Two trees with one root: the leaves of one are a level of the other. *)
Lemma merkle_same_root n1 n2 l1 l2 D :
  l1 ≠ [] → l2 ≠ [] → (length l1 ≤ n1)%nat → (length l2 ≤ n2)%nat →
  hashes_ok l1 → hashes_ok l2 → NoDup l1 → NoDup l2 →
  (∀ m, m ∈ merkle_msgs n1 l1 ++ merkle_msgs n2 l2 → m ∈ D) → no_collision sha256 D →
  merkle_loop n1 l1 = merkle_loop n2 l2 →
  ∃ k, (l1 = level k l2 ∧ grows k l2) ∨ (l2 = level k l1 ∧ grows k l1).
Proof.
  revert n2 l1 l2. induction n1 as [|n1 IH]; intros n2 l1 l2 N1 N2 L1 L2 O1 O2 D1 D2 HD Hc E.
  { destruct l1; cbn in *; [done|lia]. }
  destruct (decide (1 < length l1)%nat) as [Hl1|Hl1].
  2: { destruct (merkle_loop_root n2 l2 N2 L2) as (k & r & E1 & E2 & E3). exists k. left. split; [|done].
       rewrite E2, <-E1, <-E. cbn [merkle_loop]. destruct (Nat.ltb_spec 1 (length l1)); [lia|done]. }
  destruct (decide (1 < length l2)%nat) as [Hl2|Hl2].
  2: { destruct (merkle_loop_root (S n1) l1 N1 L1) as (k & r & E1 & E2 & E3). exists k. right. split; [|done].
       rewrite E2, <-E1, E. destruct n2; [destruct l2; cbn in *; [done|lia]|]. cbn [merkle_loop].
       destruct (Nat.ltb_spec 1 (length l2)); [lia|done]. }
  destruct n2 as [|n2]; [lia|]. cbn [merkle_loop merkle_msgs] in *.
  destruct (Nat.ltb_spec 1 (length l1)); [|lia]. destruct (Nat.ltb_spec 1 (length l2)); [|lia].
  destruct (merkle_round_length l1 Hl1) as [R1 Q1], (merkle_round_length l2 Hl2) as [R2 Q2].
  assert (∀ m, m ∈ pair_msgs l1 → m ∈ D) as HD1 by (intros m Hm; apply HD; rewrite !elem_of_app; auto).
  assert (∀ m, m ∈ pair_msgs l2 → m ∈ D) as HD2 by (intros m Hm; apply HD; rewrite !elem_of_app; auto).
  assert (NoDup (merkle_round l1)) as M1 by (apply merkle_round_NoDup; [done..|]; by eapply no_collision_sub).
  assert (NoDup (merkle_round l2)) as M2 by (apply merkle_round_NoDup; [done..|]; by eapply no_collision_sub).
  assert (∀ m, m ∈ merkle_msgs n1 (merkle_round l1) → m ∈ D) as HE1 by (intros m Hm; apply HD; rewrite !elem_of_app; auto).
  assert (∀ m, m ∈ merkle_msgs n2 (merkle_round l2) → m ∈ D) as HE2 by (intros m Hm; apply HD; rewrite !elem_of_app; auto).
  assert (∀ m, m ∈ merkle_msgs n1 (merkle_round l1) ++ merkle_msgs n2 (merkle_round l2) → m ∈ D) as HE
    by (intros m [?|?]%elem_of_app; auto).
  destruct (IH n2 (merkle_round l1) (merkle_round l2)) as (k & [[Ek Hg]|[Ek Hg]]);
    [done|done|lia|lia|apply merkle_round_ok|apply merkle_round_ok|done|done|done|done|done|..].
  - exists k. left. assert (grows (S k) l2) as HgS by (by apply grows_S).
    split; [|intros j ?; apply HgS; lia]. rewrite <-level_S in Ek.
    apply (level_up k l2 (S n2) _ D HgS ltac:(lia) O2 D2); [|first [exact Hc|exact O1|exact D1|exact HD1|exact Ek]..].
    cbn [merkle_msgs]. destruct (Nat.ltb_spec 1 (length l2)); [|lia]. intros m [?|?]%elem_of_app; auto.
  - exists k. right. assert (grows (S k) l1) as HgS by (by apply grows_S).
    split; [|intros j ?; apply HgS; lia]. rewrite <-level_S in Ek.
    apply (level_up k l1 (S n1) _ D HgS ltac:(lia) O1 D1); [|first [exact Hc|exact O2|exact D2|exact HD2|exact Ek]..].
    cbn [merkle_msgs]. destruct (Nat.ltb_spec 1 (length l1)); [|lia]. intros m [?|?]%elem_of_app; auto.
Qed.
End merkle.

(** ** The root binds the transactions *)

Section binding.
Context `{Externals} `{!ExternalsLaws}.

(** What the txid of a transaction hashes. *)
Definition txid_msg (tx : Transaction) : bytes := tx_json (set_encrypted_memo None tx).
(** Every message hashed to compute the Merkle root of [txs]. *)
Definition root_msgs (txs : list Transaction) : list bytes :=
  (txid_msg <$> txs) ++ merkle_msgs (length txs) (txid <$> txs).

Lemma txids_ok (txs : list Transaction) : hashes_ok (txid <$> txs).
Proof. apply Forall_fmap, Forall_forall. intros tx _. apply sha256_length. Qed.

Lemma root_loop (txs : list Transaction) : txs ≠ [] →
  merkle_loop (length txs) (txid <$> txs) = [calculate_merkle_root txs].
Proof.
  intros Hne. destruct (merkle_loop_root (length txs) (txid <$> txs)) as (k & r & E & _).
  - by intros ?%fmap_nil_inv.
  - by rewrite length_fmap.
  - unfold calculate_merkle_root, build_merkle_root. destruct txs as [|tx txs]; [done|].
    rewrite length_fmap. cbn [fmap list_fmap] in *. by rewrite E.
Qed.

(** A leaf is not an inner node when no transaction serializes to 64 bytes. *)
Lemma leaf_not_inner k (txs : list Transaction) l D :
  txs ≠ [] → (∀ tx, tx ∈ txs → length (txid_msg tx) ≠ 64%nat ∧ txid_msg tx ∈ D) →
  hashes_ok l → NoDup l → (∀ m, m ∈ merkle_msgs (length l) l → m ∈ D) → no_collision sha256 D →
  txid <$> txs = level k l → grows k l → k = 0%nat.
Proof.
  intros Hne Htx Hl Hnd HD Hc E Hg. destruct k as [|k]; [done|exfalso].
  destruct (level_facts (length l) k l D ltac:(lia) Hl Hnd ltac:(intros j ?; apply Hg; lia) HD Hc) as (F1 & _ & F3).
  destruct txs as [|tx txs]; [done|]. change (level (S k) l) with (merkle_round (level k l)) in E.
  rewrite merkle_round_msgs in E. destruct (pair_msgs (level k l)) as [|m ms] eqn:Em; [done|].
  injection E as E _. destruct (Htx tx (list_elem_of_here _ _)) as [H64 Hin].
  apply H64. assert (txid_msg tx = m) as ->.
  { apply Hc; [done| |done]. apply F3; [apply Hg; lia|]. apply list_elem_of_here. }
  destruct (level k l) as [|a [|b l']]; cbn in Em; [done|..]; injection Em as <- _;
    inversion_clear F1 as [|?? Ha F]; rewrite length_app; [lia|]. inversion_clear F. lia.
Qed.

Lemma txids_msgs D l1 l2 :
  no_collision sha256 D → (∀ tx, tx ∈ l1 ++ l2 → txid_msg tx ∈ D) → txid <$> l1 = txid <$> l2 →
  txid_msg <$> l1 = txid_msg <$> l2.
Proof.
  intros Hc. revert l2. induction l1 as [|x l1 IH]; intros [|y l2] HD E; cbn in E; [done..|].
  injection E as Exy E. cbn. f_equal.
  - apply Hc; [apply HD, list_elem_of_here| |done]. apply HD, elem_of_app. right. apply list_elem_of_here.
  - apply IH; [|done]. intros tx Htx. apply HD. apply elem_of_app in Htx as [?|?]; apply elem_of_app;
      [left|right]; by apply elem_of_cons; right.
Qed.

Lemma merkle_binds txs1 txs2 :
  txs1 ≠ [] → txs2 ≠ [] → NoDup (txid <$> txs1) → NoDup (txid <$> txs2) →
  (∀ tx, tx ∈ txs1 ++ txs2 → length (txid_msg tx) ≠ 64%nat) →
  no_collision sha256 (root_msgs txs1 ++ root_msgs txs2) →
  calculate_merkle_root txs1 = calculate_merkle_root txs2 →
  txid_msg <$> txs1 = txid_msg <$> txs2.
Proof.
  intros N1 N2 D1 D2 H64 Hc E. set (D := root_msgs txs1 ++ root_msgs txs2) in *.
  assert (∀ m, m ∈ merkle_msgs (length txs1) (txid <$> txs1) ++ merkle_msgs (length txs2) (txid <$> txs2) → m ∈ D) as HD.
  { intros m. unfold D, root_msgs. rewrite !elem_of_app. tauto. }
  assert (∀ tx, tx ∈ txs1 ++ txs2 → length (txid_msg tx) ≠ 64%nat ∧ txid_msg tx ∈ D) as Hl.
  { intros tx Htx. split; [auto|]. unfold D, root_msgs. rewrite !elem_of_app.
    apply elem_of_app in Htx as [?|?]; [left|right]; left; by apply list_elem_of_fmap_2. }
  assert (txid <$> txs1 = txid <$> txs2) as Eids.
  { destruct (merkle_same_root (length txs1) (length txs2) (txid <$> txs1) (txid <$> txs2) D)
      as (k & [[Ek Hg]|[Ek Hg]]); try (by rewrite ?length_fmap); try apply txids_ok; try done.
    - by intros ?%fmap_nil_inv.
    - by intros ?%fmap_nil_inv.
    - by rewrite !root_loop, E.
    - assert (k = 0%nat) as ->; [|done]. eapply (leaf_not_inner k txs1 (txid <$> txs2) D); eauto using txids_ok.
      + intros tx Htx. apply Hl, elem_of_app. by left.
      + intros m Hm. apply HD, elem_of_app. right. by rewrite length_fmap in Hm.
    - assert (k = 0%nat) as ->; [|done]. eapply (leaf_not_inner k txs2 (txid <$> txs1) D); eauto using txids_ok.
      + intros tx Htx. apply Hl, elem_of_app. by right.
      + intros m Hm. apply HD, elem_of_app. left. by rewrite length_fmap in Hm. }
  apply (txids_msgs D); [done|intros tx Htx; by apply Hl|done].
Qed.

(** The Merkle root binds the transactions: two non-empty lists of distinct transactions
    with the same root hash the same messages in the same order, unless two hashed messages
    collide or some transaction encodes to 64 bytes like an inner node. *)
Theorem merkle_root_binds txs1 txs2 :
  txs1 ≠ [] → txs2 ≠ [] → NoDup (txid <$> txs1) → NoDup (txid <$> txs2) →
  (∀ tx, tx ∈ txs1 ++ txs2 → length (txid_msg tx) ≠ 64%nat) →
  no_collision sha256 (root_msgs txs1 ++ root_msgs txs2) →
  calculate_merkle_root txs1 = calculate_merkle_root txs2 →
  txid_msg <$> txs1 = txid_msg <$> txs2.
Proof. exact (merkle_binds txs1 txs2). Qed.
End binding.

(** ** The tip binds the chain *)

Section chain.
Context `{Externals} `{BlockExternals}.
Implicit Types b : Block.

Lemma check_duplicates_ok h txs seen :
  check_duplicates h txs seen = Ok tt ↔ NoDup (txid <$> txs) ∧ ∀ tx, tx ∈ txs → txid tx ∉ seen.
Proof.
  revert seen. induction txs as [|tx txs IH]; intros seen; cbn [check_duplicates fmap list_fmap].
  { split; [|done]. intros _. split; [constructor|by intros tx ?%elem_of_nil]. }
  rewrite NoDup_cons. case_bool_decide as Hs.
  { split; [done|]. intros [_ Hn]. by destruct (Hn tx (list_elem_of_here _ _)). }
  rewrite IH, list_elem_of_fmap. set_solver.
Qed.

(** What a valid block is, for the validator of sequences. *)
Record valid_block (net : NetworkType) (now : Z) b : Prop := mkValidBlock {
  vb_root : calculate_merkle_root (transactions b) = merkle_root (header b);
  vb_future : bh_timestamp (header b) ≤ now + 5;
  vb_genesis : 0 < bh_height (header b) → genesis_timestamp net ≤ bh_timestamp (header b);
  vb_distinct : NoDup (txid <$> transactions b);
  vb_size : ∃ s, block_bincode b = Some s ∧ Z.of_nat (length s) ≤ 4000000;
  vb_bitmap : 0 < bh_height (header b) → active_masternodes_bitmap (header b) ≠ [];
}.

Lemma validate_timestamp_ok net now b :
  validate_timestamp net now b = Ok tt ↔ bh_timestamp (header b) ≤ now + 5 ∧
    (0 < bh_height (header b) → genesis_timestamp net ≤ bh_timestamp (header b)).
Proof.
  unfold validate_timestamp, TIMESTAMP_TOLERANCE_SECS.
  rewrite !fail_ok_iff, andb_false_iff, !Z.ltb_ge. split; [lia|]. intros. split; [lia|]. split; [lia|done].
Qed.
Lemma validate_size_ok b :
  validate_block_size b = Ok tt ↔ ∃ s, block_bincode b = Some s ∧ Z.of_nat (length s) ≤ 4000000.
Proof.
  unfold validate_block_size, MAX_BLOCK_SIZE. destruct (block_bincode b) as [s|]; cbn; [|naive_solver].
  rewrite fail_ok_iff, Z.ltb_ge. naive_solver.
Qed.

Lemma validator_ok net now b prev :
  validator_validate_block net now b (Some prev) = Ok tt ↔ previous_hash (header b) = prev ∧ valid_block net now b.
Proof.
  unfold validator_validate_block, check_previous, check_duplicate_transactions. cbv zeta.
  rewrite let_ok_iff, !fail_ok_iff, !let_ok_iff, fail_ok_iff, validate_timestamp_ok, check_duplicates_ok, validate_size_ok.
  rewrite !bool_decide_eq_false, andb_false_iff, Z.ltb_ge, bool_decide_eq_false. split.
  - intros ([Hp%dec_stable _] & Hr%dec_stable & [Ht1 Ht2] & [Hd _] & Hs & Hb). split; [done|].
    split; [done..|]. intros ?. destruct Hb as [[?|?] _]; [lia|done].
  - intros (-> & [Hr Ht1 Ht2 Hd Hs Hb]). split_and!; try done; try tauto.
    destruct (decide (0 < bh_height (header b))); [right; auto|left; lia].
Qed.

(** A sequence of linked blocks after [prev]. *)
Fixpoint linked (net : NetworkType) (now : Z) (prev : Block) (blocks : list Block) : Prop :=
  match blocks with
  | [] => True
  | b :: blocks =>
      bh_height (header b) = add64 (bh_height (header prev)) 1 ∧ previous_hash (header b) = hash prev ∧
      valid_block net now b ∧ bh_timestamp (header prev) ≤ bh_timestamp (header b) ∧ linked net now b blocks
  end.

Lemma sequence_from_ok net now prev blocks :
  sequence_from net now prev blocks = Ok tt ↔ linked net now prev blocks.
Proof.
  revert prev. induction blocks as [|b blocks IH]; intros prev; cbn [sequence_from linked]; [done|].
  cbv zeta. rewrite fail_ok_iff, let_ok_iff, fail_ok_iff, validator_ok, IH, negb_false_iff, Z.eqb_eq, Z.ltb_ge. tauto.
Qed.

(** The sequence validator accepts exactly the linked chains: every block is at the next
    height, names the hash of its predecessor, is not earlier than it, has the right Merkle
    root, a timestamp not in the future nor before genesis, distinct transactions, a bounded
    size and (above genesis) a bitmap. *)
Theorem chain_sequence_linked net now blocks :
  validate_chain_sequence net now blocks = Ok tt ↔
  match blocks with [] => True | b :: blocks => linked net now b blocks end.
Proof. destruct blocks as [|b blocks]; [done|]. apply sequence_from_ok. Qed.

Context `{!ExternalsLaws}.

(** Header fields of fixed width come before those of variable width. *)
Lemma preimage_prefix b1 b2 :
  length (previous_hash (header b1)) = 32%nat → length (previous_hash (header b2)) = 32%nat →
  length (merkle_root (header b1)) = 32%nat → length (merkle_root (header b2)) = 32%nat →
  hash_preimage b1 = hash_preimage b2 →
  previous_hash (header b1) = previous_hash (header b2) ∧ merkle_root (header b1) = merkle_root (header b2).
Proof.
  intros P1 P2 M1 M2 E. unfold hash_preimage in E.
  apply app_inj_len in E as [_ E]; [|by rewrite !length_le_bytes].
  apply app_inj_len in E as [_ E]; [|by rewrite !length_le_bytes].
  apply app_inj_len in E as [-> E]; [|congruence].
  by apply app_inj_len in E as [-> E]; [|congruence].
Qed.

(** What the argument needs of the blocks of a chain. *)
Definition block_typed b : Prop :=
  length (previous_hash (header b)) = 32%nat ∧ length (merkle_root (header b)) = 32%nat ∧
  transactions b ≠ [] ∧ ∀ tx, tx ∈ transactions b → length (txid_msg tx) ≠ 64%nat.
Definition same_transactions b1 b2 : Prop :=
  txid_msg <$> transactions b1 = txid_msg <$> transactions b2.
Definition chain_msgs (blocks : list Block) : list bytes := concat ((root_msgs ∘ transactions) <$> blocks).

Lemma chain_msgs_in b blocks m : b ∈ blocks → m ∈ root_msgs (transactions b) → m ∈ chain_msgs blocks.
Proof.
  intros Hb Hm. unfold chain_msgs. induction blocks as [|b' blocks IH]; [by apply elem_of_nil in Hb|].
  cbn [fmap list_fmap concat]. rewrite elem_of_app. apply elem_of_cons in Hb as [->|Hb]; [by left|right; auto].
Qed.

Lemma last_cons_default {A} (a d : A) l : List.last (a :: l) d = List.last l a.
Proof.
  revert a d. induction l as [|x l IH]; intros a d; [done|].
  change (List.last (x :: l) d = List.last (x :: l) a). by rewrite !IH.
Qed.

Lemma tip_binds net now p1 p2 l1 l2 (A : list Block) :
  length l1 = length l2 → linked net now p1 l1 → linked net now p2 l2 →
  (∀ b, b ∈ l1 ++ l2 → block_typed b ∧ b ∈ A) →
  no_collision blake3 (hash_preimage <$> A) → no_collision sha256 (chain_msgs A) →
  hash (List.last l1 p1) = hash (List.last l2 p2) →
  hash p1 = hash p2 ∧ Forall2 same_transactions l1 l2.
Proof.
  intros Hlen K1 K2 HA Hb Hs. revert p1 p2 l2 Hlen K1 K2 HA.
  induction l1 as [|b1 l1 IH]; intros p1 p2 [|b2 l2] Hlen K1 K2 HA E; [done..|].
  destruct K1 as (_ & Q1 & V1 & _ & K1), K2 as (_ & Q2 & V2 & _ & K2).
  assert (block_typed b1 ∧ b1 ∈ A) as [(P1 & M1 & N1 & J1) A1] by (apply HA, list_elem_of_here).
  assert (block_typed b2 ∧ b2 ∈ A) as [(P2 & M2 & N2 & J2) A2]
    by (apply HA, elem_of_app; right; apply list_elem_of_here).
  destruct (IH b1 b2 l2) as [Eh Hf]; [by injection Hlen|done|done| | |].
  { intros b Hin. apply HA. rewrite elem_of_app in *. destruct Hin; [left|right]; by apply elem_of_cons; right. }
  { by rewrite !last_cons_default in E. }
  assert (hash_preimage b1 = hash_preimage b2) as Ep.
  { apply Hb; [by apply list_elem_of_fmap_2..|exact Eh]. }
  apply preimage_prefix in Ep as [Eprev Eroot]; [|done..]. split; [congruence|]. constructor; [|done].
  destruct V1 as [R1 _ _ D1 _ _], V2 as [R2 _ _ D2 _ _]. apply merkle_binds; [done..| | |congruence].
  - intros tx [?|?]%elem_of_app; auto.
  - eapply no_collision_sub, Hs. intros m [Hm|Hm]%elem_of_app; eauto using chain_msgs_in.
Qed.

(** C9: The tip of a chain fixes its history: two chains of the same length accepted by the
    sequence validator whose last blocks have the same hash carry the same transactions
    block by block (up to memos) and start from a block with the same hash, when no two of
    the messages actually hashed collide, blocks are not empty and no transaction encodes to
    exactly 64 bytes. *)
Theorem tip_binds_history net now p1 p2 l1 l2 :
  validate_chain_sequence net now (p1 :: l1) = Ok tt → validate_chain_sequence net now (p2 :: l2) = Ok tt →
  length l1 = length l2 → Forall block_typed (l1 ++ l2) →
  no_collision blake3 (hash_preimage <$> l1 ++ l2) → no_collision sha256 (chain_msgs (l1 ++ l2)) →
  hash (List.last l1 p1) = hash (List.last l2 p2) →
  hash p1 = hash p2 ∧ Forall2 same_transactions l1 l2.
Proof.
  intros K1%sequence_from_ok K2%sequence_from_ok Hlen Ht Hb Hs E.
  apply (tip_binds net now p1 p2 l1 l2 (l1 ++ l2)); try assumption.
  intros b Hin. rewrite Forall_forall in Ht. auto.
Qed.
End chain.

(** ** Evaluation on concrete chains *)

Definition no_collision_b (digest : bytes → bytes) (D : list bytes) : bool :=
  forallb (λ x, forallb (λ y, negb (bool_decide (digest x = digest y)) || bool_decide (x = y)) D) D.
Lemma no_collision_check digest D : no_collision_b digest D = true → no_collision digest D.
Proof.
  unfold no_collision_b. rewrite forallb_forall. intros Hc x y Hx Hy E.
  apply list_elem_of_In in Hx, Hy. specialize (Hc x Hx). rewrite forallb_forall in Hc. specialize (Hc y Hy).
  rewrite bool_decide_eq_true_2 in Hc by done. by apply bool_decide_eq_true in Hc.
Qed.

Definition tagged_block_externals : BlockExternals := {|
  blake3 := tagged_digest;
  block_bincode b := Some (replicate (length (transactions b)) 0);
  verify_strict pk m s := bool_decide (take (length pk) s = pk);
|}.

Section samples.
#[local] Existing Instance tagged_externals.
#[local] Existing Instance tagged_externals_laws.
#[local] Existing Instance tagged_block_externals.

Definition sample_tx (t : Z) (memo : option bytes) : Transaction :=
  mkTransaction 2 [] [mkTxOutput 5 []] 0 t None memo.
Definition sample_txs (memo : option bytes) : list Transaction :=
  [sample_tx 1 memo; sample_tx 2 None; sample_tx 3 memo].
Definition sample_block (height : Z) (prev : Hash256) (txs : list Transaction) (who : string) (bitmap sig : bytes) : Block :=
  mkBlock (mkHeader 2 height prev (calculate_merkle_root txs) (1764547200 + 600 * height) 0 who [] (mkTierCounts 0 0 0 0)
             [] (replicate 32 97) (from_le (replicate 8 97)) bitmap None sig 0 0) txs [] [] [] None.
Definition sample_genesis : Block := sample_block 0 (replicate 32 0) (sample_txs None) "g" [] [].
Definition sample_next (memo : option bytes) (sig : bytes) : Block :=
  sample_block 1 (hash sample_genesis) (sample_txs memo) "n" [255] sig.

Lemma merkle_root_binds_witness :
  txid_msg <$> sample_txs None = txid_msg <$> sample_txs (Some [1; 2; 3]).
Proof.
  apply (merkle_root_binds (sample_txs None) (sample_txs (Some [1; 2; 3])));
    [done|done|by apply (bool_decide_unpack _); vm_compute|by apply (bool_decide_unpack _); vm_compute| |
     by apply no_collision_check; vm_compute|by vm_compute].
  apply Forall_forall, (bool_decide_unpack _). by vm_compute.
Defined.

Lemma tip_binds_history_witness :
  hash sample_genesis = hash sample_genesis
  ∧ Forall2 same_transactions [sample_next None []] [sample_next (Some [7]) [1]].
Proof.
  apply (tip_binds_history Testnet 1764549200); [vm_compute; reflexivity|vm_compute; reflexivity|reflexivity| | | |].
  - apply Forall_app; split; apply Forall_singleton; (split; [by vm_compute|]; split; [by vm_compute|]; split; [done|]);
      apply Forall_forall, (bool_decide_unpack _); by vm_compute.
  - apply no_collision_check. by vm_compute.
  - apply no_collision_check. by vm_compute.
  - by vm_compute.
Defined.

(** The leader and the bitmap are hashed without their lengths: bytes can move from one to
    the other, through the fields between them, under the same hash. *)
Theorem block_hash_ambiguous : ∃ b1 b2,
  hash b1 = hash b2 ∧ leader (header b1) ≠ leader (header b2)
  ∧ active_masternodes_bitmap (header b1) ≠ active_masternodes_bitmap (header b2)
  ∧ transactions b1 = transactions b2.
Proof.
  exists (sample_block 1 (hash sample_genesis) (sample_txs None) "aa" [97; 97] []),
         (sample_block 1 (hash sample_genesis) (sample_txs None) "a" [97; 97; 97] []).
  split; [by vm_compute|]. split; [done|]. split; [done|reflexivity].
Qed.
End samples.
