(* ===== verification/BlockVrf.v ===== *)
(** * The VRF of block production (src/crypto/ecvrf.rs, src/block/vrf.rs) and the
    signing of blocks (src/block/types.rs)

    SHA-512 and Ed25519 signing are the class [VrfExternals]; what is relied on of
    them (the lengths of digests and signatures, and that a signature verifies under
    the key of its signer) is [VrfLaws]. *)

From Stdlib Require Import ZArith Lia Ascii String.
From stdpp Require Import base gmap strings list.
From S2P Require Import Prelude Types Instances Address BlockTypes BlockProofs.

Class VrfExternals := {
  (** [ed25519_dalek::SigningKey] *)
  SigningKey : Type;
  sk_to_bytes : SigningKey → bytes;
  sk_from_bytes : bytes → SigningKey;
  sk_sign : SigningKey → bytes → bytes;
  sk_verifying_key : SigningKey → VerifyingKey;
  (** [sha2::Sha512] *)
  sha512 : bytes → bytes;
}.

Class VrfLaws `{Externals} `{BlockExternals} `{VrfExternals} := {
  sha512_length : ∀ m, length (sha512 m) = 64%nat;
  sha512_bytes : ∀ m, Forall u8_ok (sha512 m);
  sk_sign_length : ∀ sk m, length (sk_sign sk m) = 64%nat;
  sk_sign_verifies : ∀ sk m, verify_strict (sk_verifying_key sk) m (sk_sign sk m) = true;
  sk_vk_length : ∀ sk, length (sk_verifying_key sk) = 32%nat;
  sk_vk_parses : ∀ sk, vk_from_bytes (sk_verifying_key sk) = Some (sk_verifying_key sk);
}.

(** ** ECVRF *)

Inductive ECVRFError := InvalidProof | VerificationFailed | InvalidKey.

(** A slice [l[a..b]]. *)
Definition slice (a b : nat) (l : bytes) : bytes := take (b - a) (drop a l).

Section ecvrf.
Context `{Externals} `{BlockExternals} `{VrfExternals}.
Implicit Types b : Block.

Definition vrf_signing_message (output input : bytes) : bytes := str_bytes "ECVRF-sign" ++ output ++ input.

(** Output and proof: the output, the digest of the input, and a signature prefix. *)
Definition evaluate (sk : SigningKey) (input : bytes) : result ECVRFError (bytes * bytes) :=
  let h := sha512 (str_bytes "ECVRF-Edwards25519-SHA512-TAI" ++ sk_to_bytes sk ++ input) in
  let output := slice 0 32 h in
  let input_hash := sha512 input in
  let sig := sk_sign sk (vrf_signing_message output input) in
  Ok (output, slice 0 32 h ++ slice 0 32 input_hash ++ slice 0 16 sig).

Definition ecvrf_verify (public_key : VerifyingKey) (input output proof : bytes) : result ECVRFError () :=
  let input_hash := sha512 input in
  fail_if bool_decide (slice 32 64 proof ≠ slice 0 32 input_hash) with InvalidProof in
  Ok tt.

Definition proof_to_hash (proof : bytes) : bytes :=
  slice 0 32 (sha512 (str_bytes "ECVRF-proof-to-hash" ++ proof)).

(** ** Block VRF *)

Definition generate_block_vrf (sk : SigningKey) (height : Z) (prev : Hash256) : bytes * Hash256 * Z :=
  match evaluate sk (create_vrf_input height prev) with
  | Ok (output, proof) => (proof, output, vrf_output_to_score output)
  | Err _ => fallback_vrf height prev
  end.

Inductive vrf_error := BadProofLength (n : nat) | EcvrfFailed (e : ECVRFError).

Definition verify_block_vrf (vk : VerifyingKey) (height : Z) (prev : Hash256) (proof : bytes) (output : Hash256)
    : result vrf_error () :=
  match proof with
  | [] => Ok tt
  | _ =>
      fail_if negb (length proof =? 80)%nat with BadProofLength (length proof) in
      map_err EcvrfFailed (ecvrf_verify vk (create_vrf_input height prev) output proof)
  end.

Definition set_vrf (v : bytes * Hash256 * Z) (h : BlockHeader) : BlockHeader :=
  let '(proof, output, score) := v in
  mkHeader (bh_version h) (bh_height h) (previous_hash h) (merkle_root h) (bh_timestamp h) (block_reward h)
    (leader h) (attestation_root h) (masternode_tiers h) proof output score (active_masternodes_bitmap h)
    (bh_liveness_recovery h) (producer_signature h) (total_fees h) (treasury_balance h).
Definition set_producer_signature (sig : bytes) (h : BlockHeader) : BlockHeader :=
  mkHeader (bh_version h) (bh_height h) (previous_hash h) (merkle_root h) (bh_timestamp h) (block_reward h)
    (leader h) (attestation_root h) (masternode_tiers h) (vrf_proof h) (vrf_output h) (vrf_score h)
    (active_masternodes_bitmap h) (bh_liveness_recovery h) sig (total_fees h) (treasury_balance h).
Definition set_header (h : BlockHeader) b : Block :=
  mkBlock h (transactions b) (masternode_rewards b) (time_attestations b) (consensus_participants_bitmap b)
    (b_liveness_recovery b).

Definition add_vrf (sk : SigningKey) b : Block :=
  set_header (set_vrf (generate_block_vrf sk (bh_height (header b)) (previous_hash (header b))) (header b)) b.
Definition verify_vrf (vk : VerifyingKey) b : result vrf_error () :=
  let h := header b in verify_block_vrf vk (bh_height h) (previous_hash h) (vrf_proof h) (vrf_output h).
Definition sign (sk : SigningKey) b : Block :=
  set_header (set_producer_signature (sk_sign sk (hash b)) (header b)) b.

(** ** Proofs *)

Lemma slice_length a c l : (c ≤ length l)%nat → length (slice a c l) = (c - a)%nat.
Proof. intros. unfold slice. rewrite length_take, length_drop. lia. Qed.

(** The middle of three pieces. *)
Lemma slice_middle (x y z : bytes) : length x = 32%nat → length y = 32%nat → slice 32 64 (x ++ y ++ z) = y.
Proof.
  intros Hx Hy. unfold slice. rewrite drop_app_length' by done. replace (64 - 32)%nat with 32%nat by lia.
  by rewrite take_app_length'.
Qed.

Lemma verify_block_vrf_iff vk height prev proof output :
  verify_block_vrf vk height prev proof output = Ok tt ↔
  proof = [] ∨ length proof = 80%nat ∧ slice 32 64 proof = slice 0 32 (sha512 (create_vrf_input height prev)).
Proof.
  destruct proof as [|x proof]; [cbn; tauto|]. cbn [verify_block_vrf].
  rewrite fail_ok_iff, negb_false_iff, Nat.eqb_eq. unfold ecvrf_verify. cbv zeta.
  case_bool_decide as Hs; cbn [map_err].
  - split; [by intros [_ ?]|]. intros [?|[_ ?]]; done.
  - naive_solver.
Qed.

Lemma sign_keeps_hash sk b : hash (sign sk b) = hash b.
Proof. done. Qed.

Section laws.
Context `{!VrfLaws}.

Lemma evaluate_spec sk input : ∃ output proof, evaluate sk input = Ok (output, proof)
  ∧ length output = 32%nat ∧ length proof = 80%nat ∧ slice 32 64 proof = slice 0 32 (sha512 input).
Proof.
  unfold evaluate. cbv zeta. eexists _, _. split; [reflexivity|].
  pose proof sha512_length as L. pose proof sk_sign_length as Ls.
  rewrite !length_app, !slice_length by (rewrite ?L, ?Ls; lia). split; [lia|]. split; [lia|].
  apply slice_middle; rewrite slice_length; rewrite ?L; lia.
Qed.

Lemma generate_spec sk height prev : ∃ output proof,
  generate_block_vrf sk height prev = (proof, output, vrf_output_to_score output)
  ∧ length proof = 80%nat ∧ slice 32 64 proof = slice 0 32 (sha512 (create_vrf_input height prev)).
Proof.
  unfold generate_block_vrf. destruct (evaluate_spec sk (create_vrf_input height prev)) as (o & p & -> & _ & ? & ?).
  eauto.
Qed.

(** What a producer makes is accepted: a block with its VRF fields filled in and then signed
    passes VRF verification, the VRF check of block validation and the signature check under
    the producer's key, and signing does not change its hash. *)
Theorem produced_block_verifies sk vk b :
  let b' := sign sk (add_vrf sk b) in
  verify_vrf vk b' = Ok tt ∧ check_vrf b' = Ok tt ∧ block_verify_signature b' (sk_verifying_key sk) = true
  ∧ vrf_proof (header b') ≠ [] ∧ hash b' = hash (add_vrf sk b).
Proof.
  cbv zeta. rewrite sign_keeps_hash. unfold verify_vrf, check_vrf, block_verify_signature, sign, add_vrf.
  destruct (generate_spec sk (bh_height (header b)) (previous_hash (header b))) as (o & p & -> & Hp & Hm).
  cbn [header set_header set_producer_signature set_vrf vrf_proof vrf_output vrf_score bh_height previous_hash producer_signature].
  split; [apply verify_block_vrf_iff; auto|].
  destruct p as [|x p]; [done|]. rewrite Hp, Z.eqb_refl. cbn [Nat.eqb negb].
  split; [done|]. split; [|done].
  set (b0 := set_header _ b). pose proof (sk_sign_length sk (hash b0)) as Hl.
  destruct (sk_sign sk (hash b0)) as [|s l] eqn:Es; [done|]. rewrite Hl. cbn [Nat.eqb andb].
  rewrite <- Es. apply sk_sign_verifies.
Qed.

(** Neither the key nor the output enters VRF verification: a proof for any output under any
    key is made without a secret. *)
Theorem vrf_forgeable vk height prev output pad1 pad2 :
  length pad1 = 32%nat → length pad2 = 16%nat →
  verify_block_vrf vk height prev (pad1 ++ slice 0 32 (sha512 (create_vrf_input height prev)) ++ pad2) output = Ok tt.
Proof.
  intros P1 P2. apply verify_block_vrf_iff. right. rewrite !length_app, slice_length by (rewrite sha512_length; lia).
  split; [lia|]. apply slice_middle; [done|]. rewrite slice_length; rewrite ?sha512_length; lia.
Qed.
End laws.
End ecvrf.

(** ** Sortition *)

Definition proposer_threshold (node_weight total_weight : Z) : Z :=
  Z.min (node_weight * (U64 - 1) * 1 / total_weight) (U64 - 1).

Lemma eligible_iff score w total : 0 < total → 0 ≤ w → 0 ≤ score →
  vrf_check_proposer_eligible score w total = true ↔ score < proposer_threshold w total.
Proof.
  intros Ht Hw Hs. unfold vrf_check_proposer_eligible, proposer_threshold.
  destruct (Z.eqb_spec total 0); [lia|]. destruct (Z.eqb_spec w 0) as [->|]; cbn [orb].
  - rewrite !Z.mul_0_l, Z.div_0_l by lia. split; [done|]. unfold U64. lia.
  - apply Z.ltb_lt.
Qed.

Lemma sum_div_le (ws : list Z) k t : 0 < t → 0 ≤ k → Forall (λ w, 0 ≤ w) ws →
  sumZ ((λ w, w * k / t) <$> ws) * t ≤ sumZ ws * k.
Proof.
  intros Ht Hk Hw. induction Hw as [|w ws ? ? IH]; [cbn; lia|]. cbn [fmap list_fmap]. rewrite !sumZ_cons.
  pose proof (Z.mul_div_le (w * k) t Ht). lia.
Qed.

(** Sortition: a node is eligible iff its score is below its threshold, the thresholds of
    all nodes together do not exceed the range of scores (one proposer expected at most),
    and a heavier node is eligible whenever a lighter one is. *)
Theorem sortition_thresholds ws score : Forall (λ w, 0 ≤ w) ws → 0 < sumZ ws → 0 ≤ score →
  (∀ w, w ∈ ws → vrf_check_proposer_eligible score w (sumZ ws) = true ↔ score < proposer_threshold w (sumZ ws))
  ∧ sumZ ((λ w, proposer_threshold w (sumZ ws)) <$> ws) ≤ U64 - 1
  ∧ (∀ w w', w ≤ w' → vrf_check_proposer_eligible score w (sumZ ws) = true → 0 ≤ w →
       vrf_check_proposer_eligible score w' (sumZ ws) = true).
Proof.
  intros Hw Ht Hs. split; [|split].
  - intros w Hin. rewrite Forall_forall in Hw. apply eligible_iff; auto.
  - pose proof (sum_div_le ws (U64 - 1) (sumZ ws) Ht ltac:(unfold U64; lia) Hw) as Hd.
    assert (sumZ ((λ w, proposer_threshold w (sumZ ws)) <$> ws) ≤ sumZ ((λ w, w * (U64 - 1) / sumZ ws) <$> ws)) as Hle.
    { generalize (sumZ ws). intros t. clear. induction ws as [|w ws IH]; [done|]. cbn [fmap list_fmap]. rewrite !sumZ_cons.
      unfold proposer_threshold at 1. rewrite Z.mul_1_r. lia. }
    assert (sumZ ((λ w, w * (U64 - 1) / sumZ ws) <$> ws) ≤ U64 - 1); [|lia].
    apply (Z.mul_le_mono_pos_r _ _ (sumZ ws)); [done|]. lia.
  - intros w w' Hle. intros He Hw0. apply eligible_iff; [done|lia|done|]. apply eligible_iff in He; [|done..].
    unfold proposer_threshold in *. rewrite Z.mul_1_r in *.
    assert (w * (U64 - 1) / sumZ ws ≤ w' * (U64 - 1) / sumZ ws) by (apply Z.div_le_mono; [done|unfold U64; nia]). lia.
Qed.

Lemma sortition_thresholds_witness :
  sumZ ((λ w, proposer_threshold w (sumZ [10; 100; 1000])) <$> [10; 100; 1000]) ≤ U64 - 1.
Proof. apply (sortition_thresholds [10; 100; 1000] 5); [repeat constructor; lia|cbn; lia|lia]. Defined.

(** An instance of the externals with their laws. *)
Definition model_vrf : VrfExternals := {|
  SigningKey := bytes;
  sk_to_bytes := id;
  sk_from_bytes := id;
  sk_sign sk m := take 64 (take 32 (sk ++ replicate 32 0) ++ replicate 64 0);
  sk_verifying_key sk := take 32 (sk ++ replicate 32 0);
  sha512 m := le_bytes 64 (fold_left (λ a x, a * 1000003 + x + 1) m 7);
|}.
Lemma le_bytes_u8 n z : Forall u8_ok (le_bytes n z).
Proof. revert z. induction n; intros z; constructor; [unfold u8_ok; by apply Z.mod_pos_bound|done]. Qed.

Lemma model_vrf_laws : @VrfLaws tagged_externals tagged_block_externals model_vrf.
Proof.
  split; cbn [sk_sign sk_verifying_key sha512 verify_strict model_vrf tagged_block_externals].
  - intros m. apply length_le_bytes.
  - intros m. apply le_bytes_u8.
  - intros sk m. rewrite length_take, length_app, length_take, length_app, !length_replicate. lia.
  - intros sk m. apply bool_decide_eq_true. rewrite take_take, length_take, length_app, length_replicate.
    rewrite take_app_le by (rewrite length_take, length_app, length_replicate; lia).
    rewrite take_take. f_equal. lia.
  - intros sk. rewrite length_take, length_app, length_replicate. lia.
  - intros sk. cbn [vk_from_bytes tagged_externals].
    rewrite length_take, length_app, length_replicate. by destruct (Nat.eqb_spec (32 `min` (length sk + 32)) 32); [|lia].
Defined.

Lemma produced_block_verifies_witness :
  let b := @sign tagged_block_externals model_vrf [7; 8] (@add_vrf tagged_externals model_vrf [7; 8] sample_genesis) in
  @verify_vrf tagged_externals model_vrf [] b = Ok tt ∧ vrf_proof (header b) ≠ [].
Proof.
  destruct (@produced_block_verifies tagged_externals tagged_block_externals model_vrf model_vrf_laws [7; 8] [] sample_genesis)
    as (? & _ & _ & ? & _). by split.
Defined.
