(* ===== verification/Genesis.v ===== *)
(** * Genesis blocks (src/block/genesis.rs)

    The two hard-coded genesis blocks, the split of a genesis reward over masternodes
    and the checks made of a genesis block. *)

From Stdlib Require Import ZArith Lia Ascii String.
From stdpp Require Import base gmap strings list.
From S2P Require Import Prelude Types Instances Address BlockTypes BlockProofs.

Record GenesisMasternode := mkGenesisMasternode { gm_address : string; gm_tier : MasternodeTier }.

Inductive genesis_error :=
| NotHeightZero | NonZeroPrevious | TimestampMismatch (expected got : Z)
| CheckpointMismatch (expected got : string) | RewardsMismatch (distributed total : Z).

Definition TESTNET_GENESIS_HASH : option string :=
  Some "b9523431d4e59a1b41d757a8c0f01ed023c11123761b1455e4644ef9d5599ff6".
Definition MAINNET_GENESIS_HASH : option string :=
  Some "45181d4c65a3a2bcc2215d037267bee4cc2248f21764466846d2b7218b601ce5".

Definition verify_rewards (b : Block) : result genesis_error () :=
  match masternode_rewards b with
  | [] => Ok tt
  | rewards =>
      let distributed := sum64 (snd <$> rewards) in
      fail_if negb (distributed =? block_reward (header b)) with RewardsMismatch distributed (block_reward (header b)) in
      Ok tt
  end.

Definition verify_structure (b : Block) : result genesis_error () :=
  fail_if negb (bh_height (header b) =? 0) with NotHeightZero in
  fail_if bool_decide (previous_hash (header b) ≠ replicate 32 0) with NonZeroPrevious in
  verify_rewards b.

(** The same two constants as [NetworkType::genesis_timestamp]. *)
Definition genesis_block_timestamp (n : NetworkType) : Z :=
  match n with Testnet => 1764547200 | Mainnet => 1776211200 end.
Definition verify_timestamp (b : Block) (n : NetworkType) : result genesis_error () :=
  let expected := genesis_block_timestamp n in
  fail_if negb (bh_timestamp (header b) =? expected) with TimestampMismatch expected (bh_timestamp (header b)) in
  Ok tt.

Definition genesis_block_reward (n : NetworkType) : Z :=
  match n with Testnet => 10000000000 | Mainnet => 10000000000 end.

(** The loop over the masternodes: the last one takes the remainder. *)
Fixpoint genesis_shares (total total_weight distributed : Z) (mns : list GenesisMasternode) : list (string * Z) :=
  match mns with
  | [] => []
  | mn :: mns =>
      let share := match mns with
                   | [] => sub64 total distributed
                   | _ => mul64 total (reward_weight (gm_tier mn)) / total_weight
                   end in
      (gm_address mn, share) :: genesis_shares total total_weight (add64 distributed share) mns
  end.
Definition calculate_rewards (total : Z) (mns : list GenesisMasternode) : list (string * Z) :=
  match mns with
  | [] => []
  | _ =>
      let total_weight := sum64 ((reward_weight ∘ gm_tier) <$> mns) in
      if total_weight =? 0 then [] else genesis_shares total total_weight 0 mns
  end.

Definition testnet_genesis : Block :=
  mkBlock (mkHeader 1 0 (replicate 32 0) (replicate 32 0) 1764547200 10000000000 "165.232.154.150" (replicate 32 0)
             (mkTierCounts 6 0 0 0) [] (replicate 32 0) 0 [252] (Some false) [] 0 500000000)
    []
    [("64.91.241.10"%string, 0); ("178.128.199.144"%string, 0); ("50.28.104.50"%string, 0);
     ("165.84.215.117"%string, 0); ("165.232.154.150"%string, 10000000000); ("69.167.168.176"%string, 0)]
    [] [] (Some false).
Definition mainnet_genesis : Block :=
  mkBlock (mkHeader 1 0 (replicate 32 0) (replicate 32 0) 1776211200 10000000000 "" (replicate 32 0)
             (mkTierCounts 0 0 0 0) [] (replicate 32 0) 0 [] (Some false) [] 0 10000000000)
    [] [] [] [] (Some false).

Section checkpoint.
Context `{Externals} `{BlockExternals}.

Definition verify_checkpoint (b : Block) (n : NetworkType) : result genesis_error () :=
  match (match n with Testnet => TESTNET_GENESIS_HASH | Mainnet => MAINNET_GENESIS_HASH end) with
  | None => Ok tt
  | Some expected =>
      let actual := hex_encode (hash b) in
      fail_if bool_decide (actual ≠ expected) with CheckpointMismatch expected actual in
      Ok tt
  end.

(** A block accepted by the checkpoint agrees with every other accepted one, when the
    encoding is injective and the headers do not collide. *)
Lemma checkpoint_unique n b1 b2 :
  (∀ x y, hex_encode x = hex_encode y → x = y) →
  no_collision blake3 [hash_preimage b1; hash_preimage b2] →
  verify_checkpoint b1 n = Ok tt → verify_checkpoint b2 n = Ok tt → hash_preimage b1 = hash_preimage b2.
Proof.
  intros Hhex Hc. unfold verify_checkpoint. destruct n; cbn [TESTNET_GENESIS_HASH MAINNET_GENESIS_HASH];
    rewrite !fail_ok_iff, !bool_decide_eq_false; intros [E1%dec_stable _] [E2%dec_stable _];
    (apply Hc; [set_solver..|]); apply Hhex; unfold hash in *; congruence.
Qed.
End checkpoint.

(** ** Proofs *)

Definition genesis_ok (n : NetworkType) (b : Block) : Prop :=
  bh_height (header b) = 0 ∧ previous_hash (header b) = replicate 32 0 ∧ bh_timestamp (header b) = genesis_timestamp n
  ∧ (masternode_rewards b = [] ∨ sum64 (snd <$> masternode_rewards b) = block_reward (header b)).

Lemma verify_rewards_iff b :
  verify_rewards b = Ok tt ↔ masternode_rewards b = [] ∨ sum64 (snd <$> masternode_rewards b) = block_reward (header b).
Proof.
  unfold verify_rewards. destruct (masternode_rewards b) as [|r rs]; [tauto|].
  cbv zeta. rewrite fail_ok_iff, negb_false_iff, Z.eqb_eq. naive_solver.
Qed.

Lemma genesis_checks_iff n b :
  verify_structure b = Ok tt ∧ verify_timestamp b n = Ok tt ↔ genesis_ok n b.
Proof.
  unfold verify_structure, verify_timestamp, genesis_ok. cbv zeta.
  rewrite !fail_ok_iff, !negb_false_iff, !Z.eqb_eq, bool_decide_eq_false, verify_rewards_iff.
  replace (genesis_block_timestamp n) with (genesis_timestamp n) by by destruct n.
  split; [intros ((?&?%dec_stable&?)&?&_)|intros (?&?&?&?)]; tauto.
Qed.

Lemma genesis_shares_sum total W d mns : mns ≠ [] → 0 ≤ d < U64 → 0 ≤ total < U64 →
  foldl add64 d (snd <$> genesis_shares total W d mns) = total.
Proof.
  intros Hne. revert d. induction mns as [|mn mns IH]; intros d Hd Ht; [done|].
  cbn [genesis_shares fmap list_fmap foldl snd]. destruct mns as [|mn' mns].
  - cbn. unfold add64, sub64. rewrite Zplus_mod_idemp_r. replace (d + (total - d)) with total by lia. by apply Z.mod_small.
  - apply IH; [done| |done]. unfold add64. by apply Z.mod_pos_bound.
Qed.

Lemma genesis_shares_fst total W d mns : fst <$> genesis_shares total W d mns = gm_address <$> mns.
Proof. revert d. induction mns as [|mn mns IH]; intros d; [done|]. cbn. f_equal. apply IH. Qed.

(** Shares without overflow: the floor of the proportional share, and what is left. *)
Definition ideal_share (total W : Z) (mn : GenesisMasternode) : Z := total * reward_weight (gm_tier mn) / W.

Lemma ideal_shares_le total W mns : 0 ≤ total → 0 < W →
  sumZ (ideal_share total W <$> mns) * W ≤ total * sumZ ((reward_weight ∘ gm_tier) <$> mns).
Proof.
  intros Ht HW. induction mns as [|mn mns IH]; [cbn; lia|]. cbn [fmap list_fmap]. rewrite !sumZ_cons.
  unfold ideal_share at 1, compose at 1. pose proof (Z.mul_div_le (total * reward_weight (gm_tier mn)) W HW). lia.
Qed.

Lemma genesis_shares_small total W d mns last :
  (∀ t, 0 ≤ total * reward_weight t < U64) → 0 < W → 0 ≤ d →
  0 ≤ total → d + sumZ (ideal_share total W <$> mns) ≤ total → total < U64 →
  snd <$> genesis_shares total W d (mns ++ [last])
  = (ideal_share total W <$> mns) ++ [total - (d + sumZ (ideal_share total W <$> mns))].
Proof.
  intros Hm HW. revert d. induction mns as [|mn mns IH]; intros d Hd Ht Hs Hu.
  { cbn in *. unfold sub64. f_equal. rewrite Z.mod_small; lia. }
  cbn [app genesis_shares fmap list_fmap snd] in *. rewrite sumZ_cons in *.
  assert (0 ≤ ideal_share total W mn) as Hi by (apply Z.div_pos; [apply Hm|done]).
  assert (0 ≤ sumZ (ideal_share total W <$> mns)) as Hr.
  { apply sumZ_nonneg, Forall_fmap, Forall_forall. intros x _. apply Z.div_pos; [apply Hm|done]. }
  assert (mul64 total (reward_weight (gm_tier mn)) / W = ideal_share total W mn) as E.
  { unfold ideal_share. by rewrite mul64_small. }
  destruct (mns ++ [last]) as [|m' ms] eqn:Em; [by destruct mns|]. rewrite E, add64_small by lia.
  f_equal. rewrite IH by lia. do 2 f_equal. lia.
Qed.

(** The genesis reward is split exactly: every masternode but the last gets the floor of its
    proportional share, the last gets the rest, which is at least its share, and the entries
    add up to the reward. *)
Theorem genesis_rewards_exact n mns last :
  let total := genesis_block_reward n in
  let all := mns ++ [last] in
  let W := sumZ ((reward_weight ∘ gm_tier) <$> all) in
  W < U64 →
  fst <$> calculate_rewards total all = gm_address <$> all
  ∧ snd <$> calculate_rewards total all
    = (ideal_share total W <$> mns) ++ [total - sumZ (ideal_share total W <$> mns)]
  ∧ ideal_share total W last ≤ total - sumZ (ideal_share total W <$> mns)
  ∧ sumZ (snd <$> calculate_rewards total all) = total.
Proof.
  cbv zeta. set (total := genesis_block_reward n). set (W := sumZ _). intros HW.
  assert (total = 10000000000) as Et by by destruct n.
  assert (∀ t, 0 < reward_weight t ∧ 0 ≤ total * reward_weight t < U64) as Hw
    by (intros []; rewrite Et; cbn; unfold U64; lia).
  assert (0 < W) as HW0.
  { unfold W. rewrite fmap_app, sumZ_app. cbn [fmap list_fmap]. rewrite sumZ_cons.
    assert (0 ≤ sumZ ((reward_weight ∘ gm_tier) <$> mns)) as Hm.
    { apply sumZ_nonneg, Forall_fmap, Forall_forall. intros x _. cbn. pose proof (proj1 (Hw (gm_tier x))). lia. }
    pose proof (proj1 (Hw (gm_tier last)) : 0 < (reward_weight ∘ gm_tier) last). cbn [sumZ foldr]. lia. }
  assert (ideal_share total W last + sumZ (ideal_share total W <$> mns) ≤ total) as Hsum.
  { pose proof (ideal_shares_le total W (mns ++ [last]) ltac:(lia) HW0) as Hle. fold W in Hle.
    rewrite fmap_app, sumZ_app in Hle. cbn in Hle. nia. }
  assert (0 ≤ ideal_share total W last) by (apply Z.div_pos; [apply Hw|done]).
  assert (calculate_rewards total (mns ++ [last]) = genesis_shares total W 0 (mns ++ [last])) as Ec.
  { unfold calculate_rewards. rewrite sum64_small by (fold W; lia). fold W.
    destruct (Z.eqb_spec W 0); [lia|]. by destruct (mns ++ [last]) eqn:E; [destruct mns|]. }
  rewrite Ec, genesis_shares_fst, genesis_shares_small by (try apply Hw; unfold U64; lia).
  rewrite Z.add_0_l, sumZ_app. cbn. split; [done|]. split; [done|]. lia.
Qed.

(** Whatever the weights, the split passes the check of the distribution. *)
Lemma genesis_rewards_verify b mns :
  0 ≤ block_reward (header b) < U64 → masternode_rewards b = calculate_rewards (block_reward (header b)) mns →
  verify_rewards b = Ok tt.
Proof.
  intros Hr E. apply verify_rewards_iff. rewrite E. unfold calculate_rewards.
  destruct mns as [|mn mns]; [by left|]. case_match; [by left|]. right.
  unfold sum64. apply genesis_shares_sum; [done|unfold U64; lia|done].
Qed.

Lemma genesis_rewards_exact_witness :
  sumZ (snd <$> calculate_rewards 10000000000
    ([mkGenesisMasternode "a" Gold; mkGenesisMasternode "b" Free] ++ [mkGenesisMasternode "c" Bronze])) = 10000000000.
Proof.
  apply (genesis_rewards_exact Testnet [mkGenesisMasternode "a" Gold; mkGenesisMasternode "b" Free]
           (mkGenesisMasternode "c" Bronze)). by vm_compute.
Defined.

(** The two hard-coded genesis blocks pass the structural and timestamp checks of their
    network and carry its block reward. *)
Theorem hardcoded_genesis_ok n :
  let b := match n with Testnet => testnet_genesis | Mainnet => mainnet_genesis end in
  verify_structure b = Ok tt ∧ verify_timestamp b n = Ok tt ∧ block_reward (header b) = genesis_block_reward n.
Proof. destruct n; by vm_compute. Qed.
