(* ===== verification/Utf8.v ===== *)
(** * UTF-8 in the standard library ([core::str::from_utf8], [String::from_utf8_lossy])

    Addresses are stored as the bytes of an output script and read back as strings.
    A [string] here is the sequence of its bytes, as [String] is in Rust. *)

From Stdlib Require Import ZArith Lia Ascii String.
From stdpp Require Import base gmap strings list.
From S2P Require Import Prelude Types.

Definition between (a b x : Z) : bool := (a <=? x) && (x <=? b).
Definition is_cont (x : Z) : bool := between 128 191 x.

(** Bounds of the second byte after a lead of three or four bytes. *)
Definition second_ok (lead x : Z) : bool :=
  if lead =? 224 then between 160 191 x
  else if lead =? 237 then between 128 159 x
  else if lead =? 240 then between 144 191 x
  else if lead =? 244 then between 128 143 x
  else is_cont x.

(** [safe_get]: zero past the end. *)
Definition byte_at (n : nat) (l : list Z) : Z := nth n l 0.

(** The head of a non-empty sequence: whether it is a character, and the length of
    the character or of the invalid prefix. *)
Definition utf8_head (l : list Z) : bool * nat :=
  let b := byte_at 0 l in
  if b <? 128 then (true, 1%nat)
  else if between 194 223 b then
    if is_cont (byte_at 1 l) then (true, 2%nat) else (false, 1%nat)
  else if between 224 239 b then
    if negb (second_ok b (byte_at 1 l)) then (false, 1%nat)
    else if is_cont (byte_at 2 l) then (true, 3%nat) else (false, 2%nat)
  else if between 240 244 b then
    if negb (second_ok b (byte_at 1 l)) then (false, 1%nat)
    else if negb (is_cont (byte_at 2 l)) then (false, 2%nat)
    else if is_cont (byte_at 3 l) then (true, 4%nat) else (false, 3%nat)
  else (false, 1%nat).

(** Each round consumes a byte at least. *)
Fixpoint utf8_valid_from (fuel : nat) (l : list Z) : bool :=
  match fuel, l with
  | _, [] => true
  | O, _ => true
  | S fuel, _ => let '(ok, n) := utf8_head l in ok && utf8_valid_from fuel (drop n l)
  end.
Definition utf8_valid (l : list Z) : bool := utf8_valid_from (length l) l.

(** U+FFFD. *)
Definition REPLACEMENT : list Z := [239; 191; 189].
Fixpoint utf8_lossy_from (fuel : nat) (l : list Z) : list Z :=
  match fuel, l with
  | _, [] => []
  | O, _ => []
  | S fuel, _ =>
      let '(ok, n) := utf8_head l in
      (if ok then take n l else REPLACEMENT) ++ utf8_lossy_from fuel (drop n l)
  end.

Fixpoint string_of_bytes (l : list Z) : string :=
  match l with
  | [] => ""
  | x :: l => String (ascii_of_nat (Z.to_nat x)) (string_of_bytes l)
  end.
Definition from_utf8 (l : list Z) : option string := if utf8_valid l then Some (string_of_bytes l) else None.
Definition from_utf8_lossy (l : list Z) : string := string_of_bytes (utf8_lossy_from (length l) l).

(** ** Facts *)

Lemma utf8_head_len l ok n : utf8_head l = (ok, n) → (1 ≤ n)%nat.
Proof. unfold utf8_head. intros E. split_matches_in E; lia. Qed.

Lemma string_of_str_bytes s : string_of_bytes (str_bytes s) = s.
Proof.
  unfold str_bytes. induction s as [|c s IH]; [done|]. cbn [list_ascii_of_string map string_of_bytes].
  rewrite Nat2Z.id, ascii_nat_embedding. by f_equal.
Qed.
Lemma str_bytes_of_bytes l : Forall u8_ok l → str_bytes (string_of_bytes l) = l.
Proof.
  intros Hl. unfold str_bytes. induction Hl as [|x l Hx _ IH]; [done|].
  cbn [string_of_bytes list_ascii_of_string map]. rewrite nat_ascii_embedding by (unfold u8_ok in Hx; lia).
  rewrite IH. f_equal. unfold u8_ok in Hx. lia.
Qed.

Lemma byte_at_past n l : (length l ≤ n)%nat → byte_at n l = 0.
Proof. intros. unfold byte_at. by apply nth_overflow. Qed.

Lemma is_cont_within i l : is_cont (byte_at i l) = true → (i < length l)%nat.
Proof. intros E. destruct (decide (i < length l)%nat); [done|]. rewrite byte_at_past in E by lia. done. Qed.
Lemma second_ok_within b i l : second_ok b (byte_at i l) = true → (i < length l)%nat.
Proof.
  intros E. destruct (decide (i < length l)%nat); [done|]. rewrite byte_at_past in E by lia.
  unfold second_ok in E. by split_matches_in E.
Qed.

(** A character, or an invalid prefix, lies within the sequence. *)
Lemma utf8_head_within l ok n : l ≠ [] → utf8_head l = (ok, n) → (n ≤ length l)%nat.
Proof.
  intros Hl E. assert (1 ≤ length l)%nat by (destruct l; cbn; [done|lia]). unfold utf8_head in E.
  repeat match type of E with
    | context [is_cont (byte_at ?i l)] =>
        let H := fresh in destruct (is_cont (byte_at i l)) eqn:H; [apply is_cont_within in H|clear H]
    | context [second_ok ?b (byte_at ?i l)] =>
        let H := fresh in destruct (second_ok b (byte_at i l)) eqn:H; [apply second_ok_within in H|clear H]
    end; cbn [negb] in E; split_matches_in E; lia.
Qed.

Lemma byte_at_take n i l r : (i < n)%nat → (n ≤ length l)%nat → byte_at i (take n l ++ r) = byte_at i l.
Proof.
  intros Hi Hn. unfold byte_at. rewrite app_nth1 by (rewrite length_take; lia).
  revert n i Hi Hn. induction l as [|x l IH]; intros [|n] [|i] Hi Hn; cbn in *; try lia. apply IH; lia.
Qed.

(** The decision on a character depends on its own bytes only. *)
Lemma utf8_head_take l n r : l ≠ [] → utf8_head l = (true, n) → utf8_head (take n l ++ r) = (true, n).
Proof.
  intros Hl E. pose proof (utf8_head_within l true n Hl E) as Hn. revert E. unfold utf8_head.
  pose proof (λ i Hi, byte_at_take n i l r Hi Hn) as T.
  destruct (byte_at 0 l <? 128) eqn:E0; [intros [= <-]; by rewrite T, E0 by lia|].
  destruct (between 194 223 (byte_at 0 l)) eqn:E1.
  { destruct (is_cont (byte_at 1 l)) eqn:E2; intros [= <-]. by rewrite !T, E0, E1, E2 by lia. }
  destruct (between 224 239 (byte_at 0 l)) eqn:E3.
  { destruct (second_ok (byte_at 0 l) (byte_at 1 l)) eqn:E2; [|done]. cbn [negb].
    destruct (is_cont (byte_at 2 l)) eqn:E4; intros [= <-]. rewrite !T by lia. by rewrite E0, E1, E3, E2, E4. }
  destruct (between 240 244 (byte_at 0 l)) eqn:E5; [|done].
  destruct (second_ok (byte_at 0 l) (byte_at 1 l)) eqn:E2; [|done]. cbn [negb].
  destruct (is_cont (byte_at 2 l)) eqn:E4; [|done]. cbn [negb].
  destruct (is_cont (byte_at 3 l)) eqn:E6; intros [= <-].
  rewrite !T by lia. by rewrite E0, E1, E3, E5, E2, E4, E6.
Qed.

Lemma utf8_valid_enough fuel l : (length l ≤ fuel)%nat → utf8_valid_from fuel l = utf8_valid l.
Proof.
  unfold utf8_valid. assert (∀ k l, (length l ≤ k)%nat → ∀ f g, (length l ≤ f)%nat → (length l ≤ g)%nat →
    utf8_valid_from f l = utf8_valid_from g l) as Hgen; [|intros; by apply (Hgen (length l))].
  clear. induction k as [|k IH]; intros l Hk f g Hf Hg; (destruct l as [|x l]; [by destruct f, g|]); [cbn in Hk; lia|].
  destruct f as [|f], g as [|g]; cbn in Hf, Hg, Hk; try lia. cbn [utf8_valid_from].
  destruct (utf8_head (x :: l)) as [ok n] eqn:E. pose proof (utf8_head_len _ _ _ E).
  f_equal. apply IH; rewrite length_drop; cbn; lia.
Qed.
Lemma utf8_valid_step l : l ≠ [] →
  utf8_valid l = (utf8_head l).1 && utf8_valid (drop (utf8_head l).2 l).
Proof.
  intros Hl. unfold utf8_valid at 1. destruct l as [|x l]; [done|]. cbn [length utf8_valid_from].
  destruct (utf8_head (x :: l)) as [ok n] eqn:E. cbn [fst snd]. pose proof (utf8_head_len _ _ _ E).
  rewrite utf8_valid_enough; [done|]. rewrite length_drop. cbn. lia.
Qed.

Lemma utf8_lossy_valid fuel l : utf8_valid (utf8_lossy_from fuel l) = true.
Proof.
  revert l. induction fuel as [|fuel IH]; intros [|x l]; try done. cbn [utf8_lossy_from].
  destruct (utf8_head (x :: l)) as [[] n] eqn:E.
  - pose proof (utf8_head_len _ _ _ E). pose proof (utf8_head_within (x :: l) _ _ ltac:(done) E) as Hn.
    set (r := utf8_lossy_from fuel (drop n (x :: l))).
    rewrite utf8_valid_step by (destruct n; [lia|done]).
    rewrite (utf8_head_take (x :: l) n r) by done. cbn [fst snd]. rewrite drop_app_length' by (rewrite length_take; lia).
    apply IH.
  - set (r := utf8_lossy_from fuel (drop n (x :: l))). rewrite utf8_valid_step by done.
    change (utf8_head (REPLACEMENT ++ r)) with (true, 3%nat). cbn [fst snd andb]. by apply IH.
Qed.

Lemma utf8_lossy_id fuel l : (length l ≤ fuel)%nat → utf8_valid l = true → utf8_lossy_from fuel l = l.
Proof.
  revert l. induction fuel as [|fuel IH]; intros [|x l] Hf; try done; [cbn in Hf; lia|].
  rewrite utf8_valid_step by done. cbn [utf8_lossy_from].
  destruct (utf8_head (x :: l)) as [ok n] eqn:E. cbn [fst snd]. intros [-> Hv]%andb_prop.
  pose proof (utf8_head_len _ _ _ E). rewrite IH; [apply take_drop| |done]. rewrite length_drop. cbn in *. lia.
Qed.

(** A lossy reading is valid, and reads a valid text unchanged. *)
Theorem from_utf8_lossy_spec l : Forall u8_ok l →
  (from_utf8 l = Some (from_utf8_lossy l) ∨ from_utf8 l = None)
  ∧ utf8_valid (utf8_lossy_from (length l) l) = true
  ∧ (utf8_valid l = true → str_bytes (from_utf8_lossy l) = l).
Proof.
  intros Hl. unfold from_utf8, from_utf8_lossy. split; [|split].
  - destruct (utf8_valid l) eqn:E; [left|by right]. by rewrite utf8_lossy_id.
  - apply utf8_lossy_valid.
  - intros Hv. rewrite utf8_lossy_id by done. by apply str_bytes_of_bytes.
Qed.

(** ASCII text is valid. *)
Lemma utf8_ascii l : Forall (λ x, 0 ≤ x < 128) l → utf8_valid l = true.
Proof.
  intros Hl. induction Hl as [|x l Hx _ IH]; [done|]. rewrite utf8_valid_step by done.
  assert (utf8_head (x :: l) = (true, 1%nat)) as ->; [|done].
  unfold utf8_head, byte_at. cbn [nth]. by destruct (Z.ltb_spec x 128); [|lia].
Qed.
