(* ===== verification/Float64.v ===== *)
(** * Double precision arithmetic

    [f64] values as IEEE 754 binary64 numbers, with the operations of the standard
    library's specification of them: 53 bits of precision, exponents below 1024,
    rounding to nearest even. *)

From Stdlib Require Import ZArith Lia Bool SpecFloat.
From stdpp Require Import base.
From S2P Require Import Prelude.

Abbreviation f64 := spec_float.
Definition f64_add : f64 → f64 → f64 := SFadd 53 1024.
Definition f64_sub : f64 → f64 → f64 := SFsub 53 1024.
Definition f64_mul : f64 → f64 → f64 := SFmul 53 1024.
Definition f64_div : f64 → f64 → f64 := SFdiv 53 1024.
Definition f64_abs : f64 → f64 := SFabs.
Definition f64_lt (x y : f64) : bool := SFltb x y.
Definition f64_le (x y : f64) : bool := SFleb x y.

(** [as f64] of an integer. *)
Definition f64_of_Z (z : Z) : f64 := binary_normalize 53 1024 z 0 false.
(** A decimal literal is the rounded quotient of two integers that are exact. *)
Definition f64_ratio (n d : Z) : f64 := f64_div (f64_of_Z n) (f64_of_Z d).

Definition f64_is_nan (x : f64) : bool := match x with S754_nan => true | _ => false end.
(** [f64::max] and [f64::min]: the other argument when one is not a number. *)
Definition f64_max (x y : f64) : f64 :=
  if f64_is_nan x then y else if f64_is_nan y then x else if f64_lt x y then y else x.
Definition f64_min (x y : f64) : f64 :=
  if f64_is_nan x then y else if f64_is_nan y then x else if f64_lt y x then y else x.

Example f64_tenths : f64_add (f64_ratio 1 10) (f64_ratio 2 10) <> f64_ratio 3 10.
Proof. vm_compute. discriminate. Qed.
