(* ===== verification/AiValidator.v ===== *)
(** * The heuristic transaction validator (src/ai/transaction_validator.rs)

    [AITransactionValidator]: per-script running averages and the spam score of a
    transaction.  The clock is the argument [now], in seconds. *)

From Stdlib Require Import ZArith Lia Ascii String SpecFloat.
From stdpp Require Import base gmap strings list.
From S2P Require Import Prelude Types Instances Float64.

Record TransactionPattern := mkPattern {
  tpat_address : string; avg_value : f64; avg_fee : f64; tx_count : Z; last_seen : Z; spam_score : f64;
}.
Record ValidationMetrics := mkValidationMetrics {
  total_validated : Z; spam_detected : Z; anomalies_detected : Z; false_positives : Z;
}.
Record AITransactionValidator := mkAiValidator {
  patterns : gmap string TransactionPattern;
  ai_metrics : ValidationMetrics;
  spam_threshold : f64;
}.
Definition ai_new : AITransactionValidator := mkAiValidator ∅ (mkValidationMetrics 0 0 0 0) (f64_ratio 8 10).

Inductive ai_error := SpamScore (score threshold : f64).

Section validator.
Context `{Externals}.
Implicit Types a : AITransactionValidator.

Definition new_pattern (now : Z) (addr : string) : TransactionPattern :=
  mkPattern addr (f64_of_Z 0) (f64_of_Z 0) 0 now (f64_of_Z 0).

(** [1.0 - alpha] and [alpha], for the learning rate 0.3. *)
Definition alpha : f64 := f64_ratio 3 10.
Definition learn (total : Z) (p : TransactionPattern) : f64 :=
  f64_add (f64_mul (f64_sub (f64_of_Z 1) alpha) (avg_value p)) (f64_mul alpha (f64_of_Z total)).

Definition deviates (avg : f64) (total : Z) : bool :=
  f64_lt (f64_of_Z 10)
    (f64_div (f64_abs (f64_sub (f64_of_Z total) avg)) (f64_max avg (f64_of_Z 1))).

Definition bump (score : f64) (num : Z) : f64 := f64_min (f64_add score (f64_ratio num 10)) (f64_of_Z 1).
Definition decay (score : f64) : f64 :=
  if f64_lt (f64_of_Z 0) score then f64_max (f64_sub score (f64_ratio 1 100)) (f64_of_Z 0) else score.

(** One output: the new pattern and the indicators raised.  The time since the last
    transaction is measured after [last_seen] has been set. *)
Definition check_output (now total : Z) (p : TransactionPattern) : TransactionPattern * Z :=
  let avg := learn total p in
  let count := add64 (tx_count p) 1 in
  let seen := now in
  let anomalous := (5 <? count) && deviates avg total in
  let score := if anomalous then bump (spam_score p) 2 else spam_score p in
  let rapid := (10 <? count) && (sat_sub now seen <? 10) in
  let score := if rapid then bump score 3 else score in
  (mkPattern (tpat_address p) avg (avg_fee p) count seen (decay score),
   (if anomalous then 1 else 0) + (if rapid then 1 else 0)).

Definition learn_output (now total : Z) (acc : gmap string TransactionPattern * Z) (o : TxOutput)
    : gmap string TransactionPattern * Z :=
  let addr := hex_encode (out_script_pubkey o) in
  let p := default (new_pattern now addr) (acc.1 !! addr) in
  let '(p, n) := check_output now total p in
  (<[addr := p]> acc.1, acc.2 + n).

Definition add_metrics (spam anomalies : Z) (m : ValidationMetrics) : ValidationMetrics :=
  mkValidationMetrics (total_validated m) (add64 (spam_detected m) spam) (add64 (anomalies_detected m) anomalies)
    (false_positives m).

Definition static_indicators (tx : Transaction) : Z :=
  (if existsb (λ o, out_value o <? 1000) (outputs tx) then 1 else 0)
  + (if (100 <? length (outputs tx))%nat then 1 else 0).

Definition validate_with_ai (now : Z) a (tx : Transaction) : AITransactionValidator * result ai_error () :=
  let m := ai_metrics a in
  let m := mkValidationMetrics (add64 (total_validated m) 1) (spam_detected m) (anomalies_detected m) (false_positives m) in
  let total := sum64 (out_value <$> outputs tx) in
  let '(ps, indicators) := foldl (learn_output now total) (patterns a, static_indicators tx) (outputs tx) in
  let total_checks := 2 + 2 * Z.of_nat (length (outputs tx)) in
  let score := f64_div (f64_of_Z indicators) (f64_of_Z total_checks) in
  if f64_le (spam_threshold a) score then
    (mkAiValidator ps (add_metrics 1 0 m) (spam_threshold a), Err (SpamScore score (spam_threshold a)))
  else if f64_lt (f64_ratio 5 10) score then (mkAiValidator ps (add_metrics 0 1 m) (spam_threshold a), Ok tt)
  else (mkAiValidator ps m (spam_threshold a), Ok tt).

(** The threshold is logged, not stored. *)
Definition adjust_threshold a (new_threshold : f64) : AITransactionValidator := a.

(** ** What it can reject *)

Lemma check_output_indicators now total p : 0 ≤ (check_output now total p).2 ≤ 2.
Proof. unfold check_output. cbn [snd]. repeat case_match; lia. Qed.

Lemma learn_outputs_indicators now total os acc :
  acc.2 ≤ (foldl (learn_output now total) acc os).2 ≤ acc.2 + 2 * Z.of_nat (length os).
Proof.
  revert acc. induction os as [|o os IH]; intros acc; [cbn; lia|]. cbn [foldl length].
  specialize (IH (learn_output now total acc o)).
  assert (acc.2 ≤ (learn_output now total acc o).2 ≤ acc.2 + 2); [|lia].
  unfold learn_output. set (p0 := default _ _). pose proof (check_output_indicators now total p0).
  destruct (check_output now total p0) as [p n]. cbn [snd] in *. lia.
Qed.

(** Scores below the threshold: the exact comparison on small counts. *)
Definition below_threshold (i t : Z) : bool :=
  negb (f64_le (f64_ratio 8 10) (f64_div (f64_of_Z i) (f64_of_Z t))).
Lemma small_scores : forallb (λ n, forallb (λ i, below_threshold i (2 + 2 * n)) (seqZ 0 (2 * n + 1))) [0; 1; 2; 3] = true.
Proof. by vm_compute. Qed.

Lemma learn_outputs_nonneg now total os ps i : 0 ≤ i → 0 ≤ (foldl (learn_output now total) (ps, i) os).2.
Proof. intros. pose proof (learn_outputs_indicators now total os (ps, i)). cbn in *. lia. Qed.

(** A transaction of at most three outputs, none of them dust, is never rejected,
    whatever the validator has seen. *)
Theorem ai_accepts_small now a tx :
  spam_threshold a = f64_ratio 8 10 → (length (outputs tx) ≤ 3)%nat →
  Forall (λ o, 1000 ≤ out_value o) (outputs tx) →
  (validate_with_ai now a tx).2 = Ok tt.
Proof.
  intros Ht Hn Hd. unfold validate_with_ai.
  assert (static_indicators tx = 0) as ->.
  { unfold static_indicators. destruct (Nat.ltb_spec 100 (length (outputs tx))); [lia|].
    assert (existsb (λ o, out_value o <? 1000) (outputs tx) = false) as ->; [|done].
    apply not_true_iff_false. rewrite existsb_exists. intros (o & Ho & Hl%Z.ltb_lt).
    rewrite Forall_forall in Hd. apply list_elem_of_In in Ho. specialize (Hd o Ho). lia. }
  pose proof (learn_outputs_indicators now (sum64 (out_value <$> outputs tx)) (outputs tx) (patterns a, 0)) as Hi.
  destruct (foldl _ _ _) as [ps i]. cbn [snd] in Hi.
  assert (below_threshold i (2 + 2 * Z.of_nat (length (outputs tx))) = true) as Hb.
  { pose proof small_scores as Hs. rewrite forallb_forall in Hs.
    assert (In (Z.of_nat (length (outputs tx))) [0; 1; 2; 3]) as Hin.
    { destruct (length (outputs tx)) as [|[|[|[|]]]]; cbn; try lia; tauto. }
    specialize (Hs _ Hin). cbv beta in Hs. rewrite forallb_forall in Hs. apply Hs.
    apply list_elem_of_In, elem_of_seqZ. lia. }
  rewrite Ht. unfold below_threshold in Hb. apply negb_true_iff in Hb. cbv zeta. rewrite Hb. by case_match.
Qed.
End validator.

(** The time since the last transaction is taken after it was reset, so every
    transaction past the tenth to a script counts as rapid, at any distance in time. *)
Example rapid_fire_always : ∀ now total p, 10 ≤ tx_count p < 1000 →
  1 ≤ (check_output now total p).2.
Proof.
  intros now total p Hc. unfold check_output. cbv zeta. cbn [snd].
  rewrite add64_small by (unfold U64; lia).
  destruct (Z.ltb_spec 10 (tx_count p + 1)); [|lia]. unfold sat_sub. rewrite Z.sub_diag. cbn.
  by repeat case_match.
Qed.

Lemma ai_accepts_small_witness : (@validate_with_ai model_externals 7 ai_new
  (mkTransaction 2 [] [mkTxOutput 5000 []; mkTxOutput 1000 []] 0 0 None None)).2 = Ok tt.
Proof. apply (@ai_accepts_small model_externals); [reflexivity|cbn; lia|repeat constructor; cbn; lia]. Defined.
