(* ===== verification/TxValidation.v ===== *)
(** * Transaction validation (src/consensus.rs, ConsensusEngine)

    [validate_transaction_with_locks] and the signature checks it makes.  The manager
    of the UTXO set is threaded through, because a verified signature registers the
    public key it was made with; the heuristic validator is threaded for its averages.
    Serialization to memory succeeds. *)

From Stdlib Require Import ZArith Lia Ascii String.
From stdpp Require Import base gmap strings list.
From S2P Require Import Prelude Types Instances Address Storage UtxoManager TransactionPool BlockVotes BlockTypes.
From S2P Require Import Utf8 AiValidator.

Definition MAX_TX_SIZE : Z := 10000000.
Definition DUST_THRESHOLD : Z := 1000.
Definition CHAIN_ID : Z := 1.

Class TxExternals := {
  (** [bincode::serialize] of the outputs *)
  outputs_bincode : list TxOutput → bytes;
}.

Inductive tx_error :=
| AiRejected (e : ai_error) | TxTooLarge (n : Z) | BadSpecialFields (e : special_error)
| CollateralInput (o : OutPoint) | NotUnspent (s : UTXOState) | UtxoNotFound
| DustOutput (v : Z) | SendTooSmall (v : Z) | FeeTooLow (fee : Z) | InsufficientFee (fee required : Z)
| InsufficientFunds (input_sum output_sum : Z) | EmptyScriptSig (idx : nat)
| IndexOutOfRange | SigUtxoMissing | BadScriptSigLength (n : nat) | InvalidPublicKey | ScriptNotUtf8
| BadAddressPrefix | WrongOwner (derived : string) | BadInputSignature (idx : nat).

Section validation.
Context {S : Type} `{UtxoStorage S} `{Externals} `{BlockExternals} `{TxExternals}.
Implicit Types m : UTXOStateManager S.

(** ** Signatures *)

Definition clear_script (i : TxInput) : TxInput :=
  mkTxInput (previous_output i) [] (sequence i).
Definition signing_tx (tx : Transaction) : Transaction :=
  mkTransaction (version tx) (clear_script <$> inputs tx) (outputs tx) (lock_time tx) (timestamp tx)
    (special_data tx) None.
Definition create_signature_message (tx : Transaction) (idx : nat) : bytes :=
  (if 2 <=? version tx then le_bytes 4 CHAIN_ID else [])
    ++ txid (signing_tx tx) ++ le_bytes 4 (as_u32 (Z.of_nat idx)) ++ sha256 (outputs_bincode (outputs tx)).

Definition script_network (script : bytes) : option NetworkType :=
  if starts_with (str_bytes "TIME0") script then Some Testnet
  else if starts_with (str_bytes "TIME1") script then Some Mainnet else None.

(** The part of [verify_input_signature] that runs in a blocking task. *)
Definition check_signature (message script script_sig : bytes) (idx : nat) : result tx_error () :=
  fail_if negb (length script_sig =? 96)%nat with BadScriptSigLength (length script_sig) in
  let pubkey := take 32 script_sig in
  let sig := take 64 (drop 32 script_sig) in
  let? key := ok_or InvalidPublicKey (vk_from_bytes pubkey) in
  let? addr := ok_or ScriptNotUtf8 (from_utf8 script) in
  let? net := ok_or BadAddressPrefix (script_network script) in
  let derived := as_string (from_public_key pubkey net) in
  fail_if bool_decide (str_bytes derived ≠ script) with WrongOwner derived in
  fail_if negb (verify_strict key message sig) with BadInputSignature idx in
  Ok tt.

Definition verify_input_signature m (tx : Transaction) (idx : nat) : UTXOStateManager S * result tx_error () :=
  match inputs tx !! idx with
  | None => (m, Err IndexOutOfRange)
  | Some i =>
      match get_utxo m (previous_output i) with
      | Err _ => (m, Err SigUtxoMissing)
      | Ok u =>
          match check_signature (create_signature_message tx idx) (script_pubkey u) (script_sig i) idx with
          | Err e => (m, Err e)
          | Ok _ => (register_pubkey m (address u) (take 32 (script_sig i)), Ok tt)
          end
      end
  end.

(** The loop over the inputs from position [idx]. *)
Fixpoint verify_signatures m (tx : Transaction) (idx : nat) (ins : list TxInput)
    : UTXOStateManager S * result tx_error () :=
  match ins with
  | [] => (m, Ok tt)
  | i :: ins =>
      if bool_decide (script_sig i = []) then (m, Err (EmptyScriptSig idx))
      else
        match verify_input_signature m tx idx with
        | (m, Err e) => (m, Err e)
        | (m, Ok _) => verify_signatures m tx (Datatypes.S idx) ins
        end
  end.

(** ** Inputs *)

(** One input: whether it is already finalized. *)
Definition input_state m (our_txid : Hash256) (o : OutPoint) : result tx_error bool :=
  fail_if is_collateral_locked m o with CollateralInput o in
  match get_state m o with
  | Some Unspent => Ok false
  | Some (Locked t at_) => if bool_decide (t = our_txid) then Ok false else Err (NotUnspent (Locked t at_))
  | Some (SpentPending t v w at_) =>
      if bool_decide (t = our_txid) then Ok false else Err (NotUnspent (SpentPending t v w at_))
  | Some (SpentFinalized t at_ v) =>
      if bool_decide (t = our_txid) then Ok true else Err (NotUnspent (SpentFinalized t at_ v))
  | Some s => Err (NotUnspent s)
  | None =>
      if is_tombstoned m o then Ok true
      else match get_utxo m o with Err _ => Err UtxoNotFound | Ok _ => Ok false end
  end.
Fixpoint inputs_finalized m (our_txid : Hash256) (ins : list TxInput) (all : bool) : result tx_error bool :=
  match ins with
  | [] => Ok all
  | i :: ins =>
      let? fin := input_state m our_txid (previous_output i) in inputs_finalized m our_txid ins (all && fin)
  end.

Record input_totals := mkInputTotals { it_sum : Z; it_address : option string; it_single : bool }.
Definition add_input (t : input_totals) (u : UTXO) : input_totals :=
  mkInputTotals (add64 (it_sum t) (value u))
    (match it_address t with None => Some (address u) | Some a => Some a end)
    (match it_address t with
     | Some a => if String.eqb a (address u) then it_single t else false
     | None => it_single t
     end).
Fixpoint sum_inputs m (ins : list TxInput) (t : input_totals) : result tx_error input_totals :=
  match ins with
  | [] => Ok t
  | i :: ins =>
      match get_utxo m (previous_output i) with
      | Ok u => sum_inputs m ins (add_input t u)
      | Err _ => Err UtxoNotFound
      end
  end.

(** All outputs go back to the one input address (a byte comparison: the address is
    a valid string). *)
Definition is_self_send (t : input_totals) (outs : list TxOutput) : bool :=
  it_single t &&
  match it_address t with
  | Some a => forallb (λ o, bool_decide (out_script_pubkey o = str_bytes a)) outs
  | None => false
  end.

(** ** The whole validation *)

Definition check_amounts (sched : FeeSchedule) (t : input_totals) (outs : list TxOutput) : result tx_error Z :=
  let output_sum := sum64 (out_value <$> outs) in
  let? u := match List.find (λ o, (0 <? out_value o) && (out_value o <? DUST_THRESHOLD)) outs with
            | Some o => Err (DustOutput (out_value o))
            | None => Ok tt
            end in
  fail_if output_sum <? SATOSHIS_PER_TIME with SendTooSmall output_sum in
  let fee := sat_sub (it_sum t) output_sum in
  fail_if fee <? MIN_TX_FEE with FeeTooLow fee in
  let required := required_fee sched (match outs with o :: _ => out_value o | [] => output_sum end) in
  fail_if negb (is_self_send t outs) && (fee <? required) with InsufficientFee fee required in
  fail_if it_sum t <? output_sum with InsufficientFunds (it_sum t) output_sum in
  Ok fee.

Definition check_special (tx : Transaction) : result tx_error () :=
  match special_data tx with
  | Some sd => map_err BadSpecialFields (validate_fields sd)
  | None => Ok tt
  end.

(** After the size and heuristic checks. *)
Definition validate_values (sched : FeeSchedule) m (tx : Transaction) (our_txid : Hash256)
    : UTXOStateManager S * result tx_error Z :=
  match inputs_finalized m our_txid (inputs tx) (negb (bool_decide (inputs tx = []))) with
  | Err e => (m, Err e)
  | Ok true => (m, Ok 0)
  | Ok false =>
      match (let? t := sum_inputs m (inputs tx) (mkInputTotals 0 None true) in check_amounts sched t (outputs tx)) with
      | Err e => (m, Err e)
      | Ok fee =>
          match verify_signatures m tx 0 (inputs tx) with
          | (m, Err e) => (m, Err e)
          | (m, Ok _) => (m, Ok fee)
          end
      end
  end.

Definition run_ai (now : Z) (ai : option AITransactionValidator) (tx : Transaction)
    : option AITransactionValidator * result tx_error () :=
  match ai with
  | Some a => let '(a, r) := validate_with_ai now a tx in (Some a, map_err AiRejected r)
  | None => (None, Ok tt)
  end.

Definition validate_transaction_with_locks (now : Z) (ai : option AITransactionValidator) (sched : FeeSchedule) m
    (tx : Transaction) (our_txid : Hash256)
    : option AITransactionValidator * UTXOStateManager S * result tx_error Z :=
  match run_ai now ai tx with
  | (ai, Err e) => (ai, m, Err e)
  | (ai, Ok _) =>
      let size := Z.of_nat (length (tx_bincode tx)) in
      if MAX_TX_SIZE <? size then (ai, m, Err (TxTooLarge size))
      else
        match check_special tx with
        | Err e => (ai, m, Err e)
        | Ok _ =>
            if is_masternode_reg tx || is_masternode_dereg tx then (ai, m, Ok 0)
            else let '(m, r) := validate_values sched m tx our_txid in (ai, m, r)
        end
  end.

Definition validate_transaction now ai sched m tx :=
  validate_transaction_with_locks now ai sched m tx (txid tx).

(** ** Conflicts *)

Definition spending_txid (s : UTXOState) : option Hash256 :=
  match s with
  | Unspent => None
  | Locked t _ => Some t
  | SpentPending t _ _ _ => Some t
  | SpentFinalized t _ _ => Some t
  | Archived t _ _ => Some t
  end.
Definition held_by_other m (exclude : Hash256) (o : OutPoint) : bool :=
  match get_state m o with
  | Some s => match spending_txid s with Some t => bool_decide (t ≠ exclude) | None => false end
  | None => false
  end.
Definition has_double_spend_conflict `{MapIter} (p : TransactionPool) m (ins : list TxInput) (exclude : Hash256) : bool :=
  has_conflicting_transaction p ins exclude || existsb (λ i, held_by_other m exclude (previous_output i)) ins.

Definition spent_by_other m (our_txid : Hash256) (o : OutPoint) : bool :=
  match get_state m o with
  | Some (SpentFinalized t _ _) | Some (SpentPending t _ _ _) | Some (Archived t _ _) =>
      bool_decide (t ≠ our_txid)
  | _ => false
  end
  || is_tombstoned m o &&
     negb (match get_state m o with Some (SpentFinalized t _ _) => bool_decide (t = our_txid) | _ => false end).
Definition inputs_already_spent_by_other m (ins : list TxInput) (our_txid : Hash256) : bool :=
  existsb (λ i, spent_by_other m our_txid (previous_output i)) ins.
End validation.
