(* ===== verification/TxProofs.v ===== *)
(** * What a validated transaction is (src/consensus.rs) *)

From Stdlib Require Import ZArith Lia Ascii String.
From stdpp Require Import base gmap strings list.
From S2P Require Import Prelude Types Instances Address Storage UtxoManager TransactionPool BlockVotes BlockTypes.
From S2P Require Import Utf8 AiValidator TxValidation.

Section proofs.
Context {S : Type} `{UtxoStorage S} `{Externals} `{BlockExternals} `{TxExternals}.
Implicit Types m : UTXOStateManager S.

(** ** Signatures *)

(** Input [idx] is signed with a key whose address is the script of [u]. *)
Definition owner_signed (tx : Transaction) (idx : nat) (i : TxInput) (u : UTXO) : Prop :=
  ∃ pk sig key net,
    script_sig i = pk ++ sig ∧ length pk = 32%nat ∧ length sig = 64%nat ∧ vk_from_bytes pk = Some key
    ∧ script_network (script_pubkey u) = Some net ∧ is_Some (from_utf8 (script_pubkey u))
    ∧ script_pubkey u = str_bytes (as_string (from_public_key pk net))
    ∧ verify_strict key (create_signature_message tx idx) sig = true.

Lemma check_signature_iff tx idx i u :
  check_signature (create_signature_message tx idx) (script_pubkey u) (script_sig i) idx = Ok tt
  ↔ owner_signed tx idx i u.
Proof.
  unfold check_signature, owner_signed. cbv zeta. rewrite fail_ok_iff, negb_false_iff, Nat.eqb_eq, bind_ok_iff.
  setoid_rewrite ok_or_iff. setoid_rewrite bind_ok_iff. setoid_rewrite ok_or_iff.
  setoid_rewrite bind_ok_iff. setoid_rewrite ok_or_iff. setoid_rewrite fail_ok_iff. setoid_rewrite fail_ok_iff.
  setoid_rewrite bool_decide_eq_false. setoid_rewrite negb_false_iff. split.
  - intros (Hl & key & Hk & a & Ha & net & Hn & Ho%dec_stable & Hv & _).
    exists (take 32 (script_sig i)), (take 64 (drop 32 (script_sig i))), key, net.
    rewrite length_take, length_take, length_drop, Hl. split_and!; try done.
    rewrite (take_ge (drop 32 _)) by (rewrite length_drop; lia). by rewrite take_drop.
  - intros (pk & sig & key & net & -> & L1 & L2 & Hk & Hn & [a Ha] & Ho & Hv).
    rewrite length_app, L1, L2. split; [done|]. rewrite take_app_length', drop_app_length' by done.
    rewrite (take_ge sig) by lia. exists key. split; [done|]. exists a. split; [done|]. exists net.
    split; [done|]. split; [|done]. rewrite Ho. by intros [].
Qed.

(** Only the cache of public keys may differ. *)
Definition same_ledger m m' : Prop := m' = set_pubkeys (pubkey_cache m') m.
Lemma same_ledger_refl m : same_ledger m m.
Proof. by destruct m. Qed.
Lemma same_ledger_trans m1 m2 m3 : same_ledger m1 m2 → same_ledger m2 m3 → same_ledger m1 m3.
Proof. unfold same_ledger. intros -> ->. done. Qed.
Lemma same_ledger_get m m' o : same_ledger m m' → get_utxo m' o = get_utxo m o.
Proof. by intros ->. Qed.

Lemma verify_input_signature_spec m tx idx i u :
  inputs tx !! idx = Some i → get_utxo m (previous_output i) = Ok u →
  same_ledger m (verify_input_signature m tx idx).1
  ∧ ((verify_input_signature m tx idx).2 = Ok tt ↔ owner_signed tx idx i u).
Proof.
  intros Hi Hu. unfold verify_input_signature. rewrite Hi, Hu, <- check_signature_iff.
  destruct (check_signature _ _ _ _) as [[]|e]; cbn; split; try done. by apply same_ledger_refl.
Qed.

Lemma verify_signatures_spec m tx pre ins us :
  inputs tx = pre ++ ins → Forall2 (λ i u, get_utxo m (previous_output i) = Ok u) ins us →
  same_ledger m (verify_signatures m tx (length pre) ins).1
  ∧ ((verify_signatures m tx (length pre) ins).2 = Ok tt
     ↔ ∀ j i u, ins !! j = Some i → us !! j = Some u → script_sig i ≠ [] ∧ owner_signed tx (length pre + j) i u).
Proof.
  intros E Hus. revert m pre E Hus. revert us. induction ins as [|i ins IH]; intros us m pre E Hus.
  { split; [apply same_ledger_refl|]. split; [|done]. intros _ j i u Hj. by destruct j. }
  apply Forall2_cons_inv_l in Hus as (u & us' & Hu & Hus & ->). cbn [verify_signatures].
  case_bool_decide as Hs.
  { split; [apply same_ledger_refl|]. split; [done|]. intros Hall. by destruct (Hall 0%nat i u eq_refl eq_refl). }
  assert (inputs tx !! length pre = Some i) as Hi by (rewrite E; by apply list_lookup_middle).
  destruct (verify_input_signature_spec m tx (length pre) i u Hi Hu) as [Hm Hv].
  destruct (verify_input_signature m tx (length pre)) as [m1 [[]|e]] eqn:Ev; cbn [fst snd] in *.
  - destruct (IH us' m1 (pre ++ [i])) as [Hm' Hr].
    { by rewrite <- app_assoc. }
    { eapply Forall2_impl; [done|]. intros i' u' Hg. by rewrite (same_ledger_get m). }
    rewrite length_app, Nat.add_1_r in Hm', Hr. split; [by eapply same_ledger_trans|]. rewrite Hr. split.
    + intros Hall [|j] i' u' Hi' Hu'; cbn in Hi', Hu'; simplify_eq.
      * rewrite Nat.add_0_r. split; [done|by apply Hv].
      * specialize (Hall j i' u' Hi' Hu'). by rewrite Nat.add_succ_r.
    + intros Hall j i' u' Hi' Hu'. specialize (Hall (Datatypes.S j) i' u' Hi' Hu'). by rewrite Nat.add_succ_r in Hall.
  - split; [done|]. split; [done|]. intros Hall. destruct (Hall 0%nat i u eq_refl eq_refl) as [_ Ho].
    rewrite Nat.add_0_r in Ho. by apply Hv in Ho.
Qed.

(** ** Amounts *)

Definition self_send (us : list UTXO) (outs : list TxOutput) : Prop :=
  ∃ a, us ≠ [] ∧ Forall (λ u, address u = a) us ∧ Forall (λ o, out_script_pubkey o = str_bytes a) outs.

Lemma sum_inputs_iff m ins t t' :
  sum_inputs m ins t = Ok t' ↔
  ∃ us, Forall2 (λ i u, get_utxo m (previous_output i) = Ok u) ins us ∧ t' = foldl add_input t us.
Proof.
  revert t. induction ins as [|i ins IH]; intros t; cbn [sum_inputs].
  { split; [intros [= <-]; exists []; by split|]. intros (us & ->%Forall2_nil_inv_l & ->). done. }
  destruct (get_utxo m (previous_output i)) as [u|e] eqn:Eu.
  - rewrite IH. split.
    + intros (us & Hus & ->). exists (u :: us). split; [by constructor|done].
    + intros (us & Hus & ->). apply Forall2_cons_inv_l in Hus as (u' & us' & Hu & Hus & ->).
      rewrite Eu in Hu. simplify_eq. by exists us'.
  - split; [done|]. intros (us & Hus & _). apply Forall2_cons_inv_l in Hus as (u' & us' & Hu & _). by rewrite Eu in Hu.
Qed.

Lemma add_inputs_sum t us : it_sum (foldl add_input t us) = foldl add64 (it_sum t) (value <$> us).
Proof. revert t. induction us as [|u us IH]; intros t; [done|]. cbn. by rewrite IH. Qed.

Lemma add_inputs_some t us a : it_address t = Some a →
  it_address (foldl add_input t us) = Some a
  ∧ (it_single (foldl add_input t us) = true ↔ it_single t = true ∧ Forall (λ u, address u = a) us).
Proof.
  revert t. induction us as [|u us IH]; intros t Ha; cbn [foldl]; [by rewrite Forall_nil; split; [done|tauto]|].
  destruct (IH (add_input t u)) as [E1 E2]; [unfold add_input; cbn; by rewrite Ha|].
  split; [done|]. rewrite E2, Forall_cons. unfold add_input. cbn. rewrite Ha.
  destruct (String.eqb_spec a (address u)); [naive_solver|]. split; [by intros [? _]|]. intros (_ & ? & _). congruence.
Qed.
Lemma is_self_send_iff us outs :
  is_self_send (foldl add_input (mkInputTotals 0 None true) us) outs = true ↔ self_send us outs.
Proof.
  unfold is_self_send, self_send. destruct us as [|u us].
  { cbn. split; [done|]. by intros (a & ? & _). }
  cbn [foldl]. destruct (add_inputs_some (add_input (mkInputTotals 0 None true) u) us (address u)) as [-> E]; [done|].
  rewrite andb_true_iff, E, forallb_forall. setoid_rewrite bool_decide_eq_true. split.
  - intros ([_ Hs] & Ho). exists (address u). split; [done|]. split; [by constructor|].
    apply Forall_forall. intros o Hin. by apply Ho, list_elem_of_In.
  - intros (a & _ & [<- Hs]%Forall_cons & Ho). split; [done|]. intros o Hin. rewrite Forall_forall in Ho.
    by apply Ho, list_elem_of_In.
Qed.

(** The amounts of an accepted transaction with inputs [us], as the code adds them. *)
Record amounts_ok (sched : FeeSchedule) (us : list UTXO) (outs : list TxOutput) (fee : Z) : Prop := mkAmountsOk {
  ao_balance : sum64 (value <$> us) = sum64 (out_value <$> outs) + fee;
  ao_min_send : SATOSHIS_PER_TIME ≤ sum64 (out_value <$> outs);
  ao_no_dust : Forall (λ o, out_value o ≤ 0 ∨ DUST_THRESHOLD ≤ out_value o) outs;
  ao_min_fee : MIN_TX_FEE ≤ fee;
  ao_fee : self_send us outs ∨
           required_fee sched (match outs with o :: _ => out_value o | [] => sum64 (out_value <$> outs) end) ≤ fee;
}.

Lemma find_none_iff {A} (f : A → bool) l : List.find f l = None ↔ Forall (λ x, f x = false) l.
Proof.
  induction l as [|x l IH]; cbn; [by rewrite Forall_nil|]. rewrite Forall_cons. destruct (f x); [naive_solver|]. tauto.
Qed.

Lemma no_dust_iff outs :
  (match List.find (λ o, (0 <? out_value o) && (out_value o <? DUST_THRESHOLD)) outs with
   | Some o => Err (DustOutput (out_value o)) | None => Ok tt end) = Ok tt
  ↔ Forall (λ o, out_value o ≤ 0 ∨ DUST_THRESHOLD ≤ out_value o) outs.
Proof.
  transitivity (List.find (λ o, (0 <? out_value o) && (out_value o <? DUST_THRESHOLD)) outs = None).
  { destruct (List.find _ outs); naive_solver. }
  rewrite find_none_iff. apply Forall_iff. intros o. rewrite andb_false_iff, !Z.ltb_ge. tauto.
Qed.

Lemma check_amounts_iff sched us outs fee :
  check_amounts sched (foldl add_input (mkInputTotals 0 None true) us) outs = Ok fee ↔ amounts_ok sched us outs fee.
Proof.
  unfold check_amounts. cbv zeta. rewrite add_inputs_sum. cbn [it_sum]. fold (sum64 (value <$> us)).
  rewrite let_ok_iff, no_dust_iff, !fail_ok_iff, !Z.ltb_ge, andb_false_iff, negb_false_iff, is_self_send_iff, Z.ltb_ge.
  unfold sat_sub. set (i := sum64 (value <$> us)). set (o := sum64 (out_value <$> outs)).
  assert (0 < MIN_TX_FEE) by done. split.
  - intros (Hd & Hm & Hf & Hr & Hi & [= <-]). split; fold i o; try done; lia.
  - intros [Hb Hm Hd Hf Hr]. fold i o in Hb, Hm, Hr. replace (Z.max 0 (i - o)) with fee by lia. split_and!; try done; lia.
Qed.

(** ** Input states *)

Lemma inputs_finalized_iff m t ins all r :
  inputs_finalized m t ins all = Ok r ↔
  Forall (λ i, is_ok (input_state m t (previous_output i)) = true) ins
  ∧ r = all && forallb (λ i, match input_state m t (previous_output i) with Ok b => b | Err _ => false end) ins.
Proof.
  revert all. induction ins as [|i ins IH]; intros all; cbn [inputs_finalized forallb].
  { rewrite Forall_nil, andb_true_r. naive_solver. }
  rewrite Forall_cons. destruct (input_state m t (previous_output i)) as [b|e]; cbn; [|naive_solver].
  rewrite IH, andb_assoc. tauto.
Qed.

(** ** Acceptance, exactly *)

(** Every input is free for the transaction [t] and some is not finalized yet. *)
Definition inputs_open m (t : Hash256) (ins : list TxInput) : Prop :=
  Forall (λ i, is_ok (input_state m t (previous_output i)) = true) ins
  ∧ (ins = [] ∨ ∃ i, i ∈ ins ∧ input_state m t (previous_output i) = Ok false).
(** Every input counts as spent already: finalized by [t], or tombstoned with no state in
    memory, whichever transaction spent it. *)
Definition inputs_done m (t : Hash256) (ins : list TxInput) : Prop :=
  ins ≠ [] ∧ Forall (λ i, input_state m t (previous_output i) = Ok true) ins.

Lemma all_finalized_iff m t ins :
  Forall (λ i, is_ok (input_state m t (previous_output i)) = true) ins →
  forallb (λ i, match input_state m t (previous_output i) with Ok b => b | Err _ => false end) ins = false ↔
  ∃ i, i ∈ ins ∧ input_state m t (previous_output i) = Ok false.
Proof.
  intros Hok. induction Hok as [|i ins Hi _ IH]; cbn; [split; [done|by intros (? & ?%elem_of_nil & _)]|].
  rewrite andb_false_iff, IH. setoid_rewrite elem_of_cons.
  destruct (input_state m t (previous_output i)) as [[]|e] eqn:E; [|naive_solver|done].
  split; [naive_solver|]. intros (j & [->|?] & ?); [congruence|eauto].
Qed.

Lemma inputs_finalized_false m t ins :
  inputs_finalized m t ins (negb (bool_decide (ins = []))) = Ok false ↔ inputs_open m t ins.
Proof.
  rewrite inputs_finalized_iff. unfold inputs_open. split; intros [Hok Hr]; (split; [done|]).
  - case_bool_decide; [by left|right]. by apply all_finalized_iff.
  - case_bool_decide; [done|]. destruct Hr as [?|Hr]; [done|]. by apply all_finalized_iff in Hr.
Qed.

Lemma inputs_finalized_true m t ins :
  inputs_finalized m t ins (negb (bool_decide (ins = []))) = Ok true ↔ inputs_done m t ins.
Proof.
  rewrite inputs_finalized_iff. unfold inputs_done. split.
  - intros [Hok Hr]. symmetry in Hr. apply andb_true_iff in Hr as [Hn Hr]. apply negb_true_iff, bool_decide_eq_false in Hn.
    split; [done|]. rewrite forallb_forall in Hr. apply Forall_forall. intros i Hi. apply list_elem_of_In in Hi.
    specialize (Hr i Hi). by destruct (input_state m t (previous_output i)) as [[]|].
  - intros [Hn Hr]. split; [eapply Forall_impl; [done|]; by intros i ->|]. rewrite bool_decide_eq_false_2 by done. symmetry.
    apply forallb_forall. intros i Hi. rewrite Forall_forall in Hr. by rewrite Hr by by apply list_elem_of_In.
Qed.

Definition all_signed (tx : Transaction) (us : list UTXO) : Prop :=
  ∀ j i u, inputs tx !! j = Some i → us !! j = Some u → script_sig i ≠ [] ∧ owner_signed tx j i u.

(** The acceptance of a value transaction: the inputs are stored, free, signed by their
    owners, and pay for the outputs and the fee. *)
Definition tx_accepted (sched : FeeSchedule) m (tx : Transaction) (t : Hash256) (fee : Z) (us : list UTXO) : Prop :=
  inputs_open m t (inputs tx) ∧ Forall2 (λ i u, get_utxo m (previous_output i) = Ok u) (inputs tx) us
  ∧ amounts_ok sched us (outputs tx) fee ∧ all_signed tx us.

Lemma stored_unique m ins us us' :
  Forall2 (λ i u, get_utxo m (previous_output i) = Ok u) ins us →
  Forall2 (λ i u, get_utxo m (previous_output i) = Ok u) ins us' → us = us'.
Proof.
  intros Hus. revert us'. induction Hus as [|i u ins us Hu _ IH]; intros us' Hus'.
  - by apply Forall2_nil_inv_l in Hus'.
  - apply Forall2_cons_inv_l in Hus' as (u' & us'' & Hu' & Hus' & ->). f_equal; [congruence|auto].
Qed.

Lemma validate_values_spec sched m tx t :
  same_ledger m (validate_values sched m tx t).1
  ∧ ∀ fee, (validate_values sched m tx t).2 = Ok fee ↔
      inputs_done m t (inputs tx) ∧ fee = 0 ∨ ∃ us, tx_accepted sched m tx t fee us.
Proof.
  unfold validate_values.
  pose proof (inputs_finalized_false m t (inputs tx)) as Hf. pose proof (inputs_finalized_true m t (inputs tx)) as Ht.
  destruct (inputs_finalized _ _ _ _) as [[]|e].
  - split; [apply same_ledger_refl|]. intros fee. cbn. split; [intros [= <-]; left; split; [by apply Ht|done]|].
    intros [[_ ->]|(us & Ho & _)]; [done|]. by apply Hf in Ho.
  - assert (¬ inputs_done m t (inputs tx)) as Hnd by (by intros ?%Ht).
    destruct (let? t0 := sum_inputs _ _ _ in _) as [fee|e] eqn:Ea.
    + apply bind_ok_iff in Ea as (tot & (us & Hus & ->)%sum_inputs_iff & Ha%check_amounts_iff).
      destruct (verify_signatures_spec m tx [] (inputs tx) us eq_refl Hus) as [Hm Hv]. cbn [length Nat.add] in *.
      destruct (verify_signatures m tx 0 (inputs tx)) as [m' [[]|e]]; cbn [fst snd] in *; (split; [done|]); intros fee'.
      * split; [intros [= <-]; right; exists us; split_and!; [by apply Hf|done|done|exact (proj1 Hv eq_refl)]|].
        intros [[? _]|(us' & _ & Hus' & Ha' & _)]; [done|]. do 2 f_equal.
        rewrite (stored_unique m _ _ _ Hus' Hus) in Ha'. destruct Ha, Ha'. lia.
      * split; [done|]. intros [[? _]|(us' & _ & Hus' & _ & Hs)]; [done|].
        rewrite (stored_unique m _ _ _ Hus' Hus) in Hs. by discriminate (proj2 Hv Hs).
    + split; [apply same_ledger_refl|]. intros fee. cbn. split; [done|]. intros [[? _]|(us & _ & Hus & Ha & _)]; [done|].
      assert ((let? t0 := sum_inputs m (inputs tx) (mkInputTotals 0 None true) in check_amounts sched t0 (outputs tx)) = Ok fee) as X;
        [|by rewrite X in Ea].
      apply bind_ok_iff. eexists. split; [apply sum_inputs_iff; by exists us|by apply check_amounts_iff].
  - split; [apply same_ledger_refl|]. intros fee. cbn. split; [done|].
    intros [[Hd _]|(us & Ho & _)]; [by apply Ht in Hd|by apply Hf in Ho].
Qed.

Lemma validate_with_locks_iff now ai sched m tx t :
  let '(ai', m', r) := validate_transaction_with_locks now ai sched m tx t in
  ai' = (run_ai now ai tx).1 ∧ same_ledger m m'
  ∧ ∀ fee, r = Ok fee ↔
      (run_ai now ai tx).2 = Ok tt ∧ Z.of_nat (length (tx_bincode tx)) ≤ MAX_TX_SIZE ∧ check_special tx = Ok tt
      ∧ if is_masternode_reg tx || is_masternode_dereg tx then fee = 0
        else inputs_done m t (inputs tx) ∧ fee = 0 ∨ ∃ us, tx_accepted sched m tx t fee us.
Proof.
  unfold validate_transaction_with_locks. destruct (run_ai now ai tx) as [ai' [[]|e]]; cbn [fst snd].
  2: { split; [done|]. split; [apply same_ledger_refl|]. naive_solver. }
  destruct (Z.ltb_spec MAX_TX_SIZE (Z.of_nat (length (tx_bincode tx)))).
  { split; [done|]. split; [apply same_ledger_refl|]. intros fee. split; [done|]. intros (_ & ? & _). lia. }
  destruct (check_special tx) as [[]|e].
  2: { split; [done|]. split; [apply same_ledger_refl|]. naive_solver. }
  destruct (is_masternode_reg tx || is_masternode_dereg tx).
  { split; [done|]. split; [apply same_ledger_refl|]. naive_solver. }
  destruct (validate_values_spec sched m tx t) as [Hm Hr].
  destruct (validate_values sched m tx t) as [m' r]. cbn [fst snd] in *. split; [done|]. split; [done|].
  intros fee. rewrite Hr. naive_solver.
Qed.

(** C8: Validation accepts a transaction with a fee exactly when the heuristic validator
    lets it pass and it is acceptable: within the size limit, with well-formed special data
    if it has any, and either a masternode registration or deregistration (fee 0, nothing
    else is checked); or with inputs that all count as spent already, each finalized by this
    transaction, or tombstoned by any transaction and without a state in memory (fee 0,
    neither amounts nor signatures are checked); or with inputs that are available to it and
    stored, outputs above dust, the minimum send and both fee rules met, and a signature of
    the owner of the output it spends on every input. *)
Theorem validate_transaction_exact now ai sched m tx t :
  let '(ai', m', r) := validate_transaction_with_locks now ai sched m tx t in
  ai' = (run_ai now ai tx).1 ∧ same_ledger m m'
  ∧ ∀ fee, r = Ok fee ↔
      (run_ai now ai tx).2 = Ok tt ∧ Z.of_nat (length (tx_bincode tx)) ≤ MAX_TX_SIZE ∧ check_special tx = Ok tt
      ∧ if is_masternode_reg tx || is_masternode_dereg tx then fee = 0
        else inputs_done m t (inputs tx) ∧ fee = 0 ∨ ∃ us, tx_accepted sched m tx t fee us.
Proof. exact (validate_with_locks_iff now ai sched m tx t). Qed.

Lemma amounts_exact sched us outs fee :
  amounts_ok sched us outs fee → Forall (λ u, 0 ≤ value u) us → Forall (λ o, 0 ≤ out_value o) outs →
  sumZ (value <$> us) < U64 → sumZ (out_value <$> outs) < U64 →
  sumZ (value <$> us) = sumZ (out_value <$> outs) + fee.
Proof.
  intros [Hb _ _ _ _] Hu Ho Lu Lo.
  rewrite !sum64_small in Hb; [done| |]; (split; [apply sumZ_nonneg; by apply Forall_fmap|done]).
Qed.

(** C1: No inflation: when validation accepts a transaction that is neither a masternode
    registration nor a deregistration, and whose inputs do not all count as spent already
    (each finalized by this transaction, or tombstoned without a state in memory), then the
    values of the stored outputs its inputs name, one per input, add up exactly to its
    outputs plus the fee, the fee is at least the minimum, every input is signed by the
    owner of its output and none is collateral, provided the sums stay below 2^64.
    (Registrations, deregistrations and spent inputs are accepted with fee 0 and without
    these checks.) *)
Theorem no_inflation now ai sched m tx t ai' m' fee us :
  validate_transaction_with_locks now ai sched m tx t = (ai', m', Ok fee) →
  is_masternode_reg tx || is_masternode_dereg tx = false → ¬ inputs_done m t (inputs tx) →
  Forall2 (λ i u, get_utxo m (previous_output i) = Ok u) (inputs tx) us →
  Forall (λ u, 0 ≤ value u) us →
  Forall (λ o, 0 ≤ out_value o) (outputs tx) → sumZ (value <$> us) < U64 → sumZ (out_value <$> outputs tx) < U64 →
  sumZ (value <$> us) = sumZ (out_value <$> outputs tx) + fee ∧ MIN_TX_FEE ≤ fee
  ∧ (∀ j i u, inputs tx !! j = Some i → us !! j = Some u → owner_signed tx j i u)
  ∧ Forall (λ i, is_collateral_locked m (previous_output i) = false) (inputs tx).
Proof.
  intros Hv Hreg Hnd Hus Hu Ho Lu Lo. pose proof (validate_with_locks_iff now ai sched m tx t) as Hx.
  rewrite Hv, Hreg in Hx. destruct Hx as (_ & _ & Hx). specialize (Hx fee).
  destruct Hx as [Hx _]. destruct (Hx eq_refl) as (_ & _ & _ & [[? _]|(us' & [Hop _] & Hus' & Ha & Hs)]); [done|].
  rewrite (stored_unique m _ _ _ Hus' Hus) in *. split; [by eapply amounts_exact|]. split; [by destruct Ha|]. split.
  - intros j i u Hi Hj. by destruct (Hs j i u Hi Hj).
  - eapply Forall_impl; [exact Hop|]. intros i. unfold input_state. by destruct (is_collateral_locked _ _).
Qed.

(** ** Conflicts *)

Lemma has_double_spend_conflict_iff `{MapIter} p m ins t :
  has_double_spend_conflict p m ins t = true ↔
  has_conflicting_transaction p ins t = true
  ∨ ∃ i s t', i ∈ ins ∧ get_state m (previous_output i) = Some s ∧ spending_txid s = Some t' ∧ t' ≠ t.
Proof.
  unfold has_double_spend_conflict. rewrite orb_true_iff, existsb_exists. apply or_iff_compat_l. unfold held_by_other. split.
  - intros (i & Hi & E). destruct (get_state m (previous_output i)) as [s|] eqn:Es; [|done].
    destruct (spending_txid s) as [t'|] eqn:Et; [|done]. apply bool_decide_eq_true in E.
    exists i, s, t'. split; [by apply list_elem_of_In|done].
  - intros (i & s & t' & Hi & Es & Et & Hn). exists i. split; [by apply list_elem_of_In|]. rewrite Es, Et.
    by apply bool_decide_eq_true.
Qed.
End proofs.

(** ** Samples *)

Section samples.
#[local] Existing Instance tagged_externals.
#[local] Existing Instance canonical_iter.
Definition sample_block_externals : BlockExternals := {|
  blake3 := tagged_digest;
  block_bincode b := Some [];
  verify_strict pk m s := bool_decide (take (length pk) s = pk);
|}.
#[local] Existing Instance sample_block_externals.
Definition sample_tx_externals : TxExternals := {| outputs_bincode os := flat_map (λ o, le_bytes 8 (out_value o)) os |}.
#[local] Existing Instance sample_tx_externals.

Definition sample_pk : bytes := replicate 32 5.
Definition sample_addr : string := as_string (from_public_key sample_pk Testnet).
Definition sample_op (n : Z) : OutPoint := mkOutPoint (replicate 32 n) 0.
Definition sample_utxo (n v : Z) : UTXO := mkUTXO (sample_op n) v (str_bytes sample_addr) sample_addr None.
Definition sample_manager : UTXOStateManager (gmap OutPoint UTXO) :=
  foldl (λ m u, (add_utxo m u).1) (new_with_storage ∅) [sample_utxo 1 300000000; sample_utxo 2 300000000].
Definition sample_input (n : Z) : TxInput := mkTxInput (sample_op n) (sample_pk ++ replicate 64 5) 0.
Definition sample_spend (ins : list Z) (v : Z) : Transaction :=
  mkTransaction 2 (sample_input <$> ins) [mkTxOutput v (str_bytes sample_addr)] 0 0 None None.

Lemma sample_accepted :
  (validate_transaction 0 None default_fee_schedule sample_manager (sample_spend [1; 2] 590000000)).2 = Ok 10000000.
Proof. vm_compute. reflexivity. Qed.
Lemma split_result {A B C} (r : A * B * C) c : r.2 = c → r = (r.1.1, r.1.2, c).
Proof. destruct r as [[a b] c']. cbn. by intros ->. Qed.

Lemma no_inflation_witness :
  sumZ (value <$> [sample_utxo 1 300000000; sample_utxo 2 300000000]) = sumZ (out_value <$> outputs (sample_spend [1; 2] 590000000)) + 10000000.
Proof.
  apply (no_inflation _ _ _ _ _ _ _ _ _ [sample_utxo 1 300000000; sample_utxo 2 300000000] (split_result _ _ sample_accepted)).
  - reflexivity.
  - intros [_ Hd]. apply Forall_cons in Hd as [Hd _]. revert Hd. by vm_compute.
  - repeat constructor; by vm_compute.
  - repeat constructor; cbn; lia.
  - repeat constructor; cbn; lia.
  - by vm_compute.
  - by vm_compute.
Defined.

(** An input that occurs twice is counted twice: one output of 3 TIME pays for
    5.9 TIME, and the validation accepts it. *)
Theorem duplicate_input_inflates :
  let tx := sample_spend [1; 1] 590000000 in
  (validate_transaction 0 None default_fee_schedule sample_manager tx).2 = Ok 10000000
  ∧ get_utxo sample_manager (sample_op 1) = Ok (sample_utxo 1 300000000)
  ∧ (previous_output <$> inputs tx) = [sample_op 1; sample_op 1]
  ∧ (out_value <$> outputs tx) = [590000000].
Proof. vm_compute. done. Qed.

(** A deregistration may carry inputs and outputs: it spends an output of somebody else
    without a signature. *)
Theorem special_transfer_unchecked :
  let sd := MasternodeDeregistration "1.1.1.1:80" 1 "aaaaaaaaaaaaaaaaaaaaaaaaaaaaaaaaaaaaaaaaaaaaaaaaaaaaaaaaaaaaaaaa" "s" in
  let tx := mkTransaction 2 [mkTxInput (sample_op 1) [] 0] [mkTxOutput 300000000 (str_bytes "thief")] 0 0 (Some sd) None in
  (validate_transaction 0 None default_fee_schedule sample_manager tx).2 = Ok 0
  ∧ get_utxo sample_manager (sample_op 1) = Ok (sample_utxo 1 300000000) ∧ address (sample_utxo 1 300000000) = sample_addr.
Proof. vm_compute. done. Qed.
(** After a restart, when a spent output has only its tombstone, an unsigned transaction that
    names it and creates any amount is accepted. *)
Theorem tombstoned_input_unchecked :
  let m := mkManager (∅ : gmap OutPoint UTXO) ∅ ∅ None ∅ ∅ {[sample_op 1]} None ∅ in
  let tx := mkTransaction 2 [mkTxInput (sample_op 1) [] 0] [mkTxOutput 900000000 (str_bytes "thief")] 0 0 None None in
  (validate_transaction 0 None default_fee_schedule m tx).2 = Ok 0.
Proof. vm_compute. done. Qed.

(** The sum of the outputs wraps around: two outputs of half the range and one of
    2.9 TIME are paid for by 3 TIME. *)
Theorem output_sum_wraps :
  let tx := mkTransaction 2 [sample_input 1]
              [mkTxOutput 290000000 (str_bytes sample_addr); mkTxOutput (2 ^ 63) []; mkTxOutput (2 ^ 63) []] 0 0 None None in
  (validate_transaction 0 None default_fee_schedule sample_manager tx).2 = Ok 10000000.
Proof. vm_compute. done. Qed.
End samples.
