(* ===== verification/Consensus.v ===== *)
(** * The consensus engine: transactions from submission to finality
    (src/consensus.rs, ConsensusEngine)

    [ConsensusEngine] holds the UTXO manager, the pool, the vote engine, the state of
    the liveness fallback, the proof store, the heuristic validator and the fee
    schedule.  A method takes the engine and returns the new one, with its result.
    What the engine sends is appended to [outbox] (nothing while the broadcast
    callback is unset), and what it signals to subscribers to [finalized_signals].
    The masternode registry is read through the list [mns] of active masternodes.  A
    [Clock] gives the monotonic time in nanoseconds and the date in seconds and
    milliseconds; one reading serves a whole call.  The texts of rejection reasons
    leave the interpolated numbers out.  Notifications of the local state notifier and
    the running average of finality times are left out. *)

From Stdlib Require Import ZArith Lia Ascii String.
From stdpp Require Import base gmap strings list.
From S2P Require Import Prelude Types Instances Address Finality Storage UtxoManager TransactionPool BlockVotes.
From S2P Require Import BlockTypes TimeVoteEngine Utf8 AiValidator BlockVrf TxValidation.

Definition MAX_MEMPOOL_TRANSACTIONS : Z := 10000.
Definition NANOS : Z := 1000000000.
Definition STALL_TIMEOUT : Z := 30 * NANOS.
Definition FALLBACK_ROUND_TIMEOUT : Z := 10 * NANOS.
Definition MAX_FALLBACK_ROUNDS : Z := 5.

Record Clock := mkClock { c_instant : Z; c_unix : Z; c_millis : Z }.

Inductive NetMsg :=
| MsgTransactionBroadcast (tx : Transaction)
| MsgTransactionFinalized (t : Hash256) (tx : Transaction)
| MsgUTXOStateUpdate (o : OutPoint) (s : UTXOState)
| MsgTimeVoteRequest (t commitment : Hash256) (slot : Z) (tx : option Transaction)
| MsgTimeProof (p : TimeProof)
| MsgLivenessAlert (a : LivenessAlert)
| MsgFinalityProposal (p : FinalityProposal)
| MsgFallbackVote (v : FallbackVote).

(** The fields of [TimeVoteConsensus] that serve the liveness fallback. *)
Record FallbackState := mkFallback {
  stall_timers : gmap Hash256 Z;
  liveness_alerts : gmap Hash256 (list LivenessAlert);
  fallback_votes : gmap Hash256 (list FallbackVote);
  proposal_to_tx : gmap Hash256 Hash256;
  fallback_rounds : gmap Hash256 (Z * Z * Z);   (* slot, round, start *)
  byzantine_nodes : gmap string bool;
  fallback_activations : Z;
  stall_detections : Z;
  timelock_resolutions : Z;
}.
Definition fallback_new : FallbackState := mkFallback ∅ ∅ ∅ ∅ ∅ ∅ 0 0 0.

Inductive engine_error :=
| EngTx (e : tx_error) | EngLock (e : UtxoError) | EngPool (e : PoolError)
| NoMasternodes | GhostRejected | TxNoInputs | TxNoOutputs | VersionOneRejected | InputSpentByOther | MempoolFull
| NoBroadcastCallback | NoIdentity | TxUnknown | NotVoting | NotInFallback.

Section engine.
Context {S : Type} `{UtxoStorage S} `{MapIter} `{Externals} `{BlockExternals} `{TxExternals} `{PoolCodec} `{VrfExternals}.

Record NodeIdentity := mkIdentity { id_address : string; id_key : SigningKey }.

Record ConsensusEngine := mkEngine {
  utxo_manager : UTXOStateManager S;
  tx_pool : TransactionPool;
  timevote : TimeVoteConsensus;
  fallback : FallbackState;
  finality_proof_mgr : FinalityProofManager;
  ai_validator : option AITransactionValidator;
  fee_schedule : FeeSchedule;
  prev_block_hash : Hash256;
  identity : option NodeIdentity;
  wallet_signing_key : option SigningKey;
  broadcast_callback : bool;
  outbox : list NetMsg;
  finalized_signals : list Hash256;
}.
Implicit Types e : ConsensusEngine.

(** ** Field updates *)

Definition set_utxo (m : UTXOStateManager S) e : ConsensusEngine :=
  mkEngine m (tx_pool e) (timevote e) (fallback e) (finality_proof_mgr e) (ai_validator e) (fee_schedule e)
    (prev_block_hash e) (identity e) (wallet_signing_key e) (broadcast_callback e) (outbox e) (finalized_signals e).
Definition set_pool (p : TransactionPool) e : ConsensusEngine :=
  mkEngine (utxo_manager e) p (timevote e) (fallback e) (finality_proof_mgr e) (ai_validator e) (fee_schedule e)
    (prev_block_hash e) (identity e) (wallet_signing_key e) (broadcast_callback e) (outbox e) (finalized_signals e).
Definition set_timevote (c : TimeVoteConsensus) e : ConsensusEngine :=
  mkEngine (utxo_manager e) (tx_pool e) c (fallback e) (finality_proof_mgr e) (ai_validator e) (fee_schedule e)
    (prev_block_hash e) (identity e) (wallet_signing_key e) (broadcast_callback e) (outbox e) (finalized_signals e).
Definition set_fallback (f : FallbackState) e : ConsensusEngine :=
  mkEngine (utxo_manager e) (tx_pool e) (timevote e) f (finality_proof_mgr e) (ai_validator e) (fee_schedule e)
    (prev_block_hash e) (identity e) (wallet_signing_key e) (broadcast_callback e) (outbox e) (finalized_signals e).
Definition set_proofs (m : FinalityProofManager) e : ConsensusEngine :=
  mkEngine (utxo_manager e) (tx_pool e) (timevote e) (fallback e) m (ai_validator e) (fee_schedule e)
    (prev_block_hash e) (identity e) (wallet_signing_key e) (broadcast_callback e) (outbox e) (finalized_signals e).
Definition set_ai (a : option AITransactionValidator) e : ConsensusEngine :=
  mkEngine (utxo_manager e) (tx_pool e) (timevote e) (fallback e) (finality_proof_mgr e) a (fee_schedule e)
    (prev_block_hash e) (identity e) (wallet_signing_key e) (broadcast_callback e) (outbox e) (finalized_signals e).

(** [broadcast]: logged and dropped while no callback is set. *)
Definition broadcast (msg : NetMsg) e : ConsensusEngine :=
  mkEngine (utxo_manager e) (tx_pool e) (timevote e) (fallback e) (finality_proof_mgr e) (ai_validator e) (fee_schedule e)
    (prev_block_hash e) (identity e) (wallet_signing_key e) (broadcast_callback e)
    (if broadcast_callback e then outbox e ++ [msg] else outbox e) (finalized_signals e).
Definition signal_tx_finalized (t : Hash256) e : ConsensusEngine :=
  mkEngine (utxo_manager e) (tx_pool e) (timevote e) (fallback e) (finality_proof_mgr e) (ai_validator e) (fee_schedule e)
    (prev_block_hash e) (identity e) (wallet_signing_key e) (broadcast_callback e) (outbox e) (finalized_signals e ++ [t]).

Definition set_tx_state (m : gmap Hash256 VotingState) (c : TimeVoteConsensus) : TimeVoteConsensus :=
  mkTvc m (tvc_finalized c) (avs_snapshots c) (timeproof_votes c) (accumulated_weight c) (tx_status c)
    (competing_timeproofs c) (timeproof_conflicts c) (txs_finalized c) (timeproof_conflicts_detected c).
Definition set_tvc_finalized (m : gmap Hash256 (Preference * Z)) (c : TimeVoteConsensus) : TimeVoteConsensus :=
  mkTvc (tx_state c) m (avs_snapshots c) (timeproof_votes c) (accumulated_weight c) (tx_status c)
    (competing_timeproofs c) (timeproof_conflicts c) (txs_finalized c) (timeproof_conflicts_detected c).
Definition set_status_map (m : gmap Hash256 TransactionStatus) (c : TimeVoteConsensus) : TimeVoteConsensus :=
  mkTvc (tx_state c) (tvc_finalized c) (avs_snapshots c) (timeproof_votes c) (accumulated_weight c) m
    (competing_timeproofs c) (timeproof_conflicts c) (txs_finalized c) (timeproof_conflicts_detected c).
Definition set_timers (m : gmap Hash256 Z) (f : FallbackState) : FallbackState :=
  mkFallback m (liveness_alerts f) (fallback_votes f) (proposal_to_tx f) (fallback_rounds f) (byzantine_nodes f)
    (fallback_activations f) (stall_detections f) (timelock_resolutions f).
Definition set_rounds (m : gmap Hash256 (Z * Z * Z)) (f : FallbackState) : FallbackState :=
  mkFallback (stall_timers f) (liveness_alerts f) (fallback_votes f) (proposal_to_tx f) m (byzantine_nodes f)
    (fallback_activations f) (stall_detections f) (timelock_resolutions f).
Definition set_alerts (m : gmap Hash256 (list LivenessAlert)) (f : FallbackState) : FallbackState :=
  mkFallback (stall_timers f) m (fallback_votes f) (proposal_to_tx f) (fallback_rounds f) (byzantine_nodes f)
    (fallback_activations f) (stall_detections f) (timelock_resolutions f).
Definition set_proposals (v : gmap Hash256 (list FallbackVote)) (p : gmap Hash256 Hash256) (f : FallbackState) : FallbackState :=
  mkFallback (stall_timers f) (liveness_alerts f) v p (fallback_rounds f) (byzantine_nodes f)
    (fallback_activations f) (stall_detections f) (timelock_resolutions f).

(** ** Transaction status *)

Definition set_tx_status (t : Hash256) (s : TransactionStatus) e : ConsensusEngine :=
  set_timevote (set_status_map (<[t := s]> (tx_status (timevote e))) (timevote e)) e.
Definition get_tx_status e (t : Hash256) : option TransactionStatus := tx_status (timevote e) !! t.
Definition start_stall_timer (now : Clock) (t : Hash256) e : ConsensusEngine :=
  set_fallback (set_timers (<[t := c_instant now]> (stall_timers (fallback e))) (fallback e)) e.
Definition stop_stall_timer (t : Hash256) e : ConsensusEngine :=
  set_fallback (set_timers (delete t (stall_timers (fallback e))) (fallback e)) e.
Definition check_stall_timeout (now : Clock) e (t : Hash256) : bool :=
  match stall_timers (fallback e) !! t with
  | Some s => STALL_TIMEOUT <? sat_sub (c_instant now) s
  | None => false
  end.

(** Inputs of a pending transaction move to [SpentPending], whatever their state. *)
Definition pend_inputs (now : Clock) (n : Z) (t : Hash256) (m : UTXOStateManager S) (ins : list TxInput) : UTXOStateManager S :=
  foldl (λ m i, update_state m (previous_output i) (SpentPending t 0 n (c_unix now))) m ins.
Definition transition_to_voting (now : Clock) (mns : list MasternodeInfo) (t : Hash256) e : ConsensusEngine :=
  let e := set_tx_status t (Voting 0 0 (c_millis now)) e in
  let e := start_stall_timer now t e in
  match get_pending (tx_pool e) t with
  | Some tx => set_utxo (pend_inputs now (as_u32 (Z.of_nat (length mns))) t (utxo_manager e) (inputs tx)) e
  | None => e
  end.

(** Removal from the fallback tracking. *)
Definition clear_fallback (t : Hash256) e : ConsensusEngine :=
  let f := fallback e in
  set_fallback (set_alerts (delete t (liveness_alerts f)) (set_rounds (delete t (fallback_rounds f)) f)) e.
Definition transition_to_finalized (now : Clock) (t : Hash256) (weight : Z) e : ConsensusEngine :=
  clear_fallback t (stop_stall_timer t (set_tx_status t (Finalized (c_millis now) weight) e)).
Definition transition_to_rejected (now : Clock) (t : Hash256) (reason : string) e : ConsensusEngine :=
  clear_fallback t (stop_stall_timer t (set_tx_status t (Rejected (c_millis now) reason) e)).
(** [timestamp() as u64 / 600]. *)
Definition unix_slot (now : Clock) : Z := (c_unix now mod U64) / 600.
Definition transition_to_fallback_resolution (now : Clock) (t : Hash256) (alerts : Z) e : ConsensusEngine :=
  let e := stop_stall_timer t (set_tx_status t (FallbackResolution (c_millis now) 0 alerts) e) in
  set_fallback (set_rounds (<[t := (unix_slot now, 0, c_instant now)]> (fallback_rounds (fallback e))) (fallback e)) e.

Definition is_transaction_still_valid e (t : Hash256) : bool :=
  match get_pending (tx_pool e) t with
  | None => false
  | Some tx =>
      forallb (λ i, match get_state (utxo_manager e) (previous_output i) with
                    | Some (SpentFinalized _ _ _) | Some (Archived _ _ _) => false
                    | _ => true
                    end) (inputs tx)
      && match get_tx_status e t with Some (Rejected _ _) => false | _ => true end
  end.

(** ** Locking and validation *)

Definition validate_locks (now : Clock) (tx : Transaction) (t : Hash256) e : ConsensusEngine * result tx_error Z :=
  let '(ai, m, r) := validate_transaction_with_locks (c_unix now) (ai_validator e) (fee_schedule e) (utxo_manager e) tx t in
  (set_ai ai (set_utxo m e), r).

Fixpoint lock_inputs (now : Clock) (t : Hash256) (ins : list TxInput) (m : UTXOStateManager S)
    : UTXOStateManager S * result UtxoError () :=
  match ins with
  | [] => (m, Ok tt)
  | i :: ins =>
      match lock_utxo (c_unix now) m (previous_output i) t with
      | (m, Ok _) => lock_inputs now t ins m
      | (m, Err err) => (m, Err err)
      end
  end.

Definition lock_and_validate_transaction (now : Clock) (tx : Transaction) e : ConsensusEngine * result engine_error Z :=
  let t := txid tx in
  match lock_inputs now t (inputs tx) (utxo_manager e) with
  | (m, Err err) => (set_utxo m e, Err (EngLock err))
  | (m, Ok _) =>
      match validate_locks now tx t (set_utxo m e) with
      | (e, Err err) =>
          (set_utxo (foldl (λ m i, update_state m (previous_output i) Unspent) (utxo_manager e) (inputs tx)) e,
           Err (EngTx err))
      | (e, Ok fee) =>
          (foldl (λ e i, broadcast (MsgUTXOStateUpdate (previous_output i) (Locked t (c_unix now))) e) e (inputs tx),
           Ok fee)
      end
  end.

(** Only the inputs still locked by the transaction. *)
Definition unlock_input (t : Hash256) (m : UTXOStateManager S) (i : TxInput) : UTXOStateManager S :=
  match get_state m (previous_output i) with
  | Some (Locked locked _) => if bool_decide (locked = t) then update_state m (previous_output i) Unspent else m
  | _ => m
  end.
Definition unlock_transaction_inputs (tx : Transaction) (t : Hash256) e : ConsensusEngine :=
  set_utxo (foldl (unlock_input t) (utxo_manager e) (inputs tx)) e.

Definition reject_failed_voting_transaction (now : Clock) (t : Hash256) (reason : string) e : ConsensusEngine :=
  let tx := get_pending (tx_pool e) t in
  let e := set_pool (reject_transaction (c_instant now) (tx_pool e) t reason) e in
  let e := match tx with Some tx => unlock_transaction_inputs tx t e | None => e end in
  transition_to_rejected now t reason e.

(** ** Finalization of a transaction *)

Definition output_utxo (t : Hash256) (idx : nat) (o : TxOutput) : UTXO :=
  mkUTXO (mkOutPoint t (as_u32 (Z.of_nat idx))) (out_value o) (out_script_pubkey o)
    (default ""%string (from_utf8 (out_script_pubkey o))) None.
Fixpoint create_outputs (t : Hash256) (idx : nat) (outs : list TxOutput) (m : UTXOStateManager S) : UTXOStateManager S :=
  match outs with
  | [] => m
  | o :: outs =>
      let u := output_utxo t idx o in
      create_outputs t (Datatypes.S idx) outs (update_state (add_utxo m u).1 (outpoint u) Unspent)
  end.
Definition spend_inputs (now : Clock) (t : Hash256) (ins : list TxInput) (m : UTXOStateManager S) : UTXOStateManager S :=
  foldl (λ m i, mark_timevote_finalized (c_unix now) m (previous_output i) t) m ins.
Definition apply_finalized (now : Clock) (t : Hash256) (tx : Transaction) (m : UTXOStateManager S) : UTXOStateManager S :=
  create_outputs t 0 (outputs tx) (spend_inputs now t (inputs tx) m).

Definition mark_finalized (now : Clock) (t : Hash256) (weight : Z) e : ConsensusEngine :=
  let c := timevote e in
  let c := set_tvc_finalized (<[t := (PrefAccept, c_instant now)]> (tvc_finalized c)) c in
  let e := set_timevote (set_status_map (<[t := Finalized (c_millis now) weight]> (tx_status c)) c) e in
  signal_tx_finalized t e.

Definition auto_finalize (now : Clock) (tx : Transaction) (t : Hash256) e : ConsensusEngine :=
  let e := set_pool (confirm_transaction (tx_pool e) t).1 e in
  let e := if is_finalized (tx_pool e) t then
             broadcast (MsgTransactionFinalized t tx) (set_utxo (apply_finalized now t tx (utxo_manager e)) e)
           else e in
  mark_finalized now t 0 e.

(** ** [process_transaction] *)

Definition special_ok (tx : Transaction) : bool :=
  match special_data tx with
  | Some sd => is_ok (validate_fields sd) && is_ok (verify_signature sd) && is_ok (verify_address_binding sd)
  | None => false
  end.
Definition check_structure (tx : Transaction) : result engine_error () :=
  match inputs tx, outputs tx with
  | [], [] => fail_if negb (special_ok tx) with GhostRejected in Ok tt
  | ins, outs =>
      fail_if bool_decide (ins = []) && negb (is_special tx) with TxNoInputs in
      fail_if bool_decide (outs = []) && negb (is_special tx) with TxNoOutputs in
      Ok tt
  end.

Definition stored_sum (m : UTXOStateManager S) (ins : list TxInput) : Z :=
  foldl (λ sum i, match get_utxo m (previous_output i) with Ok u => add64 sum (value u) | Err _ => sum end) 0 ins.
Definition process_fee e (tx : Transaction) (validated_fee : option Z) : Z :=
  match validated_fee with
  | Some f => f
  | None =>
      let input_sum := stored_sum (utxo_manager e) (inputs tx) in
      let computed := sat_sub input_sum (sum64 (out_value <$> outputs tx)) in
      if (computed =? 0) && (input_sum =? 0) && negb (bool_decide (inputs tx = []))
      then default 0 (get_fee (tx_pool e) (txid tx)) else computed
  end.

(** The tests made before the transaction reaches the pool. *)
Definition process_checks (mns : list MasternodeInfo) (tx : Transaction) e : result engine_error () :=
  fail_if bool_decide (mns = []) with NoMasternodes in
  let? u := check_structure tx in
  let has_inputs := negb (bool_decide (inputs tx = [])) in
  fail_if has_inputs && (version tx <? 2) with VersionOneRejected in
  fail_if has_inputs && inputs_already_spent_by_other (utxo_manager e) (inputs tx) (txid tx) with InputSpentByOther in
  fail_if MAX_MEMPOOL_TRANSACTIONS <=? pending_count (tx_pool e) with MempoolFull in
  Ok tt.

(** Contested: the vote starts.  The monitoring task is [vote_tick] below. *)
Definition start_vote (now : Clock) (mns : list MasternodeInfo) (tx : Transaction) (t : Hash256) e : ConsensusEngine :=
  let c := timevote e in
  let e := set_timevote (set_tx_state (<[t := voting_new PrefAccept]> (tx_state c)) c) e in
  let e := broadcast (MsgTimeVoteRequest t (calculate_tx_commitment tx) (unix_slot now) (Some tx)) e in
  transition_to_voting now mns t e.

Inductive outcome := AutoFinalized | VoteStarted.

Definition process_transaction (now : Clock) (mns : list MasternodeInfo) (tx : Transaction) (validated_fee : option Z) e
    : ConsensusEngine * result engine_error outcome :=
  let t := txid tx in
  match process_checks mns tx e with
  | Err err => (e, Err err)
  | Ok _ =>
      match add_pending (c_instant now) (tx_pool e) tx (process_fee e tx validated_fee) with
      | (p, Err err) => (set_pool p e, Err (EngPool err))
      | (p, Ok _) =>
          let e := set_pool p e in
          if has_double_spend_conflict (tx_pool e) (utxo_manager e) (inputs tx) t
          then (start_vote now mns tx t e, Ok VoteStarted)
          else (auto_finalize now tx t e, Ok AutoFinalized)
      end
  end.

Definition submit_transaction (now : Clock) (mns : list MasternodeInfo) (tx : Transaction) e
    : ConsensusEngine * result engine_error Hash256 :=
  let t := txid tx in
  if negb (broadcast_callback e) then (e, Err NoBroadcastCallback)
  else
    match lock_and_validate_transaction now tx e with
    | (e, Err err) => (unlock_transaction_inputs tx t e, Err err)
    | (e, Ok fee) =>
        match process_transaction now mns tx (Some fee) (broadcast (MsgTransactionBroadcast tx) e) with
        | (e, Err err) => (unlock_transaction_inputs tx t e, Err err)
        | (e, Ok _) => (e, Ok t)
        end
    end.

(** ** The monitor of a vote *)

(** [(threshold, floor)] of a vote. *)
Definition vote_finality_threshold (total_weight elapsed_secs : Z) : Z * Z :=
  let q := if 30 <=? elapsed_secs then 51 else 67 in
  let threshold := div_ceil (mul64 total_weight q) 100 in
  (threshold, div_ceil threshold 4).

Definition INITIAL_DEADLINE : Z := 5 * NANOS.
Definition MAX_DEADLINE : Z := 15 * NANOS.
Record Monitor := mkMonitor { mon_txid : Hash256; mon_start : Z; mon_deadline : Z }.

(** A vote that met its quorum. *)
Definition finalize_voted (now : Clock) (t : Hash256) (weight : Z) e : ConsensusEngine :=
  let tx := get_pending (tx_pool e) t in
  let e := set_pool (confirm_transaction (tx_pool e) t).1 e in
  let e :=
    if is_finalized (tx_pool e) t then
      let e := match tx with Some tx => set_utxo (apply_finalized now t tx (utxo_manager e)) e | None => e end in
      let e := match assemble_timeproof (timevote e) t with
               | Ok p => broadcast (MsgTimeProof p) (set_proofs (store_timeproof (finality_proof_mgr e) p) e)
               | Err _ => e
               end in
      match tx with Some tx => broadcast (MsgTransactionFinalized t tx) e | None => e end
    else e in
  mark_finalized now t weight e.

Inductive tick_result := TickWait (mon : Monitor) | TickDone.

(** One round of the loop that watches a vote. *)
Definition vote_tick (now : Clock) (mns : list MasternodeInfo) (mon : Monitor) e : ConsensusEngine * tick_result :=
  let t := mon_txid mon in
  let elapsed := sat_sub (c_instant now) (mon_start mon) in
  if bool_decide (is_Some (tvc_finalized (timevote e) !! t)) then (e, TickDone)
  else if is_finalized (tx_pool e) t then (e, TickDone)
  else if negb (is_transaction_still_valid e t) then (e, TickDone)
  else if elapsed <? mon_deadline mon then (e, TickWait mon)
  else
    let weight := get_accumulated_weight (timevote e) t in
    let pref := match tx_state (timevote e) !! t with Some v => preference v | None => PrefAccept end in
    let '(threshold, floor) := vote_finality_threshold (avs_weight mns) (elapsed / NANOS) in
    if (weight <? floor) && (mon_deadline mon <? MAX_DEADLINE)
    then (e, TickWait (mkMonitor t (mon_start mon) (mon_deadline mon + 5 * NANOS)))
    else match pref with
         | PrefReject => (reject_failed_voting_transaction now t "TimeVote rejected by validators" e, TickDone)
         | PrefAccept =>
             if weight <? threshold
             then (reject_failed_voting_transaction now t "TimeVote quorum not reached" e, TickDone)
             else (finalize_voted now t weight e, TickDone)
         end.
(** After the loop the voting state is dropped. *)
Definition end_vote (t : Hash256) e : ConsensusEngine :=
  set_timevote (set_tx_state (delete t (tx_state (timevote e))) (timevote e)) e.
End engine.
#[global] Arguments ConsensusEngine S {_}.
