(* ===== verification/ConsensusProofs.v ===== *)
(** * The consensus engine: proofs (src/consensus.rs) *)

From Stdlib Require Import ZArith Lia Ascii String.
From stdpp Require Import base gmap strings list.
From S2P Require Import Prelude Types Instances Address Finality Storage UtxoManager TransactionPool BlockVotes.
From S2P Require Import BlockTypes TimeVoteEngine Utf8 AiValidator BlockVrf TxValidation TxProofs PoolProofs Consensus.

Section proofs.
Context {S : Type} `{UtxoStorage S} `{MapIter} `{Externals} `{BlockExternals} `{TxExternals} `{PoolCodec} `{VrfExternals}.
Implicit Types (e : ConsensusEngine S) (m : UTXOStateManager S).

(** ** States of inputs *)

Lemma update_state_get m o s o' : get_state (update_state m o s) o' = if bool_decide (o = o') then Some s else get_state m o'.
Proof. unfold get_state, update_state. cbn. rewrite lookup_insert. case_bool_decide; by case_decide. Qed.

Lemma record_spent_states m o : utxo_states (record_spent m o) = utxo_states m.
Proof. done. Qed.
Lemma unindex_states o m : utxo_states (unindex o m) = utxo_states m.
Proof.
  unfold unindex, remove_from_address_index. destruct (st_get_utxo _ _); [|done].
  destruct (address_index m !! _); [|done]. by case_bool_decide.
Qed.

Lemma mark_finalized_get now m o t o' :
  get_state (mark_timevote_finalized now m o t) o' =
  if bool_decide (o = o') then
    (if refuses_finalization m o t then get_state m o' else Some (SpentFinalized t now 0))
  else get_state m o'.
Proof.
  unfold mark_timevote_finalized. destruct (refuses_finalization m o t); [by case_bool_decide|].
  unfold get_state, set_states. rewrite record_spent_states. cbn.
  destruct (st_remove_utxo _ _); cbn; rewrite unindex_states, lookup_insert; case_bool_decide; by case_decide.
Qed.

(** An input that [t] may spend: not held by another transaction, and not gone. *)
Definition spendable_by m (t : Hash256) (o : OutPoint) : Prop :=
  held_by_other m t o = false ∧ spent_by_other m t o = false.

Lemma spendable_marks now m o t : spendable_by m t o →
  ∃ at_ v, get_state (mark_timevote_finalized now m o t) o = Some (SpentFinalized t at_ v).
Proof.
  intros [Hh Hs]. rewrite mark_finalized_get, bool_decide_eq_true_2 by done.
  unfold refuses_finalization, held_by_other, spent_by_other in *.
  destruct (get_state m o) as [[|t'|t'|t'|t']|] eqn:E; cbn [spending_txid] in Hh; [eauto|..];
    try (apply bool_decide_eq_false, dec_stable in Hh as ->);
    try (rewrite (bool_decide_eq_false_2 (t ≠ t)) by (by intros [])); eauto.
  cbn in Hs. rewrite andb_true_r in Hs. rewrite Hs. eauto.
Qed.
Lemma mark_keeps_mine now m o t o' at_ v :
  get_state m o' = Some (SpentFinalized t at_ v) →
  get_state (mark_timevote_finalized now m o t) o' = Some (SpentFinalized t at_ v).
Proof.
  intros E. rewrite mark_finalized_get. case_bool_decide as Eo; [subst|done].
  unfold refuses_finalization. by rewrite E.
Qed.

Definition finalized_by m (t : Hash256) (o : OutPoint) : Prop :=
  ∃ at_ v, get_state m o = Some (SpentFinalized t at_ v).

Lemma mark_tombstones now m o t o' :
  o' ∈ spent_tombstones (mark_timevote_finalized now m o t) → o' ∈ spent_tombstones m ∨ o' = o.
Proof.
  unfold mark_timevote_finalized. destruct (refuses_finalization m o t); [by left|].
  assert (∀ m', spent_tombstones (unindex o m') = spent_tombstones m') as Hu.
  { intros m'. unfold unindex, remove_from_address_index. destruct (st_get_utxo _ _); [|done].
    destruct (address_index m' !! _); [|done]. by case_bool_decide. }
  destruct (st_remove_utxo _ _); cbn; rewrite Hu; set_solver.
Qed.

(** Marking one input leaves the others spendable, or finalized. *)
Lemma mark_keeps_spendable now m o t o' : o' ≠ o → spendable_by m t o' →
  spendable_by (mark_timevote_finalized now m o t) t o'.
Proof.
  intros Hne [Hh Hs]. unfold spendable_by, held_by_other, spent_by_other in *.
  rewrite !mark_finalized_get, bool_decide_eq_false_2 by congruence. split; [done|].
  apply orb_false_iff in Hs as [-> Hs]. cbn. unfold is_tombstoned in *.
  destruct (bool_decide (o' ∈ spent_tombstones (mark_timevote_finalized now m o t))) eqn:Et; [|done].
  apply bool_decide_eq_true in Et. apply mark_tombstones in Et as [Et|Et]; [|done].
  by rewrite (bool_decide_eq_true_2 _ Et) in Hs.
Qed.

Lemma spend_inputs_finalized now t ins m :
  (∀ i, i ∈ ins → spendable_by m t (previous_output i) ∨ finalized_by m t (previous_output i)) →
  ∀ i, i ∈ ins → finalized_by (spend_inputs now t ins m) t (previous_output i).
Proof.
  unfold spend_inputs. assert (∀ l m o, finalized_by m t o →
    finalized_by (foldl (λ m i, mark_timevote_finalized (c_unix now) m (previous_output i) t) m l) t o) as Hkeep.
  { induction l as [|j l IH]; intros m' o Hf; [done|]. cbn. apply IH. destruct Hf as (a & v & Hf).
    exists a, v. by apply mark_keeps_mine. }
  revert m. induction ins as [|j ins IH]; intros m Hall i Hi; [by apply elem_of_nil in Hi|]. cbn [foldl].
  assert (finalized_by (mark_timevote_finalized (c_unix now) m (previous_output j) t) t (previous_output j)) as Hj.
  { destruct (Hall j (list_elem_of_here _ _)) as [Hs|(a & v & Hf)]; [by apply spendable_marks|].
    exists a, v. by apply mark_keeps_mine. }
  destruct (decide (i ∈ ins)) as [Hin|Hn].
  - apply IH; [|done]. intros k Hk. destruct (decide (previous_output k = previous_output j)) as [->|Hne]; [by right|].
    destruct (Hall k) as [Hs|(a & v & Hf)]; [by apply elem_of_cons; right| |].
    + left. by apply mark_keeps_spendable.
    + right. exists a, v. by apply mark_keeps_mine.
  - apply elem_of_cons in Hi as [->|?]; [|done]. by apply Hkeep.
Qed.

Lemma add_utxo_other m u o : outpoint u ≠ o → get_state (add_utxo m u).1 o = get_state m o.
Proof.
  intros Hne. unfold add_utxo, get_state. case_bool_decide; [done|].
  destruct (utxo_states m !! outpoint u) as [[| | | |]|]; try done.
  destruct (st_add_utxo _ _); cbn; [|done]. by rewrite lookup_insert_ne.
Qed.
Lemma create_outputs_other t idx outs m o : op_txid o ≠ t → get_state (create_outputs t idx outs m) o = get_state m o.
Proof.
  intros Hne. revert idx m. induction outs as [|x outs IH]; intros idx m; [done|]. cbn [create_outputs].
  assert (outpoint (output_utxo t idx x) ≠ o) as Hu by (intros <-; by apply Hne).
  rewrite IH, update_state_get, bool_decide_eq_false_2 by done. by apply add_utxo_other.
Qed.
Lemma create_outputs_unspent t idx outs m k : (Z.of_nat (idx + length outs) < U32)%Z → (idx ≤ k < idx + length outs)%nat →
  get_state (create_outputs t idx outs m) (mkOutPoint t (Z.of_nat k)) = Some Unspent.
Proof.
  revert idx m. induction outs as [|x outs IH]; intros idx m Hb Hk; [cbn in *; lia|]. cbn [create_outputs length] in *.
  destruct (decide (k = idx)) as [->|Hne]; [|apply IH; [|lia]; lia].
  clear IH Hk. assert (∀ l j m', (idx < j)%nat → (Z.of_nat (j + length l) < U32)%Z →
    get_state (create_outputs t j l m') (mkOutPoint t (Z.of_nat idx)) = get_state m' (mkOutPoint t (Z.of_nat idx))) as Hoth.
  { induction l as [|y l IHl]; intros j m' Hj Hb'; [done|]. cbn [create_outputs length] in *.
    assert (outpoint (output_utxo t j y) ≠ mkOutPoint t (Z.of_nat idx)) as Hu.
    { cbn. unfold as_u32. rewrite Z.mod_small by lia. intros [= ?]. lia. }
    rewrite IHl, update_state_get, bool_decide_eq_false_2 by (done || lia). by apply add_utxo_other. }
  rewrite Hoth by lia. rewrite update_state_get, bool_decide_eq_true_2; [done|].
  cbn. unfold as_u32. by rewrite Z.mod_small by lia.
Qed.

(** ** Processing *)

Lemma sled_persist_maps p t tx fee fin :
  pending (sled_persist p t tx fee fin) = pending p ∧ confirmed (sled_persist p t tx fee fin) = confirmed p.
Proof. unfold sled_persist. repeat case_match; done. Qed.
Lemma sled_remove_maps p t : pending (sled_remove p t) = pending p ∧ confirmed (sled_remove p t) = confirmed p.
Proof. unfold sled_remove. by case_match. Qed.

(** What is added is pending, and not banned. *)
Lemma add_pending_ok now p tx fee p' :
  add_pending now p tx fee = (p', Ok tt) → is_banned (txid tx) = false ∧ ∃ pe, pending p' !! txid tx = Some pe ∧ pe_tx pe = tx.
Proof.
  unfold add_pending, add_pending_with_submitter. destruct (is_banned (txid tx)); [done|]. intros E. split; [done|].
  assert (∀ q pe, pending (insert_pending q (txid tx) pe) !! txid tx = Some pe) as Hin.
  { intros q pe. unfold insert_pending. cbn. by rewrite lookup_insert_eq. }
  split_matches_in E; eexists; (split; [apply Hin|done]).
Qed.

Lemma confirm_pending p t pe : is_banned t = false → pending p !! t = Some pe →
  is_finalized (confirm_transaction p t).1 t = true.
Proof.
  intros Hb Hp. unfold confirm_transaction, take_pending. rewrite Hb, Hp. cbn.
  unfold is_finalized, contains. cbn. apply bool_decide_eq_true. rewrite lookup_insert_eq. by eexists.
Qed.

Lemma existsb_false {A} (f : A → bool) l : existsb f l = false ↔ ∀ x, x ∈ l → f x = false.
Proof.
  rewrite <- not_true_iff_false, existsb_exists. split.
  - intros Hn x Hx. apply not_true_iff_false. intros Hf. apply Hn. exists x. split; [by apply list_elem_of_In|done].
  - intros Hall (x & Hx & Hf). rewrite Hall in Hf; [done|]. by apply list_elem_of_In.
Qed.

(** The success of [process_transaction], by cases. *)
Lemma process_inv now mns tx fee e e' r :
  process_transaction now mns tx fee e = (e', Ok r) →
  process_checks mns tx e = Ok tt ∧ ∃ p, add_pending (c_instant now) (tx_pool e) tx (process_fee e tx fee) = (p, Ok tt)
  ∧ match r with
    | AutoFinalized => has_double_spend_conflict p (utxo_manager e) (inputs tx) (txid tx) = false
                       ∧ e' = auto_finalize now tx (txid tx) (set_pool p e)
    | VoteStarted => has_double_spend_conflict p (utxo_manager e) (inputs tx) (txid tx) = true
                     ∧ e' = start_vote now mns tx (txid tx) (set_pool p e)
    end.
Proof.
  unfold process_transaction. destruct (process_checks mns tx e) as [[]|]; [|done].
  destruct (add_pending _ _ _ _) as [p [[]|err]]; [|done]. cbn [set_pool tx_pool utxo_manager].
  destruct (has_double_spend_conflict _ _ _ _) eqn:Ec; intros [= <- <-]; eauto.
Qed.

Lemma process_spent_check mns tx e :
  process_checks mns tx e = Ok tt → inputs tx ≠ [] →
  inputs_already_spent_by_other (utxo_manager e) (inputs tx) (txid tx) = false.
Proof.
  unfold process_checks. cbv zeta. rewrite fail_ok_iff, let_ok_iff, !fail_ok_iff, !andb_false_iff.
  rewrite !negb_false_iff, !bool_decide_eq_true. tauto.
Qed.

Lemma process_spendable now mns tx fee e e' :
  process_transaction now mns tx fee e = (e', Ok AutoFinalized) →
  ∀ i, i ∈ inputs tx → spendable_by (utxo_manager e) (txid tx) (previous_output i).
Proof.
  intros (Hc & p & _ & Hd & _)%process_inv i Hi.
  apply orb_false_iff in Hd as [_ Hd]. split; [by eapply (proj1 (existsb_false _ _) Hd)|].
  assert (inputs_already_spent_by_other (utxo_manager e) (inputs tx) (txid tx) = false) as Hs.
  { eapply process_spent_check; [done|]. intros E. rewrite E in Hi. by apply elem_of_nil in Hi. }
  by eapply (proj1 (existsb_false _ _) Hs).
Qed.

Lemma auto_finalized_inputs now mns tx fee e e' :
  process_transaction now mns tx fee e = (e', Ok AutoFinalized) →
  (∀ i, i ∈ inputs tx → op_txid (previous_output i) ≠ txid tx) →
  ∀ i, i ∈ inputs tx → finalized_by (utxo_manager e') (txid tx) (previous_output i).
Proof.
  intros Hp Hself i Hi. pose proof (process_spendable _ _ _ _ _ _ Hp) as Hs.
  apply process_inv in Hp as (_ & p & (Hb & pe & Hpe & _)%add_pending_ok & _ & ->).
  unfold auto_finalize, mark_finalized. cbn [tx_pool set_pool utxo_manager].
  rewrite (confirm_pending p (txid tx) pe) by done. cbn.
  unfold finalized_by, apply_finalized. setoid_rewrite create_outputs_other; [|by apply Hself].
  apply spend_inputs_finalized; [|done]. intros j Hj. left. by apply Hs.
Qed.

(** What finalization without a vote does: the transaction had no conflict in the pool, it
    moves to the finalized pool, every input becomes spent by it, every output becomes
    unspent, its status is Finalized and it is announced to subscribers and to the network
    once. *)
Theorem auto_finalized_spec now mns tx fee e e' :
  process_transaction now mns tx fee e = (e', Ok AutoFinalized) →
  (∀ i, i ∈ inputs tx → op_txid (previous_output i) ≠ txid tx) → Z.of_nat (length (outputs tx)) < U32 →
  is_finalized (tx_pool e') (txid tx) = true
  ∧ has_conflicting_transaction (add_pending (c_instant now) (tx_pool e) tx (process_fee e tx fee)).1 (inputs tx) (txid tx) = false
  ∧ (∀ i, i ∈ inputs tx → finalized_by (utxo_manager e') (txid tx) (previous_output i))
  ∧ (∀ k, (k < length (outputs tx))%nat → get_state (utxo_manager e') (mkOutPoint (txid tx) (Z.of_nat k)) = Some Unspent)
  ∧ get_tx_status e' (txid tx) = Some (Finalized (c_millis now) 0)
  ∧ finalized_signals e' = finalized_signals e ++ [txid tx]
  ∧ outbox e' = (if broadcast_callback e then outbox e ++ [MsgTransactionFinalized (txid tx) tx] else outbox e).
Proof.
  intros Hp Hself Hlen. pose proof (auto_finalized_inputs _ _ _ _ _ _ Hp Hself) as Hin.
  apply process_inv in Hp as (_ & p & Ha & Hd & He).
  pose proof (add_pending_ok _ _ _ _ _ Ha) as (Hb & pe & Hpe & _). rewrite Ha. cbn [fst].
  apply orb_false_iff in Hd as [Hd _]. subst e'. pose proof (confirm_pending p (txid tx) pe Hb Hpe) as Hf.
  unfold auto_finalize in *. cbn [tx_pool set_pool utxo_manager] in *. rewrite Hf in *.
  split; [done|]. split; [done|]. split; [done|]. split; [|split; [|done]].
  - intros k Hk. cbn. apply create_outputs_unspent; [done|lia].
  - unfold get_tx_status. cbn. by rewrite lookup_insert_eq.
Qed.

(** C4: Double spends are refused: once a transaction has been finalized without a vote,
    processing any other transaction that spends one of the same outputs fails and leaves
    the engine unchanged, as long as the states of those outputs are kept. *)
Theorem double_spend_excluded now mns txa fee e e1 now2 mns2 txb fee2 e2 :
  process_transaction now mns txa fee e = (e1, Ok AutoFinalized) →
  (∀ i, i ∈ inputs txa → op_txid (previous_output i) ≠ txid txa) →
  (∀ i, i ∈ inputs txa → get_state (utxo_manager e2) (previous_output i) = get_state (utxo_manager e1) (previous_output i)) →
  txid txb ≠ txid txa → (∃ i j, i ∈ inputs txa ∧ j ∈ inputs txb ∧ previous_output i = previous_output j) →
  ∃ err, process_transaction now2 mns2 txb fee2 e2 = (e2, Err err).
Proof.
  intros Hp Hself Hsame Hne (i & j & Hi & Hj & Eo).
  destruct (auto_finalized_inputs _ _ _ _ _ _ Hp Hself i Hi) as (a & v & Hf). rewrite <- Hsame, Eo in Hf by done.
  unfold process_transaction. destruct (process_checks mns2 txb e2) as [[]|err] eqn:Ec; [exfalso|by exists err].
  apply process_spent_check in Ec; [|intros E; rewrite E in Hj; by apply elem_of_nil in Hj].
  pose proof (proj1 (existsb_false _ _) Ec j Hj) as Hs. unfold spent_by_other in Hs. rewrite Hf in Hs.
  apply orb_false_iff in Hs as [Hs _]. by apply bool_decide_eq_false, dec_stable in Hs.
Qed.

(** ** Failed submissions *)

Lemma unlock_input_get t m i o :
  get_state (unlock_input t m i) o =
  (if bool_decide (previous_output i = o) then
     match get_state m o with
     | Some (Locked l a) => if bool_decide (l = t) then Some Unspent else Some (Locked l a)
     | s => s
     end
   else get_state m o).
Proof.
  unfold unlock_input. case_bool_decide as Eo; [subst|].
  - destruct (get_state m (previous_output i)) as [[|l a| | |]|] eqn:E; rewrite ?E; try done.
    case_bool_decide; [|by rewrite E]. by rewrite update_state_get, bool_decide_eq_true_2.
  - destruct (get_state m (previous_output i)) as [[|l a| | |]|]; try done. case_bool_decide; [|done].
    by rewrite update_state_get, bool_decide_eq_false_2.
Qed.

Lemma unlock_releases t ins m :
  (∀ o a, get_state (foldl (unlock_input t) m ins) o = Some (Locked t a) → get_state m o = Some (Locked t a))
  ∧ ∀ i a, i ∈ ins → get_state (foldl (unlock_input t) m ins) (previous_output i) ≠ Some (Locked t a).
Proof.
  assert (∀ m i o a, get_state (unlock_input t m i) o = Some (Locked t a) → get_state m o = Some (Locked t a) ∧ previous_output i ≠ o) as Hone.
  { intros m' i o a. rewrite unlock_input_get. case_bool_decide as Eo; [|done].
    destruct (get_state m' o) as [[|l b| | |]|]; try done. case_bool_decide; [done|]. intros [= -> ->]. done. }
  revert m. induction ins as [|j ins IH]; intros m; [split; [done|by intros i a ?%elem_of_nil]|]. cbn [foldl].
  destruct (IH (unlock_input t m j)) as [IH1 IH2]. split.
  - intros o a Ho%IH1. by apply Hone in Ho as [? _].
  - intros i a Hi Ho. destruct (decide (i ∈ ins)) as [Hin|Hn]; [by apply (IH2 i a Hin)|].
    apply elem_of_cons in Hi as [->|?]; [|done]. apply IH1, Hone in Ho as [_ Hne]. done.
Qed.

(** C29: A submission that fails leaves no input locked by its transaction, whichever step
    failed, unless it failed before anything was touched. *)
Theorem failed_submission_releases now mns tx e e' err :
  submit_transaction now mns tx e = (e', Err err) →
  err = NoBroadcastCallback ∧ e' = e
  ∨ ∀ i a, i ∈ inputs tx → get_state (utxo_manager e') (previous_output i) ≠ Some (Locked (txid tx) a).
Proof.
  unfold submit_transaction. destruct (broadcast_callback e); cbn [negb]; [|intros [= <- <-]; by left].
  destruct (lock_and_validate_transaction now tx e) as [e1 [fee|er]].
  - destruct (process_transaction _ _ _ _ _) as [e2 [o|er]]; [done|]. intros [= <- <-]. right. intros i a Hi.
    by apply (unlock_releases (txid tx) (inputs tx)).
  - intros [= <- <-]. right. intros i a Hi. by apply (unlock_releases (txid tx) (inputs tx)).
Qed.

(** ** Votes *)

Definition monitor_new (t : Hash256) (start : Z) : Monitor := mkMonitor t start INITIAL_DEADLINE.
(** The deadlines a monitor goes through. *)
Definition monitor_ok (mon : Monitor) : Prop :=
  mon_deadline mon = 5 * NANOS ∨ mon_deadline mon = 10 * NANOS ∨ mon_deadline mon = 15 * NANOS.

Lemma vote_tick_wait now mns mon e e' mon' :
  vote_tick now mns mon e = (e', TickWait mon') →
  e' = e ∧ (mon' = mon ∧ sat_sub (c_instant now) (mon_start mon) < mon_deadline mon
            ∨ mon' = mkMonitor (mon_txid mon) (mon_start mon) (mon_deadline mon + 5 * NANOS) ∧ mon_deadline mon < MAX_DEADLINE).
Proof.
  unfold vote_tick. destruct (bool_decide _); [done|]. destruct (is_finalized _ _); [done|].
  destruct (negb _); [done|].
  destruct (Z.ltb_spec (sat_sub (c_instant now) (mon_start mon)) (mon_deadline mon)); [intros [= <- <-]; auto|].
  destruct (vote_finality_threshold _ _) as [th fl].
  destruct ((_ <? fl) && _) eqn:Ef.
  - intros [= <- <-]. apply andb_prop in Ef as [_ ?%Z.ltb_lt]. auto.
  - destruct (match tx_state _ !! _ with Some v => preference v | None => _ end); [|done]. by destruct (_ <? th).
Qed.

(** Successive rounds of a monitor, each on the engine and at the time it finds. *)
Fixpoint watch (mon : Monitor) (obs : list (Clock * list MasternodeInfo * ConsensusEngine S)) : bool :=
  match obs with
  | [] => false
  | (now, mns, e) :: obs =>
      match (vote_tick now mns mon e).2 with TickDone => true | TickWait mon => watch mon obs end
  end.

(** C28: Every vote ends: whatever the engine looks like at each round, a monitor that is
    polled three times after its longest deadline of 15 seconds has stopped. *)
Theorem vote_terminates mon obs :
  monitor_ok mon → (3 ≤ length obs)%nat →
  Forall (λ o, MAX_DEADLINE ≤ sat_sub (c_instant o.1.1) (mon_start mon)) obs → watch mon obs = true.
Proof.
  intros Hok Hlen Hobs.
  assert (∀ n mon' obs, mon_start mon' = mon_start mon → mon_deadline mon' = (15 - 5 * Z.of_nat n) * NANOS →
    (n < length obs)%nat → Forall (λ o, MAX_DEADLINE ≤ sat_sub (c_instant o.1.1) (mon_start mon)) obs → watch mon' obs = true) as Hw.
  { clear. induction n as [|n IH]; intros mon' obs Es Ed Hl Ho; (destruct obs as [|[[now mns] e] obs]; [cbn in Hl; lia|]);
      apply Forall_cons in Ho as [Ho Hos]; cbn [watch];
      destruct (vote_tick now mns mon' e) as [e' [mon2|]] eqn:E; [|done| |done]; cbn [snd];
      apply vote_tick_wait in E as (_ & [[_ Hd]|[-> Hd]]); cbn in Ho; rewrite ?Es in *; unfold MAX_DEADLINE, NANOS in *; try lia.
    apply IH; [done|cbn; unfold NANOS; lia|cbn in Hl; lia|done]. }
  destruct Hok as [E|[E|E]]; [apply (Hw 2%nat)|apply (Hw 1%nat)|apply (Hw 0%nat)]; try done; try lia; rewrite E; unfold NANOS; lia.
Qed.

Lemma reject_keeps_confirmed now t reason e :
  confirmed (tx_pool (reject_failed_voting_transaction now t reason e)) = confirmed (tx_pool e).
Proof.
  unfold reject_failed_voting_transaction, transition_to_rejected, clear_fallback, stop_stall_timer, set_tx_status.
  cbn. destruct (get_pending (tx_pool e) t); cbn;
    rewrite (proj2 (sled_remove_maps _ _)); unfold take_pending; by case_match.
Qed.

Lemma threshold_percent total el : 0 ≤ total → total * 67 < U64 →
  (if 30 <=? el then 51 else 67) * total ≤ 100 * (vote_finality_threshold total el).1.
Proof.
  intros Hge Ht. unfold vote_finality_threshold. cbn [fst]. set (q := if 30 <=? el then 51 else 67).
  assert (51 ≤ q ≤ 67) by (unfold q; case_match; lia).
  rewrite mul64_small by (unfold U64 in *; nia).
  pose proof (div_ceil_spec (total * q) 100 ltac:(nia) ltac:(lia)). lia.
Qed.

(** C14: A vote that finalizes its transaction has reached its deadline with at least 67% of
    the weight of the active masternodes accumulated (51% after 30 seconds) and no
    preference to reject. *)
Theorem vote_finalizes_with_quorum now mns mon e e' :
  vote_tick now mns mon e = (e', TickDone) →
  is_finalized (tx_pool e) (mon_txid mon) = false → is_finalized (tx_pool e') (mon_txid mon) = true →
  0 ≤ avs_weight mns → avs_weight mns * 67 < U64 →
  let elapsed := sat_sub (c_instant now) (mon_start mon) in
  mon_deadline mon ≤ elapsed
  ∧ (if 30 <=? elapsed / NANOS then 51 else 67) * avs_weight mns
      ≤ 100 * get_accumulated_weight (timevote e) (mon_txid mon)
  ∧ (∀ v, tx_state (timevote e) !! mon_txid mon = Some v → preference v = PrefAccept)
  ∧ e' = finalize_voted now (mon_txid mon) (get_accumulated_weight (timevote e) (mon_txid mon)) e.
Proof.
  intros E Hn Hf Hge Ht. cbv zeta. revert E. unfold vote_tick. rewrite Hn.
  destruct (bool_decide _); [intros [= <-]; congruence|].
  destruct (negb _); [intros [= <-]; congruence|].
  destruct (Z.ltb_spec (sat_sub (c_instant now) (mon_start mon)) (mon_deadline mon)) as [|Hd]; [done|].
  pose proof (threshold_percent (avs_weight mns) (sat_sub (c_instant now) (mon_start mon) / NANOS) Hge Ht) as Hth.
  destruct (vote_finality_threshold _ _) as [th fl]. cbn [fst] in Hth. destruct ((_ <? fl) && _); [done|].
  assert (∀ reason, (reject_failed_voting_transaction now (mon_txid mon) reason e, TickDone) = (e', TickDone) → False) as Hrej.
  { intros reason [= <-]. unfold is_finalized, contains in *. rewrite reject_keeps_confirmed in Hf. congruence. }
  destruct (tx_state (timevote e) !! mon_txid mon) as [v|] eqn:Ev; [destruct (preference v) eqn:Ep|];
    try (intros Hx; by apply Hrej in Hx);
    (destruct (Z.ltb_spec (get_accumulated_weight (timevote e) (mon_txid mon)) th); [intros Hx; by apply Hrej in Hx|]);
    intros [= <-]; (split; [done|]); (split; [lia|]); (split; [|done]); intros v' [= <-]; done.
Qed.

(** Rejecting a vote does not give its inputs back: they stay reserved. *)
Lemma unlock_keeps_pending t ins m o n a :
  get_state m o = Some (SpentPending t 0 n a) → get_state (foldl (unlock_input t) m ins) o = Some (SpentPending t 0 n a).
Proof.
  intros Hs. revert m Hs. induction ins as [|i ins IH]; intros m Hs; [done|]. cbn. apply IH.
  rewrite unlock_input_get, Hs. by case_bool_decide.
Qed.
Lemma pend_inputs_get now n t ins m i : i ∈ ins →
  get_state (pend_inputs now n t m ins) (previous_output i) = Some (SpentPending t 0 n (c_unix now)).
Proof.
  unfold pend_inputs.
  assert (∀ l m o, get_state m o = Some (SpentPending t 0 n (c_unix now)) →
    get_state (foldl (λ m i, update_state m (previous_output i) (SpentPending t 0 n (c_unix now))) m l) o
    = Some (SpentPending t 0 n (c_unix now))) as Hk.
  { clear. induction l as [|j l IH]; intros m o Hs; [done|]. cbn. apply IH. rewrite update_state_get. by case_bool_decide. }
  revert m. induction ins as [|j ins IH]; intros m Hi; [by apply elem_of_nil in Hi|].
  destruct (decide (i ∈ ins)) as [Hin|Hn]; [by apply IH|]. apply elem_of_cons in Hi as [->|?]; [|done].
  cbn [foldl]. apply Hk. by rewrite update_state_get, bool_decide_eq_true_2.
Qed.

Theorem rejected_vote_strands_inputs now mns tx e now2 reason :
  get_pending (tx_pool e) (txid tx) = Some tx →
  let e' := reject_failed_voting_transaction now2 (txid tx) reason (transition_to_voting now mns (txid tx) e) in
  ∀ i, i ∈ inputs tx →
    get_state (utxo_manager e') (previous_output i)
      = Some (SpentPending (txid tx) 0 (as_u32 (Z.of_nat (length mns))) (c_unix now))
    ∧ get_pending (tx_pool e') (txid tx) = None
    ∧ ∀ now3 t', (lock_utxo now3 (utxo_manager e') (previous_output i) t').2 ≠ Ok tt.
Proof.
  intros Hp e' i Hi.
  assert (get_state (utxo_manager e') (previous_output i)
          = Some (SpentPending (txid tx) 0 (as_u32 (Z.of_nat (length mns))) (c_unix now))) as Hs.
  { unfold e', reject_failed_voting_transaction, transition_to_voting. cbn [tx_pool start_stall_timer set_tx_status set_timevote set_fallback].
    rewrite Hp. cbn [tx_pool set_utxo start_stall_timer set_tx_status set_timevote set_fallback]. rewrite Hp.
    cbn. apply unlock_keeps_pending. by apply pend_inputs_get. }
  split; [done|]. split.
  - unfold e', reject_failed_voting_transaction, transition_to_voting. cbn [tx_pool start_stall_timer set_tx_status set_timevote set_fallback].
    rewrite Hp. cbn [tx_pool set_utxo start_stall_timer set_tx_status set_timevote set_fallback]. rewrite Hp. cbn.
    unfold get_pending. cbn. rewrite (proj1 (sled_remove_maps _ _)). unfold take_pending. case_match; cbn; [by rewrite lookup_delete_eq|].
    match goal with E : pending _ !! _ = None |- _ => by rewrite E end.
  - intros now3 t'. unfold lock_utxo. destruct (is_collateral_locked _ _); [done|]. unfold get_state in Hs. by rewrite Hs.
Qed.
End proofs.

(** ** A small engine *)

Section engine_samples.
#[local] Existing Instance tagged_externals.
#[local] Existing Instance canonical_iter.
#[local] Existing Instance sample_block_externals.
#[local] Existing Instance sample_tx_externals.
#[local] Existing Instance model_pool_codec.
#[local] Existing Instance model_vrf.

Definition sample_clock (s : Z) : Clock := mkClock (s * NANOS) s (s * 1000).
Definition sample_engine : ConsensusEngine (gmap OutPoint UTXO) :=
  mkEngine sample_manager (new_pool ∅) tvc_new fallback_new (fpm_new 1) None default_fee_schedule
    [] None None true [] [].
Definition sample_mn (addr : string) : MasternodeInfo :=
  mkMasternodeInfo (new_legacy addr "w" 0 [] Bronze 0) "" 0 0 true false 0 0 0 0 (OnChain 0) ∅ None true 0 0 0.
Definition sample_mns : list MasternodeInfo := [sample_mn "a"; sample_mn "b"; sample_mn "c"].
Definition sample_tx : Transaction := sample_spend [1] 290000000.
#[local] Abbreviation sample_run := (process_transaction (sample_clock 10) sample_mns sample_tx None sample_engine).
#[local] Abbreviation sample_final := (fst sample_run).

Lemma pair_result {A B} (r : A * B) b : r.2 = b → r = (r.1, b).
Proof. destruct r as [a b']. cbn. by intros ->. Qed.
Lemma sample_finalizes : sample_run = (sample_final, Ok AutoFinalized).
Proof. apply pair_result. vm_compute. reflexivity. Qed.
Lemma sample_tx_foreign i : i ∈ inputs sample_tx → op_txid (previous_output i) ≠ txid sample_tx.
Proof. intros [->|?%elem_of_nil]%elem_of_cons; [|done]. by vm_compute. Qed.

Lemma auto_finalized_spec_witness : is_finalized (tx_pool sample_final) (txid sample_tx) = true.
Proof. apply (auto_finalized_spec _ _ _ _ _ _ sample_finalizes sample_tx_foreign). by vm_compute. Defined.

Lemma double_spend_excluded_witness :
  ∃ err, process_transaction (sample_clock 20) sample_mns (sample_spend [1] 280000000) None sample_final = (sample_final, Err err).
Proof.
  apply (double_spend_excluded _ _ _ _ _ _ _ _ _ _ _ sample_finalizes sample_tx_foreign).
  - intros i _. reflexivity.
  - by vm_compute.
  - exists (sample_input 1), (sample_input 1). split_and!; [apply list_elem_of_here|apply list_elem_of_here|done].
Defined.

(** An overspending transaction is refused and its input released. *)
Lemma sample_overspends :
  (submit_transaction (sample_clock 5) sample_mns (sample_spend [1] 900000000) sample_engine).2
  = Err (EngTx (FeeTooLow 0)).
Proof. vm_compute. reflexivity. Qed.
Lemma failed_submission_releases_witness :
  get_state (utxo_manager (submit_transaction (sample_clock 5) sample_mns (sample_spend [1] 900000000) sample_engine).1)
    (sample_op 1) ≠ Some (Locked (txid (sample_spend [1] 900000000)) 5).
Proof.
  destruct (failed_submission_releases _ _ _ _ _ _ (pair_result _ _ sample_overspends)) as [[? _]|Hr]; [done|].
  exact (Hr (sample_input 1) 5 (list_elem_of_here _ _)).
Defined.

(** A vote on a pending transaction, with the weight of two of three masternodes. *)
Definition sample_voted (weight : Z) : ConsensusEngine (gmap OutPoint UTXO) :=
  let e := set_pool (add_pending 0 (new_pool ∅) sample_tx 10000000).1 sample_engine in
  let c := timevote e in
  set_timevote (mkTvc (tx_state c) (tvc_finalized c) (avs_snapshots c) (timeproof_votes c)
    {[txid sample_tx := weight]} (tx_status c) (competing_timeproofs c) (timeproof_conflicts c) (txs_finalized c)
    (timeproof_conflicts_detected c)) e.
Definition sample_monitor : Monitor := monitor_new (txid sample_tx) 0.

Lemma vote_terminates_witness :
  watch sample_monitor (replicate 3 (sample_clock 15, sample_mns, sample_voted 0)) = true.
Proof.
  apply vote_terminates; [by left|by vm_compute|]. repeat constructor; by vm_compute.
Defined.

Lemma sample_vote_done : (vote_tick (sample_clock 6) sample_mns sample_monitor (sample_voted 30)).2 = TickDone.
Proof. vm_compute. reflexivity. Qed.
Lemma vote_finalizes_with_quorum_witness :
  67 * avs_weight sample_mns ≤ 100 * get_accumulated_weight (timevote (sample_voted 30)) (txid sample_tx).
Proof.
  apply (vote_finalizes_with_quorum (sample_clock 6) sample_mns sample_monitor (sample_voted 30) _
           (pair_result _ _ sample_vote_done)); by vm_compute.
Defined.
End engine_samples.
