(* ===== verification/Signing.v ===== *)
(** * Signing of transactions (src/consensus.rs)

    The wallet side of the signature checks: [sign_transaction], the derivation of
    child keys and the choice of the key for an address. *)

From Stdlib Require Import ZArith Lia Ascii String.
From stdpp Require Import base gmap strings list.
From S2P Require Import Prelude Types Instances Address Storage UtxoManager TransactionPool BlockTypes Utf8 BlockProofs BlockVrf.
From S2P Require Import TxValidation TxProofs.

Section signing.
Context `{Externals} `{BlockExternals} `{TxExternals} `{VrfExternals}.

(** [tx.inputs[idx].script_sig = sig]. *)
Definition set_script_sig (idx : nat) (sig : bytes) (tx : Transaction) : Transaction :=
  mkTransaction (version tx)
    (alter (λ i, mkTxInput (previous_output i) sig (sequence i)) idx (inputs tx))
    (outputs tx) (lock_time tx) (timestamp tx) (special_data tx) (encrypted_memo tx).
(** The loop over the inputs from [idx], [n] of them left. *)
Fixpoint sign_from (sk : SigningKey) (idx n : nat) (tx : Transaction) : Transaction :=
  match n with
  | O => tx
  | Datatypes.S n =>
      let script := sk_verifying_key sk ++ sk_sign sk (create_signature_message tx idx) in
      sign_from sk (Datatypes.S idx) n (set_script_sig idx script tx)
  end.
Definition sign_inputs (sk : SigningKey) (tx : Transaction) : Transaction := sign_from sk 0 (length (inputs tx)) tx.

(** ** Keys *)

Definition get_wallet_signing_key (wallet node : option SigningKey) : option SigningKey :=
  match wallet with Some k => Some k | None => node end.
Definition sign_transaction (wallet node : option SigningKey) (tx : Transaction) : option Transaction :=
  (λ sk, sign_inputs sk tx) <$> get_wallet_signing_key wallet node.

Definition derive_child_key_at (wallet : option SigningKey) (index : Z) : option SigningKey :=
  master ← wallet;
  Some (sk_from_bytes (take 32 (sha512 (str_bytes "TIMECOIN-KEY-DERIVATION" ++ sk_to_bytes master ++ le_bytes 4 index)))).

Definition key_address (sk : SigningKey) (net : NetworkType) : string :=
  as_string (from_public_key (sk_verifying_key sk) net).

(** The map of derived addresses. *)
Fixpoint preload_from (wallet : option SigningKey) (net : NetworkType) (i : Z) (n : nat) (m : gmap string Z) : gmap string Z :=
  match n with
  | O => m
  | Datatypes.S n =>
      preload_from wallet net (i + 1) n
        (match derive_child_key_at wallet i with Some k => <[key_address k net := i]> m | None => m end)
  end.
Definition preload_derived_addresses (wallet : option SigningKey) (count : nat) (net : NetworkType) (m : gmap string Z) : gmap string Z :=
  preload_from wallet net 0 count m.
Definition list_derived_addresses `{MapIter} (m : gmap string Z) : list (Z * string) :=
  sort_by (λ a b : Z * string, a.1 <=? b.1) ((λ e : string * Z, (e.2, e.1)) <$> iter m).
Definition get_signing_key_for_address (wallet node : option SigningKey) (m : gmap string Z) (addr : string) : option SigningKey :=
  match m !! addr with
  | Some idx => derive_child_key_at wallet idx
  | None => get_wallet_signing_key wallet node
  end.
Definition sign_transaction_for_address (wallet node : option SigningKey) (m : gmap string Z) (addr : string) (tx : Transaction)
    : option Transaction :=
  (λ sk, sign_inputs sk tx) <$> get_signing_key_for_address wallet node m addr.

(** ** Signing does not change what is signed *)

Lemma signing_tx_set idx sig tx : signing_tx (set_script_sig idx sig tx) = signing_tx tx.
Proof.
  unfold signing_tx, set_script_sig. cbn. f_equal. apply list_eq. intros k. rewrite !list_lookup_fmap.
  destruct (decide (k = idx)) as [->|Hne]; [rewrite list_lookup_alter_eq|by rewrite list_lookup_alter_ne].
  by destruct (inputs tx !! idx).
Qed.
Lemma message_set idx sig tx j : create_signature_message (set_script_sig idx sig tx) j = create_signature_message tx j.
Proof. unfold create_signature_message. by rewrite signing_tx_set. Qed.

Lemma sign_from_spec sk idx n tx :
  outputs (sign_from sk idx n tx) = outputs tx ∧ signing_tx (sign_from sk idx n tx) = signing_tx tx
  ∧ version (sign_from sk idx n tx) = version tx
  ∧ ∀ j, inputs (sign_from sk idx n tx) !! j =
      if bool_decide (idx ≤ j < idx + n)%nat then
        (λ i, mkTxInput (previous_output i) (sk_verifying_key sk ++ sk_sign sk (create_signature_message tx j)) (sequence i))
          <$> inputs tx !! j
      else inputs tx !! j.
Proof.
  revert idx tx. induction n as [|n IH]; intros idx tx; cbn [sign_from].
  { split_and!; try done. intros j. by rewrite bool_decide_eq_false_2 by lia. }
  set (tx' := set_script_sig idx _ tx). destruct (IH (Datatypes.S idx) tx') as (E1 & E2 & E3 & E4).
  unfold tx' in E2. rewrite signing_tx_set in E2. split_and!; try done. intros j. rewrite E4. clear E1 E2 E3 E4.
  unfold tx' at 1 3. rewrite message_set.
  destruct (decide (j = idx)) as [->|Hne].
  - rewrite (bool_decide_eq_false_2 (Datatypes.S idx ≤ idx < _)%nat), (bool_decide_eq_true_2 (idx ≤ idx < _)%nat) by lia.
    unfold tx'. cbn [set_script_sig inputs]. by rewrite list_lookup_alter_eq.
  - unfold tx'. cbn [set_script_sig inputs]. rewrite list_lookup_alter_ne by done.
    repeat case_bool_decide; try lia; done.
Qed.

Lemma sign_inputs_message sk tx j : create_signature_message (sign_inputs sk tx) j = create_signature_message tx j.
Proof.
  unfold sign_inputs, create_signature_message. destruct (sign_from_spec sk 0 (length (inputs tx)) tx) as (-> & -> & -> & _). done.
Qed.

(** ** Addresses are read back as text *)

Section laws.
Context `{!ExternalsLaws} `{!VrfLaws}.

Lemma str_bytes_ascii (l : list Z) : Forall (λ c, 0 ≤ c < 128) l → str_bytes (ascii_string l) = l.
Proof.
  intros Hl. unfold str_bytes, ascii_string. rewrite list_ascii_of_string_of_list_ascii. induction Hl as [|x l Hx _ IH]; [done|].
  cbn. rewrite nat_ascii_embedding by lia. rewrite IH. f_equal. lia.
Qed.
Lemma payload_ok pk net : Forall u8_ok (payload (from_public_key pk net)).
Proof. apply Forall_take, sha256_bytes. Qed.
Lemma as_chars_ascii a : Forall u8_ok (payload a) → Forall (λ c, 0 ≤ c < 128) (as_chars a).
Proof.
  intros Hp. unfold as_chars. apply Forall_app. split; [by repeat constructor|]. constructor; [destruct (addr_network a); cbn; lia|].
  apply encode_ascii, Forall_app. split; [done|]. apply Forall_take, Forall_take, sha256_bytes.
Qed.
Lemma address_bytes pk net : str_bytes (as_string (from_public_key pk net)) = as_chars (from_public_key pk net).
Proof. apply str_bytes_ascii, as_chars_ascii, payload_ok. Qed.

Lemma address_network pk net : script_network (str_bytes (as_string (from_public_key pk net))) = Some net.
Proof. rewrite address_bytes. by destruct net. Qed.
Lemma address_text pk net : is_Some (from_utf8 (str_bytes (as_string (from_public_key pk net)))).
Proof.
  rewrite address_bytes. unfold from_utf8. rewrite utf8_ascii; [by eexists|]. apply as_chars_ascii, payload_ok.
Qed.

(** Signing then verifying: every input of a transaction signed with a key carries a
    signature that the verification of that input accepts, for an output paid to the address
    of the key, whatever scripts the other inputs carry. *)
Theorem signed_inputs_verify sk net tx j i u :
  inputs tx !! j = Some i → script_pubkey u = str_bytes (key_address sk net) →
  ∃ i', inputs (sign_inputs sk tx) !! j = Some i' ∧ previous_output i' = previous_output i
  ∧ owner_signed (sign_inputs sk tx) j i' u.
Proof.
  intros Hj Hu. destruct (sign_from_spec sk 0 (length (inputs tx)) tx) as (_ & _ & _ & Hin). specialize (Hin j).
  pose proof (lookup_lt_Some _ _ _ Hj). rewrite bool_decide_eq_true_2, Hj in Hin by lia. cbn in Hin.
  eexists. split; [exact Hin|]. split; [done|].
  exists (sk_verifying_key sk), (sk_sign sk (create_signature_message tx j)), (sk_verifying_key sk), net. cbn [script_sig].
  rewrite Hu, sign_inputs_message. unfold key_address.
  split_and!; try done; [apply sk_vk_length|apply sk_sign_length|apply sk_vk_parses|apply address_network|apply address_text|apply sk_sign_verifies].
Qed.
End laws.
End signing.

Lemma signed_inputs_verify_witness :
  let tx := mkTransaction 2 [mkTxInput (mkOutPoint [1] 0) [] 0] [] 0 0 None None in
  ∃ i', inputs (@sign_inputs tagged_externals (Build_TxExternals (λ _, [])) model_vrf [7] tx) !! 0%nat = Some i'
        ∧ previous_output i' = mkOutPoint [1] 0.
Proof.
  destruct (@signed_inputs_verify tagged_externals tagged_block_externals (Build_TxExternals (λ _, [])) model_vrf
    tagged_externals_laws model_vrf_laws [7] Testnet (mkTransaction 2 [mkTxInput (mkOutPoint [1] 0) [] 0] [] 0 0 None None)
    0 (mkTxInput (mkOutPoint [1] 0) [] 0)
    (mkUTXO (mkOutPoint [1] 0) 5 (str_bytes (@key_address tagged_externals model_vrf [7] Testnet)) "" None)) as (i' & Hi & Ho & _);
    [reflexivity|reflexivity|]. by exists i'.
Defined.
