(* ===== verification/Fallback.v ===== *)
(** * The liveness fallback (src/consensus.rs, protocol section 7.6)

    Alerts on stalled transactions, proposals of an elected leader, weighted votes on
    them, round timeouts and the resolution by TimeLock blocks.  The bodies of the
    background tasks are the [_tick] definitions.  [all_mns] is [list_all] of the
    masternode registry. *)

From Stdlib Require Import ZArith Lia Ascii String.
From stdpp Require Import base gmap strings list pretty.
From S2P Require Import Prelude Types Instances Address Finality Storage UtxoManager TransactionPool BlockVotes.
From S2P Require Import BlockTypes TimeVoteEngine Utf8 AiValidator BlockVrf TxValidation Consensus.

Section fallback.
Context {S : Type} `{UtxoStorage S} `{MapIter} `{Externals} `{BlockExternals} `{TxExternals} `{PoolCodec} `{VrfExternals}.
Implicit Types (e : ConsensusEngine S).

(** ** Signed messages of this node *)

Definition sign_finality_vote (id : NodeIdentity) (chain : Z) (t commitment : Hash256) (slot : Z) (d : VoteDecision)
    (voter : string) (weight : Z) : TimeVote :=
  let v := mkTimeVote chain t commitment slot d voter weight [] in
  mkTimeVote chain t commitment slot d voter weight (sk_sign (id_key id) (signing_message v)).
Definition sign_liveness_alert (id : NodeIdentity) (chain : Z) (t commitment : Hash256) (slot : Z)
    (history : list PollResult) (stall confidence : Z) : LivenessAlert :=
  let a := mkLivenessAlert chain t commitment slot history confidence stall (id_address id) [] in
  mkLivenessAlert chain t commitment slot history confidence stall (id_address id)
    (sk_sign (id_key id) (alert_signing_message a)).
Definition sign_finality_proposal (id : NodeIdentity) (chain : Z) (t commitment : Hash256) (slot : Z)
    (d : FallbackDecision) (why : string) : FinalityProposal :=
  let p := mkFinalityProposal chain t commitment slot d why (id_address id) [] in
  mkFinalityProposal chain t commitment slot d why (id_address id) (sk_sign (id_key id) (proposal_signing_message p)).
Definition sign_fallback_vote (id : NodeIdentity) (chain : Z) (ph : Hash256) (d : FallbackVoteDecision) (weight : Z)
    : FallbackVote :=
  let v := mkFallbackVote chain ph d (id_address id) weight [] in
  mkFallbackVote chain ph d (id_address id) weight (sk_sign (id_key id) (fallback_vote_message v)).

Definition generate_finality_vote e (t : Hash256) (tx : Transaction) (slot : Z) (s : AVSSnapshot) : option TimeVote :=
  id ← identity e;
  if negb (contains_validator s (id_address id)) then None
  else
    w ← get_validator_weight s (id_address id);
    Some (sign_finality_vote id 1 t (sha256 (tx_bincode tx)) slot Accept (id_address id) w).
Definition sign_timevote (mns : list MasternodeInfo) e (t commitment : Hash256) (slot : Z) (d : VoteDecision)
    : option TimeVote :=
  id ← identity e;
  mn ← find_mn mns (id_address id);
  Some (sign_finality_vote id 1 t commitment slot d (id_address id) (sampling_weight (tier (masternode mn)))).

(** ** Alerts *)

Definition reporters (l : list LivenessAlert) : gset string := list_to_set (reporter_mn_id <$> l).
Definition get_alert_count e (t : Hash256) : nat := size (reporters (default [] (liveness_alerts (fallback e) !! t))).
(** [f + 1] for [n] masternodes. *)
Definition alert_threshold (n : nat) : nat := ((n - 1) / 3 + 1)%nat.

Definition record_fallback_activation (f : FallbackState) : FallbackState :=
  mkFallback (stall_timers f) (liveness_alerts f) (fallback_votes f) (proposal_to_tx f) (fallback_rounds f)
    (byzantine_nodes f) (fallback_activations f + 1) (stall_detections f) (timelock_resolutions f).
Definition record_stall_detection (f : FallbackState) : FallbackState :=
  mkFallback (stall_timers f) (liveness_alerts f) (fallback_votes f) (proposal_to_tx f) (fallback_rounds f)
    (byzantine_nodes f) (fallback_activations f) (stall_detections f + 1) (timelock_resolutions f).
Definition record_timelock_resolution (f : FallbackState) : FallbackState :=
  mkFallback (stall_timers f) (liveness_alerts f) (fallback_votes f) (proposal_to_tx f) (fallback_rounds f)
    (byzantine_nodes f) (fallback_activations f) (stall_detections f) (timelock_resolutions f + 1).

Definition accumulate_liveness_alert e (alert : LivenessAlert) (total_masternodes : nat) : ConsensusEngine S * bool :=
  let t := la_txid alert in
  let f := fallback e in
  let f := set_alerts (<[t := default [] (liveness_alerts f !! t) ++ [alert]]> (liveness_alerts f)) f in
  let n := size (reporters (default [] (liveness_alerts f !! t))) in
  let threshold := alert_threshold total_masternodes in
  let reached := (threshold <=? n)%nat in
  let f := if reached && (n =? threshold)%nat then record_fallback_activation f else f in
  (set_fallback f e, reached).

Definition validate_alert_threshold e (t : Hash256) (n : nat) : option bool :=
  if (n =? 0)%nat then None
  else if (n <? alert_threshold n)%nat then None
  else Some (alert_threshold n <=? get_alert_count e t)%nat.
Definition detect_alert_equivocation e (t : Hash256) (reporter : string) : bool :=
  match liveness_alerts (fallback e) !! t with
  | Some l => (1 <? length (filter (λ a, reporter_mn_id a = reporter) l))%nat
  | None => false
  end.

(** ** Votes on a proposal *)

Definition approve_weight (vs : list FallbackVote) : Z :=
  foldl (λ w v, match fv_vote v with FvApprove => add64 w (fv_voter_weight v) | FvReject => w end) 0 vs.
Definition reject_weight (vs : list FallbackVote) : Z :=
  foldl (λ w v, match fv_vote v with FvReject => add64 w (fv_voter_weight v) | FvApprove => w end) 0 vs.
Definition q_finality (total : Z) : Z := mul64 total 2 / 3.

Definition accumulate_fallback_vote e (vote : FallbackVote) (total_weight : Z)
    : ConsensusEngine S * option FallbackVoteDecision :=
  let f := fallback e in
  let vs := default [] (fallback_votes f !! fv_proposal_hash vote) ++ [vote] in
  let e := set_fallback (set_proposals (<[fv_proposal_hash vote := vs]> (fallback_votes f)) (proposal_to_tx f) f) e in
  (e, if q_finality total_weight <=? approve_weight vs then Some FvApprove
      else if q_finality total_weight <=? reject_weight vs then Some FvReject else None).
Definition get_vote_status e (ph : Hash256) : option (Z * Z * nat) :=
  (λ vs, (approve_weight vs, reject_weight vs, length vs)) <$> fallback_votes (fallback e) !! ph.
Definition register_proposal e (ph t : Hash256) : ConsensusEngine S :=
  let f := fallback e in set_fallback (set_proposals (fallback_votes f) (<[ph := t]> (proposal_to_tx f)) f) e.
Definition get_proposal_txid e (ph : Hash256) : option Hash256 := proposal_to_tx (fallback e) !! ph.
Definition detect_vote_equivocation e (ph : Hash256) (voter : string) : bool :=
  match fallback_votes (fallback e) !! ph with
  | Some vs =>
      match filter (λ v, fv_voter_mn_id v = voter) vs with
      | v0 :: v1 :: l => existsb (λ v, match fv_vote v, fv_vote v0 with
                                             | FvApprove, FvApprove | FvReject, FvReject => false
                                             | _, _ => true
                                             end) (v0 :: v1 :: l)
      | _ => false
      end
  | None => false
  end.
Definition detect_multiple_proposals e (t : Hash256) : list Hash256 :=
  (filter (λ en : Hash256 * Hash256, en.2 = t) (iter (proposal_to_tx (fallback e)))).*1.
Definition validate_vote_weight e (ph : Hash256) (total_weight : Z) : bool :=
  match fallback_votes (fallback e) !! ph with
  | Some vs => foldl (λ w v, sat_add w (fv_voter_weight v)) 0 vs <=? mul64 total_weight 11 / 10
  | None => true
  end.

Definition finalize_from_fallback (now : Clock) e (t : Hash256) (d : FallbackVoteDecision) (weight : Z) : ConsensusEngine S :=
  match d with
  | FvApprove => transition_to_finalized now t weight e
  | FvReject => transition_to_rejected now t "Fallback consensus rejected" e
  end.
Definition decide_fallback_vote e (t : Hash256) : FallbackVoteDecision :=
  match get_tx_status e t with
  | Some (Voting _ _ _) | Some (FallbackResolution _ _ _) => FvApprove
  | _ => FvReject
  end.

(** ** Misbehaving nodes *)

Definition set_byzantine (m : gmap string bool) (f : FallbackState) : FallbackState :=
  mkFallback (stall_timers f) (liveness_alerts f) (fallback_votes f) (proposal_to_tx f) (fallback_rounds f) m
    (fallback_activations f) (stall_detections f) (timelock_resolutions f).
Definition flag_byzantine e (id : string) : ConsensusEngine S :=
  set_fallback (set_byzantine (<[id := true]> (byzantine_nodes (fallback e))) (fallback e)) e.
Definition is_byzantine_flagged e (id : string) : bool := default false (byzantine_nodes (fallback e) !! id).
Definition get_byzantine_count e : nat := size (filter (λ en : string * bool, en.2 = true) (byzantine_nodes (fallback e))).

(** ** Leader election *)

(** One candidate against the best so far, [None] at first with the bound [ff..ff]. *)
Definition lower_hash (h : string → Hash256) (acc : Hash256 * option string) (v : string) : Hash256 * option string :=
  let hv := h v in
  if bytes_leb hv acc.1 && negb (bool_decide (hv = acc.1)) then (hv, Some v) else acc.
Definition leader_hash (t : Hash256) (slot round : Z) (prev : Hash256) (address : string) : Hash256 :=
  sha256 (t ++ le_bytes 8 slot ++ le_bytes 4 round ++ prev ++ str_bytes address).
Definition snapshot_ids (s : AVSSnapshot) : list string :=
  match validators_ref s with Some vs => vi_address <$> vs | None => (validators s).*1 end.
Definition elect_fallback_leader (t : Hash256) (slot round : Z) (s : AVSSnapshot) (prev : Hash256) : option string :=
  if bool_decide (validators s = []) && bool_decide (validators_ref s = None) then None
  else (foldl (lower_hash (leader_hash t slot round prev)) (replicate 32 255, None) (snapshot_ids s)).2.
Definition is_fallback_leader e (t : Hash256) (slot round : Z) (s : AVSSnapshot) (prev : Hash256) : bool :=
  match identity e, elect_fallback_leader t slot round s prev with
  | Some id, Some l => String.eqb (id_address id) l
  | _, _ => false
  end.

(** The election used after a timeout. *)
Definition retry_hash (t : Hash256) (slot : Z) (prev : Hash256) (mn : Masternode) : Hash256 :=
  sha256 (t ++ le_bytes 8 slot ++ prev ++ public_key mn).
Definition compute_fallback_leader (t : Hash256) (slot : Z) (avs : list Masternode) (prev : Hash256) : option string :=
  match sort_by (λ a b : Hash256 * string, bytes_leb a.1 b.1) ((λ mn, (retry_hash t slot prev mn, mn_address mn)) <$> avs) with
  | [] => None
  | x :: _ => Some x.2
  end.

(** ** Proposals *)

Definition broadcast_finality_proposal e (t : Hash256) (slot : Z) (d : FallbackDecision) : ConsensusEngine S * result engine_error () :=
  match identity e with
  | None => (e, Err NoIdentity)
  | Some id =>
      let why := String.append "Fallback decision for slot " (pretty slot) in
      (broadcast (MsgFinalityProposal (sign_finality_proposal id 1 t t slot d why)) e, Ok tt)
  end.
Definition broadcast_fallback_vote e (ph : Hash256) (d : FallbackVoteDecision) (weight : Z) : ConsensusEngine S * result engine_error () :=
  match identity e with
  | None => (e, Err NoIdentity)
  | Some id => (broadcast (MsgFallbackVote (sign_fallback_vote id 1 ph d weight)) e, Ok tt)
  end.
Definition determine_fallback_decision e (t : Hash256) : FallbackDecision :=
  match tx_state (timevote e) !! t with
  | Some v => match preference v with PrefAccept => FbAccept | PrefReject => FbReject end
  | None => FbReject
  end.
Definition execute_fallback_as_leader (now : Clock) e (t : Hash256) (slot round : Z) : ConsensusEngine S * result engine_error () :=
  match broadcast_finality_proposal e t slot (determine_fallback_decision e t) with
  | (e, Err err) => (e, Err err)
  | (e, Ok _) =>
      (set_fallback (set_rounds (<[t := (slot, round, c_instant now)]> (fallback_rounds (fallback e))) (fallback e)) e, Ok tt)
  end.

(** ** Stalls *)

Definition get_stalled_transactions (now : Clock) e : list Hash256 :=
  (filter (λ en : Hash256 * Z, STALL_TIMEOUT < sat_sub (c_instant now) en.2) (iter (stall_timers (fallback e)))).*1.
(** [elapsed.max(0) as u64]. *)
Definition broadcast_liveness_alert (now : Clock) e (t : Hash256) (slot : Z) : ConsensusEngine S * result engine_error () :=
  match identity e with
  | None => (e, Err NoIdentity)
  | Some id =>
      match get_tx_status e t with
      | None => (e, Err TxUnknown)
      | Some (Voting confidence _ started) =>
          let stall := Z.max 0 (c_millis now - started) in
          (broadcast (MsgLivenessAlert (sign_liveness_alert id 1 t t slot [] stall confidence)) e, Ok tt)
      | Some _ => (e, Err NotVoting)
      end
  end.
Definition check_and_broadcast_stalls (now : Clock) e (slot : Z) : ConsensusEngine S * Z :=
  let stalled := get_stalled_transactions now e in
  (foldl (λ e t, (broadcast_liveness_alert now e t slot).1) e stalled, Z.of_nat (length stalled)).

Definition is_stalled (now : Clock) e (en : Hash256 * TransactionStatus) : bool :=
  match en.2 with
  | Voting _ _ started => (30 <=? Z.quot (c_millis now - started) 1000) && is_transaction_still_valid e en.1
  | _ => false
  end.
Definition detect_stalled_transactions (now : Clock) e : ConsensusEngine S * list Hash256 :=
  let stalled := (filter (λ en, is_stalled now e en = true) (iter (tx_status (timevote e)))).*1 in
  (set_fallback (foldl (λ f _, record_stall_detection f) (fallback e) stalled) e, stalled).
(** Slots of the fallback tasks count from 2025-01-01. *)
Definition get_current_slot_index (now : Clock) : Z := Z.max 0 (c_unix now - 1735689600) / 600.
Definition stall_detection_tick (now : Clock) e : ConsensusEngine S :=
  let '(e, stalled) := detect_stalled_transactions now e in
  foldl (λ e t, (broadcast_liveness_alert now e t (get_current_slot_index now)).1) e stalled.

Definition resume_sampling_after_fallback (now : Clock) (mns : list MasternodeInfo) e (t : Hash256) : ConsensusEngine S * result engine_error () :=
  match get_tx_status e t with
  | None => (e, Err TxUnknown)
  | Some (FallbackResolution _ _ _) => (transition_to_voting now mns t e, Ok tt)
  | Some _ => (e, Err NotInFallback)
  end.

(** ** Resolution rounds *)

Definition in_fallback (s : TransactionStatus) : bool := match s with FallbackResolution _ _ _ => true | _ => false end.
Definition fallback_txs e : list Hash256 :=
  (filter (λ en : Hash256 * TransactionStatus, in_fallback en.2 = true) (iter (tx_status (timevote e)))).*1.
Definition has_pending_fallback_transactions e : bool := negb (bool_decide (fallback_txs e = [])).

Definition resolution_step (now : Clock) (s : AVSSnapshot) e (t : Hash256) : ConsensusEngine S :=
  match fallback_rounds (fallback e) !! t with
  | None => e
  | Some (slot, round, _) =>
      if is_fallback_leader e t slot round s (prev_block_hash e) then (execute_fallback_as_leader now e t slot round).1 else e
  end.
Definition fallback_resolution_tick (now : Clock) e : ConsensusEngine S :=
  match avs_snapshots (timevote e) !! get_current_slot_index now with
  | None => e
  | Some s => foldl (resolution_step now s) e (fallback_txs e)
  end.

(** One round that timed out. *)
Definition timeout_step (now : Clock) (all_mns : list MasternodeInfo) (prev : Hash256)
    (acc : ConsensusEngine S * Z) (en : Hash256 * (Z * Z * Z)) : ConsensusEngine S * Z :=
  let '(e, n) := acc in
  let '(t, (slot, round, _)) := en in
  if MAX_FALLBACK_ROUNDS <=? round then
    let e := transition_to_rejected now t "Fallback failed after 5 rounds, awaiting TimeLock sync" e in
    (set_fallback (set_rounds (delete t (fallback_rounds (fallback e))) (fallback e)) e, n + 1)
  else
    let slot := add64 slot 1 in
    let e := set_fallback (set_rounds (<[t := (slot, round + 1, c_instant now)]> (fallback_rounds (fallback e))) (fallback e)) e in
    let avs := masternode <$> filter (λ mn, is_active mn = true) all_mns in
    match compute_fallback_leader t slot avs prev with
    | None => (e, n)
    | Some leader =>
        match identity e with
        | Some id =>
            if String.eqb (id_address id) leader then
              let d := match get_tx_status e t with Some (FallbackResolution _ _ _) => FbAccept | _ => FbReject end in
              ((broadcast_finality_proposal e t slot d).1, n + 1)
            else (e, n + 1)
        | None => (e, n + 1)
        end
    end.
Definition check_fallback_timeouts (now : Clock) (all_mns : list MasternodeInfo) (prev : Hash256) e : ConsensusEngine S * Z :=
  foldl (timeout_step now all_mns prev) (e, 0)
    (filter (λ en : Hash256 * (Z * Z * Z), FALLBACK_ROUND_TIMEOUT ≤ sat_sub (c_instant now) en.2.2)
       (iter (fallback_rounds (fallback e)))).

(** ** TimeLock resolution *)

Definition timelock_decision e (t : Hash256) : FallbackDecision :=
  match tx_state (timevote e) !! t with
  | Some v => match preference v with
              | PrefAccept => if is_transaction_still_valid e t then FbAccept else FbReject
              | PrefReject => FbReject
              end
  | None => FbReject
  end.
Definition timelock_step (now : Clock) e (t : Hash256) : ConsensusEngine S :=
  let e := match timelock_decision e t with
           | FbAccept => transition_to_finalized now t 0 e
           | FbReject => transition_to_rejected now t "TimeLock fallback rejected" e
           end in
  let e := clear_fallback t e in
  let f := fallback e in
  let votes := filter (λ en : Hash256 * list FallbackVote, proposal_to_tx f !! en.1 ≠ Some t) (fallback_votes f) in
  set_fallback (set_proposals votes (proposal_to_tx f) f) e.
Definition resolve_stalls_via_timelock (now : Clock) e : ConsensusEngine S * bool :=
  match fallback_txs e with
  | [] => (e, false)
  | stalled => (foldl (timelock_step now) (set_fallback (record_timelock_resolution (fallback e)) e) stalled, true)
  end.
End fallback.
