(* ===== verification/FallbackProofs.v ===== *)
(** * The liveness fallback: proofs (src/consensus.rs)

    Rounds end, a TimeLock block resolves every transaction in fallback, a proposal
    gets one decision, the alert threshold needs an honest reporter and every node
    elects the same leader. *)

From Stdlib Require Import ZArith Lia Ascii String.
From stdpp Require Import base gmap strings list.
From S2P Require Import Prelude Types Instances Address Finality Storage UtxoManager TransactionPool BlockVotes.
From S2P Require Import BlockTypes TimeVoteEngine Utf8 AiValidator BlockVrf TxValidation TxProofs PoolProofs Consensus ConsensusProofs Fallback.

Section proofs.
Context {S : Type} `{UtxoStorage S} `{MapIter} `{Externals} `{BlockExternals} `{TxExternals} `{PoolCodec} `{VrfExternals}.
Implicit Types (e : ConsensusEngine S).

(** ** Rounds *)

(** What the loop over the rounds reads and writes of a transaction. *)
Definition round_view e (t : Hash256) : option (Z * Z * Z) * option TransactionStatus :=
  (fallback_rounds (fallback e) !! t, get_tx_status e t).

Lemma propose_view e t slot d k : round_view (broadcast_finality_proposal e t slot d).1 k = round_view e k.
Proof. unfold broadcast_finality_proposal. by destruct (identity e). Qed.

Lemma timeout_other now mns prev e n t v k : t ≠ k →
  round_view (timeout_step now mns prev (e, n) (t, v)).1 k = round_view e k.
Proof.
  intros Hne. destruct v as [[slot round] start]. cbn [timeout_step]. destruct (MAX_FALLBACK_ROUNDS <=? round).
  - unfold round_view, get_tx_status. cbn. by rewrite !lookup_delete_ne, lookup_insert_ne.
  - set (e1 := set_fallback _ e). assert (round_view e1 k = round_view e k) as E.
    { unfold round_view, get_tx_status, e1. cbn. by rewrite lookup_insert_ne. }
    destruct (compute_fallback_leader _ _ _ _); [|done]. destruct (identity e1); [|done].
    case_match; cbn [fst]; [by rewrite propose_view|done].
Qed.
Lemma timeout_self now mns prev e n t slot round start :
  round_view (timeout_step now mns prev (e, n) (t, (slot, round, start))).1 t =
  if MAX_FALLBACK_ROUNDS <=? round
  then (None, Some (Rejected (c_millis now) "Fallback failed after 5 rounds, awaiting TimeLock sync"))
  else (Some (add64 slot 1, round + 1, c_instant now), get_tx_status e t).
Proof.
  cbn [timeout_step]. destruct (MAX_FALLBACK_ROUNDS <=? round).
  - unfold round_view, get_tx_status. cbn. by rewrite lookup_delete_eq, lookup_insert_eq.
  - set (e1 := set_fallback _ e).
    assert (round_view e1 t = (Some (add64 slot 1, round + 1, c_instant now), get_tx_status e t)) as E.
    { unfold round_view, get_tx_status, e1. cbn. by rewrite lookup_insert_eq. }
    destruct (compute_fallback_leader _ _ _ _); [|done]. destruct (identity e1); [|done].
    case_match; cbn [fst]; [by rewrite propose_view|done].
Qed.

(** One pass over the rounds, for one transaction. *)
Lemma check_timeouts_view now mns prev e t slot round start :
  fallback_rounds (fallback e) !! t = Some (slot, round, start) →
  FALLBACK_ROUND_TIMEOUT ≤ sat_sub (c_instant now) start →
  round_view (check_fallback_timeouts now mns prev e).1 t =
  if MAX_FALLBACK_ROUNDS <=? round
  then (None, Some (Rejected (c_millis now) "Fallback failed after 5 rounds, awaiting TimeLock sync"))
  else (Some (add64 slot 1, round + 1, c_instant now), get_tx_status e t).
Proof.
  intros Hr Ht. unfold check_fallback_timeouts.
  refine (loop_hits (timeout_step now mns prev) (λ a, round_view a.1) _ _ (e, 0) t (slot, round, start) _ _ _ _).
  - intros [a n] k v k' Hne. by apply timeout_other.
  - intros [a n] Ha. cbn [fst] in *. rewrite timeout_self. injection Ha as _ ->. done.
  - apply iter_filter_nodup.
  - by apply elem_of_iter_filter.
Qed.

(** Successive passes, each at its time. *)
Definition pass : Type := Clock * list MasternodeInfo * Hash256.
Definition passes e (ps : list pass) : ConsensusEngine S :=
  foldl (λ e p, (check_fallback_timeouts p.1.1 p.1.2 p.2 e).1) e ps.
(** Each pass comes a round's timeout after the one before. *)
Fixpoint spaced (start : Z) (ps : list pass) : Prop :=
  match ps with
  | [] => True
  | p :: ps => FALLBACK_ROUND_TIMEOUT ≤ sat_sub (c_instant p.1.1) start ∧ spaced (c_instant p.1.1) ps
  end.

Lemma passes_round e t slot round start ps : fallback_rounds (fallback e) !! t = Some (slot, round, start) →
  spaced start ps → Z.of_nat (length ps) ≤ MAX_FALLBACK_ROUNDS - round →
  ∃ slot' start', fallback_rounds (fallback (passes e ps)) !! t = Some (slot', round + Z.of_nat (length ps), start')
  ∧ ∀ last, spaced start (ps ++ [last]) → FALLBACK_ROUND_TIMEOUT ≤ sat_sub (c_instant last.1.1) start'.
Proof.
  revert e slot round start. induction ps as [|p ps IH]; intros e slot round start Hr Hsp Hlen; cbn [length] in *.
  - exists slot, start. rewrite Z.add_0_r. split; [done|]. by intros last [? _].
  - destruct Hsp as [Hs Hsp]. pose proof (check_timeouts_view _ p.1.2 p.2 _ _ _ _ _ Hr Hs) as Hv.
    destruct (Z.leb_spec MAX_FALLBACK_ROUNDS round); [lia|]. injection Hv as Hv _.
    destruct (IH _ _ _ _ Hv Hsp) as (slot' & start' & E & Hl); [lia|]. exists slot', start'. split.
    + cbn [passes foldl]. unfold passes in E. rewrite E. do 3 f_equal. lia.
    + intros last [_ Hsp']. by apply Hl.
Qed.
Lemma spaced_app start ps qs : spaced start (ps ++ qs) → spaced start ps.
Proof. revert start. induction ps as [|p ps IH]; intros start; cbn; [done|]. intros [? ?]. split; [done|by apply IH]. Qed.

(** C27: The fallback ends: when the passes over the rounds are at least a round's timeout
    of 10 seconds apart, a transaction in round r of the fallback is in round r + k after k
    passes, as long as that is at most 5, and the next pass after round 5 rejects it and
    drops it from the rounds. Rounds start at 0, so a transaction in fallback is given up at
    the sixth pass, after 60 seconds at the earliest. *)
Theorem fallback_rounds_terminate e t slot round start ps last :
  fallback_rounds (fallback e) !! t = Some (slot, round, start) → round ≤ MAX_FALLBACK_ROUNDS →
  spaced start (ps ++ [last]) → Z.of_nat (length ps) = MAX_FALLBACK_ROUNDS - round →
  (∀ k, (k ≤ length ps)%nat → ∃ slot' start', fallback_rounds (fallback (passes e (take k ps))) !! t = Some (slot', round + Z.of_nat k, start'))
  ∧ fallback_rounds (fallback (passes e (ps ++ [last]))) !! t = None
  ∧ get_tx_status (passes e (ps ++ [last])) t = Some (Rejected (c_millis last.1.1) "Fallback failed after 5 rounds, awaiting TimeLock sync").
Proof.
  intros Hr Hle Hsp Hlen. split.
  - intros k Hk. destruct (passes_round e t slot round start (take k ps) Hr) as (slot' & start' & E & _).
    + apply (spaced_app start _ (drop k ps ++ [last])). by rewrite app_assoc, take_drop.
    + rewrite length_take. lia.
    + exists slot', start'. rewrite E, length_take. by rewrite Nat.min_l.
  - destruct (passes_round e t slot round start ps Hr (spaced_app _ _ _ Hsp)) as (slot' & start' & E & Hl); [lia|].
    unfold passes. rewrite foldl_snoc. pose proof (check_timeouts_view _ last.1.2 last.2 _ _ _ _ _ E (Hl last Hsp)) as Hv.
    destruct (Z.leb_spec MAX_FALLBACK_ROUNDS (round + Z.of_nat (length ps))); [|lia]. by injection Hv.
Qed.

(** ** Resolution by a TimeLock block *)

Lemma timelock_step_frame now e t :
  tx_pool (timelock_step now e t) = tx_pool e ∧ utxo_manager (timelock_step now e t) = utxo_manager e
  ∧ tx_state (timevote (timelock_step now e t)) = tx_state (timevote e).
Proof. unfold timelock_step. by destruct (timelock_decision e t). Qed.
Definition resolved_status (now : Clock) (d : FallbackDecision) : TransactionStatus :=
  match d with FbAccept => Finalized (c_millis now) 0 | FbReject => Rejected (c_millis now) "TimeLock fallback rejected" end.
Lemma timelock_step_status now e t k :
  get_tx_status (timelock_step now e t) k =
  if bool_decide (t = k) then Some (resolved_status now (timelock_decision e t)) else get_tx_status e k.
Proof.
  unfold timelock_step, get_tx_status. case_bool_decide as E; [subst|]; destruct (timelock_decision _ _); cbn;
    by rewrite ?lookup_insert_eq, ?lookup_insert_ne.
Qed.
Lemma still_valid_frame e e' t : tx_pool e' = tx_pool e → utxo_manager e' = utxo_manager e →
  tx_state (timevote e') = tx_state (timevote e) → get_tx_status e' t = get_tx_status e t →
  timelock_decision e' t = timelock_decision e t.
Proof. intros E1 E2 E3 E4. unfold timelock_decision, is_transaction_still_valid. by rewrite E1, E2, E3, E4. Qed.

Lemma timelock_loop now e ts : NoDup ts →
  let e' := foldl (timelock_step now) e ts in
  tx_pool e' = tx_pool e ∧ utxo_manager e' = utxo_manager e
  ∧ ∀ k, get_tx_status e' k = if bool_decide (k ∈ ts) then Some (resolved_status now (timelock_decision e k)) else get_tx_status e k.
Proof.
  revert e. induction ts as [|t ts IH]; intros e Hnd; cbn zeta.
  - split_and!; [done..|]. intros k. by rewrite bool_decide_eq_false_2 by apply not_elem_of_nil.
  - apply NoDup_cons in Hnd as [Ht Hnd]. cbn [foldl]. destruct (timelock_step_frame now e t) as (Fp & Fu & Fs).
    destruct (IH (timelock_step now e t) Hnd) as (-> & -> & Hk). split_and!; [done..|]. intros k. rewrite Hk.
    destruct (decide (k ∈ ts)) as [Hin|Hn].
    + rewrite !bool_decide_eq_true_2 by (done || by apply elem_of_cons; right). do 2 f_equal.
      apply still_valid_frame; [done..|]. rewrite timelock_step_status, bool_decide_eq_false_2; [done|]. by intros ->.
    + rewrite (bool_decide_eq_false_2 (k ∈ ts)) by done. rewrite timelock_step_status.
      destruct (decide (t = k)) as [->|Hne].
      * rewrite !bool_decide_eq_true_2; [done|by apply elem_of_cons; left|done].
      * rewrite !bool_decide_eq_false_2; [done|by intros [?|?]%elem_of_cons|done].
Qed.

Lemma elem_of_fallback_txs e t :
  t ∈ fallback_txs e ↔ ∃ s, get_tx_status e t = Some s ∧ in_fallback s = true.
Proof.
  unfold fallback_txs. rewrite list_elem_of_fmap. split.
  - intros ([k s] & -> & [Hf Hl]%elem_of_iter_filter). by exists s.
  - intros (s & Hl & Hf). exists (t, s). split; [done|]. by apply elem_of_iter_filter.
Qed.

Lemma no_fallback e : (∀ t s, get_tx_status e t = Some s → in_fallback s = false) → has_pending_fallback_transactions e = false.
Proof.
  intros Hall. unfold has_pending_fallback_transactions. apply negb_false_iff, bool_decide_eq_true.
  destruct (fallback_txs e) as [|t l] eqn:El; [done|]. exfalso.
  assert (t ∈ fallback_txs e) as Hin by (rewrite El; apply list_elem_of_here).
  apply elem_of_fallback_txs in Hin as (s & Hs & Hf). rewrite (Hall _ _ Hs) in Hf. done.
Qed.

(** C22: A TimeLock block resolves every transaction in fallback: afterwards none is left,
    each became Finalized if its preference was to accept and it is still valid and Rejected
    otherwise, and no other status, pool entry or output changed. *)
Theorem timelock_resolves_all now e :
  let e' := (resolve_stalls_via_timelock now e).1 in
  has_pending_fallback_transactions e' = false
  ∧ (∀ t, get_tx_status e' t =
       match get_tx_status e t with
       | Some (FallbackResolution _ _ _) =>
           match preference <$> tx_state (timevote e) !! t with
           | Some PrefAccept =>
               if is_transaction_still_valid e t then Some (Finalized (c_millis now) 0)
               else Some (Rejected (c_millis now) "TimeLock fallback rejected")
           | _ => Some (Rejected (c_millis now) "TimeLock fallback rejected")
           end
       | s => s
       end)
  ∧ utxo_manager e' = utxo_manager e ∧ tx_pool e' = tx_pool e.
Proof.
  cbv zeta.
  set (start := match fallback_txs e with [] => e | _ => set_fallback (record_timelock_resolution (fallback e)) e end).
  assert ((resolve_stalls_via_timelock now e).1 = foldl (timelock_step now) start (fallback_txs e)) as ->.
  { unfold resolve_stalls_via_timelock, start. by destruct (fallback_txs e). }
  assert (tx_pool start = tx_pool e ∧ utxo_manager start = utxo_manager e ∧ timevote start = timevote e) as (Sp & Su & St)
    by (unfold start; by destruct (fallback_txs e)).
  destruct (timelock_loop now start (fallback_txs e)) as (-> & -> & Hk); [apply iter_filter_nodup|].
  assert (∀ t, get_tx_status start t = get_tx_status e t) as Hst by (intros t; unfold get_tx_status; by rewrite St).
  assert (∀ t, get_tx_status (foldl (timelock_step now) start (fallback_txs e)) t =
       match get_tx_status e t with
       | Some (FallbackResolution _ _ _) => Some (resolved_status now (timelock_decision e t))
       | s => s
       end) as Hall.
  { intros t. rewrite Hk, Hst. rewrite (still_valid_frame e start t) by (done || by rewrite St).
    destruct (decide (t ∈ fallback_txs e)) as [Hin|Hn].
    - rewrite bool_decide_eq_true_2 by done. apply elem_of_fallback_txs in Hin as (s & -> & Hf). by destruct s.
    - rewrite bool_decide_eq_false_2 by done. destruct (get_tx_status e t) as [[]|] eqn:Es; try done.
      destruct Hn. apply elem_of_fallback_txs. by eexists. }
  split_and!; [| |done..].
  2: { intros t. rewrite Hall. unfold timelock_decision. destruct (get_tx_status e t) as [[]|]; try done.
       destruct (tx_state (timevote e) !! t) as [v|]; [|done]. cbn. destruct (preference v); [|done].
       by destruct (is_transaction_still_valid e t). }
  apply no_fallback. intros t s. rewrite Hall. destruct (get_tx_status e t) as [[]|]; try (by intros [= <-]); try done.
  intros [= <-]. by destruct (timelock_decision e t).
Qed.

(** ** Votes on a proposal *)

(** The decisions announced while the votes of a proposal come in. *)
Fixpoint decisions e (total : Z) (vs : list FallbackVote) : list (option FallbackVoteDecision) :=
  match vs with
  | [] => []
  | v :: vs => let '(e, d) := accumulate_fallback_vote e v total in d :: decisions e total vs
  end.
Definition weight_of (d : FallbackVoteDecision) (vs : list FallbackVote) : Z :=
  match d with FvApprove => approve_weight vs | FvReject => reject_weight vs end.

Lemma weights_exact vs a r : Forall (λ v, 0 ≤ fv_voter_weight v) vs → 0 ≤ a → 0 ≤ r →
  a + r + sumZ (fv_voter_weight <$> vs) < U64 →
  let a' := foldl (λ w v, match fv_vote v with FvApprove => add64 w (fv_voter_weight v) | FvReject => w end) a vs in
  let r' := foldl (λ w v, match fv_vote v with FvReject => add64 w (fv_voter_weight v) | FvApprove => w end) r vs in
  a ≤ a' ∧ r ≤ r' ∧ a' + r' = a + r + sumZ (fv_voter_weight <$> vs).
Proof.
  intros Hv. revert a r. induction Hv as [|v vs Hv Hvs IH]; intros a r Ha Hr Hs; [cbn; lia|]; cbv zeta in *;
    rewrite fmap_cons, sumZ_cons in *; cbn [foldl]; cbn beta in Hv.
  assert (0 ≤ sumZ (fv_voter_weight <$> vs)) by (apply sumZ_nonneg, Forall_fmap; done).
  destruct (fv_vote v); rewrite add64_small by lia.
  - pose proof (IH (a + fv_voter_weight v) r ltac:(lia) ltac:(lia) ltac:(lia)) as (? & ? & ?). split_and!; lia.
  - pose proof (IH a (r + fv_voter_weight v) ltac:(lia) ltac:(lia) ltac:(lia)) as (? & ? & ?). split_and!; lia.
Qed.

Lemma weight_app d vs ws : Forall (λ v, 0 ≤ fv_voter_weight v) (vs ++ ws) → sumZ (fv_voter_weight <$> vs ++ ws) < U64 →
  weight_of d vs ≤ weight_of d (vs ++ ws).
Proof.
  intros [Hv Hw]%Forall_app. rewrite fmap_app, sumZ_app. intros Hs.
  assert (0 ≤ sumZ (fv_voter_weight <$> ws)) by (apply sumZ_nonneg, Forall_fmap; done).
  destruct (weights_exact vs 0 0 Hv) as (? & ? & ?); [lia..|].
  pose proof (weights_exact ws (approve_weight vs) (reject_weight vs) Hw) as (? & ? & _); unfold approve_weight, reject_weight in *; [lia..|].
  destruct d; cbn; unfold approve_weight, reject_weight; rewrite foldl_app; lia.
Qed.
Lemma decisions_bound total ph vs e d :
  let old := default [] (fallback_votes (fallback e) !! ph) in
  Forall (λ v, fv_proposal_hash v = ph) vs → Forall (λ v, 0 ≤ fv_voter_weight v) (old ++ vs) →
  sumZ (fv_voter_weight <$> old ++ vs) < U64 → Some d ∈ decisions e total vs → q_finality total ≤ weight_of d (old ++ vs).
Proof.
  revert e. induction vs as [|v vs IH]; intros e; cbv zeta; intros Hph Hv Hs; cbn [decisions]; [by intros ?%elem_of_nil|].
  apply Forall_cons in Hph as [Ev Hph]. destruct (accumulate_fallback_vote e v total) as [e' d'] eqn:E.
  unfold accumulate_fallback_vote in E. rewrite Ev in E. injection E as <- Ed.
  replace (v :: vs) with ([v] ++ vs) in * by done. rewrite app_assoc in *. intros [<-|Hd]%elem_of_cons.
  - etrans; [|by apply weight_app].
    destruct (Z.leb_spec (q_finality total) (approve_weight (default [] (fallback_votes (fallback e) !! ph) ++ [v]))); [by injection Ed as <-|].
    destruct (Z.leb_spec (q_finality total) (reject_weight (default [] (fallback_votes (fallback e) !! ph) ++ [v]))); by inversion Ed; subst.
  - match type of Hd with _ ∈ decisions ?e' _ _ => specialize (IH e') end. cbv zeta in IH.
    cbn in IH. rewrite lookup_insert_eq in IH. by apply IH.
Qed.

(** A proposal gets one decision: while the votes on it come in, no vote announces approval
    and another one rejection, and a decision has two thirds of the total weight, rounded
    down, when the weights of the votes do not exceed the total, which is above 4. *)
Theorem fallback_decision_unique e total ph vs d d' :
  fallback_votes (fallback e) !! ph = None →
  Forall (λ v, fv_proposal_hash v = ph ∧ 0 ≤ fv_voter_weight v) vs → sumZ (fv_voter_weight <$> vs) ≤ total →
  4 < total → total * 2 < U64 →
  Some d ∈ decisions e total vs → Some d' ∈ decisions e total vs → d = d' ∧ 2 * total ≤ 3 * weight_of d vs + 2.
Proof.
  intros Hn Hvs Hsum Ht Hb Hd Hd'. apply Forall_and in Hvs as [Hph Hv].
  pose proof (decisions_bound total ph vs e) as Hq. rewrite Hn in Hq. cbn [default app] in Hq.
  pose proof (Hq d Hph Hv ltac:(unfold U64 in *; lia) Hd) as B. pose proof (Hq d' Hph Hv ltac:(unfold U64 in *; lia) Hd') as B'.
  destruct (weights_exact vs 0 0 Hv) as (_ & _ & E); [unfold U64 in *; lia..|]. fold (approve_weight vs) (reject_weight vs) in E.
  unfold q_finality, mul64 in *. rewrite Z.mod_small in * by lia.
  pose proof (Z.mod_pos_bound (total * 2) 3 ltac:(lia)). pose proof (Z.div_mod (total * 2) 3 ltac:(lia)).
  split; [|lia]. destruct d, d'; cbn in *; try done; lia.
Qed.

(** ** Alerts *)

Lemma reporters_app l a : reporters (l ++ [a]) = reporters l ∪ {[reporter_mn_id a]}.
Proof. unfold reporters. rewrite fmap_app, list_to_set_app_L. cbn. set_solver. Qed.

(** An alert activates the fallback exactly when more than (n-1)/3 distinct reporters have
    alerted, so one of them is outside any set of at most (n-1)/3 faulty masternodes. *)
Theorem alert_threshold_honest e alert n :
  let r := accumulate_liveness_alert e alert n in
  (r.2 = true ↔ ((n - 1) / 3 < get_alert_count r.1 (la_txid alert))%nat)
  ∧ reporters (default [] (liveness_alerts (fallback r.1) !! la_txid alert))
      = reporters (default [] (liveness_alerts (fallback e) !! la_txid alert)) ∪ {[reporter_mn_id alert]}
  ∧ (∀ faulty : gset string, (size faulty ≤ (n - 1) / 3)%nat → r.2 = true →
       ∃ a, a ∈ default [] (liveness_alerts (fallback r.1) !! la_txid alert) ∧ reporter_mn_id a ∉ faulty).
Proof.
  cbv zeta. set (l := default [] (liveness_alerts (fallback e) !! la_txid alert)).
  assert (default [] (liveness_alerts (fallback (accumulate_liveness_alert e alert n).1) !! la_txid alert) = l ++ [alert]) as El.
  { unfold accumulate_liveness_alert. cbn. case_match; cbn; by rewrite lookup_insert_eq. }
  assert ((accumulate_liveness_alert e alert n).2 = (alert_threshold n <=? size (reporters (l ++ [alert])))%nat) as Er.
  { unfold accumulate_liveness_alert. cbn. by rewrite lookup_insert_eq. }
  unfold get_alert_count. rewrite El, Er, Nat.leb_le. unfold alert_threshold. split; [lia|]. split; [apply reporters_app|].
  intros faulty Hf Hr%Nat.leb_le. destruct (decide (reporters (l ++ [alert]) ⊆ faulty)) as [Hsub|Hn].
  - apply subseteq_size in Hsub. lia.
  - destruct (decide (Exists (λ a, reporter_mn_id a ∉ faulty) (l ++ [alert]))) as [Hex|Hno]; [by apply Exists_exists in Hex|].
    destruct Hn. intros x Hx. apply elem_of_list_to_set, list_elem_of_fmap in Hx as (a & -> & Ha).
    apply not_Exists_Forall in Hno; [|apply _]. rewrite Forall_forall in Hno. by apply dec_stable, Hno.
Qed.

(** ** Leaders *)

Lemma lower_hash_min h l acc :
  let r := foldl (lower_hash h) acc l in
  bytes_leb r.1 acc.1 = true ∧ (∀ v, v ∈ l → bytes_leb r.1 (h v) = true)
  ∧ (r = acc ∨ ∃ v, v ∈ l ∧ r = (h v, Some v)).
Proof.
  revert acc. induction l as [|v l IH]; intros acc; cbv zeta; cbn [foldl].
  - split; [apply bytes_leb_refl|].
    split; [by intros v ?%elem_of_nil|by left].
  - destruct (IH (lower_hash h acc v)) as (Hle & Hall & Hr).
    assert (bytes_leb (lower_hash h acc v).1 acc.1 = true ∧ bytes_leb (lower_hash h acc v).1 (h v) = true) as [Ha Hv].
    { unfold lower_hash. destruct (bytes_leb (h v) acc.1) eqn:E; cbn [andb]; [|split; [apply bytes_leb_refl|by apply bytes_leb_total]].
      case_bool_decide as Eq; cbn [negb fst]; [rewrite Eq|]; rewrite ?E; split; done || apply bytes_leb_refl. }
    split; [eapply Is_true_true, bytes_leb_trans; apply Is_true_true; done|]. split.
    + intros w [->|Hw]%elem_of_cons; [|by apply Hall]. eapply Is_true_true, bytes_leb_trans; apply Is_true_true; done.
    + destruct Hr as [->|(w & Hw & ->)]; [|right; exists w; split; [by apply elem_of_cons; right|done]].
      unfold lower_hash. case_match; [right; exists v; split; [by apply elem_of_cons; left|done]|by left].
Qed.

(** Nodes whose snapshots list the same validators in any order elect the same fallback
    leader, when the hashes of the candidates are distinct. *)
Theorem elect_leader_agree t slot round s s' prev :
  snapshot_ids s ≡ₚ snapshot_ids s' →
  (∀ v w, v ∈ snapshot_ids s → w ∈ snapshot_ids s → leader_hash t slot round prev v = leader_hash t slot round prev w → v = w) →
  elect_fallback_leader t slot round s prev = elect_fallback_leader t slot round s' prev.
Proof.
  intros Hp Hinj.
  assert (∀ s, elect_fallback_leader t slot round s prev
    = (foldl (lower_hash (leader_hash t slot round prev)) (replicate 32 255, None) (snapshot_ids s)).2) as He.
  { intros s0. unfold elect_fallback_leader, snapshot_ids. destruct (validators s0), (validators_ref s0); done. }
  rewrite !He. set (h := leader_hash t slot round prev) in *. set (top := (replicate 32 255, None)).
  destruct (lower_hash_min h (snapshot_ids s) top) as (Ht & Hm & Hr). destruct (lower_hash_min h (snapshot_ids s') top) as (Ht' & Hm' & Hr').
  set (r := foldl _ top (snapshot_ids s)) in *. set (r' := foldl _ top (snapshot_ids s')) in *.
  assert (r.1 = r'.1) as E1.
  { apply bytes_leb_antisym; apply Is_true_true.
    - destruct Hr' as [->|(v & Hv & ->)]; [done|]. apply Hm. by rewrite Hp.
    - destruct Hr as [->|(v & Hv & ->)]; [done|]. apply Hm'. by rewrite <- Hp. }
  (* a tie with the initial bound keeps no leader *)
  assert (∀ l, (foldl (lower_hash h) top l).1 = top.1 → foldl (lower_hash h) top l = top) as Htop.
  { induction l as [|v l IH] using rev_ind; [done|]. rewrite foldl_app. cbn.
    destruct (lower_hash_min h l top) as (Hl & _). unfold lower_hash at 1 3.
    destruct (bytes_leb (h v) _) eqn:E; cbn [andb]; [|done]. case_bool_decide as Eq; cbn [negb]; [done|].
    intros Ev. cbn in Ev. destruct Eq. rewrite Ev. apply bytes_leb_antisym; apply Is_true_true; [|done]. by rewrite <- Ev. }
  destruct Hr as [Er|(v & Hv & Er)], Hr' as [Er'|(w & Hw & Er')].
  - by rewrite Er, Er'.
  - rewrite Er in E1. symmetry in E1. apply Htop in E1. fold r' in E1. by rewrite Er, E1.
  - rewrite Er' in E1. apply Htop in E1. fold r in E1. by rewrite E1, Er'.
  - rewrite Er, Er' in *. cbn in *. f_equal. apply Hinj; [done|by rewrite Hp|done].
Qed.
End proofs.

(** ** Samples *)

Section fallback_samples.
#[local] Existing Instance tagged_externals.
#[local] Existing Instance canonical_iter.
#[local] Existing Instance sample_block_externals.
#[local] Existing Instance sample_tx_externals.
#[local] Existing Instance model_pool_codec.
#[local] Existing Instance model_vrf.

Definition sample_stalled : ConsensusEngine (gmap OutPoint UTXO) :=
  transition_to_fallback_resolution (sample_clock 100) [1] 2 sample_engine.
Definition sample_pass (s : Z) : pass := (sample_clock s, sample_mns, []).

Lemma fallback_rounds_terminate_witness :
  get_tx_status (passes sample_stalled ([sample_pass 110; sample_pass 121; sample_pass 131; sample_pass 141; sample_pass 151] ++ [sample_pass 161])) [1]
  = Some (Rejected 161000 "Fallback failed after 5 rounds, awaiting TimeLock sync").
Proof.
  apply (fallback_rounds_terminate sample_stalled [1] 0 0 (100 * NANOS)
           [sample_pass 110; sample_pass 121; sample_pass 131; sample_pass 141; sample_pass 151] (sample_pass 161));
    [vm_compute; reflexivity|by vm_compute| |by vm_compute].
  repeat split; by vm_compute.
Defined.

(** What the rounds gave up is out of reach of the TimeLock resolution. *)
Theorem exhausted_fallback_not_resolved :
  let e := passes sample_stalled (sample_pass <$> [110; 121; 131; 141; 151; 161]) in
  fallback_txs e = [] ∧ (resolve_stalls_via_timelock (sample_clock 600) e).2 = false.
Proof. vm_compute. done. Qed.

Definition sample_vote (d : FallbackVoteDecision) (who : string) (w : Z) : FallbackVote := mkFallbackVote 1 [9] d who w [].
Lemma fallback_decision_unique_witness :
  FvApprove = FvApprove ∧ 2 * 30 ≤ 3 * weight_of FvApprove [sample_vote FvApprove "a" 10; sample_vote FvApprove "b" 10; sample_vote FvReject "c" 10] + 2.
Proof.
  apply (fallback_decision_unique sample_engine 30 [9] [sample_vote FvApprove "a" 10; sample_vote FvApprove "b" 10; sample_vote FvReject "c" 10]
           FvApprove FvApprove); try (by vm_compute).
  - repeat constructor; cbn; lia.
  - apply list_elem_of_In. vm_compute. tauto.
  - apply list_elem_of_In. vm_compute. tauto.
Defined.

(** Votes repeated by one voter add up: one voter of weight 10 out of 100 decides. *)
Theorem repeated_votes_decide :
  last (decisions sample_engine 100 (replicate 7 (sample_vote FvApprove "a" 10))) = Some (Some FvApprove).
Proof. vm_compute. done. Qed.

(** The two elections choose different leaders of the same slot. *)
Definition sample_voters (names : list string) : AVSSnapshot := snapshot_new 0 0 ((λ a, (a, 10)) <$> names).
Theorem elections_disagree :
  let mns := [new_legacy "b" "w" 0 [1] Bronze 0; new_legacy "a" "w" 0 [2] Bronze 0] in
  elect_fallback_leader [] 0 0 (sample_voters (mn_address <$> mns)) [] = Some "a"%string
  ∧ compute_fallback_leader [] 0 mns [] = Some "b"%string.
Proof. vm_compute. done. Qed.

Lemma elect_leader_agree_witness :
  elect_fallback_leader [] 0 0 (sample_voters ["a"; "b"]) [] = elect_fallback_leader [] 0 0 (sample_voters ["b"; "a"]) [].
Proof.
  apply elect_leader_agree; [apply Permutation_swap|].
  intros v w Hv Hw. cbn in Hv, Hw. apply list_elem_of_In in Hv, Hw. cbn in Hv, Hw.
  destruct Hv as [<-|[<-|[]]], Hw as [<-|[<-|[]]]; by vm_compute.
Defined.
End fallback_samples.
