(* ===== verification/BlockLedger.v ===== *)
(** * Blocks and the UTXO set (src/blockchain.rs: UndoLog, process_block_utxos, the UTXO
    part of a rollback)

    A block spends the inputs and creates the outputs of its transactions in order, and
    leaves an undo log.  The abstract ledger keeps, of a UTXO manager, the stored
    outputs, their states and the tombstones; applying a block to a manager refines a
    fold of spends and creations on the ledger, and a rollback with the undo log
    inverts it. *)

From Stdlib Require Import ZArith Lia Ascii String.
From stdpp Require Import base gmap strings list.
From S2P Require Import Prelude Types Instances Storage UtxoManager UtxoProofs BlockTypes Utf8.

Record UndoLog := mkUndo {
  ul_height : Z;
  ul_block_hash : Hash256;
  spent_utxos : list (OutPoint * UTXO);
  finalized_txs : list Hash256;
  created_at : Z;
}.
Definition undo_new (now height : Z) (h : Hash256) : UndoLog := mkUndo height h [] [] now.
Definition add_spent_utxo (l : UndoLog) (o : OutPoint) (u : UTXO) : UndoLog :=
  mkUndo (ul_height l) (ul_block_hash l) (spent_utxos l ++ [(o, u)]) (finalized_txs l) (created_at l).

Section blocks.
Context {S : Type} `{UtxoStorage S} `{Externals} `{BlockExternals}.
Implicit Types m : UTXOStateManager S.

(** ** Application *)

Definition spend_input (now : Z) (acc : UTXOStateManager S * UndoLog) (i : TxInput) : UTXOStateManager S * UndoLog :=
  let '(m, l) := acc in
  let l := match get_utxo m (previous_output i) with Ok u => add_spent_utxo l (previous_output i) u | Err _ => l end in
  ((spend_utxo now m (previous_output i)).1, l).

Definition block_utxo (t : Hash256) (vout : nat) (o : TxOutput) : UTXO :=
  mkUTXO (mkOutPoint t (as_u32 (Z.of_nat vout))) (out_value o) (out_script_pubkey o)
    (from_utf8_lossy (out_script_pubkey o)) None.
Definition add_at (height : Z) m (u : UTXO) : UTXOStateManager S :=
  match add_utxo m u with
  | (m, Ok _) => record_utxo_height m (outpoint u) height
  | (m, Err _) => m
  end.
Definition create_output (height : Z) m (u : UTXO) : UTXOStateManager S :=
  if is_tombstoned m (outpoint u) then m else add_at height m u.

Definition tx_outputs (tx : Transaction) : list UTXO := imap (block_utxo (txid tx)) (outputs tx).
Definition process_tx (now height : Z) (acc : UTXOStateManager S * UndoLog) (tx : Transaction) : UTXOStateManager S * UndoLog :=
  let '(m, l) := foldl (spend_input now) acc (inputs tx) in
  (foldl (create_output height) m (tx_outputs tx), l).

(** The rewards of a genesis block without transactions. *)
Definition genesis_utxo (h : Hash256) (vout : nat) (r : string * Z) : UTXO :=
  mkUTXO (mkOutPoint h (as_u32 (Z.of_nat vout))) r.2 (str_bytes r.1) r.1 None.
Definition genesis_outputs (b : Block) : list UTXO :=
  filter (λ u, value u ≠ 0 ∧ address u ≠ ""%string) (imap (genesis_utxo (hash b)) (masternode_rewards b)).

Definition process_block_utxos (now : Z) m (b : Block) : UTXOStateManager S * UndoLog :=
  let height := bh_height (header b) in
  let m := if (height =? 0) && bool_decide (transactions b = [])
           then foldl (add_at height) m (genesis_outputs b) else m in
  foldl (process_tx now height) (m, undo_new now height (hash b)) (transactions b).

(** ** Rollback of one block *)

Definition block_outpoints (b : Block) : list OutPoint := outpoint <$> (transactions b ≫= tx_outputs).
Definition rollback_outputs m (b : Block) : UTXOStateManager S :=
  foldl (λ m o, (remove_utxo m o).1) m (block_outpoints b).
Definition restore_spent m (l : UndoLog) : UTXOStateManager S :=
  foldl (λ m e, (restore_utxo m e.2).1) m (spent_utxos l).
Definition rollback_utxos m (l : option UndoLog) (b : option Block) : UTXOStateManager S :=
  let m := match l with Some l => restore_spent m l | None => m end in
  match b with Some b => rollback_outputs m b | None => m end.
End blocks.

(** ** The abstract ledger *)

Record ledger := mkLedger { l_set : gmap OutPoint UTXO; l_state : gmap OutPoint UTXOState; l_tomb : gset OutPoint }.
Implicit Types L : ledger.

Definition lspend (now : Z) (o : OutPoint) L : ledger :=
  mkLedger (delete o (l_set L)) (<[o := SpentFinalized (replicate 32 0) now 0]> (l_state L)) ({[o]} ∪ l_tomb L).
Definition lstore (u : UTXO) (tomb : gset OutPoint) L : ledger :=
  mkLedger (<[outpoint u := u]> (l_set L)) (<[outpoint u := Unspent]> (l_state L)) tomb.
Definition lcreate (u : UTXO) L : ledger :=
  if bool_decide (outpoint u ∈ l_tomb L) then L
  else match l_state L !! outpoint u with None => lstore u (l_tomb L) L | Some _ => L end.
Definition lrestore L (u : UTXO) : ledger :=
  match l_state L !! outpoint u, l_set L !! outpoint u with
  | Some Unspent, Some _ => L
  | _, _ => lstore u (l_tomb L ∖ {[outpoint u]}) L
  end.
Definition lremove L (o : OutPoint) : ledger := mkLedger (delete o (l_set L)) (delete o (l_state L)) (l_tomb L).

Inductive lop := LSpend (o : OutPoint) | LCreate (u : UTXO).
Definition lstep (now : Z) (acc : ledger * list (OutPoint * UTXO)) (p : lop) : ledger * list (OutPoint * UTXO) :=
  match p with
  | LSpend o => (lspend now o acc.1, acc.2 ++ (match l_set acc.1 !! o with Some u => [(o, u)] | None => [] end))
  | LCreate u => (lcreate u acc.1, acc.2)
  end.
Definition lrun (now : Z) (acc : ledger * list (OutPoint * UTXO)) (ps : list lop) : ledger * list (OutPoint * UTXO) :=
  foldl (lstep now) acc ps.
Definition created (ps : list lop) : list UTXO := ps ≫= λ p, match p with LCreate u => [u] | LSpend _ => [] end.

(** What a valid block does: every output it spends is there and unspent, every output
    it creates is new. *)
Fixpoint fits (now : Z) L (ps : list lop) : Prop :=
  match ps with
  | [] => True
  | LSpend o :: ps =>
      (∃ u, l_set L !! o = Some u ∧ outpoint u = o) ∧ l_state L !! o = Some Unspent ∧ (o ∉ l_tomb L) ∧ fits now (lspend now o L) ps
  | LCreate u :: ps =>
      l_set L !! outpoint u = None ∧ l_state L !! outpoint u = None ∧ (outpoint u ∉ l_tomb L) ∧ fits now (lcreate u L) ps
  end.

(** *** One outpoint at a time *)

Definition cell L (o : OutPoint) : option UTXO * option UTXOState * bool :=
  (l_set L !! o, l_state L !! o, bool_decide (o ∈ l_tomb L)).
Definition spent_cell (now : Z) : option UTXO * option UTXOState * bool := (None, Some (SpentFinalized (replicate 32 0) now 0), true).
Definition stored_cell (u : UTXO) : option UTXO * option UTXOState * bool := (Some u, Some Unspent, false).
Definition empty_cell : option UTXO * option UTXOState * bool := (None, None, false).

Lemma ledger_ext L L' : (∀ o, cell L o = cell L' o) → L = L'.
Proof.
  intros Hc. destruct L as [s st t], L' as [s' st' t']. f_equal.
  - apply map_eq. intros o. specialize (Hc o). by injection Hc.
  - apply map_eq. intros o. specialize (Hc o). by injection Hc.
  - apply set_eq. intros o. specialize (Hc o). injection Hc as _ _ Hc. cbn in Hc.
    destruct (decide (o ∈ t)) as [H|H], (decide (o ∈ t')) as [H'|H']; try done.
    + by rewrite bool_decide_eq_true_2, bool_decide_eq_false_2 in Hc.
    + by rewrite bool_decide_eq_false_2, bool_decide_eq_true_2 in Hc.
Qed.

Lemma cell_lspend now k L o : cell (lspend now k L) o = if bool_decide (k = o) then spent_cell now else cell L o.
Proof.
  unfold cell. cbn. destruct (decide (k = o)) as [->|E].
  - rewrite lookup_delete_eq, lookup_insert_eq, !bool_decide_eq_true_2 by set_solver. done.
  - rewrite lookup_delete_ne, lookup_insert_ne, (bool_decide_eq_false_2 (k = o)) by done. f_equal. apply bool_decide_ext. set_solver.
Qed.
Lemma cell_lstore u t L o :
  cell (lstore u t L) o = if bool_decide (outpoint u = o) then (Some u, Some Unspent, bool_decide (o ∈ t))
                          else (l_set L !! o, l_state L !! o, bool_decide (o ∈ t)).
Proof.
  unfold cell. cbn. destruct (decide (outpoint u = o)) as [->|E].
  - by rewrite !lookup_insert_eq, (bool_decide_eq_true_2 (o = o)).
  - by rewrite !lookup_insert_ne, (bool_decide_eq_false_2 (outpoint u = o)).
Qed.
Lemma cell_lcreate u L o : cell L (outpoint u) = empty_cell →
  cell (lcreate u L) o = if bool_decide (outpoint u = o) then stored_cell u else cell L o.
Proof.
  intros [= H1 H2 H3]. unfold lcreate. rewrite H2, H3, cell_lstore. destruct (decide (outpoint u = o)) as [<-|E].
  - by rewrite !(bool_decide_eq_true_2 (outpoint u = outpoint u)), H3.
  - by rewrite !(bool_decide_eq_false_2 (outpoint u = o)).
Qed.
Lemma cell_lrestore now u L o : cell L (outpoint u) = spent_cell now →
  cell (lrestore L u) o = if bool_decide (outpoint u = o) then stored_cell u else cell L o.
Proof.
  intros [= H1 H2 H3]. unfold lrestore. rewrite H2, cell_lstore. destruct (decide (outpoint u = o)) as [<-|E].
  - rewrite !(bool_decide_eq_true_2 (outpoint u = outpoint u)) by done. unfold stored_cell.
    by rewrite bool_decide_eq_false_2 by set_solver.
  - rewrite !(bool_decide_eq_false_2 (outpoint u = o)) by done. unfold cell. f_equal. apply bool_decide_ext. set_solver.
Qed.
Lemma cell_lremove L k o :
  cell (lremove L k) o = if bool_decide (k = o) then (None, None, bool_decide (o ∈ l_tomb L)) else cell L o.
Proof.
  unfold cell. cbn. destruct (decide (k = o)) as [->|E].
  - by rewrite !lookup_delete_eq, (bool_decide_eq_true_2 (o = o)).
  - by rewrite !lookup_delete_ne, (bool_decide_eq_false_2 (k = o)).
Qed.

(** What a fitting run did to each outpoint. *)
Lemma fits_cells now ps L undo : fits now L ps →
  ∃ new, (lrun now (L, undo) ps).2 = undo ++ new ∧ NoDup new.*1 ∧ Forall (λ e, outpoint e.2 = e.1) new ∧
  ∀ o, let L' := (lrun now (L, undo) ps).1 in let cs := outpoint <$> created ps in
    (o ∉ new.*1 → o ∉ cs → cell L' o = cell L o)
    ∧ (∀ u, (o, u) ∈ new → cell L' o = spent_cell now ∧ (o ∉ cs → cell L o = stored_cell u))
    ∧ (o ∈ cs → cell L o = empty_cell ∧ (o ∉ new.*1 → ∃ u, cell L' o = stored_cell u)).
Proof.
  unfold lrun. revert L undo. induction ps as [|p ps IH]; intros L undo Hf; cbn [foldl].
  { exists []. split; [by rewrite app_nil_r|]. split; [constructor|]. split; [constructor|]. intros o. cbn.
    split; [done|]. split; [by intros u ?%elem_of_nil|by intros ?%elem_of_nil]. }
  destruct p as [k|u]; cbn [fits] in Hf.
  - destruct Hf as ((u & Hu & Ho) & Hst & Ht & Hf).
    assert (cell L k = stored_cell u) as Hk by (unfold cell; by rewrite Hu, Hst, bool_decide_eq_false_2).
    destruct (IH _ (undo ++ [(k, u)]) Hf) as (new & E & Hnd & Hall & Hcells). cbn [lstep fst snd]. rewrite Hu.
    exists ((k, u) :: new). split; [by rewrite E, <- app_assoc|].
    assert (cell (lspend now k L) k = spent_cell now) as Hs by (by rewrite cell_lspend, bool_decide_eq_true_2).
    destruct (Hcells k) as (_ & Hk2 & Hk3). rewrite Hs in Hk2, Hk3.
    assert (k ∉ outpoint <$> created ps) as Hkc by (by intros [? _]%Hk3).
    assert (k ∉ new.*1) as Hkn.
    { intros ([? v] & [= <-] & Hv)%list_elem_of_fmap. destruct (Hk2 v Hv) as [_ Hx]. by discriminate (Hx Hkc). }
    split; [by constructor|]. split; [by constructor|]. intros o. destruct (Hcells o) as (C1 & C2 & C3).
    rewrite cell_lspend in C1, C2, C3. cbv zeta. change (created (LSpend k :: ps)) with (created ps).
    destruct (decide (k = o)) as [<-|Hne].
    + split; [intros Hx; destruct Hx; by apply elem_of_cons; left|]. split; [|done].
      intros v Hv. rewrite (C1 Hkn Hkc), bool_decide_eq_true_2 by done. split; [done|].
      apply elem_of_cons in Hv as [[= ->]|Hv]; [done|]. destruct Hkn. apply list_elem_of_fmap. by exists (k, v).
    + rewrite bool_decide_eq_false_2 in C1, C2, C3 by done. cbn [fmap list_fmap fst]. rewrite !not_elem_of_cons.
      split; [intros [_ ?] ?; by apply C1|]. split; [intros v [[= <- _]|Hv]%elem_of_cons; [done|by apply C2]|].
      intros Hc. destruct (C3 Hc) as [? C]. split; [done|]. intros [_ ?]. by apply C.
  - destruct Hf as (H1 & H2 & H3 & Hf).
    assert (cell L (outpoint u) = empty_cell) as Hk by (unfold cell; by rewrite H1, H2, bool_decide_eq_false_2).
    destruct (IH _ undo Hf) as (new & E & Hnd & Hall & Hcells). cbn [lstep fst snd]. exists new. split_and!; [done..|].
    destruct (Hcells (outpoint u)) as (_ & Hk2 & Hk3).
    rewrite (cell_lcreate u L _ Hk), bool_decide_eq_true_2 in Hk2, Hk3 by done.
    assert (outpoint u ∉ outpoint <$> created ps) as Hkc by (by intros [? _]%Hk3).
    intros o. destruct (Hcells o) as (C1 & C2 & C3). rewrite (cell_lcreate u L o Hk) in C1, C2, C3.
    cbv zeta. change (created (LCreate u :: ps)) with (u :: created ps). rewrite fmap_cons, not_elem_of_cons, elem_of_cons.
    destruct (decide (outpoint u = o)) as [<-|Hne].
    + rewrite bool_decide_eq_true_2 in C1, C2, C3 by done. split; [by intros _ [? _]|].
      split; [intros v Hv; destruct (C2 v Hv) as [? _]; split; [done|intros Hc; destruct Hc; by apply elem_of_cons; left]|].
      intros _. split; [done|]. intros Hn. exists u. by apply C1.
    + rewrite bool_decide_eq_false_2 in C1, C2, C3 by done. split; [by intros ? [_ ?]; apply C1|].
      split; [intros v Hv; destruct (C2 v Hv) as [? C]; split; [done|intros Hc; apply C; intros ?; apply Hc; by apply elem_of_cons; right]|].
      intros [->|Hc]; [done|]. by apply C3.
Qed.

Lemma restore_cells now new L o :
  NoDup new.*1 → Forall (λ e, outpoint e.2 = e.1) new → (∀ k, k ∈ new.*1 → cell L k = spent_cell now) →
  let L' := foldl (λ L e, lrestore L e.2) L new in
  (o ∉ new.*1 → cell L' o = cell L o) ∧ ∀ u, (o, u) ∈ new → cell L' o = stored_cell u.
Proof.
  revert L. induction new as [|[k u] new IH]; intros L Hnd Hall Hsp; cbv zeta; cbn [foldl].
  { split; [done|]. by intros u ?%elem_of_nil. }
  cbn in Hnd. apply NoDup_cons in Hnd as [Hk Hnd]. apply Forall_cons in Hall as [Eo Hall]. cbn in Eo. subst k.
  assert (cell L (outpoint u) = spent_cell now) as Hc by (apply Hsp; cbn; by apply elem_of_cons; left).
  destruct (IH (lrestore L u) Hnd Hall) as [I1 I2].
  { intros k Hin. rewrite (cell_lrestore now) by done. rewrite bool_decide_eq_false_2 by (by intros <-).
    apply Hsp. cbn. by apply elem_of_cons; right. }
  cbn [snd]. split.
  - intros [Hne Hn]%not_elem_of_cons. rewrite (I1 Hn), (cell_lrestore now) by done. by rewrite bool_decide_eq_false_2.
  - intros v [[= -> ->]|Hv]%elem_of_cons; [|by apply I2].
    rewrite (I1 Hk), (cell_lrestore now) by done. by rewrite bool_decide_eq_true_2.
Qed.
Lemma remove_cells os L o :
  cell (foldl lremove L os) o = if bool_decide (o ∈ os) then (None, None, (cell L o).2) else cell L o.
Proof.
  revert L. induction os as [|k os IH]; intros L; cbn [foldl]; [by rewrite bool_decide_eq_false_2 by apply not_elem_of_nil|].
  rewrite IH, cell_lremove. destruct (decide (k = o)) as [->|Hne].
  - rewrite (bool_decide_eq_true_2 (o = o)), (bool_decide_eq_true_2 (o ∈ o :: os)) by (done || by apply elem_of_cons; left).
    by case_bool_decide.
  - rewrite (bool_decide_eq_false_2 (k = o)) by done. destruct (decide (o ∈ os)) as [Hin|Hn].
    + by rewrite !bool_decide_eq_true_2 by (done || by apply elem_of_cons; right).
    + rewrite !bool_decide_eq_false_2; [done| |done]. by intros [?|?]%elem_of_cons.
Qed.

(** Undoing a fitting run gives the ledger back. *)
Definition lundo L (undo : list (OutPoint * UTXO)) (os : list OutPoint) : ledger :=
  foldl lremove (foldl (λ L e, lrestore L e.2) L undo) os.
Lemma lundo_run now L ps : fits now L ps →
  lundo (lrun now (L, []) ps).1 (lrun now (L, []) ps).2 (outpoint <$> created ps) = L.
Proof.
  intros Hf. destruct (fits_cells now ps L [] Hf) as (new & E & Hnd & Hall & Hc). rewrite E. cbn [app].
  apply ledger_ext. intros o. unfold lundo. rewrite remove_cells.
  destruct (restore_cells now new (lrun now (L, []) ps).1 o Hnd Hall) as [R1 R2].
  { intros k ([k' v] & -> & Hv)%list_elem_of_fmap. destruct (Hc k') as (_ & C & _). by destruct (C v Hv). }
  destruct (Hc o) as (C1 & C2 & C3). destruct (decide (o ∈ new.*1)) as [Hn|Hn].
  - apply list_elem_of_fmap in Hn as ([k v] & -> & Hv). rewrite (R2 v Hv). destruct (C2 v Hv) as [_ C].
    destruct (decide (k ∈ outpoint <$> created ps)) as [Hin|Hnin].
    + rewrite bool_decide_eq_true_2 by done. by destruct (C3 Hin) as [-> _].
    + rewrite bool_decide_eq_false_2 by done. by rewrite C.
  - rewrite (R1 Hn). destruct (decide (o ∈ outpoint <$> created ps)) as [Hin|Hnin].
    + rewrite bool_decide_eq_true_2 by done. destruct (C3 Hin) as [-> C]. by destruct (C Hn) as [u ->].
    + rewrite bool_decide_eq_false_2 by done. by apply C1.
Qed.

(** *** Values *)

Definition set_value (s : gmap OutPoint UTXO) : Z := sumZ (value <$> (map_to_list s).*2).
Lemma set_value_insert s o u : s !! o = None → set_value (<[o := u]> s) = value u + set_value s.
Proof. intros Hn. unfold set_value. by rewrite map_to_list_insert by done. Qed.
Lemma set_value_delete s o u : s !! o = Some u → set_value s = value u + set_value (delete o s).
Proof. intros Hs. rewrite <- (insert_delete_id s o u) at 1 by done. apply set_value_insert, lookup_delete_eq. Qed.

Lemma lrun_value now ps L undo : fits now L ps →
  set_value (l_set (lrun now (L, undo) ps).1) + sumZ (value <$> (lrun now (L, undo) ps).2.*2)
  = set_value (l_set L) + sumZ (value <$> undo.*2) + sumZ (value <$> created ps).
Proof.
  unfold lrun. revert L undo. induction ps as [|p ps IH]; intros L undo Hf; [change (sumZ (value <$> created [])) with 0; cbn [foldl fst snd]; lia|]. cbn [foldl].
  destruct p as [k|u]; cbn [fits] in Hf; cbn [lstep fst snd].
  - destruct Hf as ((u & Hu & _) & _ & _ & Hf). rewrite Hu, (IH _ _ Hf). rewrite !fmap_app, sumZ_app. cbn [lspend l_set].
    rewrite (set_value_delete (l_set L) k u Hu). change (created (LSpend k :: ps)) with (created ps).
    change (value <$> [(k, u)].*2) with [value u]. rewrite sumZ_cons. change (sumZ []) with 0. lia.
  - destruct Hf as (H1 & H2 & H3 & Hf). rewrite (IH _ _ Hf). change (created (LCreate u :: ps)) with (u :: created ps).
    rewrite fmap_cons, sumZ_cons. unfold lcreate. rewrite bool_decide_eq_false_2, H2 by done. cbn [lstore l_set].
    rewrite set_value_insert by done. lia.
Qed.

(** ** Refinement *)

Section refinement.
Context {S : Type} `{UtxoStorageLaws S} `{!StorageReliable S} `{MapIter} `{Externals} `{BlockExternals}.
Implicit Types m : UTXOStateManager S.

Definition content m : ledger := mkLedger (st_view (storage m)) (utxo_states m) (spent_tombstones m).

Definition tx_ops (tx : Transaction) : list lop := (LSpend ∘ previous_output <$> inputs tx) ++ (LCreate <$> tx_outputs tx).
Definition block_ops (b : Block) : list lop :=
  (if (bh_height (header b) =? 0) && bool_decide (transactions b = []) then LCreate <$> genesis_outputs b else [])
  ++ (transactions b ≫= tx_ops).

Lemma content_spend now m o : inv m → content (spend_utxo now m o).1 = lspend now o (content m).
Proof.
  intros Hi. unfold spend_utxo.
  assert (∃ m1, (if is_collateral_locked m o then (unlock_collateral m o).1 else m) = m1 ∧ storage m1 = storage m
    ∧ utxo_states m1 = utxo_states m ∧ spent_tombstones m1 = spent_tombstones m) as (m1 & -> & F1 & F2 & F3).
  { eexists. split; [done|]. destruct (is_collateral_locked m o); [|done]. unfold unlock_collateral. by destruct (_ !! o). }
  destruct (unindex_fields o m1) as (E1 & E2 & E3 & E4 & E5 & E6 & E7 & E8). rewrite E1, F1.
  destruct (st_remove_ok (storage m) o) as [s Hs]. rewrite Hs. destruct (st_remove_view _ _ _ (inv_wf m Hi) Hs) as [_ Hv].
  unfold content, lspend. cbn. rewrite Hv. f_equal; congruence.
Qed.
Lemma content_create h m u : inv m → content (create_output h m u) = lcreate u (content m).
Proof.
  intros Hi. unfold create_output, lcreate, is_tombstoned, add_at, add_utxo. cbn [content l_tomb l_state].
  destruct (bool_decide (outpoint u ∈ spent_tombstones m)); [done|].
  destruct (utxo_states m !! outpoint u) as [[]|]; try done.
  destruct (st_add_ok (storage m) u) as [s Hs]. rewrite Hs. destruct (st_add_view _ _ _ (inv_wf m Hi) Hs) as [_ Hv].
  unfold content, lstore. cbn. by rewrite Hv.
Qed.
Lemma content_add_at h m u : inv m → content (add_at h m u) = lcreate u (content m).
Proof.
  intros Hi. rewrite <- (content_create h) by done. unfold create_output, is_tombstoned, add_at, add_utxo.
  by destruct (bool_decide (outpoint u ∈ spent_tombstones m)).
Qed.
Lemma content_restore m u : inv m → content (restore_utxo m u).1 = lrestore (content m) u.
Proof.
  intros Hi. unfold restore_utxo, already_restored, lrestore. cbn [content l_state l_set l_tomb].
  rewrite (st_get_view _ _ (inv_wf m Hi)).
  assert (∀ s, st_add_utxo (storage m) u = Ok s → st_view s = <[outpoint u := u]> (st_view (storage m))) as Hv.
  { intros s Hs. by destruct (st_add_view _ _ _ (inv_wf m Hi) Hs). }
  destruct (st_add_ok (storage m) u) as [s Hs].
  destruct (utxo_states m !! outpoint u) as [[]|]; [destruct (st_view (storage m) !! outpoint u)|..];
    cbn; rewrite ?Hs; unfold content, lstore; cbn; rewrite ?(Hv s Hs); done.
Qed.
Lemma content_remove m o : inv m → content (remove_utxo m o).1 = lremove (content m) o.
Proof.
  intros Hi. unfold remove_utxo. destruct (unindex_fields o m) as (E1 & E2 & E3 & E4 & E5 & E6 & E7 & E8). rewrite E1.
  destruct (st_remove_ok (storage m) o) as [s Hs]. rewrite Hs. destruct (st_remove_view _ _ _ (inv_wf m Hi) Hs) as [_ Hv].
  unfold content, lremove. case_match; cbn; rewrite Hv; f_equal; congruence.
Qed.

Lemma inv_add_at h m u : inv m → inv (add_at h m u).
Proof.
  intros Hi. pose proof (inv_add_utxo m u Hi) as Ha. unfold add_at. destruct (add_utxo m u) as [m' [|]]; [|done].
  by apply (inv_same m').
Qed.
Lemma inv_create h m u : inv m → inv (create_output h m u).
Proof. intros Hi. unfold create_output. case_match; [done|by apply inv_add_at]. Qed.

(** The two loops over a transaction. *)
Lemma spend_loop now ins m l : inv m →
  let r := foldl (spend_input now) (m, l) ins in
  inv r.1 ∧ (content r.1, spent_utxos r.2) = lrun now (content m, spent_utxos l) (LSpend ∘ previous_output <$> ins).
Proof.
  revert m l. induction ins as [|i ins IH]; intros m l Hi; cbv zeta; cbn [foldl]; [done|].
  pose proof (content_spend now m (previous_output i) Hi) as Hc. pose proof (inv_spend_utxo now m (previous_output i) Hi) as Hi'.
  set (l' := match get_utxo m (previous_output i) with Ok u => add_spent_utxo l (previous_output i) u | Err _ => l end).
  change (spend_input now (m, l) i) with ((spend_utxo now m (previous_output i)).1, l').
  destruct (IH _ l' Hi') as [Hi2 E]. split; [done|]. rewrite E, Hc.
  cbn [fmap list_fmap lrun foldl]. unfold lrun. cbn [lstep fst snd]. do 2 f_equal.
  unfold l', get_utxo. rewrite (st_get_view _ _ (inv_wf m Hi)). cbn [content l_set compose].
  cbn [lstep fst snd content l_set]. f_equal.
  destruct (st_view (storage m) !! previous_output i); cbn; [done|by rewrite app_nil_r].
Qed.
Lemma create_loop now h us m undo : inv m →
  let m' := foldl (create_output h) m us in inv m' ∧ (content m', undo) = lrun now (content m, undo) (LCreate <$> us).
Proof.
  revert m. induction us as [|u us IH]; intros m Hi; cbv zeta; cbn [foldl]; [done|].
  destruct (IH (create_output h m u) (inv_create h m u Hi)) as [Hi2 E]. split; [done|].
  rewrite E, (content_create h m u Hi). done.
Qed.
Lemma add_loop now h us m undo : inv m →
  let m' := foldl (add_at h) m us in inv m' ∧ (content m', undo) = lrun now (content m, undo) (LCreate <$> us).
Proof.
  revert m. induction us as [|u us IH]; intros m Hi; cbv zeta; cbn [foldl]; [done|].
  destruct (IH (add_at h m u) (inv_add_at h m u Hi)) as [Hi2 E]. split; [done|].
  rewrite E, (content_add_at h m u Hi). done.
Qed.
Lemma tx_loop now h txs m l : inv m →
  let r := foldl (process_tx now h) (m, l) txs in
  inv r.1 ∧ (content r.1, spent_utxos r.2) = lrun now (content m, spent_utxos l) (txs ≫= tx_ops).
Proof.
  revert m l. induction txs as [|tx txs IH]; intros m l Hi; cbv zeta; cbn [foldl]; [done|].
  pose proof (spend_loop now (inputs tx) m l Hi) as [Hi1 E1].
  assert (process_tx now h (m, l) tx = (foldl (create_output h) (foldl (spend_input now) (m, l) (inputs tx)).1 (tx_outputs tx),
    (foldl (spend_input now) (m, l) (inputs tx)).2)) as -> by (unfold process_tx; by destruct (foldl _ _ _)).
  destruct (foldl (spend_input now) (m, l) (inputs tx)) as [m1 l1]. cbn [fst snd] in *.
  destruct (create_loop now h (tx_outputs tx) m1 (spent_utxos l1) Hi1) as [Hi2 E2].
  destruct (IH _ l1 Hi2) as [Hi3 E3]. split; [done|]. rewrite E3, E2, E1. unfold lrun, tx_ops.
  change ((tx :: txs) ≫= λ tx, (LSpend ∘ previous_output <$> inputs tx) ++ (LCreate <$> tx_outputs tx))
    with (((LSpend ∘ previous_output <$> inputs tx) ++ (LCreate <$> tx_outputs tx)) ++ (txs ≫= tx_ops)).
  by rewrite !foldl_app.
Qed.

Lemma process_block_lrun now m b : inv m →
  let r := process_block_utxos now m b in
  inv r.1 ∧ (content r.1, spent_utxos r.2) = lrun now (content m, []) (block_ops b).
Proof.
  intros Hi. cbv zeta. unfold process_block_utxos, block_ops.
  set (m1 := if _ : bool then foldl (add_at _) m _ else m).
  assert (inv m1 ∧ (content m1, []) = lrun now (content m, [])
    (if (bh_height (header b) =? 0) && bool_decide (transactions b = []) then LCreate <$> genesis_outputs b else [])) as [Hi1 E1].
  { unfold m1. destruct ((_ =? 0) && _); [by apply add_loop|done]. }
  destruct (tx_loop now (bh_height (header b)) (transactions b) m1 (undo_new now (bh_height (header b)) (hash b)) Hi1) as [Hi2 E2].
  split; [done|]. rewrite E2. cbn [undo_new spent_utxos]. rewrite E1. unfold lrun. by rewrite foldl_app.
Qed.

(** ** Rollback *)

Lemma rollback_lundo m l b : inv m →
  inv (rollback_utxos m (Some l) (Some b))
  ∧ content (rollback_utxos m (Some l) (Some b)) = lundo (content m) (spent_utxos l) (block_outpoints b).
Proof.
  intros Hi. unfold rollback_utxos, restore_spent, rollback_outputs, lundo.
  assert (∀ us m, inv m → inv (foldl (λ m (e : OutPoint * UTXO), (restore_utxo m e.2).1) m us)
    ∧ content (foldl (λ m e, (restore_utxo m e.2).1) m us) = foldl (λ L e, lrestore L e.2) (content m) us) as Hr.
  { induction us as [|e us IH]; intros m' Hi'; [done|]. cbn. rewrite <- content_restore by done.
    by apply IH, inv_restore_utxo. }
  assert (∀ os m, inv m → inv (foldl (λ m o, (remove_utxo m o).1) m os)
    ∧ content (foldl (λ m o, (remove_utxo m o).1) m os) = foldl lremove (content m) os) as Hd.
  { induction os as [|o os IH]; intros m' Hi'; [done|]. cbn. rewrite <- content_remove by done.
    by apply IH, inv_remove_utxo. }
  destruct (Hr (spent_utxos l) m Hi) as [Hi1 E1]. destruct (Hd (block_outpoints b) _ Hi1) as [Hi2 E2].
  by rewrite E2, E1.
Qed.

Lemma created_block_ops b : (bh_height (header b) =? 0) && bool_decide (transactions b = []) = false →
  outpoint <$> created (block_ops b) = block_outpoints b.
Proof.
  intros Hg. unfold block_ops, block_outpoints. rewrite Hg. cbn [app]. f_equal.
  assert (∀ l l', created (l ++ l') = created l ++ created l') as Happ by (intros l l'; unfold created; by rewrite bind_app).
  assert (∀ ins, created (LSpend ∘ previous_output <$> ins) = []) as Hs by (induction ins as [|i ins IH]; [done|]; exact IH).
  assert (∀ us, created (LCreate <$> us) = us) as Hc.
  { induction us as [|u us IH]; [done|]. rewrite fmap_cons. change (created (LCreate u :: (LCreate <$> us))) with (u :: created (LCreate <$> us)). by rewrite IH. }
  clear Hg. induction (transactions b) as [|tx txs IH]; [done|].
  rewrite !bind_cons, Happ, IH. unfold tx_ops. by rewrite Happ, Hs, Hc.
Qed.

(** C24: Applying a block to the UTXO manager, over any storage backend that keeps the laws
    of the storage interface and whose writes do not fail, and from any consistent state, is
    running the spends and creations of its transactions in order on an abstract ledger of
    stored outputs, states and tombstones, with the same undo log. *)
Theorem block_refines_ledger now m b : inv m →
  let r := process_block_utxos now m b in
  inv r.1 ∧ (content r.1, spent_utxos r.2) = lrun now (content m, []) (block_ops b).
Proof. exact (process_block_lrun now m b). Qed.

Lemma rollback_block now m b : inv m → fits now (content m) (block_ops b) →
  (bh_height (header b) =? 0) && bool_decide (transactions b = []) = false →
  let r := process_block_utxos now m b in
  ∀ m', inv m' → content m' = content r.1 →
  inv (rollback_utxos m' (Some r.2) (Some b)) ∧ content (rollback_utxos m' (Some r.2) (Some b)) = content m.
Proof.
  intros Hi Hf Hg. cbv zeta. destruct (process_block_lrun now m b Hi) as [_ E].
  intros m' Hi' Hc. destruct (rollback_lundo m' (process_block_utxos now m b).2 b Hi') as [Hi2 ->]. split; [done|].
  rewrite Hc, <- (created_block_ops b Hg). pose proof (lundo_run now (content m) (block_ops b) Hf) as Hl. by rewrite <- E in Hl.
Qed.

(** Blocks applied one after the other, the newest undo log first. *)
Definition apply_one (acc : UTXOStateManager S * list (UndoLog * Block)) (nb : Z * Block) : UTXOStateManager S * list (UndoLog * Block) :=
  let '(m, log) := acc in let '(m', l) := process_block_utxos nb.1 m nb.2 in (m', (l, nb.2) :: log).
Definition apply_blocks m (bs : list (Z * Block)) : UTXOStateManager S * list (UndoLog * Block) := foldl apply_one (m, []) bs.
Definition rollback_blocks m (log : list (UndoLog * Block)) : UTXOStateManager S :=
  foldl (λ m e, rollback_utxos m (Some e.1) (Some e.2)) m log.
Fixpoint chain_fits m (bs : list (Z * Block)) : Prop :=
  match bs with
  | [] => True
  | (now, b) :: bs =>
      fits now (content m) (block_ops b) ∧ (bh_height (header b) =? 0) && bool_decide (transactions b = []) = false
      ∧ chain_fits (process_block_utxos now m b).1 bs
  end.

Lemma apply_blocks_log m log bs :
  foldl apply_one (m, log) bs = ((apply_blocks m bs).1, (apply_blocks m bs).2 ++ log).
Proof.
  unfold apply_blocks. revert m log. induction bs as [|nb bs IH]; intros m log; [done|]. cbn [foldl apply_one].
  destruct (process_block_utxos nb.1 m nb.2) as [m' l]. rewrite IH, (IH m' [(l, nb.2)]). cbn [fst snd]. by rewrite <- app_assoc.
Qed.
Lemma rollback_applied m bs : inv m → chain_fits m bs →
  let r := apply_blocks m bs in
  inv r.1 ∧ ∀ m', inv m' → content m' = content r.1 → inv (rollback_blocks m' r.2) ∧ content (rollback_blocks m' r.2) = content m.
Proof.
  revert m. induction bs as [|[now b] bs IH]; intros m Hi Hf; cbv zeta; [split; [done|]; intros m' Hi' Hc; by split|].
  destruct Hf as (Hf & Hg & Hfs). unfold apply_blocks. cbn [foldl apply_one fst snd].
  destruct (process_block_lrun now m b Hi) as [Hi1 _]. pose proof (rollback_block now m b Hi Hf Hg) as Hb.
  destruct (process_block_utxos now m b) as [m1 l]. cbn [fst snd] in *. rewrite apply_blocks_log. cbn [fst snd].
  destruct (IH m1 Hi1 Hfs) as [Hi2 Hr]. split; [done|]. intros m' Hi' Hc. unfold rollback_blocks in *. rewrite foldl_app. cbn [foldl fst snd].
  destruct (Hr m' Hi' Hc) as [Hi3 Hc3]. by apply Hb.
Qed.

(** A reorganisation restores the UTXO set: applying blocks and then rolling them back,
    newest first, with the undo logs they left gives back exactly the stored outputs, states
    and tombstones there were, when each block spends outputs that are stored and creates
    outputs that are new. *)
Theorem apply_rollback_roundtrip m bs : inv m → chain_fits m bs →
  let r := apply_blocks m bs in content (rollback_blocks r.1 r.2) = content m.
Proof. intros Hi Hf. cbv zeta. destruct (rollback_applied m bs Hi Hf) as [Hi' Hr]. by apply Hr. Qed.

(** A block changes the value of the UTXO set by the outputs it creates less the outputs in
    its undo log, and each of those was stored before the block or was created by it. *)
Theorem block_conserves_value now m b : inv m → fits now (content m) (block_ops b) →
  let r := process_block_utxos now m b in
  set_value (st_view (storage r.1)) + sumZ (value <$> (spent_utxos r.2).*2)
  = set_value (st_view (storage m)) + sumZ (value <$> created (block_ops b))
  ∧ Forall (λ e, st_view (storage m) !! e.1 = Some e.2 ∨ e.1 ∈ outpoint <$> created (block_ops b)) (spent_utxos r.2).
Proof.
  intros Hi Hf. cbv zeta. destruct (process_block_lrun now m b Hi) as [_ E].
  pose proof (lrun_value now (block_ops b) (content m) [] Hf) as Hv.
  destruct (fits_cells now (block_ops b) (content m) [] Hf) as (new & En & _ & _ & Hc). rewrite <- E in Hv, En. cbn [fst snd app] in *.
  change (l_set (content ?x)) with (st_view (storage x)) in Hv. change (sumZ (value <$> [].*2)) with 0 in Hv. split; [lia|].
  rewrite En. apply Forall_forall. intros [o u] Hin. cbn. destruct (decide (o ∈ outpoint <$> created (block_ops b))); [by right|left].
  destruct (Hc o) as (_ & C & _). destruct (C u Hin) as [_ Hs]. by injection (Hs n).
Qed.
End refinement.

(** Evaluates one condition of [fits] on a concrete ledger. *)
Ltac fits_step :=
  match goal with
  | |- True => exact I
  | |- _ ∧ _ => split
  | |- ∃ u, _ = Some u ∧ _ => eexists; split; [vm_compute; reflexivity|vm_compute; reflexivity]
  | |- _ ∉ _ => apply (bool_decide_unpack _); vm_compute; exact I
  | |- _ => vm_compute; reflexivity
  end.
Section ledger_samples.
#[local] Existing Instance tagged_externals.
#[local] Existing Instance canonical_iter.
Definition ledger_block_externals : BlockExternals := {|
  blake3 := tagged_digest; block_bincode b := Some []; verify_strict pk m s := true |}.
#[local] Existing Instance ledger_block_externals.

Definition ledger_header (h : Z) : BlockHeader :=
  mkHeader 1 h [] [] 0 0 "a" [] (mkTierCounts 0 0 0 0) [] [] 0 [] None [] 0 0.
(** A reward, and a payment that spends an output and one of the reward. *)
Definition ledger_reward : Transaction := mkTransaction 1 [] [mkTxOutput 40 [65]; mkTxOutput 60 [66]] 0 7 None None.
Definition ledger_payment : Transaction :=
  mkTransaction 2 [mkTxInput (w_op 1) [] 0; mkTxInput (mkOutPoint (txid ledger_reward) 1) [] 0] [mkTxOutput 150 [67]] 0 8 None None.
Definition ledger_block : Block := mkBlock (ledger_header 1) [ledger_reward; ledger_payment] [] [] [] None.

Lemma ledger_fits : fits 5 (content w_started) (block_ops ledger_block).
Proof. vm_compute block_ops. cbn [fits]. repeat fits_step. Qed.

Lemma block_refines_ledger_witness :
  (content (process_block_utxos 5 w_started ledger_block).1, spent_utxos (process_block_utxos 5 w_started ledger_block).2)
  = lrun 5 (content w_started, []) (block_ops ledger_block).
Proof. apply (block_refines_ledger 5 w_started ledger_block), w_inv. Defined.
Lemma apply_rollback_roundtrip_witness :
  let r := apply_blocks w_started [(5, ledger_block)] in content (rollback_blocks r.1 r.2) = content w_started.
Proof. apply (apply_rollback_roundtrip w_started [(5, ledger_block)]); [apply w_inv|]. split; [exact ledger_fits|done]. Defined.
Lemma block_conserves_value_witness :
  let r := process_block_utxos 5 w_started ledger_block in
  set_value (st_view (storage r.1)) + sumZ (value <$> (spent_utxos r.2).*2)
  = set_value (st_view (storage w_started)) + sumZ (value <$> created (block_ops ledger_block)).
Proof. apply (block_conserves_value 5 w_started ledger_block); [apply w_inv|exact ledger_fits]. Defined.

(** The inputs of a transaction finalized before its block are not in the undo log: a
    rollback does not bring them back, while its outputs are removed. *)
Theorem finalized_inputs_not_undone :
  let m := mark_timevote_finalized 4 w_started (w_op 1) (txid ledger_payment) in
  let r := process_block_utxos 5 m (mkBlock (ledger_header 1)
             [mkTransaction 2 [mkTxInput (w_op 1) [] 0] [mkTxOutput 90 [67]] 0 8 None None] [] [] [] None) in
  spent_utxos r.2 = []
  ∧ set_value (st_view (storage (rollback_blocks r.1 [(r.2, mkBlock (ledger_header 1)
        [mkTransaction 2 [mkTxInput (w_op 1) [] 0] [mkTxOutput 90 [67]] 0 8 None None] [] [] [] None)]))) = 0
  ∧ set_value (st_view (storage w_started)) = 100.
Proof. vm_compute. done. Qed.
End ledger_samples.
