(* ===== verification/Registry.v ===== *)
(** * The masternode registry (src/masternode_registry.rs)

    The on-chain part of the registry: slot identifiers, registrations,
    deregistrations and payout updates taken from blocks, the undo of a registration,
    collateral anchors, collateral checks, activity, suspension, reward counters and
    the participation bitmap.  The HashMap of masternodes is [masternodes]; the three
    sled name spaces used here are [mnreg], [next_slot_id] and [anchors].  The records
    written under [masternode:] only serve the next start and are left out, and so is
    the admission of peers by gossip and handshake ([register_internal]).  The caches
    read by the consensus engine are the two [cached] lists. *)

From Stdlib Require Import ZArith Lia Ascii String.
From stdpp Require Import base gmap strings list pretty.
From S2P Require Import Prelude Types Instances Address Storage UtxoManager BlockTypes.

Record MasternodeOnchainInfo := mkOnchain {
  oc_node_address : string;
  oc_wallet_address : string;
  oc_reward_address : string;
  oc_collateral_outpoint : string;
  oc_pubkey : string;
  oc_slot_id : Z;
  oc_registration_height : Z;
  oc_registration_txid : string;
}.

Record MasternodeRegistry := mkRegistry {
  masternodes : gmap string MasternodeInfo;
  mnreg : gmap string MasternodeOnchainInfo;
  next_slot_id : Z;
  anchors : gmap string string;
  cached_active : list MasternodeInfo;
  cached_all : list MasternodeInfo;
  collateral_miss_counts : gmap string Z;
  gossip_removal_cooldown : gmap string Z;
  pending_collateral_unlocks : list OutPoint;
  pending_collateral_locks : list (OutPoint * string * Z * Z);
  local_masternode_address : option string;
  reg_started_at : Z;
  reg_height : Z;
}.
Implicit Types (r : MasternodeRegistry) (i : MasternodeInfo).

Definition SLOT_UNIQUENESS_FORK_HEIGHT : Z := 200.
Definition COLLATERAL_OWNERSHIP_FORK_HEIGHT : Z := 1200.
Definition REPORT_EXPIRY_SECS : Z := 600.
Definition AUTO_REMOVE_AFTER_SECS : Z := 3600.
Definition STARTUP_GRACE_PERIOD_SECS : Z := 120.
Definition REACHABILITY_RECHECK_SECS : Z := 600.
Definition REACHABILITY_GRACE_PERIOD_SECS : Z := 300.

(** ** Field updates *)

Definition set_nodes (m : gmap string MasternodeInfo) r : MasternodeRegistry :=
  mkRegistry m (mnreg r) (next_slot_id r) (anchors r) (cached_active r) (cached_all r) (collateral_miss_counts r)
    (gossip_removal_cooldown r) (pending_collateral_unlocks r) (pending_collateral_locks r) (local_masternode_address r)
    (reg_started_at r) (reg_height r).
Definition set_mnreg (m : gmap string MasternodeOnchainInfo) (n : Z) r : MasternodeRegistry :=
  mkRegistry (masternodes r) m n (anchors r) (cached_active r) (cached_all r) (collateral_miss_counts r)
    (gossip_removal_cooldown r) (pending_collateral_unlocks r) (pending_collateral_locks r) (local_masternode_address r)
    (reg_started_at r) (reg_height r).
Definition set_anchors (a : gmap string string) r : MasternodeRegistry :=
  mkRegistry (masternodes r) (mnreg r) (next_slot_id r) a (cached_active r) (cached_all r) (collateral_miss_counts r)
    (gossip_removal_cooldown r) (pending_collateral_unlocks r) (pending_collateral_locks r) (local_masternode_address r)
    (reg_started_at r) (reg_height r).
Definition set_misses (m : gmap string Z) r : MasternodeRegistry :=
  mkRegistry (masternodes r) (mnreg r) (next_slot_id r) (anchors r) (cached_active r) (cached_all r) m
    (gossip_removal_cooldown r) (pending_collateral_unlocks r) (pending_collateral_locks r) (local_masternode_address r)
    (reg_started_at r) (reg_height r).
Definition set_cooldown (m : gmap string Z) r : MasternodeRegistry :=
  mkRegistry (masternodes r) (mnreg r) (next_slot_id r) (anchors r) (cached_active r) (cached_all r) (collateral_miss_counts r)
    m (pending_collateral_unlocks r) (pending_collateral_locks r) (local_masternode_address r)
    (reg_started_at r) (reg_height r).
Definition set_queues (u : list OutPoint) (l : list (OutPoint * string * Z * Z)) r : MasternodeRegistry :=
  mkRegistry (masternodes r) (mnreg r) (next_slot_id r) (anchors r) (cached_active r) (cached_all r) (collateral_miss_counts r)
    (gossip_removal_cooldown r) u l (local_masternode_address r) (reg_started_at r) (reg_height r).
Definition update_height r (h : Z) : MasternodeRegistry :=
  mkRegistry (masternodes r) (mnreg r) (next_slot_id r) (anchors r) (cached_active r) (cached_all r) (collateral_miss_counts r)
    (gossip_removal_cooldown r) (pending_collateral_unlocks r) (pending_collateral_locks r) (local_masternode_address r)
    (reg_started_at r) h.

Definition set_masternode (mn : Masternode) i : MasternodeInfo :=
  mkMasternodeInfo mn (reward_address i) (uptime_start i) (total_uptime i) (is_active i) (consensus_suspended i)
    (daemon_started_at i) (last_reward_height i) (blocks_without_reward i) (registration_height i) (registration_source i)
    (peer_reports i) (operator_pubkey i) (is_publicly_reachable i) (reachability_checked_at i) (first_seen_at i) (last_seen_at i).
Definition set_reward_address (a : string) i : MasternodeInfo :=
  mkMasternodeInfo (masternode i) a (uptime_start i) (total_uptime i) (is_active i) (consensus_suspended i)
    (daemon_started_at i) (last_reward_height i) (blocks_without_reward i) (registration_height i) (registration_source i)
    (peer_reports i) (operator_pubkey i) (is_publicly_reachable i) (reachability_checked_at i) (first_seen_at i) (last_seen_at i).
Definition set_registration (src : RegistrationSource) (h : Z) i : MasternodeInfo :=
  mkMasternodeInfo (masternode i) (reward_address i) (uptime_start i) (total_uptime i) (is_active i) (consensus_suspended i)
    (daemon_started_at i) (last_reward_height i) (blocks_without_reward i) h src
    (peer_reports i) (operator_pubkey i) (is_publicly_reachable i) (reachability_checked_at i) (first_seen_at i) (last_seen_at i).
Definition set_activity (total : Z) (active suspended : bool) (reports : gmap string Z) (seen : Z) i : MasternodeInfo :=
  mkMasternodeInfo (masternode i) (reward_address i) (uptime_start i) total active suspended
    (daemon_started_at i) (last_reward_height i) (blocks_without_reward i) (registration_height i) (registration_source i)
    reports (operator_pubkey i) (is_publicly_reachable i) (reachability_checked_at i) (first_seen_at i) seen.
Definition set_rewarded (last without : Z) i : MasternodeInfo :=
  mkMasternodeInfo (masternode i) (reward_address i) (uptime_start i) (total_uptime i) (is_active i) (consensus_suspended i)
    (daemon_started_at i) last without (registration_height i) (registration_source i)
    (peer_reports i) (operator_pubkey i) (is_publicly_reachable i) (reachability_checked_at i) (first_seen_at i) (last_seen_at i).
Definition set_reachable (b : bool) (at_ : Z) i : MasternodeInfo :=
  mkMasternodeInfo (masternode i) (reward_address i) (uptime_start i) (total_uptime i) (is_active i) (consensus_suspended i)
    (daemon_started_at i) (last_reward_height i) (blocks_without_reward i) (registration_height i) (registration_source i)
    (peer_reports i) (operator_pubkey i) b at_ (first_seen_at i) (last_seen_at i).
Definition set_slot (s : Z) (mn : Masternode) : Masternode :=
  mkMasternode (mn_address mn) (wallet_address mn) (mn_reward_address mn) (mn_collateral mn) (collateral_outpoint mn)
    (mn_locked_at mn) (mn_unlock_height mn) (public_key mn) (tier mn) (registered_at mn) s.

(** ** Strings *)

(** [s.split(c)]. *)
Fixpoint split_on (c : ascii) (s : string) : list string :=
  match s with
  | EmptyString => [EmptyString]
  | String a s =>
      if Ascii.eqb a c then EmptyString :: split_on c s
      else match split_on c s with
           | [] => [String a EmptyString]
           | w :: ws => String a w :: ws
           end
  end.
(** [s.split(':').next()], which is never [None]. *)
Definition ip_of (s : string) : string := hd EmptyString (split_on ":"%char s).

Definition digit (a : ascii) : option Z :=
  let n := Z.of_nat (nat_of_ascii a) in if (48 <=? n) && (n <=? 57) then Some (n - 48) else None.
Fixpoint parse_digits (acc : Z) (s : string) : option Z :=
  match s with
  | EmptyString => Some acc
  | String a s => d ← digit a; let n := acc * 10 + d in if U32 <=? n then None else parse_digits n s
  end.
(** [str::parse::<u32>]: digits, after at most one plus sign. *)
Definition parse_u32 (s : string) : option Z :=
  match s with
  | EmptyString => None
  | String "+"%char EmptyString => None
  | String "+"%char s => parse_digits 0 s
  | s => parse_digits 0 s
  end.

Inductive registry_error :=
| BadSpecial (e : special_error) | SlotOverflow | BadOutpointFormat | TxidHex | TxidLength | BadVout | CollateralMissing
| CollateralHijack | SlotMismatch (registered got : Z) | RegNotFound.

Section registry.
Context {S : Type} `{UtxoStorage S} `{MapIter} `{Externals}.
Implicit Types m : UTXOStateManager S.

Definition outpoint_key (o : OutPoint) : string := hex_encode (op_txid o) +:+ ":" +:+ pretty (vout o).
Definition parse_collateral (s : string) : result registry_error OutPoint :=
  match split_on ":"%char s with
  | [t; v] =>
      let? b := ok_or TxidHex (hex_decode t) in
      fail_if negb (length b =? 32)%nat with TxidLength in
      let? n := ok_or BadVout (parse_u32 v) in
      Ok (mkOutPoint b n)
  | _ => Err BadOutpointFormat
  end.

(** ** Lookups *)

Definition counts_toward_consensus i : bool := is_active i && negb (consensus_suspended i).
Definition rebuild_node_caches r : MasternodeRegistry :=
  let all := (iter (masternodes r)).*2 in
  mkRegistry (masternodes r) (mnreg r) (next_slot_id r) (anchors r) (filter (λ i, counts_toward_consensus i = true) all) all
    (collateral_miss_counts r) (gossip_removal_cooldown r) (pending_collateral_unlocks r) (pending_collateral_locks r)
    (local_masternode_address r) (reg_started_at r) (reg_height r).
Definition resolve_address_key r (address : string) : option string :=
  if bool_decide (is_Some (masternodes r !! address)) then Some address
  else List.find (λ k, String.eqb (ip_of k) (ip_of address)) (iter (masternodes r)).*1.
Definition get_active_masternodes r : list MasternodeInfo :=
  filter (λ i, counts_toward_consensus i = true) (iter (masternodes r)).*2.
Definition list_all r : list MasternodeInfo := (iter (masternodes r)).*2.
Definition is_local r (address : string) : bool :=
  match local_masternode_address r with Some l => String.eqb (ip_of l) (ip_of address) | None => false end.
Definition tier_rank (t : MasternodeTier) : Z := match t with Free => 0 | Bronze => 1000 | Silver => 10000 | Gold => 100000 end.
(** The last of the highest. *)
Definition tier_for_wallet r (w : string) : option MasternodeTier :=
  foldl (λ best i, match best with
                   | Some t => if tier_rank t <=? tier_rank (tier (masternode i)) then Some (tier (masternode i)) else Some t
                   | None => Some (tier (masternode i))
                   end) None
    (filter (λ i, String.eqb (wallet_address (masternode i)) w
                  || negb (str_is_empty (reward_address i)) && String.eqb (reward_address i) w = true) (iter (masternodes r)).*2).
Definition get_slot_id_for_address r (a : string) : option Z :=
  i ← masternodes r !! a; if slot_id (masternode i) =? U32 - 1 then None else Some (slot_id (masternode i)).
Definition find_holder_of_outpoint r (o : OutPoint) : option string :=
  fst <$> List.find (λ en : string * MasternodeInfo, bool_decide (collateral_outpoint (masternode en.2) = Some o)) (iter (masternodes r)).

(** ** Slots and registrations *)

Definition assign_next_slot_id r : result registry_error (MasternodeRegistry * Z) :=
  let next := next_slot_id r + 1 in
  fail_if U32 <=? next with SlotOverflow in Ok (set_mnreg (mnreg r) next r, next_slot_id r).

(** The height of a registration first applied without one. *)
Definition set_height_if_unset (h : Z) (a : string) (rec : MasternodeOnchainInfo) r : MasternodeRegistry :=
  if (0 <? h) && (oc_registration_height rec =? 0) then
    let rec := mkOnchain (oc_node_address rec) (oc_wallet_address rec) (oc_reward_address rec) (oc_collateral_outpoint rec)
                 (oc_pubkey rec) (oc_slot_id rec) h (oc_registration_txid rec) in
    let r := set_mnreg (<[a := rec]> (mnreg r)) (next_slot_id r) r in
    set_nodes (alter (λ i, match registration_source i with
                           | OnChain _ => set_registration (OnChain h) h i
                           | Handshake => set_registration Handshake h i
                           end) a (masternodes r)) r
  else r.

(** Tier, amount and outpoint of the collateral of a registration. *)
Definition registration_collateral m (collateral_outpoint wallet : string) (height : Z)
    : result registry_error (MasternodeTier * Z * option OutPoint) :=
  if str_is_empty collateral_outpoint then Ok (Free, 0, None)
  else
    let? o := parse_collateral collateral_outpoint in
    let? u := map_err (λ _, CollateralMissing) (get_utxo m o) in
    fail_if (COLLATERAL_OWNERSHIP_FORK_HEIGHT <=? height) && negb (String.eqb (address u) wallet) with CollateralHijack in
    Ok (default Free (from_collateral_value (value u)), value u, Some o).

Definition update_registered (pk : VerifyingKey) (mn : Masternode) (reward : string) (h : Z) i : MasternodeInfo :=
  let old := masternode i in
  let mn' := mkMasternode (mn_address old) (wallet_address mn) (mn_reward_address old) (mn_collateral mn) (collateral_outpoint mn)
               (mn_locked_at old) (mn_unlock_height old) (if last_seen_at i =? 0 then pk else public_key old) (tier mn)
               (registered_at old) (slot_id mn) in
  set_registration (OnChain h) h (set_reward_address reward (set_masternode mn' i)).
Definition new_registered (now : Z) (mn : Masternode) (reward : string) (h : Z) : MasternodeInfo :=
  mkMasternodeInfo mn reward now 0 false false 0 0 0 h (OnChain h) ∅ None false 0 now 0.

Definition register_onchain (now : Z) m r (node wallet reward coll pubkey : string) (vk : VerifyingKey) (height : Z) (t : string)
    (slot : Z) : MasternodeRegistry * result registry_error Z :=
  match registration_collateral m coll wallet height with
  | Err e => (r, Err e)
  | Ok (ti, amount, op) =>
      let mn := new_legacy node wallet amount vk ti now in
      let mn := mkMasternode node wallet reward amount op (mn_locked_at mn) (mn_unlock_height mn) vk ti now slot in
      let rec := mkOnchain node wallet reward coll pubkey slot height t in
      let r := set_mnreg (<[node := rec]> (mnreg r)) (next_slot_id r) r in
      let i := match masternodes r !! node with
               | Some i => update_registered vk mn reward height i
               | None => new_registered now mn reward height
               end in
      (set_nodes (<[node := i]> (masternodes r)) r, Ok slot)
  end.

(** The key a registration carries; [verify_signature] has parsed it. *)
Definition special_key (sd : SpecialTransactionData) : VerifyingKey :=
  default [] (b ← hex_decode (special_pubkey sd); vk_from_bytes b).

Definition apply_masternode_registration (now : Z) m r (node wallet reward coll pubkey signature : string) (height : Z) (t : string)
    : MasternodeRegistry * result registry_error Z :=
  let sd := MasternodeRegistration node wallet reward coll pubkey signature in
  let fresh (existing : option Z) :=
    match map_err BadSpecial (verify_signature sd) with
    | Err e => (r, Err e)
    | Ok _ =>
        match existing with
        | Some s => register_onchain now m r node wallet reward coll pubkey (special_key sd) height t s
        | None =>
            match assign_next_slot_id r with
            | Err e => (r, Err e)
            | Ok (r, s) => register_onchain now m r node wallet reward coll pubkey (special_key sd) height t s
            end
        end
    end in
  match mnreg r !! node with
  | Some rec =>
      if String.eqb (oc_registration_txid rec) t then (set_height_if_unset height node rec r, Ok (oc_slot_id rec))
      else fresh (if SLOT_UNIQUENESS_FORK_HEIGHT <=? height then Some (oc_slot_id rec) else None)
  | None => fresh None
  end.

Definition apply_masternode_deregistration m r (node : string) (slot : Z) (pubkey signature : string)
    : UTXOStateManager S * MasternodeRegistry * result registry_error () :=
  match map_err BadSpecial (verify_signature (MasternodeDeregistration node slot pubkey signature)) with
  | Err e => (m, r, Err e)
  | Ok _ =>
      match masternodes r !! node with
      | None => (m, r, Ok tt)
      | Some i =>
          let registered := slot_id (masternode i) in
          if negb (registered =? slot)
          then (m, r, if registered =? U32 - 1 then Ok tt else Err (SlotMismatch registered slot))
          else
            let m := match collateral_outpoint (masternode i) with Some o => (unlock_collateral m o).1 | None => m end in
            (m, set_mnreg (delete node (mnreg r)) (next_slot_id r) (set_nodes (delete node (masternodes r)) r), Ok tt)
      end
  end.

Definition apply_masternode_payout_update r (node new_reward pubkey signature : string)
    : MasternodeRegistry * result registry_error () :=
  match map_err BadSpecial (verify_signature (MasternodePayoutUpdate node new_reward pubkey signature)) with
  | Err e => (r, Err e)
  | Ok _ =>
      (set_nodes (alter (λ i,
         let mn := masternode i in
         set_reward_address new_reward
           (set_masternode (mkMasternode (mn_address mn) (wallet_address mn) new_reward (mn_collateral mn) (collateral_outpoint mn)
              (mn_locked_at mn) (mn_unlock_height mn) (public_key mn) (tier mn) (registered_at mn) (slot_id mn)) i))
         node (masternodes r)) r, Ok tt)
  end.

Definition undo_registration r (node : string) : MasternodeRegistry := set_mnreg (delete node (mnreg r)) (next_slot_id r) r.

(** ** Special transactions of a block (src/blockchain.rs, process_special_transactions) *)

Record special_acc := mkSpecialAcc {
  sp_utxo : UTXOStateManager S; sp_reg : MasternodeRegistry; sp_undo : list string;
  sp_slots : gset Z; sp_ips : gset string;
}.
Definition process_special_tx (now height : Z) (a : special_acc) (tx : Transaction) : special_acc :=
  let '(mkSpecialAcc m r undo slots ips) := a in
  match special_data tx with
  | None => a
  | Some (MasternodeRegistration node wallet reward coll pubkey signature) =>
      let forked := COLLATERAL_OWNERSHIP_FORK_HEIGHT <=? height in
      if forked && bool_decide (node ∈ ips) then a
      else
        let ips := if forked then {[node]} ∪ ips else ips in
        match apply_masternode_registration now m r node wallet reward coll pubkey signature height (hex_encode (txid tx)) with
        | (r, Ok _) => mkSpecialAcc m r (undo ++ [node]) slots ips
        | (r, Err _) => mkSpecialAcc m r undo slots ips
        end
  | Some (MasternodeDeregistration node slot pubkey signature) =>
      if bool_decide (slot ∈ slots) then a
      else
        let '(m, r, _) := apply_masternode_deregistration m r node slot pubkey signature in
        mkSpecialAcc m r undo ({[slot]} ∪ slots) ips
  | Some (MasternodePayoutUpdate node new_reward pubkey signature) =>
      mkSpecialAcc m (apply_masternode_payout_update r node new_reward pubkey signature).1 undo slots ips
  end.
Definition process_special_transactions (now : Z) m r (b : Block) : UTXOStateManager S * MasternodeRegistry * list string :=
  let a := foldl (process_special_tx now (bh_height (header b))) (mkSpecialAcc m r [] ∅ ∅) (transactions b) in
  (sp_utxo a, sp_reg a, sp_undo a).

(** ** Anchors *)

Definition set_collateral_anchor r (o : OutPoint) (ip : string) : MasternodeRegistry :=
  set_anchors (<[outpoint_key o := ip]> (anchors r)) r.
Definition get_collateral_anchor r (o : OutPoint) : option string := anchors r !! outpoint_key o.
Definition delete_collateral_anchor r (o : OutPoint) : MasternodeRegistry * bool :=
  (set_anchors (delete (outpoint_key o) (anchors r)) r, bool_decide (is_Some (anchors r !! outpoint_key o))).
Definition anchor_stale r (en : string * string) : bool :=
  let '(key, ip) := en in
  match List.find (λ n : string * MasternodeInfo, String.eqb (ip_of n.1) (ip_of ip) || String.eqb n.1 ip) (iter (masternodes r)) with
  | Some (_, i) => match collateral_outpoint (masternode i) with
                   | Some o => negb (String.eqb (outpoint_key o) key)
                   | None => true
                   end
  | None => true
  end.
Definition cleanup_stale_anchors r : MasternodeRegistry * Z :=
  let stale := filter (λ en, anchor_stale r en = true) (iter (anchors r)) in
  (set_anchors (foldl (λ a en, delete en.1 a) (anchors r) stale) r, Z.of_nat (length stale)).

Definition remove_anchor_of i r : MasternodeRegistry :=
  match collateral_outpoint (masternode i) with
  | Some o => set_anchors (delete (outpoint_key o) (anchors r)) r
  | None => r
  end.
Definition unregister r (a : string) : MasternodeRegistry * result registry_error (option MasternodeInfo) :=
  match masternodes r !! a with
  | None => (r, Err RegNotFound)
  | Some i => (rebuild_node_caches (remove_anchor_of i (set_nodes (delete a (masternodes r)) r)), Ok (Some i))
  end.

(** ** Collateral *)

Definition check_collateral_validity (now : Z) m r (a : string) : UTXOStateManager S * bool :=
  match masternodes r !! a with
  | None => (m, false)
  | Some i =>
      match collateral_outpoint (masternode i) with
      | None => (m, true)
      | Some o =>
          let need := collateral (tier (masternode i)) in
          match get_utxo m o with
          | Err _ => (m, false)
          | Ok u =>
              if (0 <? need) && (value u <? need) then (m, false)
              else (if is_collateral_locked m o then m else (lock_collateral now m o a (reg_height r) need).1, true)
          end
      end
  end.

Definition MISS_THRESHOLD : Z := 3.
Definition ACTIVE_GRACE_SECS : Z := 600.
(** One masternode of the scan: its miss count and whether it goes. *)
Definition collateral_miss (now : Z) r (acc : UTXOStateManager S * gmap string Z * list string) (en : string * MasternodeInfo)
    : UTXOStateManager S * gmap string Z * list string :=
  let '(m, misses, gone) := acc in
  let '(a, i) := en in
  if bool_decide (local_masternode_address r = Some a) then acc
  else match collateral_outpoint (masternode i) with
       | None => acc
       | Some _ =>
           let '(m, ok) := check_collateral_validity now m r a in
           if ok then (m, delete a misses, gone)
           else if is_active i && (sat_sub now (last_seen_at i) <? ACTIVE_GRACE_SECS) then (m, delete a misses, gone)
           else
             let n := default 0 (misses !! a) + 1 in
             (m, <[a := n]> misses, if MISS_THRESHOLD <=? n then gone ++ [a] else gone)
       end.
Definition deregister_one (acc : UTXOStateManager S * MasternodeRegistry) (a : string) : UTXOStateManager S * MasternodeRegistry :=
  let '(m, r) := acc in
  let r := set_misses (delete a (collateral_miss_counts r)) r in
  match unregister r a with
  | (r, Ok (Some i)) =>
      (match collateral_outpoint (masternode i) with Some o => (unlock_collateral m o).1 | None => m end, r)
  | (r, _) => (m, r)
  end.
Definition cleanup_invalid_collaterals (now : Z) m r : UTXOStateManager S * MasternodeRegistry * Z :=
  let '(m, misses, gone) := foldl (collateral_miss now r) (m, collateral_miss_counts r, []) (iter (masternodes r)) in
  let '(m, r) := foldl deregister_one (m, set_misses misses r) gone in
  (m, r, Z.of_nat (length gone)).

Definition drain_pending_unlocks (now : Z) m r : UTXOStateManager S * MasternodeRegistry * Z :=
  let us := pending_collateral_unlocks r in
  let ls := pending_collateral_locks r in
  let m := foldl (λ m o, (unlock_collateral m o).1) m us in
  let m := foldl (λ m (l : OutPoint * string * Z * Z), let '(o, a, h, amt) := l in (lock_collateral now m o a h amt).1) m ls in
  (m, set_queues [] [] r, Z.of_nat (length us + length ls)).

(** ** Activity *)

Definition suspend_from_consensus (now : Z) r (a : string) : MasternodeRegistry * result registry_error () :=
  if is_local r a then (r, Ok tt)
  else match k ← resolve_address_key r a; i ← masternodes r !! k; Some (k, i) with
       | None => (r, Err RegNotFound)
       | Some (k, i) =>
           if consensus_suspended i then (r, Ok tt)
           else
             let total := if is_active i && (0 <? uptime_start i) then add64 (total_uptime i) (sat_sub now (uptime_start i)) else total_uptime i in
             (rebuild_node_caches (set_nodes (<[k := set_activity total false true ∅ 0 i]> (masternodes r)) r), Ok tt)
       end.
Definition clear_consensus_suspension r (a : string) : MasternodeRegistry * result registry_error () :=
  match k ← resolve_address_key r a; i ← masternodes r !! k; Some (k, i) with
  | None => (r, Err RegNotFound)
  | Some (k, i) =>
      if consensus_suspended i
      then (rebuild_node_caches (set_nodes (<[k := set_activity (total_uptime i) (is_active i) false (peer_reports i) (last_seen_at i) i]>
              (masternodes r)) r), Ok tt)
      else (r, Ok tt)
  end.

Definition ignored_report (a : string) : bool :=
  String.eqb a "0.0.0.0" || String.eqb a "127.0.0.1" || String.prefix "127." a || String.prefix "0.0.0." a || str_is_empty a.
Definition process_status_gossip r (reporter : string) (visible : list string) (ts : Z) : MasternodeRegistry :=
  foldl (λ r a, if ignored_report a then r
                else set_nodes (alter (λ i, set_activity (total_uptime i) (is_active i) (consensus_suspended i)
                       (<[reporter := ts]> (peer_reports i)) (last_seen_at i) i) a (masternodes r)) r) r visible.

(** The status of one masternode after the reports have been swept. *)
Definition refresh_activity (now : Z) (connected : gset string) (r : MasternodeRegistry) (a : string) i : MasternodeInfo :=
  if is_local r a then i
  else
    let reports := filter (λ en : string * Z, sat_sub now en.2 < REPORT_EXPIRY_SECS) (peer_reports i) in
    match registration_source i with
    | Handshake => set_activity (total_uptime i) (is_active i) (consensus_suspended i) reports (last_seen_at i) i
    | OnChain _ =>
        let grace := negb (tier_rank (tier (masternode i)) =? 0) && (0 <? last_seen_at i) && (sat_sub now (last_seen_at i) <? 120) in
        set_activity (total_uptime i) (negb (consensus_suspended i) && (bool_decide (ip_of a ∈ connected) || grace))
          (consensus_suspended i) reports (last_seen_at i) i
    end.
Definition abandoned (now : Z) r (en : string * MasternodeInfo) : bool :=
  let '(a, i) := en in
  let timeout := match tier (masternode i) with Free => 300 | _ => AUTO_REMOVE_AFTER_SECS end in
  let seen := if 0 <? last_seen_at i then last_seen_at i else uptime_start i in
  negb (is_local r a) && negb (is_active i) && (0 <? seen) && (timeout <? sat_sub now seen).
Definition auto_remove (now : Z) r (a : string) : MasternodeRegistry :=
  match masternodes r !! a with
  | None => r
  | Some i =>
      let r := set_cooldown (<[ip_of a := now]> (gossip_removal_cooldown r)) (set_nodes (delete a (masternodes r)) r) in
      match collateral_outpoint (masternode i) with
      | Some o => remove_anchor_of i (set_queues (pending_collateral_unlocks r ++ [o]) (pending_collateral_locks r) r)
      | None => r
      end
  end.
Definition cleanup_stale_reports (now : Z) (connected : gset string) r : MasternodeRegistry :=
  let r := set_nodes (map_imap (λ a i, Some (refresh_activity now connected r a i)) (masternodes r)) r in
  let gone := if STARTUP_GRACE_PERIOD_SECS <=? sat_sub now (reg_started_at r)
              then (filter (λ en, abandoned now r en = true) (iter (masternodes r))).*1 else [] in
  rebuild_node_caches (foldl (auto_remove now) r gone).

Definition set_publicly_reachable (now : Z) r (a : string) (b : bool) : MasternodeRegistry :=
  set_nodes (alter (set_reachable b now) a (masternodes r)) r.
Definition try_claim_reachability_probe (now : Z) r (a : string) : MasternodeRegistry * bool :=
  match masternodes r !! a with
  | None => (r, false)
  | Some i =>
      if (0 <? reachability_checked_at i) && (sat_sub now (reachability_checked_at i) <? REACHABILITY_RECHECK_SECS) then (r, false)
      else (set_nodes (<[a := set_reachable (is_publicly_reachable i) now i]> (masternodes r)) r, true)
  end.

(** ** Reward eligibility *)

Definition is_reachable (now : Z) i : bool :=
  (0 <? first_seen_at i) && (sat_sub now (first_seen_at i) <? REACHABILITY_GRACE_PERIOD_SECS) || is_publicly_reachable i.
Definition is_mature (height : Z) i : bool :=
  negb (tier_rank (tier (masternode i)) =? 0) || (registration_height i =? 0) || (0 <=? sat_sub height (registration_height i)).
Definition is_free_active (now : Z) i : bool :=
  negb (consensus_suspended i)
  && (is_active i || existsb (λ en : string * Z, sat_sub now en.2 <? 900) (iter (peer_reports i))).
Definition is_within_grace (now : Z) i : bool :=
  negb (consensus_suspended i) && negb (tier_rank (tier (masternode i)) =? 0) && (0 <? last_seen_at i)
  && (sat_sub now (last_seen_at i) <? 90).
Definition active_in_pool (now : Z) i : bool :=
  match tier (masternode i) with Free => is_free_active now i | _ => is_active i || is_within_grace now i end.
Definition get_eligible_pool_nodes (now : Z) r (height : Z) : list MasternodeInfo :=
  let nodes := (iter (masternodes r)).*2 in
  let pass1 := filter (λ i, active_in_pool now i && is_reachable now i && is_mature height i = true) nodes in
  if (3 <=? length pass1)%nat then pass1
  else
    let pass2 := filter (λ i, (is_active i || is_within_grace now i) && is_mature height i = true) nodes in
    if (3 <=? length pass2)%nat then pass2
    else filter (λ i, is_active i || is_within_grace now i = true) nodes.

(** ** Reward counters *)

Definition count_reward (height : Z) (leader : string) (paid : gset string) i : MasternodeInfo :=
  let mn := masternode i in
  let rewarded := negb (bool_decide (paid = ∅))
    && (bool_decide (wallet_address mn ∈ paid) || negb (str_is_empty (reward_address i)) && bool_decide (reward_address i ∈ paid)) in
  if String.eqb (mn_address mn) leader || rewarded then set_rewarded height 0 i
  else set_rewarded (last_reward_height i) (blocks_without_reward i + 1) i.
Definition update_reward_counters r (height : Z) (leader : string) (paid : gset string) : MasternodeRegistry :=
  set_nodes (count_reward height leader paid <$> masternodes r) r.
Definition reconstruct_reward_counters r (height : Z) : MasternodeRegistry :=
  set_nodes ((λ i, set_rewarded (last_reward_height i)
               (if last_reward_height i =? 0 then Z.min height 1000 else sat_sub height (last_reward_height i)) i) <$> masternodes r) r.
Definition get_reward_tracking_from_memory r : gmap string Z := blocks_without_reward <$> masternodes r.

(** ** The participation bitmap *)

Definition slot_leb i1 i2 : bool :=
  let a := masternode i1 in
  let b := masternode i2 in
  if slot_id a =? slot_id b then bytes_leb (str_bytes (mn_address a)) (str_bytes (mn_address b)) else slot_id a <? slot_id b.
Definition sorted_masternodes r : list MasternodeInfo := sort_by slot_leb (iter (masternodes r)).*2.

(** [bitmap[k / 8] |= 1 << (7 - k % 8)]. *)
Definition set_bit (bitmap : bytes) (k : nat) : bytes :=
  alter (λ b, Z.lor b (Z.shiftl 1 (7 - Z.of_nat (k mod 8)))) (k / 8)%nat bitmap.
Definition get_bit (bitmap : bytes) (k : nat) : bool :=
  match bitmap !! (k / 8)%nat with
  | Some b => negb (Z.land b (Z.shiftl 1 (7 - Z.of_nat (k mod 8))) =? 0)
  | None => false
  end.
Definition voted (voters : list string) i : bool := existsb (String.eqb (mn_address (masternode i))) voters.
Fixpoint mark_voters (voters : list string) (k : nat) (l : list MasternodeInfo) (bitmap : bytes) : bytes :=
  match l with
  | [] => bitmap
  | i :: l => mark_voters voters (Datatypes.S k) l (if voted voters i then set_bit bitmap k else bitmap)
  end.
Definition create_active_bitmap_from_voters r (voters : list string) : bytes * Z :=
  match sorted_masternodes r with
  | [] => ([], 0)
  | l => (mark_voters voters 0 l (replicate ((length l + 7) / 8) 0), Z.of_nat (length (filter (λ i, voted voters i = true) l)))
  end.
Fixpoint select_bits (bitmap : bytes) (k : nat) (l : list MasternodeInfo) : list MasternodeInfo :=
  match l with
  | [] => []
  | i :: l => if get_bit bitmap k then i :: select_bits bitmap (Datatypes.S k) l else select_bits bitmap (Datatypes.S k) l
  end.
Definition get_active_from_bitmap r (bitmap : bytes) : list MasternodeInfo := select_bits bitmap 0 (sorted_masternodes r).

(** Who is paid in the block after [height], from the block at [height] when it is known.
    [expected] is the height the clock asks for. *)
Definition get_masternodes_for_rewards r (height expected : Z) (prev : option Block) : list MasternodeInfo :=
  if height =? 0 then list_all r
  else match prev with
       | None => get_active_masternodes r
       | Some b =>
           let leaders := if str_is_empty (leader (header b)) then [] else [leader (header b)] in
           let participants := leaders ++ ((λ i, mn_address (masternode i)) <$> get_active_from_bitmap r (consensus_participants_bitmap b)) in
           match participants with
           | [] => get_active_masternodes r
           | _ =>
               let eligible := filter (λ i, mn_address (masternode i) ∈ participants) (list_all r) in
               if (length eligible <? 3)%nat then
                 let active := get_active_masternodes r in
                 if (length active <? 3)%nat then
                   if (5 <=? sat_sub expected height) && (3 <=? length (list_all r))%nat then list_all r else []
                 else active
               else eligible
           end
       end.
End registry.
