(* ===== verification/RegistryProofs.v ===== *)
(** * The masternode registry: proofs (src/masternode_registry.rs)

    Every node decodes the participation bitmap to the voters it was made from; slots
    are never shared; collateral checks remove exactly the masternodes whose collateral
    has been missing three times; suspended masternodes are not eligible. *)

From Stdlib Require Import ZArith Lia Ascii String.
From stdpp Require Import base gmap strings list pretty.
From S2P Require Import Prelude Types Instances Address Storage UtxoManager UtxoProofs UtxoTheorems BlockTypes Registry.

(** ** Bits *)

Lemma land_bit b n : 0 ≤ n → (Z.land b (Z.shiftl 1 n) =? 0) = negb (Z.testbit b n).
Proof.
  intros Hn. rewrite Z.shiftl_1_l. destruct (Z.testbit b n) eqn:E; cbn.
  - apply Z.eqb_neq. intros Hz. assert (Z.testbit (Z.land b (2 ^ n)) n = true) as Ht; [|by rewrite Hz, Z.bits_0 in Ht].
    by rewrite Z.land_spec, E, Z.pow2_bits_true.
  - apply Z.eqb_eq, Z.bits_inj'. intros k Hk. rewrite Z.land_spec, Z.bits_0, Z.pow2_bits_eqb by lia.
    destruct (Z.eqb_spec n k) as [<-|]; [by rewrite E|by rewrite andb_false_r].
Qed.
Definition bit_at (k : nat) : Z := 7 - Z.of_nat (k mod 8).
Lemma bit_at_range k : 0 ≤ bit_at k < 8.
Proof. unfold bit_at. pose proof (Nat.mod_upper_bound k 8 ltac:(lia)). lia. Qed.
Lemma get_set_bit bm k j : (k < 8 * length bm)%nat →
  get_bit (set_bit bm k) j = (if decide (j = k) then true else get_bit bm j).
Proof.
  intros Hk. unfold get_bit, set_bit. fold (bit_at k) (bit_at j).
  assert (k / 8 < length bm)%nat as Hlt by (apply Nat.Div0.div_lt_upper_bound; lia).
  destruct (decide (j / 8 = k / 8)%nat) as [Ed|Ed].
  - rewrite Ed, list_lookup_alter_eq. destruct (lookup_lt_is_Some_2 bm (k / 8) Hlt) as [b Hb]. rewrite Hb. cbn [fmap option_fmap option_map].
    rewrite !land_bit by apply bit_at_range. rewrite !negb_involutive, Z.lor_spec, Z.shiftl_1_l, Z.pow2_bits_eqb by apply bit_at_range.
    destruct (decide (j = k)) as [->|Hne]; [by rewrite Z.eqb_refl, orb_true_r|].
    destruct (Z.eqb_spec (bit_at k) (bit_at j)) as [Eb|]; [|by rewrite orb_false_r].
    destruct Hne. unfold bit_at in Eb. rewrite (Nat.div_mod_eq j 8), (Nat.div_mod_eq k 8), Ed. f_equal. lia.
  - rewrite list_lookup_alter_ne by done. by destruct (decide (j = k)) as [->|].
Qed.
Lemma set_bit_length bm k : length (set_bit bm k) = length bm.
Proof. unfold set_bit. apply length_alter. Qed.

Lemma mark_bits voters k l bm j : (k + length l ≤ 8 * length bm)%nat →
  get_bit (mark_voters voters k l bm) j =
  get_bit bm j || match l !! (j - k)%nat with Some i => (k <=? j)%nat && voted voters i | None => false end.
Proof.
  revert k bm. induction l as [|i l IH]; intros k bm Hl; cbn [mark_voters]; [by rewrite orb_false_r|]. cbn in Hl.
  rewrite IH by (destruct (voted voters i); rewrite ?set_bit_length; lia).
  assert (get_bit (if voted voters i then set_bit bm k else bm) j = get_bit bm j || (if decide (j = k) then voted voters i else false)) as ->.
  { destruct (voted voters i); [rewrite get_set_bit by lia|]; destruct (decide (j = k)); by rewrite ?orb_true_r, ?orb_false_r. }
  rewrite <- orb_assoc. f_equal. destruct (decide (j = k)) as [->|Hne].
  - replace (k - k)%nat with 0%nat by lia. rewrite (proj2 (Nat.leb_gt (Datatypes.S k) k)), Nat.leb_refl by lia.
    change ((i :: l) !! 0%nat) with (Some i). cbn [andb]. by destruct (l !! _); rewrite orb_false_r.
  - cbn [orb]. destruct (Nat.leb_spec k j), (Nat.leb_spec (Datatypes.S k) j); try lia.
    + by replace (j - k)%nat with (Datatypes.S (j - Datatypes.S k)) by lia.
    + cbn [andb]. by repeat case_match.
Qed.

Section proofs.
Context {S : Type} `{UtxoStorage S} `{Externals}.
Implicit Types (r : MasternodeRegistry) (m : UTXOStateManager S).

Lemma zero_bits n j : get_bit (replicate n 0) j = false.
Proof.
  unfold get_bit. destruct (replicate n 0 !! (j / 8)%nat) as [b|] eqn:E; [|done].
  apply lookup_replicate in E as [-> _]. by rewrite Z.land_0_l.
Qed.
Lemma select_marked voters l : 
  select_bits (mark_voters voters 0 l (replicate ((length l + 7) / 8) 0)) 0 l = filter (λ i, voted voters i = true) l.
Proof.
  set (bm := mark_voters _ _ _ _).
  assert (∀ j i, l !! j = Some i → get_bit bm j = voted voters i) as Hb.
  { intros j i Hj. unfold bm. rewrite mark_bits, zero_bits.
    - rewrite Nat.sub_0_r, Hj. done.
    - rewrite length_replicate. pose proof (Nat.div_mod_eq (length l + 7) 8).
      pose proof (Nat.mod_upper_bound (length l + 7) 8 ltac:(lia)). lia. }
  clearbody bm. assert (∀ k l', (∀ j i, l' !! j = Some i → get_bit bm (k + j) = voted voters i) →
    select_bits bm k l' = filter (λ i, voted voters i = true) l') as Hs.
  { clear. intros k l'. revert k. induction l' as [|i l' IH]; intros k Hb; [done|]. cbn [select_bits].
    rewrite <- (Nat.add_0_r k) at 1. rewrite (Hb 0%nat i eq_refl), filter_cons, IH.
    - destruct (voted voters i); [by rewrite decide_True|by rewrite decide_False].
    - intros j i' Hj. replace (Datatypes.S k + j)%nat with (k + Datatypes.S j)%nat by lia. by apply Hb. }
  by apply Hs.
Qed.

Definition keyed r : Prop := map_Forall (λ a i, mn_address (masternode i) = a) (masternodes r).
Lemma slot_leb_total i1 i2 : slot_leb i1 i2 = false → slot_leb i2 i1 = true.
Proof.
  unfold slot_leb. rewrite (Z.eqb_sym (slot_id (masternode i2))).
  destruct (Z.eqb_spec (slot_id (masternode i1)) (slot_id (masternode i2))); [apply bytes_leb_total|].
  rewrite Z.ltb_ge, Z.ltb_lt. lia.
Qed.
Lemma slot_leb_trans i1 i2 i3 : slot_leb i1 i2 → slot_leb i2 i3 → slot_leb i1 i3.
Proof.
  unfold slot_leb. generalize (slot_id (masternode i1)) (slot_id (masternode i2)) (slot_id (masternode i3)). intros s1 s2 s3.
  destruct (Z.eqb_spec s1 s2), (Z.eqb_spec s2 s3), (Z.eqb_spec s1 s3); subst; try lia; try done; [apply bytes_leb_trans|..];
    rewrite ?Is_true_true, ?Z.ltb_lt; lia.
Qed.
Lemma sorted_order (I1 I2 : MapIter) r : keyed r → @sorted_masternodes I1 r = @sorted_masternodes I2 r.
Proof.
  intros Hk. unfold sorted_masternodes. apply sort_by_ext; [apply slot_leb_total|apply slot_leb_trans| |by rewrite !iter_perm].
  assert (∀ i, i ∈ (@iter I1 _ _ _ _ (masternodes r)).*2 → masternodes r !! mn_address (masternode i) = Some i) as Hl.
  { intros i ([a i'] & -> & Hin)%list_elem_of_fmap. rewrite iter_perm, elem_of_map_to_list in Hin. cbn. by rewrite (Hk _ _ Hin). }
  intros i1 i2 H1%Hl H2%Hl. unfold slot_leb. rewrite (Z.eqb_sym (slot_id (masternode i2))).
  destruct (Z.eqb_spec (slot_id (masternode i1)) (slot_id (masternode i2))).
  - intros L1 L2. assert (mn_address (masternode i1) = mn_address (masternode i2)) as E by (by apply str_bytes_inj, bytes_leb_antisym).
    rewrite E in H1. congruence.
  - rewrite !Is_true_true, !Z.ltb_lt. lia.
Qed.

(** C26: The participation bitmap of a block header decodes to the voters it was made from:
    a node that holds the same masternodes, in whatever order its hash map iterates, reads
    back from the bitmap exactly the registered masternodes that voted, in slot order. *)
Theorem bitmap_agrees (I1 I2 : MapIter) r voters : keyed r →
  @get_active_from_bitmap I2 r (@create_active_bitmap_from_voters I1 r voters).1
    = filter (λ i, voted voters i = true) (@sorted_masternodes I1 r)
  ∧ ∀ i, i ∈ @get_active_from_bitmap I2 r (@create_active_bitmap_from_voters I1 r voters).1
         ↔ masternodes r !! mn_address (masternode i) = Some i ∧ mn_address (masternode i) ∈ voters.
Proof.
  intros Hk. assert (@get_active_from_bitmap I2 r (@create_active_bitmap_from_voters I1 r voters).1
    = filter (λ i, voted voters i = true) (@sorted_masternodes I1 r)) as ->.
  { unfold get_active_from_bitmap, create_active_bitmap_from_voters. rewrite (sorted_order I2 I1) by done.
    rewrite <- select_marked. by destruct (@sorted_masternodes I1 r). }
  split; [done|]. intros i. rewrite list_elem_of_filter. unfold sorted_masternodes. rewrite sort_by_perm, iter_perm.
  assert (voted voters i = true ↔ mn_address (masternode i) ∈ voters) as ->.
  { unfold voted. rewrite existsb_exists. split.
    - intros (x & Hx & ->%String.eqb_eq). by apply list_elem_of_In.
    - intros Hin%list_elem_of_In. exists (mn_address (masternode i)). split; [done|apply String.eqb_refl]. }
  rewrite list_elem_of_fmap. split.
  - intros [Hv ([a i'] & -> & Hin)]. apply elem_of_map_to_list in Hin. cbn [snd] in *.
    pose proof (Hk _ _ Hin) as E. cbn in E. split; [by rewrite E|done].
  - intros [Hl Hv]. split; [done|]. exists (mn_address (masternode i), i). by rewrite elem_of_map_to_list.
Qed.

(** ** Histories *)

Inductive reg_op :=
| RRegister (now : Z) (m : UTXOStateManager S) (node wallet reward coll pubkey signature : string) (height : Z) (t : string)
| RDeregister (m : UTXOStateManager S) (node : string) (slot : Z) (pubkey signature : string)
| RPayout (node reward pubkey signature : string) | RUndo (node : string) | RUnregister (a : string)
| RCleanupCollateral (now : Z) (m : UTXOStateManager S) | RDrain (now : Z) (m : UTXOStateManager S)
| RSuspend (now : Z) (a : string) | RClearSuspension (a : string) | RGossip (reporter : string) (visible : list string) (ts : Z)
| RCleanupReports (now : Z) (connected : gset string) | RReachable (now : Z) (a : string) (b : bool) | RProbe (now : Z) (a : string)
| RCounters (height : Z) (leader : string) (paid : gset string) | RReconstruct (height : Z)
| RAnchor (o : OutPoint) (ip : string) | RCleanupAnchors | RHeight (h : Z).

Context `{MapIter}.
Definition reg_exec r (p : reg_op) : MasternodeRegistry :=
  match p with
  | RRegister now m node wallet reward coll pubkey signature height t =>
      (apply_masternode_registration now m r node wallet reward coll pubkey signature height t).1
  | RDeregister m node slot pubkey signature => (apply_masternode_deregistration m r node slot pubkey signature).1.2
  | RPayout node reward pubkey signature => (apply_masternode_payout_update r node reward pubkey signature).1
  | RUndo node => undo_registration r node
  | RUnregister a => (unregister r a).1
  | RCleanupCollateral now m => (cleanup_invalid_collaterals now m r).1.2
  | RDrain now m => (drain_pending_unlocks now m r).1.2
  | RSuspend now a => (suspend_from_consensus now r a).1
  | RClearSuspension a => (clear_consensus_suspension r a).1
  | RGossip reporter visible ts => process_status_gossip r reporter visible ts
  | RCleanupReports now connected => cleanup_stale_reports now connected r
  | RReachable now a b => set_publicly_reachable now r a b
  | RProbe now a => (try_claim_reachability_probe now r a).1
  | RCounters height leader paid => update_reward_counters r height leader paid
  | RReconstruct height => reconstruct_reward_counters r height
  | RAnchor o ip => set_collateral_anchor r o ip
  | RCleanupAnchors => (cleanup_stale_anchors r).1
  | RHeight h => update_height r h
  end.
Definition reg_run r (ps : list reg_op) : MasternodeRegistry := foldl reg_exec r ps.
Definition registry_new (local : option string) (started : Z) : MasternodeRegistry :=
  mkRegistry ∅ ∅ 0 ∅ [] [] ∅ ∅ [] [] local started 0.

(** ** Steps that give out no slot *)

Definition idle i : Prop := consensus_suspended i = true → is_active i = false.
Definition info_step i i' : Prop :=
  slot_id (masternode i') = slot_id (masternode i) ∧ mn_address (masternode i') = mn_address (masternode i)
  ∧ collateral_outpoint (masternode i') = collateral_outpoint (masternode i) ∧ (idle i → idle i').
Record evolves r r' : Prop := mkEvolves {
  ev_next : next_slot_id r' = next_slot_id r;
  ev_mnreg : ∀ a rec', mnreg r' !! a = Some rec' → ∃ rec, mnreg r !! a = Some rec ∧ oc_slot_id rec' = oc_slot_id rec;
  ev_nodes : ∀ a i', masternodes r' !! a = Some i' → ∃ i, masternodes r !! a = Some i ∧ info_step i i';
}.

Lemma info_step_refl i : info_step i i.
Proof. by split_and!. Qed.
Lemma reg_evolves_same r r' :
  next_slot_id r' = next_slot_id r → mnreg r' = mnreg r → masternodes r' = masternodes r → evolves r r'.
Proof. intros E1 E2 E3. split; [done|rewrite E2; eauto|rewrite E3]. intros a i Hi. exists i. split; [done|apply info_step_refl]. Qed.
Lemma evolves_trans r1 r2 r3 : evolves r1 r2 → evolves r2 r3 → evolves r1 r3.
Proof.
  intros [A1 A2 A3] [B1 B2 B3]. split; [congruence|..].
  - intros a rec (rec2 & (rec1 & Q1 & E1)%A2 & E2)%B2. exists rec1. split; [done|congruence].
  - intros a i (i2 & (i1 & Q1 & S1 & M1 & O1 & D1)%A3 & S2 & M2 & O2 & D2)%B3. exists i1. split; [done|].
    split_and!; [congruence..|]. auto.
Qed.
Lemma evolves_nodes r f : (∀ a i', f !! a = Some i' → ∃ i, masternodes r !! a = Some i ∧ info_step i i') →
  evolves r (set_nodes f r).
Proof. intros Hf. split; [done|cbn; eauto|exact Hf]. Qed.
Lemma evolves_delete r a : evolves r (set_nodes (delete a (masternodes r)) r).
Proof.
  apply evolves_nodes. intros b i [_ Hi]%lookup_delete_Some. exists i. split; [done|apply info_step_refl].
Qed.
Lemma evolves_alter r f a : (∀ i, info_step i (f i)) → evolves r (set_nodes (alter f a (masternodes r)) r).
Proof.
  intros Hf. apply evolves_nodes. intros b i' Hi. apply lookup_alter_Some in Hi as [(-> & i & Hi & ->)|[_ Hi]]; eauto.
  exists i'. split; [done|apply info_step_refl].
Qed.
Lemma evolves_insert r a i i' : masternodes r !! a = Some i → info_step i i' → evolves r (set_nodes (<[a := i']> (masternodes r)) r).
Proof.
  intros Ha Hs. apply evolves_nodes. intros b j [[<- <-]|[_ Hj]]%lookup_insert_Some; eauto.
  exists j. split; [done|apply info_step_refl].
Qed.
Lemma evolves_fmap r f : (∀ i, info_step i (f i)) → evolves r (set_nodes (f <$> masternodes r) r).
Proof. intros Hf. apply evolves_nodes. intros b i' (i & <- & Hi)%lookup_fmap_Some. eauto. Qed.
Lemma evolves_fold {B} (g : MasternodeRegistry → B → MasternodeRegistry) l r :
  (∀ r b, evolves r (g r b)) → evolves r (foldl g r l).
Proof.
  intros Hg. revert r. induction l as [|b l IH]; intros r; cbn; [by apply reg_evolves_same|].
  eapply evolves_trans; [apply Hg|apply IH].
Qed.
Lemma evolves_then r r' r'' : evolves r r' → next_slot_id r'' = next_slot_id r' → mnreg r'' = mnreg r' → masternodes r'' = masternodes r' →
  evolves r r''.
Proof. intros He E1 E2 E3. eapply evolves_trans; [exact He|by apply reg_evolves_same]. Qed.

Lemma evolves_rebuild r r' : evolves r r' → evolves r (rebuild_node_caches r').
Proof. intros He. by apply (evolves_then r r'). Qed.
Lemma evolves_undo r a : evolves r (undo_registration r a).
Proof.
  split; cbn; [done| |].
  - intros b rec [_ Hr]%lookup_delete_Some. eauto.
  - intros b i' Hi'. exists i'. split; [exact Hi'|apply info_step_refl].
Qed.
Lemma evolves_unregister r a : evolves r (unregister r a).1.
Proof.
  unfold unregister. destruct (masternodes r !! a) as [i|]; [|by apply reg_evolves_same]. cbn.
  eapply evolves_then; [apply (evolves_delete r a)|..]; unfold remove_anchor_of; by destruct (collateral_outpoint _).
Qed.
Lemma evolves_auto_remove now r a : evolves r (auto_remove now r a).
Proof.
  unfold auto_remove. destruct (masternodes r !! a) as [i|]; [|by apply reg_evolves_same].
  eapply evolves_then; [apply (evolves_delete r a)|..]; destruct (collateral_outpoint _) eqn:E; unfold remove_anchor_of; by rewrite ?E.
Qed.
Lemma refresh_step now c r a i : info_step i (refresh_activity now c r a i).
Proof.
  unfold refresh_activity. destruct (is_local r a); [apply info_step_refl|]. destruct (registration_source i); [done|].
  split_and!; [done..|]. intros _. unfold idle. cbn. by intros ->.
Qed.
Lemma evolves_cleanup_reports now c r : evolves r (cleanup_stale_reports now c r).
Proof.
  unfold cleanup_stale_reports. set (r1 := set_nodes _ r).
  assert (evolves r r1) as Hr1.
  { apply evolves_nodes. intros a i'. rewrite map_lookup_imap. destruct (masternodes r !! a) as [i|]; [|done]. cbn. intros [= <-].
    exists i. split; [done|apply refresh_step]. }
  eapply evolves_trans; [exact Hr1|]. eapply evolves_then; [apply (evolves_fold (auto_remove now)), evolves_auto_remove|done..].
Qed.
Lemma evolves_cleanup_collateral now m r : evolves r (cleanup_invalid_collaterals now m r).1.2.
Proof.
  unfold cleanup_invalid_collaterals. destruct (foldl (collateral_miss now r) _ _) as [[m1 misses] gone].
  assert (∀ l m0 r0, evolves r0 (foldl deregister_one (m0, r0) l).2) as Hf.
  { induction l as [|a l IH]; intros m0 r0; cbn [foldl]; [by apply reg_evolves_same|].
    assert (evolves r0 (deregister_one (m0, r0) a).2) as Hd.
    { unfold deregister_one. set (r2 := set_misses _ r0). pose proof (evolves_unregister r2 a) as Hu.
      assert (evolves r0 r2) as H02 by (by apply reg_evolves_same).
      destruct (unregister r2 a) as [r3 [[i|]|]]; by eapply evolves_trans. }
    destruct (deregister_one (m0, r0) a) as [m2 r2]. eapply evolves_trans; [exact Hd|apply IH]. }
  specialize (Hf gone m1 (set_misses misses r)). destruct (foldl deregister_one _ gone) as [m2 r2]. cbn in *.
  eapply evolves_trans; [|exact Hf]. by apply reg_evolves_same.
Qed.

Definition is_register (p : reg_op) : Prop := match p with RRegister _ _ _ _ _ _ _ _ _ _ => True | _ => False end.
Lemma reg_exec_evolves r p : ¬ is_register p → evolves r (reg_exec r p).
Proof.
  destruct p; cbn [is_register reg_exec]; intros Hn; try (by apply reg_evolves_same); try done.
  - unfold apply_masternode_deregistration. destruct (map_err _ _); [|by apply reg_evolves_same].
    destruct (masternodes r !! node) as [i|]; [|by apply reg_evolves_same]. destruct (negb _); [by apply reg_evolves_same|]. cbn.
    eapply evolves_trans; [apply (evolves_delete r node)|].
    exact (evolves_undo (set_nodes (delete node (masternodes r)) r) node).
  - unfold apply_masternode_payout_update. destruct (map_err _ _); [|by apply reg_evolves_same]. by apply evolves_alter.
  - apply evolves_undo.
  - apply evolves_unregister.
  - apply evolves_cleanup_collateral.
  - unfold suspend_from_consensus. destruct (is_local r a); [by apply reg_evolves_same|].
    destruct (resolve_address_key r a) as [k|]; [|by apply reg_evolves_same]. cbn. destruct (masternodes r !! k) as [i|] eqn:Ek; [|by apply reg_evolves_same].
    cbn. destruct (consensus_suspended i); [by apply reg_evolves_same|]. cbn. apply evolves_rebuild.
    eapply evolves_insert; [done|]. split_and!; [done..|]. by intros _ _.
  - unfold clear_consensus_suspension.
    destruct (resolve_address_key r a) as [k|]; [|by apply reg_evolves_same]. cbn. destruct (masternodes r !! k) as [i|] eqn:Ek; [|by apply reg_evolves_same].
    cbn. destruct (consensus_suspended i) eqn:Es; [|by apply reg_evolves_same]. cbn. apply evolves_rebuild.
    eapply evolves_insert; [done|]. split_and!; [done..|]. by intros _ ?.
  - unfold process_status_gossip. apply evolves_fold. intros r' b. destruct (ignored_report b); [by apply reg_evolves_same|].
    by apply evolves_alter.
  - apply evolves_cleanup_reports.
  - unfold set_publicly_reachable. by apply evolves_alter.
  - unfold try_claim_reachability_probe. destruct (masternodes r !! a) as [i|] eqn:Ea; [|by apply reg_evolves_same].
    destruct (_ && _); [by apply reg_evolves_same|]. by eapply evolves_insert.
  - unfold update_reward_counters. apply evolves_fmap. intros i. unfold count_reward. by case_match.
  - unfold reconstruct_reward_counters. by apply evolves_fmap.
Qed.

(** ** Slots *)

(** The slot an address holds, on chain or in memory. *)
Definition holds r (a : string) (s : Z) : Prop :=
  (∃ rec, mnreg r !! a = Some rec ∧ oc_slot_id rec = s)
  ∨ (∃ i, masternodes r !! a = Some i ∧ slot_id (masternode i) = s ∧ s ≠ U32 - 1).
Record reg_inv r : Prop := mkRegInv {
  ri_next : 0 ≤ next_slot_id r < U32;
  ri_bound : ∀ a s, holds r a s → 0 ≤ s < next_slot_id r;
  ri_unique : ∀ a b s, holds r a s → holds r b s → a = b;
  ri_keyed : keyed r;
  ri_idle : ∀ a i, masternodes r !! a = Some i → idle i;
}.

Lemma evolves_inv r r' : evolves r r' → reg_inv r → reg_inv r'.
Proof.
  intros [E1 E2 E3] [I1 I2 I3 I4 I5].
  assert (∀ a s, holds r' a s → holds r a s) as Hh.
  { intros a s [(rec & (rec0 & Hr & E)%E2 & <-)|(i & (i0 & Hi & Es & _)%E3 & <- & Hn)].
    - left. exists rec0. split; [done|congruence].
    - right. exists i0. split; [done|]. split; [congruence|done]. }
  split; rewrite ?E1; [done|eauto|eauto| |].
  - intros a i' (i & Hi & _ & -> & _)%E3. by apply I4.
  - intros a i' (i & Hi & _ & _ & _ & Hd)%E3. by eapply Hd, I5.
Qed.
Lemma bump_inv r n : reg_inv r → next_slot_id r ≤ n < U32 → reg_inv (set_mnreg (mnreg r) n r).
Proof.
  intros [I1 I2 I3 I4 I5] Hn. split; cbn; [lia| |exact I3|done|done].
  intros a s Hs. specialize (I2 a s Hs). lia.
Qed.
Lemma register_inv now m r node wallet reward coll pubkey vk height t s :
  reg_inv r → 0 ≤ s < next_slot_id r → (∀ b, holds r b s → b = node) →
  reg_inv (register_onchain now m r node wallet reward coll pubkey vk height t s).1.
Proof.
  intros Hi Hs Hown. unfold register_onchain. destruct (registration_collateral _ _ _ _) as [[[ti amt] op]|e]; [|done]. cbn [fst].
  set (i' := match masternodes _ !! node with Some i => _ | None => _ end).
  assert (slot_id (masternode i') = s ∧ mn_address (masternode i') = node ∧ idle i') as (Es & Ea & Hid).
  { unfold i'. cbn [masternodes set_mnreg]. destruct (masternodes r !! node) as [i|] eqn:En; [|done].
    split; [done|]. split; [exact (ri_keyed r Hi node i En)|]. exact (ri_idle r Hi node i En). }
  clearbody i'. destruct Hi as [I1 I2 I3 I4 I5]. set (r' := set_nodes _ _).
  assert (∀ a q, holds r' a q → a = node ∧ q = s ∨ a ≠ node ∧ holds r a q) as Hh.
  { intros a q [(rec & Hr & Hq)|(i & Hr & Hq & Hn)]; cbn in Hr; destruct (decide (a = node)) as [->|Hne];
      rewrite ?lookup_insert_eq, ?lookup_insert_ne in Hr by done.
    - left. injection Hr as <-. cbn in Hq. done.
    - right. split; [done|]. left. by exists rec.
    - left. injection Hr as <-. split; [done|congruence].
    - right. split; [done|]. right. by exists i. }
  split; [done|..].
  - intros a q [[_ ->]|[_ Hq]]%Hh; [done|by eapply I2].
  - intros a b q [[-> ->]|[Ha Hq]]%Hh [[-> E]|[Hb Hq']]%Hh; [done|by apply Hown in Hq'|subst; by apply Hown in Hq|by eapply I3].
  - intros a i. cbn. destruct (decide (a = node)) as [->|Hne]; rewrite ?lookup_insert_eq, ?lookup_insert_ne by done;
      [by intros [= <-]|apply I4].
  - intros a i. cbn. destruct (decide (a = node)) as [->|Hne]; rewrite ?lookup_insert_eq, ?lookup_insert_ne by done;
      [by intros [= <-]|apply I5].
Qed.
Lemma set_height_evolves h a rec r : mnreg r !! a = Some rec → evolves r (set_height_if_unset h a rec r).
Proof.
  intros Hr. unfold set_height_if_unset. destruct (_ && _); [|by apply reg_evolves_same].
  eapply evolves_trans; [|apply evolves_alter; intros i; destruct (registration_source i); done].
  split; [done| |].
  - intros b rec'. cbn. intros [[<- <-]|[_ Hb]]%lookup_insert_Some; eauto.
  - intros b i Hi. exists i. split; [exact Hi|apply info_step_refl].
Qed.

Lemma exec_reg_inv r p : reg_inv r → reg_inv (reg_exec r p).
Proof.
  intros Hi. destruct (decide (match p with RRegister _ _ _ _ _ _ _ _ _ _ => true | _ => false end = true)) as [Hp|Hp].
  2: { apply (evolves_inv r); [|done]. apply reg_exec_evolves. intros Hr. by destruct p. }
  destruct p; try done. cbn [reg_exec]. unfold apply_masternode_registration. cbv zeta.
  assert (∀ b, ¬ holds r b (next_slot_id r)) as Hnew by (intros b Hb%(ri_bound r Hi); lia).
  assert (∀ (sd : SpecialTransactionData), reg_inv (match assign_next_slot_id r with
    | Ok (r, s) => register_onchain now m r node wallet reward coll pubkey (special_key sd) height t s
    | Err e => (r, Err e) end).1) as Hfresh.
  { intros sd. unfold assign_next_slot_id. destruct (Z.leb_spec U32 (next_slot_id r + 1)); [done|].
    pose proof (ri_next r Hi). apply register_inv; [apply bump_inv; [done|lia]|cbn; lia|]. intros b Hb. by destruct (Hnew b). }
  destruct (mnreg r !! node) as [rec|] eqn:Er; [destruct (String.eqb _ t)|].
  - cbn [fst]. apply (evolves_inv r); [|done]. by apply set_height_evolves.
  - destruct (map_err _ _); [|done]. destruct (_ <=? height); [|apply Hfresh].
    assert (holds r node (oc_slot_id rec)) as Hh by (left; by exists rec).
    apply register_inv; [done|by eapply (ri_bound r Hi)|]. intros b Hb. by apply (ri_unique r Hi b node (oc_slot_id rec)).
  - destruct (map_err _ _); [|done]. apply Hfresh.
Qed.
Lemma run_reg_inv r ps : reg_inv r → reg_inv (reg_run r ps).
Proof. intros Hi. apply (foldl_preserve reg_exec reg_inv); [|done]. intros a p. apply exec_reg_inv. Qed.
Lemma new_reg_inv local started : reg_inv (registry_new local started).
Proof.
  split; [cbn; unfold U32; lia|..].
  - intros a s [(rec & Hr & _)|(i & Hr & _)]; cbn in Hr; by rewrite lookup_empty in Hr.
  - intros a b s [(rec & Hr & _)|(i & Hr & _)]; cbn in Hr; by rewrite lookup_empty in Hr.
  - intros a i Hr. cbn in Hr; by rewrite lookup_empty in Hr.
  - intros a i Hr. cbn in Hr; by rewrite lookup_empty in Hr.
Qed.

(** C25: Whatever registrations, removals, rollbacks, reports and clean-ups the registry has
    seen, in any order: no slot is held by two masternodes, every slot held is below the
    counter, the counter fits its width and each masternode is stored under its own address.
    *)
Theorem slots_unique local started ps :
  let r := reg_run (registry_new local started) ps in
  (∀ a s, holds r a s → 0 ≤ s < next_slot_id r) ∧ next_slot_id r < U32
  ∧ (∀ a b s, holds r a s → holds r b s → a = b)
  ∧ (∀ a i, masternodes r !! a = Some i → mn_address (masternode i) = a).
Proof.
  cbv zeta. destruct (run_reg_inv _ ps (new_reg_inv local started)) as [I1 I2 I3 I4 I5].
  split; [exact I2|]. split; [lia|]. split; [exact I3|exact I4].
Qed.

(** A masternode suspended from consensus is in neither the reward pool nor the active list
    nor the list of active masternodes the caches hold after a rebuild, in every state the
    registry reaches, whatever connections and reports came in after the suspension. *)
Theorem suspended_not_eligible local started ps now height i :
  let r := reg_run (registry_new local started) ps in
  consensus_suspended i = true →
  (i ∉ get_eligible_pool_nodes now r height) ∧ (i ∉ get_active_masternodes r) ∧ (i ∉ cached_active (rebuild_node_caches r)).
Proof.
  cbv zeta. intros Hsus. destruct (run_reg_inv _ ps (new_reg_inv local started)) as [_ _ _ _ Hidle].
  set (r := reg_run _ ps) in *.
  assert (i ∈ (iter (masternodes r)).*2 → is_active i = false) as Hoff.
  { intros ([a i'] & -> & Hin)%list_elem_of_fmap. rewrite iter_perm, elem_of_map_to_list in Hin. exact (Hidle _ _ Hin Hsus). }
  assert (is_within_grace now i = false ∧ is_free_active now i = false) as [Hg Hf].
  { unfold is_within_grace, is_free_active. by rewrite Hsus. }
  assert (∀ P : MasternodeInfo → bool, (i ∈ (iter (masternodes r)).*2 → P i = false) → i ∉ filter (λ i, P i = true) (iter (masternodes r)).*2) as Hno.
  { intros P HP [HPi Hin]%list_elem_of_filter. rewrite (HP Hin) in HPi. done. }
  split.
  - unfold get_eligible_pool_nodes. cbv zeta.
    assert (i ∈ (iter (masternodes r)).*2 → active_in_pool now i = false) as Hap.
    { intros Hin. unfold active_in_pool. rewrite Hf, Hg, (Hoff Hin). by destruct (tier (masternode i)). }
    repeat case_match; (apply (Hno (λ i, _ : bool)); intros Hin; rewrite ?(Hap Hin), ?(Hoff Hin), ?Hg; done).
  - assert (counts_toward_consensus i = false) as Hc by (unfold counts_toward_consensus; by rewrite Hsus, andb_false_r).
    split; apply (Hno counts_toward_consensus); done.
Qed.

(** ** Collateral *)

(** The collateral is stored and worth its tier. *)
Definition backed m i (o : OutPoint) : bool :=
  match get_utxo m o with
  | Ok u => negb ((0 <? collateral (tier (masternode i))) && (value u <? collateral (tier (masternode i))))
  | Err _ => false
  end.
(** The masternodes a pass looks at, and those whose collateral it finds missing. *)
Definition checked r (a : string) i : bool :=
  negb (bool_decide (local_masternode_address r = Some a)) && bool_decide (is_Some (collateral_outpoint (masternode i))).
Definition missing (now : Z) m i : bool :=
  match collateral_outpoint (masternode i) with
  | Some o => negb (backed m i o) && negb (is_active i && (sat_sub now (last_seen_at i) <? ACTIVE_GRACE_SECS))
  | None => false
  end.

Lemma check_validity_spec now m r a i o : masternodes r !! a = Some i → collateral_outpoint (masternode i) = Some o →
  (check_collateral_validity now m r a).2 = backed m i o.
Proof.
  intros Ha Ho. unfold check_collateral_validity, backed. rewrite Ha, Ho. destruct (get_utxo m o) as [u|]; [|done]. by destruct (_ && _).
Qed.
Lemma check_validity_storage now m r a : storage (check_collateral_validity now m r a).1 = storage m.
Proof.
  unfold check_collateral_validity. repeat (case_match; try done). cbn [fst].
  destruct (is_collateral_locked m _); [done|]. unfold lock_collateral, lock_collateral_inner. by repeat case_match.
Qed.

Definition miss_view (acc : UTXOStateManager S * gmap string Z * list string) (a : string) : S * option Z * bool :=
  (storage acc.1.1, acc.1.2 !! a, bool_decide (a ∈ acc.2)).
Lemma collateral_miss_self now r acc a i : masternodes r !! a = Some i → bool_decide (a ∈ acc.2) = false →
  miss_view (collateral_miss now r acc (a, i)) a =
  let n := default 0 (acc.1.2 !! a) + 1 in
  if checked r a i then
    if missing now acc.1.1 i then (storage acc.1.1, Some n, MISS_THRESHOLD <=? n) else (storage acc.1.1, None, false)
  else (storage acc.1.1, acc.1.2 !! a, false).
Proof.
  destruct acc as [[m misses] gone]. cbn [fst snd]. intros Ha Hg. unfold collateral_miss, checked, missing, miss_view. cbv zeta.
  destruct (bool_decide (local_masternode_address r = Some a)); [by cbn; rewrite Hg|]. cbn [negb andb].
  destruct (collateral_outpoint (masternode i)) as [o|] eqn:Eo; [|rewrite (bool_decide_eq_false_2 (is_Some None)) by (by intros [? ?]); by cbn; rewrite Hg].
  rewrite (bool_decide_eq_true_2 (is_Some (Some o))) by (by eexists).
  pose proof (check_validity_spec now m r a i o Ha Eo) as E1. pose proof (check_validity_storage now m r a) as E2.
  destruct (check_collateral_validity now m r a) as [m' ok]. cbn [fst snd] in *.
  subst ok. destruct (backed m i o); cbn [negb andb fst snd]; [by rewrite lookup_delete_eq, Hg, E2|].
  destruct (is_active i && _); cbn [negb fst snd]; [by rewrite lookup_delete_eq, Hg, E2|].
  rewrite lookup_insert_eq, E2. f_equal. destruct (MISS_THRESHOLD <=? _); [|done]. apply bool_decide_eq_true_2, elem_of_app. right. by apply list_elem_of_singleton.
Qed.
Lemma collateral_miss_other now r acc a i b : a ≠ b →
  miss_view (collateral_miss now r acc (a, i)) b = miss_view acc b.
Proof.
  intros Hne. destruct acc as [[m misses] gone]. unfold collateral_miss, miss_view. destruct (bool_decide (local_masternode_address r = Some a)); [done|].
  destruct (collateral_outpoint (masternode i)) as [o|] eqn:Eo; [|done].
  pose proof (check_validity_storage now m r a) as E2. destruct (check_collateral_validity now m r a) as [m' ok]. cbn [fst snd] in *.
  destruct ok; cbn [fst snd]; [by rewrite lookup_delete_ne, E2|]. destruct (_ && _); cbn [fst snd]; [by rewrite lookup_delete_ne, E2|].
  rewrite lookup_insert_ne, E2 by done. f_equal. destruct (_ <=? _); [|done]. apply bool_decide_ext. rewrite elem_of_app, list_elem_of_singleton.
  naive_solver.
Qed.

(** The masternodes a pass removes. *)
Definition third_miss (now : Z) m r (a : string) i : bool :=
  checked r a i && missing now m i && (MISS_THRESHOLD <=? default 0 (collateral_miss_counts r !! a) + 1).

Lemma missing_storage now m m' i : storage m = storage m' → missing now m i = missing now m' i.
Proof. intros E. unfold missing, backed, get_utxo. by rewrite E. Qed.
Lemma scan_view now m r a :
  miss_view (foldl (collateral_miss now r) (m, collateral_miss_counts r, []) (iter (masternodes r))) a =
  match masternodes r !! a with
  | Some i =>
      let n := default 0 (collateral_miss_counts r !! a) + 1 in
      (storage m, if checked r a i then if missing now m i then Some n else None else collateral_miss_counts r !! a, third_miss now m r a i)
  | None => (storage m, collateral_miss_counts r !! a, false)
  end.
Proof.
  destruct (masternodes r !! a) as [i|] eqn:Ea.
  - apply (loop_hits _ _ (collateral_miss_other now r) _ _ _ i).
    + intros acc E. unfold miss_view in E at 2. cbn [fst snd] in E. pose proof E as E'. unfold miss_view in E'. injection E' as E1 E2 E3.
      rewrite collateral_miss_self by done. cbv zeta. unfold third_miss. rewrite E1, E2, (missing_storage now _ m) by done.
      destruct (checked r a i), (missing now m i); done.
    + rewrite iter_perm. apply NoDup_fst_map_to_list.
    + by rewrite iter_perm, elem_of_map_to_list.
  - rewrite (loop_skips _ _ (collateral_miss_other now r)); [done|]. intros ([b i] & -> & Hin)%list_elem_of_fmap.
    rewrite iter_perm, elem_of_map_to_list in Hin. cbn in Ea. congruence.
Qed.

(** What the removal of one masternode changes at an address. *)
Definition node_view (acc : UTXOStateManager S * MasternodeRegistry) (a : string) : option MasternodeInfo * option Z :=
  (masternodes acc.2 !! a, collateral_miss_counts acc.2 !! a).
Lemma unregister_view r a b :
  masternodes (unregister r a).1 !! b = (if decide (a = b) then None else masternodes r !! b)
  ∧ collateral_miss_counts (unregister r a).1 = collateral_miss_counts r.
Proof.
  unfold unregister. destruct (masternodes r !! a) as [i|] eqn:Ea; cbn.
  - unfold remove_anchor_of. destruct (collateral_outpoint (masternode i)); (split; [|done]); cbn;
      (destruct (decide (a = b)) as [->|]; [apply lookup_delete_eq|by apply lookup_delete_ne]).
  - split; [|done]. by destruct (decide (a = b)) as [->|].
Qed.
Lemma deregister_view acc a b : node_view (deregister_one acc a) b = if decide (a = b) then (None, None) else node_view acc b.
Proof.
  destruct acc as [m r]. unfold deregister_one, node_view.
  pose proof (unregister_view (set_misses (delete a (collateral_miss_counts r)) r) a b) as [E1 E2].
  destruct (unregister _ a) as [r' res]. cbn [fst snd] in *.
  assert ((masternodes r' !! b, collateral_miss_counts r' !! b) = if decide (a = b) then (None, None) else node_view (m, r) b) as E.
  { rewrite E1, E2. cbn. destruct (decide (a = b)) as [->|]; [by rewrite lookup_delete_eq|by rewrite lookup_delete_ne]. }
  by destruct res as [[]|].
Qed.
Lemma deregister_all_view gone acc b :
  node_view (foldl deregister_one acc gone) b = if decide (b ∈ gone) then (None, None) else node_view acc b.
Proof.
  revert acc. induction gone as [|a gone IH]; intros acc; [by rewrite decide_False by apply not_elem_of_nil|]. cbn. rewrite IH, deregister_view.
  destruct (decide (b ∈ gone)); [by rewrite decide_True by (by constructor)|]. destruct (decide (a = b)) as [->|]; [by rewrite decide_True by constructor|].
  rewrite decide_False; [done|]. rewrite elem_of_cons. naive_solver.
Qed.

(** A collateral check removes exactly the masternodes, other than the local one, whose
    collateral is missing or below their tier for the third pass in a row; a masternode with
    a sound collateral, or active and seen within ten minutes, has its count of misses
    reset, and every other entry is unchanged. *)
Theorem cleanup_removes_exactly now m r a :
  let r' := (cleanup_invalid_collaterals now m r).1.2 in
  (masternodes r' !! a, collateral_miss_counts r' !! a) =
  match masternodes r !! a with
  | None => (None, collateral_miss_counts r !! a)
  | Some i =>
      if checked r a i then
        if missing now m i then
          if MISS_THRESHOLD <=? default 0 (collateral_miss_counts r !! a) + 1 then (None, None)
          else (Some i, Some (default 0 (collateral_miss_counts r !! a) + 1))
        else (Some i, None)
      else (Some i, collateral_miss_counts r !! a)
  end.
Proof.
  cbv zeta. unfold cleanup_invalid_collaterals. pose proof (scan_view now m r a) as Hv.
  destruct (foldl (collateral_miss now r) _ _) as [[m1 misses] gone]. unfold miss_view in Hv. cbn [fst snd] in Hv.
  pose proof (deregister_all_view gone (m1, set_misses misses r) a) as Hd. unfold node_view in Hd.
  destruct (foldl deregister_one _ gone) as [m2 r2]. cbn [fst snd] in *. rewrite Hd. cbn [fst snd set_misses masternodes collateral_miss_counts].
  destruct (masternodes r !! a) as [i|] eqn:Ea; cbv zeta in Hv; injection Hv as _ Em Eg.
  - unfold third_miss in Eg. rewrite Em. destruct (checked r a i), (missing now m i); cbn [andb] in Eg;
      try (rewrite decide_False by (by eapply bool_decide_eq_false); done).
    destruct (MISS_THRESHOLD <=? _); [by rewrite decide_True by (by eapply bool_decide_eq_true)|by rewrite decide_False by (by eapply bool_decide_eq_false)].
  - rewrite decide_False by (by eapply bool_decide_eq_false). cbn. by rewrite Em.
Qed.
End proofs.

Section registry_samples.
#[local] Existing Instance tagged_externals.
#[local] Existing Instance canonical_iter.

Definition sample_key (n : Z) : string := hex_of_bytes (replicate 32 n).
Definition sample_signature (n : Z) : string := hex_of_bytes (replicate 64 n).
Definition sample_collateral : string := outpoint_key (w_op 1).
Definition sample_registration (node wallet coll : string) (key height : Z) (t : string) : reg_op :=
  RRegister 5 w_started node wallet wallet coll (sample_key key) (sample_signature key) height t.
(** Two masternodes, registered by the holders of two keys. *)
Definition sample_registry : MasternodeRegistry :=
  reg_run (registry_new None 0)
    [sample_registration "1.1.1.1" "w1" "" 1 300 "t1"; sample_registration "2.2.2.2" "w2" "" 2 300 "t2"].

Lemma sample_keyed : keyed sample_registry.
Proof. apply (run_reg_inv _ _ (new_reg_inv None 0)). Qed.
Lemma bitmap_agrees_witness :
  mn_address ∘ masternode <$> get_active_from_bitmap sample_registry (create_active_bitmap_from_voters sample_registry ["2.2.2.2"]).1
  = ["2.2.2.2"].
Proof.
  rewrite (proj1 (bitmap_agrees canonical_iter canonical_iter sample_registry ["2.2.2.2"] sample_keyed)). by vm_compute.
Defined.
Definition sample_suspension : list reg_op :=
  [sample_registration "1.1.1.1" "w1" "" 1 300 "t1"; RCleanupReports 10 {["1.1.1.1"]}; RSuspend 11 "1.1.1.1"].
Lemma sample_suspended :
  (consensus_suspended <$> masternodes (reg_run (registry_new None 0) sample_suspension) !! "1.1.1.1") = Some true.
Proof. by vm_compute. Qed.
Lemma suspended_not_eligible_witness :
  ∃ i, masternodes (reg_run (registry_new None 0) sample_suspension) !! "1.1.1.1" = Some i
       ∧ i ∉ get_eligible_pool_nodes 12 (reg_run (registry_new None 0) sample_suspension) 301.
Proof.
  pose proof (proj1 (fmap_Some _ _ _) sample_suspended) as (i & Hi & Hs). exists i. split; [exact Hi|].
  exact (proj1 (suspended_not_eligible None 0 sample_suspension 12 301 i (eq_sym Hs))).
Defined.

(** A key that registered no masternode removes one and redirects the payout of another. *)
Theorem foreign_key_deregisters :
  let r := sample_registry in
  oc_pubkey <$> mnreg r !! "1.1.1.1" = Some (sample_key 1)
  ∧ reward_address <$> masternodes r !! "2.2.2.2" = Some "w2"
  ∧ masternodes (reg_exec r (RDeregister w_started "1.1.1.1" 0 (sample_key 9) (sample_signature 9))) !! "1.1.1.1" = None
  ∧ reward_address <$> masternodes (reg_exec r (RPayout "2.2.2.2" "w9" (sample_key 9) (sample_signature 9))) !! "2.2.2.2" = Some "w9".
Proof. vm_compute. done. Qed.

(** A registration on another wallet's collateral is refused in a block, and accepted
    there when it was applied at its finalization, which passes the height 0. *)
Theorem ownership_check_bypassed :
  let late := sample_registration "3.3.3.3" "w9" sample_collateral 9 1300 "t3" in
  let early := sample_registration "3.3.3.3" "w9" sample_collateral 9 0 "t3" in
  masternodes (reg_exec sample_registry late) !! "3.3.3.3" = None
  ∧ (collateral_outpoint ∘ masternode) <$> masternodes (reg_run sample_registry [early; late]) !! "3.3.3.3" = Some (Some (w_op 1))
  ∧ oc_registration_height <$> mnreg (reg_run sample_registry [early; late]) !! "3.3.3.3" = Some 1300.
Proof. vm_compute. done. Qed.

(** Rolling back a block that renewed a registration forgets the registration itself, and the
    list of all masternodes lacks one registered on chain. *)
Theorem undo_forgets_renewed :
  let r := reg_run sample_registry [sample_registration "1.1.1.1" "w1" "" 1 400 "t4"; RUndo "1.1.1.1"] in
  mnreg r !! "1.1.1.1" = None ∧ is_Some (mnreg sample_registry !! "1.1.1.1")
  ∧ cached_all sample_registry = [] ∧ length (list_all sample_registry) = 2%nat.
Proof. vm_compute. split_and!; [done|by eexists|done|done]. Qed.
End registry_samples.
