(* ===== verification/BlockCache.v ===== *)
(** * The block cache (src/block_cache.rs)

    [BlockCacheManager] keeps recent blocks twice: as values in a hot tier and as bytes
    in a larger warm tier, both an [LruCache] of the [lru] crate ([LruCrate]).  The
    statistics printed by [stats] are the three counters; the memory estimate is left out. *)

From Stdlib Require Import ZArith Lia Ascii String.
From stdpp Require Import base gmap strings list.
From S2P Require Import Prelude Types Instances Lru BlockTypes.

(** [bincode::deserialize::<Block>], and what reading relies on: what was serialized can
    be read back. *)
Class BlockCodec := { block_decode : bytes → option Block }.
Class BlockCodecLaws `{BlockExternals} `{!BlockCodec} :=
  block_decode_bincode : ∀ b d, block_bincode b = Some d → block_decode d = Some b.

(** ** What every entry of a tier satisfies *)

Section entries.
Context `{LruCrate} {V : Type}.
Implicit Types c : LruCache Z V.

Definition lru_ok (P : Z → V → Prop) c : Prop := ∀ k v, lru_peek c k = Some v → P k v.
Lemma lru_new_ok P cap : lru_ok P (lru_new cap).
Proof. intros k v. by rewrite lru_peek_new. Qed.
Lemma lru_clear_ok P c : lru_ok P (lru_clear c).
Proof. intros k v. by rewrite lru_peek_clear. Qed.
Lemma lru_get_ok P c k : lru_ok P c → lru_ok P (lru_get c k).1 ∧ (∀ v, (lru_get c k).2 = Some v → P k v).
Proof. intros Hc. split; [intros k' v; rewrite lru_peek_get; apply Hc|]. rewrite lru_get_value. apply Hc. Qed.
Lemma lru_put_ok (P Q : Z → V → Prop) c k v : (∀ k' v, k' ≠ k → P k' v → Q k' v) → Q k v → lru_ok P c → lru_ok Q (lru_put c k v).
Proof.
  intros HPQ Hv Hc k' v'. destruct (decide (k' = k)) as [->|Hne]; [rewrite lru_peek_put; by intros [= <-]|].
  intros Hk. apply HPQ; [done|]. by eapply Hc, lru_peek_put_ne.
Qed.
Lemma lru_pop_ok (P Q : Z → V → Prop) c k : (∀ k' v, k' ≠ k → P k' v → Q k' v) → lru_ok P c → lru_ok Q (lru_pop c k).1.
Proof. intros HPQ Hc k' v'. rewrite lru_peek_pop. destruct (decide _); [done|]. intros Hk. by apply HPQ, Hc. Qed.
Lemma lru_mono_ok (P Q : Z → V → Prop) c : (∀ k v, P k v → Q k v) → lru_ok P c → lru_ok Q c.
Proof. intros HPQ Hc k v Hk. by apply HPQ, Hc. Qed.
End entries.

(** ** [BlockCacheManager] *)

Definition CACHE_SCHEMA_VERSION : Z := 2.
Section cache.
Context `{LruCrate} `{BlockExternals} `{!BlockCodec}.
Record BlockCacheManager := mkCache {
  hot : LruCache Z Block; warm : LruCache Z bytes; schema_version : Z;
  hot_hits : Z; warm_hits : Z; misses : Z;
}.
Implicit Types k : BlockCacheManager.

(** A capacity of zero is replaced by a default. *)
Definition capacity (n : nat) (d : positive) : positive := match n with O => d | _ => Pos.of_nat n end.
Definition cache_new (hot_capacity warm_capacity : nat) : BlockCacheManager :=
  mkCache (lru_new (capacity hot_capacity 50)) (lru_new (capacity warm_capacity 500)) CACHE_SCHEMA_VERSION 0 0 0.

Definition cache_get k (height : Z) : BlockCacheManager * option Block :=
  match lru_get (hot k) height with
  | (h, Some b) => (mkCache h (warm k) (schema_version k) (add64 (hot_hits k) 1) (warm_hits k) (misses k), Some b)
  | (h, None) =>
      if negb (schema_version k =? CACHE_SCHEMA_VERSION)
      then (mkCache (lru_clear h) (lru_clear (warm k)) CACHE_SCHEMA_VERSION (hot_hits k) (warm_hits k) (add64 (misses k) 1), None)
      else
        let missed w := (mkCache h w (schema_version k) (hot_hits k) (warm_hits k) (add64 (misses k) 1), None) in
        match lru_get (warm k) height with
        | (w, Some d) =>
            match block_decode d with
            | Some b => (mkCache (lru_put h height b) w (schema_version k) (hot_hits k) (add64 (warm_hits k) 1) (misses k), Some b)
            | None => missed (lru_pop w height).1
            end
        | (w, None) => missed w
        end
  end.
Definition cache_put k (height : Z) (b : Block) : BlockCacheManager :=
  mkCache (lru_put (hot k) height b)
    (match block_bincode b with Some d => lru_put (warm k) height d | None => warm k end)
    (schema_version k) (hot_hits k) (warm_hits k) (misses k).
Definition cache_invalidate k (height : Z) : BlockCacheManager :=
  mkCache (lru_pop (hot k) height).1 (lru_pop (warm k) height).1 (schema_version k) (hot_hits k) (warm_hits k) (misses k).
Definition cache_clear k : BlockCacheManager :=
  mkCache (lru_clear (hot k)) (lru_clear (warm k)) (schema_version k) 0 0 0.

(** Both tiers hold only what [view] has at the height. *)
Record coherent (view : Z → option Block) k : Prop := mkCoherent {
  co_hot : lru_ok (λ h b, view h = Some b) (hot k);
  co_warm : lru_ok (λ h d, block_decode d = view h) (warm k);
}.

Lemma cache_get_coherent view k h : coherent view k →
  coherent view (cache_get k h).1 ∧ (∀ b, (cache_get k h).2 = Some b → view h = Some b).
Proof.
  intros [Hh Hw]. unfold cache_get. destruct (lru_get_ok _ _ h Hh) as [Hh' Hr].
  destruct (lru_get (hot k) h) as [h' [b|]]; cbn [fst snd] in *; [split; [by split|naive_solver]|].
  destruct (negb _); [split; [split; apply lru_clear_ok|done]|].
  destruct (lru_get_ok _ _ h Hw) as [Hw' Hv]. destruct (lru_get (warm k) h) as [w [d|]]; cbn [fst snd] in *; [|split; [by split|done]].
  specialize (Hv d eq_refl). destruct (block_decode d) as [b|]; cbn.
  - split; [|by intros b' [= <-]]. split; cbn; [|done]. by eapply lru_put_ok; [| |exact Hh'].
  - split; [|done]. split; cbn; [done|]. by eapply lru_pop_ok; [|exact Hw'].
Qed.
(** Where a block cannot be serialized the warm tier keeps the bytes of the block before. *)
Lemma cache_put_coherent `{!BlockCodecLaws} view k h b d : block_bincode b = Some d → coherent view k →
  coherent (λ h', if decide (h' = h) then Some b else view h') (cache_put k h b).
Proof.
  intros Hd [Hh Hw]. split; cbn.
  - eapply lru_put_ok; [| |exact Hh]; [|by rewrite decide_True]. intros h' b' Hne Hv. by rewrite decide_False.
  - rewrite Hd. eapply lru_put_ok; [| |exact Hw]; [|rewrite decide_True by done; by apply block_decode_bincode].
    intros h' d' Hne Hv. by rewrite decide_False.
Qed.
Lemma cache_refill_coherent `{!BlockCodecLaws} view k h b d : block_bincode b = Some d → view h = Some b → coherent view k →
  coherent view (cache_put k h b).
Proof.
  intros Hd Hv Hc. destruct (cache_put_coherent view k h b d Hd Hc) as [Hco1 Hco2].
  split; (eapply lru_mono_ok; [|done]); cbn; intros h' x; destruct (decide (h' = h)) as [->|]; by rewrite ?Hv.
Qed.
Lemma cache_invalidate_coherent view view' k h : (∀ h', h' ≠ h → view' h' = view h') → coherent view k → coherent view' (cache_invalidate k h).
Proof.
  intros Hv [Hh Hw]. split; cbn.
  - eapply lru_pop_ok; [|exact Hh]. intros h' b Hne Hb. cbn. by rewrite Hv.
  - eapply lru_pop_ok; [|exact Hw]. intros h' d Hne Hb. cbn. by rewrite Hv.
Qed.
Lemma cache_clear_coherent view k : coherent view (cache_clear k).
Proof. split; apply lru_clear_ok. Qed.
Lemma cache_new_coherent view n m : coherent view (cache_new n m).
Proof. split; apply lru_new_ok. Qed.

(** ** Histories *)

Inductive cache_op := CGet (h : Z) | CPut (h : Z) (b : Block) | CInvalidate (h : Z) | CClear.
Definition cache_exec k (p : cache_op) : BlockCacheManager :=
  match p with
  | CGet h => (cache_get k h).1
  | CPut h b => cache_put k h b
  | CInvalidate h => cache_invalidate k h
  | CClear => cache_clear k
  end.
(** The abstract cache: the block put last at each height, unless removed since. *)
Definition latest (view : gmap Z Block) (p : cache_op) : gmap Z Block :=
  match p with
  | CGet _ => view
  | CPut h b => <[h := b]> view
  | CInvalidate h => delete h view
  | CClear => ∅
  end.
Definition serializable (p : cache_op) : Prop := match p with CPut _ b => is_Some (block_bincode b) | _ => True end.

Lemma cache_exec_coherent `{!BlockCodecLaws} view k p : serializable p → coherent (λ h, view !! h) k →
  coherent (λ h, latest view p !! h) (cache_exec k p).
Proof.
  intros Hs Hc. destruct p as [h|h b|h|]; cbn.
  - by apply cache_get_coherent.
  - destruct Hs as [d Hd]. destruct (cache_put_coherent _ k h b d Hd Hc) as [Hco1 Hco2].
    split; (eapply lru_mono_ok; [|done]); cbn; intros h' x;
      (destruct (decide (h' = h)) as [->|]; [by rewrite lookup_insert_eq|by rewrite lookup_insert_ne]).
  - eapply cache_invalidate_coherent; [|exact Hc]. intros h' Hne. cbn. by rewrite lookup_delete_ne.
  - apply cache_clear_coherent.
Qed.
Lemma cache_run_coherent `{!BlockCodecLaws} ps view k : Forall serializable ps → coherent (λ h, view !! h) k →
  coherent (λ h, foldl latest view ps !! h) (foldl cache_exec k ps).
Proof.
  revert view k. induction ps as [|p ps IH]; intros view k Hs Hc; [done|]. apply Forall_cons in Hs as [Hp Hs]. cbn.
  by apply IH, cache_exec_coherent.
Qed.

Lemma cache_put_hit k h b : (cache_get (cache_put k h b) h).2 = Some b.
Proof.
  unfold cache_get. cbn [cache_put hot]. pose proof (lru_get_value (lru_put (hot k) h b) h) as E. rewrite lru_peek_put in E.
  destruct (lru_get _ h) as [h' r]. cbn in E. by subst r.
Qed.
(** C33: The two-tier block cache refines a map from heights to the block put last and not
    invalidated since, whichever entries the [lru] crate drops: whatever is put, read,
    invalidated and cleared, a hit is exactly that block when the blocks can be serialized
    (so a height that was invalidated or cleared and not put again is a miss), and the block
    of the last operation, if it put one, is a hit. *)
Theorem cache_never_stale `{!BlockCodecLaws} n m ps : Forall serializable ps →
  let k := foldl cache_exec (cache_new n m) ps in
  (∀ h b, (cache_get k h).2 = Some b → foldl latest ∅ ps !! h = Some b)
  ∧ ∀ h b, last ps = Some (CPut h b) → (cache_get k h).2 = Some b.
Proof.
  intros Hs. cbv zeta. pose proof (cache_run_coherent ps ∅ (cache_new n m) Hs (cache_new_coherent _ n m)) as Hc.
  split; [intros h; apply (proj2 (cache_get_coherent _ _ h Hc))|].
  intros h b (l & ->)%last_Some. rewrite foldl_snoc. apply cache_put_hit.
Qed.
End cache.

(** ** A concrete codec for the witnesses: a block is stored as its place in a table. *)

#[export] Instance TierCounts_eq_dec : EqDecision MasternodeTierCounts.
Proof. solve_decision. Defined.
#[export] Instance BlockHeader_eq_dec : EqDecision BlockHeader.
Proof. solve_decision. Defined.
#[export] Instance Witness_eq_dec : EqDecision WitnessRecord.
Proof. solve_decision. Defined.
#[export] Instance TimeAttestation_eq_dec : EqDecision TimeAttestation.
Proof. solve_decision. Defined.
#[export] Instance Block_eq_dec : EqDecision Block.
Proof. solve_decision. Defined.

Definition table_bincode (L : list Block) (b : Block) : option bytes := (λ e, [Z.of_nat e.1]) <$> list_find (λ x, x = b) L.
Definition table_externals (L : list Block) : BlockExternals := {|
  blake3 := tagged_digest; block_bincode := table_bincode L; verify_strict pk m s := true |}.
Definition table_codec (L : list Block) : BlockCodec := {|
  block_decode d := match d with [i] => L !! Z.to_nat i | _ => None end |}.
Lemma table_codec_laws L : @BlockCodecLaws (table_externals L) (table_codec L).
Proof.
  intros b d. cbn. unfold table_bincode. destruct (list_find _ L) as [[i x]|] eqn:E; [|done]. intros [= <-].
  apply list_find_Some in E as (Hx & -> & _). by rewrite Nat2Z.id.
Qed.

Section cache_samples.
Definition cache_block (h : Z) : Block :=
  mkBlock (mkHeader 1 h [] [] 0 0 "a" [] (mkTierCounts 0 0 0 0) [] [] 0 [] None [] 0 0) [] [] [] [] None.
Definition cache_table : list Block := [cache_block 1; cache_block 2].
#[local] Existing Instance list_lru.
#[local] Existing Instance tagged_externals.
#[local] Instance cache_ext : BlockExternals := table_externals cache_table.
#[local] Instance cache_cod : BlockCodec := table_codec cache_table.
#[local] Instance cache_law : BlockCodecLaws := table_codec_laws cache_table.

(** One hot and one warm entry: the block put last is read from the hot tier. *)
Definition cache_history : list cache_op := [CPut 1 (cache_block 1); CPut 2 (cache_block 2)].
Lemma cache_never_stale_witness :
  foldl latest ∅ cache_history !! 2 = Some (cache_block 2)
  ∧ (cache_get (foldl cache_exec (cache_new 1 1) cache_history) 2).2 = Some (cache_block 2).
Proof.
  destruct (cache_never_stale 1 1 cache_history) as (Hit & Hlast).
  - repeat constructor; vm_compute; eauto.
  - split; [apply Hit; by vm_compute|by apply Hlast].
Defined.
End cache_samples.
