(* ===== verification/Chain.v ===== *)
(** * The blockchain: state, storage and rewards (src/blockchain.rs, src/tx_index.rs)

    [Blockchain] holds the block database, the undo logs and the other records it keeps in
    the same sled database, one map per kind of key, together with the consensus engine and
    the masternode registry it shares with the rest of the node.  The UTXO manager of the
    struct is the one of the engine.

    [get_block] goes through the cache, rewrites blocks of an older format and deletes what
    it cannot read; [ChainProofs] shows that it returns what [block_at] reads from the
    database, which is what the other operations use.  Sled writes succeed; the key
    [mnreg:] of the block database is a set that nothing writes.  The peer lists, the sync
    coordinator, metrics and the statistical subsystems are left out. *)

From Stdlib Require Import ZArith Lia Ascii String.
From stdpp Require Import base gmap strings list.
From S2P Require Import Prelude Types Instances Address Storage UtxoManager TransactionPool BlockVotes.
From S2P Require Import Lru BlockTypes BlockVrf BlockCache BlockLedger Governance Registry Reward Utf8 Genesis TxValidation Consensus.

Definition ALERT_REORG_DEPTH : Z := 100.
Definition MAX_REORG_DEPTH : Z := 100.
Definition BASE_WORK_PER_BLOCK : Z := 1000000.
Definition REWARD_VIOLATION_THRESHOLD : Z := 3.
Definition REWARD_VIOLATION_DECAY_SECS : Z := 3600.
Definition BLOCK_CACHE_SIZE : nat := 100.

(** The value of a sled key whose write may be pending is its last write. *)
Record TxLocation := mkTxLoc { tl_height : Z; tl_index : nat }.
Record ChainWorkEntry := mkWork { cw_height : Z; cw_hash : Hash256; cw_cumulative : Z }.

(** A block of the format before [total_fees] and [treasury_balance]. *)
Record LegacyBlockHeader := mkLegacyHeader {
  lh_version : Z; lh_height : Z; lh_previous_hash : Hash256; lh_merkle_root : Hash256; lh_timestamp : Z;
  lh_block_reward : Z; lh_leader : string; lh_attestation_root : Hash256; lh_tiers : MasternodeTierCounts;
  lh_vrf_proof : bytes; lh_vrf_output : Hash256; lh_vrf_score : Z; lh_bitmap : bytes;
  lh_liveness : option bool; lh_signature : bytes;
}.
Record LegacyBlock := mkLegacyBlock {
  lb_header : LegacyBlockHeader; lb_transactions : list Transaction; lb_rewards : list (string * Z);
  lb_attestations : list TimeAttestation; lb_participants : bytes; lb_liveness : option bool;
}.
Definition legacy_header (h : LegacyBlockHeader) : BlockHeader :=
  mkHeader (lh_version h) (lh_height h) (lh_previous_hash h) (lh_merkle_root h) (lh_timestamp h) (lh_block_reward h)
    (lh_leader h) (lh_attestation_root h) (lh_tiers h) (lh_vrf_proof h) (lh_vrf_output h) (lh_vrf_score h)
    (lh_bitmap h) (lh_liveness h) (lh_signature h) 0 0.
Definition legacy_block (b : LegacyBlock) : Block :=
  mkBlock (legacy_header (lb_header b)) (lb_transactions b) (lb_rewards b) (lb_attestations b) (lb_participants b) (lb_liveness b).

(** [bincode::deserialize::<LegacyBlock>]. *)
Class LegacyCodec := { legacy_decode : bytes → option LegacyBlock }.
Definition deserialize_legacy_block `{LegacyCodec} (data : bytes) : option Block := legacy_block <$> legacy_decode data.

Inductive chain_error :=
| BlockMissing (h : Z) | DecompressFailed (h : Z) | CorruptedDeleted (h : Z) | Unserializable (h : Z) | ReadbackFailed (h : Z)
| UndoMissing (h : Z) | PreGenesis (h : Z) | ZeroPreviousHash (h : Z) | BrokenLink (h : Z) | MissingParent (h : Z)
| GenesisExists | GenesisLate | GenesisBad (e : genesis_error) | WrongHeight (expected got : Z) | CheckpointMismatch (h : Z)
| TooFewRecipients (h : Z) | TooFewTransactions (h : Z) | NotCoinbase (h : Z) | CoinbaseOutputs (h : Z) | CoinbaseAmount (h : Z)
| WrongReward (h : Z) | TreasuryInflated (h : Z) | DistributionInputs (h : Z) | DistributionSource (h : Z)
| DistributionOutputs (h : Z) | OutputMismatch (h : Z) | OutputUnknown (h : Z) | DistributionTotal (h : Z)
| UnknownMasternodes (h : Z) | Misbehaving (a : string) | TooOld (h : Z) | HashChanged (h : Z)
| TreasuryTooSmall | TreasuryUtxo (e : UtxoError) | EmissionOutOfRange | PastCheckpoint (h : Z) | RollbackTooDeep
| NoTxIndex | ReindexClear.

Section chain.
Context {S : Type} `{UtxoStorage S} `{MapIter} `{Externals} `{BlockExternals} `{!BlockCodec} `{LegacyCodec} `{Zstd} `{LruCrate}.
Context `{TxExternals} `{PoolCodec} `{VrfExternals} `{GovCodec}.

Record Blockchain := mkChain {
  block_db : gmap Z bytes;
  undo_db : gmap Z UndoLog;
  special_undo_db : gmap Z (list string);
  chain_height_db : option Z;
  treasury_db : option Z;
  chain_work_db : gmap Z ChainWorkEntry;
  mnreg_keys : gset string;
  block_cache : BlockCacheManager;
  engine : ConsensusEngine S;
  registry : MasternodeRegistry;
  current_height : Z;
  bc_network : NetworkType;
  is_syncing : bool;
  cumulative_work : Z;
  tx_index : option (gmap Hash256 TxLocation);
  reward_violations : gmap string (Z * Z);
  bc_treasury : Z;
  active_block_reward : Z;
  bc_governance : option GovernanceState;
  confirmed_height : Z;
}.
Implicit Types c : Blockchain.

(** ** Field updates *)

Definition set_block_db (x0 : gmap Z bytes) c : Blockchain :=
  mkChain x0 (undo_db c) (special_undo_db c) (chain_height_db c) (treasury_db c) (chain_work_db c)
    (mnreg_keys c) (block_cache c) (engine c) (registry c) (current_height c) (bc_network c) (is_syncing c)
    (cumulative_work c) (tx_index c) (reward_violations c) (bc_treasury c) (active_block_reward c)
    (bc_governance c) (confirmed_height c).
Definition set_undo_db (x0 : gmap Z UndoLog) c : Blockchain :=
  mkChain (block_db c) x0 (special_undo_db c) (chain_height_db c) (treasury_db c) (chain_work_db c)
    (mnreg_keys c) (block_cache c) (engine c) (registry c) (current_height c) (bc_network c) (is_syncing c)
    (cumulative_work c) (tx_index c) (reward_violations c) (bc_treasury c) (active_block_reward c)
    (bc_governance c) (confirmed_height c).
Definition set_special_undo (x0 : gmap Z (list string)) c : Blockchain :=
  mkChain (block_db c) (undo_db c) x0 (chain_height_db c) (treasury_db c) (chain_work_db c) (mnreg_keys c)
    (block_cache c) (engine c) (registry c) (current_height c) (bc_network c) (is_syncing c)
    (cumulative_work c) (tx_index c) (reward_violations c) (bc_treasury c) (active_block_reward c)
    (bc_governance c) (confirmed_height c).
Definition set_height_db (x0 : option Z) c : Blockchain :=
  mkChain (block_db c) (undo_db c) (special_undo_db c) x0 (treasury_db c) (chain_work_db c) (mnreg_keys c)
    (block_cache c) (engine c) (registry c) (current_height c) (bc_network c) (is_syncing c)
    (cumulative_work c) (tx_index c) (reward_violations c) (bc_treasury c) (active_block_reward c)
    (bc_governance c) (confirmed_height c).
Definition set_work (x0 : gmap Z ChainWorkEntry) (x1 : Z) c : Blockchain :=
  mkChain (block_db c) (undo_db c) (special_undo_db c) (chain_height_db c) (treasury_db c) x0 (mnreg_keys c)
    (block_cache c) (engine c) (registry c) (current_height c) (bc_network c) (is_syncing c) x1 (tx_index c)
    (reward_violations c) (bc_treasury c) (active_block_reward c) (bc_governance c) (confirmed_height c).
Definition set_cache (x0 : BlockCacheManager) c : Blockchain :=
  mkChain (block_db c) (undo_db c) (special_undo_db c) (chain_height_db c) (treasury_db c) (chain_work_db c)
    (mnreg_keys c) x0 (engine c) (registry c) (current_height c) (bc_network c) (is_syncing c)
    (cumulative_work c) (tx_index c) (reward_violations c) (bc_treasury c) (active_block_reward c)
    (bc_governance c) (confirmed_height c).
Definition set_engine (x0 : ConsensusEngine S) c : Blockchain :=
  mkChain (block_db c) (undo_db c) (special_undo_db c) (chain_height_db c) (treasury_db c) (chain_work_db c)
    (mnreg_keys c) (block_cache c) x0 (registry c) (current_height c) (bc_network c) (is_syncing c)
    (cumulative_work c) (tx_index c) (reward_violations c) (bc_treasury c) (active_block_reward c)
    (bc_governance c) (confirmed_height c).
Definition set_registry (x0 : MasternodeRegistry) c : Blockchain :=
  mkChain (block_db c) (undo_db c) (special_undo_db c) (chain_height_db c) (treasury_db c) (chain_work_db c)
    (mnreg_keys c) (block_cache c) (engine c) x0 (current_height c) (bc_network c) (is_syncing c)
    (cumulative_work c) (tx_index c) (reward_violations c) (bc_treasury c) (active_block_reward c)
    (bc_governance c) (confirmed_height c).
Definition set_current_height (x0 : Z) c : Blockchain :=
  mkChain (block_db c) (undo_db c) (special_undo_db c) (chain_height_db c) (treasury_db c) (chain_work_db c)
    (mnreg_keys c) (block_cache c) (engine c) (registry c) x0 (bc_network c) (is_syncing c) (cumulative_work c)
    (tx_index c) (reward_violations c) (bc_treasury c) (active_block_reward c) (bc_governance c)
    (confirmed_height c).
Definition set_syncing (x0 : bool) c : Blockchain :=
  mkChain (block_db c) (undo_db c) (special_undo_db c) (chain_height_db c) (treasury_db c) (chain_work_db c)
    (mnreg_keys c) (block_cache c) (engine c) (registry c) (current_height c) (bc_network c) x0
    (cumulative_work c) (tx_index c) (reward_violations c) (bc_treasury c) (active_block_reward c)
    (bc_governance c) (confirmed_height c).
Definition set_tx_index (x0 : option (gmap Hash256 TxLocation)) c : Blockchain :=
  mkChain (block_db c) (undo_db c) (special_undo_db c) (chain_height_db c) (treasury_db c) (chain_work_db c)
    (mnreg_keys c) (block_cache c) (engine c) (registry c) (current_height c) (bc_network c) (is_syncing c)
    (cumulative_work c) x0 (reward_violations c) (bc_treasury c) (active_block_reward c) (bc_governance c)
    (confirmed_height c).
Definition set_violations (x0 : gmap string (Z * Z)) c : Blockchain :=
  mkChain (block_db c) (undo_db c) (special_undo_db c) (chain_height_db c) (treasury_db c) (chain_work_db c)
    (mnreg_keys c) (block_cache c) (engine c) (registry c) (current_height c) (bc_network c) (is_syncing c)
    (cumulative_work c) (tx_index c) x0 (bc_treasury c) (active_block_reward c) (bc_governance c)
    (confirmed_height c).
Definition set_treasury (x0 : Z) (x1 : option Z) c : Blockchain :=
  mkChain (block_db c) (undo_db c) (special_undo_db c) (chain_height_db c) x1 (chain_work_db c) (mnreg_keys c)
    (block_cache c) (engine c) (registry c) (current_height c) (bc_network c) (is_syncing c)
    (cumulative_work c) (tx_index c) (reward_violations c) x0 (active_block_reward c) (bc_governance c)
    (confirmed_height c).
Definition set_emission (x0 : Z) c : Blockchain :=
  mkChain (block_db c) (undo_db c) (special_undo_db c) (chain_height_db c) (treasury_db c) (chain_work_db c)
    (mnreg_keys c) (block_cache c) (engine c) (registry c) (current_height c) (bc_network c) (is_syncing c)
    (cumulative_work c) (tx_index c) (reward_violations c) (bc_treasury c) x0 (bc_governance c)
    (confirmed_height c).
Definition set_governance (x0 : option GovernanceState) c : Blockchain :=
  mkChain (block_db c) (undo_db c) (special_undo_db c) (chain_height_db c) (treasury_db c) (chain_work_db c)
    (mnreg_keys c) (block_cache c) (engine c) (registry c) (current_height c) (bc_network c) (is_syncing c)
    (cumulative_work c) (tx_index c) (reward_violations c) (bc_treasury c) (active_block_reward c) x0
    (confirmed_height c).
Definition set_confirmed (x0 : Z) c : Blockchain :=
  mkChain (block_db c) (undo_db c) (special_undo_db c) (chain_height_db c) (treasury_db c) (chain_work_db c)
    (mnreg_keys c) (block_cache c) (engine c) (registry c) (current_height c) (bc_network c) (is_syncing c)
    (cumulative_work c) (tx_index c) (reward_violations c) (bc_treasury c) (active_block_reward c)
    (bc_governance c) x0.

Definition bc_utxo c : UTXOStateManager S := utxo_manager (engine c).
Definition set_bc_utxo (m : UTXOStateManager S) c : Blockchain := set_engine (set_utxo m (engine c)) c.

(** ** Blocks *)

(** What the database holds at a height, read the way [get_block_from_storage_only] reads it. *)
Definition block_at c (h : Z) : option Block := d ← block_db c !! h; d ← decompress_block d; block_decode d.

Definition get_block c (h : Z) : Blockchain * result chain_error Block :=
  match cache_get (block_cache c) h with
  | (k, Some b) => (set_cache k c, Ok b)
  | (k, None) =>
      let c := set_cache k c in
      match block_db c !! h with
      | None => (c, Err (BlockMissing h))
      | Some data =>
          match decompress_block data with
          | None => (c, Err (DecompressFailed h))
          | Some data =>
              match block_decode data with
              | Some b => (set_cache (cache_put (block_cache c) h b) c, Ok b)
              | None =>
                  match deserialize_legacy_block data with
                  | Some b =>
                      let c := match block_bincode b with Some d => set_block_db (<[h := d]> (block_db c)) c | None => c end in
                      (set_cache (cache_put (block_cache c) h b) c, Ok b)
                  | None =>
                      (set_cache (cache_invalidate (block_cache c) h) (set_block_db (delete h (block_db c)) c), Err (CorruptedDeleted h))
                  end
              end
          end
      end
  end.
Definition get_block_from_storage_only c (h : Z) : result chain_error Block :=
  match block_db c !! h with
  | None => Err (BlockMissing h)
  | Some data =>
      let? data := ok_or (DecompressFailed h) (decompress_block data) in
      ok_or (ReadbackFailed h) (block_decode data)
  end.
Definition get_block_hash c (h : Z) : option Hash256 := hash <$> block_at c h.
Definition has_genesis c : bool := bool_decide (is_Some (block_at c 0)).
(** [genesis_hash]: zero while there is none. *)
Definition zero_hash : Hash256 := replicate 32 0.

(** Compression is switched off; the write is read back and decoded. *)
Definition save_block c (b : Block) (update_height : bool) : Blockchain * result chain_error () :=
  let h := bh_height (header b) in
  match block_bincode b with
  | None => (c, Err (Unserializable h))
  | Some d =>
      let c := set_block_db (<[h := d]> (block_db c)) c in
      let c := set_cache (cache_put (block_cache c) h b) c in
      let c := if update_height then set_height_db (Some h) c else c in
      (c, match decompress_block d with
          | None => Err (DecompressFailed h)
          | Some d => match block_decode d with Some _ => Ok tt | None => Err (ReadbackFailed h) end
          end)
  end.
Definition update_chain_height c (h : Z) : Blockchain := set_current_height h (set_height_db (Some h) c).
Definition load_chain_height c : Z := default 0 (chain_height_db c).

Definition save_undo_log c (l : UndoLog) : Blockchain := set_undo_db (<[ul_height l := l]> (undo_db c)) c.
Definition delete_undo_log c (h : Z) : Blockchain := set_undo_db (delete h (undo_db c)) c.
Definition save_special_undo_record c (h : Z) (rec : list string) : Blockchain :=
  match rec with [] => c | _ => set_special_undo (<[h := rec]> (special_undo_db c)) c end.
Definition delete_special_undo_record c (h : Z) : Blockchain := set_special_undo (delete h (special_undo_db c)) c.

(** ** Checkpoints *)

Definition MAINNET_CHECKPOINTS : list (Z * Hash256) := [(0, zero_hash)].
Definition TESTNET_CHECKPOINTS : list (Z * Hash256) := [(0, zero_hash)].
Definition get_checkpoints c : list (Z * Hash256) :=
  match bc_network c with Mainnet => MAINNET_CHECKPOINTS | Testnet => TESTNET_CHECKPOINTS end.
Definition is_checkpoint c (h : Z) : bool := existsb (λ e, e.1 =? h) (get_checkpoints c).
Definition validate_checkpoint c (h : Z) (block_hash : Hash256) : result chain_error () :=
  match List.find (λ e, e.1 =? h) (get_checkpoints c) with
  | Some (_, expected) => if bool_decide (block_hash = expected) then Ok tt else Err (CheckpointMismatch h)
  | None => Ok tt
  end.
Definition find_last_checkpoint_before c (h : Z) : option Z :=
  match filter (λ x, x ≤ h) (get_checkpoints c).*1 with [] => None | x :: l => Some (foldl Z.max x l) end.

(** ** Transaction index *)

Definition add_transaction (t : Hash256) (h : Z) (i : nat) (idx : gmap Hash256 TxLocation) : gmap Hash256 TxLocation :=
  <[t := mkTxLoc h i]> idx.
Definition get_location c (t : Hash256) : option TxLocation := tx_index c ≫= (.!! t).
Definition index_block (h : Z) (idx : gmap Hash256 TxLocation) (b : Block) : gmap Hash256 TxLocation :=
  foldl (λ idx e, add_transaction e.2 h e.1 idx) idx (imap (λ i tx, (i, txid tx)) (transactions b)).
Definition unindex_block (idx : gmap Hash256 TxLocation) (b : Block) : gmap Hash256 TxLocation :=
  foldl (λ idx tx, delete (txid tx) idx) idx (transactions b).
Definition is_tx_archived c (t : Hash256) : bool := bool_decide (is_Some (get_location c t)).
Definition get_transaction_confirmations c (t : Hash256) : option Z :=
  (λ l, add64 (sat_sub (current_height c) (tl_height l)) 1) <$> get_location c t.
(** [get_height] heights from genesis, in order. *)
Definition heights_to (h : Z) : list Z := Z.of_nat <$> seq 0 (Z.to_nat h + 1).
Definition build_tx_index c : Blockchain * result chain_error () :=
  match tx_index c with
  | None => (c, Err NoTxIndex)
  | Some _ =>
      foldl (λ (acc : Blockchain * result chain_error ()) h,
        match acc with
        | (c, Err e) => (c, Err e)
        | (c, Ok _) => match block_at c h with
                       | Some b => (set_tx_index ((λ idx, index_block h idx b) <$> tx_index c) c, Ok tt)
                       | None => (c, Err (BlockMissing h))
                       end
        end) (set_tx_index (Some ∅) c, Ok tt) (heights_to (current_height c))
  end.

(** ** Fees *)

(** The output an outpoint names, in the block the index points to. *)
Definition indexed_output c (o : OutPoint) : option Z :=
  l ← get_location c (op_txid o); b ← block_at c (tl_height l); tx ← transactions b !! tl_index l;
  if bool_decide (txid tx = op_txid o) then out_value <$> outputs tx !! Z.to_nat (vout o) else None.
Fixpoint find_output (txs : list Transaction) (o : OutPoint) : option Z :=
  match txs with
  | [] => None
  | tx :: txs =>
      if bool_decide (txid tx = op_txid o)
      then match outputs tx !! Z.to_nat (vout o) with Some out => Some (out_value out) | None => find_output txs o end
      else find_output txs o
  end.
(** [(0..height).rev().take(n)]. *)
Fixpoint search_output c (o : OutPoint) (n : nat) (h : Z) : option Z :=
  match n with
  | O => None
  | Datatypes.S n =>
      match b ← block_at c (h - 1); find_output (transactions b) o with
      | Some v => Some v
      | None => search_output c o n (h - 1)
      end
  end.
Definition input_value c (h : Z) (o : OutPoint) : option Z :=
  match indexed_output c o with
  | Some v => Some v
  | None => search_output c o (Z.to_nat (Z.min h 1000)) h
  end.
Definition compute_single_tx_fee c (tx : Transaction) (search_height : Z) : option Z :=
  ins ← mapM (λ i, input_value c search_height (previous_output i)) (inputs tx);
  let input_sum := sum64 ins in
  let output_sum := sum64 (out_value <$> outputs tx) in
  if output_sum <=? input_sum then Some (input_sum - output_sum) else None.
Definition compute_block_fees c (b : Block) : option Z :=
  sum64 <$> mapM (λ tx, compute_single_tx_fee c tx (bh_height (header b))) (drop 2 (transactions b)).

(** ** Rewards *)

Definition count_ones (x : Z) : nat := length (filter (λ i, Z.testbit x i = true) (Z.of_nat <$> seq 0 8)).
Definition bitmap_ones (bm : bytes) : nat := sum_list (count_ones <$> bm).
(** At least three distinct addresses with a payout, or one for each bit of the bitmap. *)
Definition enough_recipients (b : Block) : bool :=
  let eligible := bitmap_ones (active_masternodes_bitmap (header b)) in
  let need := if (3 <=? eligible)%nat then 3%nat else Nat.max eligible 1 in
  let paid : gset string := list_to_set (filter (λ e : string * Z, 0 < e.2) (masternode_rewards b)).*1 in
  (need <=? size paid)%nat.

Definition is_masternode_registered c (a : string) : bool := bool_decide (a ∈ mnreg_keys c).
Definition add_to_map (m : gmap string Z) (e : string * Z) : gmap string Z := <[e.1 := add64 (default 0 (m !! e.1)) e.2]> m.

Definition payout_wallet (i : MasternodeInfo) : string :=
  if str_is_empty (reward_address i) then wallet_address (masternode i) else reward_address i.
Definition reward_input c (b : Block) (wallet : string) (active : list MasternodeInfo) (fees : Z) : RewardInput :=
  mkRewardInput (bh_height (header b)) wallet active
    (match active with [] => ∅ | _ => get_reward_tracking_from_memory (registry c) end) fees (block_reward (header b))
    (list_to_set ((mn_address ∘ masternode) <$>
      filter (λ i, bool_decide (tier (masternode i) = Free) && is_masternode_registered c (mn_address (masternode i)) = true) active)).

(** A list that differs from the expected one is logged, never refused. *)
Definition validate_pool_distribution c (b : Block) (fees : Z) : result chain_error () :=
  let hd := header b in
  if str_is_empty (leader hd) || bool_decide (masternode_rewards b = []) then Ok tt
  else match List.find (λ i, String.eqb (mn_address (masternode i)) (leader hd)) (cached_all (registry c)) with
       | None => Ok tt
       | Some producer =>
           let bm := active_masternodes_bitmap hd in
           let active := match bm with [] => [] | _ => get_active_from_bitmap (registry c) bm end in
           if (length active <? bitmap_ones bm)%nat
           then if (length (cached_all (registry c)) <? length bm * 8)%nat then Ok tt else Err (UnknownMasternodes (bh_height hd))
           else
             let expected := compute (reward_input c b (payout_wallet producer) active fees) in
             if bool_decide (normalize expected = normalize (masternode_rewards b)) then Ok tt
             else if 0 <? sat_sub (bh_height hd) (current_height c) then Ok tt
             else Ok tt
       end.

(** The outputs of the distribution, summed by address, against the list of rewards. *)
Definition check_outputs (b : Block) (dist : Transaction) : result chain_error () :=
  let h := bh_height (header b) in
  let rewards := foldl add_to_map ∅ (masternode_rewards b) in
  let outs := foldl add_to_map ∅ ((λ o, (from_utf8_lossy (out_script_pubkey o), out_value o)) <$> outputs dist) in
  foldl (λ acc (e : string * Z), let? u := acc in
           match rewards !! e.1 with
           | Some v => if e.2 =? v then Ok tt else Err (OutputMismatch h)
           | None => Err (OutputUnknown h)
           end) (Ok tt) (iter outs).

Definition validate_block_rewards c (b : Block) : result chain_error () :=
  let hd := header b in
  let h := bh_height hd in
  match transactions b with
  | coinbase :: dist :: _ =>
      fail_if negb (bool_decide (inputs coinbase = [])) with NotCoinbase h in
      match outputs coinbase with
      | [out] =>
          fail_if negb (out_value out =? block_reward hd) with CoinbaseAmount h in
          match compute_block_fees c b with
          | None => Ok tt
          | Some fees =>
              let expected := sub64 (add64 BLOCK_REWARD_SATOSHIS fees) TREASURY_POOL_SATOSHIS in
              fail_if negb (block_reward hd =? expected) with WrongReward h in
              fail_if (0 <? h) && match block_at c (h - 1) with
                                  | Some prev => sat_add (treasury_balance (header prev)) TREASURY_POOL_SATOSHIS <? treasury_balance hd
                                  | None => false
                                  end with TreasuryInflated h in
              match inputs dist with
              | [i] =>
                  fail_if negb (bool_decide (op_txid (previous_output i) = txid coinbase)) with DistributionSource h in
                  fail_if (length (masternode_rewards b) <? length (outputs dist))%nat with DistributionOutputs h in
                  let? u := check_outputs b dist in
                  let total := sum64 (out_value <$> outputs dist) in
                  let lower := sat_sub (block_reward hd) (Z.of_nat (length (masternode_rewards b))) in
                  fail_if (total <? lower) || (block_reward hd <? total) with DistributionTotal h in
                  if 10 <? h then validate_pool_distribution c b fees else Ok tt
              | _ => Err (DistributionInputs h)
              end
          end
      | _ => Err (CoinbaseOutputs h)
      end
  | _ => Err (TooFewTransactions h)
  end.

(** ** Treasury and slashing *)

Definition set_treasury_balance c (amount : Z) : Blockchain := set_treasury amount (Some amount) c.
(** [fetch_add] and the set that follows it. *)
Definition treasury_deposit c (amount : Z) : Blockchain := set_treasury_balance c (add64 (bc_treasury c) amount).

Definition find_by_reward_address (r : MasternodeRegistry) (a : string) : option (string * MasternodeInfo) :=
  List.find (λ e : string * MasternodeInfo, String.eqb (reward_address e.2) a) (iter (masternodes r)).
Definition slash_producer_collateral (now : Z) c (producer : string) : Blockchain :=
  match find_by_reward_address (registry c) producer with
  | None => c
  | Some (a, i) =>
      let c := match collateral_outpoint (masternode i) with
               | Some o => set_bc_utxo (spend_utxo now (unlock_collateral (bc_utxo c) o).1 o).1 c
               | None => c
               end in
      let c := treasury_deposit c (mul64 (collateral (tier (masternode i))) SATOSHIS_PER_TIME) in
      set_registry (unregister (registry c) a).1 c
  end.

Definition is_producer_misbehaving (now : Z) c (a : string) : Blockchain * bool :=
  match reward_violations c !! a with
  | None => (c, false)
  | Some (count, last) =>
      if REWARD_VIOLATION_DECAY_SECS <? now - last then (set_violations (<[a := (0, now)]> (reward_violations c)) c, false)
      else (c, REWARD_VIOLATION_THRESHOLD <=? count)
  end.
Definition record_reward_violation (now : Z) c (a : string) : Blockchain :=
  let '(count, last) := default (0, now) (reward_violations c !! a) in
  let strikes := (if REWARD_VIOLATION_DECAY_SECS <? now - last then 0 else count) + 1 in
  let c := set_violations (<[a := (strikes, now)]> (reward_violations c)) c in
  if REWARD_VIOLATION_THRESHOLD <=? strikes then slash_producer_collateral now c a else c.

Definition validate_proposal_rewards (now : Z) c (b : Block) (record_violations : bool) : Blockchain * result chain_error () :=
  let hd := header b in
  let counted := record_violations && negb (str_is_empty (leader hd)) in
  let violation c := if counted then record_reward_violation now c (leader hd) else c in
  let '(c, bad) := if counted then is_producer_misbehaving now c (leader hd) else (c, false) in
  if bad then (c, Err (Misbehaving (leader hd)))
  else if (1 <=? bh_height hd) && negb (enough_recipients b) then (violation c, Err (TooFewRecipients (bh_height hd)))
  else
    let fees := match compute_block_fees c b with
                | Some f => f
                | None => sat_sub (sat_add (block_reward hd) TREASURY_POOL_SATOSHIS) BLOCK_REWARD_SATOSHIS
                end in
    match validate_pool_distribution c b fees with
    | Ok _ => (c, Ok tt)
    | Err e => (violation c, Err e)
    end.
End chain.
