(* ===== verification/ChainApply.v ===== *)
(** * The blockchain: adding and removing blocks (src/blockchain.rs)

    [add_block] with its checks and everything it updates, the execution of governance
    proposals, rollbacks, resets and the rebuild of the UTXO set.  One reading of the clock
    serves a call. *)

From Stdlib Require Import ZArith Lia Ascii String.
From stdpp Require Import base gmap strings list.
From S2P Require Import Prelude Types Instances Address Storage UtxoManager TransactionPool BlockVotes.
From S2P Require Import Lru BlockTypes BlockVrf BlockCache BlockLedger Governance Registry Reward Utf8 Genesis TxValidation Consensus.
From S2P Require Import Chain.

(** ** [str::trim] on UTF-8: the encodings of the characters of property White_Space *)

Definition WHITESPACE : list (list Z) :=
  ((λ x, [x]) <$> [9; 10; 11; 12; 13; 32]) ++ [[194; 133]; [194; 160]; [225; 154; 128]]
  ++ ((λ x, [226; 128; x]) <$> [128; 129; 130; 131; 132; 133; 134; 135; 136; 137; 138; 168; 169; 175])
  ++ [[226; 129; 159]; [227; 128; 128]].
Fixpoint trim_front (fuel : nat) (ws : list (list Z)) (l : list Z) : list Z :=
  match fuel with
  | O => l
  | S fuel =>
      match List.find (λ w, bool_decide (take (length w) l = w)) ws with
      | Some w => trim_front fuel ws (drop (length w) l)
      | None => l
      end
  end.
Definition trim (s : string) : string :=
  let l := trim_front (String.length s) WHITESPACE (str_bytes s) in
  ascii_string (reverse (trim_front (String.length s) (reverse <$> WHITESPACE) (reverse l))).

Section apply.
Context {S : Type} `{UtxoStorage S} `{MapIter} `{Externals} `{BlockExternals} `{!BlockCodec} `{LegacyCodec} `{Zstd} `{LruCrate}.
Context `{TxExternals} `{PoolCodec} `{VrfExternals} `{GovCodec}.
#[local] Abbreviation Blockchain := (Blockchain (S := S)).
Implicit Types c : Blockchain.

(** ** Sanitizing *)

Definition sanitize_tx (tx : Transaction) : Transaction :=
  mkTransaction (version tx)
    ((λ i, mkTxInput (previous_output i) (if 10000 <? Z.of_nat (length (script_sig i)) then [] else script_sig i) (sequence i)) <$> inputs tx)
    ((λ o, mkTxOutput (out_value o) (if 10000 <? Z.of_nat (length (out_script_pubkey o)) then [] else out_script_pubkey o)) <$> outputs tx)
    (lock_time tx) (timestamp tx) (special_data tx) (encrypted_memo tx).
Definition sanitize_block (b : Block) : Block :=
  mkBlock (header b) (sanitize_tx <$> transactions b) (masternode_rewards b) (time_attestations b)
    (consensus_participants_bitmap b) (b_liveness_recovery b).
Definition sanitized (b : Block) : result chain_error Block :=
  match block_bincode b with
  | Some _ => Ok b
  | None => match block_bincode (sanitize_block b) with
            | Some _ => Ok (sanitize_block b)
            | None => Err (Unserializable (bh_height (header b)))
            end
  end.
Definition trim_leader (b : Block) : Block :=
  let h := header b in
  mkBlock (mkHeader (bh_version h) (bh_height h) (previous_hash h) (merkle_root h) (bh_timestamp h) (block_reward h)
      (trim (leader h)) (attestation_root h) (masternode_tiers h) (vrf_proof h) (vrf_output h) (vrf_score h)
      (active_masternodes_bitmap h) (bh_liveness_recovery h) (producer_signature h) (total_fees h) (treasury_balance h))
    (transactions b) (masternode_rewards b) (time_attestations b) (consensus_participants_bitmap b) (b_liveness_recovery b).

(** ** Checks of a new block *)

Definition check_parent c (b : Block) : result chain_error () :=
  let h := bh_height (header b) in
  if 0 <? h then
    match block_at c (h - 1) with
    | Some prev => if bool_decide (previous_hash (header b) = hash prev) then Ok tt else Err (BrokenLink h)
    | None => if is_syncing c then Err (MissingParent h) else Ok tt
    end
  else Ok tt.
Definition check_height c (b : Block) : result chain_error () :=
  let h := bh_height (header b) in
  if h =? 0 then
    match block_at c 0 with
    | Some _ => Err GenesisExists
    | None =>
        fail_if negb (current_height c =? 0) with GenesisLate in
        let? u := map_err GenesisBad (verify_timestamp b (bc_network c)) in
        map_err GenesisBad (verify_checkpoint b (bc_network c))
    end
  else if h =? add64 (current_height c) 1 then Ok tt else Err (WrongHeight (add64 (current_height c) 1) h).
(** A wrong producer signature is only logged. *)
Definition check_new_block (now : Z) c (b : Block) : result chain_error () :=
  let h := bh_height (header b) in
  fail_if (0 <? h) && (bh_timestamp (header b) <? genesis_timestamp (bc_network c)) with PreGenesis h in
  fail_if (0 <? h) && bool_decide (previous_hash (header b) = zero_hash) with ZeroPreviousHash h in
  let? u := check_parent c b in
  let? u := check_height c b in
  let? u := validate_checkpoint c h (hash b) in
  let? u := (if h =? 0 then Ok tt
             else fail_if negb (enough_recipients b) with TooFewRecipients h in validate_block_rewards c b) in
  fail_if negb (h <=? add64 (current_height c) 5) && negb (h =? 0) && (bh_timestamp (header b) <? now - TIMESTAMP_TOLERANCE_SECS)
    with TooOld h in
  Ok tt.

(** ** Governance *)

(** The treasury is debited before the output is created. *)
Definition execute_treasury_spend c (recipient : string) (amount : Z) (id : Hash256) : Blockchain * result chain_error () :=
  if bc_treasury c <? amount then (c, Err TreasuryTooSmall)
  else
    let c := set_treasury_balance c (bc_treasury c - amount) in
    match add_utxo (bc_utxo c) (mkUTXO (mkOutPoint id 0) amount (str_bytes recipient) recipient None) with
    | (m, Ok _) => (set_bc_utxo m c, Ok tt)
    | (m, Err e) => (set_bc_utxo m c, Err (TreasuryUtxo e))
    end.
Definition MIN_REWARD : Z := 10 * 100000000.
Definition MAX_REWARD : Z := 10000 * 100000000.
Definition apply_emission_rate_change c (rate : Z) : Blockchain * result chain_error () :=
  if (MIN_REWARD <=? rate) && (rate <=? MAX_REWARD) then (set_emission rate c, Ok tt) else (c, Err EmissionOutOfRange).
Definition apply_fee_schedule (s : FeeSchedule) (e : ConsensusEngine S) : ConsensusEngine S :=
  mkEngine (utxo_manager e) (tx_pool e) (timevote e) (fallback e) (finality_proof_mgr e) (ai_validator e) s
    (prev_block_hash e) (identity e) (wallet_signing_key e) (broadcast_callback e) (outbox e) (finalized_signals e).
Definition execute_fee_schedule_change c (min : Z) (tiers : list (Z * Z)) : Blockchain * result chain_error () :=
  (set_engine (apply_fee_schedule (mkFeeSchedule tiers min) (engine c)) c, Ok tt).

Definition execute_proposal c (p : GovernanceProposal) : Blockchain :=
  let '(c, res) := match gp_payload p with
                   | TreasurySpend recipient amount _ => execute_treasury_spend c recipient amount (gp_id p)
                   | FeeScheduleChange min tiers => execute_fee_schedule_change c min tiers
                   | EmissionRateChange rate _ => apply_emission_rate_change c rate
                   end in
  match res with
  | Ok _ => set_governance ((λ g, mark_executed g (gp_id p)) <$> bc_governance c) c
  | Err _ => c
  end.
Definition execute_proposals c (h : Z) : Blockchain :=
  if (h =? 0) || is_syncing c then c
  else match bc_governance c with
       | None => c
       | Some g =>
           let '(g, passed) := check_and_execute_proposals g h (get_active_masternodes (registry c)) in
           foldl execute_proposal (set_governance (Some g) c) passed
       end.

(** ** Adding a block *)

Definition calculate_block_work (b : Block) : Z := BASE_WORK_PER_BLOCK.
Definition add128 (a b : Z) : Z := (a + b) mod 2 ^ 128.
Definition MAX_SCAN_FORWARD : nat := 100.
(** Heights above a gap that are stored already. *)
Fixpoint scan_forward (n : nat) c (h : Z) : Blockchain :=
  match n with
  | O => c
  | Datatypes.S n =>
      match block_at c h with
      | Some _ => scan_forward n (set_current_height h (update_chain_height c h)) (add64 h 1)
      | None => c
      end
  end.
Definition record_work c (b : Block) : Blockchain :=
  let w := add128 (cumulative_work c) (calculate_block_work b) in
  set_work (<[bh_height (header b) := mkWork (bh_height (header b)) (hash b) w]> (chain_work_db c)) w c.
Definition archive_block_txs c (b : Block) : Blockchain :=
  set_engine (set_pool (archive_confirmed_txs (tx_pool (engine c)) (txid <$> drop 2 (transactions b))) (engine c)) c.
(** Collateral checks and the sweep of stale locks, skipped during sync. *)
Definition sweep_collaterals (now : Z) c : Blockchain :=
  if is_syncing c then c
  else
    let '(m, r, _) := cleanup_invalid_collaterals now (bc_utxo c) (registry c) in
    set_bc_utxo (purge_stale_collateral_locks m).1 (set_registry r c).

(** The effects on the UTXO set, the registry and the treasury. *)
Definition apply_state (now : Z) c (b : Block) : Blockchain :=
  let h := bh_height (header b) in
  let '(m, undo) := process_block_utxos now (bc_utxo c) b in
  let c := set_bc_utxo m c in
  let c := if h =? 0 then c
           else let '(m, r, registered) := process_special_transactions now (bc_utxo c) (registry c) b in
                save_special_undo_record (set_registry r (set_bc_utxo m c)) h registered in
  let c := set_treasury_balance c (treasury_balance (header b)) in
  save_undo_log (execute_proposals c h) undo.
(** The effects on the chain, after the block has been stored. *)
Definition advance_chain (now : Z) c (b : Block) : Blockchain :=
  let h := bh_height (header b) in
  let c := update_chain_height c h in
  let c := if is_syncing c then c else scan_forward MAX_SCAN_FORWARD c (add64 h 1) in
  let c := set_current_height h (record_work c b) in
  let c := sweep_collaterals now (archive_block_txs c b) in
  let c := set_tx_index ((λ idx, index_block h idx b) <$> tx_index c) c in
  let c := set_confirmed (Z.max (confirmed_height c) h) c in
  set_registry (update_reward_counters (registry c) h (leader (header b)) (list_to_set (masternode_rewards b).*1)) c.

Definition commit_block (now : Z) c (b : Block) : Blockchain * result chain_error () :=
  let c := apply_state now c b in
  let b := trim_leader b in
  match save_block c b false with
  | (c, Err e) => (c, Err e)
  | (c, Ok _) =>
      if is_syncing c then (advance_chain now c b, Ok tt)
      else match get_block_from_storage_only c (bh_height (header b)) with
           | Err e => (c, Err e)
           | Ok stored =>
               if bool_decide (hash stored = hash b) then (advance_chain now c b, Ok tt)
               else (set_cache (cache_invalidate (block_cache c) (bh_height (header b)))
                       (set_block_db (delete (bh_height (header b)) (block_db c)) c), Err (HashChanged (bh_height (header b))))
           end
  end.
Definition add_block (now : Z) c (b : Block) : Blockchain * result chain_error () :=
  match sanitized b with
  | Err e => (c, Err e)
  | Ok b =>
      match check_new_block now c b with
      | Err e => (c, Err e)
      | Ok _ =>
          let h := bh_height (header b) in
          match block_at c h with
          | Some _ => (if current_height c <? h then set_current_height h c else c, Ok tt)
          | None => commit_block now c b
          end
      end
  end.

(** ** Rollback *)

(** The heights above [target], highest first. *)
Definition heights_down (target current : Z) : list Z :=
  reverse ((λ i, target + 1 + Z.of_nat i) <$> seq 0 (Z.to_nat (current - target))).
(** A transaction that exists only in its block: the first two, and those without inputs
    or with the input of an old coinbase. *)
Definition block_only (i : nat) (tx : Transaction) : bool :=
  (i <=? 1)%nat || bool_decide (inputs tx = [])
  || match inputs tx with inp :: _ => vout (previous_output inp) =? U32 - 1 | [] => false end.
Definition repooled (l : UndoLog) (b : Block) : list Transaction :=
  (filter (λ e : nat * Transaction, negb (block_only e.1 e.2) && negb (bool_decide (txid e.2 ∈ finalized_txs l)) = true)
     (imap pair (transactions b))).*2.
Definition undo_block (acc : Blockchain * list Transaction) (h : Z) : Blockchain * list Transaction :=
  let '(c, txs) := acc in
  match undo_db c !! h with
  | Some l =>
      let c' := delete_undo_log (set_bc_utxo (rollback_utxos (bc_utxo c) (Some l) (block_at c h)) c) h in
      (c', txs ++ match block_at c h with Some b => repooled l b | None => [] end)
  | None => (set_bc_utxo (rollback_utxos (bc_utxo c) None (block_at c h)) c, txs)
  end.
(** The fee of a transaction put back, from the index; unknown inputs count as zero. *)
Definition repool_fee c (tx : Transaction) : Z :=
  sat_sub (sum64 ((λ i, default 0 (l ← get_location c (op_txid (previous_output i)); b ← block_at c (tl_height l);
                       src ← transactions b !! tl_index l; out_value <$> outputs src !! Z.to_nat (vout (previous_output i)))) <$> inputs tx))
    (sum64 (out_value <$> outputs tx)).
Definition repool (now : Z) c (tx : Transaction) : Blockchain :=
  set_engine (set_pool (add_finalized_direct now (tx_pool (engine c)) tx (repool_fee c tx)) (engine c)) c.
Definition undo_special c (h : Z) : Blockchain :=
  match special_undo_db c !! h with
  | Some addrs => delete_special_undo_record (set_registry (foldl undo_registration (registry c) addrs) c) h
  | None => c
  end.
Definition remove_block c (h : Z) : Blockchain :=
  let c := match tx_index c, block_at c h with
           | Some idx, Some b => set_tx_index (Some (unindex_block idx b)) c
           | _, _ => c
           end in
  set_cache (cache_invalidate (block_cache c) h) (set_block_db (delete h (block_db c)) c).

Definition rollback_to_height_impl (now : Z) c (target : Z) (bypass_depth : bool) : Blockchain * result chain_error Z :=
  let current := current_height c in
  if current <=? target then (c, Ok current)
  else if match find_last_checkpoint_before c current with Some cp => target <? cp | None => false end
  then (c, Err (PastCheckpoint target))
  else if negb bypass_depth && (MAX_REORG_DEPTH <? current - target) then (c, Err RollbackTooDeep)
  else
    let hs := heights_down target current in
    let '(c, txs) := foldl undo_block (c, []) hs in
    let c := foldl (repool now) c txs in
    let c := foldl undo_special c hs in
    let c := foldl remove_block c hs in
    (set_current_height target (set_height_db (Some target) c), Ok target).
Definition rollback_to_height (now : Z) c (target : Z) := rollback_to_height_impl now c target false.

(** ** Resets *)

(** Both loops stop after height 1000 when nothing was found. *)
Fixpoint clear_from (n : nat) (h : Z) (cleared : bool) (undo : bool) (db : gmap Z bytes) (ul : gmap Z UndoLog) : gmap Z bytes * gmap Z UndoLog * bool :=
  match n with
  | O => (db, ul, cleared)
  | Datatypes.S n =>
      match db !! h with
      | Some _ => clear_from n (h + 1) true undo (delete h db) (if undo then delete h ul else ul)
      | None => if (1000 <? h) && negb cleared then (db, ul, cleared)
                else clear_from n (h + 1) cleared undo db (if undo then delete h ul else ul)
      end
  end.
Definition CLEAR_LIMIT : nat := Z.to_nat 100000.
Definition reset_utxos c : Blockchain := set_bc_utxo (clear_all (bc_utxo c)).1 c.
Definition revert_to_after_genesis c : Blockchain :=
  let '(db, ul, _) := clear_from (CLEAR_LIMIT - 1) 1 false true (block_db c) (undo_db c) in
  let c := set_undo_db ul (set_block_db db c) in
  let c := set_confirmed 0 (set_current_height 0 (set_height_db None c)) in
  set_syncing true (set_cache (cache_clear (block_cache c)) (reset_utxos c)).
(** The cache, the index and the finality lock are not reset. *)
Fixpoint clear_undo (n : nat) (h : Z) (cleared : bool) (ul : gmap Z UndoLog) : gmap Z UndoLog :=
  match n with
  | O => ul
  | Datatypes.S n =>
      match ul !! h with
      | Some _ => clear_undo n (h + 1) cleared (delete h ul)
      | None => if (1000 <? h) && negb cleared then ul else clear_undo n (h + 1) cleared ul
      end
  end.
Definition clear_all_blocks c : Blockchain :=
  let '(db, _, cleared) := clear_from CLEAR_LIMIT 0 false false (block_db c) (undo_db c) in
  let c := set_current_height 0 (set_height_db None (set_block_db db c)) in
  let c := reset_utxos c in
  set_undo_db (clear_undo CLEAR_LIMIT 0 cleared (undo_db c)) c.
Definition rollback_to_height_trusted (now : Z) c (target : Z) : Blockchain * result chain_error Z :=
  if target =? 0 then (if current_height c =? 0 then c else revert_to_after_genesis c, Ok 0)
  else rollback_to_height_impl now c target true.
Definition reset_finality_lock c (target : Z) : Blockchain * result chain_error () :=
  if confirmed_height c <=? target then (c, Err (WrongHeight (confirmed_height c) target)) else (set_confirmed target c, Ok tt).
Definition purge_wrong_chain_blocks c : Blockchain * Z :=
  match block_at c 0, block_at c 1 with
  | Some g, Some b1 =>
      if bool_decide (previous_hash (header b1) = hash g) then (c, 0) else (revert_to_after_genesis c, current_height c)
  | _, _ => (c, 0)
  end.
(** Unreadable blocks count as dated zero. *)
Definition stored_timestamp (d : bytes) : Z :=
  match decompress_block d with
  | None => 0
  | Some d => match block_decode d with
              | Some b => bh_timestamp (header b)
              | None => match deserialize_legacy_block d with Some b => bh_timestamp (header b) | None => 0 end
              end
  end.
Definition purge_pre_genesis_blocks c : Blockchain * Z :=
  let found := filter (λ e : Z * bytes, e.1 ≠ 0 ∧
      (decompress_block e.2 = None ∨ stored_timestamp e.2 < genesis_timestamp (bc_network c))) (iter (block_db c)) in
  match found with [] => (c, 0) | _ => (revert_to_after_genesis c, Z.of_nat (length found)) end.

(** ** Rebuilding the UTXO set *)

Definition reindex_step (now : Z) (acc : Blockchain * result chain_error Z) (h : Z) : Blockchain * result chain_error Z :=
  match acc with
  | (c, Err e) => (c, Err e)
  | (c, Ok n) =>
      match block_at c h with
      | None => (c, Err (BlockMissing h))
      | Some b =>
          let '(m, undo) := process_block_utxos now (bc_utxo c) b in
          (set_treasury_balance (save_undo_log (set_bc_utxo m c) undo) (treasury_balance (header b)), Ok (n + 1))
      end
  end.
Definition reindex_utxos (now : Z) c : Blockchain * result chain_error Z :=
  match clear_all (bc_utxo c) with
  | (m, Err _) => (set_bc_utxo m c, Err ReindexClear)
  | (m, Ok _) =>
      foldl (reindex_step now) (set_treasury_balance (set_bc_utxo m c) 0, Ok 0) (heights_to (current_height c))
  end.

(** ** The pool against the chain *)

Definition purge_block_only c : Blockchain * Z :=
  let from_coinbase t :=
    match get_location c t with
    | Some l => match block_at c (tl_height l) ≫= (λ b, transactions b !! tl_index l) with
                | Some tx => existsb (λ o, bool_decide (take 13 (out_script_pubkey o) = str_bytes "BLOCK_REWARD_")) (outputs tx)
                | None => false
                end
    | None => false
    end in
  let '(p, n) := purge_block_only_finalized from_coinbase (tx_pool (engine c)) in
  (set_engine (set_pool p (engine c)) c, n).
Definition evict_archived_from_pool c : Blockchain * Z :=
  match tx_index c with
  | None => (c, 0)
  | Some _ =>
      let archived := filter (λ t, is_tx_archived c t = true) ((λ e, txid e.1) <$> get_finalized_transactions_with_fees (tx_pool (engine c))) in
      (match archived with
       | [] => c
       | _ => set_engine (set_pool (archive_confirmed_txs (tx_pool (engine c)) archived) (engine c)) c
       end, Z.of_nat (length archived))
  end.

(** ** Start-up *)

(** [Blockchain::new] on what the database holds. *)
Definition blockchain_new (net : NetworkType) (db : gmap Z bytes) (undo : gmap Z UndoLog) (special : gmap Z (list string))
    (height treasury : option Z) (work : gmap Z ChainWorkEntry) (keys : gset string)
    (e : ConsensusEngine S) (r : MasternodeRegistry) : Blockchain :=
  mkChain db undo special height treasury work keys (cache_new (BLOCK_CACHE_SIZE / 10) BLOCK_CACHE_SIZE) e r (default 0 height) net false
    0 None ∅ (default 0 treasury) BLOCK_REWARD_SATOSHIS None (default 0 height).
(** The record that maps the hash of the block to its height is left out: nothing reads it. *)
Definition store_hardcoded_genesis c : Blockchain * result chain_error () :=
  let g := match bc_network c with Testnet => testnet_genesis | Mainnet => mainnet_genesis end in
  match block_bincode g with
  | None => (c, Err (Unserializable 0))
  | Some d =>
      let c := set_current_height 0 (set_height_db (Some 0) (set_block_db (<[0 := d]> (block_db c)) c)) in
      (set_treasury_balance c (treasury_balance (header g)), Ok tt)
  end.
End apply.
