(* ===== verification/ChainProofs.v ===== *)
(** * The blockchain: proofs (src/blockchain.rs)

    The chain in the database is always complete and linked, the cache and the transaction
    index agree with it; reading through the cache is reading the database; rolling back
    what was added restores the chain and the UTXO set. *)

From Stdlib Require Import ZArith Lia Ascii String.
From stdpp Require Import base gmap strings list.
From S2P Require Import Prelude Types Instances Address Storage UtxoManager UtxoProofs TransactionPool BlockVotes.
From S2P Require Import Lru BlockTypes BlockVrf BlockCache BlockLedger Governance Registry Reward Utf8 Genesis TxValidation Consensus.
From S2P Require Import Chain ChainApply.

(** The version whose encoding is the mark of a compressed block. *)
Definition ZSTD_VERSION : Z := 1146377050.
(** A serialized block starts with its version, so it is not taken for a compressed one. *)
Class BlockFormat `{BlockExternals} `{Zstd} :=
  plain_format : ∀ b d, block_bincode b = Some d → bh_version (header b) ≠ ZSTD_VERSION → decompress_block d = Some d.

Section chain_proofs.
Context {S : Type} `{UtxoStorage S} `{MapIter} `{Externals} `{BlockExternals} `{!BlockCodec} `{LegacyCodec} `{Zstd} `{LruCrate}.
Context `{TxExternals} `{PoolCodec} `{VrfExternals} `{GovCodec} `{!BlockCodecLaws} `{!BlockFormat}.
#[local] Abbreviation Blockchain := (Blockchain (S := S)).
Implicit Types c : Blockchain.

(** ** What most operations leave alone *)

Definition core c := (block_db c, block_cache c, tx_index c, current_height c, is_syncing c, bc_network c, chain_height_db c).
Lemma core_block_at c c' : core c = core c' → block_at c = block_at c'.
Proof. intros [= E1 E2 E3 E4 E5 E6 E7]. unfold block_at. by rewrite E1. Qed.
Lemma foldl_core {A} (f : Blockchain → A → Blockchain) l c : (∀ c a, core (f c a) = core c) → core (foldl f c l) = core c.
Proof. intros Hf. revert c. induction l as [|a l IH]; intros c; [done|]. cbn. by rewrite IH, Hf. Qed.

Lemma execute_proposal_core c p : core (execute_proposal c p) = core c.
Proof.
  unfold execute_proposal, execute_treasury_spend, execute_fee_schedule_change, apply_emission_rate_change.
  destruct (gp_payload p) as [recipient amount desc|min tiers|rate desc].
  - destruct (bc_treasury c <? amount); [done|]. by destruct (add_utxo _ _) as [m [|]].
  - done.
  - by destruct (_ && _).
Qed.
Lemma execute_proposals_core c h : core (execute_proposals c h) = core c.
Proof.
  unfold execute_proposals. destruct (_ || _); [done|]. destruct (bc_governance c) as [g|]; [|done].
  destruct (check_and_execute_proposals g h _) as [g' passed]. rewrite foldl_core; [done|]. apply execute_proposal_core.
Qed.
Lemma apply_state_core now c b : core (apply_state now c b) = core c.
Proof.
  unfold apply_state. destruct (process_block_utxos now (bc_utxo c) b) as [m undo].
  change (core (save_undo_log ?x undo)) with (core x). rewrite execute_proposals_core.
  change (core (set_treasury_balance ?x _)) with (core x). destruct (bh_height (header b) =? 0); [done|].
  destruct (process_special_transactions now _ _ b) as [[m' r'] [|a l]]; done.
Qed.
Lemma sweep_core now c : core (sweep_collaterals now c) = core c.
Proof. unfold sweep_collaterals. destruct (is_syncing c); [done|]. by destruct (cleanup_invalid_collaterals now _ _) as [[m r] k]. Qed.
(** Scanning forward moves the heights only. *)
Definition store c := (block_db c, block_cache c, tx_index c, is_syncing c, bc_network c).
Lemma scan_store n c h : store (scan_forward n c h) = store c.
Proof. revert c h. induction n as [|n IH]; intros c h; cbn; [done|]. destruct (block_at c h); [|done]. by rewrite IH. Qed.
Lemma advance_fields now c b :
  let c' := advance_chain now c b in
  block_db c' = block_db c ∧ block_cache c' = block_cache c ∧ current_height c' = bh_height (header b)
  ∧ tx_index c' = (λ idx, index_block (bh_height (header b)) idx b) <$> tx_index c
  ∧ is_syncing c' = is_syncing c ∧ bc_network c' = bc_network c.
Proof.
  cbv zeta. unfold advance_chain. cbv zeta.
  set (c1 := if is_syncing _ then _ else _).
  assert (store c1 = store c) as E.
  { unfold c1. destruct (is_syncing _); [done|]. by rewrite scan_store. }
  set (c2 := set_current_height _ _).
  assert (core (sweep_collaterals now (archive_block_txs c2 b)) = core c2) as E2 by (by rewrite sweep_core).
  set (c3 := sweep_collaterals now (archive_block_txs c2 b)) in *. clearbody c3.
  injection E2 as F1 F2 F3 F4 F5 F6 F7. cbn. rewrite F1, F2, F3, F4, F5, F6.
  unfold c2. cbn. by injection E as -> -> -> -> ->.
Qed.

(** ** The invariant *)

Definition reads (d : bytes) (b : Block) : Prop := decompress_block d = Some d ∧ block_decode d = Some b ∧ block_bincode b = Some d.
Record chain_inv c : Prop := mkChainInv {
  ci_readable : ∀ h d, block_db c !! h = Some d → ∃ b, reads d b ∧ bh_height (header b) = h;
  ci_complete : ∀ h, is_Some (block_db c !! h) ↔ 0 ≤ h ≤ current_height c;
  ci_height : 0 ≤ current_height c < U64;
  ci_linked : ∀ h b b', block_at c h = Some b → block_at c (h + 1) = Some b' → previous_hash (header b') = hash b;
  ci_cached : coherent (block_at c) (block_cache c);
  ci_indexed : ∀ t l, get_location c t = Some l → ∃ b tx,
    block_at c (tl_height l) = Some b ∧ transactions b !! tl_index l = Some tx ∧ txid tx = t;
}.
Lemma chain_inv_core c c' : core c' = core c → chain_inv c → chain_inv c'.
Proof.
  intros E [I1 I2 I3 I4 I5 I6]. pose proof (core_block_at _ _ E) as Eb. injection E as E1 E2 E3 E4 E5 E6 E7.
  split; [by rewrite E1|by rewrite E1, E4|by rewrite E4|by rewrite Eb|by rewrite Eb, E2|].
  intros t l. unfold get_location. rewrite E3, Eb. exact (I6 t l).
Qed.

Lemma block_at_reads c h b : chain_inv c → block_at c h = Some b → ∃ d, block_db c !! h = Some d ∧ reads d b ∧ bh_height (header b) = h.
Proof.
  intros Hi. unfold block_at. destruct (block_db c !! h) as [d|] eqn:E; [|done]. cbn.
  destruct (ci_readable c Hi h d E) as (b' & (R1 & R2 & R3) & Hh). rewrite R1. cbn. rewrite R2. intros [= <-]. eauto 6 using conj.
  exists d. by split_and!.
Qed.
Lemma block_at_stored c h : chain_inv c → is_Some (block_at c h) ↔ 0 ≤ h ≤ current_height c.
Proof.
  intros Hi. rewrite <- (ci_complete c Hi). unfold block_at. split.
  - intros [b Hb]. destruct (block_db c !! h); [by eexists|done].
  - intros [d Hd]. rewrite Hd. cbn. destruct (ci_readable c Hi h d Hd) as (b & (R1 & R2 & _) & _). rewrite R1. cbn. rewrite R2. by eexists.
Qed.

(** ** Reading *)

Lemma get_block_spec c h : chain_inv c →
  let '(c', r) := get_block c h in
  chain_inv c' ∧ (∀ h', block_at c' h' = block_at c h') ∧ current_height c' = current_height c ∧
  r = match block_at c h with Some b => Ok b | None => Err (BlockMissing h) end.
Proof.
  intros Hi. unfold get_block. destruct (cache_get_coherent _ _ h (ci_cached c Hi)) as [Hc Hr].
  destruct (cache_get (block_cache c) h) as [k [b|]]; cbn [fst snd] in *.
  - rewrite (Hr b eq_refl). split; [|done]. destruct Hi as [I1 I2 I3 I4 I5 I6]. by split.
  - cbn [set_cache block_db block_cache]. assert (chain_inv (set_cache k c)) as Hk by (destruct Hi as [I1 I2 I3 I4 I5 I6]; by split).
    destruct (block_db c !! h) as [d|] eqn:E.
    + destruct (ci_readable c Hi h d E) as (b & (R1 & R2 & R3) & Hh). rewrite R1, R2.
      assert (block_at c h = Some b) as Hb by (unfold block_at; rewrite E; cbn; rewrite R1; cbn; by rewrite R2). rewrite Hb.
      split; [|done]. destruct Hi as [I1 I2 I3 I4 I5 I6]. split; try done. cbn. by eapply cache_refill_coherent.
    + unfold block_at. rewrite E. done.
Qed.

(** ** Adding *)

Lemma index_lookup h idx b t l : index_block h idx b !! t = Some l →
  idx !! t = Some l ∨ tl_height l = h ∧ ∃ tx, transactions b !! tl_index l = Some tx ∧ txid tx = t.
Proof.
  unfold index_block.
  assert (∀ (es : list (nat * Hash256)) idx, (∀ i t, (i, t) ∈ es → ∃ tx, transactions b !! i = Some tx ∧ txid tx = t) →
    foldl (λ idx e, add_transaction e.2 h e.1 idx) idx es !! t = Some l →
    idx !! t = Some l ∨ tl_height l = h ∧ ∃ tx, transactions b !! tl_index l = Some tx ∧ txid tx = t) as Hg.
  { induction es as [|[i t'] es IH]; intros idx' He; [by left|]. cbn [foldl]. intros [Hl|Hl]%IH; [|by right|].
    - unfold add_transaction in Hl. cbn in Hl. apply lookup_insert_Some in Hl as [[-> <-]|[_ Hl]]; [|by left].
      right. split; [done|]. apply He. constructor.
    - intros i' t'' Hin. apply He. by constructor. }
  apply Hg. intros i t' Hin. apply elem_of_lookup_imap in Hin as (j & tx & [= -> ->] & Hj). eauto.
Qed.

Lemma trim_leader_fields b :
  bh_height (header (trim_leader b)) = bh_height (header b) ∧ previous_hash (header (trim_leader b)) = previous_hash (header b)
  ∧ transactions (trim_leader b) = transactions b ∧ bh_version (header (trim_leader b)) = bh_version (header b).
Proof. by split_and!. Qed.

(** What the checks establish on a complete chain. *)
Lemma checked_next now c b : chain_inv c → check_new_block now c b = Ok tt →
  bh_height (header b) = current_height c + 1 ∧ ∃ prev, block_at c (current_height c) = Some prev ∧ previous_hash (header b) = hash prev.
Proof.
  intros Hi. unfold check_new_block. cbv zeta. rewrite !fail_ok_iff, !let_ok_iff. intros (_ & _ & Hp & Hh & _).
  unfold check_height in Hh. cbv zeta in Hh.
  destruct (ci_height c Hi) as [Hn Hm].
  destruct (proj2 (block_at_stored c 0 Hi)) as [g Hg]; [lia|]. rewrite Hg in Hh.
  destruct (Z.eqb_spec (bh_height (header b)) 0) as [E|E]; [done|].
  destruct (Z.eqb_spec (bh_height (header b)) (add64 (current_height c) 1)) as [E'|]; [|done].
  assert (bh_height (header b) = current_height c + 1) as Eh.
  { rewrite E' in E |- *. unfold add64 in *. destruct (decide (current_height c + 1 = U64)) as [Ew|]; [|apply Z.mod_small; lia].
    rewrite Ew, Z.mod_same in E; done. }
  split; [done|]. unfold check_parent in Hp. cbv zeta in Hp. rewrite Eh in Hp. destruct (Z.ltb_spec 0 (current_height c + 1)); [|lia].
  replace (current_height c + 1 - 1) with (current_height c) in Hp by lia.
  destruct (proj2 (block_at_stored c (current_height c) Hi)) as [prev Hprev]; [lia|]. rewrite Hprev in Hp. exists prev. split; [done|].
  by case_bool_decide.
Qed.

(** Storing a new tip. *)
Lemma tip_inv c b d prev c' : chain_inv c → reads d b → bh_height (header b) = current_height c + 1 → current_height c + 1 < U64 →
  block_at c (current_height c) = Some prev → previous_hash (header b) = hash prev →
  block_db c' = <[bh_height (header b) := d]> (block_db c) → block_cache c' = cache_put (block_cache c) (bh_height (header b)) b →
  current_height c' = bh_height (header b) → tx_index c' = (λ idx, index_block (bh_height (header b)) idx b) <$> tx_index c →
  chain_inv c'.
Proof.
  intros Hi (R1 & R2 & R3) Hh Hw Hprev Hlink Edb Ecache Eh Eidx.
  assert (∀ h, block_at c' h = if decide (h = bh_height (header b)) then Some b else block_at c h) as Hat.
  { intros h. unfold block_at. rewrite Edb. destruct (decide (h = bh_height (header b))) as [->|].
    - rewrite lookup_insert_eq. cbn. rewrite R1. cbn. by rewrite R2.
    - by rewrite lookup_insert_ne by done. }
  assert (∀ h, current_height c < h → block_at c h = None) as Hnone.
  { intros h Hlt. destruct (block_at c h) eqn:E; [|done]. pose proof (proj1 (block_at_stored c h Hi) (mk_is_Some _ _ E)). lia. }
  pose proof (ci_height c Hi). split.
  - intros h d'. rewrite Edb. intros [[<- <-]|[_ Hd]]%lookup_insert_Some; [by exists b|]. by apply (ci_readable c Hi).
  - intros h. rewrite Edb, Eh, Hh. destruct (decide (h = bh_height (header b))) as [->|Hne].
    + rewrite Hh, lookup_insert_eq. split; [lia|by eexists].
    + rewrite lookup_insert_ne, (ci_complete c Hi) by congruence. lia.
  - lia.
  - intros h b1 b2. rewrite !Hat. destruct (decide (h = bh_height (header b))) as [->|].
    + rewrite decide_False by lia. rewrite Hnone by lia. done.
    + destruct (decide (h + 1 = bh_height (header b))); [|apply (ci_linked c Hi)].
      replace h with (current_height c) by lia. rewrite Hprev. by intros [= <-] [= <-].
  - rewrite Ecache. pose proof (cache_put_coherent _ _ (bh_height (header b)) b d R3 (ci_cached c Hi)) as [C1 C2].
    split; (eapply lru_mono_ok; [|done]); cbn; intros h x; by rewrite Hat.
  - intros t l. unfold get_location. rewrite Eidx. destruct (tx_index c) as [idx|] eqn:Ei; [|done]. cbn.
    intros [Hl|(Hl & tx & Htx & Ht)]%index_lookup; rewrite Hat.
    + destruct (ci_indexed c Hi t l) as (b0 & tx & Hb & Htx & Ht); [unfold get_location; by rewrite Ei|].
      rewrite decide_False; [eauto|]. intros El. rewrite El, Hnone in Hb by lia. done.
    + rewrite Hl, decide_True by done. eauto.
Qed.

Lemma save_block_plain c b : bh_version (header b) ≠ ZSTD_VERSION →
  match block_bincode b with
  | Some d => reads d b ∧ save_block c b false = (set_cache (cache_put (block_cache c) (bh_height (header b)) b)
      (set_block_db (<[bh_height (header b) := d]> (block_db c)) c), Ok tt)
  | None => save_block c b false = (c, Err (Unserializable (bh_height (header b))))
  end.
Proof.
  intros Hv. unfold save_block. destruct (block_bincode b) as [d|] eqn:E; [|done].
  pose proof (plain_format b d E Hv) as Hp. pose proof (block_decode_bincode b d E) as Hd. rewrite Hp, Hd. by split.
Qed.

(** The outcome of a commit: the block is the new tip, or it could not be serialized. *)
Lemma commit_block_spec now c b : bh_version (header b) ≠ ZSTD_VERSION →
  match block_bincode (trim_leader b) with
  | Some d => reads d (trim_leader b) ∧ commit_block now c b =
      (advance_chain now (set_cache (cache_put (block_cache c) (bh_height (header b)) (trim_leader b))
         (set_block_db (<[bh_height (header b) := d]> (block_db c)) (apply_state now c b))) (trim_leader b), Ok tt)
  | None => core (commit_block now c b).1 = core c ∧ (commit_block now c b).2 = Err (Unserializable (bh_height (header b)))
  end.
Proof.
  intros Hv. pose proof (save_block_plain (apply_state now c b) (trim_leader b) Hv) as Hs.
  pose proof (apply_state_core now c b) as Ec. unfold commit_block. cbv zeta.
  destruct (block_bincode (trim_leader b)) as [d|].
  - destruct Hs as [Hr ->]. split; [done|]. change (bh_height (header (trim_leader b))) with (bh_height (header b)).
    injection Ec as E1 E2 E3 E4 E5 E6 E7. rewrite E1, E2. cbn [is_syncing set_cache set_block_db]. rewrite E5.
    destruct (is_syncing c); [done|]. unfold get_block_from_storage_only. cbn [block_db set_cache set_block_db].
    rewrite lookup_insert_eq. destruct Hr as (R1 & R2 & R3). rewrite R1. cbn. rewrite R2. cbn. by rewrite bool_decide_eq_true_2.
  - rewrite Hs. cbn [fst snd]. split; [exact Ec|done].
Qed.

Lemma sanitized_version b b' : sanitized b = Ok b' → bh_version (header b') = bh_version (header b).
Proof. unfold sanitized. repeat case_match; naive_solver. Qed.

(** A block is rejected without a trace on the chain, or becomes the new tip. *)
Record new_tip c b c' : Prop := mkNewTip {
  nt_block : ∃ bt d prev, reads d bt ∧ bh_height (header bt) = bh_height (header b)
    ∧ block_at c (current_height c) = Some prev ∧ previous_hash (header bt) = hash prev
    ∧ block_db c' = <[bh_height (header b) := d]> (block_db c) ∧ block_cache c' = cache_put (block_cache c) (bh_height (header b)) bt
    ∧ tx_index c' = (λ idx, index_block (bh_height (header b)) idx bt) <$> tx_index c;
  nt_next : bh_height (header b) = current_height c + 1;
  nt_height : current_height c' = bh_height (header b);
}.
Lemma add_block_outcome now c b : bh_version (header b) ≠ ZSTD_VERSION → chain_inv c →
  let r := add_block now c b in (is_err r.2 = true ∧ core r.1 = core c) ∨ (r.2 = Ok tt ∧ new_tip c b r.1).
Proof.
  intros Hv Hi. cbv zeta. unfold add_block. destruct (sanitized b) as [b'|] eqn:Es; [|by left].
  assert (header b' = header b) as Eh by (unfold sanitized in Es; repeat case_match; naive_solver).
  destruct (check_new_block now c b') as [[]|] eqn:Ec; [|by left]. destruct (checked_next now c b' Hi Ec) as (Hn & prev & Hp & Hl).
  destruct (block_at c (bh_height (header b'))) eqn:Eb.
  { pose proof (proj1 (block_at_stored c _ Hi) (mk_is_Some _ _ Eb)). lia. }
  rewrite <- Eh in Hv. pose proof (commit_block_spec now c b' Hv) as Hc.
  destruct (block_bincode (trim_leader b')) as [d|]; [|left; destruct Hc as [Hc ->]; by split].
  destruct Hc as [Hr ->]. cbn [fst snd]. right. split; [done|]. destruct (trim_leader_fields b') as (T1 & T2 & T3 & T4).
  set (bt := trim_leader b') in *. clearbody bt. rewrite <- T1 in *. rewrite <- T2 in Hl.
  match goal with |- new_tip _ _ (advance_chain _ ?x ?y) => destruct (advance_fields now x y) as (F1 & F2 & F3 & F4 & F5 & F6); set (cn := advance_chain now x y) in *; clearbody cn end.
  pose proof (apply_state_core now c b') as E. injection E as E1 E2 E3 E4 E5 E6 E7.
  cbn [set_cache set_block_db block_db block_cache tx_index] in F1, F2, F4. rewrite E3 in F4. rewrite Eh in *.
  split; rewrite <- ?T1; [|done..]. exists bt, d, prev. by split_and!.
Qed.
Lemma add_block_inv now c b : bh_version (header b) ≠ ZSTD_VERSION → bh_height (header b) < U64 → chain_inv c → chain_inv (add_block now c b).1.
Proof.
  intros Hv Hb Hi. destruct (add_block_outcome now c b Hv Hi) as [[_ Ec]|[_ [(bt & d & prev & Hr & Hh & Hp & Hl & F1 & F2 & F4) Hn F3]]];
    [by eapply chain_inv_core|]. rewrite <- Hh in *.
  apply (tip_inv c bt d prev _ Hi Hr Hn ltac:(lia) Hp Hl F1 F2 F3 F4).
Qed.

(** ** Removing *)

Lemma heights_down_cons t n : t < n → heights_down t n = n :: heights_down t (n - 1).
Proof.
  intros Hlt. unfold heights_down. replace (Z.to_nat (n - t)) with (Datatypes.S (Z.to_nat (n - 1 - t))) by lia.
  rewrite seq_S, fmap_app, reverse_app. cbn. f_equal. lia.
Qed.
Lemma heights_down_nil t n : n ≤ t → heights_down t n = [].
Proof. intros Hle. unfold heights_down. by replace (Z.to_nat (n - t)) with 0%nat by lia. Qed.

Lemma undo_block_core acc h : core (undo_block acc h).1 = core acc.1.
Proof. destruct acc as [c txs]. unfold undo_block. by destruct (undo_db c !! h). Qed.
Lemma undo_blocks_core hs acc : core (foldl undo_block acc hs).1 = core acc.1.
Proof. revert acc. induction hs as [|h hs IH]; intros acc; [done|]. cbn. by rewrite IH, undo_block_core. Qed.
Lemma undo_special_core c h : core (undo_special c h) = core c.
Proof. unfold undo_special. by destruct (special_undo_db c !! h). Qed.

Lemma unindex_lookup idx b t l : unindex_block idx b !! t = Some l → idx !! t = Some l ∧ t ∉ txid <$> transactions b.
Proof.
  unfold unindex_block. revert idx. induction (transactions b) as [|tx txs IH]; intros idx; cbn; [intros ?; split; [done|apply not_elem_of_nil]|].
  intros [Hd Hn]%IH. apply lookup_delete_Some in Hd as [Hne Hd]. split; [done|]. apply not_elem_of_cons. by split.
Qed.
Lemma remove_block_inv c n : 0 < n < U64 → chain_inv (set_current_height n c) → chain_inv (set_current_height (n - 1) (remove_block c n)).
Proof.
  intros Hn [I1 I2 I3 I4 I5 I6]. cbn [set_current_height block_db current_height block_cache] in *.
  change (block_at (set_current_height n c)) with (block_at c) in *. change (get_location (set_current_height n c)) with (get_location c) in *.
  unfold remove_block. set (c1 := match tx_index c, block_at c n with Some _, Some _ => _ | _, _ => c end).
  assert (block_db c1 = block_db c ∧ block_cache c1 = block_cache c) as [Edb Eca] by (unfold c1; by repeat case_match).
  assert (∀ t l, get_location c1 t = Some l → get_location c t = Some l ∧ ∀ b, block_at c n = Some b → t ∉ txid <$> transactions b) as Hidx.
  { intros t l. unfold c1, get_location. destruct (tx_index c) as [idx|] eqn:Ei; [|rewrite Ei; done].
    destruct (block_at c n) as [b|]; cbn; [intros [? ?]%unindex_lookup; split; [done|]; by intros b' [= <-]|]. rewrite Ei. done. }
  clearbody c1. set (c2 := set_current_height _ _).
  assert (block_db c2 = delete n (block_db c)) as Edb2 by (unfold c2; cbn; by rewrite Edb).
  assert (∀ h, block_at c2 h = if decide (h = n) then None else block_at c h) as Hat.
  { intros h. unfold block_at. rewrite Edb2. destruct (decide (h = n)) as [->|]; [by rewrite lookup_delete_eq|by rewrite lookup_delete_ne]. }
  split.
  - intros h d. rewrite Edb2. intros [_ Hd]%lookup_delete_Some. by apply I1.
  - intros h. rewrite Edb2. change (current_height c2) with (n - 1). destruct (decide (h = n)) as [->|].
    + rewrite lookup_delete_eq. split; [by intros [? ?]|lia].
    + rewrite lookup_delete_ne, I2 by done. lia.
  - change (current_height c2) with (n - 1). lia.
  - intros h b b'. rewrite !Hat. destruct (decide (h = n)); [done|]. destruct (decide (h + 1 = n)); [done|apply I4].
  - change (block_cache c2) with (cache_invalidate (block_cache c1) n). rewrite Eca. eapply cache_invalidate_coherent; [|exact I5].
    intros h Hne. rewrite Hat. by rewrite decide_False.
  - intros t l Hl. change (get_location c2 t) with (get_location c1 t) in Hl. destruct (Hidx t l Hl) as [Hl' Hno].
    destruct (I6 t l Hl') as (b & tx & Hb & Htx & Ht). rewrite Hat. destruct (decide (tl_height l = n)) as [E|]; [|eauto].
    rewrite E in Hb. destruct (Hno b Hb). rewrite <- Ht. apply list_elem_of_fmap. exists tx. split; [done|]. by eapply list_elem_of_lookup_2.
Qed.
Lemma remove_blocks_inv t n c : 0 ≤ t → n < U64 → t ≤ n → chain_inv (set_current_height n c) →
  chain_inv (set_current_height t (foldl remove_block c (heights_down t n))).
Proof.
  intros Ht Hn Hle. assert (∃ k : nat, n = t + Z.of_nat k) as [k ->] by (exists (Z.to_nat (n - t)); lia). clear Hle.
  revert c Hn. induction k as [|k IH]; intros c Hn Hi.
  - rewrite heights_down_nil by lia. cbn. by replace (t + Z.of_nat 0) with t in Hi by lia.
  - rewrite heights_down_cons by lia. cbn [foldl]. replace (t + Z.of_nat (Datatypes.S k) - 1) with (t + Z.of_nat k) by lia.
    apply IH; [lia|]. replace (t + Z.of_nat k) with (t + Z.of_nat (Datatypes.S k) - 1) by lia. apply remove_block_inv; [lia|done].
Qed.

Lemma rollback_inv now c t bypass : 0 ≤ t → chain_inv c → chain_inv (rollback_to_height_impl now c t bypass).1.
Proof.
  intros Ht Hi. unfold rollback_to_height_impl. destruct (Z.leb_spec (current_height c) t); [done|].
  destruct (match find_last_checkpoint_before c _ with Some _ => _ | None => _ end); [done|]. destruct (_ && _); [done|]. cbv zeta.
  pose proof (undo_blocks_core (heights_down t (current_height c)) (c, [])) as E. destruct (foldl undo_block _ _) as [c1 txs]. cbn [fst] in *.
  set (c2 := foldl (repool now) c1 txs). assert (core c2 = core c) as E2 by (unfold c2; rewrite foldl_core; done).
  set (c3 := foldl undo_special c2 _). assert (core c3 = core c) as E3 by (unfold c3; rewrite foldl_core; [done|apply undo_special_core]).
  clearbody c3. pose proof (ci_height c Hi).
  assert (chain_inv (set_current_height (current_height c) c3)) as Hi3.
  { eapply chain_inv_core; [|exact Hi]. injection E3 as F1 F2 F3 F4 F5 F6 F7. unfold core. cbn. by rewrite F1, F2, F3, F5, F6, F7. }
  pose proof (remove_blocks_inv t (current_height c) c3 Ht ltac:(lia) ltac:(lia) Hi3) as Hr.
  destruct Hr as [J1 J2 J3 J4 J5 J6]. by split.
Qed.

(** ** Histories *)

Inductive chain_op :=
| KAdd (now : Z) (b : Block) | KRollback (now t : Z) (bypass : bool) | KGet (h : Z) | KBuildIndex | KReindex (now : Z)
| KProposal (now : Z) (b : Block) (record : bool) | KViolation (now : Z) (a : string) | KDeposit (amount : Z)
| KPurgeBlockOnly | KEvictArchived | KResetLock (t : Z).
Definition chain_exec c (p : chain_op) : Blockchain :=
  match p with
  | KAdd now b => (add_block now c b).1
  | KRollback now t bypass => (rollback_to_height_impl now c t bypass).1
  | KGet h => (get_block c h).1
  | KBuildIndex => (build_tx_index c).1
  | KReindex now => (reindex_utxos now c).1
  | KProposal now b record => (validate_proposal_rewards now c b record).1
  | KViolation now a => record_reward_violation now c a
  | KDeposit amount => treasury_deposit c amount
  | KPurgeBlockOnly => (purge_block_only c).1
  | KEvictArchived => (evict_archived_from_pool c).1
  | KResetLock t => (reset_finality_lock c t).1
  end.
(** Heights fit their width, and no block carries the version that reads as a mark. *)
Definition plain_op (p : chain_op) : Prop :=
  match p with
  | KAdd _ b => bh_version (header b) ≠ ZSTD_VERSION ∧ bh_height (header b) < U64
  | KRollback _ t _ => 0 ≤ t
  | _ => True
  end.

Lemma build_index_inv c : chain_inv c → chain_inv (build_tx_index c).1.
Proof.
  intros Hi. unfold build_tx_index. destruct (tx_index c) as [idx|]; [|done].
  set (step := λ (acc : Blockchain * result chain_error ()) h, _).
  assert (∀ hs acc, chain_inv acc.1 → chain_inv (foldl step acc hs).1) as Hg.
  { induction hs as [|h hs IH]; intros acc Ha; [done|]. cbn [foldl]. apply IH. destruct acc as [c0 [u|e]]; [|done]. cbn.
    destruct (block_at c0 h) as [b|] eqn:Eb; [|done]. cbn in *. destruct Ha as [I1 I2 I3 I4 I5 I6]. split; try done.
    intros t l. unfold get_location. cbn. destruct (tx_index c0) as [idx0|] eqn:Ei; [|done]. cbn.
    intros [Hl|(Hl & tx & Htx & Ht)]%index_lookup; [apply (I6 t l); unfold get_location; by rewrite Ei|].
    exists b, tx. rewrite Hl. done. }
  apply Hg. destruct Hi as [I1 I2 I3 I4 I5 I6]. by split.
Qed.
Lemma reindex_core now c : core (reindex_utxos now c).1 = core c.
Proof.
  unfold reindex_utxos. destruct (clear_all (bc_utxo c)) as [m [u|e]]; [|done].
  assert (∀ hs acc, core (foldl (reindex_step now) acc hs).1 = core acc.1) as Hg; [|by rewrite Hg].
  induction hs as [|h hs IH]; intros acc; [done|]. cbn. rewrite IH. destruct acc as [c0 [n|e]]; [|done]. cbn.
  destruct (block_at c0 h) as [b|]; [|done]. by destruct (process_block_utxos now (bc_utxo c0) b) as [m' undo].
Qed.
Lemma slash_core now c a : core (slash_producer_collateral now c a) = core c.
Proof. unfold slash_producer_collateral. destruct (find_by_reward_address _ _) as [[a' i]|]; [|done]. by destruct (collateral_outpoint (masternode i)). Qed.
Lemma violation_core now c a : core (record_reward_violation now c a) = core c.
Proof.
  unfold record_reward_violation. destruct (default _ _) as [count last]. destruct (_ <=? _); [by rewrite slash_core|done].
Qed.
Lemma proposal_core now c b rec : core (validate_proposal_rewards now c b rec).1 = core c.
Proof.
  unfold validate_proposal_rewards. set (p := if _ : bool then is_producer_misbehaving _ _ _ else _).
  assert (core p.1 = core c) as Ep.
  { unfold p. destruct (rec && _); [|done]. unfold is_producer_misbehaving. destruct (_ !! _) as [[count last]|]; [|done]. by destruct (_ <? _). }
  destruct p as [c1 bad]. cbn [fst] in Ep. destruct bad; [done|].
  assert (core (if rec && negb (str_is_empty (leader (header b))) then record_reward_violation now c1 (leader (header b)) else c1) = core c) as Ev.
  { destruct (rec && _); [by rewrite violation_core|done]. }
  destruct ((1 <=? _) && _); [exact Ev|]. by destruct (validate_pool_distribution c1 b _).
Qed.

Lemma exec_chain_inv c p : plain_op p → chain_inv c → chain_inv (chain_exec c p).
Proof.
  intros Hp Hi. destruct p as [now b|now t bypass|h| |now|now b rec|now a|amount| | |t]; cbn [chain_exec].
  - destruct Hp. by apply add_block_inv.
  - by apply rollback_inv.
  - pose proof (get_block_spec c h Hi) as Hg. destruct (get_block c h). by destruct Hg.
  - by apply build_index_inv.
  - eapply chain_inv_core; [apply reindex_core|done].
  - eapply chain_inv_core; [apply proposal_core|done].
  - eapply chain_inv_core; [apply violation_core|done].
  - by apply (chain_inv_core c).
  - eapply chain_inv_core; [|done]. unfold purge_block_only. by destruct (purge_block_only_finalized _ _).
  - eapply chain_inv_core; [|done]. unfold evict_archived_from_pool. destruct (tx_index c); [|done]. by destruct (filter _ _).
  - eapply chain_inv_core; [|done]. unfold reset_finality_lock. by destruct (_ <=? _).
Qed.
Lemma run_chain_inv c ps : Forall plain_op ps → chain_inv c → chain_inv (foldl chain_exec c ps).
Proof. revert c. induction ps as [|p ps IH]; intros c Hp Hi; [done|]. apply Forall_cons in Hp as [H' Hp]. cbn. by apply IH, exec_chain_inv. Qed.

Lemma genesis_inv net e r treasury work keys :
  let c := store_hardcoded_genesis (blockchain_new net ∅ ∅ ∅ None treasury work keys e r) in
  c.2 = Ok tt → chain_inv c.1.
Proof.
  cbv zeta. unfold store_hardcoded_genesis. cbn [bc_network blockchain_new].
  set (g := match net with Testnet => testnet_genesis | Mainnet => mainnet_genesis end).
  assert (bh_height (header g) = 0 ∧ bh_version (header g) ≠ ZSTD_VERSION) as [Hh Hv] by (by destruct net).
  clearbody g. destruct (block_bincode g) as [d|] eqn:Ed; [|done]. intros _. cbn [fst].
  assert (reads d g) as (R1 & R2 & R3) by (split_and!; [by apply (plain_format g)|by apply block_decode_bincode|done]).
  set (c := set_treasury_balance _ _). assert (block_db c = {[0 := d]}) as Edb by done.
  split.
  - intros h d'. rewrite Edb. intros [<- <-]%lookup_singleton_Some. exists g. by split_and!.
  - intros h. rewrite Edb. change (current_height c) with 0. split.
    + intros [d' [<- _]%lookup_singleton_Some]. lia.
    + intros Hr. replace h with 0 by lia. rewrite lookup_singleton_eq. by eexists.
  - change (current_height c) with 0. unfold U64. lia.
  - intros h b b'. unfold block_at. rewrite Edb. destruct (decide (h = 0)) as [->|]; [|by rewrite lookup_singleton_ne].
    rewrite (lookup_singleton_ne 0 (0 + 1)) by lia. by destruct ({[0 := d]} !! 0 ≫= _).
  - change (block_cache c) with (cache_new (BLOCK_CACHE_SIZE / 10) BLOCK_CACHE_SIZE). apply cache_new_coherent.
  - intros t l. done.
Qed.

(** The index is attached empty, or not at all. *)
Lemma attach_index_inv c idx : idx = None ∨ idx = Some ∅ → chain_inv c → chain_inv (set_tx_index idx c).
Proof.
  intros Hx [I1 I2 I3 I4 I5 I6]. split; try done. intros t l. unfold get_location. cbn [tx_index set_tx_index].
  destruct Hx as [->| ->]; cbn; [done|]. by rewrite lookup_empty.
Qed.

(** After any sequence of added blocks (accepted or refused), rollbacks, reads, index
    rebuilds, reindexing, reward checks and slashing, from a node started on its genesis
    block, with or without a transaction index, of blocks whose version does not spell the
    mark of compressed data: the database holds exactly the blocks up to the current height,
    each under its own height and linked to the one before, the transaction index points to
    the transactions it names, and reading through the cache returns what the database
    holds. *)
Theorem chain_complete_linked net e r treasury work keys idx ps :
  let boot := store_hardcoded_genesis (blockchain_new net ∅ ∅ ∅ None treasury work keys e r) in
  boot.2 = Ok tt → idx = None ∨ idx = Some ∅ → Forall plain_op ps →
  let c := foldl chain_exec (set_tx_index idx boot.1) ps in
  (∀ h, is_Some (block_at c h) ↔ 0 ≤ h ≤ current_height c)
  ∧ (∀ h b, block_at c h = Some b → bh_height (header b) = h)
  ∧ (∀ h b b', block_at c h = Some b → block_at c (h + 1) = Some b' → previous_hash (header b') = hash b)
  ∧ (∀ t l, get_location c t = Some l → ∃ b tx, block_at c (tl_height l) = Some b ∧ transactions b !! tl_index l = Some tx ∧ txid tx = t)
  ∧ ∀ h, (get_block c h).2 = match block_at c h with Some b => Ok b | None => Err (BlockMissing h) end.
Proof.
  cbv zeta. intros Hb Hx Hp. pose proof (run_chain_inv _ ps Hp (attach_index_inv _ idx Hx (genesis_inv net e r treasury work keys Hb))) as Hi.
  set (c := foldl chain_exec _ ps) in *. clearbody c. split; [intros h; by apply block_at_stored|].
  split; [intros h b Hat; by destruct (block_at_reads c h b Hi Hat) as (d & _ & _ & ?)|].
  split; [apply (ci_linked c Hi)|]. split; [apply (ci_indexed c Hi)|].
  intros h. pose proof (get_block_spec c h Hi) as Hg. destruct (get_block c h). by destruct Hg as (_ & _ & _ & ->).
Qed.
End chain_proofs.
