(* ===== verification/ChainLedger.v ===== *)
(** * The blockchain and the UTXO set: proofs (src/blockchain.rs)

    Rolling back blocks added during sync restores the chain and the UTXO set; an accepted
    block whose fees can be computed adds at most the subsidy to the value of the UTXO set;
    where that fails. *)

From Stdlib Require Import ZArith Lia Ascii String.
From stdpp Require Import base gmap strings list.
From S2P Require Import Prelude Types Instances Address Storage UtxoManager UtxoProofs TransactionPool BlockVotes.
From S2P Require Import Lru BlockTypes BlockVrf BlockCache BlockLedger Governance Registry Reward Utf8 Genesis TxValidation Consensus.
From S2P Require Import Chain ChainApply ChainProofs.

Section chain_ledger.
Context {S : Type} `{UtxoStorageLaws S} `{!StorageReliable S} `{MapIter} `{Externals} `{BlockExternals} `{!BlockCodec} `{LegacyCodec} `{Zstd} `{LruCrate}.
Context `{TxExternals} `{PoolCodec} `{VrfExternals} `{GovCodec} `{!BlockCodecLaws} `{!BlockFormat}.
#[local] Abbreviation Blockchain := (Blockchain (S := S)).
Implicit Types (c : Blockchain) (m : UTXOStateManager S).

(** ** Special transactions and the ledger *)

Lemma content_unlock m o : content (unlock_collateral m o).1 = content m.
Proof. unfold unlock_collateral. by destruct (locked_collaterals m !! o). Qed.
Lemma dereg_content m r node slot pk sg : inv m →
  inv (apply_masternode_deregistration m r node slot pk sg).1.1 ∧ content (apply_masternode_deregistration m r node slot pk sg).1.1 = content m.
Proof.
  intros Hi. unfold apply_masternode_deregistration. repeat (case_match; try done). cbn. split; [by apply inv_unlock_collateral|apply content_unlock].
Qed.
Lemma special_content now m r b : inv m →
  inv (process_special_transactions now m r b).1.1 ∧ content (process_special_transactions now m r b).1.1 = content m.
Proof.
  intros Hi. unfold process_special_transactions. cbn [fst].
  assert (∀ txs a, inv (sp_utxo a) → inv (sp_utxo (foldl (process_special_tx now (bh_height (header b))) a txs))
    ∧ content (sp_utxo (foldl (process_special_tx now (bh_height (header b))) a txs)) = content (sp_utxo a)) as Hg; [|by apply Hg].
  induction txs as [|tx txs IH]; intros a Ha; [done|]. cbn [foldl].
  assert (inv (sp_utxo (process_special_tx now (bh_height (header b)) a tx))
    ∧ content (sp_utxo (process_special_tx now (bh_height (header b)) a tx)) = content (sp_utxo a)) as [Hi1 E1].
  { destruct a as [m0 r0 undo slots ips]. unfold process_special_tx.
    destruct (special_data tx) as [[node wallet reward coll pk sg|node slot pk sg|node reward pk sg]|]; [..|done].
    - destruct (_ && _); [done|]. by destruct (apply_masternode_registration _ _ _ _ _ _ _ _ _ _ _) as [r1 [|]].
    - destruct (bool_decide _); [done|]. pose proof (dereg_content m0 r0 node slot pk sg Ha) as Hd.
      by destruct (apply_masternode_deregistration m0 r0 node slot pk sg) as [[m1 r1] res].
    - done. }
  destruct (IH _ Hi1) as [Hi2 E2]. split; [done|]. by rewrite E2.
Qed.

Lemma undo_height now m b : ul_height (process_block_utxos now m b).2 = bh_height (header b).
Proof.
  unfold process_block_utxos. cbv zeta. set (m1 := if _ : bool then _ else _). clearbody m1.
  set (l0 := undo_new now _ _). assert (bh_height (header b) = ul_height l0) as -> by done.
  generalize (ul_height l0) at 1. clearbody l0. intros height.
  assert (∀ ins m l, ul_height (foldl (spend_input now) (m, l) ins).2 = ul_height l) as Hs.
  { induction ins as [|i ins IH]; intros m' l; [done|]. cbn [foldl spend_input]. rewrite IH. by destruct (get_utxo m' (previous_output i)). }
  revert m1 l0. induction (transactions b) as [|tx txs IH]; intros m1 l0; [done|]. cbn [foldl]. unfold process_tx at 2.
  specialize (Hs (inputs tx) m1 l0). destruct (foldl (spend_input now) (m1, l0) (inputs tx)) as [m2 l2]. rewrite IH. exact Hs.
Qed.

(** ** Adding a block during sync *)

Record added now c b c' : Prop := mkAdded {
  ad_sync : is_syncing c' = true;
  ad_inv : inv (bc_utxo c');
  ad_content : content (bc_utxo c') = content (process_block_utxos now (bc_utxo c) b).1;
  ad_height : current_height c' = current_height c + 1;
  ad_undo : undo_db c' = <[current_height c + 1 := (process_block_utxos now (bc_utxo c) b).2]> (undo_db c);
  ad_block : ∃ b', transactions b' = transactions b ∧ ∀ h, block_at c' h = if decide (h = current_height c + 1) then Some b' else block_at c h;
  ad_next : bh_height (header b) = current_height c + 1;
}.

Lemma apply_state_sync now c b : is_syncing c = true → inv (bc_utxo c) → bh_height (header b) ≠ 0 →
  let c' := apply_state now c b in
  inv (bc_utxo c') ∧ content (bc_utxo c') = content (process_block_utxos now (bc_utxo c) b).1
  ∧ undo_db c' = <[bh_height (header b) := (process_block_utxos now (bc_utxo c) b).2]> (undo_db c).
Proof.
  intros Hs Hi Hh. cbv zeta. unfold apply_state. pose proof (undo_height now (bc_utxo c) b) as Eu.
  destruct (process_block_lrun now (bc_utxo c) b Hi) as [Hi1 _].
  destruct (process_block_utxos now (bc_utxo c) b) as [m undo]. cbn [fst snd] in *. rewrite (proj2 (Z.eqb_neq _ _)) by done.
  change (bc_utxo (set_bc_utxo m c)) with m. destruct (special_content now m (registry (set_bc_utxo m c)) b Hi1) as [Hi2 E2].
  destruct (process_special_transactions now m _ b) as [[m' r'] reg]. cbn [fst snd] in *.
  assert (∀ x, is_syncing x = true → execute_proposals x (bh_height (header b)) = x) as Hx.
  { intros x Ex. unfold execute_proposals. by rewrite Ex, orb_true_r. }
  rewrite Hx by (by destruct reg). unfold save_undo_log. rewrite Eu. by destruct reg.
Qed.
Lemma advance_sync now c b : is_syncing c = true →
  bc_utxo (advance_chain now c b) = bc_utxo c ∧ undo_db (advance_chain now c b) = undo_db c.
Proof. intros Hs. unfold advance_chain. cbn [is_syncing update_chain_height set_current_height set_height_db]. rewrite Hs. unfold sweep_collaterals. cbn. by rewrite Hs. Qed.

Lemma add_block_sync now c b c' : chain_inv c → inv (bc_utxo c) → is_syncing c = true →
  is_Some (block_bincode b) → bh_version (header b) ≠ ZSTD_VERSION → add_block now c b = (c', Ok tt) → added now c b c'.
Proof.
  intros Hci Hi Hs [d0 Hd0] Hv. unfold add_block, sanitized. rewrite Hd0.
  destruct (check_new_block now c b) as [[]|] eqn:Ec; [|done]. destruct (checked_next now c b Hci Ec) as (Hn & prev & Hp & Hl).
  destruct (block_at c (bh_height (header b))) eqn:Eb.
  { pose proof (proj1 (block_at_stored c _ Hci) (mk_is_Some _ _ Eb)). lia. }
  pose proof (commit_block_spec now c b Hv) as Hc. destruct (trim_leader_fields b) as (T1 & T2 & T3 & T4).
  destruct (block_bincode (trim_leader b)) as [d|]; [|intros E; destruct Hc as [_ Hc]; by rewrite E in Hc].
  destruct Hc as [(R1 & R2 & R3) ->]. set (bt := trim_leader b) in *. clearbody bt. intros [= <-].
  pose proof (ci_height c Hci).
  destruct (apply_state_sync now c b Hs Hi ltac:(lia)) as (A1 & A2 & A3).
  pose proof (apply_state_core now c b) as E. injection E as E1 E2 E3 E4 E5 E6 E7.
  set (c1 := apply_state now c b) in *. clearbody c1. rewrite Hs in E5.
  set (c2 := set_cache _ _). assert (is_syncing c2 = true ∧ bc_utxo c2 = bc_utxo c1 ∧ undo_db c2 = undo_db c1
    ∧ block_db c2 = <[bh_height (header b) := d]> (block_db c)) as (G1 & G2 & G3 & G4) by done. clearbody c2.
  destruct (advance_sync now c2 bt G1) as [V1 V2]. destruct (advance_fields now c2 bt) as (F1 & F2 & F3 & F4 & F5 & F6).
  set (c3 := advance_chain now c2 bt) in *. clearbody c3. split.
  - congruence.
  - congruence.
  - congruence.
  - congruence.
  - rewrite V2, G3, A3. by rewrite Hn.
  - exists bt. split; [done|]. intros h. unfold block_at. rewrite F1, G4, Hn. destruct (decide (h = current_height c + 1)) as [->|].
    + rewrite lookup_insert_eq. cbn. rewrite R1. cbn. by rewrite R2.
    + by rewrite lookup_insert_ne.
  - done.
Qed.

(** ** Blocks in sequence *)

Fixpoint add_blocks c (bs : list (Z * Block)) : Blockchain * result chain_error () :=
  match bs with
  | [] => (c, Ok tt)
  | (now, b) :: bs => match add_block now c b with (c, Ok _) => add_blocks c bs | (c, Err e) => (c, Err e) end
  end.
(** Each block spends outputs that are stored and creates outputs that are new. *)
Fixpoint ledger_fits (L : ledger) (bs : list (Z * Block)) : Prop :=
  match bs with
  | [] => True
  | (now, b) :: bs => fits now L (block_ops b) ∧ ledger_fits (lrun now (L, []) (block_ops b)).1 bs
  end.
Definition plain_block (nb : Z * Block) : Prop :=
  is_Some (block_bincode nb.2) ∧ bh_version (header nb.2) ≠ ZSTD_VERSION ∧ bh_height (header nb.2) < U64.

Lemma add_blocks_spec bs c c' : chain_inv c → inv (bc_utxo c) → is_syncing c = true → Forall plain_block bs →
  add_blocks c bs = (c', Ok tt) →
  chain_inv c' ∧ inv (bc_utxo c') ∧ current_height c' = current_height c + Z.of_nat (length bs)
  ∧ (∀ h, h ≤ current_height c → undo_db c' !! h = undo_db c !! h ∧ block_at c' h = block_at c h).
Proof.
  revert c. induction bs as [|[now b] bs IH]; intros c Hci Hi Hs Hp; cbn [add_blocks].
  - intros [= <-]. split_and!; [done..|cbn; lia|done].
  - apply Forall_cons in Hp as [(Hp1 & Hp2 & Hp3) Hp]. cbn [fst snd] in *.
    destruct (add_block now c b) as [c1 [[]|]] eqn:Ea; [|done]. intros Hr.
    pose proof (add_block_sync now c b c1 Hci Hi Hs Hp1 Hp2 Ea) as [A1 A2 A3 A4 A5 (b' & Hb' & A6) A7].
    pose proof (add_block_inv now c b Hp2 Hp3 Hci) as Hci1. rewrite Ea in Hci1.
    destruct (IH c1 Hci1 A2 A1 Hp Hr) as (I1 & I2 & I3 & I4). split_and!; [done..|rewrite I3, A4; cbn; lia|].
    intros h Hle. destruct (I4 h ltac:(lia)) as [U1 U2]. rewrite U1, U2, A5, A6, lookup_insert_ne, decide_False by lia. done.
Qed.

(** ** Undoing them *)

Lemma heights_down_snoc t n : t < n → heights_down t n = heights_down (t + 1) n ++ [t + 1].
Proof.
  intros Hlt. unfold heights_down. replace (Z.to_nat (n - t)) with (Datatypes.S (Z.to_nat (n - (t + 1)))) by lia.
  cbn [seq fmap list_fmap]. rewrite reverse_cons. rewrite <- fmap_S_seq, <- list_fmap_compose. f_equal; [f_equal|f_equal; lia].
  apply list_fmap_ext. intros i x _. cbn. lia.
Qed.
Lemma undo_block_other acc h h' : h ≠ h' → undo_db (undo_block acc h).1 !! h' = undo_db acc.1 !! h'.
Proof.
  intros Hne. destruct acc as [c txs]. unfold undo_block. destruct (undo_db c !! h) eqn:E; [|done]. cbn. by apply lookup_delete_ne.
Qed.
Lemma undo_blocks_other hs acc h : h ∉ hs → undo_db (foldl undo_block acc hs).1 !! h = undo_db acc.1 !! h.
Proof.
  revert acc. induction hs as [|h' hs IH]; intros acc Hn; [done|]. apply not_elem_of_cons in Hn as [Hne Hn]. cbn.
  rewrite IH by done. by apply undo_block_other.
Qed.
Lemma heights_down_elem t n h : h ∈ heights_down t n ↔ t < h ≤ n.
Proof.
  unfold heights_down. rewrite elem_of_reverse, list_elem_of_fmap. split.
  - intros (i & -> & [_ Hi]%elem_of_seq). lia.
  - intros Hh. exists (Z.to_nat (h - t - 1)). split; [lia|]. apply elem_of_seq. lia.
Qed.

Lemma undo_added bs c c' : chain_inv c → inv (bc_utxo c) → is_syncing c = true → Forall plain_block bs →
  add_blocks c bs = (c', Ok tt) → ledger_fits (content (bc_utxo c)) bs →
  ∀ d txs, inv (bc_utxo d) → content (bc_utxo d) = content (bc_utxo c') →
  (∀ h, current_height c < h → undo_db d !! h = undo_db c' !! h ∧ block_at d h = block_at c' h) →
  let d' := (foldl undo_block (d, txs) (heights_down (current_height c) (current_height c'))).1 in
  inv (bc_utxo d') ∧ content (bc_utxo d') = content (bc_utxo c).
Proof.
  revert c. induction bs as [|[now b] bs IH]; intros c Hci Hi Hs Hp; cbn [add_blocks].
  - intros [= <-] _ d txs Hd Hc _. cbv zeta. by rewrite heights_down_nil.
  - apply Forall_cons in Hp as [(Hp1 & Hp2 & Hp3) Hp]. cbn [fst snd] in *.
    destruct (add_block now c b) as [c1 [[]|]] eqn:Ea; [|done]. intros Hr [Hf Hfs] d txs Hd Hc Hdb.
    pose proof (add_block_sync now c b c1 Hci Hi Hs Hp1 Hp2 Ea) as [A1 A2 A3 A4 A5 (b' & Hb' & A6) A7].
    pose proof (add_block_inv now c b Hp2 Hp3 Hci) as Hci1. rewrite Ea in Hci1. cbn [fst] in Hci1.
    destruct (add_blocks_spec bs c1 c' Hci1 A2 A1 Hp Hr) as (_ & _ & Hh & Hlow).
    destruct (process_block_lrun now (bc_utxo c) b Hi) as [_ El].
    rewrite <- El in Hfs. cbn [fst] in Hfs. rewrite <- A3 in Hfs.
    specialize (IH c1 Hci1 A2 A1 Hp Hr Hfs d txs Hd Hc (λ h Hlt, Hdb h ltac:(lia))). cbv zeta in *. rewrite A4 in IH.
    rewrite heights_down_snoc, foldl_app by lia. destruct IH as [Hi1 E1].
    pose proof (undo_blocks_core (heights_down (current_height c + 1) (current_height c')) (d, txs)) as Ec.
    pose proof (undo_blocks_other (heights_down (current_height c + 1) (current_height c')) (d, txs) (current_height c + 1)) as Eu.
    rewrite heights_down_elem in Eu. specialize (Eu ltac:(lia)). cbn [fst] in Ec, Eu.
    destruct (foldl undo_block (d, txs) _) as [d1 txs1]. cbn [fst] in *. apply core_block_at in Ec.
    destruct (Hdb (current_height c + 1) ltac:(lia)) as [U1 U2]. destruct (Hlow (current_height c + 1) ltac:(lia)) as [L1 L2].
    rewrite U1, L1, A5, lookup_insert_eq in Eu. assert (block_at d1 (current_height c + 1) = Some b') as Eb.
    { rewrite Ec, U2, L2, A6. by rewrite decide_True. }
    cbn [foldl undo_block]. rewrite Eu. cbn [fst]. rewrite Eb.
    assert (rollback_utxos (bc_utxo d1) (Some (process_block_utxos now (bc_utxo c) b).2) (Some b')
      = rollback_utxos (bc_utxo d1) (Some (process_block_utxos now (bc_utxo c) b).2) (Some b)) as Er.
    { unfold rollback_utxos, rollback_outputs, block_outpoints. by rewrite Hb'. }
    change (bc_utxo (delete_undo_log (set_bc_utxo ?x _) _)) with x. rewrite Er.
    apply (rollback_block now (bc_utxo c) b Hi Hf); [|done|congruence].
    pose proof (ci_height c Hci). rewrite A7. by rewrite (proj2 (Z.eqb_neq _ _)) by lia.
Qed.

Lemma remove_blocks_utxo hs c : bc_utxo (foldl remove_block c hs) = bc_utxo c.
Proof.
  revert c. induction hs as [|h hs IH]; intros c; [done|]. cbn. rewrite IH. unfold remove_block.
  by destruct (tx_index c), (block_at c h).
Qed.
Lemma undo_specials_utxo hs c : bc_utxo (foldl undo_special c hs) = bc_utxo c.
Proof. revert c. induction hs as [|h hs IH]; intros c; [done|]. cbn. rewrite IH. unfold undo_special. by destruct (_ !! h). Qed.
Lemma repools_utxo now txs c : bc_utxo (foldl (repool now) c txs) = bc_utxo c.
Proof. revert c. induction txs as [|tx txs IH]; intros c; [done|]. cbn. by rewrite IH. Qed.
Lemma remove_blocks_at hs c h : block_at (foldl remove_block c hs) h = if decide (h ∈ hs) then None else block_at c h.
Proof.
  assert (∀ c h', block_at (remove_block c h') h = if decide (h = h') then None else block_at c h) as Hone.
  { intros c0 h'. assert (block_db (remove_block c0 h') = delete h' (block_db c0)) as E by (unfold remove_block; by repeat case_match).
    unfold block_at. rewrite E. destruct (decide (h = h')) as [->|]; [by rewrite lookup_delete_eq|by rewrite lookup_delete_ne]. }
  revert c. induction hs as [|h' hs IH]; intros c; [by rewrite decide_False by apply not_elem_of_nil|]. cbn. rewrite IH, Hone.
  destruct (decide (h ∈ hs)); [by rewrite decide_True by (by constructor)|]. destruct (decide (h = h')) as [->|]; [by rewrite decide_True by constructor|].
  rewrite decide_False; [done|]. rewrite elem_of_cons. naive_solver.
Qed.

(** C23: A reorganisation during sync undoes exactly what it has to: after adding up to 100
    blocks, rolling back to the height before them succeeds and restores the blocks, the
    height and the whole content of the UTXO set (outputs, states, tombstones), when each
    block spends stored outputs and creates new ones. *)
Theorem sync_rollback_roundtrip c bs c' now : chain_inv c → inv (bc_utxo c) → is_syncing c = true → Forall plain_block bs →
  (length bs ≤ 100)%nat → add_blocks c bs = (c', Ok tt) → ledger_fits (content (bc_utxo c)) bs →
  let r := rollback_to_height now c' (current_height c) in
  r.2 = Ok (current_height c) ∧ current_height r.1 = current_height c
  ∧ (∀ h, block_at r.1 h = block_at c h) ∧ content (bc_utxo r.1) = content (bc_utxo c).
Proof.
  intros Hci Hi Hs Hp Hlen Ha Hf. cbv zeta.
  destruct (add_blocks_spec bs c c' Hci Hi Hs Hp Ha) as (Hci' & Hi' & Hh & Hlow).
  destruct (undo_added bs c c' Hci Hi Hs Hp Ha Hf c' [] Hi' eq_refl ltac:(done)) as [_ Ecnt].
  assert (∀ h, current_height c < h → block_at c h = None) as Hnone.
  { intros h Hlt. destruct (block_at c h) eqn:E; [|done]. pose proof (proj1 (block_at_stored c h Hci) (mk_is_Some _ _ E)). lia. }
  unfold rollback_to_height, rollback_to_height_impl. destruct (Z.leb_spec (current_height c') (current_height c)) as [Hle|Hlt].
  - assert (current_height c' = current_height c) as E by lia. rewrite heights_down_nil in Ecnt by lia. cbn [fst snd].
    split; [by rewrite E|]. split; [exact E|]. split; [|exact Ecnt]. intros h. destruct (decide (h ≤ current_height c)); [by apply Hlow|]. rewrite Hnone by lia. cbn.
    destruct (block_at c' h) eqn:Eb; [|done]. pose proof (proj1 (block_at_stored c' h Hci') (mk_is_Some _ _ Eb)). lia.
  - pose proof (ci_height c Hci). assert (match find_last_checkpoint_before c' (current_height c') with Some cp => current_height c <? cp | None => false end = false) as ->.
    { unfold find_last_checkpoint_before, get_checkpoints. destruct (bc_network c'); cbn; destruct (decide _); cbn; try done; apply Z.ltb_ge; lia. }
    destruct (Z.ltb_spec MAX_REORG_DEPTH (current_height c' - current_height c)) as [Hd|_]; [unfold MAX_REORG_DEPTH in Hd; lia|]. cbn [negb andb].
    pose proof (undo_blocks_core (heights_down (current_height c) (current_height c')) (c', [])) as Ec.
    destruct (foldl undo_block (c', []) _) as [d txs]. cbn [fst] in *. apply core_block_at in Ec.
    split; [done|]. split; [done|]. split.
    + intros h. match goal with |- block_at (set_current_height _ (set_height_db _ ?x)) h = _ => change (block_at x h = block_at c h) end.
      rewrite remove_blocks_at. destruct (decide _) as [Hin|Hout]; rewrite heights_down_elem in *; [by rewrite Hnone by lia|].
      assert (∀ hs (x : Blockchain), block_at (foldl undo_special x hs) h = block_at x h) as Hu.
      { intros hs x. rewrite (core_block_at _ x); [done|]. rewrite foldl_core; [done|apply undo_special_core]. }
      assert (∀ txs (x : Blockchain), block_at (foldl (repool now) x txs) h = block_at x h) as Hrp.
      { intros txs' x. rewrite (core_block_at _ x); [done|]. by rewrite foldl_core. }
      rewrite Hu, Hrp, Ec. destruct (decide (h ≤ current_height c)); [by apply Hlow|]. rewrite Hnone by lia.
      destruct (block_at c' h) eqn:Eb; [|done]. pose proof (proj1 (block_at_stored c' h Hci') (mk_is_Some _ _ Eb)). lia.
    + match goal with |- content (bc_utxo (set_current_height _ (set_height_db _ ?x))) = _ => change (content (bc_utxo x) = content (bc_utxo c)) end.
      rewrite remove_blocks_utxo, undo_specials_utxo, repools_utxo. exact Ecnt.
Qed.

(** ** Supply *)

(** The outputs a run spends, in order. *)
Definition spends (ps : list lop) : list OutPoint := ps ≫= λ p, match p with LSpend o => [o] | LCreate _ => [] end.
Lemma lrun_log now ps L undo : fits now L ps →
  ∃ new, (lrun now (L, undo) ps).2 = undo ++ new ∧ new.*1 = spends ps.
Proof.
  revert L undo. induction ps as [|[o|u] ps IH]; intros L undo Hf; cbn [fits] in Hf.
  - exists []. by rewrite app_nil_r.
  - destruct Hf as ((u & Hu & Hu') & _ & _ & Hf). destruct (IH _ (undo ++ [(o, u)]) Hf) as (new & E & Es).
    exists ((o, u) :: new). split; [|cbn; by f_equal]. unfold lrun in *. cbn [foldl lstep fst snd]. rewrite Hu. cbn. rewrite E. by rewrite <- app_assoc.
  - destruct Hf as (_ & _ & _ & Hf). destruct (IH _ undo Hf) as (new & E & Es). exists new. split; [exact E|done].
Qed.
Lemma created_app l l' : created (l ++ l') = created l ++ created l'.
Proof. unfold created. by rewrite bind_app. Qed.
Lemma created_tx tx : created (tx_ops tx) = tx_outputs tx.
Proof.
  unfold tx_ops. rewrite created_app. assert (∀ ins, created (LSpend ∘ previous_output <$> ins) = []) as -> by (induction ins as [|i ins IH]; [done|]; exact IH).
  cbn [app]. induction (tx_outputs tx) as [|u us IH]; [done|]. rewrite fmap_cons. change (created (LCreate u :: ?l)) with (u :: created l). by rewrite IH.
Qed.
Lemma created_txs txs : created (txs ≫= tx_ops) = txs ≫= tx_outputs.
Proof. induction txs as [|tx txs IH]; [done|]. by rewrite !bind_cons, created_app, created_tx, IH. Qed.
Lemma spends_tx tx : spends (tx_ops tx) = previous_output <$> inputs tx.
Proof.
  unfold tx_ops, spends. rewrite bind_app.
  assert (∀ us, (LCreate <$> us) ≫= (λ p, match p with LSpend o => [o] | LCreate _ => [] end) = []) as -> by (induction us as [|u us IH]; [done|]; exact IH).
  rewrite app_nil_r. induction (inputs tx) as [|i ins IH]; [done|]. cbn. by f_equal.
Qed.
Lemma output_values tx : value <$> tx_outputs tx = out_value <$> outputs tx.
Proof.
  unfold tx_outputs. rewrite fmap_imap. assert (∀ (f : nat → TxOutput → Z), (∀ i o, f i o = out_value o) → imap f (outputs tx) = out_value <$> outputs tx) as Hf; [|by apply Hf].
  intros f. revert f. induction (outputs tx) as [|o os IH]; intros f Hf; [done|]. cbn. rewrite Hf. f_equal. apply IH. intros i o'. apply Hf.
Qed.

Lemma mapM_agree c h (ins : list TxInput) (rest : list (OutPoint * UTXO)) :
  rest.*1 = previous_output <$> ins → Forall (λ e, input_value c h e.1 = Some (value e.2)) rest →
  mapM (λ i, input_value c h (previous_output i)) ins = Some (value <$> rest.*2).
Proof.
  revert ins. induction rest as [|[o u] rest IH]; intros [|i ins] E; try done. cbn in E. injection E as Eo Er. intros [Hu Hr]%Forall_cons.
  cbn [mapM fmap list_fmap]. cbn in Hu. rewrite <- Eo, Hu. cbn. by rewrite (IH _ Er Hr).
Qed.
Definition non_negative (l : list Z) : Prop := Forall (λ v, 0 ≤ v) l.
Lemma sum_non_negative l : non_negative l → 0 ≤ sumZ l.
Proof. induction 1; [done|]. rewrite sumZ_cons. lia. Qed.

(** The fees of transactions are what they spend less what they create. *)
Lemma fees_balance c h txs rest fs :
  rest.*1 = (txs ≫= λ tx, previous_output <$> inputs tx) → Forall (λ e, input_value c h e.1 = Some (value e.2)) rest →
  non_negative (value <$> rest.*2) → non_negative (txs ≫= λ tx, out_value <$> outputs tx) →
  sumZ (value <$> rest.*2) < U64 → sumZ (txs ≫= λ tx, out_value <$> outputs tx) < U64 →
  mapM (λ tx, compute_single_tx_fee c tx h) txs = Some fs →
  sumZ (value <$> rest.*2) = sumZ fs + sumZ (txs ≫= λ tx, out_value <$> outputs tx) ∧ non_negative fs.
Proof.
  revert rest fs. induction txs as [|tx txs IH]; intros rest fs Er Ha Hn Ho Hb Hob.
  { apply fmap_nil_inv in Er as ->. intros [= <-]. split; [done|constructor]. }
  rewrite bind_cons in Er. rewrite bind_cons in Ho. rewrite bind_cons in Hob. rewrite bind_cons. apply fmap_app_inv in Er as (r1 & r2 & E1 & E2 & ->).
  rewrite !fmap_app in *. apply Forall_app in Ha as [Ha1 Ha2]. apply Forall_app in Hn as [Hn1 Hn2]. apply Forall_app in Ho as [Ho1 Ho2].
  rewrite !sumZ_app in *. pose proof (sum_non_negative _ Hn1). pose proof (sum_non_negative _ Hn2). pose proof (sum_non_negative _ Ho1). pose proof (sum_non_negative _ Ho2).
  assert (compute_single_tx_fee c tx h = if sumZ (out_value <$> outputs tx) <=? sumZ (value <$> r1.*2)
    then Some (sumZ (value <$> r1.*2) - sumZ (out_value <$> outputs tx)) else None) as Hfee.
  { unfold compute_single_tx_fee. rewrite (mapM_agree c h (inputs tx) r1 (eq_sym E1) Ha1). cbn [mbind option_bind]. by rewrite !sum64_small by lia. }
  cbn [mapM]. rewrite Hfee. destruct (Z.leb_spec (sumZ (out_value <$> outputs tx)) (sumZ (value <$> r1.*2))); [|done]. cbn [mbind option_bind].
  destruct (mapM _ txs) as [fs'|] eqn:Em; [|done]. intros [= <-].
  destruct (IH r2 fs' (eq_sym E2) Ha2 Hn2 Ho2 ltac:(lia) ltac:(lia) eq_refl) as [IH1 IH2].
  rewrite sumZ_cons. split; [lia|]. constructor; [lia|done].
Qed.

Lemma spends_txs txs : spends (txs ≫= tx_ops) = txs ≫= λ tx, previous_output <$> inputs tx.
Proof. induction txs as [|tx txs IH]; [done|]. rewrite !bind_cons. unfold spends at 1. rewrite bind_app. f_equal; [apply spends_tx|exact IH]. Qed.
(** The distribution spends what the coinbase created. *)
Lemma coinbase_log now L coinbase dist txs r :
  inputs coinbase = [] → out_value <$> outputs coinbase = [r] → previous_output <$> inputs dist = [mkOutPoint (txid coinbase) 0] →
  fits now L ((coinbase :: dist :: txs) ≫= tx_ops) →
  ∃ u rest, (lrun now (L, []) ((coinbase :: dist :: txs) ≫= tx_ops)).2 = (mkOutPoint (txid coinbase) 0, u) :: rest
    ∧ value u = r ∧ rest.*1 = (txs ≫= λ tx, previous_output <$> inputs tx).
Proof.
  intros Hin Hout Hd Hf. destruct (outputs coinbase) as [|out [|]] eqn:Eo; [done| |done]. cbn in Hout. injection Hout as Hr.
  set (u := block_utxo (txid coinbase) 0 out).
  assert (tx_ops coinbase = [LCreate u]) as Ec by (unfold tx_ops, tx_outputs; by rewrite Hin, Eo).
  assert (outpoint u = mkOutPoint (txid coinbase) 0 ∧ value u = r) as [Eu Ev] by (by split).
  assert (tx_ops dist = LSpend (outpoint u) :: (LCreate <$> tx_outputs dist)) as Ed.
  { unfold tx_ops. rewrite list_fmap_compose, Hd. by rewrite Eu. }
  rewrite !bind_cons, Ec, Ed in *. cbn [app] in *. clearbody u. cbn [fits] in Hf. destruct Hf as (F1 & F2 & F3 & _ & _ & _ & Hf).
  destruct (lrun_log now _ _ [(outpoint u, u)] Hf) as (new & En & Es). exists u, new. split; [|split].
  - unfold lrun in *. cbn [foldl lstep fst snd].
    assert (l_set (lcreate u L) !! outpoint u = Some u) as ->; [|cbn [app]; rewrite En, Eu; done].
    unfold lcreate. rewrite bool_decide_eq_false_2, F2 by done. cbn. by rewrite lookup_insert_eq.
  - exact Ev.
  - rewrite Es, <- spends_txs. unfold spends. rewrite bind_app.
    assert (∀ us, (LCreate <$> us) ≫= (λ p, match p with LSpend o => [o] | LCreate _ => [] end) = []) as -> by (induction us as [|x us IH]; [done|]; exact IH).
    done.
Qed.

Record reward_shape (b : Block) (coinbase dist : Transaction) (txs : list Transaction) (r d : Z) : Prop := mkShape {
  rs_txs : transactions b = coinbase :: dist :: txs;
  rs_coinbase : inputs coinbase = [] ∧ out_value <$> outputs coinbase = [r];
  rs_reward : block_reward (header b) = r;
  rs_dist : ∃ i, inputs dist = [i] ∧ op_txid (previous_output i) = txid coinbase;
  rs_total : d = sum64 (out_value <$> outputs dist) ∧ d ≤ r;
}.
(** What acceptance of the rewards establishes when the fees can be computed. *)
Lemma rewards_shape c b fees : validate_block_rewards c b = Ok tt → compute_block_fees c b = Some fees →
  ∃ coinbase dist txs d, reward_shape b coinbase dist txs (sub64 (add64 BLOCK_REWARD_SATOSHIS fees) TREASURY_POOL_SATOSHIS) d
    ∧ sat_sub (block_reward (header b)) (Z.of_nat (length (masternode_rewards b))) ≤ d.
Proof.
  intros Hv Hf. unfold validate_block_rewards in Hv. cbv zeta in Hv. rewrite Hf in Hv.
  destruct (transactions b) as [|coinbase [|dist txs]] eqn:Et; [done..|]. apply fail_ok_iff in Hv as [Hin Hv].
  destruct (outputs coinbase) as [|out [|]] eqn:Eo; [done| |done]. rewrite !fail_ok_iff in Hv. destruct Hv as (Hamt & Hrew & _ & Hv).
  destruct (inputs dist) as [|i [|]] eqn:Ei; [done| |done]. rewrite !fail_ok_iff, let_ok_iff, fail_ok_iff in Hv. destruct Hv as (Hsrc & _ & _ & Htot & _).
  apply orb_false_iff in Htot as [Hlo Hhi]. apply Z.ltb_ge in Hlo, Hhi. apply negb_false_iff in Hamt, Hrew, Hsrc, Hin.
  apply Z.eqb_eq in Hamt, Hrew. apply bool_decide_eq_true in Hsrc, Hin.
  exists coinbase, dist, txs, (sum64 (out_value <$> outputs dist)). split; [|done]. split.
  - done.
  - split; [done|]. rewrite Eo. cbn. by rewrite Hamt, Hrew.
  - done.
  - by exists i.
  - split; [done|]. by rewrite <- Hrew.
Qed.

(** C2: Supply: let a block pass the reward checks, with fees that can be computed; let
    every output it spends be stored, unspent and spent once, and every output it creates be
    new ([fits]; neither is checked when a block is added); let its distribution spend the
    coinbase output, and the outputs it spends have the values the chain gives them. Then
    the block raises the value of the UTXO set by at most the subsidy of 95 coins, and by no
    less than that less one unit per reward entry, when the amounts add up to less than
    2^64. *)
Theorem block_mints_subsidy now c b fees coinbase dist txs : let m := bc_utxo c in let r := process_block_utxos now m b in
  inv m → 0 < bh_height (header b) → transactions b = coinbase :: dist :: txs →
  fits now (content m) (block_ops b) → validate_block_rewards c b = Ok tt → compute_block_fees c b = Some fees →
  (previous_output <$> inputs dist) = [mkOutPoint (txid coinbase) 0] →
  (∀ o u, (o, u) ∈ spent_utxos r.2 → o ∈ (txs ≫= λ tx, previous_output <$> inputs tx) → input_value c (bh_height (header b)) o = Some (value u)) →
  non_negative (value <$> created (block_ops b)) → non_negative (value <$> (spent_utxos r.2).*2) →
  sumZ (value <$> created (block_ops b)) + sumZ (value <$> (spent_utxos r.2).*2) + BLOCK_REWARD_SATOSHIS < U64 →
  let subsidy := BLOCK_REWARD_SATOSHIS - TREASURY_POOL_SATOSHIS in
  let before := set_value (st_view (storage m)) in
  let after := set_value (st_view (storage r.1)) in
  before + subsidy - Z.of_nat (length (masternode_rewards b)) ≤ after ≤ before + subsidy.
Proof.
  cbv zeta. intros Hi Hh Htx Hf Hv Hfees Hdist Hag Hnc Hns Hbound.
  destruct (rewards_shape c b fees Hv Hfees) as (coinbase' & dist' & txs' & d & [S1 [S2 S2'] S3 _ [S5 S6]] & Hlo).
  rewrite Htx in S1. injection S1 as <- <- <-.
  assert ((bh_height (header b) =? 0) && bool_decide (transactions b = []) = false) as Hg by (by rewrite (proj2 (Z.eqb_neq _ _)) by lia).
  assert (block_ops b = transactions b ≫= tx_ops) as Eops by (unfold block_ops; by rewrite Hg). rewrite Eops, Htx in *.
  destruct (process_block_lrun now (bc_utxo c) b Hi) as [_ El]. rewrite Eops in El.
  pose proof (lrun_value now _ (content (bc_utxo c)) [] Hf) as Hval.
  destruct (coinbase_log now _ coinbase dist txs _ S2 S2' Hdist Hf) as (u & rest & En & Hu & Hrest).
  rewrite <- El in Hval, En. cbn [fst snd] in *. change (l_set (content ?x)) with (st_view (storage x)) in Hval.
  change (sumZ (value <$> [].*2)) with 0 in Hval. rewrite En in Hval, Hag, Hns, Hbound. cbn [fmap list_fmap fst snd] in *.
  rewrite sumZ_cons in Hval, Hbound. apply Forall_cons in Hns as [Hu0 Hns]. rewrite created_txs in *. rewrite !bind_cons in Hval, Hbound, Hnc.
  assert (∀ l, value <$> (l ≫= tx_outputs) = l ≫= λ tx, out_value <$> outputs tx) as Hov.
  { induction l as [|tx l IH]; [done|]. by rewrite !bind_cons, fmap_app, output_values, IH. }
  rewrite !fmap_app, !output_values, Hov, S2' in Hval, Hbound, Hnc. rewrite !sumZ_app in Hval, Hbound.
  apply Forall_app in Hnc as [Hc1 Hnc]. apply Forall_app in Hnc as [Hc2 Hc3]. apply Forall_cons in Hc1 as [Hr0 _].
  pose proof (sum_non_negative _ Hns). pose proof (sum_non_negative _ Hc2). pose proof (sum_non_negative _ Hc3).
  change (sumZ [?x]) with (x + 0) in Hval, Hbound. unfold compute_block_fees in Hfees. rewrite Htx in Hfees. cbn [drop] in Hfees.
  destruct (mapM _ txs) as [fs|] eqn:Em; [|done]. cbn in Hfees. injection Hfees as Hfees.
  destruct (fees_balance c (bh_height (header b)) txs rest fs Hrest) as [Hbal Hfs].
  { apply Forall_forall. intros [o v] Hin. cbn. apply Hag; [by constructor|]. rewrite <- Hrest. apply list_elem_of_fmap. by exists (o, v). }
  { done. } { done. } { unfold BLOCK_REWARD_SATOSHIS, SATOSHIS_PER_TIME in *. lia. } { unfold BLOCK_REWARD_SATOSHIS, SATOSHIS_PER_TIME in *. lia. } { done. }
  pose proof (sum_non_negative _ Hfs). unfold BLOCK_REWARD_SATOSHIS, TREASURY_POOL_SATOSHIS, SATOSHIS_PER_TIME in *.
  assert (fees = sumZ fs) as Ef by (rewrite <- Hfees; apply sum64_small; lia).
  assert (sub64 (add64 (100 * 100000000) fees) (5 * 100000000) = 95 * 100000000 + fees) as Er.
  { unfold sub64, add64. rewrite (Z.mod_small (100 * 100000000 + fees)) by lia. rewrite Z.mod_small by lia. lia. }
  rewrite Er in *. rewrite sum64_small in S5 by lia. unfold sat_sub in Hlo. rewrite S3 in Hlo. lia.
Qed.
End chain_ledger.
