(* ===== verification/ChainSamples.v ===== *)
(** * The blockchain: concrete chains (src/blockchain.rs)

    A chain of three blocks at which the theorems on the blockchain are applied, and the
    blocks that show where the reward checks stop short. *)

From Stdlib Require Import ZArith Lia Ascii String.
From stdpp Require Import base gmap strings list.
From S2P Require Import Prelude Types Instances Address Finality Storage UtxoManager UtxoProofs TransactionPool BlockVotes TimeVoteEngine.
From S2P Require Import Lru BlockTypes BlockVrf BlockCache BlockLedger Governance GovernancePersist Registry RegistryProofs Reward Utf8 Genesis TxValidation TxProofs PoolProofs Consensus ConsensusProofs.
From S2P Require Import Chain ChainApply ChainProofs ChainLedger.

Section chain_samples.
#[local] Existing Instance tagged_externals.
#[local] Existing Instance canonical_iter.
#[local] Existing Instance sample_tx_externals.
#[local] Existing Instance model_pool_codec.
#[local] Existing Instance model_vrf.
#[local] Existing Instance model_gov_codec.
#[local] Existing Instance model_zstd.
#[local] Existing Instance list_lru.
#[local] Instance no_legacy : LegacyCodec := {| legacy_decode _ := None |}.

Definition TIME : Z := 100000000.
(** Blocks are hashed by [tagged_digest], which does not depend on the table of the codec. *)
Definition hash_externals : BlockExternals := table_externals [].
Definition block_digest (b : Block) : Hash256 := @hash hash_externals b.

Definition sample_coinbase (h reward : Z) : Transaction := mkTransaction 1 [] [mkTxOutput reward (str_bytes "BLOCK_REWARD_")] 0 h None None.
Definition sample_dist (h reward v : Z) : Transaction :=
  mkTransaction 1 [mkTxInput (mkOutPoint (txid (sample_coinbase h reward)) v) [] 0] [mkTxOutput reward (str_bytes "w")] 0 (100 + h) None None.
Definition sample_block (ver h reward v : Z) (prev : Hash256) (txs : list Transaction) : Block :=
  mkBlock (mkHeader ver h prev [] 1800000000 reward "1.1.1.1" [] (mkTierCounts 0 0 0 0) [] [] 0 [] None [] 0 0)
    (sample_coinbase h reward :: sample_dist h reward v :: txs) [("w"%string, reward)] [] [] None.
Definition block1 : Block := sample_block 1 1 (95 * TIME) 0 (block_digest testnet_genesis) [].
(** Spends the reward of the block before, with a fee of one tenth. *)
Definition sample_payment : Transaction :=
  mkTransaction 2 [mkTxInput (mkOutPoint (txid (sample_dist 1 (95 * TIME) 0)) 0) [] 0] [mkTxOutput (95 * TIME - 10000000) (str_bytes "x")] 0 500 None None.
Definition block2 : Block := sample_block 1 2 (95 * TIME + 10000000) 0 (block_digest block1) [sample_payment].

(** A block with a transaction whose input nobody has, and one whose distribution names the
    second output of the coinbase. *)
Definition unknown_input : Transaction := mkTransaction 2 [mkTxInput (mkOutPoint [1] 0) [] 0] [] 0 501 None None.
Definition minting_block : Block := sample_block 1 1 (10000000 * TIME) 0 (block_digest testnet_genesis) [unknown_input].
Definition double_block : Block := sample_block 1 1 (95 * TIME) 1 (block_digest testnet_genesis) [].
(** A block with two transactions that spend one output. *)
Definition payment_again : Transaction :=
  mkTransaction 2 [mkTxInput (mkOutPoint (txid (sample_dist 1 (95 * TIME) 0)) 0) [] 0] [mkTxOutput (95 * TIME - 10000000) (str_bytes "y")] 0 501 None None.
Definition twice_block : Block := sample_block 1 2 (95 * TIME + 20000000) 0 (block_digest block1) [sample_payment; payment_again].
Definition sample_table : list Block := [testnet_genesis; block1; block2; minting_block; double_block; twice_block].
#[local] Instance sample_ext : BlockExternals := table_externals sample_table.
#[local] Instance sample_codec : BlockCodec := table_codec sample_table.
#[local] Instance sample_codec_laws : BlockCodecLaws := table_codec_laws sample_table.
#[local] Instance sample_format : BlockFormat.
Proof.
  intros b d Hb _. change (table_bincode sample_table b = Some d) in Hb. unfold table_bincode in Hb.
  by apply fmap_Some in Hb as ([i x] & _ & ->).
Qed.

Definition chain_engine : ConsensusEngine (gmap OutPoint UTXO) :=
  mkEngine w_boot (new_pool ∅) tvc_new fallback_new (fpm_new 1) None default_fee_schedule [] None None true [] [].
Definition sample_boot : Blockchain * result chain_error () :=
  store_hardcoded_genesis (blockchain_new Testnet ∅ ∅ ∅ None None ∅ ∅ chain_engine (registry_new None 0)).
#[local] Abbreviation chain0 := (set_tx_index (Some ∅) (set_syncing true sample_boot.1)).
Definition sample_blocks : list (Z * Block) := [(5, block1); (6, block2)].

Lemma sample_boot_ok : sample_boot.2 = Ok tt.
Proof. by vm_compute. Qed.
Lemma chain0_inv : chain_inv chain0.
Proof.
  destruct (genesis_inv Testnet chain_engine (registry_new None 0) None ∅ ∅ sample_boot_ok) as [I1 I2 I3 I4 I5 I6]. by split.
Qed.
Lemma blocks_added : (add_blocks chain0 sample_blocks).2 = Ok tt.
Proof. by vm_compute. Qed.
Lemma sample_plain : Forall plain_block sample_blocks.
Proof. repeat constructor; vm_compute; eauto; done. Qed.
Lemma sample_ledger_fits : ledger_fits (content (bc_utxo chain0)) sample_blocks.
Proof.
  split; [vm_compute block_ops; cbn [fits]; repeat fits_step|]. split; [|exact I]. vm_compute block_ops. cbn [fits]. repeat fits_step.
Qed.

Definition sample_history : list chain_op := [KAdd 5 block1; KGet 1; KRollback 7 0 false; KAdd 8 block1; KBuildIndex; KReindex 9].
Lemma chain_complete_linked_witness :
  let c := foldl chain_exec (set_tx_index (Some ∅) sample_boot.1) sample_history in is_Some (block_at c 1) ↔ 0 ≤ 1 ≤ current_height c.
Proof.
  refine (proj1 (chain_complete_linked Testnet chain_engine (registry_new None 0) None ∅ ∅ (Some ∅) sample_history sample_boot_ok (or_intror eq_refl) _) 1).
  repeat constructor; vm_compute; done.
Defined.
Lemma sync_rollback_roundtrip_witness :
  let r := rollback_to_height 9 (add_blocks chain0 sample_blocks).1 0 in
  r.2 = Ok 0 ∧ content (bc_utxo r.1) = content (bc_utxo chain0).
Proof.
  pose proof (sync_rollback_roundtrip chain0 sample_blocks (add_blocks chain0 sample_blocks).1 9 chain0_inv (w_inv []) eq_refl sample_plain
    ltac:(vm_compute; lia) (pair_result _ _ blocks_added) sample_ledger_fits) as (E1 & _ & _ & E2). by split.
Defined.

(** The state before the second block, whose third transaction pays a fee. *)
#[local] Abbreviation chain1 := ((add_blocks chain0 [(5, block1)]).1).
Lemma block1_added : (add_blocks chain0 [(5, block1)]).2 = Ok tt.
Proof. by vm_compute. Qed.
Lemma chain1_inv : inv (bc_utxo chain1).
Proof.
  apply (add_blocks_spec [(5, block1)] chain0 chain1 chain0_inv (w_inv []) eq_refl); [|exact (pair_result _ _ block1_added)].
  repeat constructor; vm_compute; eauto; done.
Qed.
Lemma block2_fits : fits 6 (content (bc_utxo chain1)) (block_ops block2).
Proof. vm_compute block_ops. cbn [fits]. repeat fits_step. Qed.
Lemma block2_log : spent_utxos (process_block_utxos 6 (bc_utxo chain1) block2).2
  = [(mkOutPoint (txid (sample_coinbase 2 (95 * TIME + 10000000))) 0,
      block_utxo (txid (sample_coinbase 2 (95 * TIME + 10000000))) 0 (mkTxOutput (95 * TIME + 10000000) (str_bytes "BLOCK_REWARD_")));
     (mkOutPoint (txid (sample_dist 1 (95 * TIME) 0)) 0,
      block_utxo (txid (sample_dist 1 (95 * TIME) 0)) 0 (mkTxOutput (95 * TIME) (str_bytes "w")))].
Proof. by vm_compute. Qed.
Lemma block_mints_subsidy_witness :
  let r := process_block_utxos 6 (bc_utxo chain1) block2 in
  set_value (st_view (storage r.1)) ≤ set_value (st_view (storage (bc_utxo chain1))) + 95 * TIME.
Proof.
  refine (proj2 (block_mints_subsidy 6 chain1 block2 10000000 (sample_coinbase 2 (95 * TIME + 10000000))
    (sample_dist 2 (95 * TIME + 10000000) 0) [sample_payment] chain1_inv _ _ block2_fits _ _ _ _ _ _ _)).
  - done.
  - done.
  - by vm_compute.
  - by vm_compute.
  - by vm_compute.
  - intros o u Hin. rewrite block2_log in Hin. intros Ho.
    apply elem_of_cons in Hin as [[= -> ->]|Hin]; [apply (bool_decide_pack _) in Ho; by vm_compute in Ho|].
    apply list_elem_of_singleton in Hin as [= -> ->]. by vm_compute.
  - vm_compute created. repeat constructor; vm_compute; done.
  - rewrite block2_log. repeat constructor; vm_compute; done.
  - rewrite block2_log. by vm_compute.
Defined.

(** ** Where the checks stop short *)

Definition supply (c : Blockchain (S := gmap OutPoint UTXO)) : Z := set_value (st_view (storage (bc_utxo c))).

(** The reward of a block is not checked when one of its inputs is unknown: any amount is
    accepted and paid out. *)
Theorem unknown_input_mints : let r := add_block 5 chain0 minting_block in r.2 = Ok tt ∧ supply r.1 = 10000000 * TIME.
Proof. by vm_compute. Qed.
(** Neither the rewards nor adding a block look whether an output is spent twice: the outputs
    of both transactions are created. *)
Theorem double_spend_mints : let r := add_block 6 chain1 twice_block in
  r.2 = Ok tt ∧ supply chain1 = 95 * TIME ∧ supply r.1 = 95 * TIME + 95 * TIME + (95 * TIME - 10000000) + 10000000.
Proof. by vm_compute. Qed.
(** Only the txid of the input of the distribution is compared: with another output index
    the coinbase stays unspent beside the outputs it pays for. *)
Theorem coinbase_paid_twice : let r := add_block 5 chain0 double_block in r.2 = Ok tt ∧ supply r.1 = 2 * (95 * TIME).
Proof. by vm_compute. Qed.

Definition slashed_node : MasternodeInfo :=
  mkMasternodeInfo (new_legacy "1.1.1.1" "w" 0 [] Bronze 0) "w" 0 0 true false 0 0 0 0 (OnChain 0) ∅ None true 0 0 0.
Definition slash_chain : Blockchain (S := gmap OutPoint UTXO) :=
  set_registry (set_nodes {[ "1.1.1.1"%string := slashed_node ]} (registry_new None 0)) sample_boot.1.
(** Slashing a Bronze masternode credits the treasury with its collateral times 10^8; under
    the node address, which is what block producers are recorded by, nobody is slashed. *)
Theorem slash_scaled_twice :
  let c := set_treasury_balance slash_chain 0 in
  bc_treasury (slash_producer_collateral 5 c "w") = collateral Bronze * SATOSHIS_PER_TIME
  ∧ let c' := foldl (record_reward_violation 5) c ["1.1.1.1"; "1.1.1.1"; "1.1.1.1"]%string in
    bc_treasury c' = 0 ∧ bool_decide (is_Some (masternodes (registry c') !! "1.1.1.1"%string)) = true.
Proof. by vm_compute. Qed.

(** After governance has set the emission rate to 50, the block with that subsidy is refused
    and the block with the old one accepted. *)
Theorem emission_ignored :
  let c := (apply_emission_rate_change chain0 (50 * TIME)).1 in
  active_block_reward c = 50 * TIME
  ∧ validate_block_rewards c (sample_block 1 1 (45 * TIME) 0 (block_digest testnet_genesis) []) = Err (WrongReward 1)
  ∧ validate_block_rewards c block1 = Ok tt.
Proof. by vm_compute. Qed.

(** Filling a gap below a stored block advances the stored height and sets the height in
    memory back. *)
Theorem gap_fill_heights :
  let c := set_block_db (<[2 := [2]]> (block_db sample_boot.1)) sample_boot.1 in
  let c' := (add_block 5 c block1).1 in
  bool_decide (is_Some (block_at c 2)) = true ∧ block_at c 1 = None ∧ chain_height_db c' = Some 2 ∧ current_height c' = 1.
Proof. by vm_compute. Qed.
End chain_samples.

Section poison_sample.
#[local] Existing Instance tagged_externals.
#[local] Existing Instance canonical_iter.
#[local] Existing Instance sample_tx_externals.
#[local] Existing Instance model_pool_codec.
#[local] Existing Instance model_vrf.
#[local] Existing Instance model_gov_codec.
#[local] Existing Instance no_legacy.
#[local] Instance no_zstd : Zstd := {| zstd_encode d := None; zstd_decode d := None |}.
(** A codec that starts with the version, as bincode does. *)
#[local] Instance version_ext : BlockExternals := {|
  blake3 := tagged_digest; block_bincode b := Some (le_bytes 4 (bh_version (header b)) ++ [0]); verify_strict pk m s := true |}.
#[local] Instance version_codec : BlockCodec := {|
  block_decode d := if bool_decide (take 4 d = le_bytes 4 1) then Some testnet_genesis else None |}.
Definition poison_block : Block := sample_block ZSTD_VERSION 1 (95 * TIME) 0 (block_digest testnet_genesis) [].

(** A block whose version spells the mark of compressed data is refused when it is read back,
    after its outputs have been created. *)
Theorem poison_block_applied :
  let boot := (store_hardcoded_genesis (blockchain_new Testnet ∅ ∅ ∅ None None ∅ ∅ chain_engine (registry_new None 0))).1 in
  let r := add_block 5 boot poison_block in
  r.2 = Err (DecompressFailed 1) ∧ current_height r.1 = 0 ∧ supply boot = 0 ∧ supply r.1 = 95 * TIME.
Proof. by vm_compute. Qed.
End poison_sample.
