(* ===== verification/ForkChoice.v ===== *)
(** * Fork choice (src/masternode_authority.rs, src/ai/fork_resolver.rs)

    How a node decides between its chain and a peer's: the authority of the masternodes
    behind each chain, the rules of the fork resolver, and the search for the last common
    block.  These are functions of what the node knows; [Reorg] applies their decisions.
    The text of a decision is a constructor with the case that produced it. *)

From Stdlib Require Import ZArith Lia Ascii String.
From stdpp Require Import base gmap strings list sorting.
From S2P Require Import Prelude Types Address BlockTypes Float64 Chain.

(** ** Order on hashes *)

Definition bytes_ltb (a b : bytes) : bool := bytes_leb a b && negb (bool_decide (a = b)).

Lemma bytes_ltb_irrefl a : bytes_ltb a a = false.
Proof. unfold bytes_ltb. by rewrite bool_decide_true, andb_false_r. Qed.
Lemma bytes_ltb_asym a b : bytes_ltb a b = true → bytes_ltb b a = false.
Proof.
  unfold bytes_ltb. intros [E N%negb_true_iff]%andb_true_iff. destruct (bytes_leb b a) eqn:E'; [|done].
  apply bool_decide_eq_false in N. destruct N. by apply bytes_leb_antisym; apply Is_true_true.
Qed.
Lemma bytes_ltb_total a b : a ≠ b → bytes_ltb a b = false → bytes_ltb b a = true.
Proof.
  unfold bytes_ltb. intros N. rewrite !bool_decide_false by done. rewrite !andb_true_r. apply bytes_leb_total.
Qed.
Lemma bytes_ltb_trans a b c : bytes_ltb a b = true → bytes_ltb b c = true → bytes_ltb a c = true.
Proof.
  intros Hab Hbc. pose proof Hab as Hab'. unfold bytes_ltb in *. rewrite !andb_true_iff, !negb_true_iff, !bool_decide_eq_false in *.
  destruct Hab as [L1 N1], Hbc as [L2 N2]. split.
  - apply Is_true_true, (bytes_leb_trans _ b); by apply Is_true_true.
  - intros ->. destruct N2. apply bytes_leb_antisym; by apply Is_true_true.
Qed.

(** ** Masternode authority *)

Inductive AuthorityLevel := ANone | ARegularFree | AWhitelistedFree | ABronze | ASilver | AGold.
#[export] Instance AuthorityLevel_eq_dec : EqDecision AuthorityLevel.
Proof. solve_decision. Defined.
(** The derived [Ord] is the order of the discriminants. *)
Definition level_rank (l : AuthorityLevel) : Z :=
  match l with ANone => 0 | ARegularFree => 1 | AWhitelistedFree => 2 | ABronze => 3 | ASilver => 4 | AGold => 5 end.
Lemma level_rank_inj l l' : level_rank l = level_rank l' → l = l'.
Proof. by destruct l, l'. Qed.

Record ChainAuthorityAnalysis := mkAuthority {
  highest_tier : AuthorityLevel;
  gold_count : Z; silver_count : Z; bronze_count : Z; whitelisted_free_count : Z; regular_free_count : Z;
  total_count : Z;
  authority_score : Z;
}.
#[export] Instance ChainAuthorityAnalysis_eq_dec : EqDecision ChainAuthorityAnalysis.
Proof. solve_decision. Defined.

Definition in_class (wl : gmap string bool) (t : MasternodeTier) (free_class : bool) (i : MasternodeInfo) : bool :=
  bool_decide (tier (masternode i) = t)
  && match t with Free => Bool.eqb (default false (wl !! mn_address (masternode i))) free_class | _ => true end.
Definition count_class (wl : gmap string bool) (t : MasternodeTier) (free_class : bool) (mns : list MasternodeInfo) : Z :=
  Z.of_nat (length (filter (λ i, in_class wl t free_class i = true) mns)).
Definition from_masternodes (mns : list MasternodeInfo) (wl : gmap string bool) : ChainAuthorityAnalysis :=
  let gold := count_class wl Gold false mns in
  let silver := count_class wl Silver false mns in
  let bronze := count_class wl Bronze false mns in
  let wfree := count_class wl Free true mns in
  let rfree := count_class wl Free false mns in
  let top := if 0 <? gold then AGold else if 0 <? silver then ASilver else if 0 <? bronze then ABronze
             else if 0 <? wfree then AWhitelistedFree else if 0 <? rfree then ARegularFree else ANone in
  let score := add64 (add64 (add64 (add64 (mul64 gold 1000) (mul64 silver 100)) (mul64 bronze 10)) (mul64 wfree 2)) rfree in
  mkAuthority top gold silver bronze wfree rfree (gold + silver + bronze + wfree + rfree) score.

Definition compare_authority (a b : ChainAuthorityAnalysis) : option bool :=
  if negb (bool_decide (highest_tier a = highest_tier b)) then Some (level_rank (highest_tier b) <? level_rank (highest_tier a))
  else if negb (authority_score a =? authority_score b) then Some (authority_score b <? authority_score a)
  else if negb (total_count a =? total_count b) then Some (total_count b <? total_count a)
  else None.

(** What a node knows of a chain when it compares it with another. *)
Record chain_view := mkView { cv_authority : ChainAuthorityAnalysis; cv_work : Z; cv_height : Z; cv_tip : Hash256 }.
#[export] Instance chain_view_eq_dec : EqDecision chain_view.
Proof. solve_decision. Defined.
Inductive switch_reason := ByAuthority | ByWork | ByHeight | ByHash.
Definition should_switch_to_peer_chain (ours peer : chain_view) : bool * switch_reason :=
  match compare_authority (cv_authority peer) (cv_authority ours) with
  | Some higher => (higher, ByAuthority)
  | None =>
      if negb (cv_work peer =? cv_work ours) then (cv_work ours <? cv_work peer, ByWork)
      else if negb (cv_height peer =? cv_height ours) then (cv_height ours <? cv_height peer, ByHeight)
      else (bytes_ltb (cv_tip peer) (cv_tip ours), ByHash)
  end.

(** The masternodes behind a chain: for ours the active ones we are connected to (all active
    ones without a connection manager), for a peer those of a given list of addresses. *)
Definition whitelist_status (listed : option (string → bool)) (mns : list MasternodeInfo) : gmap string bool :=
  match listed with
  | Some f => foldl (λ m i, <[mn_address (masternode i) := f (mn_address (masternode i))]> m) ∅ mns
  | None => ∅
  end.
Definition analyze_our_chain_authority (active : list MasternodeInfo) (connected : option (string → bool))
    (listed : option (string → bool)) : ChainAuthorityAnalysis :=
  let mns := match connected with Some f => filter (λ i, f (mn_address (masternode i)) = true) active | None => active end in
  from_masternodes mns (whitelist_status listed mns).
Definition analyze_peer_chain_authority (supporting : list string) (active : list MasternodeInfo)
    (listed : option (string → bool)) : ChainAuthorityAnalysis :=
  let mns := filter (λ i, mn_address (masternode i) ∈ supporting) active in
  from_masternodes mns (whitelist_status listed mns).

(** ** The fork resolver *)

Record ForkResolutionParams := mkForkParams {
  our_height : Z;
  peer_height : Z;
  peer_tip_timestamp : option Z;
  our_tip_hash : option Hash256;
  peer_tip_hash : option Hash256;
  common_ancestor : option Z;
  our_fork_block_hash : option Hash256;
  peer_fork_block_hash : option Hash256;
  peer_support_count : Z;
  total_peers_checked : Z;
}.
Inductive fork_reason :=
| FutureTip | PeerLonger | MinorityRollback | OursLonger | Supermajority | SameForkBlock | ForkPointTie | SameTip | TipTie | NoData.
Record ForkResolution := mkResolution { accept_peer_chain : bool; reasoning : fork_reason }.

Definition MAX_MINORITY_FORK_GAP : Z := 10.
Definition MIN_PEERS_FOR_MAJORITY_OVERRIDE : Z := 3.
Definition SUPERMAJORITY_THRESHOLD : f64 := f64_ratio 67 100.
Definition supermajority (p : ForkResolutionParams) : bool :=
  (MIN_PEERS_FOR_MAJORITY_OVERRIDE <=? total_peers_checked p) && (0 <? peer_support_count p)
  && f64_le SUPERMAJORITY_THRESHOLD (f64_div (f64_of_Z (peer_support_count p)) (f64_of_Z (total_peers_checked p))).
(** A peer at most ten blocks shorter whose first diverging block has the lower hash. *)
Definition minority_rollback (p : ForkResolutionParams) : bool :=
  (our_height p - peer_height p <=? MAX_MINORITY_FORK_GAP)
  && match our_fork_block_hash p, peer_fork_block_hash p with
     | Some ours, Some peer => bytes_ltb peer ours
     | _, _ => false
     end.
Definition tiebreak (p : ForkResolutionParams) : ForkResolution :=
  match our_fork_block_hash p, peer_fork_block_hash p with
  | Some ours, Some peer =>
      if bool_decide (peer = ours) then mkResolution false SameForkBlock else mkResolution (bytes_ltb peer ours) ForkPointTie
  | _, _ =>
      match our_tip_hash p, peer_tip_hash p with
      | Some ours, Some peer =>
          if bool_decide (peer = ours) then mkResolution false SameTip else mkResolution (bytes_ltb peer ours) TipTie
      | _, _ => mkResolution false NoData
      end
  end.
Definition resolve_fork (now : Z) (p : ForkResolutionParams) : ForkResolution :=
  if match peer_tip_timestamp p with Some ts => now + TIMESTAMP_TOLERANCE_SECS <? ts | None => false end
  then mkResolution false FutureTip
  else if our_height p <? peer_height p then mkResolution true PeerLonger
  else if peer_height p <? our_height p then
    (if minority_rollback p then mkResolution true MinorityRollback else mkResolution false OursLonger)
  else if supermajority p then mkResolution true Supermajority
  else tiebreak p.

(** ** Validation of a candidate chain *)

Inductive fork_error :=
| NoForkBlocks | NotOnAncestor (h : Z) | ForkHeight (expected got : Z) | Predates (h : Z) | FutureBlock (h : Z)
| NotConsistent (h : Z) | ForkMerkle (h : Z) | ForkUnserializable (h : Z) | ForkTooLarge (h : Z) | DeepReorg (depth : Z)
| NeedDeeperHistory (lowest : Z) | InsufficientHistory (lowest : Z) | AncestorUnreadable (h : Z).

Section resolver.
Context `{Externals} `{BlockExternals}.

Definition validate_fork_block (now genesis expected_height : Z) (expected_prev : option Hash256) (b : Block) : result fork_error () :=
  let h := header b in
  fail_if negb (bh_height h =? expected_height) with ForkHeight expected_height (bh_height h) in
  fail_if bh_timestamp h <? genesis with Predates (bh_height h) in
  fail_if now + TIMESTAMP_TOLERANCE_SECS <? bh_timestamp h with FutureBlock (bh_height h) in
  fail_if match expected_prev with Some prev => negb (bool_decide (previous_hash h = prev)) | None => false end
    with NotConsistent (bh_height h) in
  fail_if negb (merkle_ok b) with ForkMerkle (bh_height h) in
  let? serialized := ok_or (ForkUnserializable (bh_height h)) (block_bincode b) in
  fail_if MAX_BLOCK_SIZE <? Z.of_nat (length serialized) with ForkTooLarge (bh_height h) in
  Ok tt.
Fixpoint validate_fork_from (now genesis expected_height : Z) (expected_prev : option Hash256) (blocks : list Block) : result fork_error () :=
  match blocks with
  | [] => Ok tt
  | b :: blocks =>
      let? u := validate_fork_block now genesis expected_height expected_prev b in
      validate_fork_from now genesis (add64 expected_height 1) (Some (hash b)) blocks
  end.
Definition validate_fork_chain (ancestor : Z) (ancestor_hash : option Hash256) (blocks : list Block) (now genesis : Z) : result fork_error () :=
  match blocks with
  | [] => Err NoForkBlocks
  | first :: _ =>
      fail_if match ancestor_hash with Some a => negb (bool_decide (previous_hash (header first) = a)) | None => false end
        with NotOnAncestor (bh_height (header first)) in
      validate_fork_from now genesis (add64 ancestor 1) ancestor_hash blocks
  end.

Definition check_reorg_depth (fork_depth : Z) : result fork_error () :=
  fail_if MAX_REORG_DEPTH <? fork_depth with DeepReorg fork_depth in Ok tt.

(** ** The last common block *)

Definition height_leb (a b : Block) : bool := bh_height (header a) <=? bh_height (header b).
Definition block_of_height (bs : list Block) (h : Z) : option Block := snd <$> list_find (λ b, bh_height (header b) = h) bs.
Definition hashes_by_height (bs : list Block) : gmap Z Hash256 := foldl (λ m b, <[bh_height (header b) := hash b]> m) ∅ bs.

Section ancestor.
Context (ours : Z → option Hash256) (bs : list Block) (peers : gmap Z Hash256).

(** The highest height at which the peer's block is ours, or whose successor builds on ours. *)
Definition matches_at (h : Z) : bool :=
  match ours h with
  | None => false
  | Some our_hash =>
      match peers !! h with
      | Some peer_hash => bool_decide (our_hash = peer_hash)
      | None => match block_of_height bs (add64 h 1) with
                | Some next => bool_decide (previous_hash (header next) = our_hash)
                | None => false
                end
      end
  end.
Fixpoint search_down (n : nat) : Z :=
  if matches_at (Z.of_nat n) then Z.of_nat n else match n with O => 0 | Datatypes.S n => search_down n end.

(** Below a candidate that the peer's next block does not build on. *)
Definition links_at (h : Z) : bool :=
  match ours h, peers !! h with
  | Some our_hash, Some peer_hash =>
      bool_decide (our_hash = peer_hash)
      && match block_of_height bs (h + 1) with Some next => bool_decide (ours h = Some (previous_hash (header next))) | None => true end
  | _, _ => false
  end.
Fixpoint search_back (n : nat) : option Z :=
  match n with
  | O => None
  | Datatypes.S n => if links_at (Z.of_nat n) then Some (Z.of_nat n) else search_back n
  end.
End ancestor.

Definition find_common_ancestor (height : Z) (competing : list Block) (ours : Z → option Hash256) : result fork_error Z :=
  match sort_by height_leb competing with
  | [] => Ok 0
  | first :: rest =>
      let bs := first :: rest in
      let peers := hashes_by_height bs in
      let top := bh_height (header (List.last bs first)) in
      let lowest := bh_height (header first) in
      let a := Z.min (search_down ours bs peers (Z.to_nat height)) height in
      let finish := if (a =? 0) && (100 <? lowest) then Err (InsufficientHistory lowest) else Ok a in
      if a <? top then
        match ours a with
        | None => Err (AncestorUnreadable a)
        | Some our_hash =>
            match block_of_height bs (a + 1) with
            | Some next =>
                if bool_decide (our_hash = previous_hash (header next)) then finish
                else match search_back ours bs peers (Z.to_nat a) with
                     | Some h => Ok h
                     | None => if 100 <? lowest then Err (NeedDeeperHistory lowest) else Ok 0
                     end
            | None => finish
            end
        end
      else finish
  end.
End resolver.
