(* ===== verification/ForkProofs.v ===== *)
(** * Properties of fork choice

    The authority rule picks one winner among any set of chains that all nodes see alike;
    the resolver's rules for two nodes that look at each other; the search for a common
    ancestor finds the fork point of two chains. *)

From Stdlib Require Import ZArith Lia Ascii String.
From stdpp Require Import base gmap strings list sorting.
From S2P Require Import Prelude Types Instances Address BlockTypes Float64 Chain ForkChoice.

(** ** The authority rule is a strict total order *)

Definition view_key (v : chain_view) : list Z :=
  [level_rank (highest_tier (cv_authority v)); authority_score (cv_authority v); total_count (cv_authority v); cv_work v; cv_height v].
Definition switches (ours peer : chain_view) : bool := (should_switch_to_peer_chain ours peer).1.

(** The first field that differs decides the comparison of keys. *)
Ltac key_differs :=
  cbn [negb fst]; rewrite decide_False by (intros E; simplify_eq); rewrite bool_decide_false by (intros E; simplify_eq); rewrite andb_true_r;
  match goal with N : ?x ≠ ?y |- _ => rewrite (proj2 (Z.eqb_neq y x)) by congruence end.

Lemma switches_key o p :
  switches o p = if decide (view_key p = view_key o) then bytes_ltb (cv_tip p) (cv_tip o) else bytes_ltb (view_key o) (view_key p).
Proof.
  destruct o as [[t1 ? ? ? ? ? n1 s1] w1 h1 k1], p as [[t2 ? ? ? ? ? n2 s2] w2 h2 k2].
  unfold switches, should_switch_to_peer_chain, compare_authority, view_key, bytes_ltb.
  cbn [highest_tier authority_score total_count cv_authority cv_work cv_height cv_tip bytes_leb].
  destruct (bool_decide_reflect (t2 = t1)) as [->|Nt]; cbn [negb].
  2:{ assert (level_rank t1 ≠ level_rank t2) by (intros E%level_rank_inj; by destruct Nt).
      clear Nt. assert (level_rank t2 ≠ level_rank t1) by done. by key_differs. }
  rewrite !Z.eqb_refl.
  destruct (Z.eqb_spec s2 s1) as [->|]; [rewrite !Z.eqb_refl|by key_differs].
  destruct (Z.eqb_spec n2 n1) as [->|]; [rewrite !Z.eqb_refl|by key_differs].
  destruct (Z.eqb_spec w2 w1) as [->|]; [rewrite !Z.eqb_refl|by key_differs].
  destruct (Z.eqb_spec h2 h1) as [->|]; [by rewrite decide_True|by key_differs].
Qed.

Lemma switches_asym o p : switches o p = true → switches p o = false.
Proof.
  rewrite !switches_key. destruct (decide (view_key p = view_key o)) as [E|N].
  - rewrite decide_True by done. apply bytes_ltb_asym.
  - rewrite decide_False by congruence. apply bytes_ltb_asym.
Qed.
Lemma switches_total o p : cv_tip o ≠ cv_tip p → switches o p = false → switches p o = true.
Proof.
  intros Ht. rewrite !switches_key. destruct (decide (view_key p = view_key o)) as [E|N].
  - rewrite decide_True by done. by apply bytes_ltb_total.
  - rewrite decide_False by congruence. by apply bytes_ltb_total.
Qed.
Lemma switches_trans a b c : switches a b = true → switches b c = true → switches a c = true.
Proof.
  rewrite !switches_key. destruct (decide (view_key b = view_key a)) as [Eab|Nab], (decide (view_key c = view_key b)) as [Ebc|Nbc].
  - rewrite decide_True by congruence. intros. by eapply bytes_ltb_trans.
  - rewrite decide_False by congruence. intros. congruence.
  - rewrite decide_False by congruence. intros. congruence.
  - intros Hab Hbc. pose proof (bytes_ltb_trans _ _ _ Hab Hbc) as Hac. rewrite decide_False; [done|].
    intros E. rewrite E in Hac. by rewrite bytes_ltb_irrefl in Hac.
Qed.

(** C20: Fork choice by masternode authority picks one winner: among any chains with
    different tips that all nodes see alike, there is exactly one that nobody leaves and
    that every node on another chain switches to. *)
Theorem authority_one_winner vs : vs ≠ [] → NoDup (cv_tip <$> vs) →
  ∃ w, w ∈ vs ∧ ∀ v, v ∈ vs → v ≠ w →
    (should_switch_to_peer_chain v w).1 = true ∧ (should_switch_to_peer_chain w v).1 = false.
Proof.
  intros Hne Hnd. change (∃ w, w ∈ vs ∧ ∀ v, v ∈ vs → v ≠ w → switches v w = true ∧ switches w v = false).
  induction vs as [|v vs IH]; [done|]. apply NoDup_cons in Hnd as [Hv Hnd].
  destruct vs as [|v' vs']; [exists v; split; [by left|]; intros u [->|[]%elem_of_nil]%elem_of_cons; done|].
  destruct IH as (w & Hw & Hbest); [done..|].
  assert (cv_tip v ≠ cv_tip w) as Hvw by (intros E; apply Hv; rewrite E; by apply (list_elem_of_fmap_2 cv_tip (v' :: vs'))).
  destruct (switches w v) eqn:E.
  - exists v. split; [by left|]. intros u [->|Hu]%elem_of_cons; [done|]. intros _. assert (switches u v = true) as Huv.
    { destruct (decide (u = w)) as [->|Nu]; [done|]. eapply switches_trans; [by apply Hbest|done]. }
    split; [done|]. by apply switches_asym.
  - exists w. split; [by right|]. intros u [->|Hu]%elem_of_cons; [|by apply Hbest].
    intros _. split; [apply switches_total; congruence|done].
Qed.

(** ** Two nodes that resolve a fork between them *)

(** What [p]'s peer sees: the same two chains from the other side. *)
Definition mirrors (p q : ForkResolutionParams) : Prop :=
  our_height q = peer_height p ∧ peer_height q = our_height p
  ∧ our_fork_block_hash q = peer_fork_block_hash p ∧ peer_fork_block_hash q = our_fork_block_hash p.
Definition tip_not_future (now : Z) (p : ForkResolutionParams) : Prop :=
  match peer_tip_timestamp p with Some ts => ts ≤ now + TIMESTAMP_TOLERANCE_SECS | None => True end.
Lemma resolve_not_future now p : tip_not_future now p → resolve_fork now p =
  if our_height p <? peer_height p then mkResolution true PeerLonger
  else if peer_height p <? our_height p then (if minority_rollback p then mkResolution true MinorityRollback else mkResolution false OursLonger)
  else if supermajority p then mkResolution true Supermajority else tiebreak p.
Proof. unfold tip_not_future, resolve_fork. destruct (peer_tip_timestamp p); [|done]. intros. by rewrite (proj2 (Z.ltb_ge _ _)). Qed.

Section resolution.
Context (p q : ForkResolutionParams) (now now' : Z) (ours peer : Hash256).
Context (Hmirror : mirrors p q) (Hours : our_fork_block_hash p = Some ours) (Hpeer : peer_fork_block_hash p = Some peer).
Context (Hdiff : ours ≠ peer) (Hp : tip_not_future now p) (Hq : tip_not_future now' q).

(** Two nodes that resolve the fork between them: at equal heights, without a supermajority
    on either side, exactly the one with the higher hash at the fork gives way; at different
    heights the shorter one always gives way, and the longer one gives way as well exactly
    when it is at most ten blocks ahead and has the higher hash at the fork. *)
Theorem fork_sides_agree :
  (our_height p < peer_height p →
     accept_peer_chain (resolve_fork now p) = true ∧
     (accept_peer_chain (resolve_fork now' q) = true ↔ peer_height p - our_height p ≤ MAX_MINORITY_FORK_GAP ∧ bytes_ltb ours peer = true)) ∧
  (our_height p = peer_height p → supermajority p = false → supermajority q = false →
     accept_peer_chain (resolve_fork now p) = bytes_ltb peer ours ∧
     accept_peer_chain (resolve_fork now' q) = negb (bytes_ltb peer ours)).
Proof.
  destruct Hmirror as (E1 & E2 & E3 & E4). rewrite (resolve_not_future now p), (resolve_not_future now' q) by done.
  rewrite E1, E2. split.
  - intros Hlt. rewrite (proj2 (Z.ltb_lt _ _)), (proj2 (Z.ltb_ge _ _)) by lia. split; [done|].
    unfold minority_rollback. rewrite E1, E2, E3, E4, Hours, Hpeer.
    destruct (Z.leb_spec (peer_height p - our_height p) MAX_MINORITY_FORK_GAP); cbn; [|split; [done|lia]].
    destruct (bytes_ltb ours peer); naive_solver.
  - intros Heq Sp Sq. rewrite !(proj2 (Z.ltb_ge _ _)) by lia. rewrite Sp, Sq. unfold tiebreak. rewrite E3, E4, Hours, Hpeer.
    rewrite !bool_decide_false by done. cbn. split; [done|].
    destruct (bytes_ltb peer ours) eqn:E; [by apply bytes_ltb_asym|]. by apply bytes_ltb_total.
Qed.
End resolution.

(** ** The search for the common ancestor *)

Section ancestor_proofs.
Context `{Externals} `{BlockExternals}.

Definition height_of (b : Block) : Z := bh_height (header b).
Definition unique_heights (bs : list Block) : Prop := ∀ b b', b ∈ bs → b' ∈ bs → height_of b = height_of b' → b = b'.

Lemma block_of_height_spec bs h b : unique_heights bs → block_of_height bs h = Some b ↔ b ∈ bs ∧ height_of b = h.
Proof.
  intros Hu. unfold block_of_height. rewrite fmap_Some. split.
  - intros ([i b'] & (Hl & Hh & _)%list_find_Some & ->). cbn. split; [by eapply list_elem_of_lookup_2|done].
  - intros [Hb Hh]. destruct (list_find (λ b, bh_height (header b) = h) bs) as [[i b']|] eqn:E.
    + apply list_find_Some in E as (Hl & Hh' & _). exists (i, b'). split; [done|]. cbn. apply Hu; [done|by eapply list_elem_of_lookup_2|].
      unfold height_of in *. congruence.
    + apply list_find_None in E. rewrite Forall_forall in E. by destruct (E b Hb).
Qed.
Lemma hashes_by_height_spec bs h : unique_heights bs → hashes_by_height bs !! h = hash <$> block_of_height bs h.
Proof.
  unfold hashes_by_height. induction bs as [|b bs IH] using rev_ind; intros Hu; [done|].
  assert (unique_heights bs) as Hu' by (intros x y Hx Hy; apply Hu; apply elem_of_app; by left).
  rewrite foldl_snoc. destruct (decide (height_of b = h)) as [<-|N].
  - rewrite (proj2 (block_of_height_spec _ (height_of b) b Hu)); [by rewrite lookup_insert_eq|]. split; [|done].
    apply elem_of_app. right. by left.
  - rewrite lookup_insert_ne by done. rewrite (IH Hu'). f_equal. apply option_eq. intros b'. rewrite !block_of_height_spec by done.
    rewrite elem_of_app, list_elem_of_singleton. naive_solver.
Qed.
Lemma height_leb_total a b : height_leb a b = false → height_leb b a = true.
Proof. unfold height_leb. lia. Qed.
Lemma height_leb_trans : Transitive height_leb.
Proof. intros a b c. unfold height_leb. rewrite !Is_true_true. lia. Qed.
Lemma sorted_first_last first rest b : StronglySorted height_leb (first :: rest) → b ∈ first :: rest →
  height_of first ≤ height_of b ≤ height_of (List.last (first :: rest) first).
Proof.
  intros Hs Hb. split.
  - apply StronglySorted_cons in Hs as [Hf _]. apply elem_of_cons in Hb as [->|Hb]; [done|].
    rewrite Forall_forall in Hf. specialize (Hf b Hb). apply Is_true_true in Hf. unfold height_leb, height_of in *. lia.
  - clear -Hs Hb. revert first b Hs Hb. induction rest as [|x rest IH]; intros first b Hs Hb.
    { apply list_elem_of_singleton in Hb as ->. cbn. lia. }
    apply StronglySorted_cons in Hs as [Hf Hs].
    replace (List.last (first :: x :: rest) first) with (List.last (x :: rest) x).
    2:{ cbn [List.last]. destruct rest as [|y rest]; [done|]. clear. revert y. induction rest as [|z rest IH]; intros y; [done|]. apply IH. }
    apply elem_of_cons in Hb as [->|Hb]; [|by apply IH].
    apply Forall_cons in Hf as [Hx _]. apply Is_true_true in Hx. specialize (IH x x Hs (list_elem_of_here _ _)).
    unfold height_leb, height_of in *. lia.
Qed.

Lemma last_in (b : Block) bs : List.last (b :: bs) b ∈ b :: bs.
Proof. apply list_elem_of_In. destruct (exists_last (l := b :: bs)) as (l & x & E); [done|]. rewrite E, List.last_last. apply List.in_app_iff. right. by left. Qed.
Lemma search_down_at ours bs peers n a : 0 ≤ a ≤ Z.of_nat n → matches_at ours bs peers a = true →
  (∀ h, a < h ≤ Z.of_nat n → matches_at ours bs peers h = false) → search_down ours bs peers n = a.
Proof.
  induction n as [|n IH]; intros Ha Hm Hno; cbn [search_down].
  - assert (a = Z.of_nat 0) as -> by lia. by rewrite Hm.
  - destruct (decide (a = Z.of_nat (S n))) as [->|N]; [by rewrite Hm|]. rewrite Hno by lia. apply IH; [lia|done|].
    intros h Hh. apply Hno. lia.
Qed.

(** The blocks a peer sent are heights [lo] to [hi] of a linked chain, in any order. *)
Record peer_segment (peer : Z → Block) (lo hi : Z) (bs : list Block) : Prop := mkSegment {
  seg_heights : ∀ h, lo ≤ h ≤ hi → height_of (peer h) = h;
  seg_blocks : ∀ b, b ∈ bs ↔ ∃ h, lo ≤ h ≤ hi ∧ b = peer h;
  seg_linked : ∀ h, lo < h ≤ hi → previous_hash (header (peer h)) = hash (peer (h - 1));
  seg_range : 0 ≤ lo ≤ hi ∧ hi < U64;
}.
(** Height [a] is the last at which the two chains agree: the block there is the same, or
    the first block of the segment builds on ours, and above it all blocks differ. *)
Record fork_point (ours : Z → option Hash256) (height : Z) (peer : Z → Block) (lo hi a : Z) : Prop := mkForkPoint {
  fp_range : 0 ≤ a ≤ height ∧ lo - 1 ≤ a ≤ hi ∧ height < U64 - 1;
  fp_same : lo ≤ a → ours a = Some (hash (peer a));
  fp_builds : a = lo - 1 → ours a = Some (previous_hash (header (peer lo)));
  fp_above : ∀ h, a < h ≤ hi → ours h ≠ Some (hash (peer h));
}.

Section found.
Context (peer : Z → Block) (lo hi : Z) (bs : list Block) (Hseg : peer_segment peer lo hi bs).
Context (ours : Z → option Hash256) (height a : Z) (Hfork : fork_point ours height peer lo hi a).

Lemma segment_unique : unique_heights bs.
Proof.
  destruct Hseg as [Hh Hb _ _]. intros b b' (h & Hr & ->)%Hb (h' & Hr' & ->)%Hb. rewrite !Hh by done. by intros ->.
Qed.
Lemma segment_lookup h : block_of_height bs h = if decide (lo ≤ h ≤ hi) then Some (peer h) else None.
Proof.
  pose proof segment_unique as Hu. destruct Hseg as [Hh Hb _ _]. apply option_eq. intros b.
  rewrite block_of_height_spec, Hb by done. case_decide as D; split.
  - intros [(h' & Hr & ->) E]. rewrite Hh in E by done. by subst.
  - intros [= <-]. split; [by exists h|by apply Hh].
  - intros [(h' & Hr & ->) E]. rewrite Hh in E by done. subst. lia.
  - done.
Qed.
Lemma segment_match h : 0 ≤ h ≤ height → a ≤ h → matches_at ours bs (hashes_by_height bs) h = bool_decide (h = a).
Proof.
  intros Hr Hah. pose proof segment_unique as Hu. unfold matches_at. rewrite hashes_by_height_spec, !segment_lookup by done.
  destruct Hfork as [(F1 & F2 & F3) Fs Fb Fa], Hseg as [Sh Sb Sl Sr].
  rewrite add64_small by (unfold U64 in *; lia). destruct (decide (h = a)) as [->|N].
  - rewrite (bool_decide_true (a = a)) by done. destruct (decide (lo ≤ a)) as [L|L].
    + rewrite (Fs L). rewrite decide_True by lia. cbn. by apply bool_decide_true.
    + assert (a = lo - 1) as E by lia. rewrite (Fb E). rewrite (decide_False (P := lo ≤ a ≤ hi)), decide_True by lia. cbn.
      apply bool_decide_true. do 3 f_equal. lia.
  - rewrite (bool_decide_false (h = a)) by done. destruct (ours h) as [oh|] eqn:Eo; [|done]. case_decide as D; cbn.
    + apply bool_decide_false. intros ->. by apply (Fa h); [lia|].
    + by rewrite decide_False by lia.
Qed.
End found.

Lemma segment_sorted peer lo hi bs : peer_segment peer lo hi bs → peer_segment peer lo hi (sort_by height_leb bs).
Proof. intros [? Hb ? ?]. split; [done| |done..]. intros b. by rewrite sort_by_perm. Qed.

(** C21: The search for the common ancestor finds the fork point: for blocks of a linked
    peer chain given in any order (and repeated), it returns the last height at which both
    chains agree, whether the agreeing block was sent or only built upon. *)
Theorem common_ancestor_found peer lo hi bs ours height a :
  peer_segment peer lo hi bs → fork_point ours height peer lo hi a → find_common_ancestor height bs ours = Ok a.
Proof.
  intros Hseg%segment_sorted Hfork. unfold find_common_ancestor.
  assert (Hs : StronglySorted height_leb (sort_by height_leb bs)).
  { apply Sorted_StronglySorted; [apply height_leb_trans|apply sort_by_sorted, height_leb_total]. }
  pose proof (segment_match _ _ _ _ Hseg _ _ _ Hfork) as Hm. pose proof (segment_lookup _ _ _ _ Hseg) as Hl.
  destruct Hfork as [(F1 & F2 & F3) Fs Fb Fa], Hseg as [Sh Sb Sl Sr].
  assert (peer lo ∈ sort_by height_leb bs) as Hlo by (apply Sb; exists lo; split; [lia|done]).
  assert (peer hi ∈ sort_by height_leb bs) as Hhi by (apply Sb; exists hi; split; [lia|done]).
  destruct (sort_by height_leb bs) as [|first rest]; [by apply elem_of_nil in Hlo|].
  set (top := List.last (first :: rest) first) in *.
  assert (height_of first = lo) as Elo.
  { destruct (sorted_first_last _ _ _ Hs Hlo) as [H1' _]. rewrite Sh in H1' by lia.
    destruct (proj1 (Sb first) (list_elem_of_here _ _)) as (h & Hh & Ef). pose proof (Sh h Hh). rewrite <- Ef in *. lia. }
  assert (height_of top = hi) as Ehi.
  { destruct (sorted_first_last _ _ _ Hs Hhi) as [_ H1']. rewrite Sh in H1' by lia.
    assert (top ∈ first :: rest) as Ht by apply last_in. apply Sb in Ht as (h & Hh & Et). pose proof (Sh h Hh). rewrite <- Et in *. unfold top in *. lia. }
  unfold height_of in Elo, Ehi. rewrite Elo, Ehi.
  rewrite (search_down_at _ _ _ _ a); cycle 1.
  { lia. } { rewrite Hm by lia. by apply bool_decide_true. } { intros h Hh. rewrite Hm by lia. apply bool_decide_false. lia. }
  rewrite Z.min_l by lia. replace ((a =? 0) && (100 <? lo)) with false by lia.
  destruct (Z.ltb_spec a hi) as [Hlt|]; [|done].
  assert (ours a = Some (previous_hash (header (peer (a + 1))))) as Ea.
  { destruct (decide (lo ≤ a)) as [L|L]; [rewrite Sl, (Fs L) by lia; do 4 f_equal; lia|]. rewrite Fb by lia. do 4 f_equal. lia. }
  rewrite Ea, Hl, decide_True, bool_decide_true by (done || lia). done.
Qed.
End ancestor_proofs.
