(* ===== verification/Reorg.v ===== *)
(** * Fork handling and reorganization (src/blockchain.rs)

    [ForkNode] is the chain with the fields that fork handling keeps: the resolution state,
    the genesis flag, the cooldown, the timer of the finality lock and the history of
    reorganizations.  What the registry of peers answers during a call is a [PeerView], with
    one list of chain tips for each time the code asks; requests, marks and bans that a call
    sends to peers are events.  [now] is the wall clock in seconds, [inst] the monotonic
    clock in nanoseconds. *)

From Stdlib Require Import ZArith Lia Ascii String.
From stdpp Require Import base gmap strings list.
From S2P Require Import Prelude Types Instances Address Storage UtxoManager TransactionPool BlockVotes.
From S2P Require Import Lru BlockTypes BlockVrf BlockCache BlockLedger Governance Registry Reward Utf8 Genesis TxValidation Consensus.
From S2P Require Import Chain ChainApply ForkChoice.

Definition FORK_RESOLUTION_BATCH_SIZE : Z := 20.
Definition NANOS : Z := 1000000000.

Inductive ForkResolutionState :=
| FNone
| FetchingChain (ancestor fork_height : Z) (peer : string) (tip fetched_up_to : Z) (accumulated : list Block) (started : Z)
| ReadyToReorg (ancestor : Z) (alternate : list Block) (started : Z)
| Reorging (from_height to_height started : Z).
Record ReorgMetrics := mkMetrics { rm_timestamp : Z; rm_from : Z; rm_to : Z; rm_ancestor : Z; rm_removed : Z; rm_added : Z }.
Inductive fork_event :=
| GetBlocks (peer : string) (from to : Z) | MarkIncompatible (peer : string) | TempBan (peer : string) (secs : Z).

Inductive reorg_error :=
| BelowConfirmed (ancestor confirmed : Z) | ShorterChain (current proposed : Z) | Preflight (e : fork_error) | FewRecipients (h : Z)
| RollbackFailed (e : chain_error) | Diverged (h : Z) | ParentUnreadable (h : Z) | AddFailed (h : Z) (e : chain_error)
| StoredChanged (h : Z) | StoredMissing (h : Z)
| NoBlocks | TipUnreadable | RequestFailed | NoReorgBlocks | AncestorMissing | FirstBlockMismatch (h : Z) | InFuture (h : Z)
| TooHigh (h max : Z) | NonContiguous (h : Z).
Inductive incoming_error :=
| BadEncoding (h : Z) | GenesisMismatch | BadGenesis (e : genesis_error) | PrematureGenesis | SparseGenesis | StoreFailed (e : chain_error)
| TipMissing | ForkPrev (h : Z) | ForkSameHeight (h : Z) | Invalid (e : block_error) | NotAdded (e : chain_error).

Record PeerView := mkPeers {
  has_registry : bool;
  tips_support : list (Z * Hash256);
  tips_check : list (Z * Hash256);
  tips_lock : list (Z * Hash256);
  sender_whitelisted : bool;
  sender_genesis_ok : bool;
  request_sent : bool;
}.

Section reorg.
Context {S : Type} `{UtxoStorage S} `{MapIter} `{Externals} `{BlockExternals} `{!BlockCodec} `{LegacyCodec} `{Zstd} `{LruCrate}.
Context `{TxExternals} `{PoolCodec} `{VrfExternals} `{GovCodec}.

Record ForkNode := mkNode {
  chain : Blockchain (S := S);
  fork_state : ForkResolutionState;
  genesis_mismatch_detected : bool;
  fork_resolution_blocked_until : Z;
  finality_lock_blocked_since : option (Z * Z);
  reorg_history : list ReorgMetrics;
  consensus_peers : list string;
  sent : list fork_event;
}.
Implicit Types n : ForkNode.
Implicit Types c : Blockchain (S := S).

Definition set_chain c n := mkNode c (fork_state n) (genesis_mismatch_detected n) (fork_resolution_blocked_until n)
  (finality_lock_blocked_since n) (reorg_history n) (consensus_peers n) (sent n).
Definition set_fork_state (s : ForkResolutionState) n := mkNode (chain n) s (genesis_mismatch_detected n)
  (fork_resolution_blocked_until n) (finality_lock_blocked_since n) (reorg_history n) (consensus_peers n) (sent n).
Definition set_mismatch n := mkNode (chain n) (fork_state n) true (fork_resolution_blocked_until n)
  (finality_lock_blocked_since n) (reorg_history n) (consensus_peers n) (sent n).
Definition set_blocked_until (t : Z) n := mkNode (chain n) (fork_state n) (genesis_mismatch_detected n) t
  (finality_lock_blocked_since n) (reorg_history n) (consensus_peers n) (sent n).
Definition set_blocked_since (o : option (Z * Z)) n := mkNode (chain n) (fork_state n) (genesis_mismatch_detected n)
  (fork_resolution_blocked_until n) o (reorg_history n) (consensus_peers n) (sent n).
Definition set_history (l : list ReorgMetrics) n := mkNode (chain n) (fork_state n) (genesis_mismatch_detected n)
  (fork_resolution_blocked_until n) (finality_lock_blocked_since n) l (consensus_peers n) (sent n).
Definition clear_consensus_peers n := mkNode (chain n) (fork_state n) (genesis_mismatch_detected n)
  (fork_resolution_blocked_until n) (finality_lock_blocked_since n) (reorg_history n) [] (sent n).
Definition emit (e : fork_event) n := mkNode (chain n) (fork_state n) (genesis_mismatch_detected n)
  (fork_resolution_blocked_until n) (finality_lock_blocked_since n) (reorg_history n) (consensus_peers n) (sent n ++ [e]).

(** ** Comparing with a peer *)

Definition detect_fork c (peer_height : Z) (peer_tip : Hash256) : option Z :=
  let check := Z.min (current_height c) peer_height in
  if check =? 0 then None
  else if bool_decide (get_block_hash c check = Some peer_tip) && (check =? peer_height) then None
  else Some check.

(** Without a stored entry the work is counted from the stored blocks. *)
Definition get_work_at_height c (h : Z) : Z :=
  match chain_work_db c !! h with
  | Some e => cw_cumulative e
  | None => foldl (λ w h, match block_at c h with Some b => add128 w (calculate_block_work b) | None => w end) 0 (heights_to h)
  end.

Definition should_switch_by_work c (connected listed : option (string → bool)) (peer_work peer_height : Z) (peer_tip : Hash256)
    (peer_ip : option string) : bool :=
  let our_work := cumulative_work c in
  let our_height := current_height c in
  let by_work :=
    (our_work <? peer_work) || ((peer_work =? our_work) && (our_height <? peer_height))
    || ((peer_work =? our_work) && (peer_height =? our_height)
        && match block_at c our_height with Some tip => bytes_ltb peer_tip (hash tip) | None => false end) in
  match peer_ip, block_at c our_height with
  | Some ip, Some tip =>
      if Z.abs (peer_height - our_height) <=? 2 then
        let active := get_active_masternodes (registry c) in
        (should_switch_to_peer_chain (mkView (analyze_our_chain_authority active connected listed) our_work our_height (hash tip))
           (mkView (analyze_peer_chain_authority [ip] active listed) peer_work peer_height peer_tip)).1
      else by_work
  | _, _ => by_work
  end.

(** ** [perform_reorg] *)

Fixpoint apply_alternate (now : Z) c (blocks : list Block) : Blockchain * result reorg_error () :=
  match blocks with
  | [] => (c, Ok tt)
  | b :: blocks =>
      let h := bh_height (header b) in
      match (if 0 <? h then match get_block_hash c (h - 1) with
                            | Some prev => if bool_decide (prev = previous_hash (header b)) then Ok tt else Err (Diverged h)
                            | None => Err (ParentUnreadable h)
                            end
             else Ok tt) with
      | Err e => (c, Err e)
      | Ok _ =>
          match add_block now c b with
          | (c, Err e) => (c, Err (AddFailed h e))
          | (c, Ok _) =>
              match get_block_hash c h with
              | None => (c, Err (StoredMissing h))
              | Some stored => if bool_decide (stored = hash b) then apply_alternate now c blocks else (c, Err (StoredChanged h))
              end
          end
      end
  end.

Definition preflight_recipients (blocks : list Block) : result reorg_error () :=
  match list_find (λ b, (1 <=? bh_height (header b)) && negb (enough_recipients b) = true) blocks with
  | Some (_, b) => Err (FewRecipients (bh_height (header b)))
  | None => Ok tt
  end.
Definition reorg_checks (now : Z) c (ancestor : Z) (blocks : list Block) : result reorg_error () :=
  let new_height := add64 ancestor (Z.of_nat (length blocks)) in
  fail_if ancestor <? confirmed_height c with BelowConfirmed ancestor (confirmed_height c) in
  fail_if new_height <? current_height c with ShorterChain (current_height c) new_height in
  let? u := map_err Preflight (validate_fork_chain ancestor (get_block_hash c ancestor) blocks now (genesis_timestamp (bc_network c))) in
  preflight_recipients blocks.
Definition push_metrics (m : ReorgMetrics) (l : list ReorgMetrics) : list ReorgMetrics :=
  let l := l ++ [m] in if (100 <? length l)%nat then drop 1 l else l.
Definition perform_reorg (now inst : Z) n (ancestor : Z) (blocks : list Block) : ForkNode * result reorg_error () :=
  let our_height := current_height (chain n) in
  let new_height := add64 ancestor (Z.of_nat (length blocks)) in
  match reorg_checks now (chain n) ancestor blocks with
  | Err e => (n, Err e)
  | Ok _ =>
      let n := set_fork_state (Reorging our_height new_height inst) n in
      let n := set_chain (set_confirmed ancestor (chain n)) n in
      match rollback_to_height now (chain n) ancestor with
      | (c, Err e) => (set_chain c n, Err (RollbackFailed e))
      | (c, Ok _) =>
          match apply_alternate now c blocks with
          | (c, Err e) => (set_chain c n, Err e)
          | (c, Ok _) =>
              (set_history (push_metrics (mkMetrics now our_height new_height ancestor (sat_sub our_height ancestor) (sat_sub new_height ancestor))
                              (reorg_history n)) (set_chain c n), Ok tt)
          end
      end
  end.

(** ** [handle_fork]: collecting the peer's blocks *)

Definition max_height (d : Z) (blocks : list Block) : Z :=
  match bh_height ∘ header <$> blocks with [] => d | h :: hs => foldl Z.max h hs end.
Definition min_height (d : Z) (blocks : list Block) : Z :=
  match bh_height ∘ header <$> blocks with [] => d | h :: hs => foldl Z.min h hs end.

(** Older blocks of the same peer are kept where the new ones have none at their height and
    the next block, if there is one, builds on them. *)
Definition merge_block (all : list Block) (b : Block) : list Block :=
  let h := bh_height (header b) in
  if existsb (λ b', bh_height (header b') =? h) all then all
  else if match block_of_height all (add64 h 1) with Some next => bool_decide (previous_hash (header next) = hash b) | None => true end
  then all ++ [b] else all.
Definition collect_blocks n (peer : string) (blocks : list Block) (fork_height : Z) : list Block * Z :=
  match fork_state n with
  | FetchingChain _ _ p tip _ acc _ =>
      if String.eqb p peer then (foldl merge_block blocks acc, tip) else (blocks, max_height fork_height blocks)
  | _ => (blocks, max_height fork_height blocks)
  end.
(** [min_by_key] returns the first minimum, [max_by_key] the last maximum. *)
Definition lowest_block (blocks : list Block) : option Block := block_of_height blocks (min_height 0 blocks).
Definition highest_block (blocks : list Block) : option Block := block_of_height (reverse blocks) (max_height 0 blocks).
Definition lowest_connects c (blocks : list Block) : bool :=
  match lowest_block blocks with
  | Some lb => bool_decide (get_block_hash c (sat_sub (bh_height (header lb)) 1) = Some (previous_hash (header lb)))
  | None => false
  end.

(** [request_blocks_from_peer]. *)
Definition request_blocks (v : PeerView) n (peer : string) (from to : Z) : ForkNode * result reorg_error () :=
  if has_registry v && request_sent v then (emit (GetBlocks peer from to) n, Ok tt) else (n, Err RequestFailed).

Definition fetch_older (inst : Z) (v : PeerView) n (peer : string) (fork_height tip lowest floor : Z) (all : list Block)
    : ForkNode * result reorg_error () :=
  let '(stalled, started) :=
    match fork_state n with
    | FetchingChain _ _ _ _ _ acc t => ((min_height (U64 - 1) acc <=? lowest) && (60 * NANOS <? inst - t), Some t)
    | _ => (false, None)
    end in
  if stalled then (set_fork_state FNone n, Ok tt)
  else
    let request_to := sat_sub lowest 1 in
    let request_from := Z.max (sat_sub request_to (FORK_RESOLUTION_BATCH_SIZE - 1)) floor in
    if request_to <? request_from then (set_fork_state FNone n, Ok tt)
    else request_blocks v (set_fork_state (FetchingChain 0 fork_height peer tip tip all (default inst started)) n) peer request_from request_to.

(** ** [handle_fork]: the decision *)

Definition count_tips (f : Z * Hash256 → bool) (tips : list (Z * Hash256)) : Z := Z.of_nat (length (filter (λ t, f t = true) tips)).
Definition is_tip (h : Z) (tip : Hash256) (t : Z * Hash256) : bool := (t.1 =? h) && bool_decide (t.2 = tip).

(** A peer whose genesis is known to differ is marked and suspended; without a genesis block
    to compare with, the registry of peers is asked. *)
Definition genesis_check (now : Z) (v : PeerView) n (peer : string) (all : list Block) : ForkNode * bool :=
  match block_of_height all 0 with
  | Some g =>
      if bool_decide (take 8 <$> get_block_hash (chain n) 0 = Some (take 8 (hash g))) then (n, true)
      else
        let n := if has_registry v then emit (MarkIncompatible peer) n else n in
        (set_chain (set_registry (suspend_from_consensus now (registry (chain n)) peer).1 (chain n)) n, true)
  | None => (n, negb (has_registry v) || sender_genesis_ok v)
  end.

Definition MIN_PEERS_FOR_ONDEMAND_FORK : Z := 3.
Definition seconds_past_schedule (now : Z) c : Z :=
  Z.max 0 (now - (genesis_timestamp (bc_network c) + (current_height c + 1) * BLOCK_TIME_SECONDS)).
Definition effective_min_peers (now : Z) c (ours_fork peer_fork : option Hash256) (our_tip peer_tip : Hash256) : Z :=
  let favors := match peer_fork, ours_fork with Some p, Some o => bytes_ltb p o | _, _ => bytes_ltb peer_tip our_tip end in
  if favors then 1 else if BLOCK_TIME_SECONDS * 2 <? seconds_past_schedule now c then 1 else MIN_PEERS_FOR_ONDEMAND_FORK.
(** The cross-check of a fork that is not longer than our chain. *)
Definition cross_check (now : Z) (v : PeerView) c (tip : Z) (ours_fork peer_fork : option Hash256) (our_tip peer_tip : Hash256) : bool :=
  if current_height c <? tip then true
  else if negb (has_registry v) then true
  else
    let need := effective_min_peers now c ours_fork peer_fork our_tip peer_tip in
    let supporting := count_tips (λ t, is_tip tip peer_tip t || (current_height c <? t.1)) (tips_check v) in
    negb ((need <=? Z.of_nat (length (tips_check v))) && (supporting <? need)).

Definition decide_fork (now : Z) (v : PeerView) c (ancestor tip peer_ts : Z) (our_tip peer_tip : Hash256) (all : list Block) : bool :=
  let first_diverge := add64 ancestor 1 in
  let ours_fork := get_block_hash c first_diverge in
  let peer_fork := hash <$> block_of_height all first_diverge in
  let '(support, total) :=
    if (tip =? current_height c) && has_registry v
    then (count_tips (is_tip tip peer_tip) (tips_support v), Z.of_nat (length (tips_support v))) else (0, 0) in
  accept_peer_chain (resolve_fork now (mkForkParams (current_height c) tip (Some peer_ts) (Some our_tip) (Some peer_tip)
    (Some ancestor) ours_fork peer_fork support total))
  && cross_check now v c tip ours_fork peer_fork our_tip peer_tip
  && negb (current_height c <? ancestor).

(** ** [handle_fork]: the finality lock *)

Definition FINALITY_LOCK_ESCAPE_SECS : Z := 300.
Definition FINALITY_LOCK_LONGER_CHAIN_ESCAPE_SECS : Z := 60.
Definition MIN_SAME_HEIGHT_CONSENSUS_PEERS : Z := 2.
Definition lock_override (inst : Z) (v : PeerView) n (ancestor tip : Z) (peer_tip : Hash256) : bool :=
  let our_height := current_height (chain n) in
  let on_peer_chain t := is_tip tip peer_tip t || (tip <? t.1) in
  let supporting := count_tips on_peer_chain (tips_lock v) in
  let ahead := count_tips (λ t, (our_height <? t.1) || on_peer_chain t) (tips_lock v) in
  let blocked := match finality_lock_blocked_since n with
                 | Some (a, t) => if a =? ancestor then (inst - t) / NANOS else 0
                 | None => 0
                 end in
  let majority := (1 <=? supporting) && (0 <? ahead) && (ahead <? supporting * 2) in
  has_registry v
  && (((tip =? our_height) && (MIN_SAME_HEIGHT_CONSENSUS_PEERS <=? supporting))
      || majority
      || ((our_height <? tip) && (FINALITY_LOCK_LONGER_CHAIN_ESCAPE_SECS <=? blocked) && majority)
      || ((FINALITY_LOCK_ESCAPE_SECS <=? blocked) && (1 <=? supporting) && (0 <? ahead))
      || ((our_height <? tip) && (10 <=? blocked) && sender_whitelisted v)).
(** Lowers the lock, or starts the timer and the cooldown; [false] stops the resolution. *)
Definition pass_finality_lock (now inst : Z) (v : PeerView) n (ancestor tip : Z) (peer_tip : Hash256) : ForkNode * bool :=
  if negb (ancestor <? confirmed_height (chain n)) then (n, true)
  else if lock_override inst v n ancestor tip peer_tip
  then (set_chain (set_confirmed ancestor (chain n)) (set_blocked_since None n), true)
  else
    let since := match finality_lock_blocked_since n with
                 | Some (a, t) => if a =? ancestor then Some (a, t) else Some (ancestor, inst)
                 | None => Some (ancestor, inst)
                 end in
    (clear_consensus_peers (set_fork_state FNone (set_blocked_until (sat_add now 120) (set_blocked_since since n))), false).

(** ** [handle_fork]: applying the decision *)

Definition predates (e : reorg_error) : bool :=
  match e with Preflight (Predates _) | AddFailed _ (PreGenesis _) => true | _ => false end.
Fixpoint contiguous (blocks : list Block) : result reorg_error () :=
  match blocks with
  | prev :: (curr :: _) as rest =>
      fail_if negb (bool_decide (previous_hash (header curr) = hash prev)) with NonContiguous (bh_height (header curr)) in contiguous rest
  | _ => Ok tt
  end.
Definition first_missing (blocks : list Block) (from to : Z) : Z :=
  default to (head (filter (λ h, h ∉ (bh_height ∘ header <$> blocks)) (seqZ from (to - from + 1)))).

Definition reorg_to (now inst : Z) (v : PeerView) n (peer : string) (ancestor tip : Z) (peer_tip : Hash256) (sorted : list Block)
    : ForkNode * result reorg_error () :=
  match pass_finality_lock now inst v n ancestor tip peer_tip with
  | (n, false) => (n, Ok tt)
  | (n, true) =>
      let n := set_fork_state (Reorging (current_height (chain n)) (max_height 0 sorted) inst) n in
      let '(n, r) := perform_reorg now inst n ancestor sorted in
      let n := clear_consensus_peers (set_fork_state FNone n) in
      (match r with Err e => if predates e then emit (TempBan peer 3600) n else n | Ok _ => n end, r)
  end.
Definition check_and_reorg (now inst : Z) (v : PeerView) n (peer : string) (ancestor tip : Z) (peer_tip : Hash256) (blocks : list Block)
    : ForkNode * result reorg_error () :=
  let sorted := sort_by height_leb blocks in
  match get_block_hash (chain n) ancestor, sorted with
  | None, _ | _, [] => (n, Err AncestorMissing)
  | Some our_ancestor, first :: _ =>
      if negb (bool_decide (previous_hash (header first) = our_ancestor)) then
        if ancestor =? 0 then (set_fork_state FNone (set_mismatch n), Ok tt)
        else (n, Err (FirstBlockMismatch (bh_height (header first))))
      else
        match list_find (λ b, (now + TIMESTAMP_TOLERANCE_SECS <? bh_timestamp (header b)) = true) sorted with
        | Some (_, b) => (set_fork_state FNone n, Err (InFuture (bh_height (header b))))
        | None =>
            let most := calculate_expected_height (bc_network (chain n)) now in
            if most <? max_height 0 sorted then (set_fork_state FNone n, Err (TooHigh (max_height 0 sorted) most))
            else match contiguous sorted with
                 | Err e => (n, Err e)
                 | Ok _ => reorg_to now inst v n peer ancestor tip peer_tip sorted
                 end
        end
  end.
Definition adopt_chain (now inst : Z) (v : PeerView) n (peer : string) (fork_height ancestor tip : Z) (peer_tip : Hash256) (all : list Block)
    : ForkNode * result reorg_error () :=
  let blocks := filter (λ b, ancestor < bh_height (header b)) all in
  let start := add64 ancestor 1 in
  let fetching acc := set_fork_state (FetchingChain ancestor fork_height peer tip tip acc inst) n in
  match blocks with
  | [] => if start <=? tip then request_blocks v (fetching all) peer start tip else (n, Err NoReorgBlocks)
  | _ =>
      if negb (min_height 0 blocks =? start) then request_blocks v (fetching blocks) peer start tip
      else if Z.of_nat (length blocks) <? sub64 tip ancestor
      then request_blocks v (fetching blocks) peer (first_missing blocks start tip) tip
      else check_and_reorg now inst v n peer ancestor tip peer_tip blocks
  end.

Definition resolve_with (now inst : Z) (v : PeerView) n (peer : string) (fork_height ancestor tip : Z) (all : list Block)
    : ForkNode * result reorg_error () :=
  match highest_block all with
  | None => (n, Ok tt)
  | Some top =>
      let our_height := current_height (chain n) in
      match get_block_hash (chain n) our_height with
      | None => (n, Err TipUnreadable)
      | Some our_tip =>
          let '(n, compatible) := if (ancestor =? 0) && (0 <? our_height) then genesis_check now v n peer all else (n, true) in
          if negb compatible then (set_fork_state FNone n, Ok tt)
          else if is_err (check_reorg_depth (sat_sub our_height ancestor)) then (set_fork_state FNone n, Ok tt)
          else if decide_fork now v (chain n) ancestor tip (bh_timestamp (header top)) our_tip (hash top) all
          then adopt_chain now inst v n peer fork_height ancestor tip (hash top) all
          else (set_fork_state FNone n, Ok tt)
      end
  end.

(** Whether the call may proceed: no other resolution is under way and the cooldown is over,
    or the blocks continue the peer's own fetch. *)
Definition fetching_from n (peer : string) : bool :=
  match fork_state n with FetchingChain _ _ p _ _ _ _ => String.eqb p peer | _ => false end.
Definition may_resolve (now : Z) n (peer : string) : bool :=
  negb (genesis_mismatch_detected n)
  && (negb (now <? fork_resolution_blocked_until n) || fetching_from n peer)
  && match fork_state n with
     | FNone => true
     | FetchingChain _ _ p _ _ _ _ => String.eqb p peer
     | ReadyToReorg _ _ _ | Reorging _ _ _ => false
     end.
Definition handle_fork (now inst : Z) (v : PeerView) n (blocks : list Block) (peer : string) : ForkNode * result reorg_error () :=
  match blocks with
  | [] => (n, Err NoBlocks)
  | b0 :: _ =>
      if negb (may_resolve now n peer) then (n, Ok tt)
      else
        let fork_height := bh_height (header b0) in
        let our_height := current_height (chain n) in
        let '(all, tip) := collect_blocks n peer blocks fork_height in
        let lowest := min_height fork_height all in
        let floor := sat_sub our_height MAX_REORG_DEPTH in
        if (floor <? lowest) && (0 <? floor) && negb (lowest_connects (chain n) all)
        then fetch_older inst v n peer fork_height tip lowest floor all
        else match find_common_ancestor our_height all (get_block_hash (chain n)) with
             | Ok ancestor => resolve_with now inst v n peer fork_height ancestor tip all
             | Err _ => request_blocks v (set_fork_state (FetchingChain 0 fork_height peer tip tip all inst) n) peer floor tip
             end
  end.

(** ** Blocks from the network *)

Definition MIN_GENESIS_MASTERNODES : Z := 3.
(** The checks of a genesis block that is not stored yet. *)
Definition check_incoming_genesis (now : Z) c (b : Block) : result incoming_error () :=
  let? u := map_err BadGenesis (verify_structure b) in
  let? u := map_err BadGenesis (verify_timestamp b (bc_network c)) in
  fail_if now <? genesis_timestamp (bc_network c) with PrematureGenesis in
  fail_if negb (bool_decide (masternode_rewards b = []))
          && (Z.min (tier_total (masternode_tiers (header b))) (as_u32 (Z.of_nat (length (masternode_rewards b)))) <? MIN_GENESIS_MASTERNODES)
    with SparseGenesis in
  map_err BadGenesis (verify_checkpoint b (bc_network c)).
Definition add_genesis (now : Z) c (b : Block) : Blockchain * result incoming_error bool :=
  match block_db c !! 0, block_at c 0 with
  | Some _, Some existing => (c, if bool_decide (hash existing = hash b) then Ok false else Err GenesisMismatch)
  | _, _ =>
      match check_incoming_genesis now c b with
      | Err e => (c, Err e)
      | Ok _ =>
          match save_block (set_bc_utxo (process_block_utxos now (bc_utxo c) b).1 c) b true with
          | (c, Ok _) => (c, Ok true)
          | (c, Err e) => (c, Err (StoreFailed e))
          end
      end
  end.
Definition append_block (now : Z) c (b : Block) : Blockchain * result incoming_error bool :=
  match get_block_hash c (current_height c) with
  | None => (c, Err TipMissing)
  | Some prev =>
      if negb (bool_decide (previous_hash (header b) = prev)) then (c, Err (ForkPrev (bh_height (header b))))
      else match validate_block (bc_network c) now (current_height c) b (Some prev) with
           | Err e => (c, Err (Invalid e))
           | Ok _ => match add_block now c b with (c, Ok _) => (c, Ok true) | (c, Err e) => (c, Err (NotAdded e)) end
           end
  end.
(** The lowest height of the gap that ends at [n]. *)
Fixpoint gap_start c (n : nat) : Z :=
  match n with
  | O => 0
  | Datatypes.S n' => match block_at c (Z.of_nat n') with Some _ => Z.of_nat n | None => gap_start c n' end
  end.
(** A height below the tip that is not stored: the block is saved when it fits its parent;
    without a parent, the range that is missing is to be requested. *)
Definition fill_gap (now : Z) c (b : Block) : Blockchain * option (Z * Z) * result incoming_error bool :=
  let h := bh_height (header b) in
  match block_at c (h - 1) with
  | None => (c, Some (gap_start c (Z.to_nat (h - 1)), current_height c), Ok false)
  | Some prev =>
      if negb (bool_decide (previous_hash (header b) = hash prev)) then (c, None, Ok false)
      else match validate_block (bc_network c) now (current_height c) b (Some (hash prev)) with
           | Err e => (c, None, Err (Invalid e))
           | Ok _ => match save_block c b true with (c, Ok _) => (c, None, Ok true) | (c, Err e) => (c, None, Err (StoreFailed e)) end
           end
  end.
Definition add_known_height (now : Z) c (b : Block) : Blockchain * option (Z * Z) * result incoming_error bool :=
  match block_at c (bh_height (header b)) with
  | Some existing => (c, None, if bool_decide (hash existing = hash b) then Ok false else Err (ForkSameHeight (bh_height (header b))))
  | None => fill_gap now c b
  end.
(** [first_peer] is the connected peer that a missing range is requested from. *)
Definition add_block_with_fork_handling (now : Z) (first_peer : option string) n (b : Block) : ForkNode * result incoming_error bool :=
  let h := bh_height (header b) in
  let c := chain n in
  let on_chain (x : Blockchain * result incoming_error bool) := (set_chain x.1 n, x.2) in
  match block_bincode b with
  | None => (n, Err (BadEncoding h))
  | Some _ =>
      match fork_state n with
      | Reorging _ _ _ | ReadyToReorg _ _ _ => (n, Ok false)
      | _ =>
          if h =? 0 then on_chain (add_genesis now c b)
          else if negb (bool_decide (is_Some (block_db c !! 0))) then (n, Ok false)
          else if h =? add64 (current_height c) 1 then on_chain (append_block now c b)
          else if h <=? current_height c then
            let '(c, missing, r) := add_known_height now c b in
            let n := set_chain c n in
            (match missing, first_peer with Some (from, to), Some p => emit (GetBlocks p from to) n | _, _ => n end, r)
          else (n, Ok false)
      end
  end.
End reorg.
