(* ===== verification/ReorgProofs.v ===== *)
(** * Reorganizations are exact and keep the chain complete and linked

    What [perform_reorg] does when it succeeds, and the invariant of the chain through any
    history of its own operations, incoming blocks and fork handling. *)

From Stdlib Require Import ZArith Lia Ascii String.
From stdpp Require Import base gmap strings list.
From S2P Require Import Prelude Types Instances Address Storage UtxoManager TransactionPool BlockVotes.
From S2P Require Import Lru BlockTypes BlockVrf BlockCache BlockLedger Governance Registry Reward Utf8 Genesis TxValidation Consensus.
From S2P Require Import Chain ChainApply ChainProofs ChainLedger ForkChoice Reorg.

Section reorg_proofs.
Context {S : Type} `{UtxoStorage S} `{MapIter} `{Externals} `{BlockExternals} `{!BlockCodec} `{LegacyCodec} `{Zstd} `{LruCrate}.
Context `{TxExternals} `{PoolCodec} `{VrfExternals} `{GovCodec} `{!BlockCodecLaws} `{!BlockFormat}.
Implicit Types c : Blockchain (S := S).
Implicit Types n : ForkNode (S := S).

Definition plain (b : Block) : Prop := bh_version (header b) ≠ ZSTD_VERSION ∧ bh_height (header b) < U64.

(** ** Steps of a reorganization *)

Lemma new_tip_low c b c' h : new_tip c b c' → h ≤ current_height c → block_at c' h = block_at c h.
Proof.
  intros [(bt & d & prev & _ & _ & _ & _ & Edb & _) Hn _] Hh. unfold block_at. rewrite Edb.
  by rewrite lookup_insert_ne by lia.
Qed.
Lemma add_block_low now c b h : plain b → chain_inv c → h ≤ current_height c → block_at (add_block now c b).1 h = block_at c h.
Proof.
  intros [Hv _] Hi Hh. destruct (add_block_outcome now c b Hv Hi) as [[_ Ec]|[_ Ht]]; [by rewrite (core_block_at _ c)|by eapply new_tip_low].
Qed.

Lemma rollback_low now c t bypass h : h ≤ t → block_at (rollback_to_height_impl now c t bypass).1 h = block_at c h.
Proof.
  intros Hh. unfold rollback_to_height_impl. destruct (Z.leb_spec (current_height c) t); [done|].
  destruct (match find_last_checkpoint_before c _ with Some _ => _ | None => _ end); [done|]. destruct (_ && _); [done|]. cbv zeta.
  pose proof (undo_blocks_core (heights_down t (current_height c)) (c, [])) as E. destruct (foldl undo_block _ _) as [c1 txs]. cbn [fst] in *.
  match goal with |- block_at (set_current_height _ (set_height_db _ ?x)) h = _ => change (block_at x h = block_at c h) end.
  rewrite remove_blocks_at, decide_False by (rewrite heights_down_elem; lia).
  rewrite (core_block_at _ c); [done|]. rewrite foldl_core by apply undo_special_core. by rewrite foldl_core.
Qed.
Lemma rollback_height now c t x : (rollback_to_height now c t).2 = Ok x → current_height (rollback_to_height now c t).1 = Z.min t (current_height c).
Proof.
  unfold rollback_to_height, rollback_to_height_impl. destruct (Z.leb_spec (current_height c) t); [cbn; intros; lia|].
  destruct (match find_last_checkpoint_before c _ with Some _ => _ | None => _ end); [done|]. destruct (_ && _); [done|]. cbv zeta.
  destruct (foldl undo_block _ _) as [c1 txs]. intros _. cbn. lia.
Qed.

Lemma apply_alternate_spec now blocks c : chain_inv c → Forall plain blocks →
  let r := apply_alternate now c blocks in
  chain_inv r.1 ∧ (∀ h, h ≤ current_height c → block_at r.1 h = block_at c h)
  ∧ (r.2 = Ok tt → current_height r.1 = current_height c + Z.of_nat (length blocks)
       ∧ ∀ i b, blocks !! i = Some b → bh_height (header b) = current_height c + 1 + Z.of_nat i
           ∧ get_block_hash r.1 (bh_height (header b)) = Some (hash b)).
Proof.
  revert c. induction blocks as [|b blocks IH]; intros c Hi Hp; cbn [apply_alternate].
  { split_and!; [done..|]. intros _. split; [cbn; lia|done]. }
  apply Forall_cons in Hp as [Hb Hp]. cbv zeta.
  destruct (if 0 <? _ then _ else _) as [[]|]; [|by split_and!].
  pose proof (add_block_inv now c b (proj1 Hb) (proj2 Hb) Hi) as Hi'. pose proof (add_block_low now c b) as Hlow.
  pose proof (add_block_outcome now c b (proj1 Hb) Hi) as Ho.
  destruct (add_block now c b) as [c' [u|]]; cbn [fst snd] in *; [|split_and!; [done| |done]; intros; by apply Hlow].
  destruct Ho as [[? _]|[_ Ht]]; [done|].
  assert (current_height c' = current_height c + 1) as Hh by (rewrite (nt_height _ _ _ Ht); apply (nt_next _ _ _ Ht)).
  destruct (get_block_hash c' _) as [stored|] eqn:Es; [|split_and!; [done| |done]; intros; by apply Hlow].
  destruct (bool_decide_reflect (stored = hash b)) as [->|]; [|split_and!; [done| |done]; intros; by apply Hlow].
  destruct (IH c' Hi' Hp) as (J1 & J2 & J3). split; [done|]. split; [intros h Hle; rewrite J2 by lia; by apply Hlow|].
  intros Hok. destruct (J3 Hok) as [J4 J5]. split; [cbn [length]; lia|]. intros [|i] x Hx; cbn in Hx.
  - injection Hx as <-. pose proof (nt_next _ _ _ Ht). split; [lia|]. unfold get_block_hash in *. rewrite J2 by lia. exact Es.
  - destruct (J5 i x Hx) as [J6 J7]. split; [lia|done].
Qed.

Lemma chain_inv_confirmed c x : chain_inv (set_confirmed x c) ↔ chain_inv c.
Proof. split; apply chain_inv_core; done. Qed.

(** ** [perform_reorg] *)

Lemma reorg_checks_ok now c ancestor blocks : reorg_checks now c ancestor blocks = Ok tt ↔
  confirmed_height c ≤ ancestor ∧ current_height c ≤ add64 ancestor (Z.of_nat (length blocks))
  ∧ validate_fork_chain ancestor (get_block_hash c ancestor) blocks now (genesis_timestamp (bc_network c)) = Ok tt
  ∧ preflight_recipients blocks = Ok tt.
Proof.
  unfold reorg_checks. cbv zeta. rewrite !fail_ok_iff, let_ok_iff, map_err_ok_iff, !Z.ltb_ge. done.
Qed.
Lemma validated_first ancestor prev blocks now genesis : validate_fork_chain ancestor prev blocks now genesis = Ok tt →
  ∃ b rest, blocks = b :: rest ∧ bh_height (header b) = add64 ancestor 1.
Proof.
  unfold validate_fork_chain. destruct blocks as [|b rest]; [done|]. rewrite fail_ok_iff. intros [_ Hv]. exists b, rest. split; [done|].
  cbn in Hv. rewrite let_ok_iff in Hv. destruct Hv as [Hv _]. unfold validate_fork_block in Hv. cbv zeta in Hv. rewrite fail_ok_iff in Hv. lia.
Qed.

Lemma perform_reorg_spec now inst n ancestor blocks : 0 ≤ ancestor ≤ current_height (chain n) → chain_inv (chain n) → Forall plain blocks →
  let r := perform_reorg now inst n ancestor blocks in
  chain_inv (chain r.1) ∧ (∀ h, h ≤ Z.max ancestor (confirmed_height (chain n)) → block_at (chain r.1) h = block_at (chain n) h)
  ∧ (r.2 = Ok tt →
       confirmed_height (chain n) ≤ ancestor
       ∧ current_height (chain r.1) = ancestor + Z.of_nat (length blocks)
       ∧ current_height (chain n) ≤ current_height (chain r.1)
       ∧ ∀ i b, blocks !! i = Some b → bh_height (header b) = ancestor + 1 + Z.of_nat i
           ∧ get_block_hash (chain r.1) (bh_height (header b)) = Some (hash b)).
Proof.
  intros Ha Hi Hp. cbv zeta. unfold perform_reorg. destruct (reorg_checks _ _ _ _) as [[]|] eqn:Hc; [|done].
  apply reorg_checks_ok in Hc as (Hc & Hs & _). rewrite Z.max_l by lia. cbn [chain set_chain set_fork_state].
  set (c1 := set_confirmed ancestor (chain n)). assert (chain_inv c1) as Hi1 by (by apply chain_inv_confirmed).
  assert (∀ h, block_at c1 h = block_at (chain n) h) as E1 by done. assert (current_height c1 = current_height (chain n)) as Eh by done. clearbody c1.
  pose proof (rollback_inv now c1 ancestor false (proj1 Ha) Hi1) as Hi2. pose proof (rollback_low now c1 ancestor false) as Hlow.
  pose proof (rollback_height now c1 ancestor) as Hh. unfold rollback_to_height in *.
  destruct (rollback_to_height_impl now c1 ancestor false) as [c2 [x|]]; cbn [fst snd] in *.
  2:{ split_and!; [done| |done]. intros h Hle. by rewrite Hlow. }
  specialize (Hh x eq_refl). rewrite Z.min_l in Hh by lia.
  destruct (apply_alternate_spec now blocks c2 Hi2 Hp) as (J1 & J2 & J3). rewrite Hh in *.
  assert (∀ h, h ≤ ancestor → block_at (apply_alternate now c2 blocks).1 h = block_at (chain n) h) as Hall
    by (intros h Hle; rewrite J2, Hlow by lia; apply E1).
  destruct (apply_alternate now c2 blocks) as [c3 [[]|]]; cbn [fst snd chain set_chain set_history] in *; [|by split_and!].
  split_and!; [done..|]. intros _. destruct (J3 eq_refl) as [J4 J5]. split_and!; [done|done| |done].
  pose proof (ci_height c3 J1). rewrite add64_small in Hs by lia. lia.
Qed.

(** C11: A reorganization that succeeds replaces exactly the blocks above the common
    ancestor: it stays above the finality lock, keeps every block up to the ancestor, holds
    each alternate block at its height, never ends lower than it started, and leaves a
    complete and linked chain. *)
Theorem reorg_exact now inst n ancestor blocks n' : chain_inv (chain n) → 0 ≤ ancestor ≤ current_height (chain n) → Forall plain blocks →
  perform_reorg now inst n ancestor blocks = (n', Ok tt) →
  confirmed_height (chain n) ≤ ancestor
  ∧ (∀ h, h ≤ ancestor → block_at (chain n') h = block_at (chain n) h)
  ∧ (∀ i b, blocks !! i = Some b → get_block_hash (chain n') (ancestor + 1 + Z.of_nat i) = Some (hash b))
  ∧ current_height (chain n') = ancestor + Z.of_nat (length blocks) ∧ current_height (chain n) ≤ current_height (chain n')
  ∧ (∀ h, is_Some (block_at (chain n') h) ↔ 0 ≤ h ≤ current_height (chain n'))
  ∧ ∀ h b b', block_at (chain n') h = Some b → block_at (chain n') (h + 1) = Some b' → previous_hash (header b') = hash b.
Proof.
  intros Hi Ha Hp Hr. destruct (perform_reorg_spec now inst n ancestor blocks Ha Hi Hp) as (J1 & J2 & J3). rewrite Hr in *. cbn [fst snd] in *.
  destruct (J3 eq_refl) as (K1 & K2 & K3 & K4). split_and!; [done| | |done|done| |apply (ci_linked _ J1)].
  - intros h Hle. apply J2. lia.
  - intros i b Hb. destruct (K4 i b Hb) as [<- K5]. exact K5.
  - intros h. by apply block_at_stored.
Qed.

(** ** [handle_fork] *)

(** Between calls no reorganization is under way, and what has been fetched is plain. *)
Definition resting (s : ForkResolutionState) : Prop :=
  match s with FNone => True | FetchingChain _ _ _ _ _ acc _ => Forall plain acc | _ => False end.
(** The chain stays good; blocks up to [x] stay; the state is at rest again. *)
Record kept (x : Z) n n' : Prop := mkKept {
  kp_chain : chain_inv (chain n');
  kp_blocks : ∀ h, h ≤ x → block_at (chain n') h = block_at (chain n) h;
  kp_state : resting (fork_state n');
}.
Lemma kept_core x n n' : chain_inv (chain n) → core (chain n') = core (chain n) → resting (fork_state n') → kept x n n'.
Proof. intros Hi Ec Hr. split; [by eapply chain_inv_core|intros; by rewrite (core_block_at _ _ Ec)|done]. Qed.
Lemma kept_trans x n1 n2 n3 : (∀ h, h ≤ x → block_at (chain n2) h = block_at (chain n1) h) → kept x n2 n3 → kept x n1 n3.
Proof. intros E [K1 K2 K3]. split; [done| |done]. intros h Hh. by rewrite K2, E. Qed.

Lemma merge_plain acc blocks : Forall plain blocks → Forall plain acc → Forall plain (foldl merge_block blocks acc).
Proof.
  revert blocks. induction acc as [|b acc IH]; intros blocks Hb Ha; [done|]. apply Forall_cons in Ha as [Hx Ha]. cbn. apply IH; [|done].
  unfold merge_block. cbv zeta. destruct (existsb _ _); [done|]. destruct (match block_of_height _ _ with Some _ => _ | None => _ end); [|done].
  apply Forall_app. by split; [|constructor].
Qed.
Lemma collect_plain n peer blocks fh : resting (fork_state n) → Forall plain blocks → Forall plain (collect_blocks n peer blocks fh).1.
Proof.
  intros Hr Hb. unfold collect_blocks. destruct (fork_state n) as [|? ? p ? ? acc ?| |]; try done.
  destruct (String.eqb p peer); [by apply merge_plain|done].
Qed.
Lemma sorted_plain blocks : Forall plain blocks → Forall plain (sort_by height_leb blocks).
Proof. rewrite !Forall_forall. intros Hb b Hin. apply Hb. by rewrite sort_by_perm in Hin. Qed.

Lemma request_kept x v n n0 peer from to : chain_inv (chain n0) → core (chain n) = core (chain n0) → resting (fork_state n) →
  kept x n0 (request_blocks v n peer from to).1.
Proof. intros. unfold request_blocks. destruct (_ && _); by apply kept_core. Qed.

(** The blocks that stay: up to the confirmed height, or up to the ancestor where the lock
    is lowered. *)
Definition spares (x inst : Z) (v : PeerView) n (ancestor tip : Z) (peer_tip : Hash256) : Prop :=
  x ≤ Z.max ancestor (confirmed_height (chain n)) ∧ (lock_override inst v n ancestor tip peer_tip = true → x ≤ ancestor).

Lemma reorg_to_kept x now inst v n peer ancestor tip peer_tip blocks : chain_inv (chain n) → resting (fork_state n) →
  0 ≤ ancestor ≤ current_height (chain n) → Forall plain blocks → spares x inst v n ancestor tip peer_tip →
  kept x n (reorg_to now inst v n peer ancestor tip peer_tip blocks).1.
Proof.
  intros Hi Hr Ha Hp [Hx Hlock]. unfold reorg_to, pass_finality_lock.
  assert (∀ n1, block_at (chain n1) = block_at (chain n) → current_height (chain n1) = current_height (chain n) → chain_inv (chain n1) →
    x ≤ Z.max ancestor (confirmed_height (chain n1)) →
    let m := set_fork_state (Reorging (current_height (chain n1)) (max_height 0 blocks) inst) n1 in
    kept x n (let '(n, r) := perform_reorg now inst m ancestor blocks in
       let n := clear_consensus_peers (set_fork_state FNone n) in
       (match r with Err e => if predates e then emit (TempBan peer 3600) n else n | Ok _ => n end, r)).1) as Hgo.
  { intros n1 E1 E2 Hi1 Hx1. cbv zeta. set (m := set_fork_state _ n1).
    destruct (perform_reorg_spec now inst m ancestor blocks) as (J1 & J2 & _); [by rewrite <- E2 in Ha|done|done|].
    destruct (perform_reorg now inst m ancestor blocks) as [n2 r]. cbn [fst] in *.
    assert (kept x n (clear_consensus_peers (set_fork_state FNone n2))) as [K1 K2 K3].
    { split; [done| |done]. intros h Hh. cbn. rewrite J2 by (cbn; lia). by rewrite <- E1. }
    destruct r as [?|e]; [by split|]. destruct (predates e); by split. }
  destruct (Z.ltb_spec ancestor (confirmed_height (chain n))) as [Hlt|Hge]; cbn [negb].
  - destruct (lock_override inst v n ancestor tip peer_tip) eqn:El; [|by apply kept_core].
    apply Hgo; [done..|by apply chain_inv_confirmed|]. cbn. specialize (Hlock eq_refl). lia.
  - apply Hgo; [done..|]. lia.
Qed.

Lemma check_and_reorg_kept x now inst v n peer ancestor tip peer_tip blocks : chain_inv (chain n) → resting (fork_state n) →
  0 ≤ ancestor ≤ current_height (chain n) → Forall plain blocks → spares x inst v n ancestor tip peer_tip →
  kept x n (check_and_reorg now inst v n peer ancestor tip peer_tip blocks).1.
Proof.
  intros Hi Hr Ha Hp%sorted_plain Hx. unfold check_and_reorg. cbv zeta.
  destruct (get_block_hash _ _), (sort_by height_leb blocks) as [|first rest]; try by apply kept_core.
  destruct (negb _); [destruct (ancestor =? 0); by apply kept_core|].
  destruct (list_find _ _) as [[i b]|]; [by apply kept_core|]. destruct (_ <? _); [by apply kept_core|].
  destruct (contiguous _); [|by apply kept_core]. by apply reorg_to_kept.
Qed.
Lemma adopt_kept x now inst v n peer fh ancestor tip peer_tip all : chain_inv (chain n) → resting (fork_state n) →
  0 ≤ ancestor ≤ current_height (chain n) → Forall plain all → spares x inst v n ancestor tip peer_tip →
  kept x n (adopt_chain now inst v n peer fh ancestor tip peer_tip all).1.
Proof.
  intros Hi Hr Ha Hp Hx. unfold adopt_chain. cbv zeta.
  assert (Forall plain (filter (λ b, ancestor < bh_height (header b)) all)) as Hf by (by apply Forall_filter).
  destruct (filter _ all) as [|b blocks]; [destruct (_ <=? _); [by apply request_kept|by apply kept_core]|].
  destruct (negb _); [by apply request_kept|]. destruct (_ <? _); [by apply request_kept|]. by apply check_and_reorg_kept.
Qed.

Lemma genesis_check_chain now v n peer all : let r := genesis_check now v n peer all in
  core (chain r.1) = core (chain n) ∧ confirmed_height (chain r.1) = confirmed_height (chain n)
  ∧ fork_state r.1 = fork_state n ∧ finality_lock_blocked_since r.1 = finality_lock_blocked_since n.
Proof.
  unfold genesis_check. cbv zeta. destruct (block_of_height all 0); [|done]. destruct (bool_decide _); [done|].
  by destruct (has_registry v).
Qed.
Lemma lock_override_ext inst v n n' ancestor tip peer_tip : current_height (chain n') = current_height (chain n) →
  finality_lock_blocked_since n' = finality_lock_blocked_since n →
  lock_override inst v n' ancestor tip peer_tip = lock_override inst v n ancestor tip peer_tip.
Proof. intros E1 E2. unfold lock_override. by rewrite E1, E2. Qed.

Lemma resolve_with_kept x now inst v n peer fh ancestor tip all : chain_inv (chain n) → resting (fork_state n) → 0 ≤ ancestor →
  Forall plain all → (∀ top, highest_block all = Some top → spares x inst v n ancestor tip (hash top)) →
  kept x n (resolve_with now inst v n peer fh ancestor tip all).1.
Proof.
  intros Hi Hr Ha Hp Hx. unfold resolve_with. destruct (highest_block all) as [top|]; [|by apply kept_core].
  specialize (Hx top eq_refl). cbv zeta. destruct (get_block_hash (chain n) _) as [our_tip|]; [|by apply kept_core].
  set (g := if _ && _ then genesis_check now v n peer all else (n, true)).
  assert (core (chain g.1) = core (chain n) ∧ confirmed_height (chain g.1) = confirmed_height (chain n)
    ∧ fork_state g.1 = fork_state n ∧ finality_lock_blocked_since g.1 = finality_lock_blocked_since n) as (E1 & E2 & E3 & E4).
  { unfold g. destruct (_ && _); [apply genesis_check_chain|done]. }
  destruct g as [n1 ok]. cbn [fst] in *. assert (chain_inv (chain n1)) as Hi1 by (by eapply chain_inv_core).
  assert (current_height (chain n1) = current_height (chain n)) as Eh by (by injection E1).
  apply (kept_trans x n n1); [intros; by rewrite (core_block_at _ _ E1)|].
  destruct (negb ok); [by apply kept_core|]. destruct (is_err _); [by apply kept_core|].
  destruct (decide_fork _ _ _ _ _ _ _ _ _) eqn:Ed; [|by apply kept_core].
  unfold decide_fork in Ed. cbv zeta in Ed. repeat case_match. apply andb_true_iff in Ed as [_ Ed].
  all: apply adopt_kept; [done|by rewrite E3|lia|done|].
  all: destruct Hx as [Hx1 Hx2]; split; [by rewrite E2|]; by rewrite (lock_override_ext inst v n).
Qed.

Lemma search_down_range ours bs peers k : 0 ≤ search_down ours bs peers k.
Proof. induction k as [|k IH]; cbn [search_down]; destruct (matches_at _ _ _ _); lia. Qed.
Lemma search_back_range ours bs peers k h : search_back ours bs peers k = Some h → 0 ≤ h.
Proof. induction k as [|k IH]; cbn [search_back]; [done|]. destruct (links_at _ _ _ _); [|done]. intros [= <-]. lia. Qed.
Lemma ancestor_range height bs ours a : 0 ≤ height → find_common_ancestor height bs ours = Ok a → 0 ≤ a.
Proof.
  intros Hh. unfold find_common_ancestor. destruct (sort_by height_leb bs) as [|first rest]; [naive_solver lia|]. cbv zeta.
  pose proof (search_down_range ours (first :: rest) (hashes_by_height (first :: rest)) (Z.to_nat height)) as Hd.
  destruct (_ <? _).
  - destruct (ours _); [|done]. destruct (block_of_height _ _); [|destruct (_ && _); [done|]; naive_solver lia].
    destruct (bool_decide _); [destruct (_ && _); [done|]; naive_solver lia|].
    destruct (search_back _ _ _ _) eqn:E; [apply search_back_range in E; naive_solver|]. destruct (100 <? _); naive_solver lia.
  - destruct (_ && _); [done|]. naive_solver lia.
Qed.
Lemma fetch_kept x inst v n peer fh tip lowest floor all : chain_inv (chain n) → resting (fork_state n) → Forall plain all →
  kept x n (fetch_older inst v n peer fh tip lowest floor all).1.
Proof.
  intros Hi Hr Hp. unfold fetch_older. destruct (match fork_state n with FetchingChain _ _ _ _ _ _ _ => _ | _ => _ end) as [stalled started].
  destruct stalled; [by apply kept_core|]. cbv zeta. destruct (_ <? _); [by apply kept_core|]. by apply request_kept.
Qed.

(** What the peer offers in a call: its blocks with those of earlier calls, and its tip. *)
Definition offered n (blocks : list Block) (peer : string) : list Block * Z :=
  collect_blocks n peer blocks (match blocks with b :: _ => bh_height (header b) | [] => 0 end).
Lemma handle_fork_kept x now inst v n blocks peer : chain_inv (chain n) → resting (fork_state n) → Forall plain blocks →
  (∀ ancestor top, 0 ≤ ancestor → highest_block (offered n blocks peer).1 = Some top →
     spares x inst v n ancestor (offered n blocks peer).2 (hash top)) →
  kept x n (handle_fork now inst v n blocks peer).1.
Proof.
  intros Hi Hr Hp Hx. unfold handle_fork. destruct blocks as [|b0 blocks]; [by apply kept_core|].
  destruct (negb _); [by apply kept_core|]. cbv zeta. unfold offered in Hx. cbv beta iota in Hx.
  pose proof (collect_plain n peer (b0 :: blocks) (bh_height (header b0)) Hr Hp) as Hc.
  destruct (collect_blocks n peer (b0 :: blocks) _) as [all tip]. cbn [fst snd] in *.
  destruct (_ && _ && _); [by apply fetch_kept|].
  destruct (find_common_ancestor _ _ _) as [ancestor|] eqn:Ea; [|by apply request_kept].
  apply ancestor_range in Ea; [|apply (ci_height _ Hi)]. by apply resolve_with_kept; auto.
Qed.

Lemma count_none f tips : (∀ t, t ∈ tips → f t = false) → count_tips f tips = 0.
Proof.
  intros Hf. unfold count_tips. destruct (filter _ tips) as [|t l] eqn:E; [done|].
  assert (t ∈ filter (λ t, f t = true) tips) as [Ht Hin]%list_elem_of_filter by (rewrite E; by left). by rewrite Hf in Ht.
Qed.
Lemma no_support_no_override inst v n ancestor tip peer_tip :
  (∀ t, t ∈ tips_lock v → is_tip tip peer_tip t = false ∧ t.1 ≤ tip) → sender_whitelisted v = false ∨ tip ≤ current_height (chain n) →
  lock_override inst v n ancestor tip peer_tip = false.
Proof.
  intros Hno Hw. unfold lock_override. cbv zeta.
  assert (count_tips (λ t, is_tip tip peer_tip t || (tip <? t.1)) (tips_lock v) = 0) as ->.
  { apply count_none. intros t Ht. destruct (Hno t Ht) as [-> Hle]. cbn. lia. }
  set (o := match finality_lock_blocked_since n with Some _ => _ | None => _ end). unfold MIN_SAME_HEIGHT_CONSENSUS_PEERS.
  destruct (has_registry v); [|done]. cbn [andb Z.leb Z.compare orb]. rewrite !andb_false_r. cbn [orb andb].
  destruct Hw as [->|Hw]; [by rewrite !andb_false_r|]. rewrite (proj2 (Z.ltb_ge _ _) Hw). done.
Qed.

(** C12: Confirmed blocks are final without support for a change: whatever blocks a peer
    sends, handling its fork leaves every block up to the confirmed height in place, unless
    some peer - the sender is among those asked - reports one of the offered blocks as its
    tip at the offered height, or a higher tip, or the sender is whitelisted and its chain
    longer. (The sender's own report is enough for the lock to be lowered.) *)
Theorem finality_lock_holds now inst v n blocks peer : chain_inv (chain n) → resting (fork_state n) → Forall plain blocks →
  (∀ t b, t ∈ tips_lock v → b ∈ (offered n blocks peer).1 → t.1 ≤ (offered n blocks peer).2 ∧ (t.1 = (offered n blocks peer).2 → t.2 ≠ hash b)) →
  sender_whitelisted v = false ∨ (offered n blocks peer).2 ≤ current_height (chain n) →
  ∀ h, h ≤ confirmed_height (chain n) → block_at (chain (handle_fork now inst v n blocks peer).1) h = block_at (chain n) h.
Proof.
  intros Hi Hr Hp Hno Hw. apply handle_fork_kept; [done..|]. intros ancestor top _ Htop. split; [lia|].
  rewrite no_support_no_override; [done| |done]. intros t Ht.
  assert (top ∈ (offered n blocks peer).1) as Hin.
  { unfold highest_block, block_of_height in Htop. apply fmap_Some in Htop as ([i b] & Hf & ->). apply list_find_Some in Hf as (Hf & _).
    apply list_elem_of_lookup_2 in Hf. by rewrite elem_of_reverse in Hf. }
  destruct (Hno t top Ht Hin) as [Hle Hne]. split; [|done]. unfold is_tip. destruct (Z.eqb_spec t.1 (offered n blocks peer).2); [|done].
  apply bool_decide_false. auto.
Qed.

(** ** Histories *)

Inductive node_op :=
| NChain (p : chain_op)
| NFork (now inst : Z) (v : PeerView) (blocks : list Block) (peer : string)
| NBlock (now : Z) (first_peer : option string) (b : Block).
Definition node_exec n (p : node_op) : ForkNode :=
  match p with
  | NChain p => set_chain (chain_exec (chain n) p) n
  | NFork now inst v blocks peer => (handle_fork now inst v n blocks peer).1
  | NBlock now first_peer b => (add_block_with_fork_handling now first_peer n b).1
  end.
Definition plain_node_op (p : node_op) : Prop :=
  match p with NChain p => plain_op p | NFork _ _ _ blocks _ => Forall plain blocks | NBlock _ _ b => plain b end.
Definition node_inv n : Prop := chain_inv (chain n) ∧ resting (fork_state n).

Lemma add_incoming_inv now first_peer n b : plain b → node_inv n → node_inv (add_block_with_fork_handling now first_peer n b).1.
Proof.
  intros Hb [Hi Hr]. pose proof (ci_height _ Hi) as Hh. unfold add_block_with_fork_handling. cbv zeta.
  destruct (block_bincode b); [|done].
  assert (node_inv n ∧ (∀ c, chain_inv c → node_inv (set_chain c n))) as [Hn Hset] by done.
  destruct (fork_state n); try done.
  all: destruct (Z.eqb_spec (bh_height (header b)) 0) as [E0|N0];
    [unfold add_genesis; destruct (proj2 (block_at_stored (chain n) 0 Hi)) as [g Hg]; [lia|];
     destruct (proj2 (ci_complete _ Hi 0)) as [d ->]; [lia|]; rewrite Hg; by apply Hset|].
  all: destruct (negb _); [done|].
  all: destruct (_ =? _) eqn:En;
    [unfold append_block; destruct (get_block_hash _ _); [|by apply Hset]; destruct (negb _); [by apply Hset|];
     destruct (validate_block _ _ _ _ _); [|by apply Hset];
     pose proof (add_block_inv now (chain n) b (proj1 Hb) (proj2 Hb) Hi); destruct (add_block now (chain n) b) as [c [?|]]; by apply Hset|].
  all: destruct (Z.leb_spec (bh_height (header b)) (current_height (chain n))) as [Hle|]; [|done].
  all: unfold add_known_height; destruct (block_at (chain n) (bh_height (header b))) as [e|] eqn:Eb;
    [destruct first_peer; by apply Hset|].
  all: destruct (block_at_stored (chain n) (bh_height (header b)) Hi) as [_ Hs];
    assert (bh_height (header b) < 0) as Hneg by (destruct (decide (bh_height (header b) < 0)); [done|]; destruct Hs; [lia|congruence]).
  all: unfold fill_gap; cbv zeta; destruct (block_at (chain n) (bh_height (header b) - 1)) eqn:Ep;
    [pose proof (proj1 (block_at_stored _ _ Hi) (mk_is_Some _ _ Ep)); lia|].
  all: destruct first_peer; by apply Hset.
Qed.
Lemma node_exec_inv n p : plain_node_op p → node_inv n → node_inv (node_exec n p).
Proof.
  intros Hp [Hi Hr]. destruct p as [p|now inst v blocks peer|now first_peer b]; cbn [node_exec].
  - split; [by apply exec_chain_inv|done].
  - destruct (handle_fork_kept (-1) now inst v n blocks peer) as [K1 K2 K3]; [done..| |by split].
    intros ancestor top Ha _. split; lia.
  - by apply add_incoming_inv.
Qed.
Lemma run_node_inv n ps : Forall plain_node_op ps → node_inv n → node_inv (foldl node_exec n ps).
Proof. revert n. induction ps as [|p ps IH]; intros n Hp Hi; [done|]. apply Forall_cons in Hp as [H' Hp]. cbn. by apply IH, node_exec_inv. Qed.
Definition new_node c : ForkNode := mkNode c FNone false 0 None [] [] [].

(** C3: After any history of a node started on its genesis block, with an empty transaction
    index attached or with none - incoming blocks, forks offered by peers in any number of
    calls, reorganizations that succeed or fail, rollbacks, reads and rebuilds, in any
    interleaving of calls, of blocks whose version does not spell the mark of compressed
    data (a block that does is refused after its effects) and whose height fits into 64 bits
    - the database holds exactly the blocks up to the current height, each under its own
    height and linked to the one before, the transaction index points to the transactions it
    names, reading through the cache returns what the database holds, and no reorganization
    is left half done in the fork state. *)
Theorem node_history_linked net e r treasury work keys idx ps :
  let boot := store_hardcoded_genesis (blockchain_new net ∅ ∅ ∅ None treasury work keys e r) in
  boot.2 = Ok tt → idx = None ∨ idx = Some ∅ → Forall plain_node_op ps →
  let n := foldl node_exec (new_node (set_tx_index idx boot.1)) ps in
  let c := chain n in
  (∀ h, is_Some (block_at c h) ↔ 0 ≤ h ≤ current_height c)
  ∧ (∀ h b, block_at c h = Some b → bh_height (header b) = h)
  ∧ (∀ h b b', block_at c h = Some b → block_at c (h + 1) = Some b' → previous_hash (header b') = hash b)
  ∧ (∀ t l, get_location c t = Some l → ∃ b tx, block_at c (tl_height l) = Some b ∧ transactions b !! tl_index l = Some tx ∧ txid tx = t)
  ∧ (∀ h, (get_block c h).2 = match block_at c h with Some b => Ok b | None => Err (BlockMissing h) end)
  ∧ match fork_state n with Reorging _ _ _ | ReadyToReorg _ _ _ => False | _ => True end.
Proof.
  cbv zeta. intros Hb Hx Hp. pose proof (attach_index_inv _ idx Hx (genesis_inv net e r treasury work keys Hb)) as Hg0.
  destruct (run_node_inv (new_node _) ps Hp (conj Hg0 I)) as [Hi Hr].
  set (n := foldl node_exec _ ps) in *. clearbody n. split; [intros h; by apply block_at_stored|].
  split; [intros h b Hat; by destruct (block_at_reads _ h b Hi Hat) as (d & _ & _ & ?)|].
  split; [apply (ci_linked _ Hi)|]. split; [apply (ci_indexed _ Hi)|]. split; [|by destruct (fork_state n)].
  intros h. pose proof (get_block_spec _ h Hi) as Hg. destruct (get_block (chain n) h). by destruct Hg as (_ & _ & _ & ->).
Qed.
End reorg_proofs.
