(* ===== verification/ReorgSamples.v ===== *)
(** * Fork handling on concrete chains

    Witnesses for the theorems of [ForkProofs] and [ReorgProofs], and the forks that show
    where the code departs from its comments. *)

From Stdlib Require Import ZArith Lia Ascii String.
From stdpp Require Import base gmap strings list.
From S2P Require Import Prelude Types Instances Address Finality Storage UtxoManager UtxoProofs TransactionPool BlockVotes TimeVoteEngine.
From S2P Require Import Lru BlockTypes BlockVrf BlockCache BlockLedger Governance GovernancePersist Registry RegistryProofs Reward Utf8 Genesis TxValidation TxProofs PoolProofs Consensus ConsensusProofs.
From S2P Require Import Chain ChainApply ChainProofs ChainLedger ChainSamples ForkChoice ForkProofs Reorg ReorgProofs.

(** ** Decisions *)

Definition sample_view (g w h : Z) (t : Hash256) : chain_view := mkView (mkAuthority AGold g 0 0 0 0 g (1000 * g)) w h t.
Lemma authority_one_winner_witness : let vs := [sample_view 1 10 5 [1]; sample_view 2 8 4 [2]; sample_view 2 8 4 [3]] in
  ∃ w, w ∈ vs ∧ ∀ v, v ∈ vs → v ≠ w → (should_switch_to_peer_chain v w).1 = true ∧ (should_switch_to_peer_chain w v).1 = false.
Proof. refine (authority_one_winner _ _ _); [done|]. apply (bool_decide_unpack _). by vm_compute. Defined.

(** Two nodes on the two sides of a fork: one at height 8, one at height 5 whose first block
    after the split has the lower hash. *)
Definition longer_side : ForkResolutionParams := mkForkParams 8 5 None None None (Some 3) (Some [9]) (Some [1]) 0 0.
Definition shorter_side : ForkResolutionParams := mkForkParams 5 8 None None None (Some 3) (Some [1]) (Some [9]) 0 0.
Lemma fork_sides_agree_witness : accept_peer_chain (resolve_fork 0 shorter_side) = true.
Proof.
  refine (proj1 (proj1 (fork_sides_agree shorter_side longer_side 0 0 [1] [9] _ _ _ _ _ _) _)); by vm_compute.
Defined.
(** Each of them accepts the chain of the other. *)
Theorem both_sides_switch :
  mirrors longer_side shorter_side
  ∧ accept_peer_chain (resolve_fork 0 longer_side) = true ∧ accept_peer_chain (resolve_fork 0 shorter_side) = true.
Proof. by vm_compute. Qed.

(** ** Chains *)

Section reorg_samples.
#[local] Existing Instance tagged_externals.
#[local] Existing Instance canonical_iter.
#[local] Existing Instance sample_tx_externals.
#[local] Existing Instance model_pool_codec.
#[local] Existing Instance model_vrf.
#[local] Existing Instance model_gov_codec.
#[local] Existing Instance model_zstd.
#[local] Existing Instance list_lru.
#[local] Existing Instance no_legacy.

Definition SAMPLE_NOW : Z := 1800000100.
(** The [salt] tells the blocks of different chains at one height apart. *)
Definition fork_block (salt h reward : Z) (prev : Hash256) : Block :=
  let txs := [sample_coinbase h reward; sample_dist h reward 0] in
  mkBlock (mkHeader salt h prev (calculate_merkle_root txs) 1800000000 reward "1.1.1.1" [] (mkTierCounts 0 0 0 0) [] [] 0 [] None [] 0 0)
    txs [("w"%string, reward)] [] [] None.
Definition SUBSIDY : Z := 95 * TIME.
Definition a1 : Block := fork_block 2 1 SUBSIDY (block_digest testnet_genesis).
Definition a2 : Block := fork_block 2 2 SUBSIDY (block_digest a1).
Definition b1 : Block := fork_block 1 1 SUBSIDY (block_digest testnet_genesis).
Definition b2 : Block := fork_block 1 2 SUBSIDY (block_digest b1).
(** Blocks with a reward that is too high, and a chain on another genesis. *)
Definition bad1 : Block := fork_block 3 1 (2 * SUBSIDY) (block_digest testnet_genesis).
Definition bad2 : Block := fork_block 3 2 SUBSIDY (block_digest bad1).
Definition other_genesis : Block := fork_block 4 0 SUBSIDY [].
Definition o1 : Block := fork_block 4 1 SUBSIDY (block_digest other_genesis).
Definition o2 : Block := fork_block 4 2 SUBSIDY (block_digest o1).
Definition fork_table : list Block := [testnet_genesis; a1; a2; b1; b2; bad1; bad2; other_genesis; o1; o2].
#[local] Instance fork_ext : BlockExternals := table_externals fork_table.
#[local] Instance fork_codec : BlockCodec := table_codec fork_table.
#[local] Instance fork_codec_laws : BlockCodecLaws := table_codec_laws fork_table.
#[local] Instance fork_format : BlockFormat.
Proof.
  intros b d Hb _. change (table_bincode fork_table b = Some d) in Hb. unfold table_bincode in Hb.
  by apply fmap_Some in Hb as ([i x] & _ & ->).
Qed.
Definition fork_boot : Blockchain * result chain_error () :=
  store_hardcoded_genesis (blockchain_new Testnet ∅ ∅ ∅ None None ∅ ∅ chain_engine (registry_new None 0)).
Definition on_a (k : nat) : ForkNode (S := gmap OutPoint UTXO) :=
  new_node (foldl chain_exec fork_boot.1 (KAdd SAMPLE_NOW <$> take k [a1; a2])).
(** A peer that is the only one to report a tip: its own. *)
Definition lone_peer (t : Z * Hash256) : PeerView := mkPeers true [t] [t] [t] false true true.

(** A peer two blocks long whose first block claims twice the subsidy makes a node drop its
    confirmed block: the finality lock is lowered on the word of that peer alone, the reward
    is checked after the rollback, and the old block is not put back. *)
Theorem one_peer_undoes_confirmed :
  let n := on_a 1 in
  let r := handle_fork SAMPLE_NOW 0 (lone_peer (2, block_digest bad2)) n [bad1; bad2] "9.9.9.9" in
  current_height (chain n) = 1 ∧ confirmed_height (chain n) = 1
  ∧ is_err r.2 = true ∧ current_height (chain r.1) = 0 ∧ bool_decide (block_at (chain r.1) 1 = None) = true.
Proof. by vm_compute. Qed.

(** A shorter chain with the lower hash at the fork is accepted by the resolver, the finality
    lock is lowered for it, and the reorganization is then refused because it is shorter. *)
Theorem shorter_fork_lowers_lock :
  let n := on_a 2 in
  let r := handle_fork SAMPLE_NOW 0 (lone_peer (1, block_digest b1)) n [b1] "9.9.9.9" in
  confirmed_height (chain n) = 2 ∧ r.2 = Err (ShorterChain 2 1) ∧ current_height (chain r.1) = 2 ∧ confirmed_height (chain r.1) = 0.
Proof. by vm_compute. Qed.

Lemma mismatch_stops now inst v (n : ForkNode (S := gmap OutPoint UTXO)) blocks peer :
  genesis_mismatch_detected n = true → (handle_fork now inst v n blocks peer).1 = n.
Proof. intros E. unfold handle_fork, may_resolve. rewrite E. by destruct blocks. Qed.
(** After one peer on another genesis block has sent its chain, no fork is resolved any more,
    whoever sends it. *)
Theorem foreign_genesis_stops_resolution :
  let n := (handle_fork SAMPLE_NOW 0 (lone_peer (2, block_digest o2)) (on_a 1) [other_genesis; o1; o2] "9.9.9.9").1 in
  sent n = [MarkIncompatible "9.9.9.9"] ∧ ∀ now inst v blocks peer, (handle_fork now inst v n blocks peer).1 = n.
Proof.
  cbv zeta. split; [by vm_compute|]. intros now inst v blocks peer. apply mismatch_stops. by vm_compute.
Qed.

(** ** Witnesses *)

Lemma fork_boot_ok : fork_boot.2 = Ok tt.
Proof. by vm_compute. Qed.
Lemma on_a_inv k : chain_inv (chain (on_a k)).
Proof.
  apply run_chain_inv; [|exact (genesis_inv Testnet chain_engine (registry_new None 0) None ∅ ∅ fork_boot_ok)].
  apply Forall_fmap, Forall_take. repeat constructor; vm_compute; done.
Qed.
(** The chain [a1] with the lock on its genesis block. *)
#[local] Abbreviation unlocked := (set_chain (set_confirmed 0 (chain (on_a 1))) (on_a 1)).
Lemma unlocked_reorg : (perform_reorg SAMPLE_NOW 0 unlocked 0 [b1; b2]).2 = Ok tt.
Proof. by vm_compute. Qed.
Lemma b_plain : Forall plain [b1; b2].
Proof. repeat constructor; vm_compute; done. Qed.
Lemma reorg_exact_witness :
  let c := chain (perform_reorg SAMPLE_NOW 0 unlocked 0 [b1; b2]).1 in
  get_block_hash c 1 = Some (hash b1) ∧ get_block_hash c 2 = Some (hash b2).
Proof.
  pose proof (reorg_exact SAMPLE_NOW 0 unlocked 0 [b1; b2] (perform_reorg SAMPLE_NOW 0 unlocked 0 [b1; b2]).1
    (proj2 (chain_inv_confirmed _ 0) (on_a_inv 1)) ltac:(vm_compute; split; discriminate) b_plain (pair_result _ _ unlocked_reorg)) as (_ & _ & E & _).
  exact (conj (E 0%nat b1 eq_refl) (E 1%nat b2 eq_refl)).
Defined.
(** The same fork, offered by a peer that nobody else confirms. *)
Lemma finality_lock_holds_witness :
  block_at (chain (handle_fork SAMPLE_NOW 0 (mkPeers true [] [] [] false true true) (on_a 1) [b1; b2] "9.9.9.9").1) 1 = block_at (chain (on_a 1)) 1.
Proof.
  refine (finality_lock_holds SAMPLE_NOW 0 (mkPeers true [] [] [] false true true) (on_a 1) [b1; b2] "9.9.9.9" (on_a_inv 1) I b_plain _ (or_introl eq_refl) 1 _).
  - intros t b Ht. by apply elem_of_nil in Ht.
  - vm_compute. discriminate.
Defined.
Definition sample_node_history : list node_op :=
  [NBlock SAMPLE_NOW None a1; NChain (KResetLock 0); NFork SAMPLE_NOW 0 (lone_peer (2, block_digest b2)) [b1; b2] "9.9.9.9"; NBlock SAMPLE_NOW None a2].
#[local] Abbreviation sample_end := (chain (foldl node_exec (new_node (set_tx_index (Some ∅) fork_boot.1)) sample_node_history)).
Lemma sample_indexed : bool_decide (is_Some (get_location sample_end (txid (sample_coinbase 1 SUBSIDY)))) = true.
Proof. by vm_compute. Qed.
Lemma node_history_linked_witness :
  (is_Some (block_at sample_end 1) ↔ 0 ≤ 1 ≤ current_height sample_end)
  ∧ ∃ l b tx, get_location sample_end (txid (sample_coinbase 1 SUBSIDY)) = Some l
    ∧ block_at sample_end (tl_height l) = Some b ∧ transactions b !! tl_index l = Some tx.
Proof.
  destruct (node_history_linked Testnet chain_engine (registry_new None 0) None ∅ ∅ (Some ∅) sample_node_history fork_boot_ok (or_intror eq_refl))
    as (Hs & _ & _ & Hx & _).
  - repeat constructor; vm_compute; done.
  - split; [exact (Hs 1)|]. destruct (proj1 (bool_decide_eq_true _) sample_indexed) as [l Hl].
    destruct (Hx _ _ Hl) as (b & tx & Hb & Ht & _). exists l, b, tx. exact (conj Hl (conj Hb Ht)).
Defined.
Definition b_chain (h : Z) : Block := if h =? 2 then b2 else b1.
Definition a_hashes (h : Z) : option Hash256 := hash <$> [testnet_genesis; a1; a2] !! Z.to_nat h.
Lemma common_ancestor_found_witness : find_common_ancestor 2 [b2; b1] a_hashes = Ok 0.
Proof.
  refine (common_ancestor_found b_chain 1 2 [b2; b1] a_hashes 2 0 _ _).
  - split.
    + intros h Hh. assert (h = 1 ∨ h = 2) as [-> | ->] by lia; done.
    + intros b. rewrite elem_of_cons, list_elem_of_singleton. split.
      * intros [->| ->]; [by exists 2|by exists 1].
      * intros (h & Hh & ->). assert (h = 1 ∨ h = 2) as [-> | ->] by lia; [by right|by left].
    + intros h Hh. assert (h = 2) as -> by lia. by vm_compute.
    + vm_compute. split; [split; discriminate|done].
  - split.
    + vm_compute. repeat split; discriminate.
    + lia.
    + intros _. by vm_compute.
    + intros h Hh. assert (h = 1 ∨ h = 2) as [-> | ->] by lia; apply (bool_decide_unpack _); by vm_compute.
Defined.
End reorg_samples.
