(* ===== verification/BanList.v ===== *)
(** * The ban list (src/network/banlist.rs)

    Bans and violations by IP address and the sled trees that keep them across restarts.
    The trees store addresses as text and records as bincode; they are maps from what the
    text stands for.  [now] is the monotonic clock in nanoseconds, [unix] the wall clock in
    seconds; a call reads each once. *)

From Stdlib Require Import ZArith Lia Ascii String.
From stdpp Require Import base gmap strings list.
From S2P Require Import Prelude Types Registry.

Definition SECS : Z := 1000000000.

Inductive IpAddr := V4 (bits : Z) | V6 (bits : Z).
#[export] Instance IpAddr_eq_dec : EqDecision IpAddr.
Proof. solve_decision. Defined.
#[export] Instance IpAddr_countable : Countable IpAddr :=
  inj_countable' (λ ip, match ip with V4 b => inl b | V6 b => inr b end) (λ s, match s with inl b => V4 b | inr b => V6 b end)
    ltac:(by intros []).

Record BanDb := mkBanDb {
  db_permanent : gmap IpAddr string;
  db_temp : gmap IpAddr (Z * string);
  db_subnet : gmap (Z * Z) string;
  db_violations : gmap IpAddr (Z * Z);
  db_genesis : gmap IpAddr string;
}.
Record IPBanlist := mkBanlist {
  permanent_banlist : gmap IpAddr string;
  temp_banlist : gmap IpAddr (Z * string);
  frame_bomb_bans : gmap IpAddr (Z * string);
  wrong_genesis_banlist : gmap IpAddr string;
  violations : gmap IpAddr (Z * Z);
  whitelist : gmap IpAddr string;
  subnet_banlist : list (Z * Z * string);
  ban_db : option BanDb;
}.
Implicit Types bl : IPBanlist.

Definition set_permanent x bl := mkBanlist x (temp_banlist bl) (frame_bomb_bans bl) (wrong_genesis_banlist bl) (violations bl)
  (whitelist bl) (subnet_banlist bl) (ban_db bl).
Definition set_temp x bl := mkBanlist (permanent_banlist bl) x (frame_bomb_bans bl) (wrong_genesis_banlist bl) (violations bl)
  (whitelist bl) (subnet_banlist bl) (ban_db bl).
Definition set_frame x bl := mkBanlist (permanent_banlist bl) (temp_banlist bl) x (wrong_genesis_banlist bl) (violations bl)
  (whitelist bl) (subnet_banlist bl) (ban_db bl).
Definition set_genesis x bl := mkBanlist (permanent_banlist bl) (temp_banlist bl) (frame_bomb_bans bl) x (violations bl)
  (whitelist bl) (subnet_banlist bl) (ban_db bl).
Definition set_violations x bl := mkBanlist (permanent_banlist bl) (temp_banlist bl) (frame_bomb_bans bl) (wrong_genesis_banlist bl) x
  (whitelist bl) (subnet_banlist bl) (ban_db bl).
Definition set_whitelist x bl := mkBanlist (permanent_banlist bl) (temp_banlist bl) (frame_bomb_bans bl) (wrong_genesis_banlist bl)
  (violations bl) x (subnet_banlist bl) (ban_db bl).
Definition set_subnets x bl := mkBanlist (permanent_banlist bl) (temp_banlist bl) (frame_bomb_bans bl) (wrong_genesis_banlist bl)
  (violations bl) (whitelist bl) x (ban_db bl).
Definition set_ban_db x bl := mkBanlist (permanent_banlist bl) (temp_banlist bl) (frame_bomb_bans bl) (wrong_genesis_banlist bl)
  (violations bl) (whitelist bl) (subnet_banlist bl) x.

Definition banlist_new : IPBanlist := mkBanlist ∅ ∅ ∅ ∅ ∅ ∅ [] None.

(** ** Writes to the trees *)

Definition on_db (f : BanDb → BanDb) bl : IPBanlist := set_ban_db (f <$> ban_db bl) bl.
Definition db_set_permanent (f : gmap IpAddr string → gmap IpAddr string) d :=
  mkBanDb (f (db_permanent d)) (db_temp d) (db_subnet d) (db_violations d) (db_genesis d).
Definition db_set_temp (f : gmap IpAddr (Z * string) → gmap IpAddr (Z * string)) d :=
  mkBanDb (db_permanent d) (f (db_temp d)) (db_subnet d) (db_violations d) (db_genesis d).
Definition db_set_subnet (f : gmap (Z * Z) string → gmap (Z * Z) string) d :=
  mkBanDb (db_permanent d) (db_temp d) (f (db_subnet d)) (db_violations d) (db_genesis d).
Definition db_set_violations (f : gmap IpAddr (Z * Z) → gmap IpAddr (Z * Z)) d :=
  mkBanDb (db_permanent d) (db_temp d) (db_subnet d) (f (db_violations d)) (db_genesis d).
Definition db_set_genesis (f : gmap IpAddr string → gmap IpAddr string) d :=
  mkBanDb (db_permanent d) (db_temp d) (db_subnet d) (db_violations d) (f (db_genesis d)).

Definition persist_permanent (ip : IpAddr) (reason : string) := on_db (db_set_permanent <[ip := reason]>).
Definition remove_permanent (ip : IpAddr) := on_db (db_set_permanent (delete ip)).
Definition persist_temp (ip : IpAddr) (expiry_unix : Z) (reason : string) := on_db (db_set_temp <[ip := (expiry_unix, reason)]>).
Definition remove_temp (ip : IpAddr) := on_db (db_set_temp (delete ip)).
Definition persist_subnet (cidr : Z * Z) (reason : string) := on_db (db_set_subnet <[cidr := reason]>).
Definition remove_subnet (cidr : Z * Z) := on_db (db_set_subnet (delete cidr)).
Definition persist_violation (unix : Z) (ip : IpAddr) (count : Z) := on_db (db_set_violations <[ip := (count, unix)]>).
Definition remove_violation (ip : IpAddr) := on_db (db_set_violations (delete ip)).
Definition persist_genesis (ip : IpAddr) (reason : string) := on_db (db_set_genesis <[ip := reason]>).
Definition remove_genesis (ip : IpAddr) := on_db (db_set_genesis (delete ip)).

(** ** Addresses *)

(** An octet of [Ipv4Addr::from_str]: up to three digits, no leading zero, at most 255. *)
Definition parse_octet (s : string) : option Z :=
  if (3 <? String.length s)%nat then None
  else match s with
       | EmptyString => None
       | String "0"%char (String _ _) => None
       | _ => n ← parse_digits 0 s; if n <? 256 then Some n else None
       end.
Definition parse_v4 (s : string) : option Z :=
  match split_on "."%char s with
  | [a; b; c; d] => a ← parse_octet a; b ← parse_octet b; c ← parse_octet c; d ← parse_octet d;
                    Some (((a * 256 + b) * 256 + c) * 256 + d)
  | _ => None
  end.
(** [parse::<u8>().unwrap_or(24)] of what follows the first slash. *)
Definition parse_prefix (s : string) : Z := match parse_u32 s with Some n => if n <? 256 then n else 24 | None => 24 end.
Definition parse_cidr (cidr : string) : option (Z * Z) :=
  match split_on "/"%char cidr with
  | [addr] => (λ n, (n, 24)) <$> parse_v4 addr
  | [addr; bits] => (λ n, (n, parse_prefix bits)) <$> parse_v4 addr
  | addr :: _ => (λ n, (n, 24)) <$> parse_v4 addr
  | [] => None
  end.

(** [!0u32 << (32 - prefix_len as u32)] without overflow checks: the subtraction wraps and
    the shift uses the low five bits of its amount. *)
Definition subnet_mask (prefix : Z) : Z :=
  if prefix =? 0 then 0 else Z.shiftl (U32 - 1) (as_u32 (32 - prefix) mod 32) mod U32.
Definition in_subnet (bits : Z) (s : Z * Z * string) : bool :=
  let '(network, prefix, _) := s in Z.land bits (subnet_mask prefix) =? Z.land network (subnet_mask prefix).
Definition in_banned_subnet bl (ip : IpAddr) : option (Z * Z * string) :=
  match ip with
  | V4 bits => snd <$> list_find (λ s, in_subnet bits s = true) (subnet_banlist bl)
  | V6 _ => None
  end.

(** ** Operations *)

Definition is_whitelisted bl (ip : IpAddr) : bool := bool_decide (is_Some (whitelist bl !! ip)).
Definition add_to_whitelist (ip : IpAddr) (reason : string) bl : IPBanlist :=
  let bl := set_whitelist (<[ip := reason]> (whitelist bl)) bl in
  let bl := set_permanent (delete ip (permanent_banlist bl)) bl in
  let bl := set_temp (delete ip (temp_banlist bl)) bl in
  let bl := set_frame (delete ip (frame_bomb_bans bl)) bl in
  let bl := set_violations (delete ip (violations bl)) bl in
  remove_violation ip (remove_temp ip (remove_permanent ip bl)).

Definition add_subnet_ban (cidr reason : string) bl : IPBanlist :=
  match parse_cidr cidr with
  | Some (network, prefix) =>
      persist_subnet (network, prefix) reason (set_subnets (subnet_banlist bl ++ [(network, prefix, reason)]) bl)
  | None => bl
  end.
Definition unban_subnet (cidr : string) bl : IPBanlist * bool :=
  match parse_cidr cidr with
  | None => (bl, false)
  | Some np =>
      let kept := filter (λ s : Z * Z * string, s.1 ≠ np) (subnet_banlist bl) in
      let removed := negb (length kept =? length (subnet_banlist bl))%nat in
      let bl := set_subnets kept bl in
      (if removed then remove_subnet np bl else bl, removed)
  end.

Definition add_temp_ban (now unix : Z) (ip : IpAddr) (secs : Z) (reason : string) bl : IPBanlist :=
  persist_temp ip (add64 unix secs) reason (set_temp (<[ip := (now + secs * SECS, reason)]> (temp_banlist bl)) bl).
Definition add_permanent_ban (ip : IpAddr) (reason : string) bl : IPBanlist :=
  let bl := set_permanent (<[ip := reason]> (permanent_banlist bl)) bl in
  let bl := set_temp (delete ip (temp_banlist bl)) bl in
  remove_temp ip (persist_permanent ip reason bl).
Definition add_genesis_ban (ip : IpAddr) (reason : string) bl : IPBanlist :=
  persist_genesis ip reason (set_genesis (<[ip := reason]> (wrong_genesis_banlist bl)) bl).

Inductive ban_verdict := FrameBombBan (secs : Z) | WrongGenesis | TempBanned (secs : Z) | Permanent | Subnet (network prefix : Z).
(** Expired entries are removed on the way. *)
Definition drop_expired_frame (now : Z) (ip : IpAddr) bl : IPBanlist :=
  match frame_bomb_bans bl !! ip with
  | Some (expiry, _) => if now <? expiry then bl else set_frame (delete ip (frame_bomb_bans bl)) bl
  | None => bl
  end.
Definition drop_expired_temp (now : Z) (ip : IpAddr) bl : IPBanlist :=
  match temp_banlist bl !! ip with
  | Some (expiry, _) => if now <? expiry then bl else remove_temp ip (set_temp (delete ip (temp_banlist bl)) bl)
  | None => bl
  end.
Definition is_banned (now : Z) (ip : IpAddr) bl : IPBanlist * option ban_verdict :=
  let bl := drop_expired_frame now ip bl in
  match frame_bomb_bans bl !! ip with
  | Some (expiry, _) => (bl, Some (FrameBombBan ((expiry - now) / SECS)))
  | None =>
      match wrong_genesis_banlist bl !! ip with
      | Some _ => (bl, Some WrongGenesis)
      | None =>
          if is_whitelisted bl ip then (bl, None)
          else
            let bl := drop_expired_temp now ip bl in
            match temp_banlist bl !! ip with
            | Some (expiry, _) => (bl, Some (TempBanned ((expiry - now) / SECS)))
            | None =>
                match permanent_banlist bl !! ip with
                | Some _ => (bl, Some Permanent)
                | None => (bl, (λ s : Z * Z * string, Subnet s.1.1 s.1.2) <$> in_banned_subnet bl ip)
                end
            end
      end
  end.

(** ** Violations *)

(** One more violation; after an hour of quiet the count starts again.  [u32] wraps. *)
Definition count_violation (now unix : Z) (ip : IpAddr) bl : IPBanlist * Z :=
  let '(count, last) := default (0, now) (violations bl !! ip) in
  let count := as_u32 ((if 3600 * SECS <? now - last then 0 else count) + 1) in
  (persist_violation unix ip count (set_violations (<[ip := (count, now)]> (violations bl)) bl), count).

Definition record_violation (now unix : Z) (ip : IpAddr) (reason : string) bl : IPBanlist * bool :=
  if is_whitelisted bl ip then (bl, false)
  else
    let '(bl, count) := count_violation now unix ip bl in
    if count =? 5 then (add_temp_ban now unix ip 300 reason bl, true)
    else if count =? 10 then (add_temp_ban now unix ip 3600 reason bl, true)
    else if count =? 20 then (add_permanent_ban ip reason bl, true)
    else (bl, negb ((1 <=? count) && (count <=? 19))).
(** [record_handshake_violation] and [record_tls_violation] have the same body. *)
Definition record_lenient_violation (now unix : Z) (ip : IpAddr) (reason : string) bl : IPBanlist * bool :=
  if is_whitelisted bl ip then (bl, false)
  else
    let '(bl, count) := count_violation now unix ip bl in
    if count =? 10 then (add_temp_ban now unix ip 300 reason bl, true)
    else if count =? 30 then (add_temp_ban now unix ip 3600 reason bl, true)
    else if (1 <=? count) && (count <=? 29) then (bl, false)
    else if count mod 30 =? 0 then (add_temp_ban now unix ip 3600 reason bl, true)
    else (bl, false).
Definition record_handshake_violation := record_lenient_violation.
Definition record_tls_violation := record_lenient_violation.
Definition record_frame_bomb_violation (now unix : Z) (ip : IpAddr) (reason : string) bl : IPBanlist * bool :=
  let '(bl, count) := count_violation now unix ip bl in
  if is_whitelisted bl ip
  then (set_frame (<[ip := (now + (if count =? 1 then 120 else 900) * SECS, reason)]> (frame_bomb_bans bl)) bl, true)
  else (add_temp_ban now unix ip (if count =? 1 then 300 else 3600) reason bl, true).
(** Counts as five, without the reset after an hour and without a new time. *)
Definition record_severe_violation (now unix : Z) (ip : IpAddr) (reason : string) bl : IPBanlist * bool :=
  let '(count, last) := default (0, now) (violations bl !! ip) in
  let count := as_u32 (count + 5) in
  let bl := persist_violation unix ip count (set_violations (<[ip := (count, last)]> (violations bl)) bl) in
  let reason := String.append "SEVERE: " reason in
  if 10 <=? count then (add_permanent_ban ip reason bl, true) else (add_temp_ban now unix ip 3600 reason bl, true).

(** ** Maintenance *)

Section maintenance.
Context `{MapIter}.

Definition remove_all {V} (f : IpAddr → IPBanlist → IPBanlist) (m : gmap IpAddr V) bl : IPBanlist := foldl (λ bl e, f e.1 bl) bl (iter m).
Definition cleanup (now : Z) bl : IPBanlist :=
  let bl := set_frame (filter (λ e : IpAddr * (Z * string), now < e.2.1) (frame_bomb_bans bl)) bl in
  let expired := filter (λ e : IpAddr * (Z * string), e.2.1 ≤ now) (temp_banlist bl) in
  let bl := remove_all (λ ip bl, remove_temp ip (set_temp (delete ip (temp_banlist bl)) bl)) expired bl in
  let old := filter (λ e : IpAddr * (Z * Z), 86400 * SECS ≤ now - e.2.2) (violations bl) in
  remove_all (λ ip bl, remove_violation ip (set_violations (delete ip (violations bl)) bl)) old bl.
Definition unban (ip : IpAddr) bl : IPBanlist * bool :=
  let was := bool_decide (is_Some (permanent_banlist bl !! ip)) || bool_decide (is_Some (temp_banlist bl !! ip))
             || bool_decide (is_Some (frame_bomb_bans bl !! ip)) || bool_decide (is_Some (wrong_genesis_banlist bl !! ip)) in
  let bl := set_permanent (delete ip (permanent_banlist bl)) bl in
  let bl := set_temp (delete ip (temp_banlist bl)) bl in
  let bl := set_frame (delete ip (frame_bomb_bans bl)) bl in
  let bl := set_genesis (delete ip (wrong_genesis_banlist bl)) bl in
  let bl := set_violations (delete ip (violations bl)) bl in
  (remove_genesis ip (remove_violation ip (remove_temp ip (remove_permanent ip bl))), was).
Definition clear_all_bans bl : IPBanlist * (nat * nat * nat * nat) :=
  let counts := (size (permanent_banlist bl), size (temp_banlist bl), length (subnet_banlist bl), size (violations bl)) in
  let bl := remove_all remove_permanent (permanent_banlist bl) bl in
  let bl := remove_all remove_temp (temp_banlist bl) bl in
  let bl := remove_all remove_violation (violations bl) bl in
  let bl := foldl (λ bl (s : Z * Z * string), remove_subnet s.1 bl) bl (subnet_banlist bl) in
  (set_subnets [] (set_violations ∅ (set_temp ∅ (set_permanent ∅ bl))), counts).

(** ** Start-up *)

Definition load_permanent (d : BanDb) bl : IPBanlist :=
  foldl (λ bl (e : IpAddr * string), if is_whitelisted bl e.1 then remove_permanent e.1 bl
    else set_permanent (<[e.1 := e.2]> (permanent_banlist bl)) bl) bl (iter (db_permanent d)).
Definition load_temp (now unix : Z) (d : BanDb) bl : IPBanlist :=
  foldl (λ bl (e : IpAddr * (Z * string)), if is_whitelisted bl e.1 || (e.2.1 <=? unix) then remove_temp e.1 bl
    else set_temp (<[e.1 := (now + (e.2.1 - unix) * SECS, e.2.2)]> (temp_banlist bl)) bl) bl (iter (db_temp d)).
Definition load_subnets (d : BanDb) bl : IPBanlist :=
  foldl (λ bl (e : Z * Z * string), if existsb (λ s : Z * Z * string, bool_decide (s.1 = e.1)) (subnet_banlist bl) then bl
    else set_subnets (subnet_banlist bl ++ [e]) bl) bl (iter (db_subnet d)).
Definition load_violations (now unix : Z) (d : BanDb) bl : IPBanlist :=
  foldl (λ bl (e : IpAddr * (Z * Z)), if is_whitelisted bl e.1 || (e.2.2 <? sat_sub unix 3600) then remove_violation e.1 bl
    else set_violations (<[e.1 := (e.2.1, now - Z.min (sat_sub unix e.2.2) 3600 * SECS)]> (violations bl)) bl) bl (iter (db_violations d)).
Definition load_genesis (d : BanDb) bl : IPBanlist :=
  foldl (λ bl (e : IpAddr * string), set_genesis (<[e.1 := e.2]> (wrong_genesis_banlist bl)) bl) bl (iter (db_genesis d)).
Definition attach_storage (now unix : Z) (d : BanDb) bl : IPBanlist :=
  let bl := set_ban_db (Some d) bl in
  load_genesis d (load_violations now unix d (load_subnets d (load_temp now unix d (load_permanent d bl)))).
End maintenance.
