(* ===== verification/BanProofs.v ===== *)
(** * Properties of the ban list

    What [is_banned] answers, subnet masks, and the database that keeps the bans across
    restarts. *)

From Stdlib Require Import ZArith Lia Ascii String.
From stdpp Require Import base gmap strings list.
From S2P Require Import Prelude Types Registry BanList.

Implicit Types bl : IPBanlist.

(** ** Verdicts *)

Lemma drop_frame_lookup now ip bl : frame_bomb_bans (drop_expired_frame now ip bl) !! ip =
  match frame_bomb_bans bl !! ip with Some (e, r) => if now <? e then Some (e, r) else None | None => None end.
Proof.
  unfold drop_expired_frame. destruct (frame_bomb_bans bl !! ip) as [[e r]|] eqn:E; [|by rewrite E].
  destruct (now <? e); [by rewrite E|]. cbn. apply lookup_delete_eq.
Qed.
Lemma drop_temp_lookup now ip bl : temp_banlist (drop_expired_temp now ip bl) !! ip =
  match temp_banlist bl !! ip with Some (e, r) => if now <? e then Some (e, r) else None | None => None end.
Proof.
  unfold drop_expired_temp. destruct (temp_banlist bl !! ip) as [[e r]|] eqn:E; [|by rewrite E].
  destruct (now <? e); [by rewrite E|]. cbn. apply lookup_delete_eq.
Qed.
Definition live (now : Z) (o : option (Z * string)) : Prop := match o with Some (e, _) => now < e | None => False end.

Lemma is_banned_iff now ip bl : is_Some (is_banned now ip bl).2 ↔
  live now (frame_bomb_bans bl !! ip) ∨ is_Some (wrong_genesis_banlist bl !! ip)
  ∨ (is_whitelisted bl ip = false ∧ (live now (temp_banlist bl !! ip) ∨ is_Some (permanent_banlist bl !! ip) ∨ is_Some (in_banned_subnet bl ip))).
Proof.
  unfold is_banned. cbv zeta. rewrite drop_frame_lookup.
  set (bl1 := drop_expired_frame now ip bl).
  assert (wrong_genesis_banlist bl1 = wrong_genesis_banlist bl ∧ is_whitelisted bl1 ip = is_whitelisted bl ip ∧ temp_banlist bl1 = temp_banlist bl
    ∧ permanent_banlist bl1 = permanent_banlist bl ∧ in_banned_subnet bl1 ip = in_banned_subnet bl ip) as (E1 & E2 & E3 & E4 & E5).
  { unfold bl1, drop_expired_frame. destruct (frame_bomb_bans bl !! ip) as [[e r]|]; [|done]. by destruct (now <? e). }
  rewrite E1, E2, drop_temp_lookup, E3. clearbody bl1.
  assert (permanent_banlist (drop_expired_temp now ip bl1) = permanent_banlist bl
    ∧ in_banned_subnet (drop_expired_temp now ip bl1) ip = in_banned_subnet bl ip) as [E6 E7].
  { unfold drop_expired_temp. destruct (temp_banlist bl1 !! ip) as [[e r]|]; [|done]. by destruct (now <? e). }
  rewrite E6, E7.
  assert (∀ (x : IPBanlist) (v : ban_verdict), is_Some (x, Some v).2 ↔ True) as Hs by (intros; split; [done|by eexists]).
  assert (∀ o : option (Z * string), live now (match o with Some (e, r) => if now <? e then Some (e, r) else None | None => None end) ↔ live now o) as Hl.
  { intros [[e r]|]; [|done]. cbn. destruct (Z.ltb_spec now e); cbn; lia. }
  rewrite <- (Hl (frame_bomb_bans bl !! ip)), <- (Hl (temp_banlist bl !! ip)).
  assert (∀ (o : option (Z * string)) e r, (match o with Some (e, r) => if now <? e then Some (e, r) else None | None => None end) = Some (e, r) → now < e) as Ht.
  { intros [[e r]|] e' r'; [|done]. destruct (Z.ltb_spec now e); [|done]. by intros [= <- <-]. }
  pose proof (Ht (frame_bomb_bans bl !! ip)) as Hf. specialize (Ht (temp_banlist bl !! ip)).
  destruct (match frame_bomb_bans bl !! ip with Some _ => _ | None => _ end) as [[e r]|]; [rewrite Hs; specialize (Hf e r eq_refl); cbn; tauto|].
  destruct (wrong_genesis_banlist bl !! ip); [rewrite Hs; split; [|done]; right; left; by eexists|].
  destruct (is_whitelisted bl ip); [cbn; split; [by intros [? ?]|intros [[]|[[? ?]|[? _]]]; done]|].
  destruct (match temp_banlist bl !! ip with Some _ => _ | None => _ end) as [[e r]|]; [rewrite Hs; specialize (Ht e r eq_refl); cbn; tauto|].
  destruct (permanent_banlist bl !! ip) as [s|]; [rewrite Hs; split; [|done]; do 2 right; split; [done|]; right; left; by eexists|].
  cbn [snd live]. rewrite fmap_is_Some. split; [intros Ho; do 2 right; split; [done|]; by do 2 right|].
  by intros [[]|[[? ?]|[_ [[]|[[? ?]|Ho]]]]].
Qed.

(** A severe violation of a whitelisted peer is recorded and has no effect on the verdict. *)
Lemma severe_keeps_whitelisted now unix now' ip reason bl : is_whitelisted bl ip = true →
  is_Some (is_banned now' ip (record_severe_violation now unix ip reason bl).1).2 ↔ is_Some (is_banned now' ip bl).2.
Proof.
  intros Hw. set (bl' := (record_severe_violation now unix ip reason bl).1).
  assert (frame_bomb_bans bl' = frame_bomb_bans bl ∧ wrong_genesis_banlist bl' = wrong_genesis_banlist bl ∧ is_whitelisted bl' ip = true) as (E1 & E2 & E3).
  { unfold bl', record_severe_violation. destruct (default _ _) as [count last]. cbv zeta. by destruct (10 <=? _). }
  rewrite !is_banned_iff, E1, E2, E3, Hw. intuition done.
Qed.

(** ** Subnets *)

Lemma subnet_mask_low p : 0 ≤ p ≤ 32 → subnet_mask p = (2 ^ p - 1) * 2 ^ (32 - p).
Proof.
  intros Hp. assert (∃ n : nat, (n < 33)%nat ∧ p = Z.of_nat n) as (n & Hn & ->) by (exists (Z.to_nat p); lia).
  do 33 (destruct n as [|n]; [by vm_compute|]). lia.
Qed.
Lemma land_mask x p : 0 ≤ p ≤ 32 → 0 ≤ x < U32 → Z.land x (subnet_mask p) = x / 2 ^ (32 - p) * 2 ^ (32 - p).
Proof.
  intros Hp Hx. rewrite subnet_mask_low by done. rewrite <- !Z.shiftl_mul_pow2, <- Z.shiftr_div_pow2 by lia.
  apply Z.bits_inj'. intros i Hi. rewrite Z.land_spec. destruct (Z.ltb_spec i (32 - p)).
  - rewrite !Z.shiftl_spec_low by lia. by rewrite andb_false_r.
  - rewrite !Z.shiftl_spec by lia. rewrite Z.shiftr_spec by lia. replace (i - (32 - p) + (32 - p)) with i by lia.
    rewrite Z.sub_1_r, <- Z.ones_equiv.
    destruct (Z.ltb_spec i 32).
    + rewrite Z.ones_spec_low by lia. by rewrite andb_true_r.
    + rewrite (Z.bits_above_log2 x i); [done|lia|]. destruct (decide (x = 0)) as [->|]; [cbn; lia|].
      apply Z.lt_le_trans with 32; [|lia]. apply Z.log2_lt_pow2; [lia|]. unfold U32 in Hx. lia.
Qed.
(** For prefixes up to 32 an address is in the subnet when its first bits agree. *)
Lemma in_subnet_exact bits network p r : 0 ≤ p ≤ 32 → 0 ≤ bits < U32 → 0 ≤ network < U32 →
  in_subnet bits (network, p, r) = true ↔ bits / 2 ^ (32 - p) = network / 2 ^ (32 - p).
Proof.
  intros Hp Hb Hn. unfold in_subnet. rewrite !land_mask by done. rewrite Z.eqb_eq.
  assert (0 < 2 ^ (32 - p)) by (apply Z.pow_pos_nonneg; lia). split; [|by intros ->]. intros E. nia.
Qed.
(** A larger prefix is masked with the low bits of the difference: 33 bans half of all
    addresses.  The documented form without the last octet is refused. *)
Theorem bad_prefix_bans_half :
  let bl := add_subnet_ban "1.2.3.0/33" "x" banlist_new in
  (is_banned 0 (V4 (100 * 2 ^ 24)) bl).2 = Some (Subnet 16909056 33)
  ∧ add_subnet_ban "154.217.246" "x" banlist_new = banlist_new.
Proof. by vm_compute. Qed.

(** ** Escalation *)

Definition repeat_op (n : nat) (f : IPBanlist → IPBanlist * bool) bl : IPBanlist := Nat.iter n (λ bl, (f bl).1) bl.
(** Failures that are promised never to escalate to a permanent ban count for one. *)
Theorem lenient_failures_escalate :
  let ip := V4 1 in
  let bl := repeat_op 19 (record_tls_violation 0 0 ip "tls") banlist_new in
  permanent_banlist bl !! ip = None
  ∧ is_Some (permanent_banlist (record_violation 0 0 ip "minor" bl).1 !! ip).
Proof. vm_compute. split; [done|by eexists]. Qed.

(** ** Restarts *)

Section restart.
Context `{MapIter}.

Inductive ban_op :=
| BWhitelist (ip : IpAddr) (r : string) | BSubnet (cidr r : string) | BUnbanSubnet (cidr : string)
| BTemp (ip : IpAddr) (secs : Z) (r : string) | BPermanent (ip : IpAddr) (r : string) | BGenesis (ip : IpAddr) (r : string)
| BCheck (ip : IpAddr) | BViolation (ip : IpAddr) (r : string) | BHandshake (ip : IpAddr) (r : string) | BTls (ip : IpAddr) (r : string)
| BFrameBomb (ip : IpAddr) (r : string) | BSevere (ip : IpAddr) (r : string) | BCleanup | BUnban (ip : IpAddr) | BClearAll.
Definition ban_exec bl (e : Z * Z * ban_op) : IPBanlist :=
  let '(now, unix, p) := e in
  match p with
  | BWhitelist ip r => add_to_whitelist ip r bl
  | BSubnet cidr r => add_subnet_ban cidr r bl
  | BUnbanSubnet cidr => (unban_subnet cidr bl).1
  | BTemp ip secs r => add_temp_ban now unix ip secs r bl
  | BPermanent ip r => add_permanent_ban ip r bl
  | BGenesis ip r => add_genesis_ban ip r bl
  | BCheck ip => (is_banned now ip bl).1
  | BViolation ip r => (record_violation now unix ip r bl).1
  | BHandshake ip r => (record_handshake_violation now unix ip r bl).1
  | BTls ip r => (record_tls_violation now unix ip r bl).1
  | BFrameBomb ip r => (record_frame_bomb_violation now unix ip r bl).1
  | BSevere ip r => (record_severe_violation now unix ip r bl).1
  | BCleanup => cleanup now bl
  | BUnban ip => (unban ip bl).1
  | BClearAll => (clear_all_bans bl).1
  end.

(** The wall clock is the monotonic clock plus an offset, in whole seconds. *)
Definition in_step (o now unix : Z) : Prop := unix * SECS ≤ now + o < (unix + 1) * SECS.
Definition timed (o : Z) (e : Z * Z * ban_op) : Prop :=
  let '(now, unix, p) := e in in_step o now unix ∧ 0 ≤ unix < 2 ^ 62 ∧ match p with BTemp _ secs _ => 0 ≤ secs < 2 ^ 62 | _ => True end.
Definition same_expiry (o : Z) (m d : option (Z * string)) : Prop :=
  match m, d with
  | Some (e, _), Some (u, _) => u * SECS ≤ e + o < (u + 1) * SECS
  | None, None => True
  | _, _ => False
  end.
(** The database holds what the memory holds. *)
Record mirrored (o : Z) (d : BanDb) bl : Prop := mkMirrored {
  mr_permanent : db_permanent d = permanent_banlist bl;
  mr_genesis : db_genesis d = wrong_genesis_banlist bl;
  mr_subnet : ∀ np, is_Some (db_subnet d !! np) ↔ np ∈ (subnet_banlist bl).*1;
  mr_temp : ∀ ip, same_expiry o (temp_banlist bl !! ip) (db_temp d !! ip);
}.
Definition kept_on_disk (o : Z) bl : Prop := ∃ d, ban_db bl = Some d ∧ mirrored o d bl.

Lemma same_expiry_delete o ip ip' (m d : gmap IpAddr (Z * string)) :
  same_expiry o (m !! ip') (d !! ip') → same_expiry o (delete ip m !! ip') (delete ip d !! ip').
Proof. intros Hs. destruct (decide (ip = ip')) as [->|]; [by rewrite !lookup_delete_eq|by rewrite !lookup_delete_ne]. Qed.

(** Each field with its tree. *)
Lemma disk_temp_ban o now unix ip secs r bl : in_step o now unix → 0 ≤ unix < 2 ^ 62 → 0 ≤ secs < 2 ^ 62 →
  kept_on_disk o bl → kept_on_disk o (add_temp_ban now unix ip secs r bl).
Proof.
  intros Ht Hu Hs (d & Ed & [M1 M2 M3 M4]). unfold kept_on_disk, add_temp_ban, persist_temp, on_db. cbn. rewrite Ed. eexists. split; [done|].
  split; cbn; [done..|]. intros ip'. destruct (decide (ip = ip')) as [->|]; [|by rewrite !lookup_insert_ne].
  rewrite !lookup_insert_eq. cbn. unfold in_step in Ht. rewrite add64_small by (unfold U64; lia). lia.
Qed.
Lemma disk_permanent_ban o ip r bl : kept_on_disk o bl → kept_on_disk o (add_permanent_ban ip r bl).
Proof.
  intros (d & Ed & [M1 M2 M3 M4]). unfold kept_on_disk, add_permanent_ban, persist_permanent, remove_temp, on_db. cbn. rewrite Ed. eexists. split; [done|].
  split; cbn; [by rewrite M1|done..|]. intros ip'. by apply same_expiry_delete.
Qed.
Lemma disk_violations o v unix ip c bl : kept_on_disk o bl → kept_on_disk o (persist_violation unix ip c (set_violations v bl)).
Proof.
  intros (d & Ed & [M1 M2 M3 M4]). unfold kept_on_disk, persist_violation, on_db. cbn. rewrite Ed. eexists. split; [done|]. by split.
Qed.
Lemma disk_count o now unix ip bl : kept_on_disk o bl → kept_on_disk o (count_violation now unix ip bl).1.
Proof. intros Hk. unfold count_violation. destruct (default _ _) as [c l]. by apply disk_violations. Qed.
Lemma disk_drop_temp o ip bl : kept_on_disk o bl → kept_on_disk o (remove_temp ip (set_temp (delete ip (temp_banlist bl)) bl)).
Proof.
  intros (d & Ed & [M1 M2 M3 M4]). unfold kept_on_disk, remove_temp, on_db. cbn. rewrite Ed. eexists. split; [done|].
  split; cbn; [done..|]. intros ip'. by apply same_expiry_delete.
Qed.
Lemma disk_drop_violation o ip bl : kept_on_disk o bl → kept_on_disk o (remove_violation ip (set_violations (delete ip (violations bl)) bl)).
Proof.
  intros (d & Ed & [M1 M2 M3 M4]). unfold kept_on_disk, remove_violation, on_db. cbn. rewrite Ed. eexists. split; [done|]. by split.
Qed.
Lemma disk_frame o x bl : kept_on_disk o bl → kept_on_disk o (set_frame x bl).
Proof. intros (d & Ed & [M1 M2 M3 M4]). exists d. by split. Qed.
Lemma disk_remove_all {V} o f (m : gmap IpAddr V) bl : (∀ ip bl, kept_on_disk o bl → kept_on_disk o (f ip bl)) →
  kept_on_disk o bl → kept_on_disk o (remove_all f m bl).
Proof. intros Hf. unfold remove_all. by apply foldl_preserve; auto. Qed.
Hint Resolve disk_temp_ban disk_permanent_ban disk_count disk_drop_temp disk_drop_violation disk_frame : timecoin.

Lemma disk_unban o ip bl : kept_on_disk o bl → kept_on_disk o (unban ip bl).1.
Proof.
  intros (d & Ed & [M1 M2 M3 M4]). unfold kept_on_disk, unban, remove_genesis, remove_violation, remove_temp, remove_permanent, on_db. cbn.
  rewrite Ed. eexists. split; [done|]. split; cbn; [by rewrite M1|by rewrite M2|done|]. intros ip'. by apply same_expiry_delete.
Qed.
Lemma disk_whitelist o ip r bl : kept_on_disk o bl → kept_on_disk o (add_to_whitelist ip r bl).
Proof.
  intros (d & Ed & [M1 M2 M3 M4]). unfold kept_on_disk, add_to_whitelist, remove_violation, remove_temp, remove_permanent, on_db. cbn.
  rewrite Ed. eexists. split; [done|]. split; cbn; [by rewrite M1|by rewrite M2|done|]. intros ip'. by apply same_expiry_delete.
Qed.
Lemma disk_subnet o cidr r bl : kept_on_disk o bl → kept_on_disk o (add_subnet_ban cidr r bl).
Proof.
  intros (d & Ed & [M1 M2 M3 M4]). unfold add_subnet_ban. destruct (parse_cidr cidr) as [[n p]|]; [|by exists d].
  unfold kept_on_disk, persist_subnet, on_db. cbn. rewrite Ed. eexists. split; [done|]. split; cbn; [done..| |done]. intros np.
  rewrite fmap_app, elem_of_app, <- M3. cbn. rewrite list_elem_of_singleton.
  destruct (decide ((n, p) = np)) as [<-|Hne]; [rewrite lookup_insert_eq; split; [by right|by eexists]|].
  rewrite lookup_insert_ne by done. intuition congruence.
Qed.
Lemma disk_unban_subnet o cidr bl : kept_on_disk o bl → kept_on_disk o (unban_subnet cidr bl).1.
Proof.
  intros (d & Ed & [M1 M2 M3 M4]). unfold unban_subnet. destruct (parse_cidr cidr) as [np|]; [|by exists d]. cbv zeta.
  set (kept := filter _ _). assert (∀ x, x ∈ kept.*1 ↔ x ∈ (subnet_banlist bl).*1 ∧ x ≠ np) as Hk.
  { intros x. unfold kept. rewrite !list_elem_of_fmap. setoid_rewrite list_elem_of_filter. naive_solver. }
  destruct (Nat.eqb_spec (length kept) (length (subnet_banlist bl))) as [El|]; cbn [negb fst].
  - exists d. split; [done|]. split; cbn; [done..| |done]. intros x. rewrite M3, Hk. split; [|by intros []]. intros Hx. split; [done|]. intros ->.
    apply list_elem_of_fmap in Hx as (y & -> & Hy). pose proof (length_filter_lt (λ s, s.1 ≠ y.1) _ y Hy ltac:(naive_solver)) as Hlt. fold kept in Hlt. lia.
  - unfold kept_on_disk, remove_subnet, on_db. cbn. rewrite Ed. eexists. split; [done|]. split; cbn; [done..| |done]. intros x.
    rewrite Hk, <- M3. destruct (decide (np = x)) as [->|Hne]; [rewrite lookup_delete_eq; split; [by intros [? ?]|naive_solver]|].
    rewrite lookup_delete_ne by done. naive_solver.
Qed.

(** Removing the keys of one map from another. *)
Definition strike {V W} (m : gmap IpAddr V) (x : gmap IpAddr W) : gmap IpAddr W := foldl (λ x e, delete e.1 x) x (iter m).
Lemma strike_lookup {V W} (m : gmap IpAddr V) (x : gmap IpAddr W) k : strike m x !! k = match m !! k with Some _ => None | None => x !! k end.
Proof.
  assert (∀ (l : list (IpAddr * V)) (x : gmap IpAddr W), foldl (λ x e, delete e.1 x) x l !! k = if decide (k ∈ l.*1) then None else x !! k) as Hl.
  { clear x. induction l as [|[k' v] l IH]; intros x; cbn [foldl fmap list_fmap].
    - by rewrite decide_False by apply not_elem_of_nil.
    - rewrite IH. cbn. destruct (decide (k ∈ l.*1)); [by rewrite decide_True by (by right)|].
      destruct (decide (k = k')) as [->|]; [rewrite decide_True by left; by rewrite lookup_delete_eq|].
      rewrite decide_False by (rewrite elem_of_cons; naive_solver). by rewrite lookup_delete_ne. }
  unfold strike. rewrite Hl. assert (k ∈ (iter m).*1 ↔ is_Some (m !! k)) as Hk.
  { rewrite (iter_perm m). rewrite list_elem_of_fmap. split.
    - intros ([k' v] & -> & Hin%elem_of_map_to_list). by eexists.
    - intros [v Hv]. exists (k, v). by rewrite elem_of_map_to_list. }
  destruct (m !! k) eqn:E; [rewrite decide_True by (apply Hk; by eexists)|rewrite decide_False by (rewrite Hk; by intros [? ?])]; done.
Qed.
(** The trees against given maps, while the two are out of step. *)
Definition kept_as (o : Z) bl (P : gmap IpAddr string) (T : gmap IpAddr (Z * string)) (N : Z * Z → Prop) : Prop :=
  ∃ d, ban_db bl = Some d ∧ db_permanent d = P ∧ db_genesis d = wrong_genesis_banlist bl
    ∧ (∀ np, is_Some (db_subnet d !! np) ↔ N np) ∧ ∀ ip, same_expiry o (T !! ip) (db_temp d !! ip).
Lemma strike_permanent o (l : list (IpAddr * string)) bl P T N : kept_as o bl P T N →
  kept_as o (foldl (λ bl e, remove_permanent e.1 bl) bl l) (foldl (λ x e, delete e.1 x) P l) T N.
Proof.
  revert bl P. induction l as [|e l IH]; intros bl P Hk; [done|]. cbn. apply IH. destruct Hk as (d & Ed & <- & Hg & Hn & Ht).
  unfold kept_as, remove_permanent, on_db. cbn. rewrite Ed. eexists. by split_and!.
Qed.
Lemma strike_temp o (l : list (IpAddr * (Z * string))) bl P T N : kept_as o bl P T N →
  kept_as o (foldl (λ bl e, remove_temp e.1 bl) bl l) P (foldl (λ x e, delete e.1 x) T l) N.
Proof.
  revert bl T. induction l as [|e l IH]; intros bl T Hk; [done|]. cbn. apply IH. destruct Hk as (d & Ed & Hp & Hg & Hn & Ht).
  unfold kept_as, remove_temp, on_db. cbn. rewrite Ed. eexists. split_and!; [done..|]. intros ip. by apply same_expiry_delete.
Qed.
Lemma strike_violations o (l : list (IpAddr * (Z * Z))) bl P T N : kept_as o bl P T N →
  kept_as o (foldl (λ bl e, remove_violation e.1 bl) bl l) P T N.
Proof.
  intros Hk. apply foldl_preserve; [|done]. intros bl' e (d & Ed & Hp & Hg & Hn & Ht).
  unfold kept_as, remove_violation, on_db. cbn. rewrite Ed. eexists. by split_and!.
Qed.
Lemma strike_subnets o (l : list (Z * Z * string)) bl P T N : kept_as o bl P T N →
  kept_as o (foldl (λ bl (s : Z * Z * string), remove_subnet s.1 bl) bl l) P T (λ np, N np ∧ np ∉ l.*1).
Proof.
  revert bl N. induction l as [|e l IH]; intros bl N Hk; cbn [foldl].
  - destruct Hk as (d & Ed & Hp & Hg & Hn & Ht). exists d. split_and!; [done..| |done]. intros np. rewrite Hn. cbn. pose proof (not_elem_of_nil np). tauto.
  - assert (kept_as o (remove_subnet e.1 bl) P T (λ np, N np ∧ np ≠ e.1)) as Hk'.
    { destruct Hk as (d & Ed & Hp & Hg & Hn & Ht). unfold kept_as, remove_subnet, on_db. cbn. rewrite Ed. eexists. split_and!; [done..| |done].
      intros np. cbn. destruct (decide (e.1 = np)) as [<-|]; [rewrite lookup_delete_eq; split; [by intros [? ?]|naive_solver]|].
      rewrite lookup_delete_ne, Hn by done. naive_solver. }
    destruct (IH _ _ Hk') as (d & Ed & Hp & Hg & Hn & Ht). exists d. split_and!; [done..| |done]. intros np. rewrite Hn. cbn. rewrite elem_of_cons. tauto.
Qed.
Lemma remove_alls_memory {V} (f : IpAddr → BanDb → BanDb) (m : gmap IpAddr V) bl :
  let bl' := remove_all (λ ip, on_db (f ip)) m bl in
  permanent_banlist bl' = permanent_banlist bl ∧ temp_banlist bl' = temp_banlist bl ∧ violations bl' = violations bl ∧ subnet_banlist bl' = subnet_banlist bl.
Proof. unfold remove_all. generalize (iter m). intros l. revert bl. induction l as [|e l IH]; intros bl; [done|]. cbn. by destruct (IH (on_db (f e.1) bl)) as (-> & -> & -> & ->). Qed.

Lemma disk_clear_all o bl : kept_on_disk o bl → kept_on_disk o (clear_all_bans bl).1.
Proof.
  intros (d & Ed & [M1 M2 M3 M4]). unfold clear_all_bans. cbv zeta. cbn [fst].
  set (b1 := remove_all remove_permanent _ bl). set (b2 := remove_all remove_temp _ b1). set (b3 := remove_all remove_violation _ b2).
  destruct (remove_alls_memory (λ ip, db_set_permanent (delete ip)) (permanent_banlist bl) bl) as (A1 & A2 & A3 & A4).
  destruct (remove_alls_memory (λ ip, db_set_temp (delete ip)) (temp_banlist b1) b1) as (B1 & B2 & B3 & B4).
  destruct (remove_alls_memory (λ ip, db_set_violations (delete ip)) (violations b2) b2) as (C1 & C2 & C3 & C4).
  change (remove_all _ (permanent_banlist bl) bl) with b1 in A1, A2, A3, A4. change (remove_all _ (temp_banlist b1) b1) with b2 in B1, B2, B3, B4.
  change (remove_all _ (violations b2) b2) with b3 in C1, C2, C3, C4.
  assert (kept_as o bl (permanent_banlist bl) (temp_banlist bl) (λ np, np ∈ (subnet_banlist bl).*1)) as K0 by (exists d; by split_and!).
  pose proof (strike_permanent _ (iter (permanent_banlist bl)) _ _ _ _ K0) as K1. pose proof (strike_temp _ (iter (temp_banlist b1)) _ _ _ _ K1) as K2.
  pose proof (strike_violations _ (iter (violations b2)) _ _ _ _ K2) as K3. pose proof (strike_subnets _ (subnet_banlist b3) _ _ _ _ K3) as K4.
  destruct K4 as (d4 & E4 & P4 & G4 & N4 & T4). exists d4. split; [exact E4|]. split; cbn.
  - assert (strike (permanent_banlist bl) (permanent_banlist bl) = ∅) as Es; [|exact (eq_trans P4 Es)].
    apply map_eq. intros k. rewrite strike_lookup, lookup_empty. by destruct (_ !! k).
  - exact G4.
  - intros np. rewrite N4, C4, B4, A4. pose proof (not_elem_of_nil np). tauto.
  - intros ip. specialize (T4 ip). rewrite lookup_empty. change (same_expiry o (strike (temp_banlist b1) (temp_banlist bl) !! ip) (db_temp d4 !! ip)) in T4.
    rewrite strike_lookup, A2 in T4. by destruct (temp_banlist bl !! ip).
Qed.

Lemma disk_exec o e bl : timed o e → kept_on_disk o bl → kept_on_disk o (ban_exec bl e).
Proof.
  destruct e as [[now unix] p]. intros (Hs & Hu & Hp) Hk. pose proof (disk_count o now unix) as Hc.
  assert (∀ ip secs r bl, 0 ≤ secs < 2 ^ 62 → kept_on_disk o bl → kept_on_disk o (add_temp_ban now unix ip secs r bl)) as Ht by (intros; by apply disk_temp_ban).
  destruct p; cbn [ban_exec].
  - by apply disk_whitelist.
  - by apply disk_subnet.
  - by apply disk_unban_subnet.
  - by apply Ht.
  - by apply disk_permanent_ban.
  - destruct Hk as (d & Ed & [M1 M2 M3 M4]). unfold kept_on_disk, add_genesis_ban, persist_genesis, on_db. cbn. rewrite Ed. eexists. split; [done|].
    split; cbn; [done|by rewrite M2|done..].
  - unfold is_banned. cbv zeta. assert (kept_on_disk o (drop_expired_frame now ip bl)) as Hk1.
    { unfold drop_expired_frame. destruct (_ !! ip) as [[? ?]|]; [|done]. destruct (_ <? _); [done|by apply disk_frame]. }
    set (b1 := drop_expired_frame now ip bl) in *. clearbody b1. assert (kept_on_disk o (drop_expired_temp now ip b1)) as Hk2.
    { unfold drop_expired_temp. destruct (_ !! ip) as [[? ?]|]; [|done]. destruct (_ <? _); [done|by apply disk_drop_temp]. }
    repeat case_match; done.
  - unfold record_violation. destruct (is_whitelisted bl ip); [done|]. specialize (Hc ip bl Hk). destruct (count_violation now unix ip bl) as [b c]. cbn [fst] in Hc.
    repeat case_match; cbn [fst]; try done; try (by apply Ht; [lia|]); by apply disk_permanent_ban.
  - unfold record_handshake_violation, record_lenient_violation. destruct (is_whitelisted bl ip); [done|]. specialize (Hc ip bl Hk).
    destruct (count_violation now unix ip bl) as [b c]. cbn [fst] in Hc. repeat case_match; cbn [fst]; try done; by apply Ht; [lia|].
  - unfold record_tls_violation, record_lenient_violation. destruct (is_whitelisted bl ip); [done|]. specialize (Hc ip bl Hk).
    destruct (count_violation now unix ip bl) as [b c]. cbn [fst] in Hc. repeat case_match; cbn [fst]; try done; by apply Ht; [lia|].
  - unfold record_frame_bomb_violation. specialize (Hc ip bl Hk). destruct (count_violation now unix ip bl) as [b c]. cbn [fst] in Hc.
    destruct (is_whitelisted b ip); cbn [fst]; [by apply disk_frame|]. apply Ht; [case_match; lia|done].
  - unfold record_severe_violation. destruct (default _ _) as [c l]. cbv zeta. pose proof (disk_violations o) as Hv.
    destruct (10 <=? _); cbn [fst]; [apply disk_permanent_ban|apply Ht; [lia|]]; by apply Hv.
  - unfold cleanup. cbv zeta. apply disk_remove_all; [apply disk_drop_violation|]. apply disk_remove_all; [apply disk_drop_temp|]. by apply disk_frame.
  - by apply disk_unban.
  - by apply disk_clear_all.
Qed.

(** Loading a tree: entries are skipped or inserted. *)
Lemma load_lookup {V W} (step : IPBanlist → IpAddr * V → IPBanlist) (φ : IPBanlist → gmap IpAddr W) (I : IPBanlist → Prop)
    (c : IpAddr * V → bool) (g : IpAddr * V → W) (m : gmap IpAddr V) bl :
  (∀ bl e, I bl → I (step bl e) ∧ φ (step bl e) = if c e then φ bl else <[e.1 := g e]> (φ bl)) → I bl →
  I (foldl step bl (iter m)) ∧ ∀ k, φ (foldl step bl (iter m)) !! k =
    match m !! k with Some v => if c (k, v) then φ bl !! k else Some (g (k, v)) | None => φ bl !! k end.
Proof.
  intros Hstep HI. assert (∀ l bl, NoDup l.*1 → I bl → I (foldl step bl l) ∧
    ∀ k, (∀ v, (k, v) ∈ l → φ (foldl step bl l) !! k = if c (k, v) then φ bl !! k else Some (g (k, v)))
       ∧ (k ∉ l.*1 → φ (foldl step bl l) !! k = φ bl !! k)) as Hl.
  { clear bl HI. induction l as [|e l IH]; intros bl Hnd HI; cbn [foldl].
    - split; [done|]. intros k. split; [by intros v ?%elem_of_nil|done].
    - cbn in Hnd. apply NoDup_cons in Hnd as [Hne Hnd]. destruct (Hstep bl e HI) as [HI' Eφ]. destruct (IH (step bl e) Hnd HI') as [J1 J2]. split; [done|].
      intros k. destruct (J2 k) as [J3 J4]. split.
      + intros v [<-|Hin]%elem_of_cons; [rewrite J4 by done; rewrite Eφ; cbn; destruct (c (k, v)); [done|by rewrite lookup_insert_eq]|].
        rewrite (J3 v Hin), Eφ. destruct (c (k, v)); [|done]. destruct (c e); [done|]. rewrite lookup_insert_ne; [done|]. intros Ek.
        apply Hne. apply list_elem_of_fmap. by exists (k, v).
      + cbn. rewrite not_elem_of_cons. intros [N1 N2]. rewrite J4, Eφ by done. destruct (c e); [done|]. by rewrite lookup_insert_ne. }
  assert (NoDup (iter m).*1) as Hnd by (rewrite (iter_perm m); apply NoDup_fst_map_to_list).
  destruct (Hl (iter m) bl Hnd HI) as [J1 J2]. split; [done|]. intros k. destruct (J2 k) as [J3 J4]. destruct (m !! k) as [v|] eqn:E.
  - apply J3. rewrite (iter_perm m). by apply elem_of_map_to_list.
  - apply J4. rewrite (iter_perm m), list_elem_of_fmap. intros ([k' v] & Ek & Hin%elem_of_map_to_list). cbn in Ek. congruence.
Qed.

Definition untouched_permanent bl bl' : Prop := whitelist bl' = whitelist bl ∧ temp_banlist bl' = temp_banlist bl ∧ subnet_banlist bl' = subnet_banlist bl
  ∧ wrong_genesis_banlist bl' = wrong_genesis_banlist bl ∧ frame_bomb_bans bl' = frame_bomb_bans bl.
Lemma load_permanent_spec d bl : permanent_banlist bl = ∅ → let bl' := load_permanent d bl in untouched_permanent bl bl' ∧
  ∀ ip, permanent_banlist bl' !! ip = if is_whitelisted bl ip then None else db_permanent d !! ip.
Proof.
  intros E0. cbv zeta. unfold load_permanent.
  destruct (load_lookup (λ b (e : IpAddr * string), if is_whitelisted b e.1 then remove_permanent e.1 b else set_permanent (<[e.1 := e.2]> (permanent_banlist b)) b)
    permanent_banlist (untouched_permanent bl) (λ e, is_whitelisted bl e.1) snd (db_permanent d) bl) as [J1 J2]; [|by repeat split|].
  { intros b e (U1 & U2 & U3 & U4 & U5). unfold is_whitelisted. rewrite U1. case_bool_decide; by repeat split. }
  split; [done|]. intros ip. rewrite J2, E0, lookup_empty. destruct (db_permanent d !! ip); cbn [fst snd]; by destruct (is_whitelisted bl ip).
Qed.
Definition untouched_temp bl bl' : Prop := whitelist bl' = whitelist bl ∧ permanent_banlist bl' = permanent_banlist bl ∧ subnet_banlist bl' = subnet_banlist bl
  ∧ wrong_genesis_banlist bl' = wrong_genesis_banlist bl ∧ frame_bomb_bans bl' = frame_bomb_bans bl.
Lemma load_temp_spec now unix d bl : temp_banlist bl = ∅ → let bl' := load_temp now unix d bl in untouched_temp bl bl' ∧
  ∀ ip, is_whitelisted bl ip = false → live now (temp_banlist bl' !! ip) ↔ match db_temp d !! ip with Some (u, _) => unix < u | None => False end.
Proof.
  intros E0. cbv zeta. unfold load_temp.
  destruct (load_lookup (λ b (e : IpAddr * (Z * string)), if is_whitelisted b e.1 || (e.2.1 <=? unix) then remove_temp e.1 b
      else set_temp (<[e.1 := (now + (e.2.1 - unix) * SECS, e.2.2)]> (temp_banlist b)) b)
    temp_banlist (untouched_temp bl) (λ e, is_whitelisted bl e.1 || (e.2.1 <=? unix)) (λ e, (now + (e.2.1 - unix) * SECS, e.2.2)) (db_temp d) bl) as [J1 J2]; [|by repeat split|].
  { intros b e (U1 & U2 & U3 & U4 & U5). unfold is_whitelisted. rewrite U1. destruct (_ || _); by repeat split. }
  split; [done|]. intros ip Hw. rewrite J2, E0, lookup_empty. cbn. rewrite Hw. destruct (db_temp d !! ip) as [[u r]|]; [|done]. cbn.
  destruct (Z.leb_spec u unix); cbn; [lia|]. unfold SECS. lia.
Qed.
Lemma load_subnets_spec d bl : subnet_banlist bl = [] → let bl' := load_subnets d bl in
  (whitelist bl' = whitelist bl ∧ permanent_banlist bl' = permanent_banlist bl ∧ temp_banlist bl' = temp_banlist bl
   ∧ wrong_genesis_banlist bl' = wrong_genesis_banlist bl ∧ frame_bomb_bans bl' = frame_bomb_bans bl)
  ∧ ∀ np, np ∈ (subnet_banlist bl').*1 ↔ is_Some (db_subnet d !! np).
Proof.
  intros E0. cbv zeta. unfold load_subnets. set (step := λ _ _, _).
  assert (∀ l b, let b' := foldl step b l in
    (whitelist b' = whitelist b ∧ permanent_banlist b' = permanent_banlist b ∧ temp_banlist b' = temp_banlist b
     ∧ wrong_genesis_banlist b' = wrong_genesis_banlist b ∧ frame_bomb_bans b' = frame_bomb_bans b)
    ∧ ∀ np, np ∈ (subnet_banlist b').*1 ↔ np ∈ (subnet_banlist b).*1 ∨ np ∈ l.*1) as Hl.
  { induction l as [|e l IH]; intros b; cbn [foldl].
    - split; [done|]. intros np. cbn. pose proof (not_elem_of_nil np). tauto.
    - destruct (IH (step b e)) as [(-> & -> & -> & -> & ->) J2]. cbv zeta in *.
      assert (∀ np, np ∈ (subnet_banlist (step b e)).*1 ↔ np ∈ (subnet_banlist b).*1 ∨ np = e.1) as Hstep.
      { intros np. unfold step. destruct (existsb _ _) eqn:Ex.
        - apply existsb_exists in Ex as (x & Hx%list_elem_of_In & Ex%bool_decide_eq_true). split; [by left|]. intros [?| ->]; [done|].
          apply list_elem_of_fmap. by exists x.
        - cbn. rewrite fmap_app, elem_of_app. cbn. by rewrite list_elem_of_singleton. }
      split; [unfold step; by destruct (existsb _ _)|]. intros np. rewrite J2, Hstep. cbn. rewrite elem_of_cons. tauto. }
  destruct (Hl (iter (db_subnet d)) bl) as [J1 J2]. split; [done|]. intros np. rewrite J2, E0. cbn. rewrite (iter_perm (db_subnet d)), list_elem_of_fmap. split.
  - intros [Hin%elem_of_nil|([k v] & -> & Hin%elem_of_map_to_list)]; [done|by eexists].
  - intros [v Hv]. right. exists (np, v). by rewrite elem_of_map_to_list.
Qed.

Lemma load_violations_spec now unix d bl : let bl' := load_violations now unix d bl in
  untouched_temp bl bl' ∧ temp_banlist bl' = temp_banlist bl.
Proof.
  cbv zeta. unfold load_violations. apply foldl_preserve; [|by repeat split].
  intros b e ((U1 & U2 & U3 & U4 & U5) & U6). destruct (_ || _); by repeat split.
Qed.
Lemma load_genesis_spec d bl : wrong_genesis_banlist bl = ∅ → let bl' := load_genesis d bl in
  (whitelist bl' = whitelist bl ∧ permanent_banlist bl' = permanent_banlist bl ∧ temp_banlist bl' = temp_banlist bl
   ∧ subnet_banlist bl' = subnet_banlist bl ∧ frame_bomb_bans bl' = frame_bomb_bans bl)
  ∧ wrong_genesis_banlist bl' = db_genesis d.
Proof.
  intros E0. cbv zeta. unfold load_genesis.
  destruct (load_lookup (λ b (e : IpAddr * string), set_genesis (<[e.1 := e.2]> (wrong_genesis_banlist b)) b) wrong_genesis_banlist
    (λ b, whitelist b = whitelist bl ∧ permanent_banlist b = permanent_banlist bl ∧ temp_banlist b = temp_banlist bl
      ∧ subnet_banlist b = subnet_banlist bl ∧ frame_bomb_bans b = frame_bomb_bans bl) (λ _, false) snd (db_genesis d) bl) as [J1 J2]; [|by repeat split|].
  { intros b e (U1 & U2 & U3 & U4 & U5). by repeat split. }
  split; [done|]. apply map_eq. intros ip. rewrite J2, E0, lookup_empty. by destruct (db_genesis d !! ip).
Qed.

Definition empty_db : BanDb := mkBanDb ∅ ∅ ∅ ∅ ∅.
Lemma iter_empty {K V} `{Countable K} : iter (∅ : gmap K V) = [].
Proof. apply Permutation_nil. rewrite iter_perm. by rewrite map_to_list_empty. Qed.
Lemma fresh_kept o now unix : kept_on_disk o (attach_storage now unix empty_db banlist_new).
Proof.
  unfold attach_storage, load_genesis, load_violations, load_subnets, load_temp, load_permanent. cbn. rewrite !iter_empty. cbn.
  exists empty_db. split; [done|]. split; [done..| |done]. intros np. cbn. rewrite lookup_empty. split; [by intros [? ?]|by intros ?%elem_of_nil].
Qed.
Lemma banned_subnet_keys bl bl' ip : (∀ np, np ∈ (subnet_banlist bl').*1 ↔ np ∈ (subnet_banlist bl).*1) →
  is_Some (in_banned_subnet bl' ip) ↔ is_Some (in_banned_subnet bl ip).
Proof.
  intros Hk. destruct ip as [bits|]; [|done]. cbn. rewrite !fmap_is_Some.
  assert (∀ b, is_Some (list_find (λ s, in_subnet bits s = true) (subnet_banlist b)) ↔ ∃ np, np ∈ (subnet_banlist b).*1 ∧ in_subnet bits (np, EmptyString) = true) as Hf.
  { intros b. split.
    - intros [[i s] (Hl & Hs & _)%list_find_Some]. exists s.1. split; [apply list_elem_of_fmap; exists s; split; [done|by eapply list_elem_of_lookup_2]|].
      by destruct s as [[n p] r].
    - intros (np & (s & -> & Hin)%list_elem_of_fmap & Hs). apply (list_find_elem_of _ _ s); [done|]. by destruct s as [[n p] r]. }
  rewrite !Hf. by setoid_rewrite Hk.
Qed.

(** C34: Bans survive a restart: after any history of bans, violations, checks, clean-ups
    and unbans with the database attached, a fresh list loaded from that database gives
    every address the same verdict as the old one without its frame-bomb bans, for every
    clock base after the restart, unless the temporary ban of the address is in its last
    second. *)
Theorem bans_survive_restart o now0 unix0 es now now' unix d ip :
  let bl := foldl ban_exec (attach_storage now0 unix0 empty_db banlist_new) es in
  Forall (timed o) es → in_step o now unix → ban_db bl = Some d →
  (∀ e r, temp_banlist bl !! ip = Some (e, r) → e ≤ now ∨ now + SECS ≤ e) →
  is_Some (is_banned now' ip (attach_storage now' unix d (set_whitelist (whitelist bl) banlist_new))).2
  ↔ is_Some (is_banned now ip (set_frame ∅ bl)).2.
Proof.
  cbv zeta. set (bl := foldl _ _ es). intros Hes Hstep Ed Hlast.
  assert (kept_on_disk o bl) as (d' & Ed' & [M1 M2 M3 M4]).
  { unfold bl. clear -Hes. pose proof (fresh_kept o now0 unix0) as Hk. revert Hk. generalize (attach_storage now0 unix0 empty_db banlist_new).
    induction es as [|e es IH]; intros b Hk; [done|]. apply Forall_cons in Hes as [He Hes]. cbn. apply IH; [done|]. by apply disk_exec. }
  rewrite Ed in Ed'. injection Ed' as <-. clearbody bl.
  unfold attach_storage. set (b0 := set_ban_db (Some d) (set_whitelist (whitelist bl) banlist_new)).
  destruct (load_permanent_spec d b0 eq_refl) as [(A1 & A2 & A3 & A4 & A5) A6]. set (b1 := load_permanent d b0) in *. clearbody b1.
  destruct (load_temp_spec now' unix d b1 A2) as [(B1 & B2 & B3 & B4 & B5) B6]. set (b2 := load_temp now' unix d b1) in *. clearbody b2.
  destruct (load_subnets_spec d b2 (eq_trans B3 A3)) as [(C1 & C2 & C3 & C4 & C5) C6]. set (b3 := load_subnets d b2) in *. clearbody b3.
  destruct (load_violations_spec now' unix d b3) as [(D1 & D2 & D3 & D4 & D5) D6]. set (b4 := load_violations now' unix d b3) in *. clearbody b4.
  destruct (load_genesis_spec d b4) as [(F1 & F2 & F3 & F4 & F5) F6]; [by rewrite D4, C4, B4, A4|]. set (b5 := load_genesis d b4) in *. clearbody b5.
  assert (whitelist b5 = whitelist bl) as Ew by (by rewrite F1, D1, C1, B1, A1).
  assert (frame_bomb_bans b5 = ∅) as Ef by (by rewrite F5, D5, C5, B5, A5).
  rewrite !is_banned_iff, Ef, F6, M2. cbn [set_frame frame_bomb_bans wrong_genesis_banlist temp_banlist permanent_banlist].
  assert (is_whitelisted b5 ip = is_whitelisted bl ip) as Ew' by (unfold is_whitelisted; by rewrite Ew). rewrite Ew'.
  change (is_whitelisted (set_frame ∅ bl) ip) with (is_whitelisted bl ip). change (in_banned_subnet (set_frame ∅ bl) ip) with (in_banned_subnet bl ip).
  rewrite (banned_subnet_keys bl b5) by (intros np; by rewrite F4, D3, C6, M3).
  destruct (is_whitelisted bl ip) eqn:Hw; [intuition discriminate|].
  rewrite F3, D6, C3. rewrite B6 by (unfold is_whitelisted in *; by rewrite A1).
  rewrite F2, D2, C2, B2, A6. assert (is_whitelisted b0 ip = false) as -> by exact Hw. rewrite M1.
  enough (match db_temp d !! ip with Some (u, _) => unix < u | None => False end ↔ live now (temp_banlist bl !! ip)) as -> by done.
  specialize (M4 ip). unfold in_step in Hstep. destruct (temp_banlist bl !! ip) as [[e r]|], (db_temp d !! ip) as [[u r']|]; cbn in M4 |- *; try done.
  specialize (Hlast e r eq_refl). unfold SECS in *. lia.
Qed.
End restart.

(** A ban of an hour, a check and a permanent ban; the restart comes ten minutes later. *)
Definition sample_bans : list (Z * Z * ban_op) :=
  [(0, 1000, BTemp (V4 1) 3600 "t"); (5 * SECS, 1005, BPermanent (V4 2) "p"); (6 * SECS, 1006, BCheck (V4 1)); (7 * SECS, 1007, BSubnet "9.9.9.0/24" "s")].
Lemma bans_survive_restart_witness :
  let bl := foldl (@ban_exec canonical_iter) (@attach_storage canonical_iter 0 0 empty_db banlist_new) sample_bans in
  is_Some (is_banned 0 (V4 1) (@attach_storage canonical_iter 0 1600 (default empty_db (ban_db bl)) (set_whitelist (whitelist bl) banlist_new))).2
  ↔ is_Some (is_banned (600 * SECS) (V4 1) (set_frame ∅ bl)).2.
Proof.
  refine (@bans_survive_restart canonical_iter (1000 * SECS) 0 0 sample_bans (600 * SECS) 0 1600 _ (V4 1) _ _ _ _).
  - repeat constructor; vm_compute; done.
  - vm_compute. split; [discriminate|reflexivity].
  - by vm_compute.
  - intros e r He. vm_compute in He. injection He as <- _. right. vm_compute. discriminate.
Defined.
