(* ===== verification/NetGuards.v ===== *)
(** * Guards of the network layer
    (src/network/rate_limiter.rs, ddos_guard.rs, sync_coordinator.rs, dedup_filter.rs)

    Self-contained state that decides whether a message, a connection or a synchronisation
    is let through.  Clocks are nanoseconds on one monotonic scale. *)

From Stdlib Require Import ZArith Lia Ascii String.
From stdpp Require Import base gmap strings list.
From S2P Require Import Prelude Types Registry BanList.

(** ** [RateLimiter] *)

Definition MAX_RATE_LIMIT_ENTRIES : nat := Z.to_nat 50000.
Record RateLimiter := mkLimiter {
  limits : gmap string (Z * Z);
  counters : gmap (string * string) (Z * Z);
  last_cleanup : Z;
}.
Definition default_limits : gmap string (Z * Z) := list_to_map
  [("tx", (1 * SECS, 50)); ("tx_finalized", (10 * SECS, 60)); ("utxo_query", (1 * SECS, 100)); ("subscribe", (60 * SECS, 10));
   ("vote", (1 * SECS, 100)); ("block", (1 * SECS, 10)); ("get_blocks", (10 * SECS, 100)); ("get_peers", (60 * SECS, 5));
   ("masternode_announce", (60 * SECS, 3)); ("get_masternodes", (60 * SECS, 6)); ("masternodes_response", (60 * SECS, 12));
   ("ping", (10 * SECS, 6)); ("pong", (10 * SECS, 6)); ("general", (1 * SECS, 100)); ("sync", (1 * SECS, 500))]%string.
Definition limiter_new (now : Z) : RateLimiter := mkLimiter default_limits ∅ now.
Definition limit_of (r : RateLimiter) (key : string) : Z * Z := default (1 * SECS, 10) (limits r !! key).
Definition younger (now max_age : Z) : gmap (string * string) (Z * Z) → gmap (string * string) (Z * Z) :=
  filter (λ e : (string * string) * (Z * Z), now - e.2.1 < max_age).
Definition force_cleanup (now max_age : Z) (r : RateLimiter) : RateLimiter := mkLimiter (limits r) (younger now max_age (counters r)) now.
(** The keys [key:ip] are pairs: no key contains a colon. *)
Definition emergency_cleanup (now : Z) (r : RateLimiter) : RateLimiter :=
  if (MAX_RATE_LIMIT_ENTRIES <=? size (counters r))%nat then force_cleanup now (300 * SECS) r else r.
(** The age is that of the message being checked, for the entries of all messages. *)
Definition regular_cleanup (now window : Z) (r : RateLimiter) : RateLimiter :=
  if 10 * SECS <? now - last_cleanup r then force_cleanup now (window * 10) r else r.
Definition check (now : Z) (key ip : string) (r : RateLimiter) : RateLimiter * bool :=
  let '(window, max) := limit_of r key in
  let r := regular_cleanup now window (emergency_cleanup now r) in
  let '(last_reset, count) := default (now, 0) (counters r !! (key, ip)) in
  let '(last_reset, count) := if window <? now - last_reset then (now, 0) else (last_reset, count) in
  let ok := negb (max <=? count) in
  (mkLimiter (limits r) (<[(key, ip) := (last_reset, if ok then count + 1 else count)]> (counters r)) (last_cleanup r), ok).

(** ** [DDoSGuard]: the subnet is the first three octets of an IPv4 address *)

Definition MAX_SUBNET_CONNECTS_PER_MIN : nat := 20.
Abbreviation DDoSGuard := (gmap Z (list Z)).
Definition subnet_of (ip : IpAddr) : option Z := match ip with V4 bits => Some (bits / 256) | V6 _ => None end.
Definition expired (now t : Z) : bool := 60 <=? (now - t) / SECS.
Fixpoint pop_expired (now : Z) (l : list Z) : list Z :=
  match l with t :: l' => if expired now t then pop_expired now l' else l | [] => [] end.
Definition check_and_record_subnet_rate (now : Z) (ip : IpAddr) (g : DDoSGuard) : DDoSGuard * bool :=
  match subnet_of ip with
  | None => (g, false)
  | Some s =>
      let l := pop_expired now (default [] (g !! s)) ++ [now] in
      (<[s := l]> g, (MAX_SUBNET_CONNECTS_PER_MIN <? length l)%nat)
  end.
Definition cleanup_subnet_rates (now : Z) (g : DDoSGuard) : DDoSGuard :=
  omap (λ l, match filter (λ t, expired now t = false) l with [] => None | l => Some l end) g.

(** ** [SyncCoordinator] *)

Definition SYNC_THROTTLE_DURATION : Z := 60 * SECS.
Definition MAX_CONCURRENT_SYNCS : Z := 20.
Inductive SyncSource := SPeriodic | SOpportunistic | SForkResolution | SManual.
Record SyncRequest := mkSync { sr_peer : string; sr_start : Z; sr_end : Z; sr_source : SyncSource; sr_created : Z }.
Record PeerSyncState := mkPeerSync { active_sync : option SyncRequest; last_sync_completed : option Z; queued_syncs : list SyncRequest }.
Record SyncCoordinator := mkCoordinator { peer_states : gmap string PeerSyncState; active_sync_count : Z }.
Definition coordinator_new : SyncCoordinator := mkCoordinator ∅ 0.
Inductive sync_error := Throttled (elapsed : Z).

Definition throttled (now : Z) (s : PeerSyncState) : bool :=
  match last_sync_completed s with Some t => now - t <? SYNC_THROTTLE_DURATION | None => false end.
Definition enqueue (q : SyncRequest) (s : PeerSyncState) : PeerSyncState := mkPeerSync (active_sync s) (last_sync_completed s) (queued_syncs s ++ [q]).
Definition request_sync (now : Z) (peer : string) (from to : Z) (source : SyncSource) (c : SyncCoordinator)
    : SyncCoordinator * result sync_error bool :=
  let s := default (mkPeerSync None None []) (peer_states c !! peer) in
  let q := mkSync peer from to source now in
  let put s n := mkCoordinator (<[peer := s]> (peer_states c)) n in
  let approve s n :=
    if throttled now s then (put s n, Err (Throttled (now - default 0 (last_sync_completed s))))
    else if MAX_CONCURRENT_SYNCS <=? n then (put (enqueue q s) n, Ok false)
    else (put (mkPeerSync (Some q) (last_sync_completed s) (queued_syncs s)) (n + 1), Ok true) in
  match active_sync s with
  | Some a =>
      if 60 * SECS <? now - sr_created a
      then approve (mkPeerSync None (last_sync_completed s) (queued_syncs s)) (sat_sub (active_sync_count c) 1)
      else (put (enqueue q s) (active_sync_count c), Ok false)
  | None => approve s (active_sync_count c)
  end.
Definition complete_sync (now : Z) (peer : string) (c : SyncCoordinator) : SyncCoordinator :=
  match peer_states c !! peer with
  | Some s => match active_sync s with
              | Some _ => mkCoordinator (<[peer := mkPeerSync None (Some now) (queued_syncs s)]> (peer_states c)) (sat_sub (active_sync_count c) 1)
              | None => c
              end
  | None => c
  end.
Definition cancel_sync (peer : string) (c : SyncCoordinator) : SyncCoordinator :=
  match peer_states c !! peer with
  | Some s => mkCoordinator (<[peer := mkPeerSync None (last_sync_completed s) []]> (peer_states c))
                (match active_sync s with Some _ => sat_sub (active_sync_count c) 1 | None => active_sync_count c end)
  | None => c
  end.
(** The queued requests that are started; the count of active ones is only read. *)
Definition ready (now : Z) (s : PeerSyncState) : option SyncRequest :=
  match active_sync s with Some _ => None | None => if throttled now s then None else head (queued_syncs s) end.
Fixpoint start_queued (now limit : Z) (es : list (string * PeerSyncState)) (m : gmap string PeerSyncState) : gmap string PeerSyncState * list SyncRequest :=
  match es with
  | [] => (m, [])
  | (peer, s) :: es =>
      match ready now s with
      | None => start_queued now limit es m
      | Some q =>
          let m := <[peer := mkPeerSync (Some q) (last_sync_completed s) (drop 1 (queued_syncs s))]> m in
          if limit <=? 1 then (m, [q]) else let '(m, qs) := start_queued now (limit - 1) es m in (m, q :: qs)
      end
  end.
Definition process_queued_syncs `{MapIter} (now : Z) (c : SyncCoordinator) : SyncCoordinator * list SyncRequest :=
  if MAX_CONCURRENT_SYNCS <=? active_sync_count c then (c, [])
  else let '(m, qs) := start_queued now (MAX_CONCURRENT_SYNCS - active_sync_count c) (iter (peer_states c)) (peer_states c) in
       (mkCoordinator m (active_sync_count c), qs).

(** ** [DeduplicationFilter]: the bit array is the set of its true positions *)

Definition FNV_OFFSET : Z := 14695981039346656037.
Definition FNV_PRIME : Z := 1099511628211.
Definition HASH_COUNT : nat := 7.
Record BloomFilter := mkBloom { bits : gset Z; bloom_size : Z }.
Definition bloom_new (approx_items : Z) : BloomFilter := mkBloom ∅ (Z.max (approx_items * 10) 10000).
Definition fnv (data : bytes) (seed : Z) : Z := foldl (λ h b, mul64 (Z.lxor h b) FNV_PRIME) (Z.lxor FNV_OFFSET seed) data.
Definition positions (f : BloomFilter) (item : bytes) : list Z := (λ i, fnv item (Z.of_nat i) mod bloom_size f) <$> seq 0 HASH_COUNT.
Definition bloom_contains (f : BloomFilter) (item : bytes) : bool := forallb (λ p, bool_decide (p ∈ bits f)) (positions f item).
Definition bloom_insert (f : BloomFilter) (item : bytes) : BloomFilter := mkBloom (bits f ∪ list_to_set (positions f item)) (bloom_size f).
Record DeduplicationFilter := mkDedup { current : BloomFilter; previous : BloomFilter; rotation_interval : Z; last_rotation : Z }.
Definition dedup_new (now interval : Z) : DeduplicationFilter := mkDedup (bloom_new 10000) (bloom_new 10000) interval now.
Definition check_and_insert (now : Z) (item : bytes) (f : DeduplicationFilter) : DeduplicationFilter * bool :=
  if bloom_contains (current f) item || bloom_contains (previous f) item then (f, true)
  else
    let f := if rotation_interval f <? now - last_rotation f
             then mkDedup (bloom_new 10000) (current f) (rotation_interval f) now else f in
    (mkDedup (bloom_insert (current f) item) (previous f) (rotation_interval f) (last_rotation f), false).
