(* ===== verification/NetProofs.v ===== *)
(** * Properties of the network guards *)

From Stdlib Require Import ZArith Lia Ascii String.
From stdpp Require Import base gmap strings list sorting.
From S2P Require Import Prelude Types Registry BanList NetGuards.

(** ** The subnet guard is a sliding window *)

Inductive guard_op := GAttempt (ip : IpAddr) | GCleanup.
Definition guard_exec (g : DDoSGuard) (e : Z * guard_op) : DDoSGuard :=
  match e.2 with GAttempt ip => (check_and_record_subnet_rate e.1 ip g).1 | GCleanup => cleanup_subnet_rates e.1 g end.
(** The times of the attempts from a subnet. *)
Definition attempts (s : Z) (es : list (Z * guard_op)) : list Z :=
  omap (λ e : Z * guard_op, match e.2 with GAttempt ip => if decide (subnet_of ip = Some s) then Some e.1 else None | GCleanup => None end) es.
Definition recent (now : Z) (l : list Z) : list Z := filter (λ t, expired now t = false) l.
Definition in_order (es : list (Z * guard_op)) : Prop := Sorted Z.le es.*1.

Lemma expired_mono now now' t : now ≤ now' → expired now t = true → expired now' t = true.
Proof. unfold expired. rewrite !Z.leb_le. intros Hn Ht. transitivity ((now - t) / SECS); [done|]. apply Z.div_le_mono; unfold SECS; lia. Qed.
Lemma expired_order now t t' : t ≤ t' → expired now t' = true → expired now t = true.
Proof. unfold expired. rewrite !Z.leb_le. intros Hn Ht. transitivity ((now - t') / SECS); [done|]. apply Z.div_le_mono; unfold SECS; lia. Qed.
Lemma recent_recent now now' l : now ≤ now' → recent now' (recent now l) = recent now' l.
Proof.
  intros Hn. unfold recent. rewrite list_filter_filter. apply filter_ext_in. intros t _. split; [by intros []|]. intros Ht. split; [done|].
  destruct (expired now t) eqn:E; [|done]. by rewrite (expired_mono now now' t Hn E) in Ht.
Qed.
Lemma filter_keep {A} (P : A → Prop) `{∀ x, Decision (P x)} l : Forall P l → filter P l = l.
Proof. induction 1; [done|]. rewrite filter_cons, decide_True by done. by f_equal. Qed.
Lemma pop_expired_sorted now l : StronglySorted Z.le l → pop_expired now l = recent now l.
Proof.
  induction 1 as [|t l Hs IH Hf]; [done|]. cbn [pop_expired]. unfold recent. rewrite filter_cons. destruct (expired now t) eqn:E.
  - rewrite decide_False by done. exact IH.
  - rewrite decide_True by done. f_equal. symmetry. apply filter_keep, Forall_forall. intros x Hx.
    destruct (expired now x) eqn:Ex; [|done]. rewrite Forall_forall in Hf. by rewrite (expired_order now t x (Hf x Hx) Ex) in E.
Qed.
Lemma recent_sorted now l : StronglySorted Z.le l → StronglySorted Z.le (recent now l).
Proof.
  intros Hs. induction Hs as [|t l Hs IH Hf]; [constructor|]. unfold recent. rewrite filter_cons. case_decide; [|done].
  constructor; [done|]. by apply Forall_filter.
Qed.

(** What the guard stores for a subnet, at the time [now] and later. *)
Record guards (now : Z) (g : DDoSGuard) (es : list (Z * guard_op)) : Prop := mkGuards {
  gd_sorted : ∀ s, StronglySorted Z.le (default [] (g !! s)) ∧ Forall (λ t, t ≤ now) (default [] (g !! s));
  gd_recent : ∀ s now', now ≤ now' → recent now' (default [] (g !! s)) = recent now' (attempts s es);
}.
Lemma attempts_snoc s es e : attempts s (es ++ [e]) = attempts s es ++ attempts s [e].
Proof. unfold attempts. apply omap_app. Qed.
Lemma recent_app now l l' : recent now (l ++ l') = recent now l ++ recent now l'.
Proof. apply filter_app. Qed.
Lemma sorted_snoc l t : StronglySorted Z.le l → Forall (λ x, x ≤ t) l → StronglySorted Z.le (l ++ [t]).
Proof.
  induction 1 as [|x l Hs IH Hf]; intros Ha; [by repeat constructor|]. apply Forall_cons in Ha as [Hx Ha]. cbn. constructor; [by apply IH|].
  apply Forall_app. split; [done|]. by repeat constructor.
Qed.

Lemma guards_attempt now g es ip now' : guards now g es → now ≤ now' →
  guards now' (check_and_record_subnet_rate now' ip g).1 (es ++ [(now', GAttempt ip)]).
Proof.
  intros [G1 G2] Hn. unfold check_and_record_subnet_rate. destruct (subnet_of ip) as [s|] eqn:Es; cbn [fst].
  2:{ split; [intros s; destruct (G1 s) as [? Hf]; split; [done|]; eapply Forall_impl; [done|]; cbn; lia|].
      intros s n' Hn'. rewrite attempts_snoc, recent_app, G2 by lia. unfold attempts at 2. cbn. rewrite decide_False by (rewrite Es; done). cbn. by rewrite app_nil_r. }
  destruct (G1 s) as [Hs Hf]. rewrite pop_expired_sorted by done. split.
  - intros s'. destruct (decide (s = s')) as [<-|]; [rewrite lookup_insert_eq; cbn|rewrite lookup_insert_ne by done; destruct (G1 s') as [? Hf']; split; [done|]; eapply Forall_impl; [done|]; cbn; lia].
    assert (Forall (λ x, x ≤ now') (recent now' (default [] (g !! s)))) as Hr by (apply Forall_filter; eapply Forall_impl; [done|]; cbn; lia).
    split; [apply sorted_snoc; [by apply recent_sorted|done]|]. apply Forall_app. split; [done|]. by repeat constructor.
  - intros s' n' Hn'. rewrite attempts_snoc, recent_app. unfold attempts at 2. cbn [omap list_omap snd fst]. destruct (decide (s = s')) as [<-|Hne].
    + rewrite lookup_insert_eq. cbn [from_option id]. rewrite decide_True by done. rewrite recent_app, recent_recent, G2 by lia. done.
    + rewrite lookup_insert_ne by done. rewrite G2 by lia. rewrite decide_False by (rewrite Es; congruence). cbn. by rewrite app_nil_r.
Qed.
Lemma guards_cleanup now g es now' : guards now g es → now ≤ now' → guards now' (cleanup_subnet_rates now' g) (es ++ [(now', GCleanup)]).
Proof.
  intros [G1 G2] Hn. assert (∀ s, default [] (cleanup_subnet_rates now' g !! s) = recent now' (default [] (g !! s))) as Hc.
  { intros s. unfold cleanup_subnet_rates. rewrite lookup_omap. destruct (g !! s) as [l|]; [|done]. cbn. unfold recent. by destruct (filter _ l). }
  split.
  - intros s. rewrite Hc. destruct (G1 s) as [Hs Hf]. split; [by apply recent_sorted|]. apply Forall_filter. eapply Forall_impl; [done|]. cbn. lia.
  - intros s n' Hn'. rewrite Hc, recent_recent, G2 by lia. rewrite attempts_snoc. cbn. by rewrite app_nil_r.
Qed.
Lemma in_order_snoc es t e : in_order (es ++ [(t, e)]) → in_order es ∧ (es = [] ∨ List.last es.*1 0 ≤ t).
Proof.
  unfold in_order. rewrite fmap_app. cbn [fmap list_fmap fst]. induction es as [|[t0 e0] es IH]; [by split; [constructor|left]|].
  cbn [fmap list_fmap fst app]. intros [Ho Hh]%Sorted_inv. destruct (IH Ho) as [J1 J2]. split.
  - constructor; [done|]. destruct es; [constructor|by inversion Hh; constructor].
  - right. destruct J2 as [->|J2]; [cbn in *; by inversion Hh|]. destruct es as [|e1 es]; [cbn in *; by inversion Hh|exact J2].
Qed.
Lemma guards_run es : in_order es → ∀ now, (es = [] ∨ List.last es.*1 0 ≤ now) → ∃ now', now' ≤ now ∧ guards now' (foldl guard_exec ∅ es) es.
Proof.
  induction es as [|[t e] es IH] using rev_ind; intros Ho now Hn.
  - exists now. split; [done|]. cbn [foldl]. split; [intros s; rewrite lookup_empty; by repeat constructor|intros s n Hle; by rewrite lookup_empty].
  - apply in_order_snoc in Ho as [Ho Hl]. destruct (IH Ho t Hl) as (n' & Hle & Hg). rewrite foldl_snoc. exists t. split.
    + destruct Hn as [Hn|Hn]; [by destruct es|]. rewrite fmap_app in Hn; cbn [fmap list_fmap fst] in Hn; rewrite List.last_last in Hn. exact Hn.
    + destruct e as [ip|]; cbn [guard_exec fst snd]; [by eapply guards_attempt|by eapply guards_cleanup].
Qed.

(** The queue of the subnet guard is an exact sliding window: with a clock that does not go
    back, a connection is refused iff at least twenty attempts from its /24 were made in the
    last sixty seconds, through any clean-ups. *)
Theorem subnet_window_exact es now ip s : in_order (es ++ [(now, GAttempt ip)]) → subnet_of ip = Some s →
  (check_and_record_subnet_rate now ip (foldl guard_exec ∅ es)).2 = true ↔ (MAX_SUBNET_CONNECTS_PER_MIN ≤ length (recent now (attempts s es)))%nat.
Proof.
  intros [Ho Hl]%in_order_snoc Es. destruct (guards_run es Ho now Hl) as (n' & Hle & [G1 G2]).
  unfold check_and_record_subnet_rate. rewrite Es. cbn [snd]. destruct (G1 s) as [Hs _]. rewrite pop_expired_sorted, G2 by done.
  rewrite length_app. cbn [length]. unfold MAX_SUBNET_CONNECTS_PER_MIN. rewrite Nat.ltb_lt. lia.
Qed.
Definition sample_attempts : list (Z * guard_op) := (λ i, (Z.of_nat i * SECS, GAttempt (V4 (Z.of_nat i)))) <$> seq 0 21.
Lemma subnet_window_exact_witness :
  (check_and_record_subnet_rate (21 * SECS) (V4 7) (foldl guard_exec ∅ sample_attempts)).2 = true
  ↔ (MAX_SUBNET_CONNECTS_PER_MIN ≤ length (recent (21 * SECS) (attempts 0 sample_attempts)))%nat.
Proof.
  refine (subnet_window_exact sample_attempts (21 * SECS) (V4 7) 0 _ eq_refl). unfold in_order. cbv [sample_attempts seq fmap list_fmap app fst SECS].
  repeat constructor; vm_compute; discriminate.
Defined.

(** ** The rate limiter *)

Definition limiter_run (r : RateLimiter) (es : list (Z * string * string)) : RateLimiter := foldl (λ r e, (check e.1.1 e.1.2 e.2 r).1) r es.
(** How many messages of a kind from a peer are let through. *)
Fixpoint served (key ip : string) (r : RateLimiter) (es : list (Z * string * string)) : Z :=
  match es with
  | [] => 0
  | e :: es => (if (check e.1.1 e.1.2 e.2 r).2 && bool_decide (e.1.2 = key ∧ e.2 = ip) then 1 else 0) + served key ip (check e.1.1 e.1.2 e.2 r).1 es
  end.

Lemma younger_lookup now age m k : younger now age m !! k = match m !! k with Some (t, c) => if decide (now - t < age) then Some (t, c) else None | None => None end.
Proof.
  unfold younger. rewrite map_lookup_filter. destruct (m !! k) as [[t c]|]; [|done]. cbn. repeat case_guard; repeat case_decide; done || tauto.
Qed.
(** Cleaning keeps an entry or drops it for its age. *)
Lemma cleaned_lookup now window r k : let r' := regular_cleanup now window (emergency_cleanup now r) in
  limits r' = limits r ∧ (counters r' !! k = counters r !! k
    ∨ ∃ t c, counters r !! k = Some (t, c) ∧ counters r' !! k = None ∧ (300 * SECS ≤ now - t ∨ window * 10 ≤ now - t)).
Proof.
  cbv zeta. assert (∀ age r, counters (force_cleanup now age r) !! k = counters r !! k
    ∨ ∃ t c, counters r !! k = Some (t, c) ∧ counters (force_cleanup now age r) !! k = None ∧ age ≤ now - t) as Hf.
  { intros age r0. cbn. rewrite younger_lookup. destruct (counters r0 !! k) as [[t c]|]; [|by left]. case_decide; [by left|]. right. exists t, c. split_and!; [done..|lia]. }
  unfold regular_cleanup, emergency_cleanup. destruct (MAX_RATE_LIMIT_ENTRIES <=? _)%nat.
  - destruct (_ <? _); (split; [done|]).
    + destruct (Hf (300 * SECS) r) as [E|(t & c & E1 & E2 & E3)].
      * destruct (Hf (window * 10) (force_cleanup now (300 * SECS) r)) as [E'|(t & c & E1 & E2 & E3)]; [left; congruence|]. right. exists t, c. rewrite <- E. auto.
      * right. exists t, c. split; [done|]. split; [|by left]. destruct (Hf (window * 10) (force_cleanup now (300 * SECS) r)) as [E'|(? & ? & _ & E' & _)]; congruence.
    + destruct (Hf (300 * SECS) r) as [E|(t & c & E1 & E2 & E3)]; [by left|]. right. exists t, c. auto.
  - destruct (_ <? _); (split; [done|]); [|by left]. destruct (Hf (window * 10) r) as [E|(t & c & E1 & E2 & E3)]; [by left|]. right. exists t, c. auto.
Qed.

Section limiter.
Context (key ip : string) (lim : gmap string (Z * Z)) (T : Z).
Definition limit_in (k : string) : Z * Z := default (1 * SECS, 10) (lim !! k).
Context (w m : Z) (Hlimit : limit_in key = (w, m)) (Hw : 0 ≤ w < 300 * SECS) (Hm : 0 ≤ m).
(** Messages in one window, none of which is tracked much shorter than [key]. *)
Definition calm (e : Z * string * string) : Prop := T ≤ e.1.1 ≤ T + w ∧ w < (limit_in e.1.2).1 * 10.
Definition own (r : RateLimiter) : option (Z * Z) := counters r !! (key, ip).

Lemma check_step e r : limits r = lim → calm e → let r' := (check e.1.1 e.1.2 e.2 r).1 in let ok := (check e.1.1 e.1.2 e.2 r).2 in
  limits r' = lim ∧
  ((e.1.2 ≠ key ∨ e.2 ≠ ip) ∧ (own r' = own r ∨ ∃ t c, own r = Some (t, c) ∧ own r' = None ∧ w < e.1.1 - t)
   ∨ e.1.2 = key ∧ e.2 = ip ∧
     (ok = (0 <? m) ∧ own r' = Some (e.1.1, if 0 <? m then 1 else 0) ∧ (own r = None ∨ ∃ t c, own r = Some (t, c) ∧ w < e.1.1 - t)
      ∨ ∃ t c, own r = Some (t, c) ∧ ok = (c <? m) ∧ own r' = Some (t, if c <? m then c + 1 else c))).
Proof.
  intros Hl [Ht Hc]. destruct e as [[now k] i]. cbn [fst snd] in *. cbv zeta. unfold check, limit_of. rewrite Hl. fold (limit_in k).
  destruct (limit_in k) as [window max] eqn:Elim. cbn [fst] in Hc. cbv zeta.
  destruct (cleaned_lookup now window r (key, ip)) as [L1 L2]. destruct (cleaned_lookup now window r (k, i)) as [_ L3].
  set (r1 := regular_cleanup now window (emergency_cleanup now r)) in *. clearbody r1. rewrite Hl in L1.
  assert (own r1 = own r ∨ ∃ t c, own r = Some (t, c) ∧ own r1 = None ∧ w < now - t) as Hown.
  { destruct L2 as [E|(t & c & E1 & E2 & E3)]; [by left|]. right. exists t, c. split_and!; [done..|]. unfold SECS in *. lia. }
  destruct (decide (k = key ∧ i = ip)) as [[-> ->]|Hne].
  - rewrite Hlimit in Elim. injection Elim as <- <-. change (counters r1 !! (key, ip)) with (own r1).
    assert (∀ t c, let ok := negb (m <=? c) in
      own (mkLimiter (limits r1) (<[(key, ip) := (t, if ok then c + 1 else c)]> (counters r1)) (last_cleanup r1)) = Some (t, if c <? m then c + 1 else c)
      ∧ ok = (c <? m)) as Hput.
    { intros t c. cbv zeta. unfold own. cbn [counters]. rewrite lookup_insert_eq, Z.leb_antisym, negb_involutive. done. }
    destruct (own r1) as [[t c]|] eqn:Eo; cbn [from_option id].
    + destruct Hown as [Hown|(? & ? & _ & ? & _)]; [|done]. destruct (Z.ltb_spec w (now - t)); cbn [fst snd].
      * destruct (Hput now 0) as [P1 P2]. split; [exact L1|]. right. split; [done|]. split; [done|]. left. rewrite P1, P2. split; [done|]. split; [done|].
        right. exists t, c. by rewrite <- Hown.
      * destruct (Hput t c) as [P1 P2]. split; [exact L1|]. right. split; [done|]. split; [done|]. right. exists t, c. rewrite P1, P2. by rewrite <- Hown.
    + assert ((if w <? now - now then (now, 0) else (now, 0)) = (now, 0)) as -> by (by destruct (w <? now - now)). cbn [fst snd].
      destruct (Hput now 0) as [P1 P2]. split; [exact L1|]. right. split; [done|]. split; [done|]. left. rewrite P1, P2. split; [done|]. split; [done|].
      destruct Hown as [Hown|(t & c & E1 & _ & E3)]; [left; congruence|right; by exists t, c].
  - destruct (default (now, 0) _) as [t0 c0]. destruct (if window <? now - t0 then _ else _) as [t1 c1]. cbn [fst snd limits counters]. split; [done|]. left.
    split; [destruct (decide (k = key)); [right; naive_solver|by left]|]. unfold own at 1 4. cbn [counters]. rewrite lookup_insert_ne by naive_solver. exact Hown.
Qed.

(** Once the window has begun at [t1] in the interval, it lasts to the end of it. *)
Lemma served_window r es t1 c : limits r = lim → Forall calm es → own r = Some (t1, c) → T ≤ t1 → served key ip r es ≤ Z.max 0 (m - c).
Proof.
  revert r c. induction es as [|e es IH]; intros r c Hl Hcalm Ho Ht; cbn [served]; [lia|]. apply Forall_cons in Hcalm as [He Hcalm].
  destruct (check_step e r Hl He) as [Hl' Hstep]. destruct (check _ _ _ r) as [r' ok]. cbn [fst snd] in *. destruct He as [He _].
  destruct Hstep as [[Hne Hown]|(-> & -> & Hown)].
  - rewrite (bool_decide_false) by tauto. rewrite andb_false_r. destruct Hown as [Hown|(t & c' & E1 & _ & E3)]; [rewrite Z.add_0_l; apply (IH r' c Hl' Hcalm); [congruence|done]|].
    rewrite Ho in E1. injection E1 as <- <-. lia.
  - rewrite bool_decide_true, andb_true_r by done. destruct Hown as [(_ & _ & [E|(t & c' & E1 & E3)])|(t & c' & E1 & Eok & E2)]; [congruence| |].
    + rewrite Ho in E1. injection E1 as <- <-. lia.
    + rewrite Ho in E1. injection E1 as <- <-. subst ok. specialize (IH _ _ Hl' Hcalm E2 Ht). destruct (Z.ltb_spec c m); lia.
Qed.
Definition allowance (o : option (Z * Z)) : Z := match o with Some (_, c) => Z.max 0 (m - c) + m | None => m end.
Lemma served_allowance r es : limits r = lim → Forall calm es → (∀ t c, own r = Some (t, c) → 0 ≤ c) → served key ip r es ≤ allowance (own r).
Proof.
  revert r. induction es as [|e es IH]; intros r Hl Hcalm Hpos; cbn [served]; [unfold allowance; destruct (own r) as [[? ?]|]; lia|].
  apply Forall_cons in Hcalm as [He Hcalm]. pose proof He as [Ht _].
  destruct (check_step e r Hl He) as [Hl' Hstep]. pose proof (served_window (check e.1.1 e.1.2 e.2 r).1 es) as Hwin. destruct (check _ _ _ r) as [r' ok]. cbn [fst snd] in *.
  destruct Hstep as [[Hne Hown]|(-> & -> & Hown)].
  - rewrite bool_decide_false by tauto. rewrite andb_false_r. destruct Hown as [Hown|(t & c' & E1 & E2 & E3)].
    + rewrite <- Hown. rewrite Z.add_0_l. apply IH; [done..|]. by rewrite Hown.
    + specialize (IH r' Hl' Hcalm). rewrite E2 in IH. specialize (IH ltac:(done)). rewrite E1. cbn in *. lia.
  - rewrite bool_decide_true, andb_true_r by done. destruct Hown as [(Eok & E2 & _)|(t & c' & E1 & Eok & E2)].
    + specialize (Hwin _ _ Hl' Hcalm E2 ltac:(lia)). subst ok. unfold allowance. destruct (own r) as [[? ?]|], (Z.ltb_spec 0 m); lia.
    + pose proof (Hpos _ _ E1). specialize (IH r' Hl' Hcalm). rewrite E2 in IH. rewrite E1. subst ok. cbn [allowance] in *.
      specialize (IH ltac:(intros ? ? [= <- <-]; destruct (c' <? m); lia)). destruct (Z.ltb_spec c' m); lia.
Qed.
End limiter.

Lemma check_positive e r key ip : (∀ k t c, counters r !! k = Some (t, c) → 0 ≤ c) → limits (check e key ip r).1 = limits r ∧
  ∀ k t c, counters (check e key ip r).1 !! k = Some (t, c) → 0 ≤ c.
Proof.
  intros Hp. unfold check. destruct (limit_of r key) as [window max]. cbv zeta.
  pose proof (λ k, cleaned_lookup e window r k) as Hc. set (r1 := regular_cleanup _ _ _) in *. clearbody r1.
  assert (limits r1 = limits r) as El by apply (Hc (key, ip)).
  assert (∀ k t c, counters r1 !! k = Some (t, c) → 0 ≤ c) as Hp1.
  { intros k t c Hk. destruct (Hc k) as [_ [E|(? & ? & _ & E & _)]]; [rewrite E in Hk; by eapply Hp|congruence]. }
  destruct (default (e, 0) (counters r1 !! (key, ip))) as [t0 c0] eqn:E0.
  assert (0 ≤ c0) as Hc0 by (destruct (counters r1 !! (key, ip)) as [[? ?]|] eqn:E; cbn in E0; injection E0 as <- <-; [by eapply Hp1|lia]).
  destruct (if window <? e - t0 then _ else _) as [t1 c1] eqn:E1. assert (0 ≤ c1) by (destruct (_ <? _); injection E1 as <- <-; lia).
  cbn [fst limits counters]. split; [done|]. intros k t c [[<- [= <- <-]]|[_ Hk]]%lookup_insert_Some; [|by eapply Hp1]. destruct (negb _); lia.
Qed.
Lemma run_positive es r : (∀ k t c, counters r !! k = Some (t, c) → 0 ≤ c) → limits (limiter_run r es) = limits r ∧
  ∀ k t c, counters (limiter_run r es) !! k = Some (t, c) → 0 ≤ c.
Proof.
  revert r. induction es as [|e es IH]; intros r Hp; [done|]. cbn. destruct (check_positive e.1.1 r e.1.2 e.2 Hp) as [E1 E2]. destruct (IH _ E2) as [E3 E4].
  split; [exact (eq_trans E3 E1)|exact E4].
Qed.

(** C35: The rate limiter keeps its promise up to the window boundary: whatever was sent
    before, within one window of a kind of message at most twice its limit is let through
    from one peer, as long as the messages in between are of kinds whose windows are not ten
    times shorter. *)
Theorem rate_limit_bound start past es T key ip : let r := limiter_run (limiter_new start) past in let lim := default_limits in
  Forall (calm lim T (limit_in lim key).1) es → served key ip r es ≤ 2 * (limit_in lim key).2.
Proof.
  cbv zeta. intros Hcalm. destruct (run_positive past (limiter_new start)) as [E1 E2]; [done|].
  assert (0 ≤ (limit_in default_limits key).1 < 300 * SECS ∧ 0 ≤ (limit_in default_limits key).2) as [Hw Hm].
  { unfold limit_in. destruct (default_limits !! key) as [[w m]|] eqn:E; [|vm_compute; done]. cbn.
    assert (map_Forall (λ _ (x : Z * Z), 0 ≤ x.1 < 300 * SECS ∧ 0 ≤ x.2) default_limits) as Hall by (apply (bool_decide_unpack _); by vm_compute).
    exact (Hall _ _ E). }
  destruct (limit_in default_limits key) as [w m] eqn:El. cbn [fst snd] in *.
  pose proof (served_allowance key ip default_limits T w m El Hw Hm _ es E1 Hcalm (λ t c, E2 (key, ip) t c)) as Hs.
  transitivity (allowance m (own key ip (limiter_run (limiter_new start) past))); [exact Hs|]. unfold allowance.
  destruct (own _ _ _) as [[t c]|] eqn:Eo; [|lia]. pose proof (E2 _ _ _ Eo). lia.
Qed.
Definition burst (n : nat) (t : Z) (key : string) : list (Z * string * string) := replicate n (t, key, "p"%string).
Lemma rate_limit_bound_witness :
  served "tx" "p" (limiter_run (limiter_new 0) (burst 3 0 "tx")) (burst 2 SECS "tx" ++ burst 2 (2 * SECS) "block") ≤ 2 * 50.
Proof.
  refine (rate_limit_bound 0 (burst 3 0 "tx") (burst 2 SECS "tx" ++ burst 2 (2 * SECS) "block") SECS "tx" "p" _).
  repeat constructor; vm_compute; done.
Defined.
(** A cheap message drops the counters of expensive ones: with one transaction every eleven
    seconds a peer sends 30 requests for peers within a minute, where five are allowed. *)
Theorem cheap_message_resets_limit :
  served "get_peers" "p" (limiter_new 0)
    (flat_map (λ i, burst 1 (i * 11 * SECS) "tx" ++ burst 6 (i * 11 * SECS) "get_peers") [0; 1; 2; 3; 4; 5]) = 30.
Proof. by vm_compute. Qed.

(** ** Deduplication *)

Lemma bloom_insert_contains f item : bloom_contains (bloom_insert f item) item = true.
Proof.
  unfold bloom_contains. apply forallb_forall. intros p Hp%list_elem_of_In. apply bool_decide_eq_true. cbn [bits bloom_insert]. apply elem_of_union_r, elem_of_list_to_set. exact Hp.
Qed.
Lemma bloom_insert_keeps f item item' : bloom_contains f item = true → bloom_contains (bloom_insert f item') item = true.
Proof.
  unfold bloom_contains. rewrite !forallb_forall. intros Hf p Hp. specialize (Hf p Hp). apply bool_decide_eq_true in Hf. apply bool_decide_eq_true.
  cbn [bits bloom_insert]. by apply elem_of_union_l.
Qed.
Definition dedup_run (f : DeduplicationFilter) (es : list (Z * bytes)) : DeduplicationFilter := foldl (λ f e, (check_and_insert e.1 e.2 f).1) f es.
(** The item is in the current window, or in the previous one that began after [t]. *)
Definition remembers (t R : Z) (item : bytes) (f : DeduplicationFilter) : Prop :=
  rotation_interval f = R ∧ (bloom_contains (current f) item = true ∨ bloom_contains (previous f) item = true ∧ t ≤ last_rotation f).
Lemma remembers_step t R item f e : t ≤ e.1 ≤ t + R → remembers t R item f → remembers t R item (check_and_insert e.1 e.2 f).1.
Proof.
  intros He [ER Hm]. unfold check_and_insert. destruct (_ || _); [by split|]. cbv zeta. cbn [fst]. destruct (Z.ltb_spec (rotation_interval f) (e.1 - last_rotation f)).
  - split; [done|]. cbn. destruct Hm as [Hm|[Hm Hl]]; [right; split; [done|lia]|]. lia.
  - split; [done|]. cbn. destruct Hm as [Hm|Hm]; [left; by apply bloom_insert_keeps|by right].
Qed.
(** A message that was let in is recognised for a whole rotation interval, whatever comes in
    between. *)
Theorem dedup_window f item t es t' : let R := rotation_interval f in
  (check_and_insert t item f).2 = false → Forall (λ e : Z * bytes, t ≤ e.1 ≤ t + R) es → t ≤ t' ≤ t + R →
  (check_and_insert t' item (dedup_run (check_and_insert t item f).1 es)).2 = true.
Proof.
  cbv zeta. intros Hnew Hes Ht. assert (remembers t (rotation_interval f) item (check_and_insert t item f).1) as Hm.
  { unfold check_and_insert in *. destruct (_ || _); [done|]. cbv zeta. cbn [fst]. split; [by destruct (_ <? _)|]. left. apply bloom_insert_contains. }
  set (R := rotation_interval f) in *. revert Hm. generalize (check_and_insert t item f).1. clear Hnew.
  induction es as [|e es IH]; intros f' Hm.
  - destruct Hm as [_ [Hm|[Hm _]]]; cbn; unfold check_and_insert; rewrite Hm, ?orb_true_r; done.
  - apply Forall_cons in Hes as [He Hes]. cbn. apply (IH Hes), remembers_step; done.
Qed.

(** ** Synchronisation *)

Inductive sync_op := SRequest (peer : string) (from to : Z) (source : SyncSource) | SComplete (peer : string) | SCancel (peer : string).
Definition sync_exec (c : SyncCoordinator) (e : Z * sync_op) : SyncCoordinator :=
  match e.2 with
  | SRequest peer from to source => (request_sync e.1 peer from to source c).1
  | SComplete peer => complete_sync e.1 peer c
  | SCancel peer => cancel_sync peer c
  end.
Definition busy (s : PeerSyncState) : Z := match active_sync s with Some _ => 1 | None => 0 end.
Definition active_syncs (m : gmap string PeerSyncState) : Z := sumZ ((λ e, busy e.2) <$> map_to_list m).

Lemma active_insert m peer s : active_syncs (<[peer := s]> m) = active_syncs m - match m !! peer with Some s0 => busy s0 | None => 0 end + busy s.
Proof.
  assert (∀ m s, m !! peer = None → active_syncs (<[peer := s]> m) = busy s + active_syncs m) as Hnew.
  { intros m' s' E. unfold active_syncs. by rewrite map_to_list_insert. }
  destruct (m !! peer) as [s0|] eqn:E; [|rewrite Hnew by done; lia].
  assert (delete peer m !! peer = None) as Ed by apply lookup_delete_eq.
  pose proof (Hnew _ s Ed) as H1. pose proof (Hnew _ s0 Ed) as H2. rewrite insert_delete_eq in H1. rewrite insert_delete_id in H2 by done. lia.
Qed.
Record counted (c : SyncCoordinator) : Prop := mkCounted {
  ct_exact : active_sync_count c = active_syncs (peer_states c);
  ct_limit : active_sync_count c ≤ MAX_CONCURRENT_SYNCS;
}.
Lemma active_nonneg m : 0 ≤ active_syncs m.
Proof. apply sumZ_nonneg, Forall_fmap, Forall_true. intros e. cbn. unfold busy. destruct (active_sync e.2); lia. Qed.
Lemma busy_counted c peer s : counted c → peer_states c !! peer = Some s → busy s ≤ active_sync_count c.
Proof.
  intros [Ec _] E. pose proof (active_insert (peer_states c) peer (mkPeerSync None None [])) as Hi. rewrite E in Hi.
  pose proof (active_nonneg (<[peer := mkPeerSync None None []]> (peer_states c))). cbn in Hi. lia.
Qed.
Lemma request_counted now peer from to source c : counted c → counted (request_sync now peer from to source c).1.
Proof.
  intros Hc. pose proof Hc as [Ec El]. pose proof (active_nonneg (peer_states c)) as Hn. unfold request_sync. cbv zeta.
  set (s := default _ (peer_states c !! peer)).
  assert (match peer_states c !! peer with Some s0 => busy s0 | None => 0 end = busy s) as Es by (unfold s; by destruct (peer_states c !! peer)).
  assert (busy s ≤ active_sync_count c) as Hb.
  { rewrite <- Es. destruct (peer_states c !! peer) as [s0|] eqn:E; [by eapply busy_counted|lia]. }
  assert (∀ s' n, n = active_sync_count c - busy s + busy s' → n ≤ MAX_CONCURRENT_SYNCS → counted (mkCoordinator (<[peer := s']> (peer_states c)) n)) as Hput.
  { intros s' n -> Hle. split; [|done]. cbn. rewrite active_insert, Es. lia. }
  assert (∀ s' n, busy s' = 0 → n = active_sync_count c - busy s → counted (
      if throttled now s' then (mkCoordinator (<[peer := s']> (peer_states c)) n, Err (Throttled (now - default 0 (last_sync_completed s'))))
      else if MAX_CONCURRENT_SYNCS <=? n then (mkCoordinator (<[peer := enqueue (mkSync peer from to source now) s']> (peer_states c)) n, Ok false)
      else (mkCoordinator (<[peer := mkPeerSync (Some (mkSync peer from to source now)) (last_sync_completed s') (queued_syncs s')]> (peer_states c)) (n + 1), Ok true)).1) as Happrove.
  { intros s' n Hs' ->. pose proof (active_nonneg (peer_states c)) as _. unfold busy in *.
    destruct (throttled now s'); [apply Hput; [lia|destruct (active_sync s); lia]|].
    destruct (Z.leb_spec MAX_CONCURRENT_SYNCS (active_sync_count c - match active_sync s with Some _ => 1 | None => 0 end)).
    - apply Hput; [|destruct (active_sync s); lia]. unfold busy, enqueue. cbn. lia.
    - apply Hput; [unfold busy; cbn; lia|lia]. }
  destruct (active_sync s) as [a|] eqn:Ea.
  - assert (busy s = 1) as Hb1 by (unfold busy; by rewrite Ea). destruct (60 * SECS <? now - sr_created a).
    + apply Happrove; [done|]. unfold sat_sub. lia.
    + apply Hput; [unfold busy, enqueue; cbn; rewrite Ea; lia|done].
  - assert (busy s = 0) as Hb0 by (unfold busy; by rewrite Ea). apply Happrove; [done|lia].
Qed.
Lemma sync_counted c e : counted c → counted (sync_exec c e).
Proof.
  intros Hc. pose proof Hc as [Ec El]. destruct e as [now [peer from to source|peer|peer]]; cbn [sync_exec fst snd]; [by apply request_counted|..].
  - unfold complete_sync. destruct (peer_states c !! peer) as [s|] eqn:E; [|done]. destruct (active_sync s) eqn:Ea; [|done].
    pose proof (busy_counted c peer s Hc E) as Hb. unfold busy in Hb. rewrite Ea in Hb.
    split; cbn; [rewrite active_insert, E|]; unfold busy, sat_sub; cbn; rewrite ?Ea; lia.
  - unfold cancel_sync. destruct (peer_states c !! peer) as [s|] eqn:E; [|done]. pose proof (busy_counted c peer s Hc E) as Hb. unfold busy in Hb.
    split; cbn; [rewrite active_insert, E|]; unfold busy, sat_sub; cbn; destruct (active_sync s); lia.
Qed.
(** Requests, completions and cancellations keep the count of active synchronisations exact
    and at most twenty. *)
Theorem sync_limit_kept es : let c := foldl sync_exec coordinator_new es in
  active_sync_count c = active_syncs (peer_states c) ∧ active_syncs (peer_states c) ≤ MAX_CONCURRENT_SYNCS.
Proof.
  cbv zeta. assert (counted (foldl sync_exec coordinator_new es)) as [E1 E2]; [|split; [done|lia]].
  apply foldl_preserve; [intros; by apply sync_counted|]. by split.
Qed.
(** A queued request that is started is not counted. *)
Theorem queued_sync_uncounted :
  let c := foldl sync_exec coordinator_new [(0, SRequest "p" 0 1 SManual); (1, SRequest "p" 1 2 SManual); (2, SComplete "p")] in
  let c' := (@process_queued_syncs canonical_iter (61 * SECS) c).1 in
  active_syncs (peer_states c') = 1 ∧ active_sync_count c' = 0.
Proof. by vm_compute. Qed.
