(* ===== verification/Admission.v ===== *)
(** * Admission of announced masternodes (src/masternode_registry.rs)

    [register_internal] and what surrounds it: announcements learned from peers and from
    direct connections, collateral anchors and squatters, migrations of a collateral
    between addresses, disconnects, the removal of stale nodes and the collateral audit.
    The maps that only admission uses are fields of [Admission] next to the registry.
    The UTXO manager is optional, as in the code: it is injected after construction.
    The background writer of the database is taken to have caught up between calls. *)

From Stdlib Require Import ZArith Lia Ascii String.
From stdpp Require Import base gmap strings list pretty.
From S2P Require Import Prelude Types Instances Address Storage UtxoManager BlockTypes Registry BanList.

Record Admission := mkAdmission {
  areg : MasternodeRegistry;
  collateral_migration_times : gmap string Z;
  collateral_migration_from : gmap string string;
  post_eviction_lockout : gmap string Z;
  collateral_migration_counts : gmap string (Z * Z);
  free_tier_subnet_counts : gmap string Z;
  free_tier_reconnect_cooldown : gmap string Z;
}.
Implicit Types (st : Admission) (r : MasternodeRegistry) (i : MasternodeInfo) (mn : Masternode).

Definition set_areg r st := mkAdmission r (collateral_migration_times st) (collateral_migration_from st) (post_eviction_lockout st)
  (collateral_migration_counts st) (free_tier_subnet_counts st) (free_tier_reconnect_cooldown st).
Definition set_migration (times : gmap string Z) (from : gmap string string) (counts : gmap string (Z * Z)) st :=
  mkAdmission (areg st) times from (post_eviction_lockout st) counts (free_tier_subnet_counts st) (free_tier_reconnect_cooldown st).
Definition set_lockout (m : gmap string Z) st := mkAdmission (areg st) (collateral_migration_times st) (collateral_migration_from st) m
  (collateral_migration_counts st) (free_tier_subnet_counts st) (free_tier_reconnect_cooldown st).
Definition set_free_tier (subnets cooldown : gmap string Z) st := mkAdmission (areg st) (collateral_migration_times st)
  (collateral_migration_from st) (post_eviction_lockout st) (collateral_migration_counts st) subnets cooldown.
Definition nodes_of st : gmap string MasternodeInfo := masternodes (areg st).
Definition set_anodes (m : gmap string MasternodeInfo) st := set_areg (set_nodes m (areg st)) st.

Inductive admission_error :=
| NodeNotFound | InvalidCollateral | CollateralAlreadyLocked | IpCyclingRejected | CollateralRewardRedirect.

(** A step that may fail keeps the changes made before it fails. *)
Definition attempt (x : Admission * result admission_error ()) (k : Admission → Admission * result admission_error ())
    : Admission * result admission_error () :=
  match x with (st, Ok _) => k st | (st, Err e) => (st, Err e) end.

Definition FREE_TIER_RECONNECT_COOLDOWN_SECS : Z := 30.
Definition POST_EVICTION_LOCKOUT_SECS : Z := 600.
Definition MIGRATION_COOLDOWN_SECS : Z := 300.
Definition CYCLING_LOCKOUT_SECS : Z := 600.
Definition MAX_MIGRATIONS_PER_WINDOW : Z := 3.
Definition MIGRATION_WINDOW_SECS : Z := 1800.

Definition is_free (t : MasternodeTier) : bool := match t with Free => true | _ => false end.
Definition on_chain i : bool := match registration_source i with OnChain _ => true | Handshake => false end.
Definition within (now secs : Z) (t : option Z) : bool := match t with Some t => sat_sub now t <? secs | None => false end.

(** The /24 prefix, or the whole of what is no dotted address. *)
Definition free_tier_subnet (ip : string) : string :=
  match split_on "."%char (ip_of ip) with
  | a :: b :: c :: _ => a +:+ "." +:+ b +:+ "." +:+ c
  | _ => ip_of ip
  end.
Definition count_subnet (a : string) st : Admission :=
  set_free_tier (<[free_tier_subnet a := as_u32 (default 0 (free_tier_subnet_counts st !! free_tier_subnet a) + 1)]> (free_tier_subnet_counts st))
    (free_tier_reconnect_cooldown st) st.

Definition is_gossip_removal_cooldown_active (now : Z) r (a : string) : bool :=
  within now AUTO_REMOVE_AFTER_SECS (gossip_removal_cooldown r !! ip_of a).

(** ** What is refused before the registry is looked at *)

Definition admission_guards (now : Z) mn (is_direct : bool) st : result admission_error () :=
  fail_if ignored_report (mn_address mn) with InvalidCollateral in
  fail_if negb (mn_collateral mn =? collateral (tier mn)) with InvalidCollateral in
  fail_if is_free (tier mn) && bool_decide (is_Some (collateral_outpoint mn)) && negb is_direct with InvalidCollateral in
  fail_if is_free (tier mn) && within now FREE_TIER_RECONNECT_COOLDOWN_SECS (free_tier_reconnect_cooldown st !! mn_address mn)
    with IpCyclingRejected in
  fail_if negb is_direct && is_gossip_removal_cooldown_active now (areg st) (mn_address mn) with IpCyclingRejected in
  Ok tt.
Definition drop_expired_cooldown (now : Z) mn (is_direct : bool) st : Admission :=
  let ip := ip_of (mn_address mn) in
  match gossip_removal_cooldown (areg st) !! ip with
  | Some t => if negb is_direct && (AUTO_REMOVE_AFTER_SECS <=? sat_sub now t)
              then set_areg (set_cooldown (delete ip (gossip_removal_cooldown (areg st))) (areg st)) st else st
  | None => st
  end.

Section admission.
Context {S : Type} `{UtxoStorage S} `{MapIter} `{Externals}.
Implicit Types m : UTXOStateManager S.

(** ** Claims of a collateral *)

Definition utxo_address (mo : option (UTXOStateManager S)) (o : OutPoint) : option string :=
  m ← mo; match get_utxo m o with Ok u => Some (address u) | Err _ => None end.
Definition prefetched_utxo_addr (mo : option (UTXOStateManager S)) mn : option string :=
  o ← collateral_outpoint mn; utxo_address mo o.
(** Whether the collateral of the entry that is already there is unspent; [None] without an
    entry or without a UTXO manager. *)
Definition existing_collateral_exists (mo : option (UTXOStateManager S)) mn st : option bool :=
  i ← nodes_of st !! mn_address mn;
  match collateral_outpoint (masternode i) with
  | Some o => m ← mo; Some (is_ok (get_utxo m o))
  | None => Some false
  end.

(** A refusal is logged, and its time noted, every five minutes. *)
Definition note_warning (now : Z) (key : string) st : Admission :=
  if 300 <=? sat_sub now (default 0 (collateral_migration_times st !! key))
  then set_migration (<[key := now]> (collateral_migration_times st)) (collateral_migration_from st) (collateral_migration_counts st) st
  else st.
Definition hijack_key (o : OutPoint) mn : string := "hijack_warn:" +:+ outpoint_key o +:+ ":" +:+ ip_of (mn_address mn).
Definition stalemate_key (o : OutPoint) mn : string := "stalemate_warn:" +:+ outpoint_key o +:+ ":" +:+ ip_of (mn_address mn).

Definition canonical_wallet_matches (canonical : string) (owner : string) st : bool :=
  match List.find (λ i, String.eqb (ip_of (mn_address (masternode i))) (ip_of canonical)) (iter (nodes_of st)).*2 with
  | Some i => String.eqb (wallet_address (masternode i)) owner
  | None => false
  end.
(** The anchor of an outpoint keeps other addresses out, unless the newcomer announces the
    wallet that owns the output and the holder does not. *)
Definition anchor_check (now : Z) (owner : option string) mn (o : OutPoint) st : Admission * result admission_error () :=
  match anchors (areg st) !! outpoint_key o with
  | None => (st, Ok tt)
  | Some canonical =>
      if String.eqb (ip_of canonical) (ip_of (mn_address mn)) then (st, Ok tt)
      else match owner with
           | Some u =>
               if negb (str_is_empty u) && String.eqb u (wallet_address mn) then
                 if is_local (areg st) canonical then (note_warning now (hijack_key o mn) st, Err CollateralAlreadyLocked)
                 else if canonical_wallet_matches canonical u st && negb (is_local (areg st) (mn_address mn))
                 then (note_warning now (stalemate_key o mn) st, Err CollateralAlreadyLocked)
                 else
                   let r := set_anchors (<[outpoint_key o := mn_address mn]> (anchors (areg st))) (areg st) in
                   (set_areg (set_nodes (delete (ip_of canonical) (masternodes r)) r) st, Ok tt)
               else (note_warning now (hijack_key o mn) st, Err CollateralAlreadyLocked)
           | None => (note_warning now (hijack_key o mn) st, Err CollateralAlreadyLocked)
           end
  end.

Definition claims (o : OutPoint) i : bool := bool_decide (collateral_outpoint (masternode i) = Some o).
Definition other_holder st mn (o : OutPoint) : option string :=
  fst <$> List.find (λ en : string * MasternodeInfo, negb (String.eqb en.1 (mn_address mn)) && claims o en.2) (iter (nodes_of st)).

(** Of two claimants the one whose wallet does not own the output is the squatter. *)
Definition squatter_check (owner : option string) mn (old : string) st : Admission * result admission_error () :=
  match owner with
  | Some u =>
      if str_is_empty u then (st, Ok tt)
      else
        let old_wallet := default EmptyString ((λ i, wallet_address (masternode i)) <$> nodes_of st !! ip_of old) in
        if negb (String.eqb old_wallet u) && String.eqb (wallet_address mn) u
        then (set_anodes (delete (ip_of old) (nodes_of st)) st, Ok tt)
        else if negb (String.eqb (wallet_address mn) u) && negb (str_is_empty old_wallet)
        then (st, Err CollateralAlreadyLocked)
        else (st, Ok tt)
  | None => (st, Ok tt)
  end.

(** Count and start of the current window of migrations of an outpoint. *)
Definition migration_window (now : Z) (key : string) st : Z * Z :=
  let '(count, start) := default (0, now) (collateral_migration_counts st !! key) in
  if MIGRATION_WINDOW_SECS <=? sat_sub now start then (0, now) else (count, start).
Definition migration_guards (now : Z) mn (o : OutPoint) (old : string) st : result admission_error () :=
  let key := outpoint_key o in
  let last := collateral_migration_times st !! key in
  fail_if negb (is_free (default Free ((λ i, tier (masternode i)) <$> nodes_of st !! old))) with CollateralAlreadyLocked in
  fail_if match nodes_of st !! mn_address mn with Some d => on_chain d | None => false end with CollateralAlreadyLocked in
  fail_if is_local (areg st) old with InvalidCollateral in
  fail_if within now POST_EVICTION_LOCKOUT_SECS (post_eviction_lockout st !! key) with InvalidCollateral in
  fail_if within now MIGRATION_COOLDOWN_SECS last with InvalidCollateral in
  fail_if bool_decide (collateral_migration_from st !! key = Some (ip_of (mn_address mn))) && within now CYCLING_LOCKOUT_SECS last
    with IpCyclingRejected in
  fail_if MAX_MIGRATIONS_PER_WINDOW <=? (migration_window now key st).1 with InvalidCollateral in
  Ok tt.
Definition migrate (now : Z) mn (o : OutPoint) (old : string) st : Admission * result admission_error () :=
  match migration_guards now mn o old st with
  | Err e => (st, Err e)
  | Ok _ =>
      let key := outpoint_key o in
      let '(count, start) := migration_window now key st in
      let st := set_migration (<[key := now]> (collateral_migration_times st)) (<[key := ip_of old]> (collateral_migration_from st))
                  (<[key := (count + 1, start)]> (collateral_migration_counts st)) st in
      (set_anodes (delete old (nodes_of st)) st, Ok tt)
  end.

Definition claim_outpoint (now : Z) (owner : option string) mn st : Admission * result admission_error () :=
  match collateral_outpoint mn with
  | None => (st, Ok tt)
  | Some o =>
      attempt (anchor_check now owner mn o st) (λ st,
        match other_holder st mn o with
        | None => (st, Ok tt)
        | Some old => attempt (squatter_check owner mn old st) (migrate now mn o old)
        end)
  end.

(** ** A node that is registered already *)

(** May the announcement replace the outpoint of an on-chain registration? *)
Definition replacement_check (owner : option string) (live : option bool) mn (is_direct : bool) i : result admission_error () :=
  match collateral_outpoint (masternode i), collateral_outpoint mn with
  | Some old, Some new =>
      if bool_decide (old ≠ new) && on_chain i then
        if bool_decide (live = Some false) then
          match owner with
          | Some u => if String.eqb u (wallet_address mn) then Ok tt else Err CollateralRewardRedirect
          | None => Err CollateralAlreadyLocked
          end
        else if match owner with Some u => String.eqb u (wallet_address mn) | None => is_direct end then Ok tt
        else Err CollateralAlreadyLocked
      else Ok tt
  | _, _ => Ok tt
  end.
Definition effective_outpoint mn i : option OutPoint :=
  match collateral_outpoint mn with Some o => Some o | None => collateral_outpoint (masternode i) end.
(** A changed collateral: the old one is queued for unlocking and loses its anchor, the new
    one is queued for locking. *)
Definition queue_collateral_change mn i r : MasternodeRegistry :=
  match collateral_outpoint mn with
  | Some new =>
      if bool_decide (collateral_outpoint (masternode i) = Some new) then r
      else
        let r := match collateral_outpoint (masternode i) with
                 | Some old => let r := (delete_collateral_anchor r old).1 in
                               set_queues (pending_collateral_unlocks r ++ [old]) (pending_collateral_locks r) r
                 | None => r
                 end in
        set_queues (pending_collateral_unlocks r)
          (pending_collateral_locks r ++ [(new, mn_address mn, reg_height r, collateral (tier mn))]) r
  | None => r
  end.
Definition refreshed mn (reward : string) i : MasternodeInfo :=
  let old := masternode i in
  set_reward_address reward (set_masternode
    (mkMasternode (mn_address old) (wallet_address mn) (mn_reward_address old)
       (if 0 <? mn_collateral mn then mn_collateral mn else mn_collateral old) (effective_outpoint mn i) (mn_locked_at old)
       (mn_unlock_height old) (public_key mn) (tier mn) (registered_at old) (slot_id old)) i).
Definition set_running (started : Z) (active suspended : bool) (seen : Z) i : MasternodeInfo :=
  mkMasternodeInfo (masternode i) (reward_address i) started (total_uptime i) active suspended
    (daemon_started_at i) (last_reward_height i) (blocks_without_reward i) (registration_height i) (registration_source i)
    (peer_reports i) (operator_pubkey i) (is_publicly_reachable i) (reachability_checked_at i) (first_seen_at i) seen.
Definition activate (now : Z) i : MasternodeInfo :=
  set_running (if is_active i then uptime_start i else now) true false now i.

(** The entry after an announcement that is accepted. *)
Definition settle (now : Z) (should_activate : bool) mn i st : Admission * result admission_error bool :=
  let i := if should_activate then activate now i else i in
  let r := set_misses (delete (mn_address mn) (collateral_miss_counts (areg st))) (areg st) in
  (set_areg (rebuild_node_caches (set_nodes (<[mn_address mn := i]> (masternodes r)) r)) st, Ok false).
Definition update_existing (now : Z) (owner : option string) (live : option bool) mn (reward : string)
    (should_activate is_direct : bool) i st : Admission * result admission_error bool :=
  if is_local (areg st) (mn_address mn) && negb should_activate then settle now should_activate mn i st
  else match replacement_check owner live mn is_direct i with
       | Err e => (st, Err e)
       | Ok _ =>
           let st := set_areg (queue_collateral_change mn i (areg st)) st in
           if negb (is_local (areg st) (mn_address mn)) && negb (is_free (tier (masternode i))) && is_free (tier mn)
              && negb (is_direct || negb (default true live))
           then
             (if should_activate && negb (is_active i)
              then set_areg (rebuild_node_caches (set_nodes
                     (<[mn_address mn := set_running now true (consensus_suspended i) (last_seen_at i) i]> (nodes_of st)) (areg st))) st
              else st, Err InvalidCollateral)
           else settle now should_activate mn (refreshed mn reward i) st
       end.

(** ** A node that is new *)

Definition new_announced (now : Z) mn (reward : string) (should_activate : bool) (height : Z) : MasternodeInfo :=
  mkMasternodeInfo mn reward now 0 should_activate false 0 0 0 height Handshake ∅ None false 0 now (if should_activate then now else 0).
Definition anchor_if_paid mn r : MasternodeRegistry :=
  match collateral_outpoint mn with
  | Some o => if negb (is_free (tier mn)) && negb (bool_decide (is_Some (anchors r !! outpoint_key o)))
              then set_anchors (<[outpoint_key o := mn_address mn]> (anchors r)) r else r
  | None => r
  end.
Definition insert_new (now : Z) mn (reward : string) (should_activate : bool) st : Admission * result admission_error bool :=
  let st := if is_free (tier mn) then count_subnet (mn_address mn) st else st in
  let r := set_misses (delete (mn_address mn) (collateral_miss_counts (areg st))) (areg st) in
  let r := set_nodes (<[mn_address mn := new_announced now mn reward should_activate (reg_height r)]> (masternodes r)) r in
  let st := set_areg r st in
  let st := if is_free (tier mn) then count_subnet (mn_address mn) st else st in
  (set_areg (rebuild_node_caches (anchor_if_paid mn (areg st))) st, Ok true).

Definition register_internal (now : Z) (mo : option (UTXOStateManager S)) mn (reward : string) (should_activate is_direct : bool) st
    : Admission * result admission_error bool :=
  match admission_guards now mn is_direct st with
  | Err e => (st, Err e)
  | Ok _ =>
      let st := drop_expired_cooldown now mn is_direct st in
      let owner := prefetched_utxo_addr mo mn in
      let live := existing_collateral_exists mo mn st in
      match claim_outpoint now owner mn st with
      | (st, Err e) => (st, Err e)
      | (st, Ok _) =>
          match nodes_of st !! mn_address mn with
          | Some i => update_existing now owner live mn reward should_activate is_direct i st
          | None => insert_new now mn reward should_activate st
          end
      end
  end.
Definition register now mo mn reward st := register_internal now mo mn reward true false st.
Definition register_gossip now mo mn reward st := register_internal now mo mn reward false false st.
Definition register_direct now mo mn reward st := register_internal now mo mn reward true true st.

(** ** Disconnects *)

Definition disconnected (now : Z) i : MasternodeInfo :=
  set_reachable false 0 (set_activity
    (if 0 <? uptime_start i then add64 (total_uptime i) (sub64 now (uptime_start i)) else total_uptime i)
    false (consensus_suspended i) (peer_reports i) now i).
(** [duration] is how long the connection lasted, in nanoseconds, when it is known. *)
Definition mark_inactive_on_disconnect_with_duration (now : Z) (a : string) (duration : option Z) st
    : Admission * result admission_error () :=
  if is_local (areg st) a then (st, Ok tt)
  else if within now 5 (free_tier_reconnect_cooldown st !! a) then (st, Ok tt)
  else match nodes_of st !! a with
       | None => (st, Err NodeNotFound)
       | Some i =>
           let has_collateral := bool_decide (is_Some (collateral_outpoint (masternode i))) in
           let short := match duration with Some d => d <? 10 * SECS | None => false end in
           let gone := set_areg (rebuild_node_caches (set_nodes (<[a := disconnected now i]> (nodes_of st)) (areg st))) st in
           if has_collateral && short && negb (consensus_suspended i) then (st, Ok tt)
           else if negb (on_chain i) && negb has_collateral then
             let subnets := alter (λ c, sat_sub c 1) (free_tier_subnet a) (free_tier_subnet_counts gone) in
             (set_free_tier subnets (<[a := now]> (free_tier_reconnect_cooldown gone)) gone, Ok tt)
           else if is_active i then (gone, Ok tt)
           else (st, Ok tt)
       end.
Definition mark_inactive_on_disconnect now a st := mark_inactive_on_disconnect_with_duration now a None st.

(** ** Removal of nodes *)

Definition last_reference i : Z := if 0 <? last_seen_at i then last_seen_at i else first_seen_at i.
Definition offline_longer (now max_inactive : Z) i : bool :=
  negb (is_active i) && (0 <? last_reference i) && (max_inactive <? sat_sub now (last_reference i)).
Definition clean_stale_free_tier_nodes (now max_inactive : Z) st : Admission :=
  match (filter (λ en : string * MasternodeInfo, is_free (tier (masternode en.2)) && offline_longer now max_inactive en.2 = true)
           (iter (nodes_of st))).*1 with
  | [] => st
  | stale => set_areg (rebuild_node_caches (set_nodes (foldl (λ ns a, delete a ns) (nodes_of st) stale) (areg st))) st
  end.
(** [unregister], and the collateral's lock when there is a UTXO manager. *)
Definition evict_paid (acc : option (UTXOStateManager S) * MasternodeRegistry) (a : string)
    : option (UTXOStateManager S) * MasternodeRegistry :=
  match unregister acc.2 a with
  | (r, Ok (Some i)) =>
      (match collateral_outpoint (masternode i) with Some o => (λ m, (unlock_collateral m o).1) <$> acc.1 | None => acc.1 end, r)
  | (r, _) => (acc.1, r)
  end.
Definition cleanup_inactive_paid_nodes (now max_inactive : Z) (mo : option (UTXOStateManager S)) r
    : option (UTXOStateManager S) * MasternodeRegistry * nat :=
  let gone := (filter (λ en : string * MasternodeInfo, negb (bool_decide (local_masternode_address r = Some en.1))
                 && negb (is_free (tier (masternode en.2))) && offline_longer now max_inactive en.2 = true) (iter (masternodes r))).*1 in
  (foldl evict_paid (mo, r) gone, length gone).
Definition evict_free_tier_subnet (prefix : string) r : MasternodeRegistry * list string :=
  foldl (λ acc a, match masternodes acc.1 !! a with
                  | Some i => if is_free (tier (masternode i)) then ((unregister acc.1 a).1, acc.2 ++ [a]) else acc
                  | None => acc
                  end) (r, [])
    (filter (λ a, String.eqb (free_tier_subnet a) prefix = true) (iter (masternodes r)).*1).
Definition find_overflowing_free_subnets (cap : nat) r : list (string * list string) :=
  let groups := foldl (λ g (en : string * MasternodeInfo),
                  if is_free (tier (masternode en.2))
                  then <[free_tier_subnet en.1 := default [] (g !! free_tier_subnet en.1) ++ [en.1]]> g else g)
                  (∅ : gmap string (list string)) (iter (masternodes r)) in
  filter (λ e : string * list string, (cap < length e.2)%nat) (iter groups).

(** ** Setters *)

Definition record_v4_eviction (now : Z) (key : string) st : Admission := set_lockout (<[key := now]> (post_eviction_lockout st)) st.
Definition queue_collateral_unlock (o : OutPoint) r : MasternodeRegistry :=
  set_queues (pending_collateral_unlocks r ++ [o]) (pending_collateral_locks r) r.
Definition set_registration_source (a : string) (src : RegistrationSource) r : MasternodeRegistry :=
  set_nodes (alter (λ i, set_registration src (registration_height i) i) a (masternodes r)) r.
Definition set_registration_height (a : string) (h : Z) r : MasternodeRegistry :=
  set_nodes (alter (λ i, if registration_height i =? 0 then set_registration (registration_source i) h i else i) a (masternodes r)) r.
Definition set_daemon_started (t : Z) i : MasternodeInfo :=
  mkMasternodeInfo (masternode i) (reward_address i) (uptime_start i) (total_uptime i) (is_active i) (consensus_suspended i)
    t (last_reward_height i) (blocks_without_reward i) (registration_height i) (registration_source i)
    (peer_reports i) (operator_pubkey i) (is_publicly_reachable i) (reachability_checked_at i) (first_seen_at i) (last_seen_at i).
Definition update_daemon_started_at (a : string) (t : Z) r : MasternodeRegistry :=
  if t =? 0 then r else set_nodes (alter (set_daemon_started t) a (masternodes r)) r.
Definition set_local_masternode (a : string) r : MasternodeRegistry :=
  mkRegistry (masternodes r) (mnreg r) (next_slot_id r) (anchors r) (cached_active r) (cached_all r) (collateral_miss_counts r)
    (gossip_removal_cooldown r) (pending_collateral_unlocks r) (pending_collateral_locks r) (Some a) (reg_started_at r) (reg_height r).

(** ** The collateral audit *)

Inductive eviction_reason := AnchorMismatch | RewardMismatch | DuplicateClaim | SubMinimum (satoshis : Z) (t : MasternodeTier).
Definition BRONZE_MIN : Z := 1000 * SATOSHIS_PER_TIME.
Section audit.
Context (local_ip : string) (whitelist : gset IpAddr).

(** What is left of an address at its first colon is never an IPv6 address. *)
Definition is_exempt (ip : string) : bool :=
  negb (str_is_empty local_ip) && String.eqb (ip_of ip) (ip_of local_ip)
  || match parse_v4 (ip_of ip) with Some b => bool_decide (V4 b ∈ whitelist) | None => false end.

Definition audit_state : Type := UTXOStateManager S * MasternodeRegistry * list (string * eviction_reason).
Definition already_evicted (a : audit_state) (ip : string) : bool := existsb (λ e : string * eviction_reason, String.eqb e.1 ip) a.2.
Definition spared (a : audit_state) (ip : string) : bool := is_exempt ip || already_evicted a ip.
Definition evict_squatter (reason : eviction_reason) (o : OutPoint) (a : audit_state) (ip : string) : audit_state :=
  let '(m, r, ev) := a in ((unlock_collateral m o).1, (unregister r ip).1, ev ++ [(ip, reason)]).

Definition audit_anchor (a : audit_state) i : audit_state :=
  match collateral_outpoint (masternode i) with
  | Some o =>
      let ip := mn_address (masternode i) in
      if is_free (tier (masternode i)) || spared a ip then a
      else match get_collateral_anchor a.1.2 o with
           | Some anchored => if String.eqb anchored ip then a else evict_squatter AnchorMismatch o a ip
           | None => a
           end
  | None => a
  end.
Definition owner_address m (o : OutPoint) : option string :=
  match get_utxo m o with Ok u => if str_is_empty (address u) then None else Some (address u) | Err _ => None end.
Definition audit_reward (a : audit_state) i : audit_state :=
  match collateral_outpoint (masternode i) with
  | Some o =>
      let ip := mn_address (masternode i) in
      if is_free (tier (masternode i)) then a
      else match owner_address a.1.1 o with
           | Some u => if spared a ip || String.eqb (reward_address i) u then a else evict_squatter RewardMismatch o a ip
           | None => a
           end
  | None => a
  end.
Fixpoint duplicate_squatters (u : string) (owner : option string) (squatters : list string) (claimants : list MasternodeInfo)
    : option string * list string :=
  match claimants with
  | [] => (owner, squatters)
  | c :: cs =>
      if String.eqb (reward_address c) u then
        match owner with
        | None => duplicate_squatters u (Some (mn_address (masternode c))) squatters cs
        | Some _ => (owner, [])
        end
      else duplicate_squatters u owner (squatters ++ [mn_address (masternode c)]) cs
  end.
Definition claimant_groups (nodes : list MasternodeInfo) : gmap string (list MasternodeInfo) :=
  foldl (λ g i, match collateral_outpoint (masternode i) with
                | Some o => if is_free (tier (masternode i)) then g
                            else <[outpoint_key o := default [] (g !! outpoint_key o) ++ [i]]> g
                | None => g
                end) ∅ nodes.
Definition audit_duplicates (a : audit_state) (e : string * list MasternodeInfo) : audit_state :=
  match e.2 with
  | c :: _ :: _ =>
      match o ← collateral_outpoint (masternode c); u ← owner_address a.1.1 o; Some (o, u) with
      | Some (o, u) =>
          match duplicate_squatters u None [] e.2 with
          | (Some _, squatters) => foldl (λ a ip, if spared a ip then a else evict_squatter DuplicateClaim o a ip) a squatters
          | (None, _) => a
          end
      | None => a
      end
  | _ => a
  end.
Definition audit_value (a : audit_state) i : audit_state :=
  match collateral_outpoint (masternode i) with
  | Some o =>
      let ip := mn_address (masternode i) in
      if spared a ip then a
      else match get_utxo a.1.1 o with
           | Ok u => if is_free (tier (masternode i)) || (value u <? BRONZE_MIN)
                     then evict_squatter (SubMinimum (value u) (tier (masternode i))) o a ip else a
           | Err _ => a
           end
  | None => a
  end.
Definition audit_squatters m r : audit_state :=
  let nodes := list_all r in
  let a := foldl audit_anchor (m, r, []) nodes in
  let a := foldl audit_reward a nodes in
  let a := foldl audit_duplicates a (iter (claimant_groups nodes)) in
  foldl audit_value a nodes.
End audit.

(** ** Start-up *)

(** A stored node starts inactive, under its address without the port. *)
Definition loaded (now : Z) i : MasternodeInfo :=
  let mn := masternode i in
  let total := if is_active i && (0 <? uptime_start i) && (uptime_start i <=? now)
               then add64 (total_uptime i) (now - uptime_start i) else total_uptime i in
  mkMasternodeInfo
    (mkMasternode (ip_of (mn_address mn)) (wallet_address mn) (mn_reward_address mn) (mn_collateral mn) (collateral_outpoint mn)
       (mn_locked_at mn) (mn_unlock_height mn) (public_key mn) (tier mn) (registered_at mn) (slot_id mn))
    (reward_address i) now total false (consensus_suspended i) (daemon_started_at i) (last_reward_height i) (blocks_without_reward i)
    (registration_height i) (registration_source i) ∅ (operator_pubkey i) (is_publicly_reachable i) (reachability_checked_at i)
    (if first_seen_at i =? 0 then now else first_seen_at i) now.
Definition load_node (now : Z) (ns : gmap string MasternodeInfo) i : gmap string MasternodeInfo :=
  let ip := ip_of (mn_address (masternode i)) in
  match ns !! ip with Some _ => ns | None => <[ip := loaded now i]> ns end.
(** [stored] are the records that decode, in the order of their keys. *)
Definition registry_load (now : Z) (stored : list MasternodeInfo) (regs : gmap string MasternodeOnchainInfo) (next : Z)
    (anchored : gmap string string) : Admission :=
  let ns := foldl (load_node now) ∅ stored in
  let r := mkRegistry ns regs next anchored [] [] ∅ ∅ [] [] None now 0 in
  let r := foldl (λ r i, anchor_if_paid (masternode i) r) r (iter ns).*2 in
  let st := mkAdmission (rebuild_node_caches r) ∅ ∅ ∅ ∅ ∅ ∅ in
  foldl (λ st i, if is_free (tier (masternode i)) then count_subnet (mn_address (masternode i)) st else st) st (iter ns).*2.
End admission.
