(* ===== verification/AdmissionProofs.v ===== *)
(** * Properties of admission

    At most one masternode per collateral in every history of announcements, what a relayed
    announcement cannot do, what anchors protect, and the spacing of migrations. *)

From Stdlib Require Import ZArith Lia Ascii String.
From stdpp Require Import base gmap strings list pretty.
From S2P Require Import Prelude Types Instances Address Storage UtxoManager UtxoProofs UtxoTheorems BlockTypes Registry RegistryProofs BanList Admission.

Implicit Types (st : Admission) (r : MasternodeRegistry) (i : MasternodeInfo) (mn : Masternode).

Section proofs.
Context {S : Type} `{UtxoStorage S} `{MapIter} `{Externals}.
Implicit Types (m : UTXOStateManager S) (mo : option (UTXOStateManager S)).

(** ** What a claim does to the registry *)

Lemma attempt_spec x k st e : attempt x k = (st, e) →
  (∃ er, x = (st, Err er) ∧ e = Err er) ∨ (∃ st1, x = (st1, Ok tt) ∧ k st1 = (st, e)).
Proof. destruct x as [st1 [[]|er]]; cbn; [eauto|]. intros [= <- <-]. eauto. Qed.

Lemma note_warning_nodes now k st : areg (note_warning now k st) = areg st.
Proof. unfold note_warning. by case_match. Qed.
Lemma anchor_check_sub now owner mn o st : nodes_of (anchor_check now owner mn o st).1 ⊆ nodes_of st.
Proof.
  unfold anchor_check, nodes_of. repeat case_match; cbn [fst]; rewrite ?note_warning_nodes; try done. apply delete_subseteq.
Qed.
Lemma squatter_check_sub owner mn old st : nodes_of (squatter_check owner mn old st).1 ⊆ nodes_of st.
Proof. unfold squatter_check, set_anodes, nodes_of. repeat case_match; cbn; try done. apply delete_subseteq. Qed.
Lemma migrate_sub now mn o old st : nodes_of (migrate now mn o old st).1 ⊆ nodes_of st.
Proof. unfold migrate, set_anodes, nodes_of. repeat case_match; cbn; try done. apply delete_subseteq. Qed.
Lemma claim_sub now owner mn st : nodes_of (claim_outpoint now owner mn st).1 ⊆ nodes_of st.
Proof.
  unfold claim_outpoint. destruct (collateral_outpoint mn) as [o|]; [|done].
  pose proof (anchor_check_sub now owner mn o st) as Hs1. destruct (anchor_check now owner mn o st) as [st1 [?|?]]; cbn [attempt]; [|done].
  destruct (other_holder st1 mn o) as [old|]; [|done]. etrans; [|exact Hs1].
  pose proof (squatter_check_sub owner mn old st1) as Hs2. destruct (squatter_check owner mn old st1) as [st2 [?|?]]; cbn [attempt]; [|done].
  etrans; [apply migrate_sub|exact Hs2].
Qed.

(** ** One masternode per collateral *)

Definition claim_of i : option OutPoint := collateral_outpoint (masternode i).
Definition unique_claims (ns : gmap string MasternodeInfo) : Prop :=
  ∀ a b i j o, ns !! a = Some i → ns !! b = Some j → claim_of i = Some o → claim_of j = Some o → a = b.
(** Every claim of [ns'] was there under the same address. *)
Definition claims_from (ns ns' : gmap string MasternodeInfo) : Prop :=
  ∀ a i', ns' !! a = Some i' → ∀ o, claim_of i' = Some o → ∃ i, ns !! a = Some i ∧ claim_of i = Some o.

Lemma claims_from_unique ns ns' : claims_from ns ns' → unique_claims ns → unique_claims ns'.
Proof.
  intros Hf Hu a b i j o Ha Hb Ci Cj. destruct (Hf a i Ha o Ci) as (i0 & Ha0 & C0). destruct (Hf b j Hb o Cj) as (j0 & Hb0 & C1). eauto.
Qed.
Lemma claims_from_sub ns ns' : ns' ⊆ ns → claims_from ns ns'.
Proof. intros Hs a i' Ha o Ho. exists i'. split; [by eapply lookup_weaken|done]. Qed.
Lemma claims_from_trans ns1 ns2 ns3 : claims_from ns1 ns2 → claims_from ns2 ns3 → claims_from ns1 ns3.
Proof. intros F1 F2 a i Ha o Ho. destruct (F2 a i Ha o Ho) as (j & Hj & Cj). by apply (F1 a j Hj o Cj). Qed.
Lemma claims_from_insert ns a i i' : ns !! a = Some i → (claim_of i' = None ∨ claim_of i' = claim_of i) → claims_from ns (<[a := i']> ns).
Proof.
  intros Ha Hc b j [[<- <-]|[_ Hj]]%lookup_insert_Some o Ho; [|by exists j].
  exists i. split; [done|]. destruct Hc as [E|E]; congruence.
Qed.
Lemma claims_from_alter ns f a : (∀ i, claim_of (f i) = claim_of i) → claims_from ns (alter f a ns).
Proof.
  intros Hf b j Hj o Ho. apply lookup_alter_Some in Hj as [(-> & i & Hi & ->)|[_ Hj]]; [|by exists j].
  exists i. by rewrite Hf in Ho.
Qed.
Lemma evolves_claims r r' : evolves r r' → claims_from (masternodes r) (masternodes r').
Proof. intros [_ _ E] a i' (i & Hi & _ & _ & C & _)%E o Ho. exists i. split; [done|]. unfold claim_of in *. congruence. Qed.

Lemma other_holder_none st mn o a i : other_holder st mn o = None → nodes_of st !! a = Some i → claim_of i = Some o → a = mn_address mn.
Proof.
  unfold other_holder. destruct (List.find _ _) eqn:Ef; [done|]. intros _ Ha Ho.
  assert (In (a, i) (iter (nodes_of st))) as Hin.
  { apply list_elem_of_In. by rewrite iter_perm, elem_of_map_to_list. }
  pose proof (find_none _ _ Ef _ Hin) as Hn. cbn in Hn.
  assert (claims o i = true) as Hc by (by apply bool_decide_eq_true). rewrite Hc, andb_true_r, negb_false_iff in Hn.
  by apply String.eqb_eq in Hn.
Qed.
Lemma other_holder_some st mn o a : other_holder st mn o = Some a → ∃ i, nodes_of st !! a = Some i ∧ claim_of i = Some o.
Proof.
  unfold other_holder. destruct (List.find _ _) as [[a' i]|] eqn:Ef; [|done]. intros [= ->].
  apply find_some in Ef as [Hin [_ Hc]%andb_true_iff]. cbn in Hc. exists i. split; [|by apply bool_decide_eq_true in Hc].
  apply list_elem_of_In in Hin. by rewrite iter_perm, elem_of_map_to_list in Hin.
Qed.
(** A claim that is accepted leaves no other claimant. *)
Lemma claim_exclusive now owner mn o st st' : unique_claims (nodes_of st) → collateral_outpoint mn = Some o →
  claim_outpoint now owner mn st = (st', Ok tt) → ∀ a i, nodes_of st' !! a = Some i → claim_of i = Some o → a = mn_address mn.
Proof.
  intros Hu Ho. unfold claim_outpoint. rewrite Ho. intros [(er & _ & [=])|(st1 & E1 & E2)]%attempt_spec.
  pose proof (anchor_check_sub now owner mn o st) as Hs1. rewrite E1 in Hs1. cbn [fst] in Hs1.
  destruct (other_holder st1 mn o) as [old|] eqn:Eh; [|injection E2 as <-; intros a i; by apply other_holder_none].
  apply attempt_spec in E2 as [(er & _ & [=])|(st2 & E2 & E3)].
  pose proof (squatter_check_sub owner mn old st1) as Hs2. rewrite E2 in Hs2. cbn [fst] in Hs2.
  intros a i Ha Hc. unfold migrate in E3. destruct (migration_guards _ _ _ _ _); [|done].
  destruct (migration_window _ _ _). injection E3 as <-. unfold nodes_of in Ha. cbn in Ha. apply lookup_delete_Some in Ha as [Hne Ha].
  destruct (other_holder_some _ _ _ _ Eh) as (j & Hj & Cj).
  destruct Hne. apply (Hu old a j i o); [by eapply lookup_weaken| |done|done]. eapply lookup_weaken; [exact Ha|]. by etrans.
Qed.
Lemma claims_insert ns a i' : unique_claims ns → (∀ o b i, claim_of i' = Some o → ns !! b = Some i → claim_of i = Some o → b = a) →
  unique_claims (<[a := i']> ns).
Proof.
  intros Hu Ha b c j k o Hb Hc Cj Ck. apply lookup_insert_Some in Hb as [[<- <-]|[Hb1 Hb]], Hc as [[<- <-]|[Hc1 Hc]]; eauto.
  symmetry. eauto.
Qed.

(** What is left of the entries by an announcement that came through, by the entry at its
    address. *)
Lemma count_subnet_reg a st : areg (count_subnet a st) = areg st.
Proof. done. Qed.
Lemma settle_nodes now act mn i st :
  nodes_of (settle now act mn i st).1 = <[mn_address mn := if act then activate now i else i]> (nodes_of st).
Proof. done. Qed.
Lemma insert_nodes now mn reward act st :
  nodes_of (insert_new now mn reward act st).1 = <[mn_address mn := new_announced now mn reward act (reg_height (areg st))]> (nodes_of st).
Proof. unfold insert_new, anchor_if_paid, nodes_of. cbv zeta. destruct (is_free (tier mn)); cbn; repeat case_match; done. Qed.
Lemma queue_change_nodes mn i r : masternodes (queue_collateral_change mn i r) = masternodes r ∧ local_masternode_address (queue_collateral_change mn i r) = local_masternode_address r.
Proof. unfold queue_collateral_change. repeat case_match; done. Qed.
Lemma queue_change_local mn i r a : is_local (queue_collateral_change mn i r) a = is_local r a.
Proof. unfold is_local. by rewrite (proj2 (queue_change_nodes mn i r)). Qed.

(** The entry an announcement leaves at its address. *)
Inductive updated_entry (now : Z) mn (reward : string) (act direct : bool) (live : option bool) (local : bool) i : MasternodeInfo → Prop :=
| entry_same : updated_entry now mn reward act direct live local i i
| entry_local : local = true → act = false → updated_entry now mn reward act direct live local i i
| entry_kept : act = true → updated_entry now mn reward act direct live local i (set_running now true (consensus_suspended i) (last_seen_at i) i)
| entry_refreshed : (local = true → act = true) →
    (local = true ∨ is_free (tier (masternode i)) = true ∨ is_free (tier mn) = false ∨ direct = true ∨ live = Some false) →
    updated_entry now mn reward act direct live local i (if act then activate now (refreshed mn reward i) else refreshed mn reward i).
Lemma update_nodes now owner live mn reward act direct i st : nodes_of st !! mn_address mn = Some i →
  ∃ i', updated_entry now mn reward act direct live (is_local (areg st) (mn_address mn)) i i'
        ∧ nodes_of (update_existing now owner live mn reward act direct i st).1 = <[mn_address mn := i']> (nodes_of st).
Proof.
  intros Hi. unfold update_existing. destruct (is_local (areg st) (mn_address mn) && negb act) eqn:El.
  { apply andb_true_iff in El as [El Ea%negb_true_iff]. exists i. rewrite settle_nodes, Ea. split; [by apply entry_local|done]. }
  destruct (replacement_check owner live mn direct i) as [u|e]; [|exists i; split; [constructor|by rewrite insert_id]].
  cbv zeta. cbn [areg set_areg]. rewrite queue_change_local. destruct (queue_change_nodes mn i (areg st)) as [En _].
  destruct (negb _ && _ && _ && _) eqn:Ed.
  - destruct (act && negb (is_active i)) eqn:Ea.
    + apply andb_true_iff in Ea as [-> Ea]. exists (set_running now true (consensus_suspended i) (last_seen_at i) i).
      split; [by apply entry_kept|]. unfold nodes_of. cbn. by rewrite En.
    + exists i. split; [constructor|]. unfold nodes_of. cbn. rewrite En. by rewrite insert_id.
  - rewrite settle_nodes. unfold nodes_of. cbn. rewrite En. eexists. split; [|done]. apply entry_refreshed.
    + intros Hl. rewrite Hl in El. by destruct act.
    + destruct (is_local _ _); [by left|right]. destruct (is_free (tier (masternode i))); [by left|right].
      destruct (is_free (tier mn)); [|by left]. right. destruct direct; [by left|right]. by destruct live as [[]|].
Qed.
Lemma updated_claim now mn reward act direct live local i i' : updated_entry now mn reward act direct live local i i' →
  claim_of i' = claim_of i ∨ claim_of i' = collateral_outpoint mn.
Proof.
  intros [| | |]; [by left..|]. assert (claim_of (refreshed mn reward i) = effective_outpoint mn i) as E by done.
  assert (claim_of (if act then activate now (refreshed mn reward i) else refreshed mn reward i) = effective_outpoint mn i) as -> by (by destruct act).
  unfold effective_outpoint. destruct (collateral_outpoint mn); [by right|by left].
Qed.

Lemma drop_expired_nodes now mn direct st :
  nodes_of (drop_expired_cooldown now mn direct st) = nodes_of st
  ∧ (∀ a, is_local (areg (drop_expired_cooldown now mn direct st)) a = is_local (areg st) a)
  ∧ anchors (areg (drop_expired_cooldown now mn direct st)) = anchors (areg st).
Proof. unfold drop_expired_cooldown, nodes_of. repeat case_match; done. Qed.

(** The outcome of an announcement on the entries. *)
Lemma register_nodes now mo mn reward act direct st :
  let st' := (register_internal now mo mn reward act direct st).1 in
  let st0 := drop_expired_cooldown now mn direct st in
  let st1 := (claim_outpoint now (prefetched_utxo_addr mo mn) mn st0).1 in
  ((nodes_of st' = nodes_of st ∨ nodes_of st' = nodes_of st1) ∧ nodes_of st' ⊆ nodes_of st)
  ∨ ((claim_outpoint now (prefetched_utxo_addr mo mn) mn st0).2 = Ok tt ∧ nodes_of st1 ⊆ nodes_of st
     ∧ ∃ i', nodes_of st' = <[mn_address mn := i']> (nodes_of st1)
       ∧ match nodes_of st1 !! mn_address mn with
         | Some i => updated_entry now mn reward act direct (existing_collateral_exists mo mn st) (is_local (areg st1) (mn_address mn)) i i'
         | None => ∃ h, i' = new_announced now mn reward act h
         end).
Proof.
  cbv zeta. unfold register_internal. destruct (admission_guards now mn direct st) as [g|e]; [|left; split; [by left|done]]. cbv zeta.
  destruct (drop_expired_nodes now mn direct st) as (E0 & E1 & _). set (st0 := drop_expired_cooldown now mn direct st) in *.
  pose proof (claim_sub now (prefetched_utxo_addr mo mn) mn st0) as Hs. rewrite E0 in Hs.
  assert (existing_collateral_exists mo mn st0 = existing_collateral_exists mo mn st) as El by (unfold existing_collateral_exists; by rewrite E0).
  rewrite El. destruct (claim_outpoint _ _ _ st0) as [st1 [[]|e]]; cbn [fst snd] in *; [|left; split; [by right|done]].
  right. split; [done|]. split; [done|]. destruct (nodes_of st1 !! mn_address mn) as [i|] eqn:Ei.
  - destruct (update_nodes now (prefetched_utxo_addr mo mn) (existing_collateral_exists mo mn st) mn reward act direct i st1 Ei) as (i' & Hu & En).
    exists i'. by split.
  - eexists. split; [by rewrite insert_nodes|by eexists].
Qed.
Lemma register_unique now mo mn reward act direct st : unique_claims (nodes_of st) →
  unique_claims (nodes_of (register_internal now mo mn reward act direct st).1).
Proof.
  intros Hu. destruct (register_nodes now mo mn reward act direct st) as [[_ Hs]|(Hok & Hs & i' & -> & Hi)].
  { by eapply claims_from_unique; [apply claims_from_sub|]. }
  set (st0 := drop_expired_cooldown now mn direct st) in *. pose proof (proj1 (drop_expired_nodes now mn direct st)) as E0. fold st0 in E0.
  destruct (claim_outpoint now (prefetched_utxo_addr mo mn) mn st0) as [st1 res] eqn:Ec. cbn [fst snd] in *. subst res.
  assert (unique_claims (nodes_of st1)) as Hu1 by (by eapply claims_from_unique; [apply claims_from_sub|]).
  apply claims_insert; [done|]. intros o b j Hc Hb Cj.
  assert (collateral_outpoint mn = Some o → b = mn_address mn) as Hx.
  { intros Eo. eapply claim_exclusive; [|exact Eo|exact Ec|exact Hb|exact Cj]. by rewrite E0. }
  destruct (nodes_of st1 !! mn_address mn) as [i|] eqn:Ei.
  - destruct (updated_claim _ _ _ _ _ _ _ _ _ Hi) as [E|E]; rewrite E in Hc; [|by apply Hx]. by eapply Hu1.
  - destruct Hi as (h & ->). by apply Hx.
Qed.

(** ** Histories *)

Inductive adm_op :=
| ARegister (mo : option (UTXOStateManager S)) (mn : Masternode) (reward : string) (act direct : bool)
| ADisconnect (a : string) (duration : option Z) | AStaleFree (max_inactive : Z)
| AStalePaid (max_inactive : Z) (mo : option (UTXOStateManager S)) | ASubnet (prefix : string) | AEviction (key : string)
| AQueueUnlock (o : OutPoint) | ASource (a : string) (src : RegistrationSource) | AHeight (a : string) (h : Z)
| ADaemon (a : string) (t : Z) | ALocal (a : string) | AAudit (m : UTXOStateManager S) (local_ip : string) (whitelist : gset IpAddr)
| ARegistry (p : reg_op (S := S)).
Definition adm_exec st (e : Z * adm_op) : Admission :=
  let '(now, p) := e in
  match p with
  | ARegister mo mn reward act direct => (register_internal now mo mn reward act direct st).1
  | ADisconnect a duration => (mark_inactive_on_disconnect_with_duration now a duration st).1
  | AStaleFree max_inactive => clean_stale_free_tier_nodes now max_inactive st
  | AStalePaid max_inactive mo => set_areg (cleanup_inactive_paid_nodes now max_inactive mo (areg st)).1.2 st
  | ASubnet prefix => set_areg (evict_free_tier_subnet prefix (areg st)).1 st
  | AEviction key => record_v4_eviction now key st
  | AQueueUnlock o => set_areg (queue_collateral_unlock o (areg st)) st
  | ASource a src => set_areg (set_registration_source a src (areg st)) st
  | AHeight a h => set_areg (set_registration_height a h (areg st)) st
  | ADaemon a t => set_areg (update_daemon_started_at a t (areg st)) st
  | ALocal a => set_areg (set_local_masternode a (areg st)) st
  | AAudit m local_ip whitelist => set_areg (audit_squatters local_ip whitelist m (areg st)).1.2 st
  | ARegistry p => set_areg (reg_exec (areg st) p) st
  end.
Definition adm_run st (es : list (Z * adm_op)) : Admission := foldl adm_exec st es.
Definition admission_new (local : option string) (started : Z) : Admission :=
  mkAdmission (registry_new local started) ∅ ∅ ∅ ∅ ∅ ∅.
Definition registers_on_chain (p : adm_op) : Prop := match p with ARegistry p => is_register p | _ => False end.

Lemma disconnect_cases now a d st : let st' := (mark_inactive_on_disconnect_with_duration now a d st).1 in
  (st' = st ∨ ∃ i, nodes_of st !! a = Some i ∧ nodes_of st' = <[a := disconnected now i]> (nodes_of st))
  ∧ collateral_migration_times st' = collateral_migration_times st ∧ collateral_migration_counts st' = collateral_migration_counts st.
Proof.
  cbv zeta. unfold mark_inactive_on_disconnect_with_duration. destruct (is_local _ _); [by split; [left|]|].
  destruct (within _ _ _); [by split; [left|]|]. destruct (nodes_of st !! a) as [i|] eqn:Ei; [|by split; [left|]]. cbv zeta.
  repeat case_match; (split; [|done]); (by left) || (right; exists i; done).
Qed.
Lemma foldl_delete_sub (l : list string) (ns : gmap string MasternodeInfo) : foldl (λ ns a, delete a ns) ns l ⊆ ns.
Proof. revert ns. induction l as [|a l IH]; intros ns; cbn; [done|]. etrans; [apply IH|apply delete_subseteq]. Qed.
Lemma stale_free_sub now k st : nodes_of (clean_stale_free_tier_nodes now k st) ⊆ nodes_of st.
Proof. unfold clean_stale_free_tier_nodes. case_match; [done|]. unfold nodes_of. cbn. etrans; [apply foldl_delete_sub|apply delete_subseteq]. Qed.
Lemma evict_paid_evolves acc a : evolves acc.2 (evict_paid (S := S) acc a).2.
Proof.
  unfold evict_paid. pose proof (evolves_unregister acc.2 a) as Hu. by destruct (unregister acc.2 a) as [r1 [[?|]|?]].
Qed.
Lemma fold_evolves {A B} (reg : A → MasternodeRegistry) (f : A → B → A) l x : (∀ x y, evolves (reg x) (reg (f x y))) →
  evolves (reg x) (reg (foldl f x l)).
Proof.
  intros Hf. revert x. induction l as [|y l IH]; intros x; cbn; [by apply reg_evolves_same|]. eapply evolves_trans; [apply Hf|apply IH].
Qed.
Lemma evict_squatter_evolves reason o (a : audit_state (S := S)) ip : evolves a.1.2 (evict_squatter reason o a ip).1.2.
Proof. destruct a as [[m r] ev]. apply evolves_unregister. Qed.
Ltac audit_step := repeat case_match; first [apply evict_squatter_evolves | by apply reg_evolves_same].
Lemma audit_evolves local_ip wl m r : evolves r (audit_squatters local_ip wl m r).1.2.
Proof.
  unfold audit_squatters. cbv zeta. set (reg := λ a : audit_state (S := S), a.1.2).
  eapply evolves_trans; [|apply (fold_evolves reg); intros; unfold reg, audit_value; cbv zeta; audit_step].
  eapply evolves_trans; [|apply (fold_evolves reg)].
  { eapply evolves_trans; [|apply (fold_evolves reg); intros; unfold reg, audit_reward; cbv zeta; audit_step].
    apply (fold_evolves reg (audit_anchor local_ip wl) _ (m, r, [])). intros. unfold reg, audit_anchor. cbv zeta. audit_step. }
  intros a e. unfold reg, audit_duplicates. repeat case_match; try (by apply reg_evolves_same).
  apply (fold_evolves reg). intros. unfold reg. audit_step.
Qed.
Lemma adm_exec_unique st e : ¬ registers_on_chain e.2 → unique_claims (nodes_of st) → unique_claims (nodes_of (adm_exec st e)).
Proof.
  destruct e as [now p]. intros Hp. cbn [snd] in Hp. destruct p; cbn [adm_exec registers_on_chain] in *; try done.
  - apply register_unique.
  - apply claims_from_unique. destruct (disconnect_cases now a duration st) as [[->|(i & Hi & ->)] _]; [by apply claims_from_sub|].
    eapply claims_from_insert; [done|by right].
  - apply claims_from_unique, claims_from_sub, stale_free_sub.
  - apply claims_from_unique, evolves_claims. unfold cleanup_inactive_paid_nodes. cbn.
    apply (fold_evolves snd evict_paid _ (mo, areg st)), evict_paid_evolves.
  - apply claims_from_unique, evolves_claims. unfold evict_free_tier_subnet. apply (fold_evolves fst _ _ (areg st, [])).
    intros [r l] a. cbn. destruct (masternodes r !! a) as [i|]; [|by apply reg_evolves_same].
    destruct (is_free _); [apply evolves_unregister|by apply reg_evolves_same].
  - by apply claims_from_unique, claims_from_alter.
  - apply claims_from_unique, claims_from_alter. intros i. by destruct (_ =? _).
  - unfold update_daemon_started_at. destruct (_ =? _); [done|]. by apply claims_from_unique, claims_from_alter.
  - apply claims_from_unique, evolves_claims, audit_evolves.
  - by apply claims_from_unique, evolves_claims, reg_exec_evolves.
Qed.

(** C36: In every history of announcements, disconnects, evictions, audits, clean-ups and
    registry operations, with any UTXO sets and any clock, that applies no registration from
    a block, no two masternodes of the registry claim the same collateral outpoint. *)
Theorem one_node_per_collateral local started es : Forall (λ e, ¬ registers_on_chain e.2) es →
  ∀ a b i j o, nodes_of (adm_run (admission_new local started) es) !! a = Some i →
    nodes_of (adm_run (admission_new local started) es) !! b = Some j →
    collateral_outpoint (masternode i) = Some o → collateral_outpoint (masternode j) = Some o → a = b.
Proof.
  intros Hes. change (unique_claims (nodes_of (adm_run (admission_new local started) es))).
  assert (unique_claims (nodes_of (admission_new local started))) as Hu by (by intros a b i j o Ha).
  revert Hu. generalize (admission_new local started). induction Hes as [|e es He _ IH]; intros st Hu; cbn; [done|].
  apply IH. by apply adm_exec_unique.
Qed.

(** ** What a relayed announcement cannot do *)

Lemma anchor_check_local now owner mn o st :
  local_masternode_address (areg (anchor_check now owner mn o st).1) = local_masternode_address (areg st).
Proof. unfold anchor_check. repeat case_match; cbn [fst]; by rewrite ?note_warning_nodes. Qed.
Lemma squatter_check_local owner mn old st :
  local_masternode_address (areg (squatter_check owner mn old st).1) = local_masternode_address (areg st).
Proof. unfold squatter_check. repeat case_match; done. Qed.
Lemma claim_local now owner mn st a : is_local (areg (claim_outpoint now owner mn st).1) a = is_local (areg st) a.
Proof.
  assert (∀ st o old, local_masternode_address (areg (migrate now mn o old st).1) = local_masternode_address (areg st)) as E3.
  { intros st0 o old. unfold migrate. repeat case_match; done. }
  unfold is_local, claim_outpoint. destruct (collateral_outpoint mn) as [o|]; [|done]. pose proof (anchor_check_local now owner mn o st) as E1.
  destruct (anchor_check now owner mn o st) as [st1 [?|?]]; cbn [attempt fst] in *; [|by rewrite E1].
  destruct (other_holder st1 mn o) as [old|]; cbn [fst]; [|by rewrite E1]. pose proof (squatter_check_local owner mn old st1) as E2.
  destruct (squatter_check owner mn old st1) as [st2 [?|?]]; cbn [attempt fst] in *; [by rewrite E3, E2, E1|by rewrite E2, E1].
Qed.

(** The announcement [mn] takes the place of the entry [i] of the address [a]: it claims a
    collateral that is anchored to [a] or that an entry of this address claims, and it names
    the wallet that owns the output; or the entry is of the free tier, claims this
    collateral and is not the local node's. *)
Definition displaced (owner : option string) mn st (a : string) i : Prop := ∃ o, collateral_outpoint mn = Some o
  ∧ ((owner = Some (wallet_address mn)
      ∧ ((∃ c, anchors (areg st) !! outpoint_key o = Some c ∧ is_local (areg st) c = false ∧ a = ip_of c)
         ∨ ∃ b j, nodes_of st !! b = Some j ∧ claim_of j = Some o ∧ a = ip_of b))
     ∨ (is_free (tier (masternode i)) = true ∧ claim_of i = Some o ∧ is_local (areg st) a = false)).
Lemma anchor_check_removes now owner mn o st a i : nodes_of st !! a = Some i →
  nodes_of (anchor_check now owner mn o st).1 !! a = Some i
  ∨ owner = Some (wallet_address mn) ∧ ∃ c, anchors (areg st) !! outpoint_key o = Some c ∧ is_local (areg st) c = false ∧ a = ip_of c.
Proof.
  intros Ha. unfold anchor_check. destruct (anchors (areg st) !! outpoint_key o) as [c|]; [|by left].
  destruct (String.eqb _ _); [by left|]. unfold nodes_of in *. destruct owner as [u|]; [|left; cbn [fst]; by rewrite note_warning_nodes].
  destruct (negb _ && _) eqn:Eu; [|left; cbn [fst]; by rewrite note_warning_nodes].
  destruct (is_local (areg st) c) eqn:El; [left; cbn [fst]; by rewrite note_warning_nodes|].
  destruct (_ && _) in |- *; [left; cbn [fst]; by rewrite note_warning_nodes|]. cbn.
  destruct (decide (ip_of c = a)) as [<-|Hne]; [right|left; by rewrite lookup_delete_ne].
  apply andb_true_iff in Eu as [_ ->%String.eqb_eq]. split; [done|by exists c].
Qed.
Lemma squatter_check_removes owner mn old st a i : nodes_of st !! a = Some i →
  nodes_of (squatter_check owner mn old st).1 !! a = Some i ∨ owner = Some (wallet_address mn) ∧ a = ip_of old.
Proof.
  intros Ha. unfold squatter_check. destruct owner as [u|]; [|by left]. destruct (str_is_empty u); [by left|]. cbv zeta.
  destruct (negb _ && String.eqb _ _) eqn:Eu; [|left; by case_match]. unfold nodes_of in *. cbn.
  apply andb_true_iff in Eu as [_ <-%String.eqb_eq]. destruct (decide (ip_of old = a)) as [<-|Hne]; [by right|left; by rewrite lookup_delete_ne].
Qed.
Lemma migrate_removes now mn o old st a i : nodes_of st !! a = Some i →
  nodes_of (migrate now mn o old st).1 !! a = Some i ∨ a = old ∧ is_free (tier (masternode i)) = true ∧ is_local (areg st) a = false.
Proof.
  intros Ha. unfold migrate. destruct (migration_guards now mn o old st) eqn:Eg; [|by left]. destruct (migration_window _ _ _).
  unfold nodes_of in *. cbn. destruct (decide (old = a)) as [->|Hne]; [|left; by rewrite lookup_delete_ne]. right. split; [done|].
  unfold migration_guards, nodes_of in Eg. cbv zeta in Eg. rewrite Ha in Eg. cbn in Eg.
  destruct (is_free (tier (masternode i))); [|done]. cbn in Eg. split; [done|].
  destruct (is_local (areg st) a); [|done]. by repeat case_match.
Qed.
Lemma claim_removes now owner mn st a i : nodes_of st !! a = Some i →
  nodes_of (claim_outpoint now owner mn st).1 !! a = Some i ∨ displaced owner mn st a i.
Proof.
  intros Ha. unfold claim_outpoint, displaced. destruct (collateral_outpoint mn) as [o|]; [|by left].
  pose proof (anchor_check_sub now owner mn o st) as Hs. pose proof (anchor_check_local now owner mn o st) as El.
  destruct (anchor_check_removes now owner mn o st a i Ha) as [Ha1|[Hw Hc]]; [|right; exists o; split; [done|]; left; split; [done|]; by left].
  destruct (anchor_check now owner mn o st) as [st1 [?|?]]; cbn [attempt fst] in *; [|by left].
  destruct (other_holder st1 mn o) as [old|] eqn:Eh; [|by left]. destruct (other_holder_some _ _ _ _ Eh) as (j & Hj & Cj).
  pose proof (squatter_check_local owner mn old st1) as El'.
  destruct (squatter_check_removes owner mn old st1 a i Ha1) as [Ha2|[Hw Hc]].
  2: { right. exists o. split; [done|]. left. split; [done|]. right. exists old, j. split; [by eapply lookup_weaken|done]. }
  destruct (squatter_check owner mn old st1) as [st2 [?|?]]; cbn [attempt fst] in *; [|by left].
  destruct (migrate_removes now mn o old st2 a i Ha2) as [Ha3|(-> & Hf & Hl)]; [by left|]. right. exists o. split; [done|]. right.
  split; [done|]. rewrite Hj in Ha1. injection Ha1 as <-. split; [done|]. unfold is_local in *. by rewrite El', El in Hl.
Qed.

(** What an entry may become by a relayed announcement: [local] is whether it is the local
    node's. *)
Record relayed_update (mo : option (UTXOStateManager S)) (local : bool) i i' : Prop := mkRelayedUpdate {
  ru_active : is_active i' = is_active i;
  ru_suspended : consensus_suspended i' = consensus_suspended i;
  ru_source : registration_source i' = registration_source i;
  ru_local : local = true → i' = i;
  ru_demoted : is_free (tier (masternode i)) = false → is_free (tier (masternode i')) = true →
    ∀ o, collateral_outpoint (masternode i) = Some o → ∃ m, mo = Some m ∧ is_ok (get_utxo m o) = false;
}.
Lemma relayed_same mo local i : relayed_update mo local i i.
Proof. split; [done..|congruence]. Qed.
Lemma relayed_entry now mo mn reward st local i i' : nodes_of st !! mn_address mn = Some i →
  updated_entry now mn reward false false (existing_collateral_exists mo mn st) local i i' → relayed_update mo local i i'.
Proof.
  intros Hi Hu. inversion Hu as [E|? ? E|E|Hl Hd E]; subst; try done; [apply relayed_same..|].
  split; [done..|by intros ?%Hl|]. intros Hf Hf' o Ho. cbn in Hf'.
  destruct local; [by discriminate (Hl eq_refl)|]. destruct Hd as [?|[?|[?|[?|Hd]]]]; try congruence.
  unfold existing_collateral_exists in Hd. rewrite Hi in Hd. cbn in Hd. rewrite Ho in Hd. destruct mo as [m|]; [|done]. exists m. split; [done|]. by injection Hd.
Qed.

(** C37: What an announcement relayed by a third party can do to the registry. Every entry
    afterwards is a new, inactive one at the announced address, or was there before: then it
    was not activated, its suspension not lifted, its registration source not changed, the
    local node's entry is as it was, and a paid node with a collateral outpoint was demoted
    to the free tier only if the UTXO set no longer has that output. Every entry there was
    before remains in this way or is displaced, which only an announcement of a collateral
    does that is anchored to the entry's address or claimed under it, and which names the
    wallet that owns the output (the local node's own entry is then not spared), unless the
    entry is of the free tier and not the local node's. *)
Theorem relayed_announcement_limits now mo mn reward st :
  let st' := (register_gossip now mo mn reward st).1 in
  (∀ a i', nodes_of st' !! a = Some i' → (a = mn_address mn ∧ ∃ h, i' = new_announced now mn reward false h)
      ∨ ∃ i, nodes_of st !! a = Some i ∧ relayed_update mo (is_local (areg st) a) i i')
  ∧ (∀ a i, nodes_of st !! a = Some i → displaced (prefetched_utxo_addr mo mn) mn st a i
      ∨ ∃ i', nodes_of st' !! a = Some i' ∧ relayed_update mo (is_local (areg st) a) i i').
Proof.
  cbv zeta. unfold register_gossip. set (st0 := drop_expired_cooldown now mn false st).
  destruct (drop_expired_nodes now mn false st) as (E0 & E1 & E2). fold st0 in E0, E1, E2.
  assert (∀ a i, nodes_of st !! a = Some i → nodes_of (claim_outpoint now (prefetched_utxo_addr mo mn) mn st0).1 !! a = Some i
    ∨ displaced (prefetched_utxo_addr mo mn) mn st a i) as Hrem.
  { intros a i Ha. rewrite <- E0 in Ha. destruct (claim_removes now (prefetched_utxo_addr mo mn) mn st0 a i Ha) as [?|Hd]; [by left|right].
    unfold displaced in *. rewrite E0, E2, E1 in Hd. destruct Hd as (o & Ho & Hd). exists o. split; [done|].
    destruct Hd as [(Hw & [(c & Hc & Hl & Hac)|Hb])|Hd]; [left|left|by right]; (split; [done|]); [left; exists c; by rewrite <- E1|by right]. }
  destruct (register_nodes now mo mn reward false false st) as [[Hcase Hs]|(_ & Hs & j & En & Hj)].
  { split; intros a i Ha; [right; exists i; split; [by eapply lookup_weaken|apply relayed_same]|].
    destruct (Hrem a i Ha) as [Ha'|?]; [right|by left]. exists i. split; [by destruct Hcase as [-> | ->]|apply relayed_same]. }
  rewrite En. fold st0 in Hs, Hj. set (st1 := (claim_outpoint _ _ mn st0).1) in *.
  assert (is_local (areg st1) (mn_address mn) = is_local (areg st) (mn_address mn)) as El by (unfold st1; by rewrite claim_local, E1).
  split; intros a i Ha.
  - apply lookup_insert_Some in Ha as [[<- <-]|[_ Ha]]; [|right; exists i; split; [by eapply lookup_weaken|apply relayed_same]].
    destruct (nodes_of st1 !! mn_address mn) as [i|] eqn:Ei; [right|by left]. assert (nodes_of st !! mn_address mn = Some i) as Hi by (by eapply lookup_weaken).
    exists i. split; [done|]. rewrite El in Hj. by eapply relayed_entry.
  - destruct (Hrem a i Ha) as [Ha'|?]; [right|by left]. fold st1 in Ha'. destruct (decide (mn_address mn = a)) as [<-|Hne].
    + exists j. rewrite lookup_insert_eq. split; [done|]. rewrite Ha', El in Hj. by eapply relayed_entry.
    + exists i. rewrite lookup_insert_ne by done. split; [done|apply relayed_same].
Qed.

(** C38: When a collateral is anchored to another address, an announcement that claims it
    changes the registry only if it names the wallet that owns the output, the anchored node
    is not the local one, and the anchored node does not announce that wallet as well
    (unless the newcomer is the local node). *)
Theorem anchor_protects now mo mn reward act direct st o c : collateral_outpoint mn = Some o →
  anchors (areg st) !! outpoint_key o = Some c → ip_of c ≠ ip_of (mn_address mn) →
  nodes_of (register_internal now mo mn reward act direct st).1 ≠ nodes_of st →
  ∃ u, prefetched_utxo_addr mo mn = Some u ∧ str_is_empty u = false ∧ u = wallet_address mn ∧ is_local (areg st) c = false
       ∧ (canonical_wallet_matches c u st = false ∨ is_local (areg st) (mn_address mn) = true).
Proof.
  intros Ho Hc Hne Hx. unfold register_internal in Hx. destruct (admission_guards _ _ _ _); [|done]. cbv zeta in Hx.
  destruct (drop_expired_nodes now mn direct st) as (E0 & E1 & E2). set (st0 := drop_expired_cooldown now mn direct st) in *.
  assert (∀ u, canonical_wallet_matches c u st = canonical_wallet_matches c u st0) as Ew by (intros u; unfold canonical_wallet_matches; by rewrite E0).
  assert (∀ k, nodes_of (note_warning now k st0) = nodes_of st) as Hn by (intros k; unfold nodes_of; by rewrite note_warning_nodes).
  unfold claim_outpoint in Hx. rewrite Ho in Hx. unfold anchor_check in Hx. rewrite E2, Hc in Hx.
  destruct (String.eqb_spec (ip_of c) (ip_of (mn_address mn))); [done|].
  destruct (prefetched_utxo_addr mo mn) as [u|]; [|by cbn in Hx; rewrite Hn in Hx].
  destruct (negb (str_is_empty u) && String.eqb u (wallet_address mn)) eqn:Eu; [|by cbn in Hx; rewrite Hn in Hx].
  apply andb_true_iff in Eu as [Hu%negb_true_iff ->%String.eqb_eq]. rewrite !E1 in Hx.
  destruct (is_local (areg st) c) eqn:El; [by cbn in Hx; rewrite Hn in Hx|]. exists (wallet_address mn).
  split_and!; [done..|]. rewrite Ew. destruct (canonical_wallet_matches c (wallet_address mn) st0); [|by left].
  destruct (is_local (areg st) (mn_address mn)); [by right|by cbn in Hx; rewrite Hn in Hx].
Qed.

(** ** Migrations *)

Definition note_step (now : Z) st st' (k : string) : Prop :=
  (collateral_migration_times st' !! k = collateral_migration_times st !! k ∨ collateral_migration_times st' !! k = Some now)
  ∧ (collateral_migration_counts st' !! k = collateral_migration_counts st !! k
     ∨ within now MIGRATION_COOLDOWN_SECS (collateral_migration_times st !! k) = false ∧ collateral_migration_times st' !! k = Some now).
Lemma note_same now st st' k : collateral_migration_times st' = collateral_migration_times st →
  collateral_migration_counts st' = collateral_migration_counts st → note_step now st st' k.
Proof. intros E1 E2. unfold note_step. rewrite E1, E2. by split; left. Qed.
Lemma warning_note now key st k : note_step now st (note_warning now key st) k.
Proof.
  unfold note_warning. case_match; [|by apply note_same]. split; [|by left]. cbn.
  destruct (decide (key = k)) as [->|]; [right; by rewrite lookup_insert_eq|left; by rewrite lookup_insert_ne].
Qed.
Lemma migrate_note now mn o old st k : note_step now st (migrate now mn o old st).1 k.
Proof.
  unfold migrate. destruct (migration_guards now mn o old st) as [u|] eqn:Eg; [|by apply note_same].
  destruct (migration_window _ _ _) as [c s]. unfold note_step. cbn. destruct (decide (outpoint_key o = k)) as [<-|].
  - rewrite !lookup_insert_eq. split; [by right|right]. split; [|done]. unfold migration_guards in Eg. cbv zeta in Eg.
    repeat match type of Eg with (if ?c then _ else _) = _ => destruct c eqn:?; [discriminate|] end. done.
  - rewrite !lookup_insert_ne by done. by split; left.
Qed.
Lemma claim_note now owner mn st k : note_step now st (claim_outpoint now owner mn st).1 k.
Proof.
  unfold claim_outpoint. destruct (collateral_outpoint mn) as [o|]; [|by apply note_same].
  destruct (anchor_check now owner mn o st) as [st1 [[]|er]] eqn:Ea; cbn [attempt].
  - assert (collateral_migration_times st1 = collateral_migration_times st ∧ collateral_migration_counts st1 = collateral_migration_counts st) as [E1 E2].
    { unfold anchor_check in Ea. repeat case_match; simplify_eq; done. }
    destruct (other_holder st1 mn o) as [old|]; [|by apply note_same].
    destruct (squatter_check owner mn old st1) as [st2 [[]|er]] eqn:Es; cbn [attempt];
      assert (collateral_migration_times st2 = collateral_migration_times st1 ∧ collateral_migration_counts st2 = collateral_migration_counts st1) as [E3 E4]
        by (unfold squatter_check in Es; repeat case_match; simplify_eq; done); [|apply note_same; cbn; congruence].
    pose proof (migrate_note now mn o old st2 k) as Hm. unfold note_step in *. by rewrite E3, E4, E1, E2 in Hm.
  - cbn [fst]. unfold anchor_check in Ea. repeat case_match; simplify_eq; apply warning_note.
Qed.
Lemma register_note now mo mn reward act direct st k : note_step now st (register_internal now mo mn reward act direct st).1 k.
Proof.
  unfold register_internal. destruct (admission_guards _ _ _ _); [|by apply note_same]. cbv zeta.
  set (st0 := drop_expired_cooldown now mn direct st).
  assert (collateral_migration_times st0 = collateral_migration_times st ∧ collateral_migration_counts st0 = collateral_migration_counts st) as [E1 E2].
  { unfold st0, drop_expired_cooldown. repeat case_match; done. }
  pose proof (claim_note now (prefetched_utxo_addr mo mn) mn st0 k) as Hc. unfold note_step in Hc. rewrite E1, E2 in Hc.
  destruct (claim_outpoint _ _ mn st0) as [st1 [[]|er]]; [|exact Hc]. cbn [fst] in Hc.
  assert (∀ st2, collateral_migration_times st2 = collateral_migration_times st1 → collateral_migration_counts st2 = collateral_migration_counts st1 →
    note_step now st st2 k) as Hk by (intros st2 E3 E4; unfold note_step; by rewrite E3, E4).
  destruct (nodes_of st1 !! mn_address mn) as [i|].
  - unfold update_existing, settle. repeat case_match; by apply Hk.
  - unfold insert_new. cbv zeta. destruct (is_free (tier mn)); by apply Hk.
Qed.
Lemma exec_note st e k : note_step e.1 st (adm_exec st e) k.
Proof.
  destruct e as [now p]. destruct p; cbn [adm_exec fst]; try (by apply note_same).
  - apply register_note.
  - destruct (disconnect_cases now a duration st) as [_ [E1 E2]]. by apply note_same.
  - unfold clean_stale_free_tier_nodes. case_match; by apply note_same.
Qed.
(** The last time noted for an outpoint does not go back. *)
Lemma run_noted st es k t t0 : collateral_migration_times st !! k = Some t0 → t ≤ t0 → Forall (λ e, t ≤ e.1) es →
  ∃ t', collateral_migration_times (adm_run st es) !! k = Some t' ∧ t ≤ t'.
Proof.
  intros Ht Hle Hes. revert st t0 Ht Hle. induction Hes as [|e es He _ IH]; intros st t0 Ht Hle; cbn; [eauto|].
  destruct (exec_note st e k) as [[E|E] _]; [by eapply IH; [rewrite E|]|by eapply IH].
Qed.

(** Two accepted migrations of one outpoint are at least 300 seconds apart, whatever happens
    in between. *)
Theorem migrations_spaced st es1 e1 es2 e2 k :
  let before := adm_run st es1 in
  let between := adm_run (adm_exec before e1) es2 in
  Forall (λ e, e1.1 ≤ e.1) es2 →
  collateral_migration_counts (adm_exec before e1) !! k ≠ collateral_migration_counts before !! k →
  collateral_migration_counts (adm_exec between e2) !! k ≠ collateral_migration_counts between !! k →
  e1.1 + MIGRATION_COOLDOWN_SECS ≤ e2.1.
Proof.
  cbv zeta. intros Hes Hc1 Hc2. destruct (exec_note (adm_run st es1) e1 k) as [_ [E|[_ Ht]]]; [by destruct Hc1|].
  destruct (run_noted _ es2 k e1.1 e1.1 Ht ltac:(lia) Hes) as (t' & Ht' & Hle).
  destruct (exec_note (adm_run (adm_exec (adm_run st es1) e1) es2) e2 k) as [_ [E|[Hw _]]]; [by destruct Hc2|].
  rewrite Ht' in Hw. cbn in Hw. apply Z.ltb_ge in Hw. unfold sat_sub, MIGRATION_COOLDOWN_SECS in *. lia.
Qed.
End proofs.
