(* ===== verification/AdmissionSamples.v ===== *)
(** * Admission on concrete announcements

    Witnesses of the theorems of [AdmissionProofs] and histories in which admission does not
    do what its comments say. *)

From Stdlib Require Import ZArith Lia Ascii String.
From stdpp Require Import base gmap strings list pretty.
From S2P Require Import Prelude Types Instances Address Storage UtxoManager UtxoProofs UtxoTheorems BlockTypes Registry RegistryProofs BanList Admission AdmissionProofs.

#[local] Existing Instance tagged_externals.
#[local] Existing Instance canonical_iter.

Definition a_op (n : Z) : OutPoint := mkOutPoint (replicate 32 n) 0.
(** Two outputs worth a bronze collateral, owned by the wallet [w]. *)
Definition a_funds : UTXOStateManager (gmap OutPoint UTXO) :=
  run w_boot [OpAdd (mkUTXO (a_op 1) (collateral Bronze) [1] "w" None); OpAdd (mkUTXO (a_op 2) (collateral Bronze) [1] "w" None)].
Definition a_bronze (ip wallet : string) (o : OutPoint) : Masternode := new_with_collateral ip wallet (collateral Bronze) o [] Bronze 0.
Definition a_free (ip : string) (o : option OutPoint) : Masternode :=
  mkMasternode ip "w" "" 0 o 0 None [] Free 0 (U32 - 1).
Definition a_announce (mn : Masternode) (act direct : bool) : adm_op (S := gmap OutPoint UTXO) :=
  ARegister (Some a_funds) mn (wallet_address mn) act direct.

(** ** Witnesses *)

Definition a_history : list (Z * adm_op (S := gmap OutPoint UTXO)) :=
  [(10, a_announce (a_bronze "1.1.1.1" "w" (a_op 1)) true true); (20, a_announce (a_bronze "2.2.2.2" "w" (a_op 1)) true true)].
Lemma a_history_holder : collateral_outpoint ∘ masternode <$> nodes_of (adm_run (admission_new None 0) a_history) !! "1.1.1.1" = Some (Some (a_op 1)).
Proof. by vm_compute. Qed.
Lemma one_node_per_collateral_witness :
  ∃ i, nodes_of (adm_run (admission_new None 0) a_history) !! "1.1.1.1" = Some i ∧ "1.1.1.1" = "1.1.1.1".
Proof.
  pose proof (proj1 (fmap_Some _ _ _) a_history_holder) as (i & Hi & Ho). exists i. split; [exact Hi|].
  refine (one_node_per_collateral None 0 a_history _ "1.1.1.1" "1.1.1.1" i i (a_op 1) Hi Hi (eq_sym Ho) (eq_sym Ho)).
  repeat constructor; exact (λ x, x).
Defined.

Definition a_single : Admission := adm_run (admission_new None 0) [(10, a_announce (a_bronze "1.1.1.1" "w" (a_op 1)) true true)].
Definition a_downgrade : Masternode := a_free "1.1.1.1" None.
Lemma a_single_active : is_active <$> nodes_of a_single !! "1.1.1.1" = Some true.
Proof. by vm_compute. Qed.
Lemma relayed_announcement_limits_witness :
  ∃ i i', nodes_of a_single !! "1.1.1.1" = Some i ∧ nodes_of (register_gossip 20 (Some a_funds) a_downgrade "w" a_single).1 !! "1.1.1.1" = Some i'
  ∧ is_active i' = is_active i.
Proof.
  pose proof (proj1 (fmap_Some _ _ _) a_single_active) as (i & Hi & _). exists i.
  destruct (proj2 (relayed_announcement_limits 20 (Some a_funds) a_downgrade "w" a_single) "1.1.1.1" i Hi) as [(o & Ho & _)|(i' & Hi' & Hu)];
    [discriminate Ho|]. exists i'. split; [exact Hi|]. split; [exact Hi'|exact (ru_active _ _ _ _ Hu)].
Defined.

(** A squatter's anchor falls to the owner of the output. *)
Definition a_squatted : Admission := adm_run (admission_new None 0) [(10, a_announce (a_bronze "2.2.2.2" "x" (a_op 1)) false false)].
Definition a_owner : Masternode := a_bronze "1.1.1.1" "w" (a_op 1).
Lemma a_taken : is_active <$> nodes_of (register_internal 20 (Some a_funds) a_owner "w" true true a_squatted).1 !! "1.1.1.1" = Some true.
Proof. by vm_compute. Qed.
Lemma a_absent : is_active <$> nodes_of a_squatted !! "1.1.1.1" = None.
Proof. by vm_compute. Qed.
Lemma anchor_protects_witness : ∃ u, prefetched_utxo_addr (Some a_funds) a_owner = Some u ∧ u = "w" ∧ is_local (areg a_squatted) "2.2.2.2" = false.
Proof.
  destruct (anchor_protects 20 (Some a_funds) a_owner "w" true true a_squatted (a_op 1) "2.2.2.2") as (u & Hu & _ & E & El & _);
    [reflexivity|by vm_compute|by vm_compute| |exists u; exact (conj Hu (conj E El))].
  intros E. pose proof (f_equal (λ ns : gmap string MasternodeInfo, is_active <$> ns !! "1.1.1.1") E) as Ea. cbv beta in Ea.
  discriminate (eq_trans (eq_sym a_taken) (eq_trans Ea a_absent)).
Defined.

Definition a_move (now : Z) (ip : string) : Z * adm_op (S := gmap OutPoint UTXO) :=
  (now, ARegister None (a_free ip (Some (a_op 1))) "w" true true).
Definition a_moved : Admission := adm_run (admission_new None 0) [a_move 1000 "1.1.1.1"].
Lemma migrations_spaced_witness :
  let k := outpoint_key (a_op 1) in
  let st := adm_exec a_moved (a_move 2000 "2.2.2.2") in
  collateral_migration_counts (adm_exec st (a_move 2400 "3.3.3.3")) !! k = Some (2, 2000) ∧ 2000 + MIGRATION_COOLDOWN_SECS ≤ 2400.
Proof.
  split; [by vm_compute|].
  apply (migrations_spaced (admission_new None 0) [a_move 1000 "1.1.1.1"] (a_move 2000 "2.2.2.2") [] (a_move 2400 "3.3.3.3") (outpoint_key (a_op 1)));
    [constructor|by vm_compute|by vm_compute].
Defined.

(** ** Where admission departs from its comments *)

(** The local node loses its entry to a relayed announcement that is itself refused, and the
    snapshot the consensus engine reads still lists it. *)
Theorem local_node_evicted :
  let st := adm_run (admission_new (Some "1.1.1.1") 0)
    [(10, a_announce (a_bronze "1.1.1.1" "hot" (a_op 2)) true false); (20, a_announce (a_bronze "1.1.1.1" "hot" (a_op 1)) true false)] in
  let res := register_gossip 30 (Some a_funds) (a_bronze "2.2.2.2" "w" (a_op 1)) "w" st in
  is_active <$> nodes_of st !! "1.1.1.1" = Some true ∧ res.2 = Err InvalidCollateral
  ∧ is_active <$> nodes_of res.1 !! "1.1.1.1" = None ∧ length (cached_active (areg res.1)) = 1%nat.
Proof. by vm_compute. Qed.

(** One node counts twice in its subnet. *)
Theorem subnet_counted_twice :
  free_tier_subnet_counts (register_direct 10 (Some a_funds) (a_free "5.6.7.8" None) "w" (admission_new None 0)).1 !! "5.6.7" = Some 2.
Proof. by vm_compute. Qed.

(** A registration on chain makes a second entry for the node, under its address with the
    port, on the same collateral, and the node's own announcements are refused from then on. *)
Theorem registration_blocks_announcements :
  let onchain := ARegistry (RRegister 15 a_funds "1.1.1.1:24000" "w" "w" (outpoint_key (a_op 1)) (sample_key 1) (sample_signature 1) 1300 "t1") in
  let st := adm_run a_single [(15, onchain)] in
  collateral_outpoint ∘ masternode <$> nodes_of st !! "1.1.1.1" = Some (Some (a_op 1))
  ∧ collateral_outpoint ∘ masternode <$> nodes_of st !! "1.1.1.1:24000" = Some (Some (a_op 1))
  ∧ (register_direct 20 (Some a_funds) (a_bronze "1.1.1.1" "w" (a_op 1)) "w" a_single).2 = Ok false
  ∧ (register_direct 20 (Some a_funds) (a_bronze "1.1.1.1" "w" (a_op 1)) "w" st).2 = Err CollateralAlreadyLocked.
Proof. by vm_compute. Qed.

(** A second disconnect of a node that is down already adds the time it was down. *)
Theorem downtime_counted_as_uptime :
  let st := adm_run (admission_new None 0) [(100, a_announce (a_free "5.6.7.8" None) true true)] in
  total_uptime <$> nodes_of (adm_run st [(200, ADisconnect "5.6.7.8" None)]) !! "5.6.7.8" = Some 100
  ∧ total_uptime <$> nodes_of (adm_run st [(200, ADisconnect "5.6.7.8" None); (300, ADisconnect "5.6.7.8" None)]) !! "5.6.7.8" = Some 300.
Proof. by vm_compute. Qed.

(** The audit evicts a squatter by the anchor of the owner and deletes that anchor and the
    owner's lock. *)
Theorem audit_drops_owner_anchor :
  let m := run a_funds [OpLockCollateral 5 (a_op 1) "1.1.1.1" 3 (collateral Bronze) true] in
  let r := set_collateral_anchor (areg a_squatted) (a_op 1) "1.1.1.1" in
  let '(m', r', ev) := audit_squatters "" ∅ m r in
  is_collateral_locked m (a_op 1) = true ∧ is_collateral_locked m' (a_op 1) = false
  ∧ get_collateral_anchor r (a_op 1) = Some "1.1.1.1" ∧ get_collateral_anchor r' (a_op 1) = None ∧ ev = [("2.2.2.2", AnchorMismatch)].
Proof. by vm_compute. Qed.

(** A relayed announcement of a node that does not own its collateral sets the anchor. *)
Theorem gossip_sets_anchor : get_collateral_anchor (areg a_squatted) (a_op 1) = Some "2.2.2.2".
Proof. by vm_compute. Qed.

(** Five migrations of one outpoint within twenty minutes: the window of three in thirty
    minutes does not slide. *)
Theorem migrations_across_windows :
  let es := [a_move 2000 "2.2.2.2"; a_move 3200 "3.3.3.3"; a_move 3500 "4.4.4.4"; a_move 3800 "5.5.5.5"; a_move 4100 "6.6.6.6"; a_move 4400 "7.7.7.7"] in
  (λ n, (iter (nodes_of (adm_run a_moved (take n es)))).*1) <$> [1; 2; 3; 4; 5; 6]%nat
  = [["2.2.2.2"]; ["3.3.3.3"]; ["4.4.4.4"]; ["5.5.5.5"]; ["6.6.6.6"]; ["7.7.7.7"]].
Proof. by vm_compute. Qed.
