(* ===== verification/Production.v ===== *)
(** * Block production (src/blockchain.rs, produce_block_at_height)

    The votes of the two rounds of block consensus (src/consensus.rs), and the block a
    producer assembles from the pool, the registry, the reward calculator and governance.
    Whether the majority of peers agrees with the tip ([check_2_3_consensus_cached]) and the
    encrypted memo of the reward distribution are arguments. *)

From Stdlib Require Import ZArith Lia Ascii String.
From stdpp Require Import base gmap strings list.
From S2P Require Import Prelude Types Instances Address Storage UtxoManager TransactionPool BlockVotes.
From S2P Require Import Lru BlockTypes BlockVrf BlockCache BlockLedger Governance Registry Reward Utf8 Genesis TxValidation Consensus Fallback.
From S2P Require Import Chain ChainApply.

(** ** Votes on blocks *)

Record BlockVoting := mkBlockVoting {
  prepare_votes : PrepareVoteAccumulator;
  precommit_votes : PrecommitVoteAccumulator;
  last_block_voters : gmap Hash256 (list string);
  last_voted_height : Z;
}.
Implicit Types v : BlockVoting.
Definition set_prepare (a : PrepareVoteAccumulator) v := mkBlockVoting a (precommit_votes v) (last_block_voters v) (last_voted_height v).
Definition set_precommit (a : PrecommitVoteAccumulator) v := mkBlockVoting (prepare_votes v) a (last_block_voters v) (last_voted_height v).

Section voting.
Context `{MapIter}.

Definition generate_prepare_vote (h : Hash256) (id : string) (w : Z) v : BlockVoting :=
  set_prepare (prepare_add_vote (prepare_votes v) h id w) v.
Definition accumulate_prepare_vote (h : Hash256) (id : string) (w : Z) v : BlockVoting :=
  set_prepare (prepare_add_vote (prepare_votes v) h id w) v.
Definition generate_precommit_vote (h : Hash256) (id : string) (w : Z) (sig : bytes) v : BlockVoting :=
  set_precommit (precommit_add_vote (precommit_votes v) h id sig w) v.
Definition accumulate_precommit_vote (h : Hash256) (id : string) (w : Z) (sig : bytes) v : BlockVoting :=
  set_precommit (precommit_add_vote (precommit_votes v) h id sig w) v.
(** The sample size that is passed on is not used by the accumulators. *)
Definition check_prepare_consensus (h : Hash256) v : BlockVoting * bool :=
  let '(a, ok) := prepare_check_consensus (prepare_votes v) h in (set_prepare a v, ok).
Definition check_precommit_consensus (h : Hash256) v : BlockVoting * bool :=
  let '(a, ok) := precommit_check_consensus (precommit_votes v) h in (set_precommit a v, ok).

(** [voters], and those of [more] that are not among them yet. *)
Definition merge_voters (voters more : list string) : list string :=
  foldl (λ l x, if existsb (String.eqb x) l then l else l ++ [x]) voters more.
Definition cleanup_block_votes (h : Hash256) v : BlockVoting :=
  let voters := merge_voters (get_voters (precommit_votes v) h) (get_voters (prepare_votes v) h) in
  let kept := match voters with [] => last_block_voters v | _ => <[h := voters]> (last_block_voters v) end in
  mkBlockVoting (acc_clear (prepare_votes v) h) (acc_clear (precommit_votes v) h) kept (last_voted_height v).
Definition keep_voters (m : gmap Hash256 (list string)) (e : Hash256 * list string) : gmap Hash256 (list string) :=
  match e.2 with
  | [] => m
  | _ => <[e.1 := match m !! e.1 with Some l => merge_voters l e.2 | None => e.2 end]> m
  end.
Definition advance_vote_height (new_height : Z) v : BlockVoting :=
  if last_voted_height v <? new_height then
    let m := foldl keep_voters (last_block_voters v) (get_all_voters (precommit_votes v)) in
    let m := foldl keep_voters m (get_all_voters (prepare_votes v)) in
    mkBlockVoting (acc_clear_all (prepare_votes v)) (acc_clear_all (precommit_votes v)) m new_height
  else mkBlockVoting (prepare_votes v) (precommit_votes v) (last_block_voters v) new_height.
Definition get_finalized_block_voters (h : Hash256) v : list string := default [] (last_block_voters v !! h).
End voting.

Definition MAX_BLOCK_ASSEMBLY_SIZE : Z := 1900000.
Definition BLOCK_OVERHEAD_BYTES : Z := 32768.

Inductive production_error :=
| NoGenesis | BadGenesis (e : genesis_error) | NoMajority | TipMissing (h : Z) | AlreadyHave (h : Z) | MissingBetween (h : Z)
| TooEarly (h wait : Z) | ProducerRequired (h : Z) | NoMasternodesAvailable | TooFewMasternodes (n : nat) | NoRewards.

Section production.
Context {S : Type} `{UtxoStorage S} `{MapIter} `{Externals} `{BlockExternals} `{!BlockCodec} `{LegacyCodec} `{Zstd} `{LruCrate}.
Context `{TxExternals} `{PoolCodec} `{VrfExternals} `{GovCodec}.
Abbreviation Blockchain := (Blockchain (S := S)).
Implicit Types c : Blockchain.

(** ** The transactions of the block *)

Record assembly := mkAssembly {
  asm_valid : list (Transaction * Z);
  asm_evict : list Hash256;
  asm_spent : gset OutPoint;
  asm_seen : gset Hash256;
}.
Definition evict_tx (t : Hash256) (a : assembly) : assembly :=
  mkAssembly (asm_valid a) (asm_evict a ++ [t]) (asm_spent a) (asm_seen a).
Definition coinbase_shaped (tx : Transaction) : bool :=
  bool_decide (inputs tx = []) && negb (bool_decide (outputs tx = [])) && negb (bool_decide (is_Some (special_data tx)))
  || existsb (λ o, bool_decide (take 13 (out_script_pubkey o) = str_bytes "BLOCK_REWARD_")) (outputs tx).
(** Finalized inputs are spent, being spent or locked; after a restart the tombstone is left. *)
Definition input_taken (m : UTXOStateManager S) (i : TxInput) : bool :=
  match get_state m (previous_output i) with
  | Some (SpentFinalized _ _ _) | Some (SpentPending _ _ _ _) | Some (Locked _ _) => true
  | None => is_tombstoned m (previous_output i)
  | _ => false
  end.
Definition block_fee c (h : Z) (tx : Transaction) (fee : Z) : Z :=
  if (fee =? 0) && negb (bool_decide (inputs tx = [])) then default 0 (compute_single_tx_fee c tx h) else fee.
Definition select_tx c (h : Z) (a : assembly) (e : Transaction * Z) : assembly :=
  let '(tx, fee) := e in
  let t := txid tx in
  if bool_decide (t ∈ asm_seen a) then a
  else
    let a := mkAssembly (asm_valid a) (asm_evict a) (asm_spent a) ({[t]} ∪ asm_seen a) in
    if is_tx_archived c t then evict_tx t a
    else if is_ghost_tx tx then evict_tx t a
    else if coinbase_shaped tx then evict_tx t a
    else if negb (forallb (input_taken (bc_utxo c)) (inputs tx)) then evict_tx t a
    else if existsb (λ i, bool_decide (previous_output i ∈ asm_spent a)) (inputs tx) then a
    else mkAssembly (asm_valid a ++ [(tx, block_fee c h tx fee)]) (asm_evict a)
           (list_to_set (previous_output <$> inputs tx) ∪ asm_spent a) (asm_seen a).
Definition select_txs c (h : Z) (raw : list (Transaction * Z)) : assembly := foldl (select_tx c h) (mkAssembly [] [] ∅ ∅) raw.

(** The first deregistration of each slot. *)
Fixpoint dedup_deregistrations (seen : gset Z) (l : list (Transaction * Z)) : list (Transaction * Z) :=
  match l with
  | [] => []
  | e :: l =>
      match special_data e.1 with
      | Some (MasternodeDeregistration _ slot _ _) =>
          if bool_decide (slot ∈ seen) then dedup_deregistrations seen l else e :: dedup_deregistrations ({[slot]} ∪ seen) l
      | _ => e :: dedup_deregistrations seen l
      end
  end.

(** *** Dependency order: Kahn's algorithm *)

Definition index_of (txs : list Transaction) : gmap Hash256 nat :=
  list_to_map (reverse (imap (λ i tx, (txid tx, i)) txs)).
(** The edges [(a, b)]: an input of the [b]-th transaction spends an output of the [a]-th. *)
Definition dependencies (txs : list Transaction) : list (nat * nat) :=
  concat (imap (λ b tx, omap (λ i, (λ a, (a, b)) <$> index_of txs !! op_txid (previous_output i)) (inputs tx)) txs).
Definition successors (es : list (nat * nat)) (a : nat) : list nat := (filter (λ e, e.1 = a) es).*2.
(** The degree of a node counts its edges, so it is not decremented below zero. *)
Definition release (st : list nat * list Z) (j : nat) : list nat * list Z :=
  let '(queue, deg) := st in
  let d := default 0 (deg !! j) - 1 in
  (if d =? 0 then queue ++ [j] else queue, <[j := d]> deg).
(** A node enters the queue once, so the loop takes one round per transaction at most. *)
Fixpoint kahn (fuel : nat) (es : list (nat * nat)) (queue : list nat) (deg : list Z) (order : list nat) : list nat :=
  match fuel, queue with
  | Datatypes.S fuel, i :: queue =>
      let '(queue, deg) := foldl release (queue, deg) (successors es i) in
      kahn fuel es queue deg (order ++ [i])
  | _, _ => order
  end.
Definition topological_order (txs : list Transaction) : list nat :=
  let n := length txs in
  let es := dependencies txs in
  let deg := (λ b, Z.of_nat (length (filter (λ e, e.2 = b) es))) <$> seq 0 n in
  kahn n es (filter (λ i, deg !! i = Some 0) (seq 0 n)) deg [].
Definition sort_dependencies (l : list (Transaction * Z)) : list (Transaction * Z) :=
  let order := topological_order l.*1 in
  if (length l <=? 1)%nat then l
  else if (length order =? length l)%nat then omap (λ i, l !! i) order else l.

(** *** Size *)

Fixpoint cap_size (used : Z) (l : list (Transaction * Z)) : list (Transaction * Z) :=
  match l with
  | [] => []
  | e :: l =>
      let total := add64 used (serialized_size e.1) in
      if sat_sub MAX_BLOCK_ASSEMBLY_SIZE BLOCK_OVERHEAD_BYTES <? total then [] else e :: cap_size total l
  end.
Definition assemble_txs c (h : Z) : list (Transaction * Z) * list Hash256 :=
  let a := select_txs c h (get_finalized_transactions_with_fees (tx_pool (engine c))) in
  (cap_size 0 (sort_dependencies (dedup_deregistrations ∅ (asm_valid a))), asm_evict a).

(** ** The participants and the rewards *)

Definition block_voters c v (h : Z) (prev_hash : Hash256) (prev : Block) : list string :=
  let addresses := (λ l : list MasternodeInfo, (mn_address ∘ masternode) <$> l) in
  let active := addresses (get_active_masternodes (registry c)) in
  if h =? 1 then active
  else
    match get_voters (precommit_votes v) prev_hash ++ get_finalized_block_voters prev_hash v ++ get_voters (prepare_votes v) prev_hash
            ++ addresses (get_active_from_bitmap (registry c) (active_masternodes_bitmap (header prev))) with
    | [] => active
    | voters => voters
    end.
Definition production_input c (h : Z) (wallet : string) (bitmap : bytes) (fees total : Z) : RewardInput :=
  let active := get_active_from_bitmap (registry c) bitmap in
  mkRewardInput h wallet active (get_reward_tracking_from_memory (registry c)) fees total
    (list_to_set ((mn_address ∘ masternode) <$>
      filter (λ i, bool_decide (tier (masternode i) = Free) && is_masternode_registered c (mn_address (masternode i)) = true) active)).

Definition coinbase_tx (h ts total : Z) : Transaction :=
  mkTransaction 1 [] [mkTxOutput total (str_bytes "BLOCK_REWARD_" ++ le_bytes 8 h)] 0 ts None None.
Definition distribution_tx (coinbase : Transaction) (rewards : list (string * Z)) (ts : Z) (memo : option bytes) : Transaction :=
  mkTransaction 1 [mkTxInput (mkOutPoint (txid coinbase) 0) [] (U32 - 1)]
    ((λ e : string * Z, mkTxOutput e.2 (str_bytes e.1)) <$> rewards) 0 ts None memo.
Definition count_tier (t : MasternodeTier) (l : list MasternodeInfo) : Z :=
  as_u32 (Z.of_nat (length (filter (λ i, tier (masternode i) = t) l))).
Definition tier_counts (l : list MasternodeInfo) : MasternodeTierCounts :=
  mkTierCounts (count_tier Free l) (count_tier Bronze l) (count_tier Silver l) (count_tier Gold l).
Definition txid_leb (a b : Transaction) : bool := bytes_leb (txid a) (txid b).
Definition next_treasury c (h : Z) : Z :=
  let spend := match bc_governance c with
               | Some g => treasury_spends_maturing_at g h (get_active_masternodes (registry c))
               | None => 0
               end in
  sat_sub (sat_add (bc_treasury c) TREASURY_POOL_SATOSHIS) spend.

Definition assemble_block c (h ts : Z) (prev_hash : Hash256) (producer : string) (mns : list MasternodeInfo) (bitmap : bytes)
    (rewards : list (string * Z)) (txs : list Transaction) (fees total : Z) (memo : option bytes) : Block :=
  let coinbase := coinbase_tx h ts total in
  let all := coinbase :: distribution_tx coinbase rewards ts memo :: sort_by txid_leb txs in
  mkBlock (mkHeader 1 h prev_hash (calculate_merkle_root all) ts total producer zero_hash (tier_counts mns) [] zero_hash 0 bitmap
             (Some false) [] fees (next_treasury c h)) all rewards [] bitmap (Some false).
Definition mark_recovery (resolved : bool) (b : Block) : Block :=
  let h := header b in
  mkBlock (mkHeader (bh_version h) (bh_height h) (previous_hash h) (merkle_root h) (bh_timestamp h) (block_reward h) (leader h)
      (attestation_root h) (masternode_tiers h) (vrf_proof h) (vrf_output h) (vrf_score h) (active_masternodes_bitmap h)
      (Some resolved) (producer_signature h) (total_fees h) (treasury_balance h))
    (transactions b) (masternode_rewards b) (time_attestations b) (consensus_participants_bitmap b) (Some resolved).
Definition recover_stalls (clk : Clock) c (b : Block) : Blockchain * Block :=
  if has_pending_fallback_transactions (engine c) then
    let '(e, resolved) := resolve_stalls_via_timelock clk (engine c) in (set_engine e c, mark_recovery resolved b)
  else (c, b).
Definition prove_and_sign (key : option SigningKey) (b : Block) : Block :=
  match key with Some sk => sign sk (add_vrf sk b) | None => b end.

(** ** The producer *)

(** The height to produce, after the checks of genesis, peers, tip and clock. *)
Definition production_height (now : Z) c (majority : bool) (target : option Z) (producer : option string)
    : Blockchain * result production_error (Z * Block) :=
  let '(c, genesis) := get_block c 0 in
  match genesis with
  | Err _ => (c, Err NoGenesis)
  | Ok g =>
      match verify_structure g with
      | Err e => (c, Err (BadGenesis e))
      | Ok _ =>
          if negb majority then (c, Err NoMajority)
          else
            let cur := current_height c in
            let '(c, tip) := get_block c cur in
            (c, match tip with
                | Err _ => Err (TipMissing cur)
                | Ok tip =>
                    let next := add64 cur 1 in
                    fail_if match target with Some t => t <=? cur | None => false end with AlreadyHave (default 0 target) in
                    fail_if match target with Some t => next <? t | None => false end with MissingBetween (default 0 target) in
                    let h := default next target in
                    let earliest := genesis_timestamp (bc_network c) + h * BLOCK_TIME_SECONDS in
                    fail_if now <? earliest with TooEarly h (earliest - now) in
                    fail_if (3 <? h) && negb (bool_decide (is_Some producer)) with ProducerRequired h in
                    Ok (h, tip)
                end)
      end
  end.
(** The scheduled time, or one second after the tip. *)
Definition block_time c (h : Z) (tip : Block) : Z :=
  let scheduled := genesis_timestamp (bc_network c) + h * BLOCK_TIME_SECONDS in
  if (0 <? current_height c) && (scheduled <=? bh_timestamp (header tip)) then bh_timestamp (header tip) + 1 else scheduled.

Definition produce_block_at_height (now : Z) (clk : Clock) c v (majority : bool) (memo : option bytes)
    (target : option Z) (wallet producer : option string) : Blockchain * result production_error Block :=
  match production_height now c majority target producer with
  | (c, Err e) => (c, Err e)
  | (c, Ok (h, tip)) =>
      let mns := get_masternodes_for_rewards (registry c) (current_height c) (calculate_expected_height (bc_network c) now) (Some tip) in
      if bool_decide (mns = []) then (c, Err NoMasternodesAvailable)
      else if (length mns <? 3)%nat then (c, Err (TooFewMasternodes (length mns)))
      else
        let '(txs, evicted) := assemble_txs c h in
        let c := match evicted with
                 | [] => c
                 | _ => set_engine (set_pool (archive_confirmed_txs (tx_pool (engine c)) evicted) (engine c)) c
                 end in
        let fees := sum64 txs.*2 in
        let total := sub64 (add64 (active_block_reward c) fees) TREASURY_POOL_SATOSHIS in
        let bitmap := (create_active_bitmap_from_voters (registry c) (block_voters c v h (hash tip) tip)).1 in
        match compute (production_input c h (default EmptyString wallet) bitmap fees total) with
        | [] => (c, Err NoRewards)
        | rewards =>
            let b := assemble_block c h (block_time c h tip) (hash tip) (default EmptyString producer) mns bitmap rewards txs.*1 fees total memo in
            let '(c, b) := recover_stalls clk c b in
            (c, Ok (prove_and_sign (id_key <$> identity (engine c)) b))
        end
  end.
Definition produce_block now clk c v majority memo := produce_block_at_height now clk c v majority memo None None None.
End production.
