(* ===== verification/ProductionProofs.v ===== *)
(** * Properties of block production

    What the producer selects from the pool, and that the block it assembles passes the
    checks of [add_block]. *)

From Stdlib Require Import ZArith Lia Ascii String.
From stdpp Require Import base gmap strings list.
From S2P Require Import Prelude Types Instances Address Storage UtxoManager TransactionPool BlockVotes.
From S2P Require Import Lru BlockTypes BlockVrf BlockCache BlockLedger Governance Registry RegistryProofs Reward Utf8 Genesis TxValidation Consensus Fallback.
From S2P Require Import Chain ChainApply ChainProofs Production.

(** ** Kahn's algorithm *)

Definition drained (deg : list Z) (i : nat) : Prop := default 0 (deg !! i) ≤ 0.
Record kahn_inv (n : nat) (order queue : list nat) (deg : list Z) : Prop := mkKahnInv {
  ki_nodup : NoDup (order ++ queue);
  ki_drained : Forall (drained deg) (order ++ queue);
  ki_range : Forall (λ i, (i < n)%nat) (order ++ queue);
  ki_length : length deg = n;
}.
Lemma release_inv n order queue deg j : kahn_inv n order queue deg →
  let '(queue', deg') := release (queue, deg) j in kahn_inv n order queue' deg'.
Proof.
  intros [K1 K2 K3 K4]. cbn. set (d := default 0 (deg !! j) - 1).
  assert (∀ i, drained deg i → drained (<[j := d]> deg) i) as Hmono.
  { intros i Hi. unfold drained in *. destruct (decide (i = j)) as [->|Hne]; [|by rewrite list_lookup_insert_ne].
    destruct (decide (j < length deg)%nat); [rewrite list_lookup_insert_eq by done; cbn; unfold d; lia|].
    rewrite list_insert_ge by lia. done. }
  destruct (Z.eqb_spec d 0) as [Hd|Hd]; split; rewrite ?length_insert; try done.
  - rewrite app_assoc. apply NoDup_app. split; [done|]. split; [|by apply NoDup_singleton].
    intros i Hi ->%list_elem_of_singleton. rewrite Forall_forall in K2. specialize (K2 _ Hi). unfold drained, d in *. lia.
  - rewrite app_assoc. apply Forall_app. split; [eapply Forall_impl; [exact K2|exact Hmono]|].
    apply Forall_singleton. unfold drained. destruct (decide (j < length deg)%nat); [rewrite list_lookup_insert_eq by done; cbn; lia|].
    rewrite lookup_ge_None_2; [done|]. rewrite length_insert. lia.
  - rewrite app_assoc. apply Forall_app. split; [done|]. apply Forall_singleton. rewrite <- K4.
    apply lookup_lt_is_Some_1. destruct (deg !! j) eqn:E; [by eexists|]. unfold d in Hd. cbn in Hd. lia.
  - eapply Forall_impl; [exact K2|exact Hmono].
Qed.
Lemma releases_inv n order l queue deg : kahn_inv n order queue deg →
  let '(queue', deg') := foldl release (queue, deg) l in kahn_inv n order queue' deg'.
Proof.
  revert queue deg. induction l as [|j l IH]; intros queue deg Hk; [done|]. cbn [foldl].
  pose proof (release_inv n order queue deg j Hk) as Hr. destruct (release (queue, deg) j) as [q d]. by apply IH.
Qed.
Lemma kahn_step n order i queue deg es : kahn_inv n order (i :: queue) deg →
  let '(queue', deg') := foldl release (queue, deg) (successors es i) in kahn_inv n (order ++ [i]) queue' deg'.
Proof.
  intros [K1 K2 K3 K4]. apply releases_inv. split; rewrite <- ?app_assoc; done.
Qed.
Lemma kahn_nodup n fuel es queue deg order : kahn_inv n order queue deg → NoDup (kahn fuel es queue deg order).
Proof.
  revert queue deg order. induction fuel as [|fuel IH]; intros queue deg order Hk; cbn.
  { destruct Hk as [K1 _ _ _]. by apply NoDup_app in K1 as (? & _). }
  destruct queue as [|i queue]; [destruct Hk as [K1 _ _ _]; by apply NoDup_app in K1 as (? & _)|].
  pose proof (kahn_step n order i queue deg es Hk) as Hs. destruct (foldl release _ _). by apply IH.
Qed.
Lemma kahn_exhausted n queue deg order : kahn_inv n order queue deg → (n ≤ length order)%nat → queue = [].
Proof.
  intros [K1 _ K3 _] Hl. destruct queue as [|i queue]; [done|]. exfalso.
  assert (length (order ++ i :: queue) ≤ n)%nat; [|rewrite length_app in *; cbn in *; lia].
  rewrite <- (length_seq n 0). apply NoDup_incl_length; [by apply NoDup_ListNoDup|].
  intros x Hx%list_elem_of_In. rewrite Forall_forall in K3. apply in_seq. specialize (K3 _ Hx). lia.
Qed.
Lemma kahn_range n fuel es queue deg order : kahn_inv n order queue deg → Forall (λ i, (i < n)%nat) (kahn fuel es queue deg order).
Proof.
  revert queue deg order. induction fuel as [|fuel IH]; intros queue deg order Hk; cbn.
  { destruct Hk as [_ _ K3 _]. by apply Forall_app in K3 as [? _]. }
  destruct queue as [|i queue]; [destruct Hk as [_ _ K3 _]; by apply Forall_app in K3 as [? _]|].
  pose proof (kahn_step n order i queue deg es Hk) as Hs. destruct (foldl release _ _). by apply IH.
Qed.
(** One round per node is enough. *)
Lemma kahn_enough n fuel k es queue deg order : kahn_inv n order queue deg → (n ≤ length order + fuel)%nat →
  kahn (fuel + k) es queue deg order = kahn fuel es queue deg order.
Proof.
  revert queue deg order. induction fuel as [|fuel IH]; intros queue deg order Hk Hl.
  - rewrite (kahn_exhausted _ _ _ _ Hk) by lia. by destruct k.
  - cbn [Nat.add kahn]. destruct queue as [|i queue]; [done|].
    pose proof (kahn_step n order i queue deg es Hk) as Hs. destruct (foldl release _ _). apply IH; [done|].
    rewrite length_app. cbn. lia.
Qed.

(** *** The order respects the edges *)

Definition unmet (es : list (nat * nat)) (order : list nat) (j : nat) : nat := length (filter (λ e, e.2 = j ∧ e.1 ∉ order) es).
Definition exact_degrees (es : list (nat * nat)) (order : list nat) (deg : list Z) : Prop :=
  ∀ j, (j < length deg)%nat → deg !! j = Some (Z.of_nat (unmet es order j)).
Definition respects (es : list (nat * nat)) (order : list nat) : Prop :=
  ∀ pre j post a, order = pre ++ j :: post → (a, j) ∈ es → a ∈ pre.

Lemma unmet_step es order i j : i ∉ order →
  unmet es order j = (unmet es (order ++ [i]) j + length (filter (λ k, k = j) (successors es i)))%nat.
Proof.
  intros Hi. unfold unmet, successors. induction es as [|[a k] es IH]; [done|]. rewrite !filter_cons. cbn [fst snd].
  destruct (decide (k = j)) as [->|Hk].
  - destruct (decide (a = i)) as [->|Ha].
    + rewrite decide_True, decide_False by set_solver. cbn [fmap list_fmap length snd]. rewrite filter_cons, decide_True by done. cbn. lia.
    + destruct (decide (a ∈ order)); [rewrite !decide_False by set_solver; done|rewrite !decide_True by set_solver; cbn; lia].
  - rewrite !(decide_False (P := k = j ∧ _)) by naive_solver. destruct (decide (a = i)) as [->|]; [|done].
    cbn [fmap list_fmap snd]. by rewrite filter_cons, decide_False.
Qed.
Lemma release_degrees l queue deg : 
  let deg' := (foldl release (queue, deg) l).2 in
  length deg' = length deg ∧ ∀ j d, deg !! j = Some d → deg' !! j = Some (d - Z.of_nat (length (filter (λ k, k = j) l))).
Proof.
  cbv zeta. revert queue deg. induction l as [|k l IH]; intros queue deg; cbn [foldl].
  { split; [done|]. intros j d Hj. cbn [snd]. rewrite Hj. f_equal. cbn. lia. }
  unfold release at 2 4. set (d0 := default 0 (deg !! k) - 1).
  destruct (IH (if d0 =? 0 then queue ++ [k] else queue) (<[k := d0]> deg)) as [E1 E2]. rewrite length_insert in E1. split; [done|].
  intros j d Hj. rewrite filter_cons. destruct (decide (k = j)) as [->|Hne].
  - rewrite (E2 j d0); [|apply list_lookup_insert_eq; by eapply lookup_lt_Some]. f_equal. unfold d0. rewrite Hj. change (default 0 (Some d)) with d. cbn [length]. lia.
  - apply E2. by rewrite list_lookup_insert_ne.
Qed.
Lemma degrees_step es order i queue deg : i ∉ order → exact_degrees es order deg →
  exact_degrees es (order ++ [i]) (foldl release (queue, deg) (successors es i)).2.
Proof.
  intros Hi He j Hj. destruct (release_degrees (successors es i) queue deg) as [El Ed]. rewrite El in Hj.
  rewrite (Ed j _ (He j Hj)). f_equal. rewrite (unmet_step es order i j Hi). lia.
Qed.
Lemma respects_snoc es order i : respects es order → unmet es order i = 0%nat → respects es (order ++ [i]).
Proof.
  intros Hr Hu pre j post a E Hin. destruct (decide (post = [])) as [->|Hne].
  - apply app_inj_tail in E as [-> ->]. destruct (decide (a ∈ pre)); [done|]. unfold unmet in Hu. apply nil_length_inv in Hu.
    exfalso. apply (filter_nil_not_elem_of _ _ (a, j) Hu); [done|exact Hin].
  - destruct (exists_last Hne) as (post' & x & ->). rewrite app_comm_cons, app_assoc in E. apply app_inj_tail in E as [-> _]. by eapply Hr.
Qed.
Lemma kahn_respects n fuel es queue deg order : kahn_inv n order queue deg → exact_degrees es order deg → respects es order →
  respects es (kahn fuel es queue deg order).
Proof.
  revert queue deg order. induction fuel as [|fuel IH]; intros queue deg order Hk He Hr; cbn; [done|]. destruct queue as [|i queue]; [done|].
  pose proof (kahn_step n order i queue deg es Hk) as Hs. destruct Hk as [K1 K2 K3 K4].
  assert (i ∉ order) as Hi by (apply NoDup_app in K1 as (_ & Hd & _); intros Hi; apply (Hd i Hi); left).
  pose proof (degrees_step es order i queue deg Hi He) as Hd. destruct (foldl release _ _) as [q d]. apply IH; [done|done|].
  apply respects_snoc; [done|]. rewrite Forall_forall in K2, K3. assert (i ∈ order ++ i :: queue) as Hin by set_solver.
  specialize (K2 i Hin). specialize (K3 i Hin). unfold drained in K2. rewrite (He i) in K2 by lia. cbn in K2. lia.
Qed.

(** *** A node that is left out waits for another one *)

Definition covers (order queue : list nat) (deg : list Z) : Prop := ∀ j, deg !! j = Some 0 → j ∈ order ++ queue.
Lemma release_covers order l queue deg : covers order queue deg →
  let '(queue', deg') := foldl release (queue, deg) l in covers order queue' deg'.
Proof.
  revert queue deg. induction l as [|k l IH]; intros queue deg Hc; [done|]. cbn [foldl]. apply IH. set (d := default 0 (deg !! k) - 1).
  intros j Hj. apply list_lookup_insert_Some in Hj as [(<- & Hd & _)|[Hne Hj]].
  - rewrite Hd. cbn. set_solver.
  - specialize (Hc j Hj). destruct (d =? 0); set_solver.
Qed.
Lemma queue_empty_waiting n es deg order j : kahn_inv n order [] deg → exact_degrees es order deg → covers order [] deg →
  (j < n)%nat → j ∉ order → ∃ a, (a, j) ∈ es ∧ a ∉ order.
Proof.
  intros Hk He Hc Hjn Hj. pose proof (He j) as Ej. rewrite (ki_length _ _ _ _ Hk) in Ej. specialize (Ej Hjn). unfold unmet in Ej.
  destruct (filter _ es) as [|[a k] l] eqn:E; [by rewrite <- (app_nil_r order) in Hj; destruct (Hj (Hc j Ej))|].
  assert ((a, k) ∈ (a, k) :: l) as Hin by left. rewrite <- E in Hin. apply list_elem_of_filter in Hin as [[Ek Ha] Hin].
  cbn in *. subst k. by exists a.
Qed.
Lemma kahn_waiting n fuel es queue deg order j : kahn_inv n order queue deg → exact_degrees es order deg → covers order queue deg →
  (n ≤ length order + fuel)%nat → (j < n)%nat → j ∉ kahn fuel es queue deg order → ∃ a, (a, j) ∈ es ∧ a ∉ kahn fuel es queue deg order.
Proof.
  revert queue deg order. induction fuel as [|fuel IH]; intros queue deg order Hk He Hc Hl Hjn; cbn.
  { pose proof (kahn_exhausted _ _ _ _ Hk ltac:(lia)) as ->. by eapply queue_empty_waiting. }
  destruct queue as [|i queue]; [by eapply queue_empty_waiting|].
  pose proof (kahn_step n order i queue deg es Hk) as Hs. pose proof (ki_nodup _ _ _ _ Hk) as (_ & Hd & _)%NoDup_app.
  assert (i ∉ order) as Hi by (intros Hi; apply (Hd i Hi); left).
  pose proof (degrees_step es order i queue deg Hi He) as Hd'.
  assert (covers (order ++ [i]) queue deg) as Hc' by (intros k Hk'; specialize (Hc k Hk'); set_solver).
  pose proof (release_covers (order ++ [i]) (successors es i) queue deg Hc') as Hc''.
  destruct (foldl release _ _) as [q d]. apply IH; [done..| |done]. rewrite length_app. cbn. lia.
Qed.
(** Among finitely many elements not every one has another below it. *)
Lemma no_descent {A} (R : relation A) (l : list A) : (∀ x, ¬ tc R x x) → l ≠ [] → (∀ x, x ∈ l → ∃ y, y ∈ l ∧ tc R y x) → False.
Proof.
  intros Hirr. induction l as [|x l IH]; [done|]. intros _ Hl.
  destruct (Hl x ltac:(left)) as (w & Hw & Hwx). apply elem_of_cons in Hw as [->|Hw]; [by apply Hirr in Hwx|].
  apply IH; [by intros ->; apply elem_of_nil in Hw|]. intros z Hz. destruct (Hl z ltac:(by right)) as (y & Hy & Hyz).
  apply elem_of_cons in Hy as [->|Hy]; [|by exists y]. exists w. split; [done|by etrans].
Qed.

Section proofs.
Context {S : Type} `{UtxoStorage S} `{MapIter} `{Externals} `{BlockExternals} `{!BlockCodec} `{LegacyCodec} `{Zstd} `{LruCrate}.
Context `{TxExternals} `{PoolCodec} `{VrfExternals} `{GovCodec}.
Abbreviation Blockchain := (Blockchain (S := S)).
Implicit Types (c : Blockchain) (l : list (Transaction * Z)).

(** ** The order of the transactions *)

Lemma initial_kahn (txs : list Transaction) es :
  let n := length txs in
  let deg := (λ b, Z.of_nat (length (filter (λ e : nat * nat, e.2 = b) es))) <$> seq 0 n in
  kahn_inv n [] (filter (λ i, deg !! i = Some 0) (seq 0 n)) deg.
Proof.
  cbv zeta. split; cbn [app].
  - apply NoDup_filter, NoDup_seq.
  - apply Forall_forall. intros i [Hi _]%list_elem_of_filter. unfold drained. rewrite Hi. done.
  - apply Forall_forall. intros i [_ Hi]%list_elem_of_filter. apply elem_of_seq in Hi. lia.
  - by rewrite length_fmap, length_seq.
Qed.
Lemma topological_nodup txs : NoDup (topological_order txs).
Proof. eapply kahn_nodup, initial_kahn. Qed.
Lemma initial_degrees n es : exact_degrees es [] ((λ b, Z.of_nat (length (filter (λ e : nat * nat, e.2 = b) es))) <$> seq 0 n).
Proof.
  intros j Hj. rewrite length_fmap, length_seq in Hj.
  rewrite list_lookup_fmap, lookup_seq_lt by done. cbn. do 3 f_equal. unfold unmet. f_equal. apply list_filter_iff. intros e. set_solver.
Qed.
Lemma topological_respects txs : respects (dependencies txs) (topological_order txs).
Proof. eapply kahn_respects; [apply initial_kahn|apply initial_degrees|by intros [|] ? ? ?]. Qed.
Lemma topological_waiting txs j : (j < length txs)%nat → j ∉ topological_order txs →
  ∃ a, (a, j) ∈ dependencies txs ∧ a ∉ topological_order txs.
Proof.
  apply kahn_waiting; [apply initial_kahn|apply initial_degrees| |done]. intros i Hi. cbn. apply list_elem_of_filter. split; [done|].
  apply lookup_lt_Some in Hi. rewrite length_fmap, length_seq in Hi. apply elem_of_seq. lia.
Qed.
Lemma topological_enough txs k : 
  let n := length txs in
  let es := dependencies txs in
  let deg := (λ b, Z.of_nat (length (filter (λ e : nat * nat, e.2 = b) es))) <$> seq 0 n in
  kahn (n + k) es (filter (λ i, deg !! i = Some 0) (seq 0 n)) deg [] = topological_order txs.
Proof. cbv zeta. eapply kahn_enough; [apply initial_kahn|cbn; lia]. Qed.

(** Entries picked from [l] by distinct indices. *)
Definition tx_keys l : list Hash256 := (λ e : Transaction * Z, txid e.1) <$> l.
Lemma picked_keys l (order : list nat) : NoDup order → NoDup (tx_keys l) → NoDup (tx_keys (omap (λ i, l !! i) order)).
Proof.
  intros Ho Hl. induction Ho as [|i order Hi Ho IH]; cbn; [constructor|]. destruct (l !! i) as [e|] eqn:Ei; [|done].
  cbn. constructor; [|done]. intros (e' & Ht & He')%list_elem_of_fmap. apply list_elem_of_omap in He' as (j & Hj & Ej).
  assert (i = j) as ->; [|done]. eapply NoDup_lookup; [exact Hl|..]; unfold tx_keys; rewrite list_lookup_fmap; [by rewrite Ei|]. rewrite Ej. cbn. by rewrite Ht.
Qed.
Lemma picked_elem l (order : list nat) e : e ∈ omap (λ i, l !! i) order → e ∈ l.
Proof. intros (i & _ & Hi)%list_elem_of_omap. by eapply list_elem_of_lookup_2. Qed.
Lemma sorted_dependencies l : NoDup (tx_keys l) → NoDup (tx_keys (sort_dependencies l)) ∧ (∀ e, e ∈ sort_dependencies l → e ∈ l).
Proof.
  intros Hl. unfold sort_dependencies. cbv zeta. destruct (_ <=? _)%nat; [done|]. destruct (_ =? _)%nat; [|done].
  split; [apply picked_keys; [apply topological_nodup|done]|intros e; apply picked_elem].
Qed.
Lemma dedup_sublist seen l : dedup_deregistrations seen l `sublist_of` l.
Proof.
  revert seen. induction l as [|e l IH]; intros seen; cbn; [constructor|]. repeat case_match; by constructor.
Qed.
Lemma cap_sublist used l : cap_size used l `sublist_of` l.
Proof. revert used. induction l as [|e l IH]; intros used; cbn; [constructor|]. case_match; [apply sublist_nil_l|by constructor]. Qed.
Lemma sublist_keys l l' : l `sublist_of` l' → NoDup (tx_keys l') → NoDup (tx_keys l) ∧ (∀ e, e ∈ l → e ∈ l').
Proof.
  intros Hs Hn. split; [|intros e He; by eapply elem_of_sublist].
  eapply (sublist_NoDup (tx_keys l)); [exact Hn|]. clear Hn. unfold tx_keys. induction Hs; cbn; by constructor.
Qed.
Definition tx_bytes l : Z := sumZ ((λ e : Transaction * Z, serialized_size e.1) <$> l).
Lemma cap_bytes used l : 0 ≤ used ≤ sat_sub MAX_BLOCK_ASSEMBLY_SIZE BLOCK_OVERHEAD_BYTES →
  (∀ e, e ∈ l → serialized_size e.1 < 2 ^ 63) → used + tx_bytes (cap_size used l) ≤ sat_sub MAX_BLOCK_ASSEMBLY_SIZE BLOCK_OVERHEAD_BYTES.
Proof.
  change (sat_sub MAX_BLOCK_ASSEMBLY_SIZE BLOCK_OVERHEAD_BYTES) with 1867232. revert used.
  induction l as [|e l IH]; intros used Hu Hs; cbn [cap_size]; [change (tx_bytes []) with 0; lia|].
  change (sat_sub MAX_BLOCK_ASSEMBLY_SIZE BLOCK_OVERHEAD_BYTES) with 1867232.
  assert (0 ≤ serialized_size e.1 < 2 ^ 63) as He by (split; [unfold serialized_size; lia|apply Hs; left]).
  rewrite add64_small by (unfold U64; lia). destruct (Z.ltb_spec 1867232 (used + serialized_size e.1)); [change (tx_bytes []) with 0; lia|].
  assert (used + serialized_size e.1 + tx_bytes (cap_size (used + serialized_size e.1) l) ≤ 1867232) as Hl.
  { apply IH; [lia|]. intros; apply Hs; by right. }
  clear IH.
  unfold tx_bytes in *. rewrite fmap_cons. cbn [sumZ foldr]. change (foldr Z.add 0) with sumZ. lia.
Qed.

(** *** A capped block keeps the parents of its transactions *)

Lemma index_of_lookup (txs : list Transaction) a tx : NoDup (txid <$> txs) → txs !! a = Some tx → index_of txs !! txid tx = Some a.
Proof.
  intros Hn Ha. apply elem_of_list_to_map_1.
  - rewrite fmap_reverse, reverse_Permutation, fmap_imap. by apply (eq_ind_r NoDup Hn), imap_const.
  - rewrite elem_of_reverse. apply elem_of_lookup_imap. by exists a, tx.
Qed.
Lemma dependency_edge (txs : list Transaction) a b tx tx' i : NoDup (txid <$> txs) → txs !! a = Some tx → txs !! b = Some tx' → i ∈ inputs tx' →
  op_txid (previous_output i) = txid tx → (a, b) ∈ dependencies txs.
Proof.
  intros Hn Ha Hb Hi Ho. unfold dependencies. apply list_elem_of_In, in_concat. eexists. split.
  - apply list_elem_of_In, elem_of_lookup_imap. exists b, tx'. by split; [reflexivity|].
  - apply list_elem_of_In, list_elem_of_omap. exists i. split; [done|]. by rewrite Ho, (index_of_lookup txs a tx).
Qed.
Lemma cap_prefix used l : ∃ rest, l = cap_size used l ++ rest.
Proof.
  revert used. induction l as [|e l IH]; intros used; cbn; [by exists []|]. case_match; [by exists (e :: l)|].
  destruct (IH (add64 used (serialized_size e.1))) as [rest Hr]. exists rest. cbn. by f_equal.
Qed.
Lemma prefix_through {A} (xs ys p q : list A) e : xs ++ ys = p ++ e :: q → NoDup (p ++ e :: q) → e ∈ xs → ∃ k, xs = p ++ e :: k.
Proof.
  intros E Hn He. apply app_eq_inv in E as [(k & -> & E)|(k & -> & _)].
  - destruct k as [|x k]; cbn in E; [|injection E as <- _; by exists k].
    rewrite app_nil_r in He. apply NoDup_app in Hn as (_ & Hd & _). exfalso. apply (Hd e He). left.
  - apply NoDup_app in Hn as (_ & Hd & _). exfalso. apply (Hd e); set_solver.
Qed.
(** Among the candidates [l], the transaction [e'] creates what an input of [e] spends. *)
Definition depends_on (e e' : Transaction * Z) : Prop := ∃ i, i ∈ inputs e.1 ∧ op_txid (previous_output i) = txid e'.1.
(** No transaction of [l] depends on itself, be it through others of [l]. *)
Definition parent_in l (e' e : Transaction * Z) : Prop := e' ∈ l ∧ e ∈ l ∧ depends_on e e'.
Definition acyclic l : Prop := ∀ e, ¬ tc (parent_in l) e e.
Lemma dependency_parent (l : list (Transaction * Z)) a b e : (a, b) ∈ dependencies l.*1 → l !! b = Some e →
  ∃ e', l !! a = Some e' ∧ parent_in l e' e.
Proof.
  intros Hab Hb. unfold dependencies in Hab. apply list_elem_of_In, in_concat in Hab as (es & Hes & Hab).
  apply list_elem_of_In, elem_of_lookup_imap in Hes as (b' & tx & -> & Hb'). apply list_elem_of_In, list_elem_of_omap in Hab as (i & Hi & Ei).
  destruct (index_of _ !! _) as [a'|] eqn:Ea; [|done]. injection Ei as -> ->.
  rewrite list_lookup_fmap, Hb in Hb'. injection Hb' as <-.
  apply elem_of_list_to_map_2 in Ea. rewrite elem_of_reverse in Ea. apply elem_of_lookup_imap in Ea as (a' & tx & [= Et ->] & Ha).
  rewrite list_lookup_fmap in Ha. destruct (l !! a') as [e'|] eqn:Ee; [|done]. injection Ha as <-. exists e'. split; [done|].
  split; [by eapply list_elem_of_lookup_2|]. split; [by eapply list_elem_of_lookup_2|]. by exists i.
Qed.
(** Without a cycle the order has every transaction. *)
Lemma topological_complete l : acyclic l → length (topological_order l.*1) = length l.
Proof.
  intros Hac. pose proof (topological_nodup l.*1) as Hn. set (order := topological_order l.*1) in *.
  assert (∀ j, j ∈ order → (j < length l)%nat) as Hr.
  { intros j Hj. pose proof (kahn_range _ (length l.*1) (dependencies l.*1) _ _ _ (initial_kahn l.*1 (dependencies l.*1))) as Hf.
    rewrite Forall_forall in Hf. specialize (Hf j Hj). by rewrite length_fmap in Hf. }
  assert (∀ j, (j < length l)%nat → j ∈ order) as Hall.
  { set (out := filter (λ j, j ∉ order) (seq 0 (length l))). destruct (decide (out = [])) as [E|E].
    { intros j Hj. destruct (decide (j ∈ order)) as [|Hno]; [done|]. exfalso.
      apply (filter_nil_not_elem_of _ _ j E); [done|]. apply elem_of_seq. lia. }
    exfalso. apply (no_descent (parent_in l) (omap (λ j, l !! j) out) Hac).
    - intros Ho. destruct out as [|j js] eqn:Eo; [done|]. assert (j ∈ out) as Hj by (rewrite Eo; left). unfold out in Hj.
      apply list_elem_of_filter in Hj as [_ Hj%elem_of_seq]. destruct (lookup_lt_is_Some_2 l j) as [e He]; [lia|]. cbn in Ho. by rewrite He in Ho.
    - intros e He. apply list_elem_of_omap in He as (j & Hj & Ej). apply list_elem_of_filter in Hj as [Hj _].
      destruct (topological_waiting l.*1 j) as (a & Ha & Hna); [rewrite length_fmap; by eapply lookup_lt_Some|done|].
      destruct (dependency_parent l a j e Ha Ej) as (e' & Ee & Hp). exists e'. split; [|by apply tc_once].
      apply list_elem_of_omap. exists a. split; [|done]. apply list_elem_of_filter. split; [done|]. apply lookup_lt_Some in Ee. apply elem_of_seq. lia. }
  apply Nat.le_antisymm; rewrite <- (length_seq (length l) 0); apply NoDup_incl_length.
  - by apply NoDup_ListNoDup.
  - intros j Hj%list_elem_of_In%Hr. apply in_seq. lia.
  - apply seq_NoDup.
  - intros j Hj%in_seq. apply list_elem_of_In, Hall. lia.
Qed.
Lemma capped_order l e e' : NoDup (tx_keys l) → acyclic l →
  e ∈ cap_size 0 (sort_dependencies l) → e' ∈ l → depends_on e e' → ∃ pre post, cap_size 0 (sort_dependencies l) = pre ++ e :: post ∧ e' ∈ pre.
Proof.
  intros Hn Hac He He' Hdep. pose proof (topological_complete l Hac) as Ho. destruct (cap_prefix 0 (sort_dependencies l)) as [rest Er].
  pose proof (sorted_dependencies l Hn) as [Hn' Hin].
  assert (e ∈ l) as Hel by (apply Hin; rewrite Er; set_solver).
  unfold sort_dependencies in Er, He, Hn', Hin |- *. cbv zeta in *.
  destruct (Nat.leb_spec (length l) 1) as [H1l|H1l].
  { destruct l as [|x [|y l]]; [by apply elem_of_nil in He'| |cbn in H1l; lia]. exfalso.
    apply (Hac e), tc_once. split; [done|]. split; [done|]. apply list_elem_of_singleton in He', Hel. by subst. }
  rewrite Ho, Nat.eqb_refl in *. set (order := topological_order l.*1) in *.
  assert (e ∈ omap (λ i, l !! i) order) as Hso by (rewrite Er; set_solver).
  apply list_elem_of_omap in Hso as (j & Hj & Ej). apply list_elem_of_split in Hj as (pre & post & Epp).
  apply list_elem_of_lookup in He' as Hl'. destruct Hl' as (a & Ea). destruct Hdep as (i & Hi & Hd).
  assert (a ∈ pre) as Hpre.
  { eapply (topological_respects l.*1); [exact Epp|]. eapply (dependency_edge _ a j e'.1 e.1 i); try done.
    - unfold tx_keys in Hn. by rewrite <- list_fmap_compose.
    - by rewrite list_lookup_fmap, Ea.
    - by rewrite list_lookup_fmap, Ej. }
  rewrite Epp in He |- *. rewrite Epp in Er, Hn'. rewrite omap_app in Er, Hn', He |- *. cbn [omap list_omap] in Er, Hn', He |- *. rewrite Ej in Er, Hn', He |- *.
  destruct (prefix_through _ _ _ _ _ (eq_sym Er) (NoDup_of_fmap _ _ Hn') He) as [k Ek]. exists (omap (λ i, l !! i) pre), k.
  split; [exact Ek|]. apply list_elem_of_omap. by exists a.
Qed.

(** ** What is selected *)

Definition shares_input (tx tx' : Transaction) : Prop := ∃ o, o ∈ previous_output <$> inputs tx ∧ o ∈ previous_output <$> inputs tx'.
(** A transaction of the pool that may go into the block at [h]. *)
Record includable c (h : Z) (raw : list (Transaction * Z)) (e : Transaction * Z) : Prop := mkIncludable {
  in_pool : ∃ fee, (e.1, fee) ∈ raw ∧ e.2 = block_fee c h e.1 fee;
  in_new : is_tx_archived c (txid e.1) = false;
  in_shape : is_ghost_tx e.1 = false ∧ coinbase_shaped e.1 = false;
  in_taken : Forall (λ i, input_taken (bc_utxo c) i = true) (inputs e.1);
}.
Record assembly_ok c (h : Z) (raw : list (Transaction * Z)) (a : assembly) : Prop := mkAssemblyOk {
  ao_keys : NoDup (tx_keys (asm_valid a));
  ao_seen : ∀ e, e ∈ asm_valid a → txid e.1 ∈ asm_seen a;
  ao_spent : ∀ e o, e ∈ asm_valid a → o ∈ previous_output <$> inputs e.1 → o ∈ asm_spent a;
  ao_disjoint : ∀ e e', e ∈ asm_valid a → e' ∈ asm_valid a → shares_input e.1 e'.1 → e = e';
  ao_includable : ∀ e, e ∈ asm_valid a → includable c h raw e;
}.
Lemma select_ok c h raw a e : e ∈ raw → assembly_ok c h raw a → assembly_ok c h raw (select_tx c h a e).
Proof.
  intros Hin [A1 A2 A3 A4 A5]. destruct e as [tx fee]. unfold select_tx. cbv zeta.
  case_bool_decide as Hseen; [done|].
  assert (∀ a', asm_valid a' = asm_valid a → asm_spent a' = asm_spent a → asm_seen a' = {[txid tx]} ∪ asm_seen a → assembly_ok c h raw a') as Hkeep.
  { intros a' E1 E2 E3. split; rewrite ?E1, ?E2, ?E3; try done. intros e' He'. specialize (A2 e' He'). set_solver. }
  destruct (is_tx_archived c (txid tx)) eqn:Ea; [by apply Hkeep|]. destruct (is_ghost_tx tx) eqn:Eg; [by apply Hkeep|].
  destruct (coinbase_shaped tx) eqn:Ec; [by apply Hkeep|]. destruct (forallb (input_taken (bc_utxo c)) (inputs tx)) eqn:Et; cbn [negb]; [|by apply Hkeep].
  destruct (existsb _ _) eqn:Ed; [by apply Hkeep|]. cbn [asm_valid asm_evict asm_spent asm_seen] in *.
  set (e := (tx, block_fee c h tx fee)).
  assert (∀ o, o ∈ previous_output <$> inputs tx → o ∉ asm_spent a) as Hfree.
  { intros o (i & -> & Hi)%list_elem_of_fmap Ho. apply not_true_iff_false in Ed. apply Ed, existsb_exists.
    exists i. split; [by apply list_elem_of_In|by apply bool_decide_eq_true]. }
  assert (∀ e' : Transaction * Z, e' ∈ asm_valid a → ¬ shares_input tx e'.1) as Hsep.
  { intros e' He' (o & Ho & Ho'). by eapply Hfree, A3. }
  split; cbn [asm_valid asm_spent asm_seen].
  - unfold tx_keys. rewrite fmap_app. apply NoDup_app. split; [exact A1|]. split; [|apply NoDup_singleton].
    intros t (e' & -> & He')%list_elem_of_fmap Ht%list_elem_of_singleton. apply Hseen. cbn in Ht. rewrite <- Ht. by apply A2.
  - intros e' [He'| ->%list_elem_of_singleton]%elem_of_app; cbn; [specialize (A2 e' He')|]; set_solver.
  - intros e' o [He'| ->%list_elem_of_singleton]%elem_of_app Ho; cbn in *; apply elem_of_union; [right; by eapply A3|left; by apply elem_of_list_to_set].
  - intros e1 e2 [H1'| ->%list_elem_of_singleton]%elem_of_app [H2'| ->%list_elem_of_singleton]%elem_of_app Hs; [by apply A4| | |done].
    + destruct Hs as (o & ? & ?). exfalso. eapply Hsep; [exact H1'|by exists o].
    + destruct Hs as (o & ? & ?). exfalso. eapply Hsep; [exact H2'|by exists o].
  - intros e' [He'| ->%list_elem_of_singleton]%elem_of_app; [by apply A5|]. split; cbn; [by exists fee|done|done|].
    apply Forall_forall. intros i Hi. rewrite forallb_forall in Et. by apply Et, list_elem_of_In.
Qed.
Lemma select_all_ok c h raw l a : (∀ e, e ∈ l → e ∈ raw) → assembly_ok c h raw a → assembly_ok c h raw (foldl (select_tx c h) a l).
Proof.
  revert a. induction l as [|e l IH]; intros a Hl Ha; cbn; [done|]. apply IH; [set_solver|]. apply select_ok; [set_solver|done].
Qed.
Lemma select_txs_ok c h raw : assembly_ok c h raw (select_txs c h raw).
Proof.
  apply select_all_ok; [done|]. split; cbn; try (by intros ? ?%elem_of_nil); [constructor|by intros ? ? ?%elem_of_nil|by intros ? ? ?%elem_of_nil].
Qed.
Lemma assembled_from c h e : e ∈ (assemble_txs c h).1 →
  e ∈ asm_valid (select_txs c h (get_finalized_transactions_with_fees (tx_pool (engine c)))).
Proof.
  unfold assemble_txs. cbn. set (raw := get_finalized_transactions_with_fees _). pose proof (select_txs_ok c h raw) as [A1 _ _ _ _].
  destruct (sublist_keys _ _ (dedup_sublist ∅ _) A1) as [B1 B2]. destruct (sorted_dependencies _ B1) as [C1 C2].
  destruct (sublist_keys _ _ (cap_sublist 0 _) C1) as [D1 D2]. eauto.
Qed.

(** C39: What a producer takes from the pool is sound: no transaction twice, none that the
    transaction index records as confirmed, no two that spend the same output, no ghost or
    coinbase-shaped one, every input spent, being spent or locked. The selection fits the
    size budget, given that every transaction of the pool is shorter than 2^63 bytes. When
    no candidate depends on itself, directly or through other candidates, a selected
    transaction that spends an output of a candidate comes after that candidate in the
    selection, which the cut at the budget therefore keeps. *)
Theorem block_selection_sound c h :
  let raw := get_finalized_transactions_with_fees (tx_pool (engine c)) in
  let candidates := dedup_deregistrations ∅ (asm_valid (select_txs c h raw)) in
  let l := (assemble_txs c h).1 in
  NoDup (tx_keys l)
  ∧ (∀ e e', e ∈ l → e' ∈ l → shares_input e.1 e'.1 → e = e')
  ∧ (∀ e, e ∈ l → includable c h raw e)
  ∧ ((∀ e, e ∈ raw → serialized_size e.1 < 2 ^ 63) → tx_bytes l ≤ MAX_BLOCK_ASSEMBLY_SIZE - BLOCK_OVERHEAD_BYTES)
  ∧ (acyclic candidates → ∀ e e', e ∈ l → e' ∈ candidates → depends_on e e' → ∃ pre post, l = pre ++ e :: post ∧ e' ∈ pre).
Proof.
  cbv zeta. pose proof (assembled_from c h) as Hfrom. set (raw := get_finalized_transactions_with_fees _) in *.
  pose proof (select_txs_ok c h raw) as [A1 A2 A3 A4 A5].
  destruct (sublist_keys _ _ (dedup_sublist ∅ _) A1) as [B1 B2]. destruct (sorted_dependencies _ B1) as [C1 C2]. split; [|split; [|split; [|split]]].
  - exact (proj1 (sublist_keys _ _ (cap_sublist 0 _) C1)).
  - intros e e' He He'. apply A4; by apply Hfrom.
  - intros e He. by apply A5, Hfrom.
  - intros Hs. etrans; [apply (cap_bytes 0); [done|]|done].
    intros e He. destruct (A5 e (B2 e (C2 e He))) as [(fee & Hf & _) _ _ _]. by apply (Hs (e.1, fee)).
  - intros Hc e e' He He' Hd. by apply (capped_order _ e e').
Qed.
End proofs.
