(* ===== verification/ProducedBlock.v ===== *)
(** * The produced block passes the checks of [add_block] *)

From Stdlib Require Import ZArith Lia Ascii String.
From stdpp Require Import base gmap strings list.
From S2P Require Import Prelude Types Instances Address Storage UtxoManager TransactionPool BlockVotes.
From S2P Require Import Lru BlockTypes BlockVrf BlockCache BlockLedger Governance Registry RegistryProofs Reward Utf8 Genesis TxValidation Consensus Fallback.
From S2P Require Import Chain ChainApply ChainProofs Production ProductionProofs.

(** ** The bitmap *)

Lemma ones_byte x : count_ones x = length (filter (λ k : nat, negb (Z.land x (Z.shiftl 1 (7 - Z.of_nat k)) =? 0) = true) (seq 0 8)).
Proof.
  unfold count_ones. cbn [seq fmap list_fmap]. rewrite !filter_cons, !filter_nil. rewrite !land_bit by lia. rewrite !negb_involutive.
  change (7 - Z.of_nat 0) with 7. change (7 - Z.of_nat 1) with 6. change (7 - Z.of_nat 2) with 5. change (7 - Z.of_nat 3) with 4.
  change (7 - Z.of_nat 4) with 3. change (7 - Z.of_nat 5) with 2. change (7 - Z.of_nat 6) with 1. change (7 - Z.of_nat 7) with 0.
  change (Z.of_nat 0) with 0. change (Z.of_nat 1) with 1. change (Z.of_nat 2) with 2. change (Z.of_nat 3) with 3.
  change (Z.of_nat 4) with 4. change (Z.of_nat 5) with 5. change (Z.of_nat 6) with 6. change (Z.of_nat 7) with 7.
  destruct (Z.testbit x 0), (Z.testbit x 1), (Z.testbit x 2), (Z.testbit x 3), (Z.testbit x 4), (Z.testbit x 5), (Z.testbit x 6), (Z.testbit x 7); reflexivity.
Qed.
Lemma get_bit_high x bm k : get_bit (x :: bm) (8 + k) = get_bit bm k.
Proof.
  unfold get_bit. replace ((8 + k) / 8)%nat with (Datatypes.S (k / 8)) by (replace (8 + k)%nat with (k + 1 * 8)%nat by lia; rewrite Nat.div_add by lia; lia).
  replace ((8 + k) mod 8)%nat with (k mod 8)%nat by (replace (8 + k)%nat with (k + 1 * 8)%nat by lia; by rewrite Nat.Div0.mod_add). done.
Qed.
Lemma count_shift (p : nat → bool) j n :
  length (filter (λ k, p k = true) (seq (8 + j) n)) = length (filter (λ k, p (8 + k)%nat = true) (seq j n)).
Proof.
  revert j. induction n as [|n IH]; intros j; [done|]. specialize (IH (Datatypes.S j)).
  replace (8 + Datatypes.S j)%nat with (Datatypes.S (8 + j)) in IH by lia. cbn [seq]. rewrite !filter_cons.
  destruct (decide (p (8 + j)%nat = true)); cbn [length]; by rewrite IH.
Qed.
Lemma ones_positions bm : bitmap_ones bm = length (filter (λ k, get_bit bm k = true) (seq 0 (8 * length bm))).
Proof.
  induction bm as [|x bm IH]; [done|]. unfold bitmap_ones. rewrite fmap_cons. cbn [sum_list length]. fold (bitmap_ones bm). rewrite IH.
  replace (8 * Datatypes.S (length bm))%nat with (8 + 8 * length bm)%nat by lia. rewrite seq_app, filter_app, length_app. f_equal.
  - rewrite ones_byte. by f_equal.
  - change (0 + 8)%nat with (8 + 0)%nat. rewrite (count_shift (get_bit (x :: bm)) 0). f_equal. apply list_filter_iff. intros k. by rewrite get_bit_high.
Qed.
Lemma count_marked {A} (f : A → bool) (l : list A) N (p : nat → bool) : (length l ≤ N)%nat →
  (∀ k, p k = match l !! k with Some i => f i | None => false end) →
  length (filter (λ k, p k = true) (seq 0 N)) = length (filter (λ i, f i = true) l).
Proof.
  revert l p. induction N as [|N IH]; intros l p Hl Hp; [by destruct l; [|cbn in Hl; lia]|].
  cbn [seq]. rewrite <- fmap_S_seq, filter_cons.
  assert (∀ l', (∀ k, p (Datatypes.S k) = match l' !! k with Some i => f i | None => false end) → (length l' ≤ N)%nat →
    length (filter (λ k, p k = true) (Datatypes.S <$> seq 0 N)) = length (filter (λ i, f i = true) l')) as Ht.
  { intros l' Hp' Hl'. rewrite <- (IH l' (λ k, p (Datatypes.S k))) by done. clear. induction (seq 0 N) as [|k s IHs]; [done|].
    rewrite fmap_cons, !filter_cons. destruct (decide (p (Datatypes.S k) = true)); cbn; by rewrite IHs. }
  rewrite (Hp 0%nat). destruct l as [|i l].
  - rewrite decide_False by done. rewrite (Ht []); [done|intros k; by rewrite (Hp (Datatypes.S k))|cbn; lia].
  - rewrite filter_cons. change ((i :: l) !! 0%nat) with (Some i). cbn in Hl.
    assert (length (filter (λ k, p k = true) (Datatypes.S <$> seq 0 N)) = length (filter (λ i, f i = true) l)) as E.
    { apply Ht; [|lia]. intros k. by rewrite (Hp (Datatypes.S k)). }
    destruct (decide (f i = true)); cbn; by rewrite E.
Qed.
Lemma mark_length voters k l bm : length (mark_voters voters k l bm) = length bm.
Proof. revert k bm. induction l as [|i l IH]; intros k bm; cbn; [done|]. rewrite IH. destruct (voted voters i); [apply set_bit_length|done]. Qed.
Lemma bitmap_count `{MapIter} r voters : let bm := (create_active_bitmap_from_voters r voters).1 in length (get_active_from_bitmap r bm) = bitmap_ones bm.
Proof.
  cbv zeta. unfold create_active_bitmap_from_voters, get_active_from_bitmap. destruct (sorted_masternodes r) as [|i0 l0] eqn:El; [done|].
  set (l := i0 :: l0). cbn [fst]. rewrite select_marked, ones_positions. symmetry.
  set (n := ((length l + 7) / 8)%nat).
  assert (length l ≤ 8 * n)%nat as Hn by (unfold n; pose proof (Nat.div_mod_eq (length l + 7) 8); pose proof (Nat.mod_upper_bound (length l + 7) 8 ltac:(lia)); lia).
  assert (length (mark_voters voters 0 l (replicate n 0)) = n) as Hlen by (by rewrite mark_length, length_replicate).
  apply count_marked; [lia|]. intros k. rewrite mark_bits by (rewrite length_replicate; lia). rewrite zero_bits, Nat.sub_0_r. done.
Qed.

(** ** Sums and maps *)

Lemma sum64_perm l l' : l ≡ₚ l' → sum64 l = sum64 l'.
Proof. intros Hp. rewrite !sum64_mod. f_equal. unfold sumZ. induction Hp; cbn in *; lia. Qed.
Lemma mapM_perm_sum {A} (f : A → option Z) l l' r : l ≡ₚ l' → mapM f l = Some r → ∃ r', mapM f l' = Some r' ∧ r ≡ₚ r'.
Proof.
  intros Hp. revert r. induction Hp as [|a l l' _ IH|a a' l|l1 l2 l3 _ IH1 _ IH2]; intros r Hr.
  - by exists r.
  - apply mapM_Some in Hr. inversion Hr as [|? y ? ys Hy Hys]; subst. apply mapM_Some in Hys as Hys'.
    destruct (IH ys Hys') as (r' & Er' & Pr). exists (y :: r'). cbn. rewrite Hy. cbn. rewrite Er'. by split; [|constructor].
  - apply mapM_Some in Hr. inversion Hr as [|? y ? ys Hy Hys]; subst. inversion Hys as [|? z ? zs Hz Hzs]; subst.
    exists (z :: y :: zs). split; [|constructor]. apply mapM_Some. by repeat constructor.
  - destruct (IH1 r Hr) as (r1 & E1 & P1). destruct (IH2 r1 E1) as (r2 & E2 & P2). exists r2. split; [done|by etrans].
Qed.
Lemma mapM_perm_none {A} (f : A → option Z) l l' : l ≡ₚ l' → mapM f l = None → mapM f l' = None.
Proof.
  intros Hp Hn. destruct (mapM f l') as [r|] eqn:E; [|done]. destruct (mapM_perm_sum f l' l r) as (r' & E' & _); [by symmetry|done|]. congruence.
Qed.

Section accepted.
Context {S : Type} `{UtxoStorage S} `{MapIter} `{Externals} `{BlockExternals} `{!BlockCodec} `{LegacyCodec} `{Zstd} `{LruCrate}.
Context `{TxExternals} `{PoolCodec} `{VrfExternals} `{GovCodec} `{!BlockCodecLaws} `{!BlockFormat}.
Abbreviation Blockchain := (Blockchain (S := S)).
Implicit Types (c : Blockchain) (b : Block).

(** ** What the checks read *)

Definition view c := (block_db c, tx_index c, current_height c, is_syncing c, bc_network c, registry c, mnreg_keys c).
Lemma view_block_at c c' h : view c = view c' → block_at c h = block_at c' h.
Proof. intros [= E1 _ _ _ _ _ _]. unfold block_at. by rewrite E1. Qed.
Lemma view_search c c' o n h : view c = view c' → search_output c o n h = search_output c' o n h.
Proof. intros E. revert h. induction n as [|n IH]; intros h; cbn; [done|]. by rewrite (view_block_at _ _ _ E), IH. Qed.
Lemma view_fee c c' tx h : view c = view c' → compute_single_tx_fee c tx h = compute_single_tx_fee c' tx h.
Proof.
  intros E. unfold compute_single_tx_fee. f_equal. apply list.mapM_ext. intros i. unfold input_value, indexed_output, get_location.
  rewrite (view_search _ _ _ _ _ E). assert (tx_index c = tx_index c') as -> by (by injection E).
  destruct (tx_index c' ≫= _) as [l|]; [|done]. cbn. by rewrite (view_block_at _ _ _ E).
Qed.
Lemma get_block_cache c h : chain_inv c → ∃ k, get_block c h = (set_cache k c, match block_at c h with Some b => Ok b | None => Err (BlockMissing h) end).
Proof.
  intros Hi. unfold get_block. destruct (cache_get_coherent _ _ h (ci_cached c Hi)) as [Hc Hr].
  destruct (cache_get (block_cache c) h) as [k [b|]]; cbn [fst snd] in *.
  - rewrite (Hr b eq_refl). by exists k.
  - cbn [set_cache block_db block_cache]. destruct (block_db c !! h) as [d|] eqn:E.
    + destruct (ci_readable c Hi h d E) as (b & (R1 & R2 & R3) & Hh). rewrite R1, R2. exists (cache_put k h b).
      unfold block_at. rewrite E. cbn. rewrite R1. cbn. by rewrite R2.
    + exists k. unfold block_at. by rewrite E.
Qed.
Lemma cache_inv c h k r : chain_inv c → get_block c h = (set_cache k c, r) → chain_inv (set_cache k c).
Proof. intros Hi E. pose proof (get_block_spec c h Hi) as Hs. rewrite E in Hs. apply Hs. Qed.

Lemma production_height_spec now c majority target producer c1 h tip : chain_inv c → current_height c + 1 < U64 →
  production_height now c majority target producer = (c1, Ok (h, tip)) →
  h = current_height c + 1 ∧ block_at c (current_height c) = Some tip ∧ ∃ k, c1 = set_cache k c.
Proof.
  intros Hi Hmax. unfold production_height. destruct (get_block_cache c 0 Hi) as [k Ek]. rewrite Ek.
  pose proof (cache_inv _ _ _ _ Hi Ek) as Hi1. destruct (block_at c 0) as [g|]; [|done]. destruct (verify_structure g); [|done].
  destruct majority; [|done]. cbn [negb]. change (current_height (set_cache k c)) with (current_height c).
  destruct (get_block_cache (set_cache k c) (current_height c) Hi1) as [k2 Ek2]. rewrite Ek2.
  change (block_at (set_cache k c) (current_height c)) with (block_at c (current_height c)).
  destruct (block_at c (current_height c)) as [t|] eqn:Et; [|done]. intros [= <- Hr].
  pose proof (ci_height c Hi) as Hn. rewrite add64_small in Hr by lia. rewrite !fail_ok_iff in Hr. destruct Hr as (H1' & H2' & _ & _ & [= <- <-]).
  split; [|split; [done|by exists k2]]. destruct target as [x|]; cbn in *; [|done]. apply Z.leb_gt in H1'. apply Z.ltb_ge in H2'. lia.
Qed.

(** The parts of a block the checks read. *)
Definition body b := (transactions b, masternode_rewards b, bh_height (header b), previous_hash (header b), bh_timestamp (header b),
  block_reward (header b), leader (header b), active_masternodes_bitmap (header b), treasury_balance (header b)).
Lemma recover_body clk c b c' b' : recover_stalls clk c b = (c', b') → body b' = body b ∧ ∃ e, c' = set_engine e c.
Proof.
  unfold recover_stalls. destruct (has_pending_fallback_transactions _).
  - destruct (resolve_stalls_via_timelock clk (engine c)) as [e r]. intros [= <- <-]. split; [done|by exists e].
  - intros [= <- <-]. split; [done|]. exists (engine c). by destruct c.
Qed.
Lemma signed_body key b : body (prove_and_sign key b) = body b.
Proof. by destruct key. Qed.

(** ** Fees *)

(** The fees the pool recorded are those the chain gives, where it gives any. *)
Definition fees_true c (h : Z) (raw : list (Transaction * Z)) : Prop :=
  ∀ tx fee f, (tx, fee) ∈ raw → fee ≠ 0 → compute_single_tx_fee c tx h = Some f → f = fee.
Lemma no_inputs_fee c tx h f : inputs tx = [] → compute_single_tx_fee c tx h = Some f → f = 0.
Proof.
  intros Ei. unfold compute_single_tx_fee. rewrite Ei. cbn. rewrite !sum64_mod. pose proof (Z.mod_pos_bound (sumZ (out_value <$> outputs tx)) U64 ltac:(done)).
  change (sum64 []) with 0. destruct (Z.leb_spec (sumZ (out_value <$> outputs tx) mod U64) 0); intros [= <-]. lia.
Qed.
Lemma block_fee_true c h raw tx fee f : fees_true c h raw → (tx, fee) ∈ raw → compute_single_tx_fee c tx h = Some f → block_fee c h tx fee = f.
Proof.
  intros Ht Hin Hf. unfold block_fee. destruct (Z.eqb_spec fee 0) as [->|Hne]; cbn [andb]; [|symmetry; by eapply Ht].
  case_bool_decide as Ei; cbn [negb]; [by rewrite (no_inputs_fee _ _ _ _ Ei Hf)|by rewrite Hf].
Qed.
Lemma assembled_fees c h fs : fees_true c h (get_finalized_transactions_with_fees (tx_pool (engine c))) →
  mapM (λ tx, compute_single_tx_fee c tx h) (assemble_txs c h).1.*1 = Some fs → fs = (assemble_txs c h).1.*2.
Proof.
  intros Ht. assert (∀ e, e ∈ (assemble_txs c h).1 → ∀ f, compute_single_tx_fee c e.1 h = Some f → f = e.2) as He.
  { intros e Hin%assembled_from f Hf. destruct (ao_includable _ _ _ _ (select_txs_ok c h _) e Hin) as [(fee & Hraw & ->) _ _ _].
    symmetry. by eapply block_fee_true. }
  generalize (assemble_txs c h).1 He. clear He Ht. intros l He Hm. apply mapM_Some in Hm. revert fs Hm.
  induction l as [|e l IH]; intros fs Hm; inversion Hm as [|? y ? ys Hy Hys]; subst; [done|]. cbn. f_equal; [apply He; [left|done]|].
  apply IH; [|done]. intros e' Hin. apply He. by right.
Qed.

(** ** Rewards *)

Lemma compute_total i : 0 ≤ fees i → BLOCK_REWARD_SATOSHIS + fees i < U64 →
  total_reward i = BLOCK_REWARD_SATOSHIS + fees i - TREASURY_POOL_SATOSHIS → compute i ≠ [] →
  amounts (compute i) = total_reward i.
Proof.
  intros Hf Hu Ht Hne. destruct (has_paid_tier_nodes i) eqn:Hp.
  - destruct (tier_rewards_conserved i Hp Hf) as (-> & _).
    + change (PRODUCER_REWARD_SATOSHIS + TOTAL_POOL_SATOSHIS) with 9500000000. change BLOCK_REWARD_SATOSHIS with 10000000000 in Hu. lia.
    + rewrite Ht. change (PRODUCER_REWARD_SATOSHIS + TOTAL_POOL_SATOSHIS) with 9500000000.
      change BLOCK_REWARD_SATOSHIS with 10000000000. change TREASURY_POOL_SATOSHIS with 500000000. lia.
  - apply free_rewards_conserved; [done| |].
    + rewrite Ht. change BLOCK_REWARD_SATOSHIS with 10000000000 in *. change TREASURY_POOL_SATOSHIS with 500000000. lia.
    + intros E. apply Hne. unfold compute. rewrite Hp. cbn [negb]. unfold compute_all_free. rewrite E. by destruct (active_nodes i).
Qed.
Definition text (s : string) : Prop := utf8_valid (str_bytes s) = true.
Lemma lossy_text s : text s → from_utf8_lossy (str_bytes s) = s.
Proof. intros Hs. unfold from_utf8_lossy. rewrite utf8_lossy_id by done. apply string_of_str_bytes. Qed.
Lemma distribution_outputs b coinbase ts memo : Forall (λ e : string * Z, text e.1) (masternode_rewards b) →
  check_outputs b (distribution_tx coinbase (masternode_rewards b) ts memo) = Ok tt.
Proof.
  intros Ht. unfold check_outputs. cbv zeta. cbn [distribution_tx outputs].
  assert ((λ o, (from_utf8_lossy (out_script_pubkey o), out_value o)) <$> ((λ e : string * Z, mkTxOutput e.2 (str_bytes e.1)) <$> masternode_rewards b)
    = masternode_rewards b) as ->.
  { rewrite <- list_fmap_compose. rewrite <- (list_fmap_id (masternode_rewards b)) at 2. apply list_fmap_ext. intros k [a x] Hk. cbn [compose fst snd out_script_pubkey out_value].
    unfold compose. cbn [out_script_pubkey out_value fst snd]. rewrite lossy_text; [done|]. exact (proj1 (Forall_lookup _ _) Ht k (a, x) Hk). }
  set (m := foldl add_to_map ∅ _).
  assert (∀ l, (∀ e, e ∈ l → m !! e.1 = Some e.2) → foldl (λ acc (e : string * Z), let? _ := acc in
      match m !! e.1 with Some v => if e.2 =? v then Ok tt else Err (OutputMismatch (bh_height (header b))) | None => Err (OutputUnknown (bh_height (header b))) end)
      (Ok tt) l = Ok tt) as Hl.
  { induction l as [|e l IH]; intros He; [done|]. cbn [foldl]. rewrite (He e) by left. rewrite Z.eqb_refl. apply IH. intros e' Hin. apply He. by right. }
  apply Hl. intros [k x] Hin. rewrite iter_perm in Hin. by apply elem_of_map_to_list in Hin.
Qed.
Lemma pool_accepted c b fees : (length (get_active_from_bitmap (registry c) (active_masternodes_bitmap (header b))) = bitmap_ones (active_masternodes_bitmap (header b))) →
  validate_pool_distribution c b fees = Ok tt.
Proof.
  intros Hc. unfold validate_pool_distribution. cbv zeta. destruct (_ || _); [done|]. destruct (List.find _ _); [|done].
  set (active := match _ with [] => [] | _ => _ end).
  assert (length active = bitmap_ones (active_masternodes_bitmap (header b))) as ->.
  { unfold active. destruct (active_masternodes_bitmap (header b)); [done|exact Hc]. }
  rewrite Nat.ltb_irrefl. case_bool_decide; [done|]. by destruct (_ <? _).
Qed.
(** The amounts of the proposals are unsigned. *)
Definition spends_ok c : Prop := ∀ g k p, bc_governance c = Some g → proposals g !! k = Some p → 0 ≤ spend_amount p.
Lemma next_treasury_bound c h x : spends_ok c → 0 ≤ bc_treasury c ≤ x → next_treasury c h ≤ sat_add x TREASURY_POOL_SATOSHIS.
Proof.
  intros Hok Hx. unfold next_treasury. cbv zeta. set (s := match bc_governance c with Some _ => _ | None => _ end).
  assert (0 ≤ s) as Hs.
  { unfold s. destruct (bc_governance c) as [g|] eqn:Eg; [|done]. unfold treasury_spends_maturing_at.
    apply (foldl_preserve _ (λ z, 0 ≤ z)); [|done]. intros z k Hz. unfold spend_step. destruct (negb _); [done|].
    destruct (proposals g !! k) as [p|] eqn:Ep; [|done]. specialize (Hok g k p Eg Ep). unfold spend_amount in Hok.
    destruct (gp_payload p); [|done..]. unfold sat_add, U64. lia. }
  change TREASURY_POOL_SATOSHIS with 500000000. unfold sat_sub, sat_add, U64 in *. lia.
Qed.

(** ** The block *)

Record produced c c' b (c1 : Blockchain) (tip : Block) : Prop := mkProduced {
  pr_tip : block_at c (current_height c) = Some tip;
  pr_cache : ∃ k, c1 = set_cache k c;
  pr_view : view c' = view c;
  pr_treasury : bc_treasury c' = bc_treasury c ∧ bc_governance c' = bc_governance c;
  pr_fees : total_fees (header b) = sum64 (assemble_txs c1 (current_height c + 1)).1.*2;
  pr_body : ∃ producer mns bitmap wallet memo voters,
    let h := current_height c + 1 in
    let fees := total_fees (header b) in
    let total := sub64 (add64 (active_block_reward c) fees) TREASURY_POOL_SATOSHIS in
    let rewards := compute (production_input c' h wallet bitmap fees total) in
    bitmap = (create_active_bitmap_from_voters (registry c) voters).1 ∧ rewards ≠ []
    ∧ body b = body (assemble_block c' h (block_time c h tip) (hash tip) producer mns bitmap rewards (assemble_txs c1 h).1.*1 fees total memo);
}.
Lemma produce_shape now clk c v majority memo target wallet producer c' b : chain_inv c → current_height c + 1 < U64 →
  produce_block_at_height now clk c v majority memo target wallet producer = (c', Ok b) → ∃ c1 tip, produced c c' b c1 tip.
Proof.
  intros Hi Hmax. unfold produce_block_at_height.
  destruct (production_height now c majority target producer) as [c1 [[h tip]|]] eqn:Ep; [|done].
  destruct (production_height_spec _ _ _ _ _ _ _ _ Hi Hmax Ep) as (-> & Et & k & ->). clear Ep.
  set (mns := get_masternodes_for_rewards _ _ _ _). case_bool_decide; [done|]. destruct (_ <? 3)%nat; [done|].
  destruct (assemble_txs (set_cache k c) (current_height c + 1)) as [txs evicted] eqn:Ea.
  set (c2 := match evicted with [] => _ | _ => _ end).
  assert (∃ e2, c2 = set_engine e2 (set_cache k c)) as [e2 E2].
  { unfold c2. destruct evicted; [|by eexists]. exists (engine c). by destruct c. }
  rewrite E2. clearbody c2. clear c2 E2. set (voters := block_voters _ _ _ _ _). set (bitmap := (create_active_bitmap_from_voters _ _).1).
  destruct (compute _) as [|e l] eqn:Er; [done|]. destruct (recover_stalls _ _ _) as [c3 b3] eqn:Es.
  intros [= <- <-]. destruct (recover_body _ _ _ _ _ Es) as [Hb (e3 & E3)].
  assert (total_fees (header b3) = sum64 txs.*2) as Hf.
  { unfold recover_stalls in Es. destruct (has_pending_fallback_transactions _); [|by injection Es as <- <-].
    destruct (resolve_stalls_via_timelock _ _). by injection Es as <- <-. }
  assert (total_fees (header (prove_and_sign (id_key <$> identity (engine c3)) b3)) = sum64 txs.*2) as Hf' by (by destruct (id_key <$> _)).
  exists (set_cache k c), tip. split; [done|by exists k|by rewrite E3|by rewrite E3|by rewrite Hf', Ea|]. cbv zeta. rewrite signed_body, Hb, Hf', Ea.
  exists (default EmptyString producer), mns, bitmap, (default EmptyString wallet), memo, voters. split; [done|]. subst c3.
  change (production_input (set_engine e3 (set_engine e2 (set_cache k c)))) with (production_input (set_engine e2 (set_cache k c))).
  change (active_block_reward (set_engine e2 (set_cache k c))) with (active_block_reward c) in *.
  rewrite Er. by split.
Qed.

Lemma produced_fees c c' b c1 tip : produced c c' b c1 tip →
  fees_true c (current_height c + 1) (get_finalized_transactions_with_fees (tx_pool (engine c))) →
  compute_block_fees c' b = None ∨ compute_block_fees c' b = Some (total_fees (header b)).
Proof.
  intros [_ (k & ->) Hview _ Hfees (producer & mns & bitmap & wallet & memo & voters & _ & _ & Hb)] Htrue. cbv zeta in Hb. injection Hb as B1 _ B3 _ _ _ _ _ _.
  unfold compute_block_fees. rewrite B1, B3. set (h := current_height c + 1) in *. set (c1 := set_cache k c) in *.
  change (cap_size 0 _) with (assemble_txs c1 h).1. set (txs := (assemble_txs c1 h).1) in *. cbn [drop]. rewrite drop_0.
  rewrite (list.mapM_ext (λ tx, compute_single_tx_fee c' tx h) (λ tx, compute_single_tx_fee c1 tx h))
    by (intros tx; by apply view_fee).
  destruct (mapM (λ tx, compute_single_tx_fee c1 tx h) (sort_by txid_leb txs.*1)) as [fs|] eqn:Em; [right|by left].
  apply (mapM_perm_sum _ _ txs.*1) in Em as (fs' & Em & Hp); [|apply sort_by_perm].
  apply (assembled_fees c1) in Em; [|intros tx fee f Hin Hne Hf; apply (Htrue tx fee); [done..|]; by rewrite <- Hf; apply view_fee].
  cbn. by rewrite (sum64_perm _ _ Hp), Em, Hfees.
Qed.
Lemma fail_false {E B} (x : bool) (e : E) (r : result E B) : x = false → (fail_if x with e in r) = r.
Proof. by intros ->. Qed.

(** The checks of the rewards, on the block as it was assembled. *)
Lemma produced_rewards c c' b c1 tip : produced c c' b c1 tip → chain_inv c → active_block_reward c = BLOCK_REWARD_SATOSHIS →
  spends_ok c → 0 ≤ bc_treasury c ≤ treasury_balance (header tip) →
  fees_true c (current_height c + 1) (get_finalized_transactions_with_fees (tx_pool (engine c))) →
  BLOCK_REWARD_SATOSHIS + total_fees (header b) < U64 → Forall (λ e : string * Z, text e.1) (masternode_rewards b) →
  validate_block_rewards c' b = Ok tt.
Proof.
  intros Hpr Hi Hact Hsp Htr Htrue Hu Htext. pose proof (produced_fees _ _ _ _ _ Hpr Htrue) as Hcf.
  destruct Hpr as [Htip _ Hview [Etr Egov] Hfees (producer & mns & bitmap & wallet & memo & voters & Hbm & Hne & Hb)].
  cbv zeta in *. rewrite Hact in *. set (h := current_height c + 1) in *. set (fs := total_fees (header b)) in *.
  assert (0 ≤ fs) as Hf0 by (rewrite Hfees, sum64_mod; by apply Z.mod_pos_bound).
  assert (sub64 (add64 BLOCK_REWARD_SATOSHIS fs) TREASURY_POOL_SATOSHIS = BLOCK_REWARD_SATOSHIS + fs - TREASURY_POOL_SATOSHIS) as Etot.
  { rewrite add64_small by (change BLOCK_REWARD_SATOSHIS with 10000000000 in *; lia). unfold sub64. apply Z.mod_small.
    change BLOCK_REWARD_SATOSHIS with 10000000000 in *. change TREASURY_POOL_SATOSHIS with 500000000. lia. }
  rewrite Etot in *. set (total := BLOCK_REWARD_SATOSHIS + fs - TREASURY_POOL_SATOSHIS) in *.
  set (input := production_input c' h wallet bitmap fs total) in *.
  assert (amounts (compute input) = total) as Hsum by (by apply compute_total).
  injection Hb as B1 B2 B3 B4 B5 B6 B7 B8 B9. rewrite <- B2 in *.
  unfold validate_block_rewards. cbv zeta. rewrite B1, B3, B6. cbn [coinbase_tx inputs outputs out_value].
  rewrite Z.eqb_refl, bool_decide_true by done. cbn [negb]. destruct Hcf as [-> | ->]; [done|]. rewrite Etot, Z.eqb_refl. cbn [negb].
  rewrite fail_false.
  2: { rewrite (view_block_at _ _ _ Hview). replace (h - 1) with (current_height c) by (unfold h; lia). rewrite Htip.
    apply andb_false_iff. right. apply Z.ltb_ge. rewrite B9. apply next_treasury_bound; [|by rewrite Etr].
    intros g key p Eg. rewrite Egov in Eg. by apply Hsp. }
  cbn [distribution_tx inputs previous_output op_txid]. rewrite bool_decide_true by done. cbn [negb].
  rewrite fail_false; [|apply Nat.ltb_ge; cbn [distribution_tx outputs]; by rewrite length_fmap].
  rewrite distribution_outputs by done. cbn [distribution_tx outputs]. rewrite <- list_fmap_compose.
  change (out_value ∘ _) with (@snd string Z). assert (0 ≤ total < U64) as Ht.
  { unfold total. change BLOCK_REWARD_SATOSHIS with 10000000000 in *. change TREASURY_POOL_SATOSHIS with 500000000. lia. }
  rewrite sum64_small by (change (0 ≤ amounts (masternode_rewards b) < U64); lia). change (sumZ (snd <$> masternode_rewards b)) with (amounts (masternode_rewards b)).
  rewrite Hsum. rewrite fail_false.
  - destruct (10 <? h); [|done]. apply pool_accepted. rewrite B8, Hbm. injection Hview as _ _ _ _ _ -> _. apply bitmap_count.
  - apply orb_false_iff. split; apply Z.ltb_ge; unfold sat_sub; lia.
Qed.

(** C10: A producer's own block passes the checks of add_block: on a complete chain whose
    tip commits the treasury the node has, at the default emission rate and with pool fees
    that agree with the chain where it knows the inputs, the block that production returns
    passes every check of a new block, whatever the pool, the registry, the votes and the
    clock, except that it is refused for too few recipients when its rewards go to too few
    distinct addresses. *)
Theorem produced_block_accepted now clk c v majority memo target wallet producer c' b tip now' :
  chain_inv c → current_height c + 5 < U64 → block_at c (current_height c) = Some tip → hash tip ≠ zero_hash →
  active_block_reward c = BLOCK_REWARD_SATOSHIS → spends_ok c → 0 ≤ bc_treasury c ≤ treasury_balance (header tip) →
  fees_true c (current_height c + 1) (get_finalized_transactions_with_fees (tx_pool (engine c))) →
  produce_block_at_height now clk c v majority memo target wallet producer = (c', Ok b) →
  BLOCK_REWARD_SATOSHIS + total_fees (header b) < U64 → Forall (λ e : string * Z, text e.1) (masternode_rewards b) →
  check_new_block now' c' b = if enough_recipients b then Ok tt else Err (TooFewRecipients (current_height c + 1)).
Proof.
  intros Hi Hmax Htip Hz Hact Hsp Htr Htrue Hp Hu Htext. pose proof (ci_height c Hi) as Hn.
  destruct (produce_shape _ _ _ _ _ _ _ _ _ _ _ Hi ltac:(lia) Hp) as (c1 & tip' & Hpr).
  assert (tip' = tip) as -> by (pose proof (pr_tip _ _ _ _ _ Hpr); congruence).
  pose proof (produced_rewards _ _ _ _ _ Hpr Hi Hact Hsp Htr Htrue Hu Htext) as Hr.
  destruct Hpr as [_ _ Hview _ _ (producer' & mns & bitmap & wallet' & memo' & voters & _ & _ & Hb)].
  cbv zeta in Hb. injection Hb as _ _ B3 B4 B5 _ _ _ _. unfold check_new_block, check_parent, check_height. cbv zeta. rewrite B3, B4, B5, Hr.
  injection Hview as V1 V2 V3 V4 V5 V6 V7. rewrite (view_block_at c' c) by (unfold view; congruence).
  replace (current_height c + 1 - 1) with (current_height c) by lia. rewrite Htip, V3, V5.
  rewrite !add64_small by lia. rewrite (proj2 (Z.ltb_lt 0 (current_height c + 1))), (proj2 (Z.eqb_neq (current_height c + 1) 0)), Z.eqb_refl by lia.
  rewrite fail_false.
  2: { apply Z.ltb_ge. unfold block_time. cbv zeta. destruct (0 <? current_height c); cbn [andb]; [|unfold BLOCK_TIME_SECONDS; lia].
    destruct (Z.leb_spec (genesis_timestamp (bc_network c) + (current_height c + 1) * BLOCK_TIME_SECONDS) (bh_timestamp (header tip))); unfold BLOCK_TIME_SECONDS in *; lia. }
  rewrite fail_false by (by apply bool_decide_eq_false). rewrite bool_decide_true by done.
  assert (validate_checkpoint c' (current_height c + 1) (hash b) = Ok tt) as ->.
  { unfold validate_checkpoint, get_checkpoints, MAINNET_CHECKPOINTS, TESTNET_CHECKPOINTS.
    destruct (bc_network c'); cbn [List.find fst]; by rewrite (proj2 (Z.eqb_neq 0 (current_height c + 1))) by lia. }
  rewrite (proj2 (Z.leb_le (current_height c + 1) (current_height c + 5))) by lia. by destruct (enough_recipients b).
Qed.
End accepted.
