(* ===== verification/ProductionSamples.v ===== *)
(** * Block production on concrete chains

    The witness of [produced_block_accepted], and a block whose transactions are not in the
    order of their dependencies. *)

From Stdlib Require Import ZArith Lia Ascii String.
From stdpp Require Import base gmap strings list.
From S2P Require Import Prelude Types Instances Address Finality Storage UtxoManager UtxoProofs TransactionPool BlockVotes TimeVoteEngine.
From S2P Require Import Lru BlockTypes BlockVrf BlockCache BlockLedger Governance GovernancePersist Registry RegistryProofs Reward Utf8 Genesis TxValidation TxProofs PoolProofs Consensus ConsensusProofs.
From S2P Require Import Chain ChainApply ChainProofs ChainLedger ChainSamples Production ProductionProofs ProducedBlock.

Section production_samples.
#[local] Existing Instance tagged_externals.
#[local] Existing Instance canonical_iter.
#[local] Existing Instance sample_tx_externals.
#[local] Existing Instance model_pool_codec.
#[local] Existing Instance model_vrf.
#[local] Existing Instance model_gov_codec.
#[local] Existing Instance model_zstd.
#[local] Existing Instance list_lru.
#[local] Existing Instance no_legacy.
#[local] Existing Instance sample_ext.
#[local] Existing Instance sample_codec.
#[local] Existing Instance sample_codec_laws.
#[local] Existing Instance sample_format.

(** Three free nodes, all connected. *)
Definition p_registry : MasternodeRegistry :=
  set_nodes {["1.1.1.1"%string := w_node "1.1.1.1" "a" Free; "2.2.2.2"%string := w_node "2.2.2.2" "b" Free;
              "3.3.3.3"%string := w_node "3.3.3.3" "c" Free]} (registry_new None 0).
Definition p_boot : Blockchain * result chain_error () :=
  store_hardcoded_genesis (blockchain_new Testnet ∅ ∅ ∅ None None ∅ ∅ chain_engine p_registry).
#[local] Abbreviation p_chain := (p_boot.1).
Definition p_voting : BlockVoting := mkBlockVoting acc_new acc_new ∅ 0.
#[local] Abbreviation p_run c := (produce_block_at_height 1800000000 (mkClock 0 0 0) c p_voting true None None (Some "a"%string) (Some "1.1.1.1"%string)).
Definition p_block (r : Blockchain (S := gmap OutPoint UTXO) * result production_error Block) : Block :=
  match r.2 with Ok b => b | Err _ => testnet_genesis end.
Lemma p_boot_ok : p_boot.2 = Ok tt.
Proof. by vm_compute. Qed.
Lemma p_produced : match (p_run p_chain).2 with Ok _ => true | Err _ => false end = true.
Proof. by vm_compute. Qed.
Lemma ok_pair {A E} (r : A * result E Block) d : match r.2 with Ok _ => true | Err _ => false end = true →
  r = (r.1, Ok match r.2 with Ok b => b | Err _ => d end).
Proof. by destruct r as [a [b|]]. Qed.
Lemma p_all_fees : fees_true p_chain (current_height p_chain + 1) (get_finalized_transactions_with_fees (tx_pool (engine p_chain))).
Proof. intros tx fee f Hin. assert (get_finalized_transactions_with_fees (tx_pool (engine p_chain)) = []) as E by (by vm_compute). rewrite E in Hin. by apply elem_of_nil in Hin. Qed.
Lemma p_texts : Forall (λ e : string * Z, text e.1) (masternode_rewards (p_block (p_run p_chain))).
Proof. vm_compute masternode_rewards. repeat constructor. Qed.
Lemma p_inv : chain_inv p_chain.
Proof. exact (genesis_inv Testnet chain_engine p_registry None ∅ ∅ p_boot_ok). Qed.
Lemma p_height : current_height p_chain + 5 < U64.
Proof. by vm_compute. Qed.
Lemma p_tip : block_at p_chain (current_height p_chain) = Some testnet_genesis.
Proof. by vm_compute. Qed.
Lemma p_tip_hash : hash testnet_genesis ≠ zero_hash.
Proof. by vm_compute. Qed.
Lemma p_reward : active_block_reward p_chain = BLOCK_REWARD_SATOSHIS.
Proof. by vm_compute. Qed.
Lemma p_spends : spends_ok p_chain.
Proof. intros g k p Hg. by vm_compute in Hg. Qed.
Lemma p_treasury : 0 ≤ bc_treasury p_chain ≤ treasury_balance (header testnet_genesis).
Proof. by vm_compute. Qed.
Lemma p_total : BLOCK_REWARD_SATOSHIS + total_fees (header (p_block (p_run p_chain))) < U64.
Proof. by vm_compute. Qed.
Lemma p_result : p_run p_chain = ((p_run p_chain).1, Ok (p_block (p_run p_chain))).
Proof. apply ok_pair, p_produced. Qed.
Lemma p_enough : enough_recipients (p_block (p_run p_chain)) = true.
Proof. by vm_compute. Qed.
Lemma produced_block_accepted_witness :
  let r := p_run p_chain in check_new_block 1800000100 r.1 (p_block r) = Ok tt.
Proof.
  cbv zeta. pose proof (produced_block_accepted 1800000000 (mkClock 0 0 0) p_chain p_voting true None None (Some "a"%string) (Some "1.1.1.1"%string)
    (p_run p_chain).1 (p_block (p_run p_chain)) testnet_genesis 1800000100 p_inv p_height p_tip p_tip_hash p_reward p_spends p_treasury p_all_fees
    p_result p_total p_texts) as Ha. rewrite p_enough in Ha. exact Ha.
Defined.

(** ** The order of the block *)

(** The parent, whose encoding is longer, and the transaction that spends its first output. *)
Definition p_parent : Transaction :=
  mkTransaction 1 [mkTxInput (mkOutPoint [7] 0) [] 0] [mkTxOutput 50 (str_bytes "x"); mkTxOutput 40 (str_bytes "y")] 0 500 None None.
Definition p_child : Transaction :=
  mkTransaction 1 [mkTxInput (mkOutPoint (txid p_parent) 0) [] 0] [] 0 501 None None.
Definition p_manager : UTXOStateManager (gmap OutPoint UTXO) :=
  run w_boot [OpUpdate (mkOutPoint [7] 0) (SpentFinalized (txid p_parent) 0 0); OpUpdate (mkOutPoint (txid p_parent) 0) (SpentFinalized (txid p_child) 0 0)].
Definition p_pool : TransactionPool :=
  mkPool ∅ {[txid p_parent := mkPoolEntry p_parent 10 0 100 None; txid p_child := mkPoolEntry p_child 50 0 100 None]} ∅ 0 0 ∅ false false.
Definition p_pooled : Blockchain :=
  set_engine (mkEngine p_manager p_pool tvc_new fallback_new (fpm_new 1) None default_fee_schedule [] None None true [] []) p_chain.

(** The transactions are selected parent first; in the block they are ordered by txid, and
    the child comes first. *)
Theorem dependency_order_lost :
  (assemble_txs p_pooled 1).1.*1 = [p_parent; p_child]
  ∧ drop 2 (transactions (p_block (p_run p_pooled))) = [p_child; p_parent].
Proof. split; by vm_compute. Qed.
End production_samples.
