(* ===== verification/IpText.v ===== *)
(** * Reading IP addresses (core::net::parser)

    [str::parse::<IpAddr>], which the network code applies to the addresses of peers: the
    parser of the standard library, on the bytes of the string, with its atomic reads that
    leave the input alone when they fail. *)

From Stdlib Require Import ZArith Lia Ascii String.
From stdpp Require Import base gmap strings list.
From S2P Require Import Prelude Types BanList.

(** A read gives a value and the input that is left. *)
Definition reader (A : Type) : Type := bytes → option (A * bytes).

Definition digit (radix x : Z) : option Z :=
  let d := if (48 <=? x) && (x <=? 57) then Some (x - 48)
           else if (97 <=? x) && (x <=? 102) then Some (x - 87)
           else if (65 <=? x) && (x <=? 70) then Some (x - 55) else None in
  match d with Some d => if d <? radix then Some d else None | None => None end.

(** [read_number]: the digits that follow, at most [max], below [limit]. *)
Fixpoint read_digits (radix limit : Z) (max : nat) (acc : Z) (n : nat) (l : bytes) : option (Z * nat * bytes) :=
  match l with
  | x :: rest =>
      match digit radix x with
      | Some d =>
          match max with
          | O => None
          | S max => let v := acc * radix + d in if v <? limit then read_digits radix limit max v (S n) rest else None
          end
      | None => Some (acc, n, l)
      end
  | [] => Some (acc, n, [])
  end.
Definition read_number (radix limit : Z) (max : nat) (allow_zero_prefix : bool) : reader Z := λ l,
  match read_digits radix limit max 0 0 l with
  | Some (_, O, _) => None
  | Some (v, n, rest) =>
      if negb allow_zero_prefix && bool_decide (head l = Some 48) && (1 <? n)%nat then None else Some (v, rest)
  | None => None
  end.
Definition read_char (c : Z) : reader () := λ l,
  match l with x :: rest => if x =? c then Some (tt, rest) else None | [] => None end.
(** [read_separator]: the separator comes before every item but the first. *)
Definition read_separator {A} (sep : Z) (index : nat) (r : reader A) : reader A := λ l,
  if (index =? 0)%nat then r l else match read_char sep l with Some (_, l) => r l | None => None end.

Definition DOT : Z := 46.
Definition COLON : Z := 58.
Definition read_octet (i : nat) : reader Z := read_separator DOT i (read_number 10 256 3 false).
Definition read_ipv4_addr : reader Z := λ l,
  '(a, l) ← read_octet 0 l; '(b, l) ← read_octet 1 l; '(c, l) ← read_octet 2 l; '(d, l) ← read_octet 3 l;
  Some (((a * 256 + b) * 256 + c) * 256 + d, l).

(** [read_groups] into [limit] groups: the groups, and whether an IPv4 address ended them. *)
Fixpoint read_groups (left i : nat) (l : bytes) : list Z * bool * bytes :=
  match left with
  | O => ([], false, l)
  | S left' =>
      match (if (1 <=? left')%nat then read_separator COLON i read_ipv4_addr l else None) with
      | Some (v4, l) => ([v4 / 65536; v4 mod 65536], true, l)
      | None =>
          match read_separator COLON i (read_number 16 65536 4 true) l with
          | Some (g, l) => let '(gs, v4, l) := read_groups left' (S i) l in (g :: gs, v4, l)
          | None => ([], false, l)
          end
      end
  end.
Definition group_value (gs : list Z) : Z := foldl (λ acc g, acc * 65536 + g) 0 gs.
Definition read_ipv6_addr : reader Z := λ l,
  let '(head, v4, l) := read_groups 8 0 l in
  if (length head =? 8)%nat then Some (group_value head, l)
  else if v4 then None
  else
    '(_, l) ← read_char COLON l; '(_, l) ← read_char COLON l;
    let '(tail, _, l) := read_groups (8 - (length head + 1)) 0 l in
    Some (group_value (head ++ replicate (8 - length head - length tail) 0 ++ tail), l).
(** [parse]: the whole input is read. *)
Definition parse_ip (s : string) : option IpAddr :=
  match (match read_ipv4_addr (str_bytes s) with Some (v, l) => Some (V4 v, l) | None => '(v, l) ← read_ipv6_addr (str_bytes s); Some (V6 v, l) end) with
  | Some (ip, []) => Some ip
  | _ => None
  end.

Example parse_samples :
  parse_ip "10.0.0.255" = Some (V4 167772415) ∧ parse_ip "1.2.3" = None ∧ parse_ip "1.2.3.256" = None ∧ parse_ip "01.2.3.4" = None
  ∧ parse_ip "1.2.3.4:8080" = None ∧ parse_ip "::1" = Some (V6 1) ∧ parse_ip "1::2:3" = Some (V6 (2 ^ 112 + 2 * 65536 + 3))
  ∧ parse_ip "::ffff:1.2.3.4" = Some (V6 (65535 * 2 ^ 32 + 16909060)) ∧ parse_ip "1:2:3:4:5:6:7:8" = Some (V6 (group_value [1;2;3;4;5;6;7;8]))
  ∧ parse_ip "1:2:3:4:5:6:7:8:9" = None ∧ parse_ip "" = None ∧ parse_ip "::" = Some (V6 0).
Proof. by vm_compute. Qed.
