(* ===== verification/BlockRound.v ===== *)
(** * Agreement on a block (src/network/message_handler/consensus.rs)

    The three messages of a round: a proposal, prepare votes and precommit votes, with the
    checks before voting, the cache of proposals (src/network/block_cache.rs), the penalties
    for bad votes (message_handler/core.rs, common.rs) and the block that a quorum of
    precommits adds to the chain.  A handler belongs to one connection ([Conn]); what it
    shares with the others is [RoundNode].  Messages to all peers are appended to [rn_out],
    which is absent while no channel is open.  The heuristic attack detector is told of
    repeated offences and is left out. *)

From Stdlib Require Import ZArith Lia Ascii String.
From stdpp Require Import base gmap strings list pretty.
From S2P Require Import Prelude Types Instances Address Storage UtxoManager TransactionPool BlockVotes.
From S2P Require Import Lru BlockTypes BlockVrf BlockCache BlockLedger Governance Registry Reward Utf8 Genesis TxValidation Consensus.
From S2P Require Import Chain ChainApply ForkChoice Reorg BanList NetGuards IpText Production.

(** ** Proposals waiting for votes *)

Record CachedBlock := mkCached { cb_block : Block; cached_at : Z }.
(** Over an [LruCache] of the [lru] crate; times are in nanoseconds. *)
Section vote_cache.
Context `{LruCrate}.
Record VoteCache := mkVoteCache { vc_lru : LruCache Hash256 CachedBlock; vc_max_age : option Z }.
Implicit Types k : VoteCache.

Definition vc_new (cap : positive) (max_age : option Z) : VoteCache := mkVoteCache (lru_new cap) max_age.
Definition set_lru (l : LruCache Hash256 CachedBlock) k : VoteCache := mkVoteCache l (vc_max_age k).
Definition vc_insert (inst : Z) k (h : Hash256) (b : Block) : VoteCache * option Block :=
  let '(l, evicted) := lru_push (vc_lru k) h (mkCached b inst) in (set_lru l k, cb_block ∘ snd <$> evicted).
Definition expired (inst : Z) k (c : CachedBlock) : bool :=
  match vc_max_age k with Some age => age <? inst - cached_at c | None => false end.
Definition vc_get (inst : Z) k (h : Hash256) : VoteCache * option Block :=
  if match lru_peek (vc_lru k) h with Some c => expired inst k c | None => false end
  then (set_lru (lru_pop (vc_lru k) h).1 k, None)
  else let '(l, r) := lru_get (vc_lru k) h in (set_lru l k, cb_block <$> r).
Definition vc_contains k (h : Hash256) : bool := bool_decide (is_Some (lru_peek (vc_lru k) h)).
Definition vc_remove k (h : Hash256) : VoteCache * option Block :=
  let '(l, r) := lru_pop (vc_lru k) h in (set_lru l k, cb_block <$> r).
Definition vc_clear k : VoteCache := set_lru (lru_clear (vc_lru k)) k.
Definition at_height (height : Z) (e : Hash256 * CachedBlock) : bool := bh_height (header (cb_block e.2)) =? height.
Definition has_block_at_height k (height : Z) : bool := existsb (at_height height) (lru_iter (vc_lru k)).
Definition get_by_height (inst : Z) k (height : Z) : option Block :=
  cb_block ∘ snd <$> List.find (λ e, at_height height e && negb (expired inst k e.2)) (lru_iter (vc_lru k)).
Definition cleanup_expired (inst : Z) k : VoteCache * nat :=
  match vc_max_age k with
  | None => (k, 0%nat)
  | Some _ =>
      let gone := (filter (λ e, expired inst k e.2 = true) (lru_iter (vc_lru k))).*1 in
      (set_lru (foldl (λ l h, (lru_pop l h).1) (vc_lru k) gone) k, length gone)
  end.
End vote_cache.

(** ** Penalties *)

(** A count and the start of its window; crossing the threshold starts it again. *)
Definition check_sliding_window (inst : Z) (w : Z * Z) (threshold secs : Z) : (Z * Z) * bool :=
  let '(count, start) := w in
  if secs * NANOS <? inst - start then ((1, inst), false)
  else if threshold <=? count + 1 then ((0, inst), true) else ((count + 1, start), false).

Record Conn := mkConn { peer_ip : string; invalid_sig_window : Z * Z; unregistered_window : Z * Z }.
Definition conn_new (inst : Z) (ip : string) : Conn := mkConn ip (0, inst) (0, inst).

Definition PREPARE : bytes := str_bytes "PREPARE".
Definition PRECOMMIT : bytes := str_bytes "PRECOMMIT".
Definition vote_message (h : Hash256) (id : string) (kind : bytes) : bytes := h ++ str_bytes id ++ kind.

Inductive vote_msg := TimeVotePrepare (h : Hash256) (id : string) (sig : bytes) | TimeVotePrecommit (h : Hash256) (id : string) (sig : bytes).
Inductive round_error := ConsensusUnavailable.

Inductive vote_refusal :=
| NotSerializable | BlockTooLarge (n : Z) | WrongMerkleRoot | FewTransactions (n : nat)
| CoinbaseInputs (n : nat) | CoinbaseOutputCount (n : nat) | CoinbaseNotReward | DistributionInputCount (n : nat) | DistributionSpendsOther
| DistributionOutputCount (n : nat) | DistributionSum (z : Z) | NoLeader | UnknownProposer (a : string) | ImmatureProposer (a : string)
| BadVrf (e : vrf_error) | ScoreMismatch | ScoreTooHigh (a : string) | ScoreTooHighRelaxed (a : string) | RewardsRefused (e : chain_error)
| NoEngine | InvalidTx (i : nat) (e : tx_error) | SpentTwice (o : OutPoint).

(** ** Registry queries *)

Section queries.
Context `{MapIter}.
Implicit Types r : MasternodeRegistry.

Definition registry_get r (a : string) : option MasternodeInfo := masternodes r !! a.
(** Every node is mature: the gate for free nodes has been taken out. *)
Definition is_mature_for_sortition (i : MasternodeInfo) (height : Z) (net : NetworkType) : bool :=
  if negb (bool_decide (tier (masternode i) = Free)) then true else true.
Definition get_vrf_eligible r (net : NetworkType) (height : Z) : list (Masternode * string) :=
  (λ i, (masternode i, reward_address i)) <$>
    filter (λ i, counts_toward_consensus i && is_mature_for_sortition i height net = true) (iter (masternodes r)).*2.
Definition get_voter_weight r (id : string) : Z :=
  match registry_get r id with Some i => Z.max (sampling_weight (tier (masternode i))) 1 | None => 1 end.
(** Sampling weight with the bonus for blocks without reward; free nodes stay below bronze. *)
Definition vrf_weight (t : MasternodeTier) (bonus : Z) : Z :=
  let raw := add64 (sampling_weight t) bonus in
  if bool_decide (t = Free) then Z.min raw (sampling_weight Bronze - 1) else raw.
Definition fairness_bonus r (a : string) : Z := default 0 (get_reward_tracking_from_memory r !! a) / 10.
End queries.

Section rounds.
Context {S : Type} `{UtxoStorage S} `{MapIter} `{Externals} `{BlockExternals} `{!BlockCodec} `{LegacyCodec} `{Zstd} `{LruCrate}.
Context `{TxExternals} `{PoolCodec} `{VrfExternals} `{GovCodec}.
Abbreviation Blockchain := (Blockchain (S := S)).

Record RoundNode := mkRound {
  rn_node : ForkNode (S := S);
  rn_voting : BlockVoting;
  rn_engine : bool;                              (* [context.consensus] is present *)
  rn_cache : option VoteCache;
  rn_bans : option IPBanlist;
  rn_seen : option DeduplicationFilter;
  rn_out : option (list vote_msg);
  rn_address : option string;                    (* [node_masternode_address] *)
  rn_tips : gmap string (Z * Hash256);           (* [peer_chain_tips] *)
}.
Implicit Types (s : RoundNode) (q : Conn) (b : Block).
Definition set_node (n : ForkNode) s := mkRound n (rn_voting s) (rn_engine s) (rn_cache s) (rn_bans s) (rn_seen s) (rn_out s) (rn_address s) (rn_tips s).
Definition set_voting (v : BlockVoting) s := mkRound (rn_node s) v (rn_engine s) (rn_cache s) (rn_bans s) (rn_seen s) (rn_out s) (rn_address s) (rn_tips s).
Definition set_vote_cache (k : option VoteCache) s := mkRound (rn_node s) (rn_voting s) (rn_engine s) k (rn_bans s) (rn_seen s) (rn_out s) (rn_address s) (rn_tips s).
Definition set_bans (l : option IPBanlist) s := mkRound (rn_node s) (rn_voting s) (rn_engine s) (rn_cache s) l (rn_seen s) (rn_out s) (rn_address s) (rn_tips s).
Definition set_seen (f : option DeduplicationFilter) s := mkRound (rn_node s) (rn_voting s) (rn_engine s) (rn_cache s) (rn_bans s) f (rn_out s) (rn_address s) (rn_tips s).
Definition set_out (o : option (list vote_msg)) s := mkRound (rn_node s) (rn_voting s) (rn_engine s) (rn_cache s) (rn_bans s) (rn_seen s) o (rn_address s) (rn_tips s).
Definition set_tips (t : gmap string (Z * Hash256)) s := mkRound (rn_node s) (rn_voting s) (rn_engine s) (rn_cache s) (rn_bans s) (rn_seen s) (rn_out s) (rn_address s) t.
Definition rn_chain s : Blockchain := chain (rn_node s).
Definition rn_registry s : MasternodeRegistry := registry (rn_chain s).
Definition set_rn_chain (c : Blockchain) s : RoundNode := set_node (set_chain c (rn_node s)) s.

Definition record_vote_violation (now : Clock) (reason : string) q s : RoundNode :=
  match rn_bans s, parse_ip (peer_ip q) with
  | Some bl, Some ip => set_bans (Some (record_violation (c_instant now) (c_unix now) ip reason bl).1) s
  | _, _ => s
  end.
Definition record_invalid_sig_vote (now : Clock) (x : Conn * RoundNode) : Conn * RoundNode :=
  let '(q, s) := x in
  let '(w, hit) := check_sliding_window (c_instant now) (invalid_sig_window q) 5 30 in
  (mkConn (peer_ip q) w (unregistered_window q),
   if hit then record_vote_violation now "invalid vote signature spam (AV27: 5+ per 30s)" q s else s).
Definition record_unregistered_vote (now : Clock) (x : Conn * RoundNode) : Conn * RoundNode :=
  let '(q, s) := x in
  let '(w, hit) := check_sliding_window (c_instant now) (unregistered_window q) 10 60 in
  (mkConn (peer_ip q) (invalid_sig_window q) w,
   if hit then record_vote_violation now "unregistered voter spam (AV28: 10+ per 60s)" q s else s).

(** The vote carries a signature under the key that the registry has for its voter. *)
Definition signed_by (r : MasternodeRegistry) (h : Hash256) (id : string) (kind sig : bytes) : bool :=
  match registry_get r id with
  | Some i => (length sig =? 64)%nat && ed25519_verify (public_key (masternode i)) (vote_message h id kind) sig
  | None => false
  end.
Definition verify_vote_signature (now : Clock) (h : Hash256) (id : string) (kind sig : bytes) (x : Conn * RoundNode)
    : (Conn * RoundNode) * bool :=
  let '(q, s) := x in
  match sig with
  | [] => ((q, record_vote_violation now "unsigned vote (AV27)" q s), false)
  | _ =>
      match registry_get (rn_registry s) id with
      | None => (record_unregistered_vote now (q, s), false)
      | Some i =>
          if negb (length sig =? 64)%nat then ((q, record_vote_violation now "invalid vote signature length (AV27)" q s), false)
          else if ed25519_verify (public_key (masternode i)) (vote_message h id kind) sig then ((q, s), true)
          else (record_invalid_sig_vote now (q, s), false)
      end
  end.

(** [sign_vote]: empty without a key. *)
Definition sign_vote s (h : Hash256) (id : string) (kind : bytes) : bytes :=
  match identity (engine (rn_chain s)) with Some i => sk_sign (id_key i) (vote_message h id kind) | None => [] end.
Definition send_vote (m : vote_msg) s : RoundNode := set_out ((λ l, l ++ [m]) <$> rn_out s) s.

(** ** The checks before voting *)

Definition MAX_BLOCK_SIZE : Z := 4 * 1024 * 1024.
(** Called with two transactions at least. *)
Definition validate_block_rewards_structure b : result vote_refusal () :=
  match transactions b with
  | coinbase :: dist :: _ =>
      fail_if negb (bool_decide (inputs coinbase = [])) with CoinbaseInputs (length (inputs coinbase)) in
      match outputs coinbase with
      | [out] =>
          fail_if negb (out_value out =? block_reward (header b)) with CoinbaseNotReward in
          match inputs dist with
          | [i] =>
              fail_if negb (bool_decide (op_txid (previous_output i) = txid coinbase)) with DistributionSpendsOther in
              fail_if (length (masternode_rewards b) <? length (outputs dist))%nat with DistributionOutputCount (length (outputs dist)) in
              let total := sum64 (out_value <$> outputs dist) in
              let lower := sat_sub (block_reward (header b)) (Z.of_nat (length (masternode_rewards b))) in
              fail_if (total <? lower) || (block_reward (header b) <? total) with DistributionSum total in
              Ok tt
          | l => Err (DistributionInputCount (length l))
          end
      | l => Err (CoinbaseOutputCount (length l))
      end
  | l => Err (FewTransactions (length l))
  end.

(** The threshold doubles with every 30 seconds after the slot, 20 times at most; heights
    other than the next one are not held to it. *)
Definition check_score (unix : Z) (c : Blockchain) b (i : MasternodeInfo) : result vote_refusal () :=
  let hd := header b in
  let a := leader hd in
  let w := vrf_weight (tier (masternode i)) (fairness_bonus (registry c) a) in
  let total := sum64 ((λ e : Masternode * string, vrf_weight (tier e.1) (fairness_bonus (registry c) (mn_address e.1)))
                        <$> get_vrf_eligible (registry c) (bc_network c) (bh_height hd)) in
  if negb (0 <? total) || vrf_check_proposer_eligible (vrf_score hd) w total then Ok tt
  else if negb (bh_height hd =? add64 (current_height c) 1) then Ok tt
  else
    let elapsed := Z.max (unix - (genesis_timestamp (bc_network c) + bh_height hd * 600)) 0 in
    let attempts := Z.min (elapsed / 30) 20 in
    if 0 <? attempts then
      let relaxed := Z.min (sat_mul w (Z.shiftl 1 attempts)) total in
      if vrf_check_proposer_eligible (vrf_score hd) relaxed total then Ok tt else Err (ScoreTooHighRelaxed a)
    else Err (ScoreTooHigh a).
(** Whether the leader is authenticated: a block without a proof is let through. *)
Definition check_leader (unix : Z) (c : Blockchain) b : result vote_refusal bool :=
  let hd := header b in
  if negb (bool_decide (vrf_proof hd = [])) && (0 <? bh_height hd) then
    fail_if str_is_empty (leader hd) with NoLeader in
    let? i := ok_or (UnknownProposer (leader hd)) (registry_get (registry c) (leader hd)) in
    fail_if negb (is_mature_for_sortition i (bh_height hd) (bc_network c)) with ImmatureProposer (leader hd) in
    let? u := map_err BadVrf (verify_block_vrf (public_key (masternode i)) (bh_height hd) (previous_hash hd) (vrf_proof hd) (vrf_output hd)) in
    fail_if negb (vrf_score hd =? vrf_output_to_score (vrf_output hd)) with ScoreMismatch in
    let? u := check_score unix c b i in
    Ok true
  else Ok false.

(** Transactions that votes have finalized are not validated again. *)
Fixpoint check_block_txs (unix : Z) (i : nat) (txs : list Transaction) (e : ConsensusEngine S) : ConsensusEngine S * result vote_refusal () :=
  match txs with
  | [] => (e, Ok tt)
  | tx :: txs =>
      if is_finalized (tx_pool e) (txid tx) then check_block_txs unix (i + 1) txs e
      else
        let '(ai, m, r) := validate_transaction unix (ai_validator e) (fee_schedule e) (utxo_manager e) tx in
        let e := set_ai ai (set_utxo m e) in
        match r with
        | Ok _ => check_block_txs unix (i + 1) txs e
        | Err err => (e, Err (InvalidTx i err))
        end
  end.
Fixpoint check_spent_once (seen : gset OutPoint) (ops : list OutPoint) : result vote_refusal () :=
  match ops with
  | [] => Ok tt
  | o :: ops => if bool_decide (o ∈ seen) then Err (SpentTwice o) else check_spent_once ({[o]} ∪ seen) ops
  end.
Definition block_inputs b : list OutPoint := concat ((λ tx, previous_output <$> inputs tx) <$> transactions b).

(** What is checked before the rewards. *)
Definition check_proposal_form (unix : Z) (c : Blockchain) b : result vote_refusal bool :=
  let? d := ok_or NotSerializable (block_bincode b) in
  fail_if MAX_BLOCK_SIZE <? Z.of_nat (length d) with BlockTooLarge (Z.of_nat (length d)) in
  fail_if negb (bool_decide (merkle_root (header b) = calculate_merkle_root (transactions b))) with WrongMerkleRoot in
  fail_if (length (transactions b) <? 2)%nat with FewTransactions (length (transactions b)) in
  let? u := (if 0 <? bh_height (header b) then validate_block_rewards_structure b else Ok tt) in
  check_leader unix c b.
(** Rewards, then the transactions, then double spends within the block. *)
Definition validate_block_before_vote (now : Clock) q s b : RoundNode * result vote_refusal () :=
  match check_proposal_form (c_unix now) (rn_chain s) b with
  | Err e => (s, Err e)
  | Ok authenticated =>
      let '(c, rewards) := if 0 <? bh_height (header b) then validate_proposal_rewards (c_unix now) (rn_chain s) b authenticated
                           else (rn_chain s, Ok tt) in
      let s := set_rn_chain c s in
      match rewards with
      | Err e =>
          (if authenticated then s else record_vote_violation now "unauthenticated block proposal with bad rewards (AV36)" q s,
           Err (RewardsRefused e))
      | Ok _ =>
          if negb (rn_engine s) then (s, Err NoEngine)
          else
            let '(e, r) := check_block_txs (c_unix now) 2 (drop 2 (transactions b)) (engine c) in
            let s := set_rn_chain (set_engine e c) s in
            (s, let? u := r in check_spent_once ∅ (block_inputs b))
      end
  end.

(** ** Proposals *)

(** Our identity as a voter: without an address of our own, a name made of the peer's. *)
Definition validator_id q s : string := match rn_address s with Some a => a | None => "node_" +:+ peer_ip q end.

Definition handle_timelock_block_proposal (now : Clock) (b : Block) (x : Conn * RoundNode) : (Conn * RoundNode) * result round_error () :=
  let '(q, s) := x in
  let h := bh_height (header b) in
  if negb (h =? add64 (current_height (rn_chain s)) 1) then ((q, s), Ok tt)
  else
    match validate_block_before_vote now q s b with
    | (s, Err _) => ((q, s), Ok tt)
    | (s, Ok _) =>
        let existing := k ← rn_cache s; e ← get_by_height (c_instant now) k h;
                        if (0 <? vrf_score (header e)) && (0 <? vrf_score (header b)) then Some (vrf_score (header e)) else None in
        if match existing with Some score => score <=? vrf_score (header b) | None => false end then ((q, s), Ok tt)
        else if negb (rn_engine s) then ((q, s), Err ConsensusUnavailable)
        else
          let s := set_voting (advance_vote_height h (rn_voting s)) s in
          let s := set_vote_cache ((λ k, (vc_insert (c_instant now) k (hash b) b).1) <$> rn_cache s) s in
          let id := validator_id q s in
          let w := match registry_get (rn_registry s) id with Some i => Z.max (sampling_weight (tier (masternode i))) 1 | None => 1 end in
          let v := match existing with
                   | Some _ => set_prepare (remove_voter (prepare_votes (rn_voting s)) id) (rn_voting s)
                   | None => rn_voting s
                   end in
          let s := set_voting (generate_prepare_vote (hash b) id w v) s in
          ((q, send_vote (TimeVotePrepare (hash b) id (sign_vote s (hash b) id PREPARE)) s), Ok tt)
    end.

(** ** Votes *)

Definition is_own_vote s (id : string) : bool := match rn_address s with Some a => String.eqb a id | None => false end.
(** A vote is relayed once. *)
Definition relay_vote (now : Clock) (key : bytes) (m : vote_msg) s : RoundNode :=
  match rn_out s with
  | None => s
  | Some _ =>
      match rn_seen s with
      | Some f =>
          let '(f, seen) := check_and_insert (c_instant now) key f in
          let s := set_seen (Some f) s in
          if seen then s else send_vote m s
      | None => send_vote m s
      end
  end.
Definition handle_timelock_prepare_vote (now : Clock) (h : Hash256) (id : string) (sig : bytes) (x : Conn * RoundNode)
    : (Conn * RoundNode) * result round_error () :=
  let '(q, s) := x in
  if is_own_vote s id then ((q, s), Ok tt)
  else if negb (rn_engine s) then ((q, s), Err ConsensusUnavailable)
  else
    let weight := get_voter_weight (rn_registry s) id in
    match verify_vote_signature now h id PREPARE sig (q, s) with
    | (x, false) => (x, Ok tt)
    | ((q, s), true) =>
        let s := set_voting (accumulate_prepare_vote h id weight (rn_voting s)) s in
        let s := relay_vote now (h ++ str_bytes id ++ [80]) (TimeVotePrepare h id sig) s in
        let '(v, reached) := check_prepare_consensus h (rn_voting s) in
        let s := set_voting v s in
        if negb reached then ((q, s), Ok tt)
        else
          let own := validator_id q s in
          let w := Z.max (get_voter_weight (rn_registry s) own) 1 in
          let own_sig := sign_vote s h own PRECOMMIT in
          let s := set_voting (generate_precommit_vote h own w own_sig (rn_voting s)) s in
          ((q, send_vote (TimeVotePrecommit h own own_sig) s), Ok tt)
    end.

Definition update_peer_chain_tip (height : Z) (h : Hash256) (tips : gmap string (Z * Hash256)) (peer : string) : gmap string (Z * Hash256) :=
  let ip := ip_of peer in
  match tips !! ip with
  | Some (existing, _) => if height <? existing then tips else <[ip := (height, h)]> tips
  | None => <[ip := (height, h)]> tips
  end.
Definition height_mismatch (e : incoming_error) : bool := match e with NotAdded (WrongHeight _ _) => true | _ => false end.
(** The block of a quorum; [connected] are the connected peers. *)
Definition add_finalized (now : Clock) (connected : list string) (h : Hash256) b q s : RoundNode :=
  let height := bh_height (header b) in
  let current := current_height (rn_chain s) in
  if (height =? 0) && (0 <? current) then s
  else if current <? height then
    let '(n, r) := add_block_with_fork_handling (c_unix now) (head connected) (rn_node s) b in
    let s := set_node n s in
    match r with
    | Ok true => set_tips (foldl (update_peer_chain_tip height h) (rn_tips s) connected) s
    | Ok false => s
    | Err e => if height_mismatch e then set_node (emit (GetBlocks (peer_ip q) (add64 current 1) (sub64 height 1)) n) s else s
    end
  else s.
Definition handle_timelock_precommit_vote (now : Clock) (connected : list string) (h : Hash256) (id : string) (sig : bytes) (x : Conn * RoundNode)
    : (Conn * RoundNode) * result round_error () :=
  let '(q, s) := x in
  if is_own_vote s id then ((q, s), Ok tt)
  else if negb (rn_engine s) then ((q, s), Err ConsensusUnavailable)
  else
    let weight := get_voter_weight (rn_registry s) id in
    match verify_vote_signature now h id PRECOMMIT sig (q, s) with
    | (x, false) => (x, Ok tt)
    | ((q, s), true) =>
        let s := set_voting (accumulate_precommit_vote h id weight sig (rn_voting s)) s in
        let s := relay_vote now (h ++ str_bytes id ++ [67]) (TimeVotePrecommit h id sig) s in
        let '(v, reached) := check_precommit_consensus h (rn_voting s) in
        let s := set_voting v s in
        match (if reached then rn_cache s else None) with
        | None => ((q, s), Ok tt)
        | Some k =>
            match vc_remove k h with
            | (k, None) => ((q, set_vote_cache (Some k) s), Ok tt)
            | (k, Some b) =>
                let s := add_finalized now connected h b q (set_vote_cache (Some k) s) in
                ((q, set_voting (cleanup_block_votes h (rn_voting s)) s), Ok tt)
            end
        end
    end.
End rounds.
