(* ===== verification/Leader.v ===== *)
(** * The production loop (src/main.rs)

    How a node selects itself to propose the next block, and what it does with its block:
    the proposal and its own votes, the wait for a quorum, and the fallback without one.
    The masternodes that take part in the lottery, which the loop puts together from the
    registry and the last block, are an argument, as are the answers of the peers. *)

From Stdlib Require Import ZArith Lia Ascii String.
From stdpp Require Import base gmap strings list pretty.
From S2P Require Import Prelude Types Instances Address Storage UtxoManager TransactionPool BlockVotes.
From S2P Require Import Lru BlockTypes BlockVrf BlockCache BlockLedger Governance Registry Reward Utf8 Genesis TxValidation Consensus.
From S2P Require Import Chain ChainApply ForkChoice Reorg BanList NetGuards IpText Production BlockRound.

Definition LEADER_TIMEOUT_SECS : Z := 30.
Definition SYNC_THRESHOLD_BLOCKS : Z := 5.

(** ** Attempts *)

(** The height waited for, the attempts counted for it and when it was first seen (in
    nanoseconds). *)
Record LeaderState := mkLeader { waiting_for_height : option Z; leader_attempt : Z; height_first_seen : Z }.
Definition leader_new (inst : Z) : LeaderState := mkLeader None 0 inst.
Implicit Types st : LeaderState.

(** [past] is the time past the schedule of [next], which may be negative. *)
Definition count_attempts (inst past behind next : Z) st : LeaderState :=
  let st := if bool_decide (waiting_for_height st = Some next) then st
            else mkLeader (Some next) (if 50 <? behind then 3 else if 10 <? behind then 2 else 0) inst in
  let elapsed := Z.min (Z.max past 0) ((inst - height_first_seen st) / NANOS) in
  let expected := elapsed / (if 50 <? behind then 2 else LEADER_TIMEOUT_SECS) in
  if leader_attempt st <? expected then mkLeader (waiting_for_height st) expected (height_first_seen st) else st.

(** ** Self-selection *)

Section lottery.
Context `{MapIter}.
Implicit Types r : MasternodeRegistry.

Definition lottery_total r (mns : list Masternode) : Z :=
  sum64 ((λ mn, vrf_weight (tier mn) (fairness_bonus r (mn_address mn))) <$> mns).
(** Free nodes are not boosted before the fifth attempt. *)
Definition effective_weight r (attempt : Z) (our : Masternode) (total : Z) : Z :=
  let w := vrf_weight (tier our) (fairness_bonus r (mn_address our)) in
  if (0 <? attempt) && (if bool_decide (tier our = Free) then 5 <=? attempt else true)
  then Z.min (sat_mul w (Z.shiftl 1 (Z.min attempt 20))) total else w.
Definition self_selected r (attempt score : Z) (our : Masternode) (mns : list Masternode) : bool :=
  let total := lottery_total r mns in
  vrf_check_proposer_eligible score (effective_weight r attempt our total) total.
End lottery.

Inductive lead_decision := LeadWait | LeadEvict (h : Hash256) | LeadProduce.
(** A proposal for the height that is in the cache already. *)
Definition cached_proposal `{BlockExternals} `{LruCrate} (inst : Z) (cache : option VoteCache) (next score attempt : Z) (our : string) : lead_decision :=
  match k ← cache; get_by_height inst k next with
  | Some e =>
      if 0 <? vrf_score (header e) then
        if String.eqb (leader (header e)) our then if 15 <=? attempt then LeadEvict (hash e) else LeadWait
        else if (vrf_score (header e) <? score) && (attempt =? 0) then LeadWait else LeadProduce
      else LeadProduce
  | None => LeadProduce
  end.
(** Two compatible peers at least, and none of them higher, unless attempts have failed. *)
Definition enough_peers (compatible : nat) : bool := negb (compatible <? Nat.max (compatible / 3) 2)%nat.
Definition peers_ahead (current attempt : Z) (heights : list Z) : bool :=
  (0 <? current) && (current <? foldl Z.max current heights) && negb (5 <=? attempt).

(** ** The block of the leader *)

Section leading.
Context {S : Type} `{UtxoStorage S} `{MapIter} `{Externals} `{BlockExternals} `{!BlockCodec} `{LegacyCodec} `{Zstd} `{LruCrate}.
Context `{TxExternals} `{PoolCodec} `{VrfExternals} `{GovCodec}.
Implicit Types (s : RoundNode (S := S)) (b : Block).

Definition own_weight s (a : string) : Z :=
  match registry_get (rn_registry s) a with Some i => Z.max (sampling_weight (tier (masternode i))) 1 | None => 1 end.
(** One round of the loop once the node waits for its height: whether it is to produce. *)
Definition lead_round (now : Clock) s st (mns : list Masternode) : LeaderState * RoundNode * bool :=
  let c := rn_chain s in
  let cur := current_height c in
  let next := add64 cur 1 in
  let past := c_unix now - (genesis_timestamp (bc_network c) + next * 600) in
  let behind := sat_sub (calculate_expected_height (bc_network c) (c_unix now)) cur in
  if (past <? 0) && (behind <? SYNC_THRESHOLD_BLOCKS) then (st, s, false)
  else
    match get_block_hash c cur with
    | None => (st, s, false)
    | Some prev =>
        let st := count_attempts (c_instant now) past behind next st in
        match identity (engine c), rn_address s with
        | Some me, Some a =>
            let score := (generate_block_vrf (id_key me) next prev).2 in
            match List.find (λ mn, String.eqb (mn_address mn) a) mns with
            | Some our =>
                if negb (self_selected (registry c) (leader_attempt st) score our mns) then (st, s, false)
                else match cached_proposal (c_instant now) (rn_cache s) next score (leader_attempt st) a with
                     | LeadWait => (st, s, false)
                     | LeadEvict h => (st, set_vote_cache ((λ k, (vc_remove k h).1) <$> rn_cache s) s, true)
                     | LeadProduce => (st, s, true)
                     end
            | None => (st, s, false)
            end
        | _, _ => (st, s, false)
        end
    end.

(** Caching and proposing the block, and the leader's own votes. *)
Definition lead_block (now : Clock) b s : RoundNode :=
  let h := hash b in
  let s := set_vote_cache ((λ k, (vc_insert (c_instant now) k h b).1) <$> rn_cache s) s in
  match rn_address s with
  | None => s
  | Some a =>
      let w := own_weight s a in
      let v := set_prepare (remove_voter (prepare_votes (rn_voting s)) a) (rn_voting s) in
      let s := set_voting (accumulate_prepare_vote h a w v) s in
      let s := send_vote (TimeVotePrepare h a (sign_vote s h a PREPARE)) s in
      let '(v, reached) := check_prepare_consensus h (rn_voting s) in
      let s := set_voting v s in
      if reached then
        let sig := sign_vote s h a PRECOMMIT in
        let s := set_voting (generate_precommit_vote h a w sig (rn_voting s)) s in
        send_vote (TimeVotePrecommit h a sig) s
      else s
  end.

(** The block goes to the chain without the checks of [add_block_with_fork_handling]. *)
Definition lead_add (now : Clock) b s : RoundNode * result chain_error () :=
  let '(c, r) := add_block (c_unix now) (rn_chain s) b in (set_rn_chain c s, r).
Definition lead_cleanup b s : RoundNode := set_voting (cleanup_block_votes (hash b) (rn_voting s)) s.
(** A vote has come in: the wait ends when the block is in the chain, or with a majority of
    precommits; the block is then added here. *)
Inductive lead_outcome := LeadWaiting | LeadDone | LeadGivenUp | LeadAdded (r : result chain_error ()).
Definition lead_vote (now : Clock) b s : RoundNode * lead_outcome :=
  if bh_height (header b) <=? current_height (rn_chain s) then (lead_cleanup b s, LeadDone)
  else
    let '(v, reached) := check_precommit_consensus (hash b) (rn_voting s) in
    let s := set_voting v s in
    if reached then let '(s, r) := lead_add now b s in (lead_cleanup b s, LeadAdded r) else (s, LeadWaiting).

(** The fallback after the timeout. *)
Definition should_fallback (prepare_weight : Z) (validators : nat) (attempt behind : Z) : bool :=
  let validators := if (15 <=? attempt) || (50 <? behind) then Nat.min validators 2 else validators in
  let least := if (validators <=? 2)%nat then 0 else 2 in
  (least <=? prepare_weight) && ((1 <? prepare_weight) || (validators <=? 2)%nat).
Definition lead_timeout (now : Clock) (validators : nat) (attempt behind : Z) b s : RoundNode * lead_outcome :=
  if bh_height (header b) <=? current_height (rn_chain s) then (lead_cleanup b s, LeadDone)
  else if should_fallback (get_weight (prepare_votes (rn_voting s)) (hash b)) validators attempt behind
  then let '(s, r) := lead_add now b s in (lead_cleanup b s, LeadAdded r)
  else (lead_cleanup b s, LeadGivenUp).
End leading.
