(* ===== verification/BlockRoundProofs.v ===== *)
(** * Properties of block agreement

    What stands behind a block that a quorum of precommits adds to the chain, over all
    histories of proposals, votes, own blocks, expiries and changes by other tasks. *)

From Stdlib Require Import ZArith Lia Ascii String.
From stdpp Require Import base gmap strings list pretty.
From S2P Require Import Prelude Types Instances Address Storage UtxoManager TransactionPool BlockVotes.
From S2P Require Import Lru BlockTypes BlockVrf BlockCache BlockLedger Governance Registry Reward Utf8 Genesis TxValidation Consensus.
From S2P Require Import Chain ChainApply ForkChoice Reorg BanList NetGuards IpText Production BlockRound Leader.

(** ** Votes of an accumulator *)

Section all_votes.
Context {P : Type} `{MapIter}.
Implicit Types a : VoteAccumulator P.

Definition votes_all (Q : Hash256 → string * P * Z → Prop) a : Prop := ∀ h l v, votes a !! h = Some l → v ∈ l → Q h v.
Lemma votes_all_add Q a h id x w : votes_all Q a → Q h (id, x, w) → votes_all Q (acc_add_vote a h id x w).
Proof.
  intros Ha Hq. unfold acc_add_vote. destruct (existsb _ _); [done|].
  set (l := default [] (votes a !! h)). assert (∀ v, v ∈ l → Q h v) as Hl.
  { unfold l. intros v Hv. destruct (votes a !! h) eqn:E; [by eapply Ha|by apply elem_of_nil in Hv]. }
  destruct (has_voter id l); intros h' l' v; cbn; intros [[<- <-]|[_ Hl']]%lookup_insert_Some Hv; eauto.
  apply elem_of_app in Hv as [Hv|Hv%list_elem_of_singleton]; [by apply Hl|by subst].
Qed.
Lemma votes_all_sub Q a a' : (∀ h l', votes a' !! h = Some l' → ∃ l, votes a !! h = Some l ∧ l' `sublist_of` l) → votes_all Q a → votes_all Q a'.
Proof. intros Hs Ha h l' v (l & Hl & Hsub)%Hs Hv. eapply Ha; [exact Hl|]. by eapply elem_of_sublist. Qed.
Lemma votes_all_check Q a h : votes_all Q a → votes_all Q (check_consensus a h).1.
Proof. intros Ha h' l v. rewrite check_votes. apply Ha. Qed.
Lemma votes_all_clear Q a h : votes_all Q a → votes_all Q (acc_clear a h).
Proof. intros Ha h' l v. cbn. intros [_ Hl]%lookup_delete_Some. by apply Ha. Qed.
Lemma votes_all_nil Q : votes_all Q (acc_new : VoteAccumulator P).
Proof. intros h l v Hl. cbn in Hl. by rewrite lookup_empty in Hl. Qed.
Lemma votes_all_impl (Q R : Hash256 → string * P * Z → Prop) a : (∀ h v, Q h v → R h v) → votes_all Q a → votes_all R a.
Proof. intros Hi Ha h l v Hl Hv. by eapply Hi, Ha. Qed.
End all_votes.

Section round_proofs.
Context {S : Type} `{UtxoStorage S} `{MapIter} `{Externals} `{BlockExternals} `{!BlockCodec} `{LegacyCodec} `{Zstd} `{LruCrate}.
Context `{TxExternals} `{PoolCodec} `{VrfExternals} `{GovCodec}.
Abbreviation RoundNode := (RoundNode (S := S)).
Implicit Types (s : RoundNode) (q : Conn) (b : Block).

(** ** Histories *)

Inductive round_op :=
| RProposal (now : Clock) (q : Conn) (b : Block)
| RPrepare (now : Clock) (q : Conn) (h : Hash256) (id : string) (sig : bytes)
| RPrecommit (now : Clock) (connected : list string) (q : Conn) (h : Hash256) (id : string) (sig : bytes)
| RLeadRound (now : Clock) (st : LeaderState) (mns : list Masternode)
| RLead (now : Clock) (b : Block)
| RLeadVote (now : Clock) (b : Block)
| RLeadTimeout (now : Clock) (validators : nat) (attempt behind : Z) (b : Block)
| RExpire (inst : Z)
| ROther (n : ForkNode (S := S)) (bans : option IPBanlist).
Definition round_exec s (o : round_op) : RoundNode :=
  match o with
  | RProposal now q b => (handle_timelock_block_proposal now b (q, s)).1.2
  | RPrepare now q h id sig => (handle_timelock_prepare_vote now h id sig (q, s)).1.2
  | RPrecommit now connected q h id sig => (handle_timelock_precommit_vote now connected h id sig (q, s)).1.2
  | RLeadRound now st mns => (lead_round now s st mns).1.2
  | RLead now b => lead_block now b s
  | RLeadVote now b => (lead_vote now b s).1
  | RLeadTimeout now n attempt behind b => (lead_timeout now n attempt behind b s).1
  | RExpire inst => set_vote_cache ((λ k, (cleanup_expired inst k).1) <$> rn_cache s) s
  | ROther n bans => set_bans bans (set_node n s)
  end.
Definition round_run s (os : list round_op) : RoundNode := foldl round_exec s os.
(** A step of the history in a state that satisfies [P]. *)
Definition occurs s0 (os : list round_op) (P : RoundNode → round_op → Prop) : Prop :=
  ∃ pre o post, os = pre ++ o :: post ∧ P (round_run s0 pre) o.

Lemma occurs_snoc s0 os o P : occurs s0 os P → occurs s0 (os ++ [o]) P.
Proof. intros (pre & o' & post & -> & Hp). exists pre, o', (post ++ [o]). split; [|done]. by rewrite <- app_assoc. Qed.
Lemma occurs_last s0 os o (P : RoundNode → round_op → Prop) : P (round_run s0 os) o → occurs s0 (os ++ [o]) P.
Proof. intros Hp. by exists os, o, []. Qed.

(** The precommit of [v] for [h] came in a message signed with the key its voter had. *)
Definition cast_precommit (h : Hash256) (v : string * bytes * Z) s (o : round_op) : Prop :=
  ∃ now connected q, o = RPrecommit now connected q h v.1.1 v.1.2
  ∧ signed_by (rn_registry s) h v.1.1 PRECOMMIT v.1.2 = true ∧ v.2 = get_voter_weight (rn_registry s) v.1.1.
(** The names a node votes under. *)
Definition own_name (a : option string) (id : string) : Prop :=
  match a with Some x => id = x | None => ∃ peer, id = "node_" +:+ peer end.
(** The block was proposed and passed the checks before voting, or is our own. *)
Definition proposed b s (o : round_op) : Prop :=
  (∃ now q, o = RProposal now q b ∧ (validate_block_before_vote now q s b).2 = Ok tt) ∨ (∃ now, o = RLead now b).

Definition vote_backed s0 os (h : Hash256) (v : string * bytes * Z) : Prop :=
  own_name (rn_address s0) v.1.1 ∨ occurs s0 os (cast_precommit h v).
Definition cache_backed s0 os (k : VoteCache) : Prop :=
  ∀ h e, lru_peek (vc_lru k) h = Some e → hash (cb_block e) = h ∧ occurs s0 os (proposed (cb_block e)).
Record round_inv s0 os s : Prop := mkRoundInv {
  ri_address : rn_address s = rn_address s0;
  ri_once : acc_ok (precommit_votes (rn_voting s));
  ri_votes : votes_all (vote_backed s0 os) (precommit_votes (rn_voting s));
  ri_cache : match rn_cache s with Some k => cache_backed s0 os k | None => True end;
}.

Lemma round_inv_more s0 os o s : round_inv s0 os s → round_inv s0 (os ++ [o]) s.
Proof.
  intros [I1 I2 I3 I4]. split; [done|done| |].
  - eapply votes_all_impl; [|exact I3]. intros h v [Hv|Hv]; [by left|right; by apply occurs_snoc].
  - destruct (rn_cache s); [|done]. intros h e He. destruct (I4 h e He) as [Hh Ho]. split; [done|by apply occurs_snoc].
Qed.
(** Steps that leave votes and cache alone. *)
Lemma round_inv_same s0 os s s' : rn_address s' = rn_address s → rn_voting s' = rn_voting s → rn_cache s' = rn_cache s →
  round_inv s0 os s → round_inv s0 os s'.
Proof. intros E1 E2 E3 [I1 I2 I3 I4]. split; by rewrite ?E1, ?E2, ?E3. Qed.

(** ** Voting *)

Definition pv_ok s0 os (v : BlockVoting) : Prop :=
  acc_ok (precommit_votes v) ∧ votes_all (vote_backed s0 os) (precommit_votes v).
Lemma round_inv_voting s0 os s v : round_inv s0 os s → pv_ok s0 os v → round_inv s0 os (set_voting v s).
Proof. intros [I1 I2 I3 I4] [V1 V2]. by split. Qed.
Lemma round_inv_pv s0 os s : round_inv s0 os s → pv_ok s0 os (rn_voting s).
Proof. intros [I1 I2 I3 I4]. by split. Qed.
Lemma pv_same s0 os v v' : precommit_votes v' = precommit_votes v → pv_ok s0 os v → pv_ok s0 os v'.
Proof. unfold pv_ok. by intros ->. Qed.
Lemma pv_add s0 os v h id w sig : vote_backed s0 os h (id, sig, w) → pv_ok s0 os v → pv_ok s0 os (generate_precommit_vote h id w sig v).
Proof. intros Hb [V1 V2]. split; cbn; [by apply acc_ok_add|by apply votes_all_add]. Qed.
Lemma pv_check s0 os v h : pv_ok s0 os v → pv_ok s0 os (check_precommit_consensus h v).1.
Proof.
  intros [V1 V2]. unfold check_precommit_consensus, precommit_check_consensus. pose proof (votes_all_check _ _ h V2) as V3.
  pose proof (vote_exec_ok _ (VCheck h) V1) as V4. cbn in V4. destruct (check_consensus _ h). by split.
Qed.
Lemma pv_cleanup s0 os v h : pv_ok s0 os v → pv_ok s0 os (cleanup_block_votes h v).
Proof. intros [V1 V2]. split; cbn; [apply (vote_exec_ok _ (VClear h) V1)|by apply votes_all_clear]. Qed.
Lemma pv_advance s0 os v h : pv_ok s0 os v → pv_ok s0 os (advance_vote_height h v).
Proof.
  intros [V1 V2]. unfold advance_vote_height. destruct (_ <? _); [|by split]. split; cbn.
  - apply (vote_exec_ok _ VClearAll V1).
  - intros h' l x Hl. cbn in Hl. by rewrite lookup_empty in Hl.
Qed.
Lemma prepare_check_precommits h v : precommit_votes (check_prepare_consensus h v).1 = precommit_votes v.
Proof. unfold check_prepare_consensus. by destruct (prepare_check_consensus _ _). Qed.

(** ** The cache *)

Lemma backed_pop s0 os k h : cache_backed s0 os k → cache_backed s0 os (set_lru (lru_pop (vc_lru k) h).1 k).
Proof. intros Hk h' e. cbn. rewrite lru_peek_pop. destruct (decide _); [done|]. apply Hk. Qed.
Lemma backed_remove s0 os k h : cache_backed s0 os k → cache_backed s0 os (vc_remove k h).1.
Proof. intros Hk. apply (backed_pop _ _ _ h) in Hk. unfold vc_remove. by destruct (lru_pop _ h). Qed.
Lemma remove_value k h : (vc_remove k h).2 = cb_block <$> lru_peek (vc_lru k) h.
Proof. unfold vc_remove. rewrite <- lru_pop_value. by destruct (lru_pop _ h). Qed.
Lemma backed_insert s0 os k inst b : cache_backed s0 os k → occurs s0 os (proposed b) → cache_backed s0 os (vc_insert inst k (hash b) b).1.
Proof.
  intros Hk Ho h e. unfold vc_insert. destruct (decide (h = hash b)) as [->|Hne].
  - pose proof (lru_peek_push (vc_lru k) (hash b) (mkCached b inst)) as E. destruct (lru_push _ _ _). cbn in *. rewrite E. by intros [= <-].
  - pose proof (lru_peek_push_ne (vc_lru k) (hash b) (mkCached b inst) h e Hne) as E. destruct (lru_push _ _ _). cbn in *. intros He. by apply Hk, E.
Qed.
Lemma backed_expired s0 os k inst : cache_backed s0 os k → cache_backed s0 os (cleanup_expired inst k).1.
Proof.
  intros Hk. unfold cleanup_expired. destruct (vc_max_age k) eqn:E; [|done]. cbn [fst].
  set (gone := _.*1). clearbody gone. revert k Hk E. induction gone as [|h gone IH]; intros k Hk E; [exact Hk|].
  exact (IH (set_lru (lru_pop (vc_lru k) h).1 k) (backed_pop s0 os k h Hk) E).
Qed.
Lemma round_inv_cache s0 os s f : round_inv s0 os s → (∀ k, cache_backed s0 os k → cache_backed s0 os (f k)) →
  round_inv s0 os (set_vote_cache (f <$> rn_cache s) s).
Proof. intros [I1 I2 I3 I4] Hf. split; try done. cbn. destruct (rn_cache s); cbn; auto. Qed.

(** ** What the penalties and the relay leave alone *)

Definition quiet s s' : Prop := rn_address s' = rn_address s ∧ rn_voting s' = rn_voting s ∧ rn_cache s' = rn_cache s.
Lemma quiet_inv s0 os s s' : quiet s s' → round_inv s0 os s → round_inv s0 os s'.
Proof. intros (E1 & E2 & E3). by apply round_inv_same. Qed.
Lemma violation_quiet now reason q s : quiet s (record_vote_violation now reason q s) ∧ rn_node (record_vote_violation now reason q s) = rn_node s.
Proof. unfold record_vote_violation. by destruct (rn_bans s), (parse_ip (peer_ip q)). Qed.
Lemma verify_quiet now h id kind sig q s : quiet s (verify_vote_signature now h id kind sig (q, s)).1.2
  ∧ rn_node (verify_vote_signature now h id kind sig (q, s)).1.2 = rn_node s
  ∧ ((verify_vote_signature now h id kind sig (q, s)).2 = true → signed_by (rn_registry s) h id kind sig = true).
Proof.
  unfold verify_vote_signature, signed_by. destruct sig as [|x sig]; [cbn; by destruct (violation_quiet now "unsigned vote (AV27)" q s)|].
  destruct (registry_get _ id) as [i|]; [destruct (_ =? 64)%nat; cbn [negb]; [destruct (ed25519_verify _ _ _)|]|].
  - by split_and!.
  - unfold record_invalid_sig_vote. destruct (check_sliding_window _ _ _ _) as [w [|]]; cbn; [|by split_and!].
    by destruct (violation_quiet now "invalid vote signature spam (AV27: 5+ per 30s)" q s).
  - cbn. by destruct (violation_quiet now "invalid vote signature length (AV27)" q s).
  - unfold record_unregistered_vote. destruct (check_sliding_window _ _ _ _) as [w [|]]; cbn; [|by split_and!].
    by destruct (violation_quiet now "unregistered voter spam (AV28: 10+ per 60s)" q s).
Qed.
Lemma relay_quiet now key m s : quiet s (relay_vote now key m s) ∧ rn_node (relay_vote now key m s) = rn_node s.
Proof.
  unfold relay_vote, send_vote. destruct (rn_out s); [|done]. destruct (rn_seen s) as [f|]; [|done]. destruct (check_and_insert _ _ _) as [f' [|]]; done.
Qed.
Lemma send_quiet m s : quiet s (send_vote m s).
Proof. done. Qed.
Lemma validate_quiet now q s b : quiet s (validate_block_before_vote now q s b).1.
Proof.
  unfold validate_block_before_vote. destruct (check_proposal_form _ _ _) as [auth|]; [|done].
  destruct (if 0 <? _ then _ else _) as [c [[]|e]].
  - destruct (negb _); [done|]. by destruct (check_block_txs _ _ _ _).
  - destruct auth; [done|]. apply (violation_quiet now _ q (set_rn_chain c s)).
Qed.
Lemma own_validator q s : own_name (rn_address s) (validator_id q s).
Proof. unfold own_name, validator_id. destruct (rn_address s); [done|by eexists]. Qed.

(** ** Every step keeps the invariant *)

Lemma proposal_inv s0 os s now q b : round_inv s0 os s → s = round_run s0 os → round_inv s0 (os ++ [RProposal now q b]) (round_exec s (RProposal now q b)).
Proof.
  intros Hi Es. apply (round_inv_more s0 os (RProposal now q b)) in Hi. cbn [round_exec]. unfold handle_timelock_block_proposal. cbv beta iota. destruct (negb (_ =? _)); [done|].
  pose proof (validate_quiet now q s b) as Hq. assert ((validate_block_before_vote now q s b).2 = Ok tt → occurs s0 (os ++ [RProposal now q b]) (proposed b)) as Ho.
  { intros Hv. apply occurs_last. left. exists now, q. by rewrite <- Es. }
  destruct (validate_block_before_vote now q s b) as [s1 [[]|e]]; cbn [fst snd] in *; [|by eapply quiet_inv]. apply (quiet_inv _ _ _ _ Hq) in Hi. specialize (Ho eq_refl).
  destruct (match _ with Some _ => _ | None => false end); [done|]. destruct (negb (rn_engine s1)); [done|]. cbn [fst snd].
  set (os' := os ++ [RProposal now q b]) in *.
  assert (round_inv s0 os' (set_voting (advance_vote_height (bh_height (header b)) (rn_voting s1)) s1)) as Hi2 by (apply round_inv_voting; [done|by apply pv_advance, round_inv_pv]).
  eapply round_inv_cache in Hi2; [|intros k Hk; exact (backed_insert s0 os' k (c_instant now) b Hk Ho)].
  cbn [rn_cache set_voting] in Hi2. eapply quiet_inv; [apply send_quiet|]. apply round_inv_voting; [exact Hi2|].
  eapply pv_same; [|exact (round_inv_pv _ _ _ Hi2)]. by destruct (k ← rn_cache s1; _).
Qed.
Lemma prepare_inv s0 os s now q h id sig o : round_inv s0 os s → round_inv s0 (os ++ [o]) (round_exec s (RPrepare now q h id sig)).
Proof.
  intros Hi. apply (round_inv_more s0 os o) in Hi. cbn [round_exec]. unfold handle_timelock_prepare_vote. cbv beta iota. destruct (is_own_vote s id); [done|]. destruct (negb (rn_engine s)); [done|].
  destruct (verify_quiet now h id PREPARE sig q s) as (Hq & _ & _). destruct (verify_vote_signature now h id PREPARE sig (q, s)) as [[q1 s1] [|]]; cbn [fst snd] in *; [|by eapply quiet_inv].
  apply (quiet_inv _ _ _ _ Hq) in Hi. set (s2 := set_voting _ s1). assert (round_inv s0 (os ++ [o]) s2) as Hi2 by (apply round_inv_voting; [done|eapply pv_same; [|by apply round_inv_pv]; done]).
  apply (quiet_inv _ _ _ _ (proj1 (relay_quiet now (h ++ str_bytes id ++ [80]) (TimeVotePrepare h id sig) s2))) in Hi2. set (s3 := relay_vote _ _ _ _) in *. clearbody s3.
  pose proof (prepare_check_precommits h (rn_voting s3)) as Ec. destruct (check_prepare_consensus h (rn_voting s3)) as [v reached]. cbn [fst] in Ec.
  assert (round_inv s0 (os ++ [o]) (set_voting v s3)) as Hi3 by (apply round_inv_voting; [done|by eapply pv_same, round_inv_pv]).
  destruct reached; [|done]. cbn [negb fst snd]. eapply quiet_inv; [apply send_quiet|]. apply round_inv_voting; [done|]. apply pv_add; [|by apply round_inv_pv].
  left. cbn [fst]. rewrite <- (ri_address _ _ _ Hi3). apply own_validator.
Qed.
Lemma add_finalized_quiet now connected h b q s : rn_address (add_finalized now connected h b q s) = rn_address s
  ∧ rn_voting (add_finalized now connected h b q s) = rn_voting s ∧ rn_cache (add_finalized now connected h b q s) = rn_cache s.
Proof.
  unfold add_finalized. destruct (_ && _); [done|]. destruct (_ <? _); [|done]. destruct (add_block_with_fork_handling _ _ _ _) as [n [[|]|e]]; [done..|]. by destruct (height_mismatch e).
Qed.
(** The state in which the quorum of precommits is looked for. *)
Definition counted (now : Clock) (h : Hash256) (id : string) (sig : bytes) q s : RoundNode :=
  let s1 := (verify_vote_signature now h id PRECOMMIT sig (q, s)).1.2 in
  relay_vote now (h ++ str_bytes id ++ [67]) (TimeVotePrecommit h id sig)
    (set_voting (accumulate_precommit_vote h id (get_voter_weight (rn_registry s) id) sig (rn_voting s1)) s1).
Lemma counted_inv s0 os s now connected q h id sig : round_inv s0 os s → s = round_run s0 os →
  (verify_vote_signature now h id PRECOMMIT sig (q, s)).2 = true →
  round_inv s0 (os ++ [RPrecommit now connected q h id sig]) (counted now h id sig q s) ∧ rn_node (counted now h id sig q s) = rn_node s.
Proof.
  intros Hi Es Hv. destruct (verify_quiet now h id PRECOMMIT sig q s) as (Hq & Hn & Hs). specialize (Hs Hv). apply (round_inv_more s0 os (RPrecommit now connected q h id sig)) in Hi.
  unfold counted. set (s1 := _.1.2) in *. set (s2 := set_voting _ s1). destruct (relay_quiet now (h ++ str_bytes id ++ [67]) (TimeVotePrecommit h id sig) s2) as [Hq2 Hn2].
  split; [|by rewrite Hn2]. eapply quiet_inv; [exact Hq2|]. apply round_inv_voting; [by eapply quiet_inv|]. apply (quiet_inv _ _ _ _ Hq) in Hi.
  apply pv_add; [|by apply round_inv_pv]. right. apply occurs_last. exists now, connected, q. by rewrite <- Es.
Qed.
Lemma precommit_inv s0 os s now connected q h id sig : round_inv s0 os s → s = round_run s0 os →
  round_inv s0 (os ++ [RPrecommit now connected q h id sig]) (round_exec s (RPrecommit now connected q h id sig)).
Proof.
  intros Hi Es. pose proof (round_inv_more s0 os (RPrecommit now connected q h id sig) s Hi) as Hi'. cbn [round_exec]. unfold handle_timelock_precommit_vote. cbv beta iota.
  destruct (is_own_vote s id); [done|]. destruct (negb (rn_engine s)); [done|].
  pose proof (counted_inv s0 os s now connected q h id sig Hi Es) as Hc. destruct (verify_quiet now h id PRECOMMIT sig q s) as (Hq & _ & _). unfold counted in Hc.
  destruct (verify_vote_signature now h id PRECOMMIT sig (q, s)) as [[q1 s1] [|]]; cbn [fst snd] in *; [|by eapply quiet_inv]. destruct (Hc eq_refl) as [Hi3 _]. clear Hc.
  set (s3 := relay_vote _ _ _ _) in *. clearbody s3. pose proof (pv_check _ _ _ h (round_inv_pv _ _ _ Hi3)) as Hp. destruct (check_precommit_consensus h (rn_voting s3)) as [v reached]. cbn [fst] in Hp.
  pose proof (round_inv_voting _ _ _ _ Hi3 Hp) as Hi4. set (s4 := set_voting v s3) in *. clearbody s4.
  destruct reached; [|done]. destruct (rn_cache s4) as [k|] eqn:Ek; [|done].
  assert (round_inv s0 (os ++ [RPrecommit now connected q h id sig]) (set_vote_cache (Some (vc_remove k h).1) s4)) as Hi5.
  { replace (Some (vc_remove k h).1) with ((λ k, (vc_remove k h).1) <$> rn_cache s4) by (by rewrite Ek).
    apply round_inv_cache; [done|]. intros k'. apply backed_remove. }
  destruct (vc_remove k h) as [k' [b|]]; [|done]. cbn [fst snd] in *. apply round_inv_voting.
  - eapply quiet_inv; [apply add_finalized_quiet|exact Hi5].
  - rewrite (proj1 (proj2 (add_finalized_quiet _ _ _ _ _ _))). by apply pv_cleanup, round_inv_pv.
Qed.
Lemma lead_block_inv s0 os s now b : round_inv s0 os s → round_inv s0 (os ++ [RLead now b]) (lead_block now b s).
Proof.
  intros Hi. apply (round_inv_more s0 os (RLead now b)) in Hi. assert (occurs s0 (os ++ [RLead now b]) (proposed b)) as Ho.
  { apply occurs_last. right. by exists now. }
  unfold lead_block. eapply round_inv_cache in Hi; [|intros k Hk; exact (backed_insert _ _ k (c_instant now) b Hk Ho)].
  set (s1 := set_vote_cache _ s) in *. clearbody s1. destruct (rn_address s1) as [a|] eqn:Ea; [|done].
  set (s2 := send_vote _ _). assert (round_inv s0 (os ++ [RLead now b]) s2) as Hi2.
  { eapply quiet_inv; [apply send_quiet|]. apply round_inv_voting; [done|]. eapply pv_same; [|exact (round_inv_pv _ _ _ Hi)]. done. }
  assert (rn_address s2 = Some a) as Ea2 by done. clearbody s2.
  pose proof (prepare_check_precommits (hash b) (rn_voting s2)) as Ec. destruct (check_prepare_consensus (hash b) (rn_voting s2)) as [v reached]. cbn [fst] in Ec.
  assert (round_inv s0 (os ++ [RLead now b]) (set_voting v s2)) as Hi3 by (apply round_inv_voting; [done|by eapply pv_same, round_inv_pv]).
  destruct reached; [|done]. eapply quiet_inv; [apply send_quiet|]. apply round_inv_voting; [done|]. apply pv_add; [|by apply round_inv_pv].
  left. cbn [fst]. rewrite <- (ri_address _ _ _ Hi3). cbn. by rewrite Ea2.
Qed.
Lemma lead_cleanup_inv s0 os s b : round_inv s0 os s → round_inv s0 os (lead_cleanup b s).
Proof. intros Hi. apply round_inv_voting; [done|]. by apply pv_cleanup, round_inv_pv. Qed.
Lemma lead_add_quiet now b s : quiet s (lead_add now b s).1.
Proof. unfold lead_add. by destruct (add_block _ _ _). Qed.
Lemma round_step s0 os s o : round_inv s0 os s → s = round_run s0 os → round_inv s0 (os ++ [o]) (round_exec s o).
Proof.
  intros Hi Es. destruct o as [now q b|now q h id sig|now cs q h id sig|now st mns|now b|now b|now n at_ be b|inst|n bans].
  - by apply proposal_inv.
  - by apply prepare_inv.
  - by apply precommit_inv.
  - apply (round_inv_more s0 os (RLeadRound now st mns)) in Hi. cbn. unfold lead_round. split_matches; try done. cbn. apply round_inv_cache; [done|]. intros k. apply backed_remove.
  - by apply lead_block_inv.
  - apply (round_inv_more s0 os (RLeadVote now b)) in Hi. cbn. unfold lead_vote. destruct (_ <=? _); [by apply lead_cleanup_inv|].
    pose proof (pv_check _ _ _ (hash b) (round_inv_pv _ _ _ Hi)) as Hp. destruct (check_precommit_consensus _ _) as [v [|]]; cbn [fst] in *; [|by apply round_inv_voting].
    pose proof (lead_add_quiet now b (set_voting v s)) as Hq. destruct (lead_add now b (set_voting v s)) as [s1 r]. cbn [fst] in *.
    apply lead_cleanup_inv. eapply quiet_inv; [exact Hq|by apply round_inv_voting].
  - apply (round_inv_more s0 os (RLeadTimeout now n at_ be b)) in Hi. cbn. unfold lead_timeout. destruct (_ <=? _); [by apply lead_cleanup_inv|].
    destruct (should_fallback _ _ _ _); [|by apply lead_cleanup_inv]. pose proof (lead_add_quiet now b s) as Hq. destruct (lead_add now b s) as [s1 r].
    cbn [fst] in *. apply lead_cleanup_inv. by eapply quiet_inv.
  - apply (round_inv_more s0 os (RExpire inst)) in Hi. cbn. apply round_inv_cache; [done|]. intros k. apply backed_expired.
  - apply (round_inv_more s0 os (ROther n bans)) in Hi. exact (round_inv_same _ _ s (set_bans bans (set_node n s)) eq_refl eq_refl eq_refl Hi).
Qed.
(** A node that starts: no votes, no proposals. *)
Definition fresh s : Prop := precommit_votes (rn_voting s) = acc_new ∧ ∀ k h, rn_cache s = Some k → lru_peek (vc_lru k) h = None.
Lemma fresh_inv s0 : fresh s0 → round_inv s0 [] s0.
Proof.
  intros [E1 E2]. split; [done|rewrite E1; exact (vote_run_ok [])|rewrite E1; apply votes_all_nil|]. destruct (rn_cache s0) as [k|]; [|done]. intros h e He. rewrite (E2 k h eq_refl) in He. done.
Qed.
Lemma round_reachable s0 os : fresh s0 → round_inv s0 os (round_run s0 os).
Proof.
  intros Hf. induction os as [|o os IH] using rev_ind; [by apply fresh_inv|]. unfold round_run. rewrite foldl_app.
  change (round_inv s0 (os ++ [o]) (round_exec (round_run s0 os) o)). apply round_step; [exact IH|done].
Qed.

(** ** What the checks before voting establish *)

Lemma spent_once_nodup ops seen : check_spent_once seen ops = Ok tt → NoDup ops ∧ ∀ o, o ∈ ops → o ∉ seen.
Proof.
  revert seen. induction ops as [|o ops IH]; intros seen; cbn; [intros _; split; [constructor|by intros ? ?%elem_of_nil]|].
  case_bool_decide as Ho; [done|]. intros (Hn & Hs)%IH. split.
  - constructor; [|done]. intros Hin. apply (Hs o Hin). set_solver.
  - intros o' [->|Hin]%elem_of_cons; [done|]. specialize (Hs o' Hin). set_solver.
Qed.
Lemma form_sound unix (c : Blockchain (S := S)) b auth : check_proposal_form unix c b = Ok auth →
  merkle_root (header b) = calculate_merkle_root (transactions b) ∧ (2 ≤ length (transactions b))%nat
  ∧ (0 < bh_height (header b) → validate_block_rewards_structure b = Ok tt).
Proof.
  unfold check_proposal_form. rewrite bind_ok_iff. intros (d & _ & Hf). rewrite !fail_ok_iff, let_ok_iff in Hf. destruct Hf as (_ & Hm & Hl & Hr & _).
  apply negb_false_iff, bool_decide_eq_true in Hm. apply Nat.ltb_ge in Hl. split; [done|]. split; [done|].
  intros Hh. apply Z.ltb_lt in Hh. by rewrite Hh in Hr.
Qed.
Lemma validated_sound now q s b : (validate_block_before_vote now q s b).2 = Ok tt →
  merkle_root (header b) = calculate_merkle_root (transactions b) ∧ NoDup (block_inputs b)
  ∧ (0 < bh_height (header b) → validate_block_rewards_structure b = Ok tt).
Proof.
  unfold validate_block_before_vote. destruct (check_proposal_form _ _ _) as [auth|] eqn:Ef; [|done]. destruct (form_sound _ _ _ _ Ef) as (Hm & _ & Hr).
  destruct (if 0 <? _ then _ else _) as [c [[]|e]]; [|done]. destruct (negb _); [done|]. destruct (check_block_txs _ _ _ _) as [e r].
  cbn [snd]. rewrite let_ok_iff. intros [_ Hs]. split; [done|]. split; [|done]. by apply (spent_once_nodup _ ∅).
Qed.

(** ** The theorem *)

Lemma occurs_before s0 os o (P : RoundNode → round_op → Prop) : (∀ s, ¬ P s o) → occurs s0 (os ++ [o]) P → occurs s0 os P.
Proof.
  intros Hn (pre & o' & post & Eo & Ho). destruct (decide (post = [])) as [->|Hne]; [apply app_inj_tail in Eo as [_ ->]; by apply Hn in Ho|].
  destruct (exists_last Hne) as (post' & x & ->). rewrite app_comm_cons, app_assoc in Eo. apply app_inj_tail in Eo as [-> _]. by exists pre, o', post'.
Qed.
Lemma add_finalized_chain now connected h b q s : rn_node (add_finalized now connected h b q s) ≠ rn_node s →
  current_height (rn_chain s) < bh_height (header b)
  ∧ rn_chain (add_finalized now connected h b q s) = chain (add_block_with_fork_handling (c_unix now) (head connected) (rn_node s) b).1.
Proof.
  unfold add_finalized. destruct (_ && _); [done|]. destruct (Z.ltb_spec (current_height (rn_chain s)) (bh_height (header b))); [|done].
  intros _. split; [done|]. destruct (add_block_with_fork_handling _ _ _ _) as [n [[|]|e]]; [done..|]. by destruct (height_mismatch e).
Qed.

(** C13: What stands behind a block that precommit votes add to the chain, over every
    history of proposals, votes, own blocks, expiries and changes by other tasks of a node
    that started fresh. When a precommit changes the chain, there is one block above the tip
    such that the chain afterwards is what adding this block gives. The block was proposed
    to the node in an earlier message and passed the checks before voting in the state of
    that moment - its Merkle root is right, no output is spent twice in it and its rewards
    have the right structure - or is the node's own. Its hash is the one voted on, at least
    two distinct voters precommitted to it with more than half of the precommit weight seen,
    and each of these votes is the node's own or came in a message signed with the key the
    registry then had for the voter, at the weight the voter then had. *)
Theorem agreed_block_backed s0 os now connected q h id sig :
  fresh s0 →
  let s := round_run s0 os in
  let o := RPrecommit now connected q h id sig in
  rn_node (round_exec s o) ≠ rn_node s →
  ∃ b l,
    current_height (rn_chain s) < bh_height (header b)
    ∧ rn_chain (round_exec s o) = chain (add_block_with_fork_handling (c_unix now) (head connected) (rn_node s) b).1
    ∧ hash b = h
    ∧ (occurs s0 os (λ _ o', ∃ now', o' = RLead now' b)
       ∨ occurs s0 os (λ s' o', ∃ now' q', o' = RProposal now' q' b ∧ (validate_block_before_vote now' q' s' b).2 = Ok tt)
         ∧ merkle_root (header b) = calculate_merkle_root (transactions b) ∧ NoDup (block_inputs b)
         ∧ (0 < bh_height (header b) → validate_block_rewards_structure b = Ok tt))
    ∧ NoDup (voter_of <$> l) ∧ (2 ≤ length l)%nat
    ∧ total_weight (precommit_votes (rn_voting (counted now h id sig q s))) / 2 < weight_of l
    ∧ ∀ v, v ∈ l → own_name (rn_address s0) (voter_of v) ∨ occurs s0 (os ++ [o]) (cast_precommit h v).
Proof.
  intros Hf. cbv zeta. set (s := round_run s0 os). pose proof (round_reachable s0 os Hf) as Hi. fold s in Hi. cbn [round_exec]. unfold handle_timelock_precommit_vote. cbv beta iota.
  destruct (is_own_vote s id); [done|]. destruct (negb (rn_engine s)); [done|].
  pose proof (counted_inv s0 os s now connected q h id sig Hi eq_refl) as Hc. destruct (verify_quiet now h id PRECOMMIT sig q s) as (_ & Hn & _). unfold counted in Hc |- *.
  destruct (verify_vote_signature now h id PRECOMMIT sig (q, s)) as [[q1 s1] [|]]; cbn [fst snd] in *; [|done]. destruct (Hc eq_refl) as [Hi3 Hn3]. clear Hc.
  set (s3 := relay_vote _ _ _ _) in *. clearbody s3. destruct (check_precommit_consensus h (rn_voting s3)) as [v reached] eqn:Er.
  destruct reached; [|done]. unfold check_precommit_consensus in Er. destruct (precommit_check_consensus _ _) as [a ok] eqn:Ea. injection Er as <- ->.
  destruct (check_true (precommit_votes (rn_voting s3)) h) as (l & Hl & Hlen & Hw & _); [unfold precommit_check_consensus in Ea; by rewrite Ea|].
  cbn [rn_cache set_voting]. destruct (rn_cache s3) as [k|] eqn:Ek; [|done].
  pose proof (remove_value k h) as Ev. destruct (vc_remove k h) as [k' [b|]]; [|done]. cbn [fst snd] in *.
  destruct (lru_peek (vc_lru k) h) as [cb|] eqn:Ep; [|done]. injection Ev as ->. set (s5 := set_vote_cache _ _).
  assert (rn_node s5 = rn_node s) as En by exact Hn3. intros Hch. rewrite <- En in Hch.
  destruct (add_finalized_chain now connected h (cb_block cb) q1 s5 Hch) as [Hh Ech]. exists (cb_block cb), l.
  pose proof (ri_cache _ _ _ Hi3) as Hb. rewrite Ek in Hb. destruct (Hb _ _ Ep) as [Hash Ho].
  split; [unfold rn_chain in Hh |- *; by rewrite <- En|]. split; [rewrite <- En; exact Ech|]. split; [done|].
  apply occurs_before in Ho; [|by intros s' [(? & ? & ? & _)|(? & ?)]]. split; [|split; [|split; [|split]]].
  - destruct Ho as (pre & o & post & Eo & [(now' & q' & -> & Hv)|(now' & ->)]); [right|left; exists pre, (RLead now' (cb_block cb)), post; split; [done|by exists now']].
    split; [|by eapply validated_sound]. eexists pre, _, post. split; [exact Eo|]. by exists now', q'.
  - exact (ao_nodup _ (ri_once _ _ _ Hi3) h l Hl).
  - done.
  - done.
  - intros x Hx. exact (ri_votes _ _ _ Hi3 h l x Hl Hx).
Qed.
End round_proofs.
