(* ===== verification/LeaderProofs.v ===== *)
(** * Self-selection agrees with validation

    A node that selects itself as the proposer of the next block is accepted by a validator
    with the same registry whose clock is not behind, however long the height has waited. *)

From Stdlib Require Import ZArith Lia Ascii String.
From stdpp Require Import base gmap strings list pretty.
From S2P Require Import Prelude Types Instances Address Storage UtxoManager TransactionPool BlockVotes.
From S2P Require Import Lru BlockTypes BlockVrf BlockCache BlockLedger Governance Registry Reward Utf8 Genesis TxValidation Consensus.
From S2P Require Import Chain ChainApply ForkChoice Reorg BanList NetGuards IpText Production BlockRound Leader.

(** ** Attempts *)

(** One look at the clocks and the chain: monotonic time, wall clock, height. *)
Record look := mkLook { lk_inst : Z; lk_unix : Z; lk_height : Z }.
Definition slot_time (net : NetworkType) (next : Z) : Z := genesis_timestamp net + next * 600.
Definition look_step (net : NetworkType) (st : LeaderState) (x : look) : LeaderState :=
  let next := lk_height x + 1 in
  let past := lk_unix x - slot_time net next in
  let behind := sat_sub (calculate_expected_height net (lk_unix x)) (lk_height x) in
  if (past <? 0) && (behind <? SYNC_THRESHOLD_BLOCKS) then st else count_attempts (lk_inst x) past behind next st.
(** The relaxation a validator grants at [unix]. *)
Definition granted (net : NetworkType) (next unix : Z) : Z := Z.min (Z.max (unix - slot_time net next) 0 / 30) 20.

Lemma behind_granted net x unix : 0 ≤ lk_height x → 10 < sat_sub (calculate_expected_height net (lk_unix x)) (lk_height x) → lk_unix x ≤ unix →
  granted net (lk_height x + 1) unix = 20.
Proof.
  unfold granted, slot_time, calculate_expected_height, sat_sub. intros H0' Hb Hu. destruct (Z.ltb_spec (lk_unix x) (genesis_timestamp net)) as [|Hg]; [lia|].
  change BLOCK_TIME_SECONDS with 600 in *. assert (lk_height x + 11 ≤ (lk_unix x - genesis_timestamp net) / 600) as Hh by lia.
  assert ((lk_height x + 11) * 600 ≤ lk_unix x - genesis_timestamp net) as Hm by (pose proof (Z.mul_div_le (lk_unix x - genesis_timestamp net) 600 ltac:(lia)); lia).
  assert (200 ≤ Z.max (unix - (genesis_timestamp net + (lk_height x + 1) * 600)) 0 / 30) by (apply Z.div_le_lower_bound; lia). lia.
Qed.
Lemma granted_mono net next u u' : u ≤ u' → granted net next u ≤ granted net next u'.
Proof. intros Hu. unfold granted. apply Z.min_le_compat_r, Z.div_le_mono; lia. Qed.
Lemma granted_nonneg net next u : 0 ≤ granted net next u.
Proof. unfold granted. assert (0 ≤ Z.max (u - slot_time net next) 0 / 30) by (apply Z.div_pos; lia). lia. Qed.

Definition attempts_ok (net : NetworkType) (u : Z) (st : LeaderState) : Prop :=
  ∀ next, waiting_for_height st = Some next → Z.min (leader_attempt st) 20 ≤ granted net next u.
Lemma look_ok net st x u : attempts_ok net u st → 0 ≤ lk_height x → u ≤ lk_unix x → attempts_ok net (lk_unix x) (look_step net st x).
Proof.
  intros Hok H0' Hu. assert (attempts_ok net (lk_unix x) st) as Hok'.
  { intros n Hn. etrans; [by apply Hok|by apply granted_mono]. }
  unfold look_step. cbv zeta. destruct (_ && _); [done|]. unfold count_attempts. set (past := lk_unix x - slot_time net (lk_height x + 1)).
  set (behind := sat_sub _ _). set (st1 := if bool_decide _ then st else _).
  assert (waiting_for_height st1 = Some (lk_height x + 1)) as Hw by (unfold st1; by case_bool_decide).
  assert (10 < behind → granted net (lk_height x + 1) (lk_unix x) = 20) as Hb by (intros Hb; by apply (behind_granted net x)).
  assert (Z.min (leader_attempt st1) 20 ≤ granted net (lk_height x + 1) (lk_unix x)) as Hst1.
  { unfold st1. case_bool_decide as E; [by apply Hok'|]. cbn [leader_attempt]. pose proof (granted_nonneg net (lk_height x + 1) (lk_unix x)).
    destruct (Z.ltb_spec 50 behind); [rewrite Hb; lia|]. destruct (Z.ltb_spec 10 behind); [rewrite Hb; lia|lia]. }
  clearbody st1. set (elapsed := Z.min _ _).
  assert (∀ st', waiting_for_height st' = waiting_for_height st1 → Z.min (leader_attempt st') 20 ≤ granted net (lk_height x + 1) (lk_unix x) → attempts_ok net (lk_unix x) st') as Hfin.
  { intros st' E Ha n Hn. rewrite E, Hw in Hn. by injection Hn as <-. }
  destruct (_ <? _); apply Hfin; try done. cbn [leader_attempt].
  destruct (Z.ltb_spec 50 behind); [rewrite Hb by lia; lia|]. unfold granted, LEADER_TIMEOUT_SECS. fold past.
  apply Z.min_le_compat_r, Z.div_le_mono; unfold elapsed; lia.
Qed.
Definition looks_ordered (u : Z) (xs : list look) : Prop := ∀ i x, xs !! i = Some x → (u ≤ lk_unix x ∧ 0 ≤ lk_height x) ∧ ∀ j y, (j ≤ i)%nat → xs !! j = Some y → lk_unix y ≤ lk_unix x.
Lemma looks_ok net xs x st u : looks_ordered u (xs ++ [x]) → attempts_ok net u st →
  attempts_ok net (lk_unix x) (foldl (look_step net) st (xs ++ [x])).
Proof.
  revert st u. induction xs as [|y xs IH]; intros st u Ho Hok; cbn [app foldl].
  - by apply (look_ok net st x u Hok); apply (Ho 0%nat x eq_refl).
  - apply IH with (u := lk_unix y).
    + intros i z Hz. destruct (Ho (Datatypes.S i) z Hz) as [H1' H2']. split; [split; [by apply (H2' 0%nat y ltac:(lia))|apply H1']|].
      intros j w Hj Hw. apply (H2' (Datatypes.S j) w); [lia|done].
    + by apply (look_ok net st y u Hok); apply (Ho 0%nat y eq_refl).
Qed.

(** ** Thresholds *)

Lemma eligible_more score w w' t t' : 0 ≤ w → 0 < t' → t' ≤ t → w ≤ w' ∨ t' ≤ w' → 0 ≤ score →
  vrf_check_proposer_eligible score w t = true → vrf_check_proposer_eligible score w' t' = true.
Proof.
  intros Hw Ht Htt Hww Hs. unfold vrf_check_proposer_eligible.
  destruct (Z.eqb_spec t 0) as [|Hne]; [done|]. destruct (Z.eqb_spec w 0) as [|Hw0]; [done|]. cbn [orb]. intros He%Z.ltb_lt.
  destruct (Z.eqb_spec t' 0); [lia|]. destruct (Z.eqb_spec w' 0); [lia|]. cbn [orb]. apply Z.ltb_lt. rewrite !Z.mul_1_r in *.
  eapply Z.lt_le_trans; [exact He|]. destruct Hww as [Hle|Hle].
  - apply Z.min_le_compat_r. etrans; [apply Z.div_le_compat_l; [|split; [exact Ht|exact Htt]]; unfold U64; nia|]. apply Z.div_le_mono; [done|]. unfold U64. nia.
  - assert (U64 - 1 ≤ w' * (U64 - 1) / t') by (apply Z.div_le_lower_bound; [done|]; unfold U64; nia). lia.
Qed.

Section agree.
Context {S : Type} `{UtxoStorage S} `{MapIter} `{Externals} `{BlockExternals} `{!BlockCodec} `{LegacyCodec} `{Zstd} `{LruCrate}.
Context `{TxExternals} `{PoolCodec} `{VrfExternals} `{GovCodec}.
Implicit Types c : Blockchain (S := S).

Definition validator_total c (height : Z) : Z :=
  sum64 ((λ e : Masternode * string, vrf_weight (tier e.1) (fairness_bonus (registry c) (mn_address e.1))) <$> get_vrf_eligible (registry c) (bc_network c) height).
Lemma vrf_weight_bound t x : 0 ≤ vrf_weight t x < U64.
Proof.
  unfold vrf_weight. cbv zeta. pose proof (Z.mod_pos_bound (sampling_weight t + x) U64 ltac:(done)) as Hb. fold (add64 (sampling_weight t) x) in Hb.
  case_bool_decide; [|done]. unfold U64 in *. cbn [sampling_weight]. lia.
Qed.

(** C17: Proposers and validators agree on who may propose: whatever the height and however
    long it has waited, a node that selects itself, with the attempts its loop has counted
    over any sequence of looks at its clocks, passes the score check of every validator with
    the same registry whose clock is not behind, when the nodes the validator counts weigh
    no more than the proposer's lottery. *)
Theorem self_selection_accepted c net xs x st0 u0 our mns i b unix :
  attempts_ok net u0 st0 → looks_ordered u0 (xs ++ [x]) →
  let attempt := leader_attempt (foldl (look_step net) st0 (xs ++ [x])) in
  waiting_for_height (foldl (look_step net) st0 (xs ++ [x])) = Some (bh_height (header b)) →
  self_selected (registry c) attempt (vrf_score (header b)) our mns = true →
  bc_network c = net → lk_unix x ≤ unix → 0 ≤ vrf_score (header b) →
  leader (header b) = mn_address our → tier (masternode i) = tier our →
  validator_total c (bh_height (header b)) ≤ lottery_total (registry c) mns →
  check_score unix c b i = Ok tt.
Proof.
  intros Hok Ho. cbv zeta. intros Hw Hsel Hnet Hu Hs Hl Ht Htot.
  pose proof (looks_ok net xs x st0 u0 Ho Hok _ Hw) as Ha. set (attempt := leader_attempt _) in *. clearbody attempt.
  unfold check_score. cbv zeta. rewrite Hl, Ht. fold (validator_total c (bh_height (header b))). set (tv := validator_total c _) in *.
  set (w := vrf_weight (tier our) (fairness_bonus (registry c) (mn_address our))).
  assert (0 ≤ w < U64) as Hwb by apply vrf_weight_bound. destruct (Z.ltb_spec 0 tv) as [Htv|]; [|done]. cbn [negb orb].
  unfold self_selected in Hsel. cbv zeta in Hsel. set (tp := lottery_total (registry c) mns) in *. unfold effective_weight in Hsel. cbv zeta in Hsel. fold w in Hsel.
  destruct (vrf_check_proposer_eligible (vrf_score (header b)) w tv) eqn:Ev; [done|]. cbn [orb]. rewrite Hnet. fold (slot_time net (bh_height (header b))).
  destruct (negb (_ =? _)); [done|]. fold (granted net (bh_height (header b)) unix).
  destruct ((0 <? attempt) && _) eqn:Eb.
  2: { rewrite (eligible_more _ w w tp tv) in Ev; [done|lia|done|done|by left|done|done]. }
  apply andb_prop in Eb as [Hat%Z.ltb_lt _]. pose proof (granted_mono net (bh_height (header b)) _ _ Hu) as Hg. set (a' := granted net _ unix) in *.
  destruct (Z.ltb_spec 0 a'); [|lia]. 
  assert (vrf_check_proposer_eligible (vrf_score (header b)) (Z.min (sat_mul w (Z.shiftl 1 a')) tv) tv = true) as ->; [|done].
  eapply (eligible_more _ _ _ tp tv); [| | | | |exact Hsel]; try done.
  - rewrite Z.shiftl_1_l. unfold sat_mul, U64. assert (0 ≤ w * 2 ^ Z.min attempt 20) by (apply Z.mul_nonneg_nonneg; [lia|apply Z.pow_nonneg; lia]). lia.
  - rewrite !Z.shiftl_1_l. assert (2 ^ Z.min attempt 20 ≤ 2 ^ a') by (apply Z.pow_le_mono_r; lia).
    assert (w * 2 ^ Z.min attempt 20 ≤ w * 2 ^ a') by nia. unfold sat_mul. lia.
Qed.
End agree.
