(* ===== verification/RoundSamples.v ===== *)
(** * Block agreement on concrete rounds

    Witnesses of the theorems on block agreement, and rounds in which the code departs from
    its comments. *)

From Stdlib Require Import ZArith Lia Ascii String.
From stdpp Require Import base gmap strings list pretty.
From S2P Require Import Prelude Types Instances Address Finality Storage UtxoManager UtxoProofs TransactionPool BlockVotes TimeVoteEngine.
From S2P Require Import Lru BlockTypes BlockVrf BlockCache BlockLedger Governance GovernancePersist Registry RegistryProofs Reward Utf8 Genesis TxValidation TxProofs PoolProofs Consensus ConsensusProofs.
From S2P Require Import Chain ChainApply ChainProofs ChainLedger ChainSamples ForkChoice Reorg ReorgProofs ReorgSamples BanList NetGuards IpText Production BlockRound Leader BlockRoundProofs LeaderProofs.

Section round_samples.
#[local] Existing Instance tagged_externals.
#[local] Existing Instance canonical_iter.
#[local] Existing Instance sample_tx_externals.
#[local] Existing Instance model_pool_codec.
#[local] Existing Instance model_vrf.
#[local] Existing Instance model_gov_codec.
#[local] Existing Instance model_zstd.
#[local] Existing Instance list_lru.
#[local] Existing Instance no_legacy.

(** A block of the leader 1.1.1.1 with a given score, without a proof. *)
Definition scored_block (salt score : Z) : Block :=
  let txs := [sample_coinbase 1 SUBSIDY; sample_dist 1 SUBSIDY 0] in
  mkBlock (mkHeader salt 1 (block_digest testnet_genesis) (calculate_merkle_root txs) 1800000000 SUBSIDY "1.1.1.1" [] (mkTierCounts 0 0 0 0) [] [] score [] None [] 0 0)
    txs [("w"%string, SUBSIDY)] [] [] None.
Definition honest : Block := scored_block 1 1000.
Definition forged : Block := scored_block 2 1.
Definition round_table : list Block := [testnet_genesis; honest; forged].
#[local] Instance round_ext : BlockExternals := table_externals round_table.
#[local] Instance round_codec : BlockCodec := table_codec round_table.

Definition r_registry : MasternodeRegistry :=
  set_nodes {["1.1.1.1"%string := w_node "1.1.1.1" "a" Bronze; "2.2.2.2"%string := w_node "2.2.2.2" "b" Free;
              "3.3.3.3"%string := w_node "3.3.3.3" "c" Free]} (registry_new None 0).
Definition r_boot : Blockchain * result chain_error () :=
  store_hardcoded_genesis (blockchain_new Testnet ∅ ∅ ∅ None None ∅ ∅ chain_engine r_registry).
Definition r_start (own : string) : RoundNode (S := gmap OutPoint UTXO) :=
  mkRound (new_node r_boot.1) (mkBlockVoting acc_new acc_new ∅ 0) true (Some (vc_new 10 None)) None None (Some []) (Some own) ∅.
Definition r_now : Clock := mkClock 0 SAMPLE_NOW 0.
Definition r_conn : Conn := conn_new 0 "9.9.9.9".
Definition r_sig : bytes := replicate 64 0.
Definition r_height (s : RoundNode (S := gmap OutPoint UTXO)) : Z := current_height (rn_chain s).

(** ** Witnesses *)

Definition r_history : list (round_op (S := gmap OutPoint UTXO)) :=
  [RProposal r_now r_conn honest; RPrecommit r_now [] r_conn (hash honest) "1.1.1.1" r_sig].
#[local] Abbreviation r_last := (RPrecommit r_now [] r_conn (hash honest) "3.3.3.3" r_sig).
Lemma r_added : r_height (round_run (r_start "2.2.2.2") r_history) = 0
  ∧ r_height (round_exec (round_run (r_start "2.2.2.2") r_history) r_last) = 1.
Proof. by vm_compute. Qed.
Lemma r_changed : rn_node (round_exec (round_run (r_start "2.2.2.2") r_history) r_last) ≠ rn_node (round_run (r_start "2.2.2.2") r_history).
Proof. intros E. destruct r_added as [E1 E2]. unfold r_height, rn_chain in E1, E2. rewrite E, E1 in E2. discriminate. Qed.
Lemma r_fresh : fresh (r_start "2.2.2.2").
Proof. split; [reflexivity|]. intros k h [= <-]. apply lru_peek_new. Qed.
Lemma agreed_block_backed_witness :
  ∃ b (l : list (string * bytes * Z)), r_height (round_run (r_start "2.2.2.2") r_history) < bh_height (header b)
  ∧ hash b = hash honest ∧ NoDup (block_inputs b) ∧ (2 ≤ length l)%nat
  ∧ ∀ v, v ∈ l → own_name (Some "2.2.2.2"%string) (voter_of v) ∨ occurs (r_start "2.2.2.2") (r_history ++ [r_last]) (cast_precommit (hash honest) v).
Proof.
  destruct (agreed_block_backed (r_start "2.2.2.2") r_history r_now [] r_conn (hash honest) "3.3.3.3" r_sig r_fresh r_changed)
    as (b & l & Ht & _ & Hh & Hp & _ & Hl & _ & Hv). exists b, l. split; [exact Ht|]. split; [exact Hh|]. split; [|exact (conj Hl Hv)].
  destruct Hp as [(pre & o & post & Eo & now' & Hl')|(_ & _ & Hn & _)]; [|exact Hn]. exfalso. subst o.
  apply (f_equal (λ l, existsb (λ o, match o with RLead _ _ => true | _ => false end) l)) in Eo. rewrite existsb_app in Eo. cbn in Eo. by rewrite orb_true_r in Eo.
Defined.

(** The node at 1.1.1.1 watches height 1 for a hundred seconds. *)
Definition r_slot : Z := slot_time Testnet 1.
Definition r_looks : list look := [mkLook 0 r_slot 0].
Definition r_look : look := mkLook (100 * NANOS) (r_slot + 100) 0.
Definition r_mns : list Masternode := masternode <$> [w_node "1.1.1.1" "a" Bronze; w_node "2.2.2.2" "b" Free; w_node "3.3.3.3" "c" Free].
Lemma r_attempts : foldl (look_step Testnet) (leader_new 0) (r_looks ++ [r_look]) = mkLeader (Some 1) 3 0.
Proof. by vm_compute. Qed.
Lemma r_ordered : looks_ordered r_slot (r_looks ++ [r_look]).
Proof.
  intros [|[|i]] x Hx; cbn in Hx; [| |done]; injection Hx as <-; (split; [by vm_compute|]).
  - intros [|j] y Hj Hy; [|lia]. by injection Hy as <-.
  - intros [|[|j]] y Hj Hy; [| |lia]; injection Hy as <-; by vm_compute.
Qed.
Lemma self_selection_accepted_witness : check_score (r_slot + 160) r_boot.1 honest (w_node "1.1.1.1" "a" Bronze) = Ok tt.
Proof.
  apply (self_selection_accepted r_boot.1 Testnet r_looks r_look (leader_new 0) r_slot (masternode (w_node "1.1.1.1" "a" Bronze)) r_mns
    (w_node "1.1.1.1" "a" Bronze) honest (r_slot + 160)).
  - intros next Hn. by vm_compute in Hn.
  - exact r_ordered.
  - rewrite r_attempts. reflexivity.
  - rewrite r_attempts. by vm_compute.
  - by vm_compute.
  - by vm_compute.
  - by vm_compute.
  - reflexivity.
  - reflexivity.
  - by vm_compute.
Defined.

(** ** Rounds that depart from the comments *)

(** A block without a VRF proof is voted on whatever its score says: naming the score 1, it
    takes over the vote for the block that was proposed before. *)
Theorem forged_score_wins :
  let s1 := round_exec (r_start "2.2.2.2") (RProposal r_now r_conn honest) in
  let s2 := round_exec s1 (RProposal r_now r_conn forged) in
  vrf_proof (header forged) = []
  ∧ get_voters (prepare_votes (rn_voting s1)) (hash honest) = ["2.2.2.2"%string]
  ∧ get_voters (prepare_votes (rn_voting s2)) (hash honest) = [] ∧ get_voters (prepare_votes (rn_voting s2)) (hash forged) = ["2.2.2.2"%string].
Proof. by vm_compute. Qed.

(** The weight of a paid leader's own vote is above the minimum that is to show the vote of
    somebody else: its block is added after the timeout although nobody has confirmed it. *)
Theorem paid_leader_alone :
  let s := round_exec (r_start "1.1.1.1") (RLead r_now honest) in
  get_voters (prepare_votes (rn_voting s)) (hash honest) = ["1.1.1.1"%string]
  ∧ r_height (round_exec s (RLeadTimeout r_now 50 0 0 honest)) = 1.
Proof. by vm_compute. Qed.

(** The producer counts the nodes of its own lottery, the validator every counting node: a
    node that selected itself among fewer nodes is refused. *)
Theorem smaller_lottery_refused :
  let our := masternode (w_node "1.1.1.1" "a" Free) in
  let r := set_nodes {["1.1.1.1"%string := w_node "1.1.1.1" "a" Free; "2.2.2.2"%string := w_node "2.2.2.2" "b" Free;
              "3.3.3.3"%string := w_node "3.3.3.3" "c" Free; "4.4.4.4"%string := w_node "4.4.4.4" "d" Gold]} (registry_new None 0) in
  let c := set_registry r r_boot.1 in
  let b := scored_block 1 (2 ^ 62) in
  self_selected r 0 (vrf_score (header b)) our (our :: (masternode <$> [w_node "2.2.2.2" "b" Free; w_node "3.3.3.3" "c" Free])) = true
  ∧ check_score (r_slot + 1) c b (w_node "1.1.1.1" "a" Free) = Err (ScoreTooHigh "1.1.1.1").
Proof. by vm_compute. Qed.
End round_samples.
