(* ===== verification/Maintenance.v ===== *)
(** * Upkeep of the consensus engine (src/consensus.rs)

    What runs at start-up and on timers over the pool and the UTXO manager: eviction of
    finalized transactions whose inputs do not exist, repair of unfinished spends, the purge
    of banned transactions, the retry of stuck pending transactions, eviction of stale ones,
    and batches of submissions.  The text of a validation error as a rejection reason is
    left out. *)

From Stdlib Require Import ZArith Lia Ascii String.
From stdpp Require Import base gmap strings list.
From S2P Require Import Prelude Types Instances Address Finality Storage UtxoManager TransactionPool BlockVotes.
From S2P Require Import BlockTypes TimeVoteEngine Utf8 AiValidator BlockVrf TxValidation Consensus.

Section upkeep.
Context {S : Type} `{UtxoStorage S} `{MapIter} `{Externals} `{BlockExternals} `{TxExternals} `{PoolCodec} `{VrfExternals}.
Implicit Types (e : ConsensusEngine S) (m : UTXOStateManager S).

Definition rebroadcast_transaction e (t : Hash256) : ConsensusEngine S * bool :=
  match get_transaction (tx_pool e) t with
  | None => (e, false)
  | Some tx =>
      if negb (is_finalized (tx_pool e) t) then (e, false)
      else if broadcast_callback e then (broadcast (MsgTransactionFinalized t tx) e, true) else (e, false)
  end.

(** ** Phantom transactions *)

Definition is_held (st : option UTXOState) : bool :=
  match st with Some (SpentFinalized _ _ _) | Some (SpentPending _ _ _ _) | Some (Locked _ _) => true | _ => false end.
(** Back to [Unspent], whoever holds the output, unless it is a collateral. *)
Definition restore_held m (o : OutPoint) : UTXOStateManager S * bool :=
  if is_collateral_locked m o then (m, false)
  else if is_held (get_state m o) then (update_state m o Unspent, true) else (m, false).
Definition drop_output m (o : OutPoint) : UTXOStateManager S * bool :=
  match get_state m o with
  | None => (m, false)
  | Some _ => match remove_utxo m o with (m, Ok _) => (m, true) | (m, Err _) => (m, false) end
  end.
(** One pass over a list, with whether anything was done. *)
Definition pass_over {A} (f : UTXOStateManager S → A → UTXOStateManager S * bool) (l : list A) (acc : UTXOStateManager S * bool)
    : UTXOStateManager S * bool :=
  foldl (λ acc x, let '(m, d) := f acc.1 x in (m, acc.2 || d)) acc l.
Definition output_points (t : Hash256) (tx : Transaction) : list OutPoint :=
  (λ i, mkOutPoint t (as_u32 (Z.of_nat i))) <$> seq 0 (length (outputs tx)).

Definition input_missing m (i : TxInput) : bool :=
  is_err (get_utxo m (previous_output i)) && negb (is_tombstoned m (previous_output i)).
Definition existing_inputs m (tx : Transaction) : list OutPoint :=
  filter (λ o, is_ok (get_utxo m o) = true) (previous_output <$> inputs tx).
Definition evict_missing_step (acc : ConsensusEngine S * Z) (tx : Transaction) : ConsensusEngine S * Z :=
  let '(e, n) := acc in
  let t := txid tx in
  let m := utxo_manager e in
  if negb (existsb (input_missing m) (inputs tx)) then (e, n)
  else
    let m := (pass_over restore_held (existing_inputs m tx) (m, false)).1 in
    let m := (pass_over drop_output (output_points t tx) (m, false)).1 in
    (set_pool (drop_banned (tx_pool e) t).1 (set_utxo m e), n + 1).
Definition evict_finalized_with_missing_inputs e : ConsensusEngine S * Z :=
  foldl evict_missing_step (e, 0) (get_finalized_transactions_with_fees (tx_pool e)).*1.

Definition tombstone_input (now : Clock) (t : Hash256) (acc : UTXOStateManager S * Z) (i : TxInput) : UTXOStateManager S * Z :=
  let '(m, n) := acc in
  if is_tombstoned m (previous_output i) then (m, n)
  else if is_ok (get_utxo m (previous_output i))
       then (mark_timevote_finalized (c_unix now) m (previous_output i) t, n + 1) else (m, n).
Definition tombstone_confirmed_inputs_on_startup (now : Clock) e : ConsensusEngine S * Z :=
  let '(m, n) := foldl (λ acc en, foldl (tombstone_input now (txid en.1)) acc (inputs en.1)) (utxo_manager e, 0)
                   (get_finalized_transactions_with_fees (tx_pool e)) in
  (set_utxo m e, n).

Definition purge_record (acc : ConsensusEngine S * Z) (r : Hash256 * list OutPoint * list OutPoint * string) : ConsensusEngine S * Z :=
  let '(e, n) := acc in
  let '(t, real, phantom, _) := r in
  let '(m, d) := pass_over drop_output phantom (pass_over restore_held real (utxo_manager e, false)) in
  let '(p, dropped) := drop_banned (tx_pool e) t in
  (set_pool p (set_utxo m e), if d || dropped then n + 1 else n).
Definition purge_banned_transactions e : ConsensusEngine S * Z := foldl purge_record (e, 0) iter_records.

(** ** Stuck pending transactions *)

(** Higher fee first, then older first. *)
Definition retry_leb (a b : PoolEntry) : bool :=
  (pe_fee b <? pe_fee a) || ((pe_fee a =? pe_fee b) && (added_at a <=? added_at b)).
Definition relock_input (now : Clock) (t : Hash256) m (i : TxInput) : UTXOStateManager S :=
  match get_state m (previous_output i) with
  | Some Unspent | None => (lock_utxo (c_unix now) m (previous_output i) t).1
  | _ => m
  end.
Definition external_conflict e (tx : Transaction) (t : Hash256) : bool :=
  existsb (λ i, held_by_other (utxo_manager e) t (previous_output i)) (inputs tx)
  || has_conflicting_confirmed (tx_pool e) (inputs tx) t.

(** Conflicting pending transactions have lost, since the one with the higher fee comes first. *)
Definition reject_competitors (now : Clock) (tx : Transaction) (t : Hash256) e : ConsensusEngine S * Z :=
  foldl (λ acc c, (reject_failed_voting_transaction now c.1 "Superseded by higher-priority pending transaction" acc.1, acc.2 + 1))
    (e, 0) (get_conflicting_pending (tx_pool e) (inputs tx) t).
Definition recover_pending (now : Clock) (tx : Transaction) (t : Hash256) e : ConsensusEngine S * Z :=
  match confirm_transaction (tx_pool e) t with
  | (p, false) => (set_pool p e, 0)
  | (p, true) =>
      let e := set_pool p e in
      let e := set_utxo (apply_finalized now t tx (utxo_manager e)) e in
      (mark_finalized now t 0 (broadcast (MsgTransactionFinalized t tx) e), 1)
  end.
Definition retry_one (now : Clock) (acc : ConsensusEngine S * (Z * Z)) (pe : PoolEntry) : ConsensusEngine S * (Z * Z) :=
  let '(e, (fin, rej)) := acc in
  let tx := pe_tx pe in
  let t := txid tx in
  if negb (is_pending (tx_pool e) t) then acc
  else if inputs_already_spent_by_other (utxo_manager e) (inputs tx) t
  then (reject_failed_voting_transaction now t "Inputs already spent by another transaction" e, (fin, rej + 1))
  else
    let e := set_utxo (foldl (relock_input now t) (utxo_manager e) (inputs tx)) e in
    match validate_locks now tx t e with
    | (e, Err _) => (reject_failed_voting_transaction now t "Re-validation failed" e, (fin, rej + 1))
    | (e, Ok fee) =>
        let e := if (pe_fee pe =? 0) && (0 <? fee) then set_pool (update_pending_fee (tx_pool e) t fee).1 e else e in
        if external_conflict e tx t then (e, (fin, rej))
        else
          let '(e, lost) := reject_competitors now tx t e in
          let '(e, n) := recover_pending now tx t e in
          (e, (fin + n, rej + lost))
    end.
Definition retry_stuck_pending_transactions (now : Clock) e : ConsensusEngine S * (Z * Z) :=
  foldl (retry_one now) (e, (0, 0)) (sort_by retry_leb (iter (pending (tx_pool e))).*2).

(** ** Stale pending transactions *)

Definition reserved_by (t : Hash256) (st : option UTXOState) : bool :=
  match st with
  | Some (Locked t' _) | Some (SpentPending t' _ _ _) => bool_decide (t' = t)
  | _ => false
  end.
Definition release_input (t : Hash256) m (i : TxInput) : UTXOStateManager S :=
  if is_collateral_locked m (previous_output i) then m
  else if reserved_by t (get_state m (previous_output i)) then update_state m (previous_output i) Unspent else m.
Definition forget_tx (t : Hash256) e : ConsensusEngine S :=
  let e := set_timevote (cleanup_one (timevote e) t) e in
  let f := fallback e in
  set_fallback (set_proposals (delete t (fallback_votes f)) (filter (λ en : Hash256 * Hash256, en.2 ≠ t) (proposal_to_tx f)) f) e.
Definition evict_stale_one (now : Clock) e (tx : Transaction) : ConsensusEngine S :=
  let t := txid tx in
  let e := set_utxo (foldl (release_input t) (utxo_manager e) (inputs tx)) e in
  forget_tx t (transition_to_rejected now t "Pending transaction evicted after exceeding stale age" e).
Definition evict_stale_pending_transactions (now : Clock) (max_age : Z) e : ConsensusEngine S * nat :=
  let '(p, evicted) := cleanup_stale_pending (c_instant now) (tx_pool e) max_age in
  (foldl (evict_stale_one now) (set_pool p e) evicted, length evicted).

(** ** Batches *)

(** The submissions run in some order; results come back in the order of the batch. *)
Definition batch_submit_transactions (now : Clock) (mns : list MasternodeInfo) (order : list nat) (txs : list Transaction) e
    : ConsensusEngine S * gmap nat (result engine_error Hash256) :=
  foldl (λ acc i, match txs !! i with
                  | Some tx => let '(e, r) := submit_transaction now mns tx acc.1 in (e, <[i := r]> acc.2)
                  | None => acc
                  end) (e, ∅) order.
End upkeep.

(** The first group whose inputs the transaction does not touch. *)
Fixpoint place_tx (tx : Transaction) (groups : list (list Transaction * gset OutPoint)) : list (list Transaction * gset OutPoint) :=
  let ins : gset OutPoint := list_to_set (previous_output <$> inputs tx) in
  match groups with
  | [] => [([tx], ins)]
  | (g, s) :: groups =>
      if bool_decide (s ## ins) then (g ++ [tx], s ∪ ins) :: groups else (g, s) :: place_tx tx groups
  end.
Definition partition_non_conflicting (txs : list Transaction) : list (list Transaction) :=
  (foldl (λ gs tx, place_tx tx gs) [] txs).*1.
