(* ===== verification/EngineSteps.v ===== *)
(** * The engine, step by step

    Every operation of the consensus engine on the UTXO manager, the pool and the votes is
    a sequence of operations of those components ([engine_steps]): what they preserve, the
    engine preserves. *)

From Stdlib Require Import ZArith Lia Ascii String.
From stdpp Require Import base gmap strings list relations.
From S2P Require Import Prelude Types Instances Address Finality Storage UtxoManager TransactionPool BlockVotes.
From S2P Require Import UtxoProofs UtxoTheorems PoolProofs BlockTypes BlockVrf Utf8 TxValidation TimeVoteEngine Consensus Maintenance.

(** ** Components step by step *)

Section steps.
Context {S : Type} `{UtxoStorage S} `{MapIter} `{Externals} `{PoolCodec}.
Implicit Types m : UTXOStateManager S.

(** Operations that give no spent output back. *)
Definition gentle (p : op) : Prop := ∀ o, ¬ lifts_tombstone o p.
Definition utxo_step m m' : Prop := ∃ p, gentle p ∧ m' = exec m p.
Definition utxo_steps : relation (UTXOStateManager S) := rtc utxo_step.
Definition pool_steps : relation TransactionPool := rtc (λ p p', ∃ o, p' = pool_exec p o).
(** A vote arrives, the votes on a transaction are dropped, or something else changes;
    [arrives] holds of the votes that arrive and the active nodes they are counted with. *)
Context (arrives : list MasternodeInfo → TimeVote → Prop).
Inductive vote_step (c c' : TimeVoteConsensus) : Prop :=
| vs_vote mns v : arrives mns v → u64_ok (voter_weight v) → c' = (accumulate_timevote mns c v).1 → vote_step c c'
| vs_clear t : timeproof_votes c' = delete t (timeproof_votes c) → accumulated_weight c' = delete t (accumulated_weight c) → vote_step c c'
| vs_other : timeproof_votes c' = timeproof_votes c → accumulated_weight c' = accumulated_weight c → vote_step c c'.
Definition vote_steps : relation TimeVoteConsensus := rtc vote_step.

#[export] Instance utxo_steps_preorder : PreOrder utxo_steps.
Proof. split; unfold utxo_steps; apply _. Qed.
#[export] Instance pool_steps_preorder : PreOrder pool_steps.
Proof. split; unfold pool_steps; apply _. Qed.
#[export] Instance vote_steps_preorder : PreOrder vote_steps.
Proof. split; unfold vote_steps; apply _. Qed.

Lemma utxo_exec m p : gentle p → utxo_steps m (exec m p).
Proof. intros Hp. apply rtc_once. exists p. split; [exact Hp|reflexivity]. Qed.
Lemma utxo_fold {A} (f : UTXOStateManager S → A → UTXOStateManager S) l m :
  (∀ m x, utxo_steps m (f m x)) → utxo_steps m (foldl f m l).
Proof. intros Hf. apply (foldl_preserve f (utxo_steps m)); [|reflexivity]. intros m' x Hm. etrans; [exact Hm|apply Hf]. Qed.
Lemma pool_exec_step p o : pool_steps p (pool_exec p o).
Proof. apply rtc_once. by exists o. Qed.

Lemma steps_add m u : utxo_steps m (add_utxo m u).1.
Proof. apply (utxo_exec m (OpAdd u)). intros ? []. Qed.
Lemma steps_update m o st : utxo_steps m (update_state m o st).
Proof. apply (utxo_exec m (OpUpdate o st)). intros ? []. Qed.
Lemma steps_lock now m o t : utxo_steps m (lock_utxo now m o t).1.
Proof. apply (utxo_exec m (OpLock now o t)). intros ? []. Qed.
Lemma steps_mark now m o t : utxo_steps m (mark_timevote_finalized now m o t).
Proof. apply (utxo_exec m (OpFinalize now o t)). intros ? []. Qed.
Lemma steps_pubkey m a pk : utxo_steps m (register_pubkey m a pk).
Proof. apply (utxo_exec m (OpPubkey a pk)). intros ? []. Qed.
Lemma steps_reconcile m rem add : utxo_steps m (reconcile_utxo_state m rem add).
Proof. apply (utxo_exec m (OpReconcile rem add)). intros ? []. Qed.
Lemma steps_apply m l : utxo_steps m (apply_state_updates m l).
Proof. apply (utxo_exec m (OpApply l)). intros ? []. Qed.
Lemma pool_steps_inv p p' : pool_steps p p' → pool_inv p → pool_inv p'.
Proof. induction 1 as [|p1 p2 p3 [o ->] _ IH]; [done|]. intros Hi. by apply IH, pool_exec_inv. Qed.
Lemma steps_remove m o : utxo_steps m (remove_utxo m o).1.
Proof. apply (utxo_exec m (OpRemove o)). intros ? []. Qed.
End steps.

Create HintDb steps.
#[export] Hint Resolve steps_add steps_update steps_lock steps_mark steps_pubkey steps_reconcile steps_apply : steps.

Section engine.
Context {S : Type} `{UtxoStorage S} `{MapIter} `{Externals} `{BlockExternals} `{TxExternals} `{PoolCodec} `{VrfExternals}.
Context {arrives : list MasternodeInfo → TimeVote → Prop}.
Implicit Types (e : ConsensusEngine S) (m : UTXOStateManager S).

Record engine_steps e e' : Prop := mkEngineSteps {
  es_utxo : utxo_steps (utxo_manager e) (utxo_manager e');
  es_pool : pool_steps (tx_pool e) (tx_pool e');
  es_votes : vote_steps arrives (timevote e) (timevote e');
}.

#[export] Instance engine_steps_refl : Reflexive engine_steps.
Proof. by split. Qed.
#[export] Instance engine_steps_trans : Transitive engine_steps.
Proof. intros e1 e2 e3 [a b c] [a' b' c']. split; etrans; done. Qed.

Lemma es_set_utxo e m : utxo_steps (utxo_manager e) m → engine_steps e (set_utxo m e).
Proof. by split. Qed.
Lemma es_set_pool e p : pool_steps (tx_pool e) p → engine_steps e (set_pool p e).
Proof. by split. Qed.
Lemma es_set_votes e c : vote_steps arrives (timevote e) c → engine_steps e (set_timevote c e).
Proof. by split. Qed.
(** Nothing but the fallback, the proofs, the outbox and the like. *)
Lemma es_quiet e e' : utxo_manager e' = utxo_manager e → tx_pool e' = tx_pool e →
  timeproof_votes (timevote e') = timeproof_votes (timevote e) → accumulated_weight (timevote e') = accumulated_weight (timevote e) →
  engine_steps e e'.
Proof. intros E1 E2 E3 E4. split; [by rewrite E1|by rewrite E2|]. apply rtc_once. by apply vs_other. Qed.
Lemma es_quiet_after e e1 e2 : utxo_manager e2 = utxo_manager e1 → tx_pool e2 = tx_pool e1 →
  timeproof_votes (timevote e2) = timeproof_votes (timevote e1) → accumulated_weight (timevote e2) = accumulated_weight (timevote e1) →
  engine_steps e e1 → engine_steps e e2.
Proof. intros. etrans; [done|]. by apply es_quiet. Qed.
Lemma es_fold {A} (f : ConsensusEngine S → A → ConsensusEngine S) l e :
  (∀ e x, engine_steps e (f e x)) → engine_steps e (foldl f e l).
Proof. intros Hf. apply (foldl_preserve f (engine_steps e)); [|reflexivity]. intros e' x He. etrans; [exact He|apply Hf]. Qed.

(** *** Locking and validation *)

Lemma lock_inputs_steps now t ins m : utxo_steps m (lock_inputs now t ins m).1.
Proof.
  revert m. induction ins as [|i ins IH]; intros m; cbn; [done|].
  pose proof (steps_lock (c_unix now) m (previous_output i) t) as Hl.
  destruct (lock_utxo _ m _ t) as [m' [|]]; cbn in *; [by etrans|done].
Qed.
Lemma verify_signatures_steps m tx idx ins : utxo_steps m (verify_signatures m tx idx ins).1.
Proof.
  revert m idx. induction ins as [|i ins IH]; intros m idx; cbn; [done|]. case_bool_decide; [done|].
  unfold verify_input_signature. destruct (inputs tx !! idx) as [j|]; [|done].
  destruct (get_utxo m _) as [u|]; [|done]. destruct (check_signature _ _ _ _); [|done].
  etrans; [apply steps_pubkey|apply IH].
Qed.
Lemma validate_steps now ai sched m tx t : utxo_steps m (validate_transaction_with_locks now ai sched m tx t).1.2.
Proof.
  unfold validate_transaction_with_locks. destruct (run_ai now ai tx) as [ai' [|]]; [|done].
  destruct (MAX_TX_SIZE <? _); [done|]. destruct (check_special tx); [|done].
  destruct (is_masternode_reg tx || is_masternode_dereg tx); [done|]. unfold validate_values.
  destruct (inputs_finalized _ _ _ _) as [[|]|]; [done| |done].
  match goal with |- context [match ?x with Ok _ => _ | Err _ => _ end] => destruct x as [fee|] end; [|done].
  pose proof (verify_signatures_steps m tx 0 (inputs tx)) as Hv.
  destruct (verify_signatures m tx 0 (inputs tx)) as [m' [|]]; done.
Qed.
Lemma validate_locks_steps now tx t e : engine_steps e (validate_locks now tx t e).1.
Proof.
  unfold validate_locks. pose proof (validate_steps (c_unix now) (ai_validator e) (fee_schedule e) (utxo_manager e) tx t) as Hv.
  destruct (validate_transaction_with_locks _ _ _ _ _ _) as [[ai m] r]. cbn in *. by split.
Qed.
Lemma broadcasts_quiet {A} (f : A → NetMsg) l e : let e' := foldl (λ e x, broadcast (f x) e) e l in
  utxo_manager e' = utxo_manager e ∧ tx_pool e' = tx_pool e ∧ timevote e' = timevote e.
Proof.
  cbn. match goal with |- context [foldl ?g _ _] =>
    apply (foldl_preserve g (λ e', utxo_manager e' = utxo_manager e ∧ tx_pool e' = tx_pool e ∧ timevote e' = timevote e)) end; done.
Qed.
Lemma lock_and_validate_steps now tx e : engine_steps e (lock_and_validate_transaction now tx e).1.
Proof.
  unfold lock_and_validate_transaction. pose proof (lock_inputs_steps now (txid tx) (inputs tx) (utxo_manager e)) as Hl.
  destruct (lock_inputs _ _ _ _) as [m [|]]; cbn in *; [|by apply es_set_utxo].
  pose proof (validate_locks_steps now tx (txid tx) (set_utxo m e)) as Hv.
  destruct (validate_locks _ _ _ _) as [e' [|]]; cbn in *.
  - etrans; [by apply es_set_utxo|]. etrans; [done|].
    destruct (broadcasts_quiet (λ i, MsgUTXOStateUpdate (previous_output i) (Locked (txid tx) (c_unix now))) (inputs tx) e') as (E1 & E2 & E3).
    apply es_quiet; [done|done|by rewrite E3..].
  - etrans; [by apply es_set_utxo|]. etrans; [done|]. apply es_set_utxo, utxo_fold. auto with steps.
Qed.
Lemma unlock_steps tx t e : engine_steps e (unlock_transaction_inputs tx t e).
Proof.
  apply es_set_utxo, utxo_fold. intros m i. unfold unlock_input. destruct (get_state _ _) as [[| | | |]|]; try done.
  case_bool_decide; [apply steps_update|done].
Qed.

(** *** Finalization *)

Lemma create_outputs_steps t idx outs m : utxo_steps m (create_outputs t idx outs m).
Proof.
  revert idx m. induction outs as [|o outs IH]; intros idx m; cbn; [done|].
  etrans; [|apply IH]. etrans; [apply steps_add|apply steps_update].
Qed.
Lemma spend_inputs_steps now t ins m : utxo_steps m (spend_inputs now t ins m).
Proof. apply utxo_fold. auto with steps. Qed.
Lemma apply_finalized_steps now t tx m : utxo_steps m (apply_finalized now t tx m).
Proof. etrans; [apply spend_inputs_steps|apply create_outputs_steps]. Qed.

Lemma pool_add now p tx fee : pool_steps p (add_pending now p tx fee).1.
Proof. apply (pool_exec_step p (PAdd now tx fee None)). Qed.
Lemma pool_confirm p t : pool_steps p (confirm_transaction p t).1.
Proof. apply (pool_exec_step p (PConfirm t)). Qed.
Lemma pool_reject now p t r : pool_steps p (reject_transaction now p t r).
Proof. apply (pool_exec_step p (PReject now t r)). Qed.

Lemma process_steps now mns tx fee e : engine_steps e (process_transaction now mns tx fee e).1.
Proof.
  unfold process_transaction. destruct (process_checks mns tx e); [|done].
  pose proof (pool_add (c_instant now) (tx_pool e) tx (process_fee e tx fee)) as Ha.
  destruct (add_pending _ _ _ _) as [p [|]]; cbn in *; [|by apply es_set_pool].
  destruct (has_double_spend_conflict _ _ _ _); cbn.
  - etrans; [by apply es_set_pool|]. unfold start_vote, transition_to_voting. cbn.
    destruct (get_pending p (txid tx)) as [tx'|]; cbn.
    + split; cbn; [apply utxo_fold; auto with steps|done|]. apply rtc_once. by apply vs_other.
    + by apply es_quiet.
  - etrans; [by apply es_set_pool|]. unfold auto_finalize, mark_finalized. cbn.
    set (p' := (confirm_transaction p (txid tx)).1).
    etrans; [apply (es_set_pool _ p'), pool_confirm|]. destruct (is_finalized p' (txid tx)); [|by apply es_quiet].
    eapply es_quiet_after; [..|apply es_set_utxo, apply_finalized_steps]; done.
Qed.
Lemma submit_steps now mns tx e : engine_steps e (submit_transaction now mns tx e).1.
Proof.
  unfold submit_transaction. destruct (negb _); [done|].
  pose proof (lock_and_validate_steps now tx e) as Hl. destruct (lock_and_validate_transaction now tx e) as [e1 [fee|]]; cbn in *.
  - pose proof (process_steps now mns tx (Some fee) (broadcast (MsgTransactionBroadcast tx) e1)) as Hp.
    destruct (process_transaction _ _ _ _ _) as [e2 [|]]; cbn in *.
    + etrans; [done|]. etrans; [|done]. by apply es_quiet.
    + etrans; [done|]. etrans; [|apply unlock_steps]. etrans; [|done]. by apply es_quiet.
  - etrans; [done|apply unlock_steps].
Qed.

Lemma assemble_tail_steps e t : engine_steps e
  match assemble_timeproof (timevote e) t with
  | Ok p => broadcast (MsgTimeProof p) (set_proofs (store_timeproof (finality_proof_mgr e) p) e)
  | Err _ => e
  end.
Proof. destruct (assemble_timeproof _ _); [by apply es_quiet|done]. Qed.
Lemma finalize_voted_steps now t w e : engine_steps e (finalize_voted now t w e).
Proof.
  unfold finalize_voted, mark_finalized. set (tx := get_pending _ t). set (p := (confirm_transaction _ t).1). cbv zeta.
  assert (engine_steps e (set_pool p e)) as Hp by apply es_set_pool, pool_confirm. cbn [tx_pool set_pool].
  destruct (is_finalized p t); [|by eapply es_quiet_after, Hp].
  set (e1 := match tx with Some tx => set_utxo _ _ | None => _ end).
  assert (engine_steps e e1) as H1'.
  { etrans; [exact Hp|]. unfold e1. destruct tx; [|done]. apply es_set_utxo, apply_finalized_steps. }
  pose proof (assemble_tail_steps e1 t) as H2'. set (e2 := match assemble_timeproof (timevote e1) t with Ok _ => _ | Err _ => _ end) in *.
  eapply es_quiet_after, (transitivity H1' H2'); destruct tx; done.
Qed.
Lemma reject_steps now t r e : engine_steps e (reject_failed_voting_transaction now t r e).
Proof.
  unfold reject_failed_voting_transaction. set (e1 := set_pool _ e).
  assert (engine_steps e e1) as Hr by apply es_set_pool, pool_reject. cbv zeta. destruct (get_pending _ t) as [tx|].
  - eapply es_quiet_after, (transitivity Hr (unlock_steps tx t e1)); done.
  - by eapply es_quiet_after, Hr.
Qed.
Lemma vote_tick_steps now mns mon e : engine_steps e (vote_tick now mns mon e).1.
Proof.
  unfold vote_tick. repeat case_match; simplify_eq/=; try done; (apply reject_steps || apply finalize_voted_steps).
Qed.

(** *** Upkeep *)

Lemma es_clear_votes e t : engine_steps e (set_timevote (cleanup_one (timevote e) t) e).
Proof. apply es_set_votes, rtc_once. by apply (vs_clear _ _ _ t). Qed.
Lemma restore_held_steps m o : utxo_steps m (restore_held m o).1.
Proof. unfold restore_held. destruct (is_collateral_locked _ _); [done|]. destruct (is_held _); [apply steps_update|done]. Qed.
Lemma drop_output_steps m o : utxo_steps m (drop_output m o).1.
Proof.
  unfold drop_output. destruct (get_state m o); [|done]. pose proof (steps_remove m o) as Hr. by destruct (remove_utxo m o) as [m' [|]].
Qed.
Lemma pass_over_steps {A} (f : UTXOStateManager S → A → UTXOStateManager S * bool) l acc :
  (∀ m x, utxo_steps m (f m x).1) → utxo_steps acc.1 (pass_over f l acc).1.
Proof.
  intros Hf. unfold pass_over. apply (foldl_preserve _ (λ a, utxo_steps acc.1 a.1)); [|done].
  intros a x Ha. specialize (Hf a.1 x). destruct (f a.1 x) as [m d]. by etrans.
Qed.
Lemma pool_drop p t : pool_steps p (drop_banned p t).1.
Proof. apply (pool_exec_step p (PDropBanned t)). Qed.
(** Folds with a count. *)
Lemma es_fold_count {A B} (f : ConsensusEngine S * B → A → ConsensusEngine S * B) l acc :
  (∀ acc x, engine_steps acc.1 (f acc x).1) → engine_steps acc.1 (foldl f acc l).1.
Proof. intros Hf. apply (foldl_preserve f (λ a, engine_steps acc.1 a.1)); [|done]. intros a x Ha. etrans; [exact Ha|apply Hf]. Qed.

Lemma evict_missing_steps e : engine_steps e (evict_finalized_with_missing_inputs e).1.
Proof.
  apply (es_fold_count _ _ (e, 0)). intros [e' n] tx. cbn. destruct (negb _); [done|]. cbn. split; cbn; [|apply pool_drop|done].
  etrans; [|apply (pass_over_steps drop_output _ (_, _)), drop_output_steps].
  apply (pass_over_steps restore_held _ (_, _)), restore_held_steps.
Qed.
Lemma tombstone_steps now e : engine_steps e (tombstone_confirmed_inputs_on_startup now e).1.
Proof.
  unfold tombstone_confirmed_inputs_on_startup. set (acc0 := (utxo_manager e, 0)).
  assert (∀ l acc, utxo_steps acc.1 (foldl (λ acc (en : Transaction * Z), foldl (tombstone_input now (txid en.1)) acc (inputs en.1)) acc l).1) as Hf.
  { intros l acc. apply (foldl_preserve _ (λ a, utxo_steps acc.1 a.1)); [|done]. intros a en Ha.
    apply (foldl_preserve _ (λ a, utxo_steps acc.1 a.1)); [|exact Ha]. intros [m n] i Hm. cbn in *.
    destruct (is_tombstoned _ _); [done|]. destruct (is_ok _); [|done]. etrans; [exact Hm|apply steps_mark]. }
  specialize (Hf (get_finalized_transactions_with_fees (tx_pool e)) acc0). destruct (foldl _ acc0 _) as [m n]. by apply es_set_utxo.
Qed.
Lemma purge_steps e : engine_steps e (purge_banned_transactions e).1.
Proof.
  apply (es_fold_count _ _ (e, 0)). intros [e' n] [[[t real] phantom] why]. cbn.
  pose proof (pass_over_steps restore_held real (utxo_manager e', false) restore_held_steps) as H1'.
  pose proof (pass_over_steps drop_output phantom (pass_over restore_held real (utxo_manager e', false)) drop_output_steps) as H2'.
  destruct (pass_over drop_output _ _) as [m d]. pose proof (pool_drop (tx_pool e') t) as Hp. destruct (drop_banned _ t) as [p x]. cbn in *.
  split; [by etrans|exact Hp|done].
Qed.
Lemma rebroadcast_steps e t : engine_steps e (rebroadcast_transaction e t).1.
Proof. unfold rebroadcast_transaction. destruct (get_transaction _ _); [|done]. destruct (negb _); [done|]. destruct (broadcast_callback e); [by apply es_quiet|done]. Qed.

Lemma reject_competitors_steps now tx t e : engine_steps e (reject_competitors now tx t e).1.
Proof. apply (es_fold_count _ _ (e, 0)). intros acc c. apply reject_steps. Qed.
Lemma recover_steps now tx t e : engine_steps e (recover_pending now tx t e).1.
Proof.
  unfold recover_pending. pose proof (pool_confirm (tx_pool e) t) as Hp. destruct (confirm_transaction _ t) as [p [|]]; cbn in *; [|by apply es_set_pool].
  split; cbn; [apply apply_finalized_steps|done|]. apply rtc_once. by apply vs_other.
Qed.
Lemma retry_one_steps now acc pe : engine_steps acc.1 (retry_one now acc pe).1.
Proof.
  destruct acc as [e [fin rej]]. cbn. destruct (negb _); [done|]. destruct (inputs_already_spent_by_other _ _ _); [apply reject_steps|].
  set (e1 := set_utxo _ e). assert (engine_steps e e1) as H1'.
  { apply es_set_utxo, utxo_fold. intros m i. unfold relock_input. destruct (get_state _ _) as [[| | | |]|]; try done; apply steps_lock. }
  pose proof (validate_locks_steps now (pe_tx pe) (txid (pe_tx pe)) e1) as H2'.
  destruct (validate_locks _ _ _ e1) as [e2 [fee|]]; cbn [fst] in H2'; [|etrans; [exact H1'|]; etrans; [exact H2'|apply reject_steps]].
  pose proof (transitivity H1' H2') as H3'. clearbody e1. set (e3 := if _ && _ then _ else e2).
  assert (engine_steps e e3) as H4'.
  { unfold e3. destruct (_ && _); [|exact H3']. etrans; [exact H3'|]. apply es_set_pool, (pool_exec_step _ (PUpdateFee _ fee)). }
  destruct (external_conflict _ _ _); [exact H4'|].
  pose proof (reject_competitors_steps now (pe_tx pe) (txid (pe_tx pe)) e3) as H5'. destruct (reject_competitors _ _ _ e3) as [e4 lost]. cbn in H5'.
  pose proof (recover_steps now (pe_tx pe) (txid (pe_tx pe)) e4) as H6'. destruct (recover_pending _ _ _ e4) as [e5 n]. cbn in *.
  etrans; [exact H4'|]. by etrans.
Qed.
Lemma retry_steps now e : engine_steps e (retry_stuck_pending_transactions now e).1.
Proof. apply (es_fold_count _ _ (e, (0, 0))), retry_one_steps. Qed.

Lemma evict_stale_one_steps now e tx : engine_steps e (evict_stale_one now e tx).
Proof.
  unfold evict_stale_one. cbv zeta. set (e1 := set_utxo _ e). assert (engine_steps e e1) as H1'.
  { apply es_set_utxo, utxo_fold. intros m i. unfold release_input. destruct (is_collateral_locked _ _); [done|].
    destruct (reserved_by _ _); [apply steps_update|done]. }
  etrans; [exact H1'|]. clearbody e1. unfold forget_tx. set (e2 := transition_to_rejected _ _ _ e1).
  assert (engine_steps e1 e2) as H2' by by apply es_quiet. etrans; [exact H2'|].
  eapply es_quiet_after, (es_clear_votes e2 (txid tx)); done.
Qed.
Lemma evict_stale_steps now age e : engine_steps e (evict_stale_pending_transactions now age e).1.
Proof.
  unfold evict_stale_pending_transactions. pose proof (pool_exec_step (tx_pool e) (PCleanupStale (c_instant now) age)) as Hp. cbn in Hp.
  destruct (cleanup_stale_pending _ _ _) as [p evicted]. cbn in *. etrans; [by apply es_set_pool|]. apply es_fold, evict_stale_one_steps.
Qed.
End engine.
