(* ===== verification/MaintenanceProofs.v ===== *)
(** * Upkeep of the engine: what a pass achieves *)

From Stdlib Require Import ZArith Lia Ascii String.
From stdpp Require Import base gmap strings list relations.
From S2P Require Import Prelude Types Instances Address Finality Storage UtxoManager TransactionPool BlockVotes.
From S2P Require Import UtxoProofs PoolProofs BlockTypes BlockVrf Utf8 TxValidation TxProofs TimeVoteEngine Consensus ConsensusProofs Maintenance EngineSteps.

(** ** Batches without conflicts *)

Definition spends (tx : Transaction) : gset OutPoint := list_to_set (previous_output <$> inputs tx).
Definition no_conflicts (g : list Transaction) : Prop :=
  ∀ i j tx tx', g !! i = Some tx → g !! j = Some tx' → i ≠ j → spends tx ## spends tx'.
Record group_ok (g : list Transaction * gset OutPoint) : Prop := mkGroupOk {
  go_inputs : ∀ tx, tx ∈ g.1 → spends tx ⊆ g.2;
  go_disjoint : no_conflicts g.1;
}.

Lemma no_conflicts_snoc g tx : no_conflicts g → (∀ tx', tx' ∈ g → spends tx' ## spends tx) → no_conflicts (g ++ [tx]).
Proof.
  intros Hg Ht i j a b Ha Hb Hij. rewrite !lookup_app in Ha, Hb.
  destruct (g !! i) as [a'|] eqn:Ei, (g !! j) as [b'|] eqn:Ej; simplify_eq.
  - by eapply (Hg i j).
  - apply list_lookup_singleton_Some in Hb as [_ <-]. by eapply Ht, list_elem_of_lookup_2.
  - apply list_lookup_singleton_Some in Ha as [_ <-]. symmetry. by eapply Ht, list_elem_of_lookup_2.
  - apply list_lookup_singleton_Some in Ha as [Ha _], Hb as [Hb _]. apply lookup_ge_None in Ei, Ej. lia.
Qed.
Lemma place_ok tx gs : Forall group_ok gs →
  Forall group_ok (place_tx tx gs) ∧ concat (place_tx tx gs).*1 ≡ₚ tx :: concat gs.*1.
Proof.
  induction 1 as [|[g s] gs [Hi Hd] Hgs [IH1 IH2]]; cbn.
  - split; [|done]. apply Forall_singleton. split; cbn; [by intros ? ->%list_elem_of_singleton|].
    intros i j a b [? _]%list_lookup_singleton_Some [? _]%list_lookup_singleton_Some. lia.
  - case_bool_decide as Hb; cbn.
    + split; [constructor; [|done]|rewrite <- app_assoc; symmetry; apply Permutation_middle].
      split; cbn in *.
      * intros x [Hx| ->%list_elem_of_singleton]%elem_of_app; [|apply union_subseteq_r]. etrans; [by apply Hi|apply union_subseteq_l].
      * apply no_conflicts_snoc; [done|]. intros x Hx. pose proof (Hi x Hx). unfold spends in *. set_solver.
    + split; [by constructor|]. rewrite IH2. by rewrite Permutation_middle.
Qed.

(** The groups of a batch hold every transaction of it exactly once, and no two transactions
    of a group spend the same output. *)
Theorem partition_sound txs : Forall no_conflicts (partition_non_conflicting txs) ∧ concat (partition_non_conflicting txs) ≡ₚ txs.
Proof.
  unfold partition_non_conflicting.
  assert (∀ gs, Forall group_ok gs → let gs' := foldl (λ gs tx, place_tx tx gs) gs txs in Forall group_ok gs' ∧ concat gs'.*1 ≡ₚ concat gs.*1 ++ txs) as Hf.
  { induction txs as [|tx txs IH]; intros gs Hgs; cbn; [by rewrite app_nil_r|].
    destruct (place_ok tx gs Hgs) as [H1 H2]. destruct (IH _ H1) as [H3 H4]. split; [done|]. rewrite H4, H2. by rewrite <- Permutation_middle. }
  destruct (Hf []) as [H1 H2]; [done|]. split; [|done]. apply Forall_fmap. eapply Forall_impl; [exact H1|]. intros g Hg. apply Hg.
Qed.

(** ** Stuck transactions *)

Section upkeep.
Context {S : Type} `{UtxoStorage S} `{MapIter} `{Externals} `{BlockExternals} `{TxExternals} `{PoolCodec} `{VrfExternals}.
Implicit Types (e : ConsensusEngine S) (m : UTXOStateManager S).

(** Nothing new is pending. *)
Definition only_fewer (p p' : TransactionPool) : Prop := ∀ t, is_Some (pending p' !! t) → is_Some (pending p !! t).
#[local] Instance only_fewer_refl : Reflexive only_fewer.
Proof. by intros p t. Qed.
#[local] Instance only_fewer_trans : Transitive only_fewer.
Proof. intros p1 p2 p3 H1' H2' t Ht. by apply H1', H2'. Qed.

Lemma take_pending_lookup p t k : pending (take_pending p t).1 !! k = if bool_decide (k = t) then None else pending p !! k.
Proof.
  unfold take_pending. destruct (pending p !! t) as [pe|] eqn:E; cbn; case_bool_decide; subst.
  - by rewrite lookup_delete_eq.
  - by rewrite lookup_delete_ne by done.
  - done.
  - done.
Qed.
Lemma reject_lookup now t r e k :
  pending (tx_pool (reject_failed_voting_transaction now t r e)) !! k = if bool_decide (k = t) then None else pending (tx_pool e) !! k.
Proof.
  unfold reject_failed_voting_transaction. cbv zeta. destruct (get_pending _ t); cbn;
    rewrite (proj1 (sled_remove_maps _ _)); apply take_pending_lookup.
Qed.
Lemma reject_fewer now t r e : only_fewer (tx_pool e) (tx_pool (reject_failed_voting_transaction now t r e)).
Proof. intros k. rewrite reject_lookup. case_bool_decide; [by intros []|done]. Qed.
Lemma confirm_fewer p t : only_fewer p (confirm_transaction p t).1.
Proof.
  intros k. unfold confirm_transaction. pose proof (take_pending_lookup p t k) as Ht. destruct (is_banned t).
  - cbn. rewrite (proj1 (sled_remove_maps _ _)), Ht. case_bool_decide; [by intros []|done].
  - destruct (take_pending p t) as [p' [pe|]]; cbn in *; rewrite ?(proj1 (sled_persist_maps _ _ _ _ _)), Ht;
      (case_bool_decide; [by intros []|done]).
Qed.
Lemma update_fee_fewer p t fee : only_fewer p (update_pending_fee p t fee).1.
Proof.
  intros k. unfold update_pending_fee. destruct (pending p !! t) as [pe|] eqn:E; [|done]. destruct (_ =? _); [done|]. cbn.
  rewrite (proj1 (sled_persist_maps _ _ _ _ _)). cbn. rewrite lookup_insert. case_decide; [subst; by rewrite E|done].
Qed.
Lemma competitors_fewer now tx t e : only_fewer (tx_pool e) (tx_pool (reject_competitors now tx t e).1).
Proof.
  unfold reject_competitors. match goal with |- context [foldl ?f _ _] =>
    apply (foldl_preserve f (λ a, only_fewer (tx_pool e) (tx_pool a.1))) end; [|done].
  intros a c Ha. etrans; [exact Ha|apply reject_fewer].
Qed.
Lemma recover_pool now tx t e : tx_pool (recover_pending now tx t e).1 = (confirm_transaction (tx_pool e) t).1.
Proof. unfold recover_pending. by destruct (confirm_transaction _ t) as [p [|]]. Qed.
Lemma validate_locks_pool now tx t e : tx_pool (validate_locks now tx t e).1 = tx_pool e.
Proof. unfold validate_locks. by destruct (validate_transaction_with_locks _ _ _ _ _ _) as [[ai m] r]. Qed.

(** One entry: nothing new is pending, and it is still pending only when something else holds its inputs. *)
Lemma retry_one_spec now e n pe : pool_inv (tx_pool e) →
  let e' := (retry_one now (e, n) pe).1 in
  only_fewer (tx_pool e) (tx_pool e') ∧
  (is_Some (pending (tx_pool e') !! txid (pe_tx pe)) → external_conflict e' (pe_tx pe) (txid (pe_tx pe)) = true).
Proof.
  destruct n as [fin rej]. intros Hp. cbn [retry_one]. cbv zeta. set (tx := pe_tx pe). set (t := txid tx).
  destruct (is_pending (tx_pool e) t) eqn:Et; cbn [negb fst]; [|split; [done|]].
  2:{ intros Hs. unfold is_pending, contains in Et. by apply bool_decide_eq_false in Et. }
  destruct (inputs_already_spent_by_other _ _ _); cbn [fst].
  { split; [apply reject_fewer|]. rewrite reject_lookup, bool_decide_true by done. by intros []. }
  set (e1 := set_utxo _ e). pose proof (validate_locks_pool now tx t e1) as Hv.
  destruct (validate_locks now tx t e1) as [e2 [fee|err]]; cbn [fst tx_pool set_utxo e1] in *.
  2:{ split; [rewrite <- Hv; apply reject_fewer|]. rewrite reject_lookup, bool_decide_true by done. by intros []. }
  set (e3 := if _ && _ then _ else e2). assert (only_fewer (tx_pool e) (tx_pool e3)) as H3'.
  { unfold e3. destruct (_ && _); cbn; rewrite Hv; [apply update_fee_fewer|done]. }
  destruct (external_conflict e3 tx t) eqn:Ec; [done|].
  pose proof (competitors_fewer now tx t e3) as H4'. destruct (reject_competitors now tx t e3) as [e4 lost]. cbn in H4'.
  pose proof (recover_pool now tx t e4) as H5'. destruct (recover_pending now tx t e4) as [e5 k]. cbn in *. rewrite H5'.
  split; [etrans; [exact H3'|]; etrans; [exact H4'|apply confirm_fewer]|]. intros Hs. exfalso.
  assert (is_banned t = false) as Hb.
  { unfold is_pending, contains in Et. apply bool_decide_eq_true in Et as [pe' Hpe]. by destruct (pi_pending _ Hp t pe' Hpe) as (_ & Hb & _). }
  revert Hs. unfold confirm_transaction. rewrite Hb. pose proof (take_pending_lookup (tx_pool e4) t t) as Ht. rewrite bool_decide_true in Ht by done.
  destruct (take_pending (tx_pool e4) t) as [p [pe'|]]; cbn in *; rewrite ?(proj1 (sled_persist_maps _ _ _ _ _)), Ht; by intros [].
Qed.
Lemma retry_fewer now l acc : pool_inv (tx_pool acc.1) → only_fewer (tx_pool acc.1) (tx_pool (foldl (retry_one now) acc l).1).
Proof.
  revert acc. induction l as [|pe l IH]; intros [e n] Hp; [done|]. cbn [foldl fst] in *.
  destruct (retry_one_spec now e n pe Hp) as [Hf _]. etrans; [exact Hf|]. apply IH.
  eapply pool_steps_inv; [apply (es_pool (arrives := λ _ _, False) _ _ (retry_one_steps now (e, n) pe))|done].
Qed.

(** A pending transaction does not stay stuck: after one retry it is settled, unless it is
    in conflict with one that is confirmed or holds its inputs. *)
Theorem retry_settles now e t tx :
  pool_inv (tx_pool e) →
  let e' := (retry_stuck_pending_transactions now e).1 in
  get_pending (tx_pool e') t = Some tx →
  ∃ e1 pe, pending (tx_pool e) !! t = Some pe ∧ engine_steps (arrives := λ _ _, False) e e1 ∧ engine_steps (arrives := λ _ _, False) e1 e' ∧ external_conflict e1 (pe_tx pe) t = true.
Proof.
  intros Hp e' Hg. unfold e', retry_stuck_pending_transactions in *. set (l := sort_by _ _) in *.
  assert (is_Some (pending (tx_pool (foldl (retry_one now) (e, (0, 0)) l).1) !! t)) as Hend.
  { unfold get_pending in Hg. apply fmap_Some in Hg as (pe & Hpe & _). by eexists. }
  destruct (retry_fewer now l (e, (0, 0)) Hp t Hend) as [pe Hpe]. destruct (pi_pending _ Hp t pe Hpe) as [Ht _].
  assert (pe ∈ l) as (l1 & l2 & El)%list_elem_of_split.
  { unfold l. rewrite sort_by_perm. apply list_elem_of_fmap. exists (t, pe). split; [done|]. rewrite iter_perm. by apply elem_of_map_to_list. }
  rewrite El, foldl_app in *. cbn [foldl] in *. set (a1 := foldl (retry_one now) (e, (0, 0)) l1) in *.
  assert (∀ k acc, engine_steps (arrives := λ _ _, False) acc.1 (foldl (retry_one now) acc k).1) as Hst by (intros k acc; apply es_fold_count, retry_one_steps).
  assert (pool_inv (tx_pool a1.1)) as Hp1 by (eapply pool_steps_inv; [apply (es_pool _ _ (Hst l1 (e, (0, 0))))|done]).
  set (a2 := retry_one now a1 pe) in *. assert (a2 = retry_one now (a1.1, a1.2) pe) as Ea2 by (unfold a2; by destruct a1).
  destruct (retry_one_spec now a1.1 a1.2 pe Hp1) as [_ Hc]. rewrite <- Ea2, Ht in Hc. exists a2.1, pe.
  split_and!; [done| |apply Hst|].
  - etrans; [apply (Hst l1 (e, (0, 0)))|]. apply retry_one_steps.
  - apply Hc. apply (retry_fewer now l2 a2); [|exact Hend]. eapply pool_steps_inv; [apply (es_pool (arrives := λ _ _, False) _ _ (retry_one_steps now a1 pe))|done].
Qed.

(** ** Stale transactions *)

Lemma release_input_get t m i o : get_state (release_input t m i) o =
  if bool_decide (previous_output i = o) && negb (is_collateral_locked m o) && reserved_by t (get_state m o) then Some Unspent else get_state m o.
Proof.
  unfold release_input. case_bool_decide as Ho; cbn; [subst o|]; destruct (is_collateral_locked m (previous_output i)); cbn; try done.
  - destruct (reserved_by _ _); [|done]. rewrite update_state_get. by rewrite bool_decide_true.
  - destruct (reserved_by _ _); [|done]. rewrite update_state_get. by rewrite bool_decide_false.
Qed.
Lemma release_collateral t m i o : is_collateral_locked (release_input t m i) o = is_collateral_locked m o.
Proof. unfold release_input. destruct (is_collateral_locked m _); [done|]. by destruct (reserved_by _ _). Qed.
Lemma release_inputs_get t ins m o : o ∈ previous_output <$> ins → is_collateral_locked m o = false →
  reserved_by t (get_state (foldl (release_input t) m ins) o) = false.
Proof.
  intros Hin Hc.
  assert (∀ ins m, is_collateral_locked m o = false → reserved_by t (get_state m o) = false →
    reserved_by t (get_state (foldl (release_input t) m ins) o) = false) as Hkeep.
  { clear. induction ins as [|i ins IH]; intros m Hc Hr; [done|]. cbn. apply IH; [by rewrite release_collateral|].
    rewrite release_input_get. destruct (_ && _ && _); done. }
  revert m Hc. induction ins as [|i ins IH]; intros m Hc; [by apply elem_of_nil in Hin|]. cbn in *.
  apply elem_of_cons in Hin as [->|Hin]; [|apply IH; [done|by rewrite release_collateral]].
  apply Hkeep; [by rewrite release_collateral|]. rewrite release_input_get, bool_decide_true, Hc by done. cbn.
  destruct (reserved_by t (get_state m (previous_output i))) eqn:E; [done|exact E].
Qed.

Lemma cleanup_fold ts p acc : NoDup ts →
  let r := foldl cleanup_step (p, acc) ts in
  (∀ k, pending r.1 !! k = if bool_decide (k ∈ ts) then None else pending p !! k) ∧
  (∀ x, x ∈ acc → x ∈ r.2) ∧ (∀ t pe, t ∈ ts → pending p !! t = Some pe → pe_tx pe ∈ r.2).
Proof.
  revert p acc. induction ts as [|t ts IH]; intros p acc Hn; cbn.
  { split_and!; [done|done|]. by intros t pe ?%elem_of_nil. }
  apply NoDup_cons in Hn as [Ht Hn]. unfold cleanup_step at 2 4 6. pose proof (take_pending_lookup p t) as Hk. cbn [fst snd].
  assert ((take_pending p t).2 = pending p !! t) as Hs by (unfold take_pending; by destruct (pending p !! t)).
  destruct (take_pending p t) as [p1 x]; cbn in Hk, Hs. subst x.
  set (a1 := match pending p !! t with Some pe => (sled_remove p1 t, acc ++ [pe_tx pe]) | None => (p1, acc) end).
  assert (∀ k, pending a1.1 !! k = if bool_decide (k = t) then None else pending p !! k) as Ha1.
  { intros k. unfold a1. destruct (pending p !! t); cbn; rewrite ?(proj1 (sled_remove_maps _ _)); apply Hk. }
  assert (a1 = (a1.1, a1.2)) as -> by by destruct a1. destruct (IH a1.1 a1.2 Hn) as (E1 & E2 & E3). split_and!.
  - intros k. rewrite E1, Ha1. destruct (decide (k = t)) as [->|Hne].
    + rewrite (bool_decide_true (t ∈ t :: ts)) by (apply elem_of_cons; by left). case_bool_decide; [done|]. by rewrite bool_decide_true.
    + rewrite (bool_decide_false (k = t)) by done. rewrite (bool_decide_ext (k ∈ t :: ts) (k ∈ ts)); [done|]. rewrite elem_of_cons. naive_solver.
  - intros x Hx. apply E2. unfold a1. destruct (pending p !! t); cbn; [apply elem_of_app; by left|done].
  - intros t' pe Hin Hpe. apply elem_of_cons in Hin as [->|Hin].
    + apply E2. unfold a1. rewrite Hpe. cbn. apply elem_of_app. right. by apply list_elem_of_singleton.
    + apply (E3 t' pe Hin). rewrite Ha1. rewrite bool_decide_false; [done|]. by intros ->.
Qed.

Definition is_rejected (st : option TransactionStatus) : bool := match st with Some (Rejected _ _) => true | _ => false end.
(** What holds for a transaction once it has been evicted. *)
Definition evicted_view e (tx : Transaction) : Prop :=
  is_rejected (get_tx_status e (txid tx)) = true ∧
  ∀ o, o ∈ previous_output <$> inputs tx → is_collateral_locked (utxo_manager e) o = false →
    reserved_by (txid tx) (get_state (utxo_manager e) o) = false.
Lemma release_fold_collateral t ins m o : is_collateral_locked (foldl (release_input t) m ins) o = is_collateral_locked m o.
Proof. apply (foldl_preserve _ (λ m', is_collateral_locked m' o = is_collateral_locked m o)); [|done]. intros m' i <-. apply release_collateral. Qed.
Lemma release_fold_keeps t ins m o k : reserved_by k (get_state m o) = false → reserved_by k (get_state (foldl (release_input t) m ins) o) = false.
Proof.
  intros Hr. apply (foldl_preserve _ (λ m', reserved_by k (get_state m' o) = false)); [|done].
  intros m' i Hm. rewrite release_input_get. by destruct (_ && _ && _).
Qed.
Lemma evict_one_fields now e tx : utxo_manager (evict_stale_one now e tx) = foldl (release_input (txid tx)) (utxo_manager e) (inputs tx)
  ∧ tx_pool (evict_stale_one now e tx) = tx_pool e
  ∧ ∀ k, get_tx_status (evict_stale_one now e tx) k =
      if bool_decide (k = txid tx) then Some (Rejected (c_millis now) "Pending transaction evicted after exceeding stale age") else get_tx_status e k.
Proof.
  split_and!; [done|done|]. intros k. unfold get_tx_status, evict_stale_one, forget_tx, transition_to_rejected, set_tx_status. cbn.
  rewrite lookup_insert. case_decide; case_bool_decide; subst; done.
Qed.
Lemma evict_one_own now e tx : evicted_view (evict_stale_one now e tx) tx.
Proof.
  destruct (evict_one_fields now e tx) as (Em & _ & Es). split; [by rewrite Es, bool_decide_true|].
  intros o Ho Hc. rewrite Em in *. rewrite release_fold_collateral in Hc. by apply release_inputs_get.
Qed.
Lemma evict_one_keeps now e tx x : evicted_view e x → evicted_view (evict_stale_one now e tx) x.
Proof.
  intros [Hs Hr]. destruct (evict_one_fields now e tx) as (Em & _ & Es). split; [rewrite Es; by case_bool_decide|].
  intros o Ho Hc. rewrite Em in *. rewrite release_fold_collateral in Hc. by apply release_fold_keeps, Hr.
Qed.
Lemma evict_fold now l e : tx_pool (foldl (evict_stale_one now) e l) = tx_pool e
  ∧ ∀ x, (x ∈ l ∨ evicted_view e x) → evicted_view (foldl (evict_stale_one now) e l) x.
Proof.
  revert e. induction l as [|tx l IH]; intros e; cbn.
  - split; [done|]. by intros x [?%elem_of_nil|].
  - destruct (IH (evict_stale_one now e tx)) as [Hp Hv]. split; [by rewrite Hp|]. intros x Hx. apply Hv.
    destruct Hx as [[->|Hx]%elem_of_cons|Hx]; [right; apply evict_one_own|by left|right; by apply evict_one_keeps].
Qed.

(** Eviction of stale transactions leaves them rejected and none of their inputs reserved by
    them, collateral apart. *)
Theorem stale_eviction_releases now max_age e t pe :
  pending (tx_pool e) !! t = Some pe → txid (pe_tx pe) = t → max_age < sat_sub (c_instant now) (added_at pe) →
  let e' := (evict_stale_pending_transactions now max_age e).1 in
  pending (tx_pool e') !! t = None ∧ evicted_view e' (pe_tx pe) ∧
  (∀ k pk, pending (tx_pool e') !! k = Some pk → sat_sub (c_instant now) (added_at pk) ≤ max_age).
Proof.
  intros Hpe Ht Hage. cbn. unfold evict_stale_pending_transactions, cleanup_stale_pending.
  set (ts := (filter _ _).*1).
  assert (∀ k pk, pending (tx_pool e) !! k = Some pk → k ∈ ts ↔ max_age < sat_sub (c_instant now) (added_at pk)) as Hts.
  { intros k pk Hk. unfold ts. rewrite list_elem_of_fmap. split.
    - intros ([k' pk'] & -> & Hin). apply list_elem_of_filter in Hin as [Ho Hin]. rewrite iter_perm in Hin.
      apply elem_of_map_to_list in Hin. cbn in *. simplify_eq. unfold is_older in Ho. cbn in Ho. by apply Is_true_true, Z.ltb_lt in Ho.
    - intros Hlt. exists (k, pk). split; [done|]. apply list_elem_of_filter. rewrite iter_perm, elem_of_map_to_list.
      split; [|done]. unfold is_older. cbn. by apply Is_true_true, Z.ltb_lt. }
  assert (NoDup ts) as Hnd.
  { unfold ts. apply NoDup_fmap_fst; [|apply NoDup_filter; rewrite iter_perm; apply NoDup_map_to_list].
    intros k x y Hx Hy. apply list_elem_of_filter in Hx as [_ Hx], Hy as [_ Hy]. rewrite iter_perm in Hx, Hy.
    apply elem_of_map_to_list in Hx, Hy. congruence. }
  destruct (cleanup_fold ts (tx_pool e) [] Hnd) as (E1 & _ & E3). destruct (foldl cleanup_step (tx_pool e, []) ts) as [p l]. cbn in *.
  destruct (evict_fold now l (set_pool p e)) as [Hp Hv]. rewrite Hp. cbn. pose proof (proj2 (Hts t pe Hpe) Hage) as Hin. split_and!.
  - by rewrite E1, bool_decide_true.
  - apply Hv. left. by eapply E3.
  - intros k pk. rewrite E1. case_bool_decide as Hk; [done|]. intros Hk'. rewrite (Hts k pk Hk') in Hk. lia.
Qed.
End upkeep.
