(* ===== verification/BlockSteps.v ===== *)
(** * What adding a block does to the engine

    [add_block] changes the UTXO manager, the pool and the votes of the engine only through
    operations of those components that give no spent output back ([engine_steps]). *)

From Stdlib Require Import ZArith Lia Ascii String.
From stdpp Require Import base gmap strings list relations.
From S2P Require Import Prelude Types Instances Address Finality Storage UtxoManager TransactionPool BlockVotes.
From S2P Require Import UtxoProofs UtxoTheorems PoolProofs Lru BlockTypes BlockVrf BlockCache BlockLedger Governance Registry Reward Utf8 Genesis TxValidation.
From S2P Require Import TimeVoteEngine Consensus Maintenance EngineSteps Chain ChainApply.

Section utxos.
Context {S : Type} `{UtxoStorage S} `{MapIter} `{Externals} `{BlockExternals}.
Implicit Types m : UTXOStateManager S.

Lemma steps_spend now m o : utxo_steps m (spend_utxo now m o).1.
Proof. apply (utxo_exec m (OpSpend now o)). intros ? []. Qed.
Lemma steps_unlock_collateral m o : utxo_steps m (unlock_collateral m o).1.
Proof. apply (utxo_exec m (OpUnlockCollateral o)). intros ? []. Qed.
Lemma steps_lock_collateral now m o mn h amt p : utxo_steps m (lock_collateral_inner now m o mn h amt p).1.
Proof. apply (utxo_exec m (OpLockCollateral now o mn h amt p)). intros ? []. Qed.
Lemma steps_purge m : utxo_steps m (purge_stale_collateral_locks m).1.
Proof. apply (utxo_exec m OpPurge). intros ? []. Qed.
Lemma steps_height m o h : utxo_steps m (record_utxo_height m o h).
Proof. apply (utxo_exec m (OpHeight o h)). intros ? []. Qed.

Lemma add_at_steps h m u : utxo_steps m (add_at h m u).
Proof. unfold add_at. pose proof (steps_add m u) as Ha. destruct (add_utxo m u) as [m' [|]]; [etrans; [exact Ha|apply steps_height]|done]. Qed.
Lemma create_output_steps h m u : utxo_steps m (create_output h m u).
Proof. unfold create_output. destruct (is_tombstoned _ _); [done|apply add_at_steps]. Qed.
Lemma process_tx_steps now h acc tx : utxo_steps acc.1 (process_tx now h acc tx).1.
Proof.
  unfold process_tx. assert (utxo_steps acc.1 (foldl (spend_input now) acc (inputs tx)).1) as Hs.
  { apply (foldl_preserve (spend_input now) (λ a, utxo_steps acc.1 a.1)); [|done]. intros [m l] i Hm. etrans; [exact Hm|apply steps_spend]. }
  destruct (foldl (spend_input now) acc (inputs tx)) as [m l]. cbn in *. etrans; [exact Hs|]. apply utxo_fold. intros m' u. apply create_output_steps.
Qed.
Lemma process_block_steps now m b : utxo_steps m (process_block_utxos now m b).1.
Proof.
  unfold process_block_utxos. cbv zeta. set (m0 := if _ && _ then _ else m).
  assert (utxo_steps m m0) as H0'.
  { unfold m0. destruct (_ && _); [|done]. apply utxo_fold. intros m' u. apply add_at_steps. }
  apply (foldl_preserve (process_tx now _) (λ a : UTXOStateManager S * UndoLog, utxo_steps m a.1)); [|done].
  intros acc tx Hm. etrans; [exact Hm|apply process_tx_steps].
Qed.
Lemma special_tx_steps now h a tx : utxo_steps (sp_utxo a) (sp_utxo (process_special_tx now h a tx)).
Proof.
  destruct a as [m r undo slots ips]. unfold process_special_tx. destruct (special_data tx) as [[node wallet reward coll pk sig|node slot pk sig|]|]; [| |done..].
  - destruct (_ && _); [done|]. destruct (apply_masternode_registration _ _ _ _ _ _ _ _ _ _ _) as [? [|]]; done.
  - case_bool_decide; [done|]. unfold apply_masternode_deregistration. repeat case_match; simplify_eq/=; try done; apply steps_unlock_collateral.
Qed.
Lemma special_steps now m r b : utxo_steps m (process_special_transactions now m r b).1.1.
Proof.
  unfold process_special_transactions. cbn [fst].
  apply (foldl_preserve (process_special_tx now (bh_height (header b))) (λ a, utxo_steps m (sp_utxo a))); [|done].
  intros a tx Ha. etrans; [exact Ha|apply special_tx_steps].
Qed.
Lemma cleanup_collaterals_steps now m r : utxo_steps m (cleanup_invalid_collaterals now m r).1.1.
Proof.
  unfold cleanup_invalid_collaterals.
  assert (utxo_steps m (foldl (collateral_miss now r) (m, collateral_miss_counts r, []) (iter (masternodes r))).1.1) as Hm.
  { apply (foldl_preserve (collateral_miss now r) (λ a, utxo_steps m a.1.1)); [|done]. intros [[m1 k] gone] [a i] Hm1. cbn in Hm1.
    unfold collateral_miss. case_bool_decide; [done|]. destruct (collateral_outpoint _); [|done].
    assert (utxo_steps m (check_collateral_validity now m1 r a).1) as Hc.
    { etrans; [exact Hm1|]. unfold check_collateral_validity. repeat case_match; simplify_eq/=; try done; eauto using steps_lock_collateral. }
    destruct (check_collateral_validity _ _ _ _) as [m2 []]; [done|]. cbn in Hc. by destruct (_ && _). }
  destruct (foldl (collateral_miss now r) _ _) as [[m1 k] gone]. cbn in Hm.
  assert (∀ x, utxo_steps m x.1 → utxo_steps m (foldl deregister_one x gone).1) as Hd.
  { intros x Hx. apply (foldl_preserve deregister_one (λ a, utxo_steps m a.1)); [|done]. intros [m2 r2] a Hm2. cbn in Hm2. unfold deregister_one. cbv zeta.
    destruct (unregister _ _) as [r3 [[i|]|]]; [|done..]. cbn. destruct (collateral_outpoint _); [|done]. etrans; [exact Hm2|apply steps_unlock_collateral]. }
  specialize (Hd (m1, set_misses k r) Hm). by destruct (foldl deregister_one _ gone).
Qed.
End utxos.

Section blocks.
Context {S : Type} `{UtxoStorage S} `{MapIter} `{Externals} `{BlockExternals} `{!BlockCodec} `{LegacyCodec} `{Zstd} `{LruCrate}.
Context `{TxExternals} `{PoolCodec} `{VrfExternals} `{GovCodec}.
Context {arrives : list MasternodeInfo → TimeVote → Prop}.
Implicit Types c : Blockchain (S := S).
Abbreviation engine_steps := (engine_steps (arrives := arrives)).

Lemma set_utxo_steps c m : utxo_steps (bc_utxo c) m → engine_steps (engine c) (engine (set_bc_utxo m c)).
Proof. apply es_set_utxo. Qed.
Lemma execute_proposal_steps c p : engine_steps (engine c) (engine (execute_proposal c p)).
Proof.
  unfold execute_proposal. destruct (gp_payload p) as [recipient amount d|min tiers|rate r].
  - unfold execute_treasury_spend. destruct (_ <? amount); [done|].
    match goal with |- context [add_utxo ?m ?u] => pose proof (steps_add m u) as Ha; destruct (add_utxo m u) as [m' [|]] end; by apply set_utxo_steps in Ha.
  - cbn. by apply es_quiet.
  - unfold apply_emission_rate_change. by destruct (_ && _).
Qed.
Lemma execute_proposals_steps c h : engine_steps (engine c) (engine (execute_proposals c h)).
Proof.
  unfold execute_proposals. destruct (_ || _); [done|]. destruct (bc_governance c) as [g|]; [|done].
  destruct (check_and_execute_proposals _ _ _) as [g' passed].
  apply (foldl_preserve execute_proposal (λ c', engine_steps (engine c) (engine c'))); [|done].
  intros c' p Hc. etrans; [exact Hc|apply execute_proposal_steps].
Qed.
Lemma apply_state_steps now c b : engine_steps (engine c) (engine (apply_state now c b)).
Proof.
  unfold apply_state. cbv zeta. pose proof (process_block_steps now (bc_utxo c) b) as Hp. destruct (process_block_utxos now (bc_utxo c) b) as [m undo]. cbn in Hp.
  apply set_utxo_steps in Hp. set (c1 := set_bc_utxo m c) in *. clearbody c1. set (c2 := if _ =? 0 then c1 else _).
  assert (engine_steps (engine c) (engine c2)) as H2'.
  { unfold c2. destruct (_ =? 0); [done|]. pose proof (special_steps now (bc_utxo c1) (registry c1) b) as Hs.
    destruct (process_special_transactions _ _ _ _) as [[m1 r1] reg]. cbn in Hs. etrans; [exact Hp|]. apply set_utxo_steps in Hs. by destruct reg. }
  clearbody c2. etrans; [exact H2'|]. exact (execute_proposals_steps (set_treasury_balance c2 (treasury_balance (header b))) (bh_height (header b))).
Qed.
Lemma scan_forward_engine k c h : engine (scan_forward k c h) = engine c.
Proof. revert c h. induction k as [|k IH]; intros c h; cbn; [done|]. destruct (block_at c h); [|done]. by rewrite IH. Qed.
Lemma advance_steps now c b : engine_steps (engine c) (engine (advance_chain now c b)).
Proof.
  unfold advance_chain. cbv zeta. set (c1 := if is_syncing _ then _ else _).
  assert (engine c1 = engine c) as E1 by (unfold c1; destruct (is_syncing _); [done|by rewrite scan_forward_engine]).
  clearbody c1. rewrite <- E1. clear E1. cbn [engine set_registry set_confirmed set_tx_index].
  set (c2 := archive_block_txs _ b). assert (engine_steps (engine c1) (engine c2)) as H2'.
  { apply es_set_pool. apply (pool_exec_step _ (PArchive _)). }
  etrans; [exact H2'|]. unfold sweep_collaterals. destruct (is_syncing c2); [done|].
  pose proof (cleanup_collaterals_steps now (bc_utxo c2) (registry c2)) as Hc. destruct (cleanup_invalid_collaterals _ _ _) as [[m r] k]. cbn in Hc.
  apply (set_utxo_steps (set_registry r c2)). etrans; [exact Hc|apply steps_purge].
Qed.
Lemma save_block_engine c b f : engine (save_block c b f).1 = engine c.
Proof. unfold save_block. cbv zeta. destruct (block_bincode b); [|done]. by destruct f. Qed.
Lemma add_block_engine now c b : engine_steps (engine c) (engine (add_block now c b).1).
Proof.
  unfold add_block. destruct (sanitized b) as [b'|]; [|done]. destruct (check_new_block now c b'); [|done]. cbv zeta.
  destruct (block_at c _); [by destruct (_ <? _)|]. unfold commit_block. cbv zeta. pose proof (apply_state_steps now c b') as Ha.
  pose proof (save_block_engine (apply_state now c b') (trim_leader b') false) as Es. destruct (save_block _ _ _) as [c1 [u|]]; cbn [fst] in *;
    rewrite <- Es in Ha; [|done].
  assert (engine_steps (engine c) (engine (advance_chain now c1 (trim_leader b')))) as Hd by (etrans; [exact Ha|apply advance_steps]).
  destruct (is_syncing c1); [done|]. destruct (get_block_from_storage_only _ _); [|done]. by case_bool_decide.
Qed.
End blocks.
