(* ===== verification/TxMessages.v ===== *)
(** * Messages about transactions, votes and the UTXO set
    (src/network/message_handler/transactions.rs, utxo.rs, consensus.rs and core.rs)

    A handler takes the address of the peer on the connection, the message and the node
    ([MsgNode]: the chain with its consensus engine, and what the handlers of all
    connections share), and returns the new node with the reply.  [handle_message] is the
    dispatcher with its two gates, restricted to these messages.  The channel to all peers
    is [mg_out], absent while it is not open; what is sent to one peer outside the reply is
    appended to [mg_sent].  Notifications of the local wallet, the counts of the heuristic
    attack detector and log lines are left out. *)

From Stdlib Require Import ZArith Lia Ascii String SpecFloat.
From stdpp Require Import base gmap strings list pretty.
From S2P Require Import Prelude Types Instances Address Finality Storage UtxoManager TransactionPool BlockVotes.
From S2P Require Import Lru BlockTypes BlockVrf BlockCache BlockLedger Governance Registry Utf8 TxValidation TimeVoteEngine Consensus Fallback.
From S2P Require Import Chain ChainApply ForkChoice BanList NetGuards IpText Float64 BlockRound.

Inductive WireMsg :=
| NmTransactionBroadcast (tx : Transaction) | NmTransactionFinalized (t : Hash256) (tx : Transaction)
| NmMempoolSyncRequest | NmMempoolSyncResponse (es : list MempoolSyncEntry)
| NmFinalityVote (v : TimeVote) | NmTimeVoteRequest (t commitment : Hash256) (slot : Z) (tx : option Transaction)
| NmTimeVoteResponse (v : TimeVote) | NmTimeProof (p : TimeProof)
| NmLivenessAlert (a : LivenessAlert) | NmFinalityProposal (p : FinalityProposal) | NmFallbackVote (v : FallbackVote)
| NmUTXOStateQuery (os : list OutPoint) | NmUTXOStateResponse (l : list (OutPoint * UTXOState))
| NmUTXOStateUpdate (o : OutPoint) (s : UTXOState)
| NmGetUTXOStateHash | NmUTXOStateHashResponse (h : Hash256) (height : Z) (count : nat)
| NmGetUTXOSet | NmUTXOSetResponse (us : list UTXO) | NmUTXOSetChunk (index total : Z) (us : list UTXO)
| NmRequestUtxoReconciliation (height : Z) (h : Hash256) | NmUtxoReconciliationResponse (height : Z) (us : list UTXO)
| NmUtxoReconciliationChunk (height index total : Z) (us : list UTXO).

Inductive msg_error :=
| PeerBanned (v : ban_verdict) | NoConsensusEngine
| ReporterUnknown (a : string) | AlertSignature | AlertEquivocation (a : string)
| LeaderUnknown (a : string) | ProposalSignature | VoterUnknown (a : string) | FallbackVoteSignature | VoteEquivocation (a : string).

(** [x.ceil() as u64]: the cast saturates, and is zero when [x] is not a number. *)
Definition f64_ceil_u64 (x : f64) : Z :=
  match x with
  | S754_finite s m e =>
      let v := if s then Zneg m else Zpos m in
      Z.max 0 (Z.min (U64 - 1) (if 0 <=? e then v * 2 ^ e else - (- v / 2 ^ (- e))))
  | S754_infinity false => U64 - 1
  | _ => 0
  end.
(** The threshold of [handle_timevote_response], computed in floating point. *)
Definition response_threshold (total_avs_weight : Z) : Z := f64_ceil_u64 (f64_mul (f64_of_Z total_avs_weight) (f64_ratio 67 100)).

(** ** Chunks of a UTXO set *)

Section chunks.
(** The length of [bincode::serialize] of an output, when it succeeds. *)
Variable utxo_size : UTXO → option Z.
Definition MAX_CHUNK_BYTES : Z := 7 * 1024 * 1024.
Definition chunk_weight (u : UTXO) : Z := default 400 (utxo_size u).
Fixpoint chunk_loop (us cur : list UTXO) (bytes : Z) (done : list (list UTXO)) : list (list UTXO) :=
  match us with
  | [] => match cur with [] => done | _ => done ++ [cur] end
  | u :: us =>
      if (MAX_CHUNK_BYTES <? bytes + chunk_weight u) && negb (bool_decide (cur = []))
      then chunk_loop us [u] (8 + chunk_weight u) (done ++ [cur])
      else chunk_loop us (cur ++ [u]) (bytes + chunk_weight u) done
  end.
Definition split_utxos_into_chunks (us : list UTXO) : list (list UTXO) :=
  match chunk_loop us [] 8 [] with [] => [[]] | cs => cs end.
End chunks.

(** ** The node as the handlers see it *)

Record PeerUtxoHashEntry := mkHashEntry { he_hash : Hash256; he_height : Z; he_received : Z }.
(** The process-wide caches of the UTXO comparison. *)
Record UtxoSyncState := mkUtxoSync {
  hash_cache : gmap string PeerUtxoHashEntry;
  divergence_rounds : Z;
  set_chunks : gmap string (list UTXO);
  reconcil_chunks : gmap string (Z * list UTXO);
}.
Record SeenFilters := mkSeen {
  seen_transactions : option DeduplicationFilter;
  seen_tx_finalized : option DeduplicationFilter;
  seen_utxo_locks : option DeduplicationFilter;
}.
Definition UTXO_HASH_CACHE_TTL : Z := 600 * NANOS.
Definition MIN_UTXO_CHUNK_COMMIT : Z := 2127.

(** [check_and_insert] where a filter is present: seen before or not. *)
Definition seen_check (now : Clock) (item : bytes) (f : option DeduplicationFilter) : option DeduplicationFilter * bool :=
  match f with
  | Some f => let '(f, seen) := check_and_insert (c_instant now) item f in (Some f, seen)
  | None => (None, false)
  end.

Section handlers.
Context {S : Type} `{UtxoStorage S} `{MapIter} `{Externals} `{BlockExternals} `{!BlockCodec} `{LegacyCodec} `{Zstd} `{LruCrate}.
Context `{TxExternals} `{PoolCodec} `{VrfExternals} `{GovCodec}.
Variable utxo_size : UTXO → option Z.
Abbreviation Blockchain := (Blockchain (S := S)).
Abbreviation split_chunks := (split_utxos_into_chunks utxo_size).

Record MsgNode := mkMsgNode {
  mg_chain : Blockchain;
  mg_engine : bool;                        (* [context.consensus] is present *)
  mg_utxo : bool;                          (* [context.utxo_manager] is present: the engine's *)
  mg_bans : option IPBanlist;
  mg_seen : SeenFilters;
  mg_out : option (list WireMsg);
  mg_address : option string;              (* [node_masternode_address] *)
  mg_sync : UtxoSyncState;
  mg_commits : gmap string Z;              (* commit counts of the peers *)
  mg_sent : list (string * WireMsg);
}.
Implicit Types s : MsgNode.
Abbreviation reply := (MsgNode * result msg_error (option WireMsg))%type.

Definition set_mg_chain (c : Blockchain) s : MsgNode :=
  mkMsgNode c (mg_engine s) (mg_utxo s) (mg_bans s) (mg_seen s) (mg_out s) (mg_address s) (mg_sync s) (mg_commits s) (mg_sent s).
Definition set_mg_bans (b : option IPBanlist) s : MsgNode :=
  mkMsgNode (mg_chain s) (mg_engine s) (mg_utxo s) b (mg_seen s) (mg_out s) (mg_address s) (mg_sync s) (mg_commits s) (mg_sent s).
Definition set_mg_seen (f : SeenFilters) s : MsgNode :=
  mkMsgNode (mg_chain s) (mg_engine s) (mg_utxo s) (mg_bans s) f (mg_out s) (mg_address s) (mg_sync s) (mg_commits s) (mg_sent s).
Definition set_mg_sync (y : UtxoSyncState) s : MsgNode :=
  mkMsgNode (mg_chain s) (mg_engine s) (mg_utxo s) (mg_bans s) (mg_seen s) (mg_out s) (mg_address s) y (mg_commits s) (mg_sent s).
(** [broadcast_tx.send]. *)
Definition gossip (m : WireMsg) s : MsgNode :=
  mkMsgNode (mg_chain s) (mg_engine s) (mg_utxo s) (mg_bans s) (mg_seen s) ((λ l, l ++ [m]) <$> mg_out s) (mg_address s)
    (mg_sync s) (mg_commits s) (mg_sent s).
(** [peer_registry.send_to_peer]. *)
Definition send_to (peer : string) (ms : list WireMsg) s : MsgNode :=
  mkMsgNode (mg_chain s) (mg_engine s) (mg_utxo s) (mg_bans s) (mg_seen s) (mg_out s) (mg_address s) (mg_sync s) (mg_commits s)
    (mg_sent s ++ ((λ m, (peer, m)) <$> ms)).

Definition mg_eng s : ConsensusEngine S := engine (mg_chain s).
Definition put_engine (e : ConsensusEngine S) s : MsgNode := set_mg_chain (set_engine e (mg_chain s)) s.
Definition mg_utxos s : UTXOStateManager S := utxo_manager (mg_eng s).
Definition put_utxos (m : UTXOStateManager S) s : MsgNode := put_engine (set_utxo m (mg_eng s)) s.
Definition mg_active s : list MasternodeInfo := cached_active (registry (mg_chain s)).

Definition first_seen_tx (now : Clock) (t : Hash256) s : MsgNode * bool :=
  let '(f, seen) := seen_check now t (seen_transactions (mg_seen s)) in
  (set_mg_seen (mkSeen f (seen_tx_finalized (mg_seen s)) (seen_utxo_locks (mg_seen s))) s, seen).
Definition first_seen_final (now : Clock) (t : Hash256) s : MsgNode * bool :=
  let '(f, seen) := seen_check now t (seen_tx_finalized (mg_seen s)) in
  (set_mg_seen (mkSeen (seen_transactions (mg_seen s)) f (seen_utxo_locks (mg_seen s))) s, seen).
Definition first_seen_lock (now : Clock) (k : bytes) s : MsgNode * bool :=
  let '(f, seen) := seen_check now k (seen_utxo_locks (mg_seen s)) in
  (set_mg_seen (mkSeen (seen_transactions (mg_seen s)) (seen_tx_finalized (mg_seen s)) f) s, seen).

(** ** Transactions *)

Definition handle_transaction_broadcast (now : Clock) (tx : Transaction) s : reply :=
  let t := txid tx in
  match first_seen_tx now t s with
  | (s, true) => (s, Ok None)
  | (s, false) =>
      if negb (mg_engine s) then (s, Ok None)
      else if has_transaction (tx_pool (mg_eng s)) t then (s, Ok None)
      else if inputs_already_spent_by_other (mg_utxos s) (inputs tx) t then (s, Ok None)
      else
        match lock_and_validate_transaction now tx (mg_eng s) with
        | (e, Err _) => (put_engine e s, Ok None)
        | (e, Ok fee) =>
            match process_transaction now (mg_active s) tx (Some fee) e with
            | (e, Ok _) => (gossip (NmTransactionBroadcast tx) (put_engine e s), Ok None)
            | (e, Err _) => (put_engine e s, Ok None)
            end
        end
  end.

(** Neither inputs nor outputs, and no special data that is well-formed and signed. *)
Definition is_shell (tx : Transaction) : bool := bool_decide (inputs tx = []) && bool_decide (outputs tx = []).
Definition old_transfer (tx : Transaction) : bool := negb (bool_decide (inputs tx = [])) && (version tx <? 2).

(** Outputs whose state is set only where they could be added. *)
Fixpoint create_new_outputs (t : Hash256) (idx : nat) (outs : list TxOutput) (m : UTXOStateManager S) : UTXOStateManager S :=
  match outs with
  | [] => m
  | o :: outs =>
      let u := output_utxo t idx o in
      create_new_outputs t (Datatypes.S idx) outs
        (match add_utxo m u with (m, Ok _) => update_state m (outpoint u) Unspent | (m, Err _) => m end)
  end.

Definition input_accounted (m : UTXOStateManager S) (i : TxInput) : bool :=
  is_ok (get_utxo m (previous_output i)) || is_tombstoned m (previous_output i).

(** The pool before a finalization is applied: the transaction is validated, and added when it is new. *)
Definition admit_finalized (now : Clock) (t : Hash256) (tx : Transaction) (e : ConsensusEngine S) : ConsensusEngine S * bool :=
  if negb (has_transaction (tx_pool e) t) then
    match lock_and_validate_transaction now tx e with
    | (e, Err _) => (e, false)
    | (e, Ok fee) => (set_pool (add_pending (c_instant now) (tx_pool e) tx fee).1 e, true)
    end
  else
    match validate_locks now tx (txid tx) e with
    | (e, Err _) => (e, false)
    | (e, Ok _) => (e, true)
    end.
Definition finalize_here (now : Clock) (t : Hash256) (tx : Transaction) (e : ConsensusEngine S) : ConsensusEngine S :=
  let '(p, moved) := confirm_transaction (tx_pool e) t in
  let e := set_pool p e in
  signal_tx_finalized t (if moved then set_utxo (apply_finalized now t tx (utxo_manager e)) e else e).

Definition handle_transaction_finalized (now : Clock) (t : Hash256) (tx : Transaction) s : reply :=
  if is_syncing (mg_chain s) then (s, Ok None)
  else
    match first_seen_final now t s with
    | (s, true) => (s, Ok None)
    | (s, false) =>
        if is_tx_archived (mg_chain s) t then (s, Ok None)
        else if is_shell tx && negb (special_ok tx) then (s, Ok None)
        else if old_transfer tx then (s, Ok None)
        else if negb (mg_engine s) then (s, Ok None)
        else if is_finalized (tx_pool (mg_eng s)) t then (s, Ok None)
        else if negb (forallb (input_accounted (mg_utxos s)) (inputs tx)) then
          (gossip (NmTransactionFinalized t tx) (put_utxos (create_new_outputs t 0 (outputs tx) (mg_utxos s)) s), Ok None)
        else if inputs_already_spent_by_other (mg_utxos s) (inputs tx) t then (s, Ok None)
        else if has_double_spend_conflict (tx_pool (mg_eng s)) (mg_utxos s) (inputs tx) t then (s, Ok None)
        else
          match admit_finalized now t tx (mg_eng s) with
          | (e, false) => (put_engine e s, Ok None)
          | (e, true) => (gossip (NmTransactionFinalized t tx) (put_engine (finalize_here now t tx e) s), Ok None)
          end
    end.

Definition handle_mempool_sync_request s : reply :=
  let all := if mg_engine s then get_all_for_sync (tx_pool (mg_eng s)) else [] in
  (s, Ok (Some (NmMempoolSyncResponse
    (take 100 (filter (λ en, se_is_finalized en = true) all) ++ take 100 (filter (λ en, se_is_finalized en = false) all))))).

Definition sync_entry (now : Clock) s (en : MempoolSyncEntry) : MsgNode :=
  let tx := se_tx en in
  let t := txid tx in
  if has_transaction (tx_pool (mg_eng s)) t then s
  else if is_tx_archived (mg_chain s) t then s
  else if old_transfer tx then s
  else if se_is_finalized en then
    if is_shell tx && negb (special_ok tx) then s
    else
      let s := put_engine (set_pool (add_finalized_direct (c_instant now) (tx_pool (mg_eng s)) tx (se_fee en)) (mg_eng s)) s in
      if mg_utxo s then put_utxos (create_new_outputs t 0 (outputs tx) (spend_inputs now t (inputs tx) (mg_utxos s))) s else s
  else put_engine (process_transaction now (mg_active s) tx (Some (se_fee en)) (mg_eng s)).1 s.
Definition handle_mempool_sync_response (now : Clock) (es : list MempoolSyncEntry) s : reply :=
  if bool_decide (es = []) then (s, Ok None)
  else if mg_engine s then (foldl (sync_entry now) s es, Ok None)
  else (s, Ok None).

(** ** Votes on transactions *)

Definition accumulate (now : Clock) (v : TimeVote) s : MsgNode * result tv_error Z :=
  let '(c, r) := accumulate_timevote (mg_active s) (timevote (mg_eng s)) v in (put_engine (set_timevote c (mg_eng s)) s, r).
Definition handle_finality_vote_broadcast (now : Clock) (v : TimeVote) s : reply :=
  match registry_get (registry (mg_chain s)) (voter_mn_id v) with
  | None => (s, Ok None)
  | Some info =>
      if negb (vote_verify v (public_key (masternode info))) then (s, Ok None)
      else if mg_engine s then ((accumulate now v s).1, Ok None)
      else (s, Ok None)
  end.

(** The transaction a vote is asked for: the pending one, or the one sent along once it has been added. *)
Definition requested_tx (now : Clock) (t : Hash256) (from_request : option Transaction) (e : ConsensusEngine S)
    : ConsensusEngine S * option Transaction :=
  match get_pending (tx_pool e) t, from_request with
  | Some tx, _ => (e, Some tx)
  | None, None => (e, None)
  | None, Some tx =>
      match lock_and_validate_transaction now tx e with
      | (e, Err _) => (e, None)
      | (e, Ok fee) =>
          match add_pending (c_instant now) (tx_pool e) tx fee with
          | (p, Ok _) => (set_pool p e, Some tx)
          | (p, Err _) => (set_pool p e, None)
          end
      end
  end.
Definition vote_decision (now : Clock) (t commitment : Hash256) (tx : option Transaction) (e : ConsensusEngine S)
    : ConsensusEngine S * VoteDecision :=
  match tx with
  | Some tx =>
      if bool_decide (calculate_tx_commitment tx ≠ commitment) then (e, Reject)
      else match validate_locks now tx (txid tx) e with
           | (e, Ok _) => (e, Accept)
           | (e, Err _) => (e, Reject)
           end
  | None =>
      if is_finalized (tx_pool e) t || bool_decide (is_Some (tvc_finalized (timevote e) !! t)) then (e, Accept) else (e, Reject)
  end.
Definition handle_timevote_request (now : Clock) (t commitment : Hash256) (slot : Z) (from_request : option Transaction) s : reply :=
  if negb (mg_engine s) then (s, Err NoConsensusEngine)
  else
    let '(e, tx) := requested_tx now t from_request (mg_eng s) in
    let '(e, d) := vote_decision now t commitment tx e in
    (put_engine e s, Ok (NmTimeVoteResponse <$> sign_timevote (mg_active s) e t commitment slot d)).

(** The quorum has been reached and no other task has finalized the transaction. *)
Definition finalize_response (now : Clock) (t : Hash256) (weight : Z) (e : ConsensusEngine S) : ConsensusEngine S :=
  let c := timevote e in
  let e := set_timevote (set_tvc_finalized (<[t := (PrefAccept, c_instant now)]> (tvc_finalized c)) c) e in
  let tx := get_pending (tx_pool e) t in
  match confirm_transaction (tx_pool e) t with
  | (p, false) => set_pool p e
  | (p, true) =>
      let e := set_pool p e in
      let e := match tx with Some tx => set_utxo (apply_finalized now t tx (utxo_manager e)) e | None => e end in
      let e := set_timevote (record_finalization (c_instant now) (c_millis now) (timevote e) t weight) e in
      let e := signal_tx_finalized t e in
      match assemble_timeproof (timevote e) t with
      | Ok p => broadcast (MsgTimeProof p) (set_proofs (store_timeproof (finality_proof_mgr e) p) e)
      | Err _ => e
      end
  end.
Definition handle_timevote_response (now : Clock) (v : TimeVote) s : reply :=
  if negb (mg_engine s) then (s, Err NoConsensusEngine)
  else
    let t := tv_txid v in
    match accumulate now v s with
    | (s, Err _) => (s, Ok None)
    | (s, Ok weight) =>
        if weight <? response_threshold (sum64 (vi_weight <$> get_validators (mg_active s))) then (s, Ok None)
        else if bool_decide (is_Some (tvc_finalized (timevote (mg_eng s)) !! t)) then (s, Ok None)
        else (put_engine (finalize_response now t weight (mg_eng s)) s, Ok None)
    end.
Definition handle_timeproof_broadcast (p : TimeProof) s : reply :=
  if negb (mg_engine s) then (s, Err NoConsensusEngine)
  else match verify_timeproof (mg_active s) p with
       | Ok _ => (put_engine (set_proofs (store_timeproof (finality_proof_mgr (mg_eng s)) p) (mg_eng s)) s, Ok None)
       | Err _ => (s, Ok None)
       end.

(** ** The liveness fallback *)

(** A stall that this node sees too. *)
Definition confirm_stall (now : Clock) (n : nat) (a : LivenessAlert) (e : ConsensusEngine S) : ConsensusEngine S :=
  match get_tx_status e (la_txid a) with
  | Some (Voting _ _ _) =>
      if check_stall_timeout now e (la_txid a) then
        let '(e, trigger) := accumulate_liveness_alert e a n in
        if trigger then transition_to_fallback_resolution now (la_txid a) (as_u32 (Z.of_nat (get_alert_count e (la_txid a)))) e else e
      else e
  | _ => e
  end.
Definition handle_liveness_alert (now : Clock) (a : LivenessAlert) s : reply :=
  let mns := list_all (registry (mg_chain s)) in
  match find_mn mns (reporter_mn_id a) with
  | None => (s, Err (ReporterUnknown (reporter_mn_id a)))
  | Some mn =>
      if negb (alert_verify a (public_key (masternode mn))) then (s, Err AlertSignature)
      else if mg_engine s then
        if detect_alert_equivocation (mg_eng s) (la_txid a) (reporter_mn_id a)
        then (put_engine (flag_byzantine (mg_eng s) (reporter_mn_id a)) s, Err (AlertEquivocation (reporter_mn_id a)))
        else (gossip (NmLivenessAlert a) (put_engine (confirm_stall now (length mns) a (mg_eng s)) s), Ok None)
      else (gossip (NmLivenessAlert a) s, Ok None)
  end.

Definition handle_finality_proposal (p : FinalityProposal) s : reply :=
  let mns := list_all (registry (mg_chain s)) in
  match find_mn mns (leader_mn_id p) with
  | None => (s, Err (LeaderUnknown (leader_mn_id p)))
  | Some mn =>
      if negb (proposal_verify p (public_key (masternode mn))) then (s, Err ProposalSignature)
      else if mg_engine s then
        let ph := proposal_hash p in
        let e := register_proposal (mg_eng s) ph (fp_txid p) in
        let e := if (1 <? length (detect_multiple_proposals e (fp_txid p)))%nat then flag_byzantine e (leader_mn_id p) else e in
        let avs := masternode <$> filter (λ i, is_active i = true) mns in
        if bool_decide (compute_fallback_leader (fp_txid p) (fp_slot_index p) avs (prev_block_hash e) = Some (leader_mn_id p)) then
          let d := decide_fallback_vote e (fp_txid p) in
          let w := get_voter_weight (registry (mg_chain s)) (default ""%string (mg_address s)) in
          (gossip (NmFinalityProposal p) (put_engine (broadcast_fallback_vote e ph d w).1 s), Ok None)
        else (put_engine e s, Ok None)
      else (gossip (NmFinalityProposal p) s, Ok None)
  end.

(** The weight of the decision, read back after the vote was counted. *)
Definition winning_weight (e : ConsensusEngine S) (ph : Hash256) (d : FallbackVoteDecision) : Z :=
  let '(a, r, _) := default (0, 0, 0%nat) (get_vote_status e ph) in
  match d with FvApprove => a | FvReject => r end.
Definition handle_fallback_vote (now : Clock) (v : FallbackVote) s : reply :=
  let mns := get_active_masternodes (registry (mg_chain s)) in
  match find_mn mns (fv_voter_mn_id v) with
  | None => (s, Err (VoterUnknown (fv_voter_mn_id v)))
  | Some mn =>
      if negb (fallback_vote_verify v (public_key (masternode mn))) then (s, Err FallbackVoteSignature)
      else if mg_engine s then
        if detect_vote_equivocation (mg_eng s) (fv_proposal_hash v) (fv_voter_mn_id v)
        then (put_engine (flag_byzantine (mg_eng s) (fv_voter_mn_id v)) s, Err (VoteEquivocation (fv_voter_mn_id v)))
        else
          let total := sum64 ((λ i, Z.max (sampling_weight (tier (masternode i))) 1) <$> mns) in
          let '(e, d) := accumulate_fallback_vote (mg_eng s) v total in
          let e := match d, get_proposal_txid e (fv_proposal_hash v) with
                   | Some d, Some t => finalize_from_fallback now e t d (winning_weight e (fv_proposal_hash v) d)
                   | _, _ => e
                   end in
          (gossip (NmFallbackVote v) (put_engine e s), Ok None)
      else (gossip (NmFallbackVote v) s, Ok None)
  end.

(** ** Comparing UTXO sets *)

Definition handle_utxo_state_query (os : list OutPoint) s : reply :=
  (s, Ok (if mg_utxo s then Some (NmUTXOStateResponse (omap (λ o, (λ st, (o, st)) <$> get_state (mg_utxos s) o) os)) else None)).
Definition handle_get_utxo_state_hash s : reply :=
  (s, Ok (Some (NmUTXOStateHashResponse (calculate_utxo_set_hash (mg_utxos s)) (current_height (mg_chain s))
                  (length (st_list_utxos (storage (mg_utxos s))))))).

(** All chunks but the last are sent on their own; the last is the reply. *)
Definition serve_chunks (peer : string) (whole : list UTXO → WireMsg) (part : Z → Z → list UTXO → WireMsg) s : reply :=
  let chunks := split_chunks (st_list_utxos (storage (mg_utxos s))) in
  let total := as_u32 (Z.of_nat (length chunks)) in
  if total =? 1 then (s, Ok (Some (whole (default [] (head chunks)))))
  else
    let n := Z.to_nat (total - 1) in
    (send_to peer (imap (λ i c, part (as_u32 (Z.of_nat i)) total c) (take n chunks)) s,
     Ok (Some (part (total - 1) total (default [] (last chunks))))).
Definition handle_get_utxo_set (peer : string) s : reply := serve_chunks peer NmUTXOSetResponse NmUTXOSetChunk s.
Definition handle_request_utxo_reconciliation (peer : string) (height : Z) (h : Hash256) s : reply :=
  if bool_decide (get_block_hash (mg_chain s) height = Some h)
  then serve_chunks peer (NmUtxoReconciliationResponse height) (NmUtxoReconciliationChunk height) s
  else (s, Ok None).

Definition put_rounds (n : Z) s : MsgNode :=
  let y := mg_sync s in set_mg_sync (mkUtxoSync (hash_cache y) n (set_chunks y) (reconcil_chunks y)) s.

(** The hashes other peers reported for our height: the votes for ours (with our own), and
    for each other hash its votes and the first peer that reported it. *)
Definition tally_entry (now : Clock) (height : Z) (ours : Hash256) (acc : Z * gmap Hash256 (Z * string))
    (en : string * PeerUtxoHashEntry) : Z * gmap Hash256 (Z * string) :=
  if UTXO_HASH_CACHE_TTL <? sat_sub (c_instant now) (he_received en.2) then acc
  else if negb (he_height en.2 =? height) then acc
  else if bool_decide (he_hash en.2 = ours) then (acc.1 + 1, acc.2)
  else let '(n, peer) := default (0, en.1) (acc.2 !! he_hash en.2) in (acc.1, <[he_hash en.2 := (n + 1, peer)]> acc.2).
Definition tally (now : Clock) (height : Z) (ours : Hash256) (cache : gmap string PeerUtxoHashEntry) : Z * gmap Hash256 (Z * string) :=
  foldl (tally_entry now height ours) (1, ∅) (iter cache).
(** The first of the alternatives with the most votes. *)
Definition best_alternative (alts : gmap Hash256 (Z * string)) : Z * option (Hash256 * string) :=
  foldl (λ best en, if best.1 <? en.2.1 then (en.2.1, Some (en.1, en.2.2)) else best) (0, None) (iter alts).
Definition total_votes (ours : Z) (alts : gmap Hash256 (Z * string)) : Z := ours + sumZ ((λ en, en.2.1) <$> iter alts).
(** A supermajority at first, then a majority, then a plurality with the lower hash at a tie. *)
Definition should_reconcile (rounds ours best total : Z) (our_hash : Hash256) (alt : option Hash256) : bool :=
  if rounds =? 0 then total * 2 <=? best * 3
  else if rounds =? 1 then total <? best * 2
  else (ours <? best) || ((best =? ours) && (0 <? best) && match alt with Some h => bytes_ltb h our_hash | None => false end).

Definition handle_utxo_state_hash_response (now : Clock) (peer : string) (h : Hash256) (height : Z) s : reply :=
  let y := mg_sync s in
  let s := set_mg_sync (mkUtxoSync (<[peer := mkHashEntry h height (c_instant now)]> (hash_cache y)) (divergence_rounds y)
                          (set_chunks y) (reconcil_chunks y)) s in
  let our_height := current_height (mg_chain s) in
  let our_hash := calculate_utxo_set_hash (mg_utxos s) in
  if negb (our_height =? height) then (s, Ok None)
  else if bool_decide (h = our_hash) then (put_rounds 0 s, Ok None)
  else
    let '(ours, alts) := tally now our_height our_hash (hash_cache (mg_sync s)) in
    let '(best, alt) := best_alternative alts in
    let rounds := divergence_rounds (mg_sync s) in
    match should_reconcile rounds ours best (total_votes ours alts) our_hash (fst <$> alt), alt with
    | true, Some _ =>
        if default 0 (mg_commits s !! peer) <? MIN_UTXO_CHUNK_COMMIT then (s, Ok None) else (s, Ok (Some NmGetUTXOSet))
    | _, _ => (put_rounds (as_u32 (rounds + 1)) s, Ok None)
    end.

Definition in_flight (st : UTXOState) : bool :=
  match st with Unspent | Locked _ _ | SpentPending _ _ _ _ => true | _ => false end.
Definition handle_utxo_set_response (remote : list UTXO) s : reply :=
  match get_utxo_diff (mg_utxos s) remote with
  | ([], []) => (put_rounds 0 s, Ok None)
  | (rem, add) =>
      let s := put_rounds 0 (put_utxos (reconcile_utxo_state (mg_utxos s) rem add) s) in
      let os := (filter (λ en : OutPoint * UTXOState, in_flight en.2 = true) (iter (utxo_states (mg_utxos s)))).*1 in
      (s, Ok (if bool_decide (os = []) then None else Some (NmUTXOStateQuery os)))
  end.

Definition put_set_chunks (b : gmap string (list UTXO)) s : MsgNode :=
  let y := mg_sync s in set_mg_sync (mkUtxoSync (hash_cache y) (divergence_rounds y) b (reconcil_chunks y)) s.
Definition put_reconcil_chunks (b : gmap string (Z * list UTXO)) s : MsgNode :=
  let y := mg_sync s in set_mg_sync (mkUtxoSync (hash_cache y) (divergence_rounds y) (set_chunks y) b) s.
(** [index + 1 < total] on [u32]. *)
Definition more_chunks (index total : Z) : bool := as_u32 (index + 1) <? total.
Definition handle_utxo_set_chunk (peer : string) (index total : Z) (chunk : list UTXO) s : reply :=
  let buf := set_chunks (mg_sync s) in
  let all := default [] (buf !! peer) ++ chunk in
  if more_chunks index total then (put_set_chunks (<[peer := all]> buf) s, Ok None)
  else handle_utxo_set_response all (put_set_chunks (delete peer buf) s).

(** Only outputs that are not stored are added. *)
Definition add_missing (m : UTXOStateManager S) (u : UTXO) : UTXOStateManager S :=
  if is_ok (get_utxo m (outpoint u)) then m else (add_utxo m u).1.
Definition handle_utxo_reconciliation_response (us : list UTXO) s : reply :=
  (put_utxos (foldl add_missing (mg_utxos s) us) s, Ok None).
Definition handle_utxo_reconciliation_chunk (peer : string) (height index total : Z) (chunk : list UTXO) s : reply :=
  let buf := reconcil_chunks (mg_sync s) in
  let '(h, us) := default (height, []) (buf !! peer) in
  if more_chunks index total then (put_reconcil_chunks (<[peer := (h, us ++ chunk)]> buf) s, Ok None)
  else handle_utxo_reconciliation_response (us ++ chunk) (put_reconcil_chunks (delete peer buf) s).

Definition handle_utxo_state_response (l : list (OutPoint * UTXOState)) s : reply :=
  if bool_decide (l = []) then (s, Ok None) else (put_utxos (apply_state_updates (mg_utxos s) l) s, Ok None).

(** The key under which a state update is remembered. *)
Definition lock_id (o : OutPoint) (st : UTXOState) : bytes :=
  op_txid o ++ le_bytes 4 (vout o) ++
  match st with
  | Locked t _ => 1 :: t
  | Unspent => [2]
  | SpentPending t _ _ _ => 3 :: t
  | SpentFinalized t _ _ => 4 :: t
  | Archived t _ _ => 5 :: t
  end.
Definition handle_utxo_state_update (now : Clock) (o : OutPoint) (st : UTXOState) s : reply :=
  match first_seen_lock now (lock_id o st) s with
  | (s, true) => (s, Ok None)
  | (s, false) =>
      (match st with
       | Locked t _ => if mg_engine s then put_utxos (lock_utxo (c_unix now) (mg_utxos s) o t).1 s else s
       | _ => s
       end, Ok None)
  end.

(** ** The dispatcher *)

Definition dispatch (now : Clock) (peer : string) (msg : WireMsg) s : reply :=
  match msg with
  | NmTransactionBroadcast tx => handle_transaction_broadcast now tx s
  | NmTransactionFinalized t tx => handle_transaction_finalized now t tx s
  | NmMempoolSyncRequest => handle_mempool_sync_request s
  | NmMempoolSyncResponse es => handle_mempool_sync_response now es s
  | NmFinalityVote v => handle_finality_vote_broadcast now v s
  | NmTimeVoteRequest t commitment slot tx => handle_timevote_request now t commitment slot tx s
  | NmTimeVoteResponse v => handle_timevote_response now v s
  | NmTimeProof p => handle_timeproof_broadcast p s
  | NmLivenessAlert a => handle_liveness_alert now a s
  | NmFinalityProposal p => handle_finality_proposal p s
  | NmFallbackVote v => handle_fallback_vote now v s
  | NmUTXOStateQuery os => handle_utxo_state_query os s
  | NmUTXOStateResponse l => handle_utxo_state_response l s
  | NmUTXOStateUpdate o st => handle_utxo_state_update now o st s
  | NmGetUTXOStateHash => handle_get_utxo_state_hash s
  | NmUTXOStateHashResponse h height _ => handle_utxo_state_hash_response now peer h height s
  | NmGetUTXOSet => handle_get_utxo_set peer s
  | NmUTXOSetResponse us => handle_utxo_set_response us s
  | NmUTXOSetChunk i n us => handle_utxo_set_chunk peer i n us s
  | NmRequestUtxoReconciliation height h => handle_request_utxo_reconciliation peer height h s
  | NmUtxoReconciliationResponse _ us => handle_utxo_reconciliation_response us s
  | NmUtxoReconciliationChunk height i n us => handle_utxo_reconciliation_chunk peer height i n us s
  end.

(** A message of a banned peer is refused; during the initial sync all of these wait. *)
Definition ban_gate (now : Clock) (peer : string) s : MsgNode * option ban_verdict :=
  match mg_bans s, parse_ip peer with
  | Some bl, Some ip => let '(bl, v) := is_banned (c_instant now) ip bl in (set_mg_bans (Some bl) s, v)
  | _, _ => (s, None)
  end.
Definition handle_message (now : Clock) (peer : string) (msg : WireMsg) s : reply :=
  match ban_gate now peer s with
  | (s, Some v) => (s, Err (PeerBanned v))
  | (s, None) => if is_syncing (mg_chain s) then (s, Ok None) else dispatch now peer msg s
  end.
End handlers.
