(* ===== verification/TxMessageProofs.v ===== *)
(** * What messages can do to a node

    Every handler of TxMessages.v changes the UTXO manager, the pool and the votes only
    through operations of those components ([engine_steps] of EngineSteps.v), so their invariants hold after
    any history of messages.  Then what stands behind an accepting vote of this node, and
    the exchange of a UTXO set in chunks. *)

From Stdlib Require Import ZArith Lia Ascii String SpecFloat.
From stdpp Require Import base gmap strings list relations.
From S2P Require Import Prelude Types Instances Address Finality Storage UtxoManager TransactionPool BlockVotes.
From S2P Require Import UtxoProofs UtxoTheorems PoolProofs Lru BlockTypes BlockVrf BlockCache BlockLedger Governance Registry Utf8 TxValidation.
From S2P Require Import TimeVoteEngine TxProofs Consensus ConsensusProofs Maintenance EngineSteps Fallback Chain ChainApply BlockSteps ForkChoice BanList NetGuards IpText BlockRound TxMessages.

(** ** Handlers *)

Definition msg_wf (msg : WireMsg) : Prop :=
  match msg with NmFinalityVote v | NmTimeVoteResponse v => u64_ok (voter_weight v) | _ => True end.

(** The votes in a message. *)
Definition brings (msg : WireMsg) (v : TimeVote) : Prop :=
  match msg with NmFinalityVote v' | NmTimeVoteResponse v' => v = v' | _ => False end.

Section handlers.
Context {S : Type} `{UtxoStorage S} `{MapIter} `{Externals} `{BlockExternals} `{!BlockCodec} `{LegacyCodec} `{Zstd} `{LruCrate}.
Context `{TxExternals} `{PoolCodec} `{VrfExternals} `{GovCodec} (utxo_size : UTXO → option Z).
Context {arrives : list MasternodeInfo → TimeVote → Prop}.
Implicit Types (s : MsgNode (S := S)) (e : ConsensusEngine S).
Abbreviation Blockchain := (Blockchain (S := S)).
Abbreviation engine_steps := (engine_steps (arrives := arrives)).

Lemma create_new_outputs_steps t idx outs (m : UTXOStateManager S) : utxo_steps m (create_new_outputs t idx outs m).
Proof.
  revert idx m. induction outs as [|o outs IH]; intros idx m; cbn; [done|]. etrans; [|apply IH].
  pose proof (steps_add m (output_utxo t idx o)) as Ha. destruct (add_utxo m _) as [m' [|]]; cbn in *; [|done].
  etrans; [done|apply steps_update].
Qed.

Definition node_steps s s' : Prop := engine_steps (mg_eng s) (mg_eng s').
#[export] Instance node_steps_refl : Reflexive node_steps.
Proof. intros s. unfold node_steps. reflexivity. Qed.
#[export] Instance node_steps_trans : Transitive node_steps.
Proof. intros s1 s2 s3. unfold node_steps. apply transitivity. Qed.

Lemma node_same s s' : mg_eng s' = mg_eng s → node_steps s s'.
Proof. unfold node_steps. intros ->. reflexivity. Qed.
Lemma node_put_engine s e : engine_steps (mg_eng s) e → node_steps s (put_engine e s).
Proof. done. Qed.
Lemma node_gossip s e msg : engine_steps (mg_eng s) e → node_steps s (gossip msg (put_engine e s)).
Proof. done. Qed.
Lemma node_put_utxos s m : utxo_steps (mg_utxos s) m → node_steps s (put_utxos m s).
Proof. intros Hm. by apply node_put_engine, es_set_utxo. Qed.
Lemma seen_tx_eng now t s : mg_chain (first_seen_tx now t s).1 = mg_chain s ∧ mg_engine (first_seen_tx now t s).1 = mg_engine s.
Proof. unfold first_seen_tx. by destruct (seen_check now t _). Qed.
Lemma seen_final_eng now t s : mg_chain (first_seen_final now t s).1 = mg_chain s ∧ mg_engine (first_seen_final now t s).1 = mg_engine s.
Proof. unfold first_seen_final. by destruct (seen_check now t _). Qed.
Lemma seen_lock_eng now k s : mg_chain (first_seen_lock now k s).1 = mg_chain s ∧ mg_engine (first_seen_lock now k s).1 = mg_engine s.
Proof. unfold first_seen_lock. by destruct (seen_check now k _). Qed.
Lemma same_chain s s' : mg_chain s' = mg_chain s → node_steps s s'.
Proof. intros E. apply node_same. unfold mg_eng. by rewrite E. Qed.

Lemma broadcast_steps now tx s : node_steps s (handle_transaction_broadcast now tx s).1.
Proof.
  unfold handle_transaction_broadcast. pose proof (proj1 (seen_tx_eng now (txid tx) s)) as Hs.
  destruct (first_seen_tx _ _ s) as [s1 seen]. cbn in Hs. apply same_chain in Hs. destruct seen; [done|].
  destruct (negb _); [done|]. destruct (has_transaction _ _); [done|]. destruct (inputs_already_spent_by_other _ _ _); [done|].
  pose proof (lock_and_validate_steps (arrives := arrives) now tx (mg_eng s1)) as Hl. destruct (lock_and_validate_transaction _ _ _) as [e [fee|]]; cbn in *;
    (etrans; [exact Hs|]); [|by apply node_put_engine].
  pose proof (process_steps (arrives := arrives) now (mg_active s1) tx (Some fee) e) as Hp.
  destruct (process_transaction _ _ _ _ _) as [e' [|]]; cbn in *; (etrans; [apply (node_put_engine s1 e'); by etrans|]); by apply node_same.
Qed.

Lemma admit_steps now t tx e : engine_steps e (admit_finalized now t tx e).1.
Proof.
  unfold admit_finalized. destruct (negb _).
  - pose proof (lock_and_validate_steps (arrives := arrives) now tx e) as Hl. destruct (lock_and_validate_transaction _ _ _) as [e' [fee|]]; [|done].
    etrans; [exact Hl|]. apply es_set_pool, pool_add.
  - pose proof (validate_locks_steps (arrives := arrives) now tx (txid tx) e) as Hv. by destruct (validate_locks _ _ _ _) as [e' [|]].
Qed.
Lemma finalize_here_steps now t tx e : engine_steps e (finalize_here now t tx e).
Proof.
  unfold finalize_here. pose proof (pool_confirm (tx_pool e) t) as Hp. destruct (confirm_transaction _ _) as [p moved]; cbn in *.
  pose proof (es_set_pool (arrives := arrives) e p Hp) as He. destruct moved; cbn; [|by eapply es_quiet_after, He].
  eapply es_quiet_after, (transitivity He (es_set_utxo _ _ (apply_finalized_steps now t tx _))); done.
Qed.
Lemma finalized_steps now t tx s : node_steps s (handle_transaction_finalized now t tx s).1.
Proof.
  unfold handle_transaction_finalized. destruct (is_syncing _); [done|]. pose proof (proj1 (seen_final_eng now t s)) as Hs.
  destruct (first_seen_final _ _ s) as [s1 seen]. cbn in Hs. apply same_chain in Hs. destruct seen; [done|].
  repeat (match goal with |- context [if ?b then (s1, _) else _] => destruct b; [exact Hs|] end).
  destruct (negb (forallb _ _)); cbn.
  - etrans; [exact Hs|]. etrans; [apply (node_put_utxos s1), create_new_outputs_steps|]. by apply node_same.
  - repeat (match goal with |- context [if ?b then (s1, _) else _] => destruct b; [exact Hs|] end).
    pose proof (admit_steps now t tx (mg_eng s1)) as Ha. destruct (admit_finalized _ _ _ _) as [e [|]]; cbn in *; (etrans; [exact Hs|]); [|done].
    etrans; [apply (node_put_engine s1); etrans; [exact Ha|apply (finalize_here_steps now t tx)]|]. by apply node_same.
Qed.

Lemma sync_entry_steps now s en : node_steps s (sync_entry now s en).
Proof.
  unfold sync_entry. destruct (has_transaction _ _); [done|]. destruct (is_tx_archived _ _); [done|]. destruct (old_transfer _); [done|].
  destruct (se_is_finalized en); [|apply node_put_engine, process_steps]. destruct (_ && _); [done|]. cbv zeta.
  set (s1 := put_engine (set_pool _ _) s).
  assert (node_steps s s1) as Hs1.
  { apply node_put_engine, es_set_pool. apply (pool_exec_step _ (PAddFinalized (c_instant now) (se_tx en) (se_fee en))). }
  destruct (mg_utxo s1); [|done]. etrans; [exact Hs1|]. apply node_put_utxos.
  etrans; [apply spend_inputs_steps|apply create_new_outputs_steps].
Qed.
Lemma sync_response_steps now es s : node_steps s (handle_mempool_sync_response now es s).1.
Proof.
  unfold handle_mempool_sync_response. case_bool_decide; [done|]. destruct (mg_engine s); [|done]. cbn.
  apply (foldl_preserve (sync_entry now) (node_steps s)); [|done]. intros s' en Hs'. etrans; [exact Hs'|apply sync_entry_steps].
Qed.

Lemma accumulate_steps now v s : arrives (mg_active s) v → u64_ok (voter_weight v) → node_steps s (accumulate now v s).1.
Proof.
  intros Ha Hv. unfold accumulate. destruct (accumulate_timevote _ _ _) as [c r] eqn:E. cbn. apply node_put_engine, es_set_votes, rtc_once.
  eapply vs_vote; [exact Ha|exact Hv|]. by rewrite E.
Qed.
Lemma finality_vote_steps now v s : arrives (mg_active s) v → u64_ok (voter_weight v) → node_steps s (handle_finality_vote_broadcast now v s).1.
Proof.
  intros Ha Hv. unfold handle_finality_vote_broadcast. destruct (registry_get _ _); [|done]. destruct (negb _); [done|].
  destruct (mg_engine s); [|done]. by apply accumulate_steps.
Qed.
Lemma requested_steps now t tx e : engine_steps e (requested_tx now t tx e).1.
Proof.
  unfold requested_tx. destruct (get_pending _ _); [done|]. destruct tx as [tx|]; [|done].
  pose proof (lock_and_validate_steps (arrives := arrives) now tx e) as Hl. destruct (lock_and_validate_transaction _ _ _) as [e' [fee|]]; [|done]. cbn in Hl.
  pose proof (pool_add (c_instant now) (tx_pool e') tx fee) as Ha.
  destruct (add_pending _ _ _ _) as [p [|]]; (etrans; [exact Hl|]); by apply es_set_pool.
Qed.
Lemma decision_steps now t k tx e : engine_steps e (vote_decision now t k tx e).1.
Proof.
  unfold vote_decision. destruct tx as [tx|]; [|by destruct (_ || _)]. case_bool_decide; [done|].
  pose proof (validate_locks_steps (arrives := arrives) now tx (txid tx) e) as Hv. by destruct (validate_locks _ _ _ _) as [e' [|]].
Qed.
Lemma request_steps now t k slot tx s : node_steps s (handle_timevote_request now t k slot tx s).1.
Proof.
  unfold handle_timevote_request. destruct (negb _); [done|].
  pose proof (requested_steps now t tx (mg_eng s)) as Hr. destruct (requested_tx _ _ _ _) as [e tx']. cbn in Hr.
  pose proof (decision_steps now t k tx' e) as Hd. destruct (vote_decision _ _ _ _ _) as [e' d]. cbn in *.
  apply node_put_engine. by etrans.
Qed.
Lemma finalize_response_steps now t w e : engine_steps e (finalize_response now t w e).
Proof.
  unfold finalize_response. cbv zeta. set (e1 := set_timevote _ e).
  assert (engine_steps e e1) as H1' by by apply es_quiet.
  pose proof (pool_confirm (tx_pool e1) t) as Hp. destruct (confirm_transaction _ _) as [p moved]; cbn [fst] in Hp.
  pose proof (transitivity H1' (es_set_pool e1 p Hp)) as H2'. destruct moved; [|exact H2'].
  set (e2 := match get_pending _ _ with Some _ => _ | None => _ end).
  assert (engine_steps e e2) as H3'.
  { unfold e2. destruct (get_pending _ _); [|exact H2']. etrans; [exact H2'|]. apply es_set_utxo, apply_finalized_steps. }
  etrans; [|apply assemble_tail_steps]. eapply es_quiet_after, H3'; done.
Qed.
Lemma response_steps now v s : arrives (mg_active s) v → u64_ok (voter_weight v) → node_steps s (handle_timevote_response now v s).1.
Proof.
  intros Hr Hv. unfold handle_timevote_response. destruct (negb _); [done|]. pose proof (accumulate_steps now v s Hr Hv) as Ha.
  destruct (accumulate now v s) as [s1 [w|]]; [|done]. destruct (w <? _); [done|]. case_bool_decide; [done|].
  etrans; [exact Ha|]. apply node_put_engine, finalize_response_steps.
Qed.

Lemma confirm_stall_steps now n a e : engine_steps e (confirm_stall now n a e).
Proof.
  unfold confirm_stall. destruct (get_tx_status _ _) as [[]|]; try done. destruct (check_stall_timeout _ _ _); [|done].
  unfold accumulate_liveness_alert. cbv zeta. by destruct (_ <=? _)%nat; apply es_quiet.
Qed.
Lemma alert_steps now a s : node_steps s (handle_liveness_alert now a s).1.
Proof.
  unfold handle_liveness_alert. cbv zeta. destruct (find_mn _ _); [|done]. destruct (negb _); [done|].
  destruct (mg_engine s); [|by apply node_same]. destruct (detect_alert_equivocation _ _ _); [by apply node_put_engine, es_quiet|].
  apply node_gossip, confirm_stall_steps.
Qed.
Lemma proposal_steps p s : node_steps s (handle_finality_proposal p s).1.
Proof.
  unfold handle_finality_proposal. cbv zeta. destruct (find_mn _ _); [|done]. destruct (negb _); [done|].
  destruct (mg_engine s); [|by apply node_same]. set (e := if (1 <? _)%nat then _ else _).
  assert (engine_steps (mg_eng s) e) as He by (unfold e; destruct (1 <? _)%nat; by apply es_quiet).
  case_bool_decide; [|done]. apply node_gossip. etrans; [exact He|].
  unfold broadcast_fallback_vote. repeat case_match; by apply es_quiet.
Qed.
Lemma fallback_vote_steps now v s : node_steps s (handle_fallback_vote now v s).1.
Proof.
  unfold handle_fallback_vote. cbv zeta. destruct (find_mn _ _); [|done]. destruct (negb _); [done|].
  destruct (mg_engine s); [|by apply node_same]. destruct (detect_vote_equivocation _ _ _); [by apply node_put_engine, es_quiet|].
  destruct (accumulate_fallback_vote _ _ _) as [e d] eqn:E.
  assert (engine_steps (mg_eng s) e) as He by (unfold accumulate_fallback_vote in E; simplify_eq/=; by apply es_quiet).
  apply node_gossip. etrans; [exact He|].
  destruct d as [d|]; [|done]. destruct (get_proposal_txid _ _); [|done]. destruct d; by apply es_quiet.
Qed.

Lemma serve_same peer whole part s : mg_eng (serve_chunks utxo_size peer whole part s).1 = mg_eng s.
Proof. unfold serve_chunks. by destruct (_ =? 1). Qed.
Lemma hash_response_same now peer h height s : mg_eng (handle_utxo_state_hash_response now peer h height s).1 = mg_eng s.
Proof. unfold handle_utxo_state_hash_response. repeat case_match; simplify_eq/=; done. Qed.
Lemma set_response_steps us s : node_steps s (handle_utxo_set_response us s).1.
Proof.
  unfold handle_utxo_set_response. destruct (get_utxo_diff _ us) as [rem add].
  assert (node_steps s (put_rounds 0 (put_utxos (reconcile_utxo_state (mg_utxos s) rem add) s))) as Hr.
  { etrans; [apply (node_put_utxos s), steps_reconcile|]. by apply node_same. }
  destruct rem, add; [by apply node_same|exact Hr..].
Qed.
Lemma missing_steps us s : node_steps s (handle_utxo_reconciliation_response us s).1.
Proof.
  apply node_put_utxos, utxo_fold. intros m u. unfold add_missing. destruct (is_ok _); [done|apply steps_add].
Qed.
Lemma state_update_steps now o st s : node_steps s (handle_utxo_state_update now o st s).1.
Proof.
  unfold handle_utxo_state_update. pose proof (proj1 (seen_lock_eng now (lock_id o st) s)) as Hs.
  destruct (first_seen_lock _ _ s) as [s1 seen]. cbn in Hs. apply same_chain in Hs. destruct seen; [done|].
  etrans; [exact Hs|]. destruct st; try done. cbn. destruct (mg_engine s1); [|done]. apply node_put_utxos, steps_lock.
Qed.

Lemma dispatch_steps now peer msg s : msg_wf msg → (∀ v, brings msg v → arrives (mg_active s) v) →
  node_steps s (dispatch utxo_size now peer msg s).1.
Proof.
  intros Hw Hb. destruct msg; cbn [dispatch msg_wf brings] in *;
    first [ by apply node_same | apply node_same, serve_same | apply node_same, hash_response_same
          | auto using broadcast_steps, finalized_steps, sync_response_steps, finality_vote_steps, request_steps, response_steps,
              alert_steps, proposal_steps, fallback_vote_steps, set_response_steps, missing_steps, state_update_steps | idtac ].
  - unfold handle_timeproof_broadcast. destruct (negb _); [done|]. destruct (verify_timeproof _ _); [|done].
    by apply node_put_engine, es_quiet.
  - unfold handle_utxo_state_response. case_bool_decide; [done|]. apply node_put_utxos, steps_apply.
  - unfold handle_utxo_set_chunk. destruct (more_chunks _ _); [by apply node_same|].
    etrans; [|apply set_response_steps]. by apply node_same.
  - unfold handle_request_utxo_reconciliation. case_bool_decide; [apply node_same, serve_same|done].
  - unfold handle_utxo_reconciliation_chunk. destruct (default _ _) as [h us0]. destruct (more_chunks _ _); [by apply node_same|].
    etrans; [|apply missing_steps]. by apply node_same.
Qed.
Lemma ban_gate_chain now peer s : mg_chain (ban_gate now peer s).1 = mg_chain s.
Proof. unfold ban_gate. repeat case_match; simplify_eq/=; done. Qed.
Lemma message_steps now peer msg s : msg_wf msg → (∀ v, brings msg v → arrives (mg_active s) v) →
  node_steps s (handle_message utxo_size now peer msg s).1.
Proof.
  intros Hw Hv. unfold handle_message. pose proof (ban_gate_chain now peer s) as Hb. destruct (ban_gate now peer s) as [s1 [v|]]; cbn in Hb;
    [by apply same_chain|]. pose proof (same_chain s s1 Hb) as Hn. destruct (is_syncing _); [done|]. etrans; [exact Hn|].
  apply dispatch_steps; [done|]. unfold mg_active. by rewrite Hb.
Qed.

End handlers.

(** ** Histories *)

Section events.
Context {S : Type} `{UtxoStorage S} `{MapIter} `{Externals} `{BlockExternals} `{!BlockCodec} `{LegacyCodec} `{Zstd} `{LruCrate}.
Context `{TxExternals} `{PoolCodec} `{VrfExternals} `{GovCodec} (utxo_size : UTXO → option Z).
Implicit Types (s : MsgNode (S := S)).

(** What happens to a node: a message of any peer, a transaction of the local wallet, a round
    of the monitor of a vote or its end, the upkeep of the pool, a block that is added, and
    whatever other tasks do to the chain and the registry without touching the engine.  Blocks
    that are taken back are not among it. *)
Inductive node_event :=
| EvMessage (now : Clock) (peer : string) (msg : WireMsg)
| EvSubmit (now : Clock) (tx : Transaction)
| EvTick (now : Clock) (mon : Monitor)
| EvVoteEnd (t : Hash256)
| EvRetry (now : Clock) | EvEvictStale (now : Clock) (max_age : Z) | EvRebroadcast (t : Hash256)
| EvRestart (now : Clock)                                   (* the repairs of the start-up *)
| EvBlock (now : Z) (b : Block)
| EvOther (c : Blockchain (S := S)).
Definition event_wf (v : node_event) : Prop := match v with EvMessage _ _ msg => msg_wf msg | _ => True end.
Definition node_event_exec s (v : node_event) : MsgNode :=
  match v with
  | EvMessage now peer msg => (handle_message utxo_size now peer msg s).1
  | EvSubmit now tx => put_engine (submit_transaction now (mg_active s) tx (mg_eng s)).1 s
  | EvTick now mon => put_engine (vote_tick now (mg_active s) mon (mg_eng s)).1 s
  | EvVoteEnd t => put_engine (end_vote t (mg_eng s)) s
  | EvRetry now => put_engine (retry_stuck_pending_transactions now (mg_eng s)).1 s
  | EvEvictStale now max_age => put_engine (evict_stale_pending_transactions now max_age (mg_eng s)).1 s
  | EvRebroadcast t => put_engine (rebroadcast_transaction (mg_eng s) t).1 s
  | EvRestart now =>
      let e := (evict_finalized_with_missing_inputs (purge_banned_transactions (mg_eng s)).1).1 in
      put_engine (tombstone_confirmed_inputs_on_startup now e).1 s
  | EvBlock now b => set_mg_chain (add_block now (mg_chain s) b).1 s
  | EvOther c => set_mg_chain (set_engine (mg_eng s) c) s
  end.
Definition node_history s (vs : list node_event) : MsgNode := foldl node_event_exec s vs.

(** The vote [v] came in this event, and its signature was valid under the key that the node
    then had for its voter among the active masternodes. *)
Definition came_signed s (e : node_event) (v : TimeVote) : Prop :=
  (∃ now peer msg, e = EvMessage now peer msg ∧ brings msg v) ∧ valid_under (mg_active s) v.
Definition arrives_in s (e : node_event) (mns : list MasternodeInfo) (v : TimeVote) : Prop :=
  mns = mg_active s ∧ ∃ now peer msg, e = EvMessage now peer msg ∧ brings msg v.
Lemma event_steps s v : event_wf v → node_steps (arrives := arrives_in s v) s (node_event_exec s v).
Proof.
  intros Hw. destruct v; cbn [node_event_exec].
  - apply message_steps; [done|]. intros v Hv. split; [done|]. by exists now, peer, msg.
  - apply node_put_engine, submit_steps.
  - apply node_put_engine, vote_tick_steps.
  - by apply node_put_engine, es_quiet.
  - apply node_put_engine, retry_steps.
  - apply node_put_engine, evict_stale_steps.
  - apply node_put_engine, rebroadcast_steps.
  - apply node_put_engine. etrans; [apply purge_steps|]. etrans; [apply evict_missing_steps|apply tombstone_steps].
  - unfold node_steps, mg_eng. cbn. apply add_block_engine.
  - by apply node_same.
Qed.
End events.

(** ** What a history preserves *)

Section preserved.
Context {S : Type} `{UtxoStorageLaws S} `{!StorageReliable S} `{MapIter} `{Externals} `{BlockExternals} `{!BlockCodec} `{LegacyCodec} `{Zstd} `{LruCrate}.
Context `{TxExternals} `{PoolCodec} `{VrfExternals} `{GovCodec} (utxo_size : UTXO → option Z).
Implicit Types (s : MsgNode (S := S)).

Lemma utxo_steps_inv (m m' : UTXOStateManager S) : utxo_steps m m' → inv m → inv m'.
Proof. induction 1 as [|m1 m2 m3 (p & _ & ->) _ IH]; [done|]. intros Hi. by apply IH, exec_inv. Qed.
Lemma utxo_steps_spent (m m' : UTXOStateManager S) o : utxo_steps m m' → o ∈ spent_tombstones m → o ∈ spent_tombstones m'.
Proof. induction 1 as [|m1 m2 m3 (p & Hp & ->) _ IH]; [done|]. intros Ho. by apply IH, exec_keeps_tombstone. Qed.
Lemma vote_steps_inv arrives (good good' : TimeVote → Prop) c c' :
  (∀ v, good v → good' v) → (∀ mns v, arrives mns v → valid_under mns v → good' v) →
  vote_steps arrives c c' → tvc_inv good c → tvc_inv good' c'.
Proof.
  intros Hg Ha Hs Hi. assert (tvc_inv good' c) as Hi' by (by eapply tvc_inv_mono). clear Hi.
  induction Hs as [|c1 c2 c3 Hs _ IH]; [done|]. apply IH. destruct Hs as [mns v Hv Hw ->|t E1 E2|E1 E2].
  - apply accumulate_inv; [by apply Ha|done|done].
  - by eapply tvc_inv_delete.
  - by eapply tvc_inv_same.
Qed.

(** Outputs are consistent, the pool is, and the votes on each transaction are of distinct
    voters, all [good], and add up to the weight kept for them. *)
Record node_sound (good : TimeVote → Prop) s : Prop := mkNodeSound {
  ns_utxo : inv (mg_utxos s);
  ns_pool : pool_inv (tx_pool (mg_eng s));
  ns_votes : tvc_inv good (timevote (mg_eng s));
}.
(** The vote came in an event of the history, signed with the key its voter had there. *)
Definition received_signed s (vs : list node_event) (v : TimeVote) : Prop :=
  ∃ pre e post, vs = pre ++ e :: post ∧ came_signed (node_history utxo_size s pre) e v.
Lemma history_sound good s vs : Forall event_wf vs → node_sound good s →
  node_sound (λ v, good v ∨ received_signed s vs v) (node_history utxo_size s vs)
  ∧ ∀ o, o ∈ spent_tombstones (mg_utxos s) → o ∈ spent_tombstones (mg_utxos (node_history utxo_size s vs)).
Proof.
  intros Hw Hs. induction vs as [|e vs IH] using rev_ind.
  { split; [|done]. destruct Hs as [Hu Hp Hv]. split; [done..|]. eapply tvc_inv_mono; [|exact Hv]. by left. }
  apply Forall_app in Hw as [Hw He]. apply list.Forall_cons in He as [He _]. destruct (IH Hw) as [[Hu Hp Hv] Ht]. clear IH.
  unfold node_history in *. rewrite foldl_snoc. set (s1 := foldl _ s vs) in *. destruct (event_steps utxo_size s1 e He) as [Su Sp Sv].
  split; [split|].
  - by eapply utxo_steps_inv.
  - by eapply pool_steps_inv.
  - eapply vote_steps_inv; [| |exact Sv|exact Hv].
    + intros v [?|(pre & e' & post & -> & Hc)]; [by left|]. right. exists pre, e', (post ++ [e]). split; [by rewrite <- app_assoc|done].
    + intros mns v [-> Hm] Hval. right. exists vs, e, []. done.
  - intros o Ho. eapply utxo_steps_spent; [exact Su|by apply Ht].
Qed.

(** C15: Whatever peers send: after any history of the 22 messages about transactions, votes
    and UTXO sets from any peers, of local submissions and vote monitoring, of the timers
    that retry, evict and rebroadcast transactions, of the repairs at start-up, of blocks
    that are added to the chain, and of changes by other tasks to anything but the consensus
    engine, while writes to the storage succeed and no block is taken back, the UTXO set,
    the pool and the accumulated votes of a node are consistent; every vote counted, beyond
    those counted at the beginning, came from a distinct voter in a message of the history
    with a signature valid under the key that the active masternodes then had for the voter;
    and an output that was spent at the beginning is not in the set and cannot be added
    again. *)
Theorem message_history_sound good s vs :
  Forall event_wf vs → node_sound good s →
  let s' := node_history utxo_size s vs in
  node_sound (λ v, good v ∨ received_signed s vs v) s' ∧
  ∀ o, o ∈ spent_tombstones (mg_utxos s) → st_view (storage (mg_utxos s')) !! o = None ∧
    (∀ u, outpoint u = o → (add_utxo (mg_utxos s') u).2 = Err AlreadySpent).
Proof.
  intros Hw Hs. cbv zeta. destruct (history_sound good s vs Hw Hs) as [Hn Ht]. split; [done|].
  intros o Ho. specialize (Ht o Ho). split; [apply inv_tomb; [apply Hn|done]|].
  intros u <-. unfold add_utxo. by rewrite bool_decide_true.
Qed.
End preserved.

(** ** Accepting votes *)

Section votes.
Context {S : Type} `{UtxoStorage S} `{MapIter} `{Externals} `{BlockExternals} `{!BlockCodec} `{LegacyCodec} `{Zstd} `{LruCrate}.
Context `{TxExternals} `{PoolCodec} `{VrfExternals} `{GovCodec}.
Implicit Types (s : MsgNode (S := S)) (e : ConsensusEngine S).

(** The ledger lets the transaction pass: it is special, or done already, or its inputs are
    available and signed for and its amounts add up. *)
Definition passes_ledger (sched : FeeSchedule) (m : UTXOStateManager S) (tx : Transaction) : Prop :=
  Z.of_nat (length (tx_bincode tx)) ≤ MAX_TX_SIZE ∧ check_special tx = Ok tt ∧
  (is_masternode_reg tx || is_masternode_dereg tx = true ∨ inputs_done m (txid tx) (inputs tx) ∨
   ∃ fee us, tx_accepted sched m tx (txid tx) fee us).

Lemma requested_pending now t from e e' tx : pool_inv (tx_pool e) → requested_tx now t from e = (e', Some tx) →
  get_pending (tx_pool e') (txid tx) = Some tx ∧ (txid tx = t ∨ from = Some tx).
Proof.
  intros Hp. unfold requested_tx. destruct (get_pending (tx_pool e) t) as [tx'|] eqn:E.
  - intros [= <- <-]. unfold get_pending in E. apply fmap_Some in E as (pe & Hpe & ->).
    destruct (pi_pending _ Hp t pe Hpe) as [Ht _]. rewrite Ht. unfold get_pending. rewrite Hpe. auto.
  - destruct from as [tx'|]; [|done]. destruct (lock_and_validate_transaction _ _ _) as [e1 [fee|]]; [|done].
    destruct (add_pending _ _ _ _) as [p [[]|]] eqn:Ea; [|done]. intros [= <- <-].
    destruct (add_pending_ok _ _ _ _ _ Ea) as (_ & pe & Hpe & <-). cbn. unfold get_pending. rewrite Hpe. auto.
Qed.
Lemma decision_accept now t k tx e e' : vote_decision now t k (Some tx) e = (e', Accept) →
  calculate_tx_commitment tx = k ∧ tx_pool e' = tx_pool e ∧ identity e' = identity e ∧
  ∃ m, same_ledger m (utxo_manager e') ∧ passes_ledger (fee_schedule e') m tx.
Proof.
  unfold vote_decision. case_bool_decide as Hk; [done|]. unfold validate_locks.
  pose proof (validate_with_locks_iff (c_unix now) (ai_validator e) (fee_schedule e) (utxo_manager e) tx (txid tx)) as Hv.
  destruct (validate_transaction_with_locks _ _ _ _ _ _) as [[ai m] r]. destruct Hv as (_ & Hm & Hr).
  destruct r as [fee|]; [|done]. intros [= <-]. destruct (proj1 (Hr fee) eq_refl) as (_ & Hsz & Hsp & Hacc).
  split_and!; [done..|]. exists (utxo_manager e). cbn. split; [done|]. split_and!; [done..|].
  destruct (_ || _); [by left|]. right. destruct Hacc as [[Hd _]|[us Hus]]; [by left|]. right. by exists fee, us.
Qed.

(** C16: An accepting vote of this node has grounds: it is signed with the node's key for
    the requested transaction id, commitment and slot, with the weight of its tier, and
    either the transaction is finalized here already, or a transaction with that commitment
    is pending here - the one with the requested id, or the one sent along - and the ledger
    lets it pass: it is special, or done already, or its inputs are available and signed for
    by their owners, and its amounts and fee add up. *)
Theorem accept_vote_sound now t k slot from s s' v :
  pool_inv (tx_pool (mg_eng s)) →
  handle_timevote_request now t k slot from s = (s', Ok (Some (NmTimeVoteResponse v))) → decision v = Accept →
  (∃ id mn, identity (mg_eng s') = Some id ∧ find_mn (mg_active s) (id_address id) = Some mn ∧
     v = sign_finality_vote id 1 t k slot Accept (id_address id) (sampling_weight (tier (masternode mn)))) ∧
  (is_finalized (tx_pool (mg_eng s')) t = true ∨ is_Some (tvc_finalized (timevote (mg_eng s')) !! t) ∨
   ∃ tx, calculate_tx_commitment tx = k ∧ get_pending (tx_pool (mg_eng s')) (txid tx) = Some tx ∧ (txid tx = t ∨ from = Some tx) ∧
     ∃ m, same_ledger m (mg_utxos s') ∧ passes_ledger (fee_schedule (mg_eng s')) m tx).
Proof.
  intros Hp Heq Hd. unfold handle_timevote_request in Heq. destruct (negb _); [done|].
  destruct (requested_tx now t from (mg_eng s)) as [e tx] eqn:Er. destruct (vote_decision now t k tx e) as [e' d] eqn:Ed.
  injection Heq as <- Hv. unfold sign_timevote in Hv.
  destruct (identity e') as [id|] eqn:Ei; [|done]. cbn in Hv. destruct (find_mn _ _) as [mn|] eqn:Em; [|done]. cbn in Hv.
  injection Hv as <-. cbn in Hd. subst d. split; [by exists id, mn|]. destruct tx as [tx|].
  - destruct (requested_pending _ _ _ _ _ _ Hp Er) as [Hg Hf]. destruct (decision_accept _ _ _ _ _ _ Ed) as (Hk & Hpool & _ & m & Hm & Ha).
    right. right. exists tx. unfold mg_utxos, mg_eng in *. cbn. rewrite Hpool. split_and!; [done..|]. by exists m.
  - unfold vote_decision in Ed. unfold mg_eng. cbn. destruct (is_finalized (tx_pool e) t) eqn:Ef; cbn in Ed.
    + injection Ed as <-. by left.
    + case_bool_decide; [|done]. injection Ed as <-. auto.
Qed.
End votes.

(** ** A UTXO set sent in chunks *)

Section chunks.
Variable utxo_size : UTXO → option Z.
Abbreviation weight := (chunk_weight utxo_size).

Definition chunk_fits (c : list UTXO) : Prop := length c = 1%nat ∨ 8 + sumZ (weight <$> c) ≤ MAX_CHUNK_BYTES.
Lemma chunk_loop_spec us cur bytes done :
  bytes = 8 + sumZ (weight <$> cur) → (cur = [] ∨ chunk_fits cur) → Forall chunk_fits done →
  let cs := chunk_loop utxo_size us cur bytes done in concat cs = concat done ++ cur ++ us ∧ Forall chunk_fits cs.
Proof.
  revert cur bytes done. induction us as [|u us IH]; intros cur bytes done -> Hc Hd; cbn [chunk_loop]; cbv zeta.
  - destruct cur as [|c cur]; [by rewrite !app_nil_r|]. destruct Hc as [|Hc]; [done|].
    rewrite concat_app. cbn. rewrite !app_nil_r. split; [done|]. apply Forall_app. by split; [|apply Forall_singleton].
  - case_bool_decide as He; cbn [negb]; rewrite ?andb_false_r, ?andb_true_r.
    + subst cur. destruct (IH [u] (8 + sumZ (weight <$> []) + weight u) done) as [E F];
        [cbn; unfold sumZ; cbn; lia|by right; left|done|]. cbn [app]. by rewrite E.
    + destruct Hc as [|Hc]; [done|]. destruct (Z.ltb_spec MAX_CHUNK_BYTES (8 + sumZ (weight <$> cur) + weight u)).
      * destruct (IH [u] (8 + weight u) (done ++ [cur])) as [E F]; [cbn; unfold sumZ; cbn; lia|by right; left| |].
        { apply Forall_app. by split; [|apply Forall_singleton]. }
        rewrite E, concat_app. cbn. by rewrite app_nil_r, <- !app_assoc.
      * assert (sumZ (weight <$> cur ++ [u]) = sumZ (weight <$> cur) + weight u) as Hw.
        { rewrite fmap_app, sumZ_app. cbn. unfold sumZ. cbn. lia. }
        destruct (IH (cur ++ [u]) (8 + sumZ (weight <$> cur) + weight u) done) as [E F];
          [lia|right; right; lia|done|]. by rewrite E, <- app_assoc.
Qed.
Lemma split_chunks_spec us : let cs := split_utxos_into_chunks utxo_size us in
  cs ≠ [] ∧ concat cs = us ∧ Forall chunk_fits (if bool_decide (us = []) then [] else cs).
Proof.
  unfold split_utxos_into_chunks. destruct (chunk_loop_spec us [] 8 []) as [E F]; [done|by left|done|].
  destruct (chunk_loop utxo_size us [] 8 []) as [|c cs]; cbn in *.
  - subst us. done.
  - split_and!; [done|done|]. case_bool_decide; done.
Qed.
End chunks.

Section exchange.
Context {S : Type} `{UtxoStorage S} `{MapIter} `{Externals} `{BlockExternals} `{!BlockCodec} `{LegacyCodec} `{Zstd} `{LruCrate}.
Context `{TxExternals} `{PoolCodec} `{VrfExternals} `{GovCodec} (utxo_size : UTXO → option Z).
Implicit Types (s cli srv : MsgNode (S := S)).

Definition receive_all (now : Clock) (peer : string) (ms : list WireMsg) s : MsgNode :=
  foldl (λ s m, (dispatch utxo_size now peer m s).1) s ms.
Lemma put_chunks_twice B B' s : put_set_chunks B (put_set_chunks B' s) = put_set_chunks B s.
Proof. done. Qed.
Lemma put_chunks_same s : put_set_chunks (set_chunks (mg_sync s)) s = s.
Proof. by destruct s as [? ? ? ? ? ? ? [] ? ?]. Qed.

Lemma receive_chunks now peer k total cs s :
  Z.of_nat (k + length cs) < total → total < U32 →
  ∃ B, receive_all now peer (imap (λ i c, NmUTXOSetChunk (as_u32 (Z.of_nat (k + i))) total c) cs) s = put_set_chunks B s ∧
    default [] (B !! peer) = default [] (set_chunks (mg_sync s) !! peer) ++ concat cs ∧ delete peer B = delete peer (set_chunks (mg_sync s)).
Proof.
  revert k s. induction cs as [|c cs IH]; intros k s Hk Ht.
  - exists (set_chunks (mg_sync s)). cbn. by rewrite put_chunks_same, app_nil_r.
  - cbn [length] in Hk. cbn [imap receive_all foldl]. cbn [dispatch]. unfold handle_utxo_set_chunk.
    assert (more_chunks (as_u32 (Z.of_nat (k + 0))) total = true) as ->.
    { unfold more_chunks, as_u32. apply Z.ltb_lt. rewrite (Z.mod_small (Z.of_nat (k + 0))) by lia. rewrite Z.mod_small by lia. lia. }
    cbn [fst]. set (s1 := put_set_chunks _ s). destruct (IH (k + 1)%nat s1) as (B & HB & Hb & Hd); [lia|done|].
    exists B. split_and!.
    + change (put_set_chunks B s) with (put_set_chunks B s1). rewrite <- HB. unfold receive_all. f_equal.
      apply imap_ext. intros i x _. cbn. do 3 f_equal. lia.
    + rewrite Hb. cbn. rewrite lookup_insert_eq. cbn. by rewrite <- app_assoc.
    + rewrite Hd. cbn. by rewrite delete_insert_eq.
Qed.

(** C40: A UTXO set sent in chunks arrives whole: the messages a node sends for its set,
    received in order by a peer without leftover chunks, have exactly the effect of the
    whole set in one message, all go to the peer that asked, and each chunk is a single
    output or stays within 7 MiB. *)
Theorem chunked_set_exchange now me you srv cli :
  let us := st_list_utxos (storage (mg_utxos srv)) in
  Z.of_nat (length (split_utxos_into_chunks utxo_size us)) < U32 → set_chunks (mg_sync cli) !! me = None →
  let srv' := (handle_get_utxo_set utxo_size you srv).1 in
  let sent := drop (length (mg_sent srv)) (mg_sent srv') in
  ∃ last, (handle_get_utxo_set utxo_size you srv).2 = Ok (Some last) ∧ Forall (λ d, d = you) sent.*1 ∧
    receive_all now me (sent.*2 ++ [last]) cli = (handle_utxo_set_response us cli).1 ∧
    Forall (λ m, match m with NmUTXOSetResponse c | NmUTXOSetChunk _ _ c => c = [] ∨ chunk_fits utxo_size c | _ => False end) (sent.*2 ++ [last]).
Proof.
  intros us Hlen Hbuf. destruct (split_chunks_spec utxo_size us) as (Hne & Hcat & Hfit).
  unfold handle_get_utxo_set, serve_chunks. fold us. set (cs := split_utxos_into_chunks utxo_size us) in *.
  assert (Forall (λ c, c = [] ∨ chunk_fits utxo_size c) cs) as Hfits.
  { case_bool_decide as Hus.
    - unfold cs. rewrite Hus. cbn. by apply Forall_singleton; left.
    - eapply Forall_impl; [exact Hfit|]. by right. }
  assert (as_u32 (Z.of_nat (length cs)) = Z.of_nat (length cs)) as -> by (unfold as_u32; apply Z.mod_small; lia).
  destruct (Z.eqb_spec (Z.of_nat (length cs)) 1) as [H1c|H1c].
  - destruct cs as [|c [|]]; [done| |cbn in H1c; lia]. cbn in *. rewrite drop_all. exists (NmUTXOSetResponse c). cbn.
    rewrite app_nil_r in Hcat. subst c. split_and!; [done|done|done|]. apply Forall_singleton. by inversion Hfits.
  - destruct (exists_last Hne) as (init & x & Ecs). cbn [fst snd]. cbn [mg_sent send_to]. rewrite drop_app_length. clearbody cs. subst cs.
    rewrite length_app in *. cbn [length] in *.
    replace (Z.to_nat (Z.of_nat (length init + 1) - 1)) with (length init) by lia. rewrite take_app_length, last_snoc. cbn [default].
    set (total := Z.of_nat (length init + 1)) in *. exists (NmUTXOSetChunk (total - 1) total x). split; [done|].
    rewrite <- !list_fmap_compose. split; [apply Forall_forall; by intros d (m & -> & _)%list_elem_of_fmap|].
    rewrite (list_fmap_ext (snd ∘ pair you) id) by done. rewrite list_fmap_id. split.
    + unfold receive_all. rewrite foldl_app. destruct (receive_chunks now me 0 total init cli) as (B & HB & Hb & Hd); [lia..|].
      unfold receive_all in HB. cbn [Nat.add] in HB. rewrite HB. cbn [foldl dispatch]. unfold handle_utxo_set_chunk.
      assert (more_chunks (total - 1) total = false) as ->.
      { unfold more_chunks, as_u32. apply Z.ltb_ge. rewrite Z.mod_small by lia. lia. }
      rewrite put_chunks_twice. cbn [set_chunks put_set_chunks set_mg_sync mg_sync]. rewrite Hb, Hd, Hbuf. cbn [default app].
      rewrite delete_id by done. rewrite put_chunks_same. rewrite concat_app in Hcat. cbn in Hcat. rewrite app_nil_r in Hcat. by rewrite Hcat.
    + apply Forall_app in Hfits as [Hf Hx]. apply Forall_app. split; [|by apply Forall_singleton; inversion Hx].
      apply Forall_forall. intros m (i & c & -> & Hc)%elem_of_lookup_imap. rewrite Forall_forall in Hf. by eapply Hf, list_elem_of_lookup_2.
Qed.
End exchange.
