(* ===== verification/MessageSamples.v ===== *)
(** * Messages to a concrete node

    Witnesses of the theorems on messages, and messages that show where a handler trusts a
    peer, or departs from its comments. *)

From Stdlib Require Import ZArith Lia Ascii String SpecFloat.
From stdpp Require Import base gmap strings list pretty.
From S2P Require Import Prelude Types Instances Address Finality Storage UtxoManager UtxoProofs TransactionPool PoolProofs BlockVotes.
From S2P Require Import Lru BlockTypes BlockVrf BlockCache BlockLedger Governance GovernancePersist Registry Genesis RegistryProofs Utf8 TxValidation TxProofs TimeVoteEngine Consensus ConsensusProofs.
From S2P Require Import Fallback Maintenance EngineSteps MaintenanceProofs Chain ChainApply ChainProofs ChainLedger ChainSamples BanList NetGuards IpText BlockRound TxMessages TxMessageProofs.

Section message_samples.
#[local] Existing Instance tagged_externals.
#[local] Existing Instance canonical_iter.
#[local] Existing Instance sample_block_externals.
#[local] Existing Instance sample_tx_externals.
#[local] Existing Instance model_pool_codec.
#[local] Existing Instance model_vrf.
#[local] Existing Instance model_gov_codec.
#[local] Existing Instance model_zstd.
#[local] Existing Instance list_lru.
#[local] Existing Instance no_legacy.
#[local] Instance message_codec : BlockCodec := table_codec [].
#[local] Abbreviation Node := (MsgNode (S := gmap OutPoint UTXO)).

(** A masternode [a] with two outputs of three coins. *)
Definition mg_registry : MasternodeRegistry :=
  rebuild_node_caches (set_nodes {["a"%string := sample_mn "a"; "b"%string := sample_mn "b"; "c"%string := sample_mn "c"]} (registry_new None 0)).
Definition mg_boot_engine : ConsensusEngine (gmap OutPoint UTXO) :=
  mkEngine sample_manager (new_pool ∅) tvc_new fallback_new (fpm_new 1) None default_fee_schedule
    [] (Some (mkIdentity "a" [7])) None true [] [].
Definition mg_new (e : ConsensusEngine (gmap OutPoint UTXO)) : Node :=
  mkMsgNode (blockchain_new Testnet ∅ ∅ ∅ None None ∅ ∅ e mg_registry) true true None (mkSeen None None None) (Some [])
    (Some "a"%string) (mkUtxoSync ∅ 0 ∅ ∅) {["5.5.5.5"%string := 3000]} [].
Definition mg_start : Node := mg_new mg_boot_engine.
Definition mg_now : Clock := sample_clock 10.
Definition one_byte (u : UTXO) : option Z := Some 1.
Definition from_peer (msg : WireMsg) (s : Node) : Node := (handle_message one_byte mg_now "5.5.5.5" msg s).1.
Definition utxo_value (s : Node) (o : OutPoint) : option Z :=
  match get_utxo (mg_utxos s) o with Ok u => Some (value u) | Err _ => None end.
Definition unsigned (n : Z) : TxInput := mkTxInput (sample_op n) [] 0.
Definition pay (ins : list TxInput) (v : Z) : Transaction := mkTransaction 2 ins [mkTxOutput v (str_bytes sample_addr)] 0 0 None None.

(** A peer that announces as finalized a transaction whose input is unknown gets its outputs
    created, under any transaction id. *)
Theorem finalized_message_mints : let s := from_peer (NmTransactionFinalized [42] (pay [unsigned 9] 1000000000000000)) mg_start in
  utxo_value mg_start (mkOutPoint [42] 0) = None ∧ utxo_value s (mkOutPoint [42] 0) = Some 1000000000000000
  ∧ get_state (mg_utxos s) (mkOutPoint [42] 0) = Some Unspent.
Proof. by vm_compute. Qed.

(** Entries of a mempool that a peer marks as finalized are applied without validation:
    unsigned spends take effect, and outputs without inputs are created though the pool
    refuses the transaction. *)
Theorem mempool_sync_mints :
  let s := from_peer (NmMempoolSyncResponse [mkSyncEntry (pay [unsigned 1] 900000000) 0 true; mkSyncEntry (pay [] 1000000000000000) 0 true]) mg_start in
  utxo_value mg_start (sample_op 1) = Some 300000000 ∧ utxo_value s (sample_op 1) = None
  ∧ utxo_value s (mkOutPoint (txid (pay [unsigned 1] 900000000)) 0) = Some 900000000
  ∧ utxo_value s (mkOutPoint (txid (pay [] 1000000000000000)) 0) = Some 1000000000000000.
Proof. by vm_compute. Qed.

(** A transaction without signatures whose second input cannot be locked leaves its first
    input locked. *)
Theorem unsigned_message_locks : let tx := pay [unsigned 1; unsigned 9] 500000000 in
  get_state (mg_utxos mg_start) (sample_op 1) = Some Unspent
  ∧ get_state (mg_utxos (from_peer (NmTransactionBroadcast tx) mg_start)) (sample_op 1) = Some (Locked (txid tx) 10).
Proof. by vm_compute. Qed.

(** A request for a vote on one id that carries another, valid transaction is answered with
    an accepting vote on the first. *)
Theorem vote_for_another_txid : let tx := sample_spend [1] 290000000 in
  match (handle_timevote_request mg_now [42] (txid tx) 3 (Some tx) mg_start).2 with
  | Ok (Some (NmTimeVoteResponse v)) => tv_txid v = [42] ∧ decision v = Accept ∧ bool_decide (txid tx = [42]) = false
  | _ => False
  end.
Proof. by vm_compute. Qed.

(** At a total weight of 1500 the threshold computed in floating point is one above the one
    that TimeProofs are verified with. *)
Theorem response_threshold_higher : response_threshold 1500 = 1006 ∧ finality_threshold 1500 = 1005.
Proof. by vm_compute. Qed.

(** A UTXO set that nobody asked for removes outputs and creates others. *)
Theorem unsolicited_set_replaces : utxo_value mg_start (sample_op 1) = Some 300000000
  ∧ utxo_value (from_peer (NmUTXOSetResponse [sample_utxo 2 300000000; mkUTXO (mkOutPoint [42] 0) 1000000000000000 [] "" None]) mg_start) (sample_op 1) = None
  ∧ utxo_value (from_peer (NmUTXOSetResponse [sample_utxo 2 300000000; mkUTXO (mkOutPoint [42] 0) 1000000000000000 [] "" None]) mg_start) (mkOutPoint [42] 0) = Some 1000000000000000.
Proof. by vm_compute. Qed.

(** A payment that is pending, in a vote. *)
Definition contested : Transaction := sample_spend [1] 290000000.
Definition mg_pending : Node := mg_new (set_pool (add_pending 0 (new_pool ∅) contested 10000000).1 mg_boot_engine).
(** A pending transaction is finalized with the inputs and outputs of another that the
    message carries. *)
Theorem finalized_by_another : let other := sample_spend [2] 280000000 in
  let s := from_peer (NmTransactionFinalized (txid contested) other) mg_pending in
  is_finalized (tx_pool (mg_eng mg_pending)) (txid contested) = false ∧ is_finalized (tx_pool (mg_eng s)) (txid contested) = true
  ∧ utxo_value s (sample_op 1) = Some 300000000 ∧ utxo_value s (sample_op 2) = None
  ∧ utxo_value s (mkOutPoint (txid contested) 0) = Some 280000000.
Proof. by vm_compute. Qed.

Definition mg_hashes : gmap string PeerUtxoHashEntry :=
  list_to_map ((λ p, (p, mkHashEntry [1] 0 0)) <$> ["1.1.1.1"; "2.2.2.2"; "3.3.3.3"; "4.4.4.4"]%string).
Definition mg_diverged : Node := set_mg_sync (mkUtxoSync mg_hashes 0 ∅ ∅) mg_start.
(** When most peers agree on another UTXO set, the set is requested from the peer that
    answered last, even if it reported a third one. *)
Theorem minority_peer_asked :
  (handle_message one_byte mg_now "5.5.5.5" (NmUTXOStateHashResponse [2] 0 0) mg_diverged).2 = Ok (Some NmGetUTXOSet).
Proof. by vm_compute. Qed.

(** ** Upkeep *)

(** A stale pending payment with a vote on a proposal for it. *)
Definition mg_stale : ConsensusEngine (gmap OutPoint UTXO) :=
  set_fallback (set_proposals {[[9] := [mkFallbackVote 1 [9] FvApprove "b" 10 []]]} {[[9] := txid contested]} fallback_new) (mg_eng mg_pending).
(** Votes of the liveness fallback on a transaction outlive its eviction: they are stored
    under the proposal, and looked for under the transaction. *)
Theorem eviction_keeps_fallback_votes : let f := fallback (evict_stale_pending_transactions (sample_clock 100) NANOS mg_stale).1 in
  bool_decide (is_Some (proposal_to_tx f !! [9])) = false ∧ bool_decide (is_Some (fallback_votes f !! [9])) = true.
Proof. by vm_compute. Qed.

(** A finalized transaction with an input that exists and one that does not, and a payment
    that holds the first. *)
Definition mg_phantom : ConsensusEngine (gmap OutPoint UTXO) :=
  set_utxo (lock_utxo 10 sample_manager (sample_op 1) (txid contested)).1
    (set_pool (add_finalized_direct 0 (new_pool ∅) (pay [unsigned 1; unsigned 9] 500000000) 0) mg_boot_engine).
(** Eviction of a finalized transaction with a missing input unlocks its other inputs
    whoever has locked them. *)
Theorem eviction_unlocks_another : get_state (utxo_manager mg_phantom) (sample_op 1) = Some (Locked (txid contested) 10)
  ∧ get_state (utxo_manager (evict_finalized_with_missing_inputs mg_phantom).1) (sample_op 1) = Some Unspent.
Proof. by vm_compute. Qed.

(** ** Witnesses *)

#[local] Abbreviation mg_retried := (retry_stuck_pending_transactions mg_now (set_utxo (update_state sample_manager (sample_op 1) (SpentPending [5] 0 0 0)) (mg_eng mg_pending))).
Example retry_finalizes_uncontested : (is_pending (tx_pool (retry_stuck_pending_transactions mg_now (mg_eng mg_pending)).1) (txid contested),
    is_finalized (tx_pool (retry_stuck_pending_transactions mg_now (mg_eng mg_pending)).1) (txid contested)) = (false, true)
  ∧ mg_retried.2 = (0, 1).
Proof. by vm_compute. Qed.


Lemma mg_utxo_inv : inv sample_manager.
Proof.
  unfold sample_manager. apply (foldl_preserve _ inv); [intros m u; apply inv_add_utxo|].
  split; [exact w_boot_wf|done|done| |]; intros o u Hu; change ((∅ : gmap OutPoint UTXO) !! o = Some u) in Hu; by rewrite lookup_empty in Hu.
Qed.
Lemma mg_votes_inv : tvc_inv (λ _, False) tvc_new.
Proof. exact (tv_run_inv (λ _, False) [] (Forall_nil_2 _) (λ mns v Hv, False_ind _ (not_elem_of_nil _ Hv))). Qed.
Lemma mg_start_sound : node_sound (λ _, False) mg_start.
Proof. split; [exact mg_utxo_inv|exact (new_pool_inv ∅)|exact mg_votes_inv]. Qed.
Definition mg_events : list (node_event (S := gmap OutPoint UTXO)) :=
  [EvMessage mg_now "5.5.5.5" (NmTransactionBroadcast (sample_spend [1] 290000000)); EvSubmit mg_now (sample_spend [1] 280000000);
   EvBlock 5 testnet_genesis].
Lemma mg_events_wf : Forall event_wf mg_events.
Proof. repeat constructor. Qed.
Lemma message_history_sound_witness :
  node_sound (λ v, False ∨ received_signed one_byte mg_start mg_events v) (node_history one_byte mg_start mg_events).
Proof. exact (proj1 (message_history_sound one_byte (λ _, False) mg_start mg_events mg_events_wf mg_start_sound)). Defined.

#[local] Abbreviation mg_asked := (handle_timevote_request mg_now (txid contested) (txid contested) 3 (Some contested) mg_start).
Definition mg_vote : TimeVote := sign_finality_vote (mkIdentity "a" [7]) 1 (txid contested) (txid contested) 3 Accept "a" (sampling_weight Bronze).
Lemma mg_answer : mg_asked.2 = Ok (Some (NmTimeVoteResponse mg_vote)).
Proof. by vm_compute. Qed.
Lemma mg_not_final : is_finalized (tx_pool (mg_eng mg_asked.1)) (txid contested) = false
  ∧ bool_decide (is_Some (tvc_finalized (timevote (mg_eng mg_asked.1)) !! txid contested)) = false.
Proof. by vm_compute. Qed.
Lemma accept_vote_sound_witness :
  ∃ tx m, calculate_tx_commitment tx = txid contested ∧ passes_ledger (fee_schedule (mg_eng mg_asked.1)) m tx.
Proof.
  destruct (accept_vote_sound mg_now (txid contested) (txid contested) 3 (Some contested) mg_start mg_asked.1 mg_vote
    (new_pool_inv ∅) (pair_result _ _ mg_answer) eq_refl) as [_ [Hf|[Hf|(tx & Hk & _ & _ & m & _ & Hm)]]].
  - rewrite (proj1 mg_not_final) in Hf. discriminate.
  - exfalso. pose proof (proj2 mg_not_final) as E. rewrite bool_decide_eq_false in E. exact (E Hf).
  - exists tx, m. exact (conj Hk Hm).
Defined.

Definition mg_client : Node := mg_new (set_utxo (new_with_storage ∅) mg_boot_engine).
(** Outputs so large that each takes a chunk. *)
Definition four_megabytes (u : UTXO) : option Z := Some 4000000.
Lemma mg_chunks : length (split_utxos_into_chunks four_megabytes (st_list_utxos (storage (mg_utxos mg_start)))) = 2%nat.
Proof. by vm_compute. Qed.
Lemma chunked_set_exchange_witness : ∃ ms, receive_all four_megabytes mg_now "a" ms mg_client
  = (handle_utxo_set_response (st_list_utxos (storage (mg_utxos mg_start))) mg_client).1.
Proof.
  destruct (chunked_set_exchange four_megabytes mg_now "a" "b" mg_start mg_client) as (l & _ & _ & E & _).
  - rewrite mg_chunks. unfold U32. lia.
  - apply lookup_empty.
  - eexists. exact E.
Defined.
End message_samples.
