(* ===== verification/PaymentRequests.v ===== *)
(** * Payment requests
    (src/consensus.rs, src/network/message_handler/core.rs, src/rpc/handler.rs)

    Requests for payment are kept per payer, arrive from the local wallet through RPC or
    from peers, and are dropped when answered, cancelled or expired.  The RPC methods are
    modelled from their parsed parameters on; websocket notifications are left out.  Times
    are [i64] seconds. *)

From Stdlib Require Import ZArith Lia Ascii String.
From stdpp Require Import base gmap strings list.
From S2P Require Import Prelude Types Instances Address Storage UtxoManager BlockTypes BlockProofs Utf8.

Record PaymentRequest := mkPaymentRequest {
  pr_id : string;
  pr_from : string;
  pr_to : string;
  pr_amount : Z;
  pr_memo : string;
  pr_name : string;
  pr_pubkey_hex : string;
  pr_signature_hex : string;
  pr_timestamp : Z;
  pr_expires : Z;
}.
Abbreviation PaymentStore := (gmap string (list PaymentRequest)).

Inductive pay_msg :=
| PaymentRequestRelay (r : PaymentRequest)
| PaymentRequestResponse (id requester payer : string) (accepted : bool) (txid : option string)
| PaymentRequestCancelled (id requester : string)
| PaymentRequestViewed (id requester payer : string).
Inductive pay_error := SpoofedSignature | NotStored.

(** ** The store *)

Definition MAX_REQUESTS : nat := 100.
Definition store_payment_request (now : Z) (r : PaymentRequest) (st : PaymentStore) : PaymentStore * bool :=
  if pr_expires r <=? now then (st, false)
  else
    let l := default [] (st !! pr_to r) in
    let touched := <[pr_to r := l]> st in                      (* [or_default] creates the entry *)
    if existsb (λ x, String.eqb (pr_id x) (pr_id r)) l then (touched, false)
    else if (MAX_REQUESTS <=? length l)%nat then (touched, false)
    else (<[pr_to r := l ++ [r]]> st, true).
Definition cleanup_expired_payment_requests (now : Z) (st : PaymentStore) : PaymentStore :=
  filter (λ en : string * list PaymentRequest, en.2 ≠ []) (filter (λ r, now < pr_expires r) <$> st).
Definition get_payment_requests_for (now : Z) (st : PaymentStore) (addresses : list string) : list PaymentRequest :=
  addresses ≫= λ a, filter (λ r, now < pr_expires r) (default [] (st !! a)).

Section store.
Context `{MapIter}.
Definition find_request (st : PaymentStore) (id : string) : option PaymentRequest :=
  head (omap (λ en : string * list PaymentRequest, List.find (λ r, String.eqb (pr_id r) id) en.2) (iter st)).
Definition get_payment_request_payer (st : PaymentStore) (id : string) : option string := pr_to <$> find_request st id.
Definition get_payment_request_requester (st : PaymentStore) (id : string) : option string := pr_from <$> find_request st id.

Fixpoint remove_first (id : string) (l : list PaymentRequest) : list PaymentRequest :=
  match l with
  | [] => []
  | r :: l => if String.eqb (pr_id r) id then l else r :: remove_first id l
  end.
Definition has_request (id : string) (l : list PaymentRequest) : bool := existsb (λ r, String.eqb (pr_id r) id) l.
(** From the first entry that has the id. *)
Definition remove_payment_request (st : PaymentStore) (id : string) : PaymentStore * bool :=
  match List.find (λ en : string * list PaymentRequest, has_request id en.2) (iter st) with
  | Some (a, l) => (<[a := remove_first id l]> st, true)
  | None => (st, false)
  end.
End store.

(** ** Messages and RPC *)

Section handlers.
Context {S : Type} `{UtxoStorage S} `{MapIter} `{Externals} `{BlockExternals}.

Record PayNode := mkPayNode {
  pn_requests : PaymentStore;
  pn_utxos : UTXOStateManager S;
  pn_engine : bool;                  (* [context.consensus] is present *)
  pn_manager : bool;                 (* [context.utxo_manager] is present *)
  pn_sent : list pay_msg;
}.
Implicit Types s : PayNode.
Definition set_requests (st : PaymentStore) s : PayNode := mkPayNode st (pn_utxos s) (pn_engine s) (pn_manager s) (pn_sent s).
Definition learn_pubkey (a : string) (pk : bytes) s : PayNode :=
  mkPayNode (pn_requests s) (register_pubkey (pn_utxos s) a pk) (pn_engine s) (pn_manager s) (pn_sent s).
Definition pay_broadcast (m : pay_msg) s : PayNode := mkPayNode (pn_requests s) (pn_utxos s) (pn_engine s) (pn_manager s) (pn_sent s ++ [m]).

Definition request_message (r : PaymentRequest) : bytes :=
  str_bytes (pr_id r) ++ str_bytes (pr_from r) ++ str_bytes (pr_to r) ++ le_bytes 8 (pr_amount r)
    ++ str_bytes (pr_memo r) ++ le_bytes 8 (pr_timestamp r mod U64).
(** The key of a request, when the request carries a key and a signature that can be read. *)
Definition request_key (r : PaymentRequest) : option (VerifyingKey * bytes) :=
  let pk := default [] (hex_decode (pr_pubkey_hex r)) in
  let sig := default [] (hex_decode (pr_signature_hex r)) in
  if ((length pk =? 32) && (length sig =? 64))%nat then (λ k, (k, sig)) <$> vk_from_bytes pk else None.
Definition request_signed (r : PaymentRequest) : bool :=
  match request_key r with Some (k, sig) => verify_strict k (request_message r) sig | None => false end.

Definition handle_payment_relay (now : Z) (r : PaymentRequest) s : PayNode :=
  if request_signed r && pn_engine s then
    let s := if pn_manager s then learn_pubkey (pr_from r) (default [] (hex_decode (pr_pubkey_hex r))) s else s in
    set_requests (store_payment_request now r (pn_requests s)).1 s
  else s.
Definition drop_request (id : string) s : PayNode :=
  if pn_engine s then set_requests (remove_payment_request (pn_requests s) id).1 s else s.
Definition handle_pay_msg (now : Z) (m : pay_msg) s : PayNode :=
  match m with
  | PaymentRequestRelay r => handle_payment_relay now r s
  | PaymentRequestResponse id _ _ _ _ => drop_request id s
  | PaymentRequestCancelled id _ => drop_request id s
  | PaymentRequestViewed _ _ _ => s
  end.

Definition request_digest (from to : string) (amount timestamp : Z) : string :=
  hex_encode (sha256 (str_bytes from ++ str_bytes to ++ le_bytes 8 amount ++ le_bytes 8 (timestamp mod U64))).
(** [timestamp + 86400] in an [i64], without overflow checks. *)
Definition request_expiry (timestamp : Z) : Z := (timestamp + 86400 + U64 / 2) mod U64 - U64 / 2.
(** A signature is checked only where both fields are given and can be read. *)
Definition send_payment_request (now : Z) (id : option string) (from to : string) (amount : Z) (memo name pubkey sig : string) (timestamp : Z) s
    : PayNode * result pay_error string :=
  let id := default (request_digest from to amount timestamp) id in
  let r := mkPaymentRequest id from to amount memo name pubkey sig timestamp (request_expiry timestamp) in
  let given := negb (String.eqb pubkey "") && negb (String.eqb sig "") in
  let key := if given then request_key r else None in
  if bool_decide (is_Some key) && negb (request_signed r) then (s, Err SpoofedSignature)
  else
    let s := if bool_decide (is_Some key) then learn_pubkey from (default [] (hex_decode pubkey)) s else s in
    match store_payment_request now r (pn_requests s) with
    | (st, false) => (set_requests st s, Err NotStored)
    | (st, true) => (pay_broadcast (PaymentRequestRelay r) (set_requests st s), Ok id)
    end.
Definition acknowledge_payment_request (id : string) s : PayNode * bool :=
  let '(st, removed) := remove_payment_request (pn_requests s) id in (set_requests st s, removed).
Definition respond_payment_request (id payer : string) (accepted : bool) (txid : option string) s : PayNode :=
  let requester := default ""%string (get_payment_request_requester (pn_requests s) id) in
  pay_broadcast (PaymentRequestResponse id requester payer accepted txid) (set_requests (remove_payment_request (pn_requests s) id).1 s).
Definition cancel_payment_request (id requester : string) s : PayNode * bool :=
  let '(st, removed) := remove_payment_request (pn_requests s) id in
  (pay_broadcast (PaymentRequestCancelled id requester) (set_requests st s), removed).

Definition mark_payment_request_viewed (id payer : string) s : PayNode :=
  pay_broadcast (PaymentRequestViewed id (default EmptyString (get_payment_request_requester (pn_requests s) id)) payer) s.

(** ** Histories *)

Inductive pay_op :=
| PayMsg (now : Z) (m : pay_msg) | PayCleanup (now : Z)
| PaySend (now : Z) (id : option string) (from to : string) (amount : Z) (memo name pubkey sig : string) (timestamp : Z)
| PayAck (id : string) | PayRespond (id payer : string) (accepted : bool) (txid : option string) | PayCancel (id requester : string)
| PayViewed (id payer : string).
Definition pay_exec s (o : pay_op) : PayNode :=
  match o with
  | PayMsg now m => handle_pay_msg now m s
  | PayCleanup now => set_requests (cleanup_expired_payment_requests now (pn_requests s)) s
  | PaySend now id from to amount memo name pubkey sig ts => (send_payment_request now id from to amount memo name pubkey sig ts s).1
  | PayAck id => (acknowledge_payment_request id s).1
  | PayRespond id payer accepted txid => respond_payment_request id payer accepted txid s
  | PayCancel id requester => (cancel_payment_request id requester s).1
  | PayViewed id payer => mark_payment_request_viewed id payer s
  end.
Definition pay_run s (os : list pay_op) : PayNode := foldl pay_exec s os.

(** Every payer has at most a hundred requests, all for it, with distinct ids; those that
    carry a signature that can be read carry a valid one. *)
Definition request_ok (r : PaymentRequest) : Prop :=
  pr_pubkey_hex r = EmptyString ∨ pr_signature_hex r = EmptyString ∨ request_key r = None ∨ request_signed r = true.
Record list_ok (a : string) (l : list PaymentRequest) : Prop := mkListOk {
  lo_ids : NoDup (pr_id <$> l);
  lo_max : (length l ≤ MAX_REQUESTS)%nat;
  lo_all : Forall (λ r, pr_to r = a ∧ request_ok r) l;
}.
Definition store_ok (st : PaymentStore) : Prop := ∀ a l, st !! a = Some l → list_ok a l.

Lemma list_ok_nil a : list_ok a [].
Proof. split; [apply NoDup_nil_2|cbn; unfold MAX_REQUESTS; lia|done]. Qed.
Lemma list_ok_default st a : store_ok st → list_ok a (default [] (st !! a)).
Proof. intros Hs. destruct (st !! a) as [l|] eqn:E; [by apply Hs|apply list_ok_nil]. Qed.
Lemma list_ok_sublist a l l' : sublist l' l → list_ok a l → list_ok a l'.
Proof.
  intros Hs [Hn Hm Ha]. split.
  - eapply sublist_NoDup; [exact Hn|]. by apply fmap_sublist.
  - pose proof (sublist_length _ _ Hs). lia.
  - rewrite Forall_forall in *. intros r Hr. apply Ha. by eapply elem_of_sublist.
Qed.
Lemma store_ok_insert st a l : store_ok st → list_ok a l → store_ok (<[a := l]> st).
Proof. intros Hs Hl b k. rewrite lookup_insert_Some. intros [[<- <-]|[_ Hb]]; [done|by apply Hs]. Qed.

Lemma store_request_ok now r st : request_ok r → store_ok st → store_ok (store_payment_request now r st).1.
Proof.
  intros Hr Hs. unfold store_payment_request. destruct (_ <=? now); [done|].
  pose proof (list_ok_default st (pr_to r) Hs) as Hl. set (l := default [] _) in *.
  destruct (existsb _ l) eqn:Ex; [by apply store_ok_insert|].
  destruct (Nat.leb_spec MAX_REQUESTS (length l)); [by apply store_ok_insert|].
  cbn [fst]. apply store_ok_insert; [done|]. destruct Hl as [Hn Hm Ha]. split.
  - rewrite fmap_app. apply NoDup_app. split_and!; [done| |apply NoDup_singleton].
    intros x Hx ->%list_elem_of_singleton. apply list_elem_of_fmap in Hx as (y & Hy & Hin).
    apply not_true_iff_false in Ex. apply Ex, existsb_exists. exists y. rewrite <- list_elem_of_In, <- Hy, String.eqb_refl. done.
  - rewrite length_app. cbn. lia.
  - apply Forall_app. by split; [|apply Forall_singleton].
Qed.
Lemma remove_first_sublist id l : sublist (remove_first id l) l.
Proof. induction l as [|r l IH]; cbn; [constructor|]. destruct (String.eqb _ _); by constructor. Qed.
Lemma remove_request_ok st id : store_ok st → store_ok (remove_payment_request st id).1.
Proof.
  intros Hs. unfold remove_payment_request. destruct (List.find _ (iter st)) as [[a l]|] eqn:E; [|done]. cbn.
  apply find_some in E as [Hin%list_elem_of_In _]. rewrite iter_perm in Hin. apply elem_of_map_to_list in Hin.
  apply store_ok_insert; [done|]. eapply list_ok_sublist; [apply remove_first_sublist|by apply Hs].
Qed.
Lemma cleanup_requests_ok now st : store_ok st → store_ok (cleanup_expired_payment_requests now st).
Proof.
  intros Hs a l Hl. unfold cleanup_expired_payment_requests in Hl. apply map_lookup_filter_Some in Hl as [Hl _].
  rewrite lookup_fmap in Hl. apply fmap_Some in Hl as (k & Hk & ->). eapply list_ok_sublist; [apply sublist_filter|by apply Hs].
Qed.

Lemma pay_exec_ok s o : store_ok (pn_requests s) → store_ok (pn_requests (pay_exec s o)).
Proof.
  intros Hs. destruct o as [now [r|id q1 q2 q3 q4|id q1|q1 q2 q3]|now|now id from to amount memo name pubkey sig ts|id|id payer accepted txid|id requester|id payer]; cbn.
  - unfold handle_payment_relay. destruct (request_signed r && pn_engine s) eqn:Er; [|done]. apply andb_true_iff in Er as [Er _].
    cbn. apply store_request_ok; [by right; right; right|]. by destruct (pn_manager s).
  - unfold drop_request. destruct (pn_engine s); [by apply remove_request_ok|done].
  - unfold drop_request. destruct (pn_engine s); [by apply remove_request_ok|done].
  - done.
  - by apply cleanup_requests_ok.
  - unfold send_payment_request. set (id' := default _ id). set (r := mkPaymentRequest id' _ _ _ _ _ _ _ _ _).
    assert (∀ k, k = (if negb (String.eqb pubkey "") && negb (String.eqb sig "") then request_key r else None) →
      bool_decide (is_Some k) && negb (request_signed r) = false → request_ok r) as Hok.
    { intros k -> Hk. unfold request_ok. destruct (String.eqb_spec pubkey ""); [by left|]. destruct (String.eqb_spec sig ""); [by right; left|].
      cbn in Hk. destruct (request_key r); [|by right; right; left]. rewrite bool_decide_true in Hk by done. cbn in Hk.
      apply negb_false_iff in Hk. by right; right; right. }
    cbv zeta. set (k := if _ && _ then _ else _) in *. specialize (Hok k eq_refl). destruct (bool_decide (is_Some k) && _); [done|].
    set (s1 := if bool_decide _ then _ else s). assert (pn_requests s1 = pn_requests s) as E1 by (unfold s1; by destruct (bool_decide _)).
    pose proof (store_request_ok now r (pn_requests s) (Hok eq_refl) Hs) as Hst. rewrite E1. by destruct (store_payment_request _ _ _) as [st [|]].
  - unfold acknowledge_payment_request. pose proof (remove_request_ok _ id Hs) as Hr. by destruct (remove_payment_request _ _) as [st b].
  - by apply remove_request_ok.
  - unfold cancel_payment_request. pose proof (remove_request_ok _ id Hs) as Hr. by destruct (remove_payment_request _ _) as [st b].
  - done.
Qed.

(** After any history of messages and RPC calls every payer has at most a hundred requests,
    all for it, with distinct ids, and those with a signature that can be read have a valid
    one. *)
Theorem payment_requests_bounded s os : pn_requests s = ∅ → store_ok (pn_requests (pay_run s os)).
Proof.
  intros Hs. apply (foldl_preserve pay_exec (λ s, store_ok (pn_requests s))); [by intros; apply pay_exec_ok|].
  intros a l. by rewrite Hs, lookup_empty.
Qed.
(** Clean-up keeps exactly the requests that can still be fetched. *)
Theorem expired_requests_gone now st a r : r ∈ default [] (cleanup_expired_payment_requests now st !! a) ↔ r ∈ get_payment_requests_for now st [a].
Proof.
  unfold get_payment_requests_for, cleanup_expired_payment_requests. cbn. rewrite app_nil_r.
  destruct (filter _ _ !! a) as [l|] eqn:E; cbn.
  - apply map_lookup_filter_Some in E as [E _]. rewrite lookup_fmap in E. apply fmap_Some in E as (k & Hk & ->). by rewrite Hk.
  - destruct (st !! a) as [k|] eqn:Hk; cbn; [|done]. apply map_lookup_filter_None in E as [E|E].
    + by rewrite lookup_fmap, Hk in E.
    + specialize (E (filter (λ r, now < pr_expires r) k)). rewrite lookup_fmap, Hk in E. specialize (E eq_refl). cbn in E.
      apply dec_stable in E. by rewrite E.
Qed.
End handlers.

(** ** Concrete requests *)

Section samples.
#[local] Existing Instance tagged_externals.
#[local] Existing Instance tagged_block_externals.
#[local] Existing Instance canonical_iter.

Definition pay_node : PayNode (S := gmap OutPoint UTXO) := mkPayNode ∅ (new_with_storage ∅) true true [].
Definition mallory_key : bytes := replicate 32 7.
(** Signed with the key of somebody else than the address it names. *)
Definition pay_request (id to : string) : PaymentRequest :=
  mkPaymentRequest id "TIME_alice" to 5 "" "" (hex_encode mallory_key) (hex_encode (replicate 64 7)) 0 86400.
(** A request signed with anybody's key makes that key the known key of the address it
    names. *)
Theorem foreign_key_registered : pubkey_cache (pn_utxos (handle_pay_msg 10 (PaymentRequestRelay (pay_request "x" "TIME_bob")) pay_node)) !! "TIME_alice"%string = Some mallory_key.
Proof. by vm_compute. Qed.
(** A cancellation removes a request whoever sends it. *)
Theorem request_removed_by_anyone :
  let s := pay_run pay_node [PayMsg 10 (PaymentRequestRelay (pay_request "x" "TIME_bob"))] in
  length (get_payment_requests_for 11 (pn_requests s) ["TIME_bob"]) = 1%nat
  ∧ get_payment_requests_for 11 (pn_requests (pay_exec s (PayMsg 11 (PaymentRequestCancelled "x" "TIME_mallory")))) ["TIME_bob"] = [].
Proof. by vm_compute. Qed.
(** A request without signature is stored and sent to all peers, and no peer stores it. *)
Theorem unsigned_request_stays_local :
  let s := (send_payment_request 10 (Some "x") "TIME_alice" "TIME_bob" 5 "" "" "" "" 0 pay_node).1 in
  length (get_payment_requests_for 11 (pn_requests s) ["TIME_bob"]) = 1%nat ∧ length (pn_sent s) = 1%nat
  ∧ Forall (λ m, get_payment_requests_for 11 (pn_requests (handle_pay_msg 10 m pay_node)) ["TIME_bob"] = []) (pn_sent s).
Proof. vm_compute. split_and!; [done|done|repeat constructor]. Qed.
End samples.
