(* ===== verification/GovMessages.v ===== *)
(** * Governance messages (src/network/message_handler/core.rs, src/governance.rs)

    Proposals and votes from peers, and the exchange of the whole state.  What is sent to
    all peers is appended to the list of gossip. *)

From Stdlib Require Import ZArith Lia Ascii String.
From stdpp Require Import base gmap strings list.
From S2P Require Import Prelude Types Instances Address Storage UtxoManager TransactionPool BlockVotes.
From S2P Require Import Lru BlockTypes BlockVrf BlockCache BlockLedger Governance GovernancePersist Registry Utf8 TxValidation Consensus Chain ChainApply.

Inductive gov_msg :=
| GovernanceProposalMsg (p : GovernanceProposal) | GovernanceVoteMsg (v : GovernanceVote)
| GetGovernanceState | GovernanceStateResponse (ps : list GovernanceProposal) (vs : list GovernanceVote).

Section handlers.
Context {S : Type} `{UtxoStorage S} `{MapIter} `{Externals} `{BlockExternals} `{!BlockCodec} `{LegacyCodec} `{Zstd} `{LruCrate}.
Context `{TxExternals} `{PoolCodec} `{VrfExternals} `{GovCodec}.
Abbreviation Blockchain := (Blockchain (S := S)).
Implicit Types (c : Blockchain) (g : GovernanceState).

Definition list_proposals g : list GovernanceProposal := (iter (proposals g)).*2.
Definition gov_nodes c : list MasternodeInfo := get_active_masternodes (registry c).
Definition take_state (mns : list MasternodeInfo) (treasury : Z) (ps : list GovernanceProposal) (vs : list GovernanceVote) g : GovernanceState :=
  foldl (λ g v, (record_vote g v mns).1) (foldl (λ g p, (submit_proposal g p mns treasury).1) g ps) vs.

(** The chain, what is gossiped and the reply. *)
Definition handle_gov_msg (m : gov_msg) c : Blockchain * list gov_msg * option gov_msg :=
  match bc_governance c with
  | None => (c, [], None)
  | Some g =>
      match m with
      | GovernanceProposalMsg p =>
          let '(g, r) := submit_proposal g p (gov_nodes c) (bc_treasury c) in
          (set_governance (Some g) c, if is_ok r then [m] else [], None)
      | GovernanceVoteMsg v =>
          let '(g, r) := record_vote g v (gov_nodes c) in
          (set_governance (Some g) c, match r with Ok true => [m] | _ => [] end, None)
      | GetGovernanceState =>
          let ps := list_proposals g in
          (c, [], Some (GovernanceStateResponse ps (ps ≫= λ p, get_votes_for g (gp_id p))))
      | GovernanceStateResponse ps vs => (set_governance (Some (take_state (gov_nodes c) (bc_treasury c) ps vs g)) c, [], None)
      end
  end.

(** ** A history of messages is a history of the governance state *)

Definition is_message_op (o : gov_op) : bool := match o with GSubmit _ _ _ | GVote _ _ => true | _ => false end.
Lemma take_state_run mns treasury ps vs g : ∃ os, take_state mns treasury ps vs g = gov_run g os ∧ Forall is_message_op os.
Proof.
  exists (((λ p, GSubmit p mns treasury) <$> ps) ++ ((λ v, GVote v mns) <$> vs)). unfold take_state, gov_run.
  rewrite foldl_app, !foldl_fmap. split; [done|]. apply Forall_app. split; apply Forall_fmap, Forall_true; done.
Qed.
Lemma handle_gov_run m c g : bc_governance c = Some g →
  ∃ os, bc_governance (handle_gov_msg m c).1.1 = Some (gov_run g os) ∧ Forall is_message_op os.
Proof.
  intros Hg. unfold handle_gov_msg. rewrite Hg. destruct m as [p|v| |ps vs].
  - exists [GSubmit p (gov_nodes c) (bc_treasury c)]. cbn. destruct (submit_proposal _ _ _ _) as [g' r]. cbn. by repeat constructor.
  - exists [GVote v (gov_nodes c)]. cbn. destruct (record_vote _ _ _) as [g' r]. cbn. by repeat constructor.
  - exists []. cbn. by rewrite Hg.
  - destruct (take_state_run (gov_nodes c) (bc_treasury c) ps vs g) as (os & -> & Ho). by exists os.
Qed.

Definition handle_gov_msgs (ms : list gov_msg) c : Blockchain := foldl (λ c m, (handle_gov_msg m c).1.1) c ms.
(** No history of governance messages changes a proposal that is known: status, payload and
    end height stay, whatever peers send. *)
Theorem gov_messages_no_verdict ms c g k p :
  bc_governance c = Some g → proposals g !! k = Some p →
  ∃ g', bc_governance (handle_gov_msgs ms c) = Some g' ∧ proposals g' !! k = Some p.
Proof.
  revert c g. induction ms as [|m ms IH]; intros c g Hg Hp; [by exists g|]. cbn.
  destruct (handle_gov_run m c g Hg) as (os & Hos & Hm). apply (IH _ _ Hos).
  clear - Hp Hm. revert g Hp. induction Hm as [|o os Ho Hm IH]; intros g Hp; [done|]. apply IH.
  destruct o as [q mns bal|v mns| |]; try done; cbn [gov_exec].
  - unfold submit_proposal. case_bool_decide as Hk; [done|]. case_match; [|done]. cbn. rewrite lookup_insert_ne; [done|].
    intros E. apply Hk. rewrite E. by eexists.
  - unfold record_vote. destruct (vote_checks g v mns); [|done]. by case_bool_decide.
Qed.

(** A proposal that is known already is sent to all peers again each time it arrives. *)
Theorem known_proposal_regossiped c g p : bc_governance c = Some g → is_Some (proposals g !! hex_encode (gp_id p)) →
  (handle_gov_msg (GovernanceProposalMsg p) c).1.2 = [GovernanceProposalMsg p].
Proof. intros Hg Hp. unfold handle_gov_msg. rewrite Hg. unfold submit_proposal. by rewrite bool_decide_true. Qed.

(** Where a proposal would be accepted, so is one with its id and signature and any other
    valid payload, end height and status. *)
Theorem tampered_proposal_accepted g p mns treasury g' payload end_height status :
  submit_proposal g p mns treasury = (g', Ok tt) → proposals g !! hex_encode (gp_id p) = None →
  validate_payload payload treasury = Ok tt →
  let q := mkProposal (gp_id p) payload (submitter_address p) (submitter_pubkey p) (submitter_signature p) (submit_height p) end_height status in
  (submit_proposal g q mns treasury).2 = Ok tt ∧ proposals (submit_proposal g q mns treasury).1 !! hex_encode (gp_id p) = Some q.
Proof.
  intros Hs Hn Hv q. unfold submit_proposal in *. cbn [gp_id q submitter_address gp_payload] in *.
  assert (bool_decide (is_Some (proposals g !! hex_encode (gp_id p))) = false) as Hb by (rewrite bool_decide_eq_false, Hn; by intros []).
  rewrite Hb in *. change (proposal_verify_signature q) with (proposal_verify_signature p).
  destruct (ok_or SubmitterNotActive (find_node mns (submitter_address p))) as [s|]; [|done]. cbn in *. destruct (is_free s); [done|].
  destruct (proposal_verify_signature p); [|done]. cbn in *. rewrite Hv. cbn. by rewrite lookup_insert_eq.
Qed.
End handlers.
