(* ===== verification/PeerBook.v ===== *)
(** * What the node knows of its peers
    (src/network/peer_connection_registry/admission.rs, chain_state.rs)

    The part of the connection registry that block messages read and write: heights, chain
    tips, marks of incompatibility, the checks of genesis blocks, counts of fork errors and
    pings.  Keys are what stands before the first colon of an address.  Reasons of marks,
    which only the log shows, are left out; times are monotonic, in nanoseconds, and a
    round-trip time is kept as the nanoseconds it is computed from. *)

From Stdlib Require Import ZArith Lia Ascii String.
From stdpp Require Import base gmap strings list.
From S2P Require Import Prelude Types Storage UtxoManager Registry BanList IpText Consensus Reorg BlockRound.

Record PeerBook := mkPeerBook {
  peer_heights : gmap string Z;
  peer_chain_tips : gmap string (Z * Hash256);
  recent_chain_tips : gmap string (Z * Hash256 * Z);
  incompatible_peers : gmap string (Z * bool);          (* marked at, permanent *)
  fork_error_counts : gmap string Z;
  genesis_confirmed : gset string;
  pending_genesis_checks : gset string;
  last_genesis_check : gmap string Z;
  compatible_cache : list string * Z;
  pending_pings : gmap string (list (Z * Z));
  ping_times : gmap string Z;
  connected : gmap string ();                           (* [peer_writers] with an open channel *)
}.
Implicit Types p : PeerBook.

Definition set_heights (x : gmap string Z) p := mkPeerBook x (peer_chain_tips p) (recent_chain_tips p) (incompatible_peers p)
  (fork_error_counts p) (genesis_confirmed p) (pending_genesis_checks p) (last_genesis_check p) (compatible_cache p) (pending_pings p)
  (ping_times p) (connected p).
Definition set_chain_tips (x : gmap string (Z * Hash256)) (y : gmap string (Z * Hash256 * Z)) p := mkPeerBook (peer_heights p) x y
  (incompatible_peers p) (fork_error_counts p) (genesis_confirmed p) (pending_genesis_checks p) (last_genesis_check p)
  (compatible_cache p) (pending_pings p) (ping_times p) (connected p).
Definition set_incompatible (x : gmap string (Z * bool)) p := mkPeerBook (peer_heights p) (peer_chain_tips p) (recent_chain_tips p) x
  (fork_error_counts p) (genesis_confirmed p) (pending_genesis_checks p) (last_genesis_check p) (compatible_cache p) (pending_pings p)
  (ping_times p) (connected p).
Definition set_fork_errors (x : gmap string Z) p := mkPeerBook (peer_heights p) (peer_chain_tips p) (recent_chain_tips p)
  (incompatible_peers p) x (genesis_confirmed p) (pending_genesis_checks p) (last_genesis_check p) (compatible_cache p) (pending_pings p)
  (ping_times p) (connected p).
Definition set_genesis_checks (x y : gset string) (z : gmap string Z) p := mkPeerBook (peer_heights p) (peer_chain_tips p)
  (recent_chain_tips p) (incompatible_peers p) (fork_error_counts p) x y z (compatible_cache p) (pending_pings p) (ping_times p)
  (connected p).
Definition set_compatible_cache (x : list string * Z) p := mkPeerBook (peer_heights p) (peer_chain_tips p) (recent_chain_tips p)
  (incompatible_peers p) (fork_error_counts p) (genesis_confirmed p) (pending_genesis_checks p) (last_genesis_check p) x
  (pending_pings p) (ping_times p) (connected p).
Definition set_pings (x : gmap string (list (Z * Z))) (y : gmap string Z) p := mkPeerBook (peer_heights p) (peer_chain_tips p)
  (recent_chain_tips p) (incompatible_peers p) (fork_error_counts p) (genesis_confirmed p) (pending_genesis_checks p)
  (last_genesis_check p) (compatible_cache p) x y (connected p).
Definition set_connected (x : gmap string ()) p := mkPeerBook (peer_heights p) (peer_chain_tips p) (recent_chain_tips p)
  (incompatible_peers p) (fork_error_counts p) (genesis_confirmed p) (pending_genesis_checks p) (last_genesis_check p)
  (compatible_cache p) (pending_pings p) (ping_times p) x.
Definition peer_book_new (inst : Z) : PeerBook := mkPeerBook ∅ ∅ ∅ ∅ ∅ ∅ ∅ ∅ ([], inst) ∅ ∅ ∅.

(** [duration.as_secs()]. *)
Definition secs_since (inst t : Z) : Z := (inst - t) / NANOS.

(** ** Chain tips, heights, pings *)

Definition reset_fork_errors (peer : string) p : PeerBook := set_fork_errors (delete (ip_of peer) (fork_error_counts p)) p.
Definition increment_fork_errors (peer : string) p : PeerBook * Z :=
  let n := as_u32 (default 0 (fork_error_counts p !! ip_of peer) + 1) in
  (set_fork_errors (<[ip_of peer := n]> (fork_error_counts p)) p, n).
Definition set_peer_height (peer : string) (h : Z) p : PeerBook := set_heights (<[ip_of peer := h]> (peer_heights p)) p.
Definition update_peer_height (peer : string) (h : Z) p : PeerBook := set_heights (<[ip_of peer := h]> (peer_heights p)) p.
Definition get_peer_height p (peer : string) : option Z := peer_heights p !! ip_of peer.

(** A tip lower than the known one is stale; the copy that outlives the connection is kept
    likewise. *)
Definition record_chain_tip (inst : Z) (peer : string) (h : Z) (hash : Hash256) p : PeerBook :=
  let ip := ip_of peer in
  if match peer_chain_tips p !! ip with Some (known, _) => h <? known | None => false end then p
  else
    let newer := match recent_chain_tips p !! ip with Some (known, _, _) => known <=? h | None => true end in
    set_chain_tips (<[ip := (h, hash)]> (peer_chain_tips p))
      (if newer then <[ip := (h, hash, inst)]> (recent_chain_tips p) else recent_chain_tips p) p.
Definition get_peer_chain_tip p (peer : string) : option (Z * Hash256) := peer_chain_tips p !! ip_of peer.
Definition get_recent_chain_tips `{MapIter} (inst max_age : Z) p : list (string * Z * Hash256) :=
  (λ e : string * (Z * Hash256 * Z), (e.1, e.2.1.1, e.2.1.2)) <$>
    filter (λ e : string * (Z * Hash256 * Z), e.2.2 ≤ inst ∧ secs_since inst e.2.2 ≤ max_age) (iter (recent_chain_tips p)).

Definition record_ping_sent (inst : Z) (peer : string) (nonce : Z) p : PeerBook :=
  let l := default [] (pending_pings p !! ip_of peer) ++ [(nonce, inst)] in
  set_pings (<[ip_of peer := if (10 <? length l)%nat then drop 1 l else l]> (pending_pings p)) (ping_times p) p.
Definition record_pong_received (inst : Z) (peer : string) (nonce : Z) p : PeerBook :=
  match l ← pending_pings p !! ip_of peer; '(i, e) ← list_find (λ e : Z * Z, e.1 = nonce) l; Some (l, i, e.2) with
  | Some (l, i, sent) =>
      set_pings (<[ip_of peer := delete i l]> (pending_pings p)) (<[ip_of peer := inst - sent]> (ping_times p)) p
  | None => p
  end.

Definition register_peer_force (peer : string) p : PeerBook := set_connected (<[peer := tt]> (connected p)) p.
Definition unregister_peer (peer : string) p : PeerBook :=
  let p := set_connected (delete peer (connected p)) p in
  let p := set_heights (delete peer (peer_heights p)) p in
  set_pings (delete peer (pending_pings p)) (delete peer (ping_times p)) p.
(** When a connection ends.  Heights, tips and pings go under the address as it is given. *)
Definition clear_genesis_check_cooldown (peer : string) p : PeerBook :=
  set_genesis_checks (genesis_confirmed p) (pending_genesis_checks p) (delete (ip_of peer) (last_genesis_check p)) p.
Definition clear_peer_data (peer : string) p : PeerBook :=
  let p := set_heights (delete peer (peer_heights p)) p in
  let p := set_chain_tips (delete peer (peer_chain_tips p)) (recent_chain_tips p) p in
  let p := set_pings (delete peer (pending_pings p)) (delete peer (ping_times p)) p in
  let p := set_genesis_checks (genesis_confirmed p ∖ {[ip_of peer]}) (pending_genesis_checks p) (last_genesis_check p) p in
  clear_genesis_check_cooldown peer p.

(** ** Compatibility *)

Section compatibility.
Context `{MapIter}.
Definition INCOMPATIBLE_RECHECK_SECS : Z := 300.
Definition COMPATIBLE_PEERS_CACHE_TTL : Z := 10.
Definition GENESIS_CHECK_COOLDOWN_SECS : Z := 300.

(** [bl] is the ban list, once the registry has been given it. *)
Definition peer_whitelisted (bl : option IPBanlist) (peer : string) : bool :=
  match parse_ip (ip_of peer), bl with Some ip, Some bl => is_whitelisted bl ip | _, _ => false end.
Definition has_whitelist (bl : option IPBanlist) : bool :=
  match bl with Some bl => negb (bool_decide (whitelist bl = ∅)) | None => false end.

Definition mark_incompatible (bl : option IPBanlist) (inst : Z) (peer : string) (permanent : bool) p : PeerBook :=
  if peer_whitelisted bl (ip_of peer) then p
  else set_incompatible (<[ip_of peer := (inst, permanent)]> (incompatible_peers p)) p.
Definition mark_genesis_incompatible (inst : Z) (peer : string) p : PeerBook :=
  set_incompatible (<[ip_of peer := (inst, true)]> (incompatible_peers p)) p.
Definition clear_incompatible (peer : string) p : PeerBook := set_incompatible (delete (ip_of peer) (incompatible_peers p)) p.
Definition recheck_due (inst : Z) (m : Z * bool) : bool := negb m.2 && (INCOMPATIBLE_RECHECK_SECS <=? secs_since inst m.1).
Definition is_incompatible (inst : Z) (peer : string) p : PeerBook * bool :=
  match incompatible_peers p !! ip_of peer with
  | None => (p, false)
  | Some m => if recheck_due inst m then (clear_incompatible peer p, false) else (p, true)
  end.

Definition mark_genesis_confirmed (peer : string) p : PeerBook :=
  set_genesis_checks ({[ip_of peer]} ∪ genesis_confirmed p) (pending_genesis_checks p) (last_genesis_check p) p.
Definition is_genesis_confirmed p (peer : string) : bool := bool_decide (ip_of peer ∈ genesis_confirmed p).
Definition claim_genesis_check (inst : Z) (peer : string) p : PeerBook * bool :=
  let ip := ip_of peer in
  if match last_genesis_check p !! ip with Some t => secs_since inst t <? GENESIS_CHECK_COOLDOWN_SECS | None => false end then (p, false)
  else (set_genesis_checks (genesis_confirmed p) ({[ip]} ∪ pending_genesis_checks p) (last_genesis_check p) p,
        bool_decide (ip ∉ pending_genesis_checks p)).
Definition release_genesis_check (inst : Z) (peer : string) p : PeerBook :=
  set_genesis_checks (genesis_confirmed p) (pending_genesis_checks p ∖ {[ip_of peer]}) (<[ip_of peer := inst]> (last_genesis_check p)) p.

(** The answer to [GetBlockHash(0)]: a hash, no hash, another message, or none in time. *)
Inductive genesis_answer := GenesisHashIs (h : Hash256) | GenesisUnknown | OtherMessage | NoAnswer.
Definition verify_genesis_compatibility (inst : Z) (peer : string) (ours : Hash256) (a : genesis_answer) p : PeerBook * bool :=
  match a with
  | GenesisHashIs theirs =>
      if bool_decide (ours = theirs) then (mark_genesis_confirmed peer (reset_fork_errors peer p), true)
      else (mark_genesis_incompatible inst peer p, false)
  | _ => (mark_genesis_confirmed peer p, true)
  end.

Definition get_connected_peers p : list string := (iter (connected p)).*1.
Definition get_compatible_peers_uncached (inst : Z) p : PeerBook * list string :=
  let p := set_incompatible (filter (λ e : string * (Z * bool), recheck_due inst e.2 = false) (incompatible_peers p)) p in
  (p, filter (λ ip, incompatible_peers p !! ip_of ip = None) (get_connected_peers p)).
Definition get_compatible_peers (inst : Z) p : PeerBook * list string :=
  let '(l, t) := compatible_cache p in
  if (secs_since inst t <? COMPATIBLE_PEERS_CACHE_TTL) && negb (bool_decide (l = [])) then (p, l)
  else let '(p, l) := get_compatible_peers_uncached inst p in (set_compatible_cache (l, inst) p, l).
Definition get_whitelisted_connected_peers (bl : option IPBanlist) p : list string :=
  filter (λ ip, peer_whitelisted bl ip = true) (get_connected_peers p).
End compatibility.
