(* ===== verification/BlockMessages.v ===== *)
(** * Messages about blocks (src/network/message_handler/blocks.rs, consensus.rs, health.rs)

    The messages by which chains are compared and synchronized: requests for blocks, tips
    and hashes, block batches and announcements, genesis blocks, fork alerts and pings.  A
    handler belongs to a connection ([SyncConn]) and works on the node ([BlockNode]): the
    chain with its fork state, the book of peers, the ban list, the buffer of blocks ahead
    of the tip, and the process-wide limits.  Tasks that a handler starts are appended to
    [bn_tasks] and run on their own ([run_task]).  Blocks are read as the database holds
    them, and the entries of the database by block hash, which nothing reads, are left out,
    as are the text of fork alerts, clock drift, predictions and the attack detector; the
    reasons kept with bans are shortened. *)

From Stdlib Require Import ZArith Lia Ascii String.
From stdpp Require Import base gmap strings list.
From S2P Require Import Prelude Types Instances Address Storage UtxoManager TransactionPool BlockVotes.
From S2P Require Import Lru BlockTypes BlockVrf BlockCache BlockLedger Governance Registry Reward Utf8 Genesis TxValidation Consensus.
From S2P Require Import Chain ChainApply ForkChoice Reorg BanList NetGuards IpText BlockRound PeerBook.

Inductive block_msg :=
| MGetBlocks (start end_ : Z) | MBlocksResponse (bs : list Block)
| MGetBlockHeight | MBlockHeightResponse (h : Z)
| MGetChainTip | MChainTipResponse (h : Z) (hash : Hash256)
| MGetBlockRange (start end_ : Z) | MBlockRangeResponse (bs : list Block)
| MGetBlockHash (h : Z) | MBlockHashResponse (h : Z) (hash : option Hash256)
| MBlockRequest (h : Z) | MBlockInventory (h : Z) | MBlockResponse (b : Block) | MBlockAnnouncement (b : Block)
| MGetGenesisHash | MGenesisHashResponse (hash : Hash256) | MRequestGenesis | MGenesisAnnouncement (b : Block)
| MGetChainWork | MChainWorkResponse (h : Z) (tip : Hash256) (work : Z)
| MGetChainWorkAt (h : Z) | MChainWorkAtResponse (h : Z) (hash : Hash256) (work : Z)
| MConsensusQuery (h : Z) (hash : Hash256) | MConsensusQueryResponse (agrees : bool) (h : Z) (hash : Hash256)
| MForkAlert (your_height : Z) (your_hash : Hash256) (consensus_height : Z) (consensus_hash : Hash256) (count : Z)
| MPing (nonce : Z) (height : option Z) | MPong (nonce : Z) (height : option Z).

Inductive block_msg_error := DisconnectGenesis | CorruptedBlockSent (peer : string) | SenderBanned (v : ban_verdict).

(** ** Reading an error as the handlers do, by its text *)

Inductive block_verdict := VFork (names_prev_hash : bool) | VWrongReward | VRecipients | VCorrupted | VEarly | VOther.
Definition chain_verdict (e : chain_error) : block_verdict :=
  match e with
  | Unserializable _ | CorruptedDeleted _ => VCorrupted
  | PreGenesis _ => VEarly
  | ZeroPreviousHash _ | BrokenLink _ => VFork false
  | WrongReward _ => VWrongReward
  | Chain.TooFewRecipients _ | UnknownMasternodes _ => VRecipients
  | _ => VOther
  end.
Definition block_error_verdict (e : block_error) : block_verdict :=
  match e with
  | PreviousHashMismatch _ => VFork false
  | TimestampBeforeGenesis _ | AboveExpectedHeight _ | ProducedTooEarly _ => VEarly
  | BlockTypes.TooFewRecipients _ => VRecipients
  | _ => VOther
  end.
Definition verdict (e : incoming_error) : block_verdict :=
  match e with
  | BadEncoding _ => VCorrupted
  | ForkPrev _ => VFork true
  | ForkSameHeight _ => VFork false
  | Invalid e => block_error_verdict e
  | NotAdded e | StoreFailed e => chain_verdict e
  | _ => VOther
  end.
(** Whether the text of a failed reorganization names the reward recipients. *)
Definition names_recipients (e : reorg_error) : bool :=
  match e with
  | FewRecipients _ | AddFailed _ (Chain.TooFewRecipients _) => true
  | _ => false
  end.

(** ** Limits *)

Definition MAX_BLOCKS_PER_RESPONSE : Z := 50.
Definition MAX_FRAME_SIZE : Z := 8 * 1024 * 1024.
Definition IBD_GAP_THRESHOLD : Z := 10.
Definition MAX_PENDING_BLOCKS : nat := 500.
Definition ZOMBIE_TIMEOUT : Z := 600 * NANOS.
Definition FORK_ALERT_RESPONSE_COOLDOWN : Z := 30 * NANOS.
Definition FORK_ALERT_WINDOW : Z := 300 * NANOS.
Definition FORK_ALERT_BAN_THRESHOLD : Z := 5.
Definition FORK_ALERT_RECENT_SECS : Z := 300.

Record GetBlocksRequest := mkRequest { gr_start : Z; gr_end : Z; gr_at : Z }.
Record SyncConn := mkSyncConn { sc_peer : string; recent_requests : list GetBlocksRequest }.

(** [(a as i64 - b as i64).abs() <= 100]; the absolute value of the least number is itself. *)
Definition near (a b : Z) : bool :=
  let d := sub64 a b in (d <=? 100) || (U64 - 100 <=? d) || (d =? 2 ^ 63).
Definition similar (start end_ : Z) (r : GetBlocksRequest) : bool := near (gr_start r) start && near (gr_end r) end_.
(** Whether the request is answered; it is then remembered. *)
Definition admit_request (inst start end_ : Z) (l : list GetBlocksRequest) : list GetBlocksRequest * bool :=
  let l := filter (λ r, inst - gr_at r < 30 * NANOS) l in
  if (20 <=? length (filter (λ r, similar start end_ r = true) l))%nat then (l, false)
  else (l ++ [mkRequest start end_ inst], true).

(** Pauses between fork alerts to a peer that does not move. *)
Definition alert_interval (count : Z) : Z := if count =? 0 then 60 else if count =? 1 then 120 else if count =? 2 then 300 else 600.

Section sizes.
Context `{BlockExternals}.
(** [bincode::serialized_size] of a batch: a tag of four bytes, a count of eight, the blocks;
    [u64::MAX] where a block cannot be encoded. *)
Definition batch_size (bs : list Block) : Z :=
  match mapM block_bincode bs with
  | Some ds => 12 + sumZ (Z.of_nat ∘ length <$> ds)
  | None => U64 - 1
  end.
Definition batch_fits (bs : list Block) : bool := batch_size bs <=? MAX_FRAME_SIZE.
(** The search for the largest prefix that fits; a round per halving. *)
Fixpoint trim_search (fuel : nat) (bs : list Block) (lo hi best : nat) : nat :=
  match fuel with
  | O => best
  | S fuel =>
      if (hi <? lo)%nat then best
      else
        let mid := ((lo + hi) / 2)%nat in
        if batch_fits (take mid bs) then trim_search fuel bs (mid + 1) hi mid
        else if (mid =? 0)%nat then best else trim_search fuel bs lo (mid - 1) best
  end.
Definition trim_blocks_to_frame_limit (bs : list Block) : list Block :=
  match bs with
  | [] => []
  | _ => if batch_fits bs then bs else take (trim_search (S (length bs)) bs 1 (length bs) 0) bs
  end.
End sizes.

(** ** The node as the handlers see it *)

Section handlers.
Context {S : Type} `{UtxoStorage S} `{MapIter} `{Externals} `{BlockExternals} `{!BlockCodec} `{LegacyCodec} `{Zstd} `{LruCrate}.
Context `{TxExternals} `{PoolCodec} `{VrfExternals} `{GovCodec}.
Abbreviation Blockchain := (Blockchain (S := S)).
Abbreviation ForkNode := (ForkNode (S := S)).

Inductive block_task := ForkTask (bs : list Block) (peer : string) | GenesisTask (peer : string) (ours : Hash256).
(** Process-wide limits: fork alerts sent (when, how many, at which height), requests after
    a chain tip, peers far behind, rejected cycles after incoming alerts. *)
Record SyncLimits := mkLimits {
  alerts_sent : gmap string (Z * Z * Z);
  tip_requests : gmap string Z;
  zombies : gmap string Z;
  alert_cycles : gmap string (Z * Z * Z);
}.
Record BlockNode := mkBlockNode {
  bn_node : ForkNode;
  bn_peers : PeerBook;
  bn_bans : option IPBanlist;
  bn_seen : option DeduplicationFilter;
  bn_pending : gmap Z Block;                    (* [pending_sync_blocks] *)
  bn_fork_requests : gmap string Z;             (* [fork_resolution_last_request] *)
  bn_limits : SyncLimits;
  bn_tasks : list block_task;
  bn_out : option (list block_msg);             (* to all peers, while the channel is open *)
  bn_sent : list (string * block_msg);          (* to one peer, outside the reply *)
}.
Implicit Types (s : BlockNode) (n : ForkNode) (q : SyncConn) (c : Blockchain).
Abbreviation reply := (BlockNode * result block_msg_error (option block_msg))%type.

Definition put_node n s := mkBlockNode n (bn_peers s) (bn_bans s) (bn_seen s) (bn_pending s) (bn_fork_requests s) (bn_limits s) (bn_tasks s) (bn_out s) (bn_sent s).
Definition put_peers (p : PeerBook) s := mkBlockNode (bn_node s) p (bn_bans s) (bn_seen s) (bn_pending s) (bn_fork_requests s) (bn_limits s) (bn_tasks s) (bn_out s) (bn_sent s).
Definition put_bans (b : option IPBanlist) s := mkBlockNode (bn_node s) (bn_peers s) b (bn_seen s) (bn_pending s) (bn_fork_requests s) (bn_limits s) (bn_tasks s) (bn_out s) (bn_sent s).
Definition put_seen (f : option DeduplicationFilter) s := mkBlockNode (bn_node s) (bn_peers s) (bn_bans s) f (bn_pending s) (bn_fork_requests s) (bn_limits s) (bn_tasks s) (bn_out s) (bn_sent s).
Definition put_pending (x : gmap Z Block) s := mkBlockNode (bn_node s) (bn_peers s) (bn_bans s) (bn_seen s) x (bn_fork_requests s) (bn_limits s) (bn_tasks s) (bn_out s) (bn_sent s).
Definition put_fork_requests (x : gmap string Z) s := mkBlockNode (bn_node s) (bn_peers s) (bn_bans s) (bn_seen s) (bn_pending s) x (bn_limits s) (bn_tasks s) (bn_out s) (bn_sent s).
Definition put_limits (x : SyncLimits) s := mkBlockNode (bn_node s) (bn_peers s) (bn_bans s) (bn_seen s) (bn_pending s) (bn_fork_requests s) x (bn_tasks s) (bn_out s) (bn_sent s).
Definition put_tasks (x : list block_task) s := mkBlockNode (bn_node s) (bn_peers s) (bn_bans s) (bn_seen s) (bn_pending s) (bn_fork_requests s) (bn_limits s) x (bn_out s) (bn_sent s).
Definition spawn (t : block_task) s : BlockNode := put_tasks (bn_tasks s ++ [t]) s.
Definition gossip (m : block_msg) s := mkBlockNode (bn_node s) (bn_peers s) (bn_bans s) (bn_seen s) (bn_pending s) (bn_fork_requests s) (bn_limits s) (bn_tasks s)
  ((λ l, l ++ [m]) <$> bn_out s) (bn_sent s).
(** [send_to_peer]: nothing happens when the peer is not connected. *)
Definition send_to (peer : string) (m : block_msg) s :=
  if bool_decide (is_Some (connected (bn_peers s) !! ip_of peer))
  then mkBlockNode (bn_node s) (bn_peers s) (bn_bans s) (bn_seen s) (bn_pending s) (bn_fork_requests s) (bn_limits s) (bn_tasks s)
         (bn_out s) (bn_sent s ++ [(peer, m)])
  else s.

Definition bn_chain s : Blockchain := chain (bn_node s).
Definition bn_height s : Z := current_height (bn_chain s).
Definition put_chain c s : BlockNode := put_node (set_chain c (bn_node s)) s.
Definition genesis_hash c : Hash256 := default zero_hash (get_block_hash c 0).
Definition tip_hash c : Hash256 := default zero_hash (get_block_hash c (current_height c)).

Definition suspend_peer_from_consensus (now : Clock) (peer : string) s : BlockNode :=
  put_chain (set_registry (suspend_from_consensus (c_unix now) (registry (bn_chain s)) peer).1 (bn_chain s)) s.
Definition clear_peer_consensus_suspension (peer : string) s : BlockNode :=
  put_chain (set_registry (clear_consensus_suspension (registry (bn_chain s)) peer).1 (bn_chain s)) s.
Definition mark_peer (now : Clock) (peer : string) s : BlockNode :=
  put_peers (mark_incompatible (bn_bans s) (c_instant now) peer false (bn_peers s)) s.
(** A temporary mark, and no part in consensus. *)
Definition exclude_peer (now : Clock) (peer : string) s : BlockNode := suspend_peer_from_consensus now peer (mark_peer now peer s).
Definition exclude_genesis (now : Clock) (peer : string) s : BlockNode :=
  suspend_peer_from_consensus now peer (put_peers (mark_genesis_incompatible (c_instant now) peer (bn_peers s)) s).
Definition permanent_ban_ip (now : Clock) (peer reason : string) s : BlockNode :=
  match bn_bans s, parse_ip (ip_of peer) with
  | Some bl, Some ip =>
      if is_whitelisted bl ip then s
      else suspend_peer_from_consensus now peer (put_bans (Some (add_permanent_ban ip reason bl)) s)
  | _, _ => suspend_peer_from_consensus now peer s
  end.

(** While far behind, blocks come from confirmed or whitelisted peers only. *)
Definition is_initial_block_download (now : Clock) s : bool :=
  IBD_GAP_THRESHOLD <? sat_sub (calculate_expected_height (bc_network (bn_chain s)) (c_unix now)) (bn_height s).
Definition should_drop_ibd_block (now : Clock) (peer : string) s : bool :=
  is_initial_block_download now s && negb (is_genesis_confirmed (bn_peers s) peer)
  && has_whitelist (bn_bans s) && negb (peer_whitelisted (bn_bans s) peer).

(** ** Serving blocks *)

(** Blocks from [h] on, until the first one that is missing. *)
Fixpoint read_blocks (fuel : nat) c (h : Z) : list Block :=
  match fuel with
  | O => []
  | Datatypes.S fuel => match block_at c h with Some b => b :: read_blocks fuel c (h + 1) | None => [] end
  end.
Definition blocks_to_serve c (start end_ : Z) : list Block :=
  let effective_end := Z.min (Z.min end_ (sub64 (add64 start MAX_BLOCKS_PER_RESPONSE) 1)) (current_height c) in
  if start <=? current_height c then read_blocks (Z.to_nat (effective_end - start + 1)) c start else [].
Definition handle_get_blocks (now : Clock) (start end_ : Z) q s : SyncConn * option block_msg :=
  let '(l, answered) := admit_request (c_instant now) start end_ (recent_requests q) in
  let q := mkSyncConn (sc_peer q) l in
  if negb answered then (q, None)
  else if (start =? 0) && (end_ =? 0)
  then (q, Some (MBlocksResponse (match block_at (bn_chain s) 0 with Some g => [g] | None => [] end)))
  else (q, Some (MBlocksResponse (trim_blocks_to_frame_limit (blocks_to_serve (bn_chain s) start end_)))).
Definition get_block_range c (start end_ : Z) : list Block := omap (block_at c) (seqZ start (end_ - start + 1)).
Definition handle_get_block_range (start end_ : Z) s : option block_msg :=
  let capped := Z.min end_ (sat_add start (MAX_BLOCKS_PER_RESPONSE - 1)) in
  Some (MBlockRangeResponse (trim_blocks_to_frame_limit (get_block_range (bn_chain s) start capped))).
Definition handle_block_request (h : Z) s : option block_msg := MBlockResponse <$> block_at (bn_chain s) h.
Definition handle_request_genesis s : option block_msg := MGenesisAnnouncement <$> block_at (bn_chain s) 0.
Definition handle_get_chain_work s : option block_msg := Some (MChainWorkResponse (bn_height s) (tip_hash (bn_chain s)) (cumulative_work (bn_chain s))).
Definition handle_get_chain_work_at (h : Z) s : option block_msg :=
  Some (MChainWorkAtResponse h (default zero_hash (get_block_hash (bn_chain s) h)) (get_work_at_height (bn_chain s) h)).

Definition handle_block_inventory (now : Clock) (h : Z) q s : BlockNode * option block_msg :=
  if calculate_expected_height (bc_network (bn_chain s)) (c_unix now) <? h then (exclude_peer now (sc_peer q) s, None)
  else (s, if bn_height s <? h then Some (MBlockRequest h) else None).

(** ** One block *)

(** At most one request for fork resolution to a peer in thirty seconds. *)
Definition claim_fork_request (now : Clock) (peer : string) s : BlockNode * bool :=
  if match bn_fork_requests s !! peer with Some t => c_instant now - t <? 30 * NANOS | None => false end then (s, false)
  else (put_fork_requests (<[peer := c_instant now]> (bn_fork_requests s)) s, true).
Definition first_connected s : option string := head (get_connected_peers (bn_peers s)).
Definition incoming (now : Clock) (b : Block) s : BlockNode * result incoming_error bool :=
  let '(n, r) := add_block_with_fork_handling (c_unix now) (first_connected s) (bn_node s) b in (put_node n s, r).

Definition seen_before (now : Clock) (h : Z) s : BlockNode * bool :=
  match bn_seen s with
  | Some f => let '(f, seen) := check_and_insert (c_instant now) (le_bytes 8 h) f in (put_seen (Some f) s, seen)
  | None => (s, false)
  end.
Definition handle_block_response (now : Clock) (b : Block) q s : BlockNode :=
  let peer := sc_peer q in
  let h := bh_height (header b) in
  if should_drop_ibd_block now peer s then s
  else
    let '(s, seen) := seen_before now h s in
    if seen then s
    else
      let '(s, r) := incoming now b s in
      match r with
      | Ok true => gossip (MBlockInventory h) s
      | Ok false => if add64 (bn_height s) 1 <? h then send_to peer (MGetBlocks (add64 (bn_height s) 1) h) s else s
      | Err e =>
          match verdict e with
          | VFork _ =>
              let '(s, ok) := claim_fork_request now peer s in
              if ok then send_to peer (MGetBlocks (Z.max (sat_sub (bn_height s) 20) 1) h) s else s
          | VRecipients | VEarly => exclude_peer now peer s
          | VWrongReward | VCorrupted | VOther => s
          end
      end.

(** ** Genesis blocks *)

Definition handle_genesis_hash_response (now : Clock) (theirs : Hash256) q s : reply :=
  let peer := sc_peer q in
  let ours := genesis_hash (bn_chain s) in
  if bool_decide (ours = zero_hash) || bool_decide (theirs = zero_hash) then (s, Ok None)
  else if bool_decide (ours = theirs)
  then (put_peers (mark_genesis_confirmed peer (reset_fork_errors peer (bn_peers s))) s, Ok None)
  else if bn_height s =? 0 then (s, Ok (Some MRequestGenesis))
  else (permanent_ban_ip now peer "Genesis hash mismatch" (exclude_genesis now peer s), Err DisconnectGenesis).

Inductive replace_error := CandidateBad (e : genesis_error) | CandidateRecipients | CandidateUnserializable.
Definition names_timestamp (e : genesis_error) : bool := match e with TimestampMismatch _ _ => true | _ => false end.
Definition genesis_rewards (b : Block) : list UTXO :=
  (λ e : nat * (string * Z), mkUTXO (mkOutPoint (hash b) (as_u32 (Z.of_nat e.1))) e.2.2 (str_bytes e.2.1) e.2.1 None) <$>
    filter (λ e : nat * (string * Z), e.2.2 ≠ 0 ∧ e.2.1 ≠ EmptyString) (imap (λ i e, (i, e)) (masternode_rewards b)).
Definition check_candidate (net : NetworkType) (b : Block) : result replace_error () :=
  let? u := map_err CandidateBad (verify_structure b) in
  let? u := map_err CandidateBad (verify_timestamp b net) in
  let? u := map_err CandidateBad (verify_checkpoint b net) in
  fail_if (size (list_to_set (masternode_rewards b).*1 : gset string) <? 3)%nat with CandidateRecipients in Ok tt.
(** The block cache is left as it is, and the block is stored without going through it. *)
Definition replace_genesis_if_lower c (b : Block) : Blockchain * result replace_error bool :=
  if 0 <? current_height c then (c, Ok false)
  else
    match check_candidate (bc_network c) b with
    | Err e => (c, Err e)
    | Ok _ =>
        match block_at c 0 with
        | None => (c, Ok false)
        | Some ours =>
            if negb (bytes_ltb (hash b) (hash ours)) then (c, Ok false)
            else
              let c := set_block_db (delete 0 (block_db c)) c in
              let c := set_bc_utxo (clear_all (bc_utxo c)).1 c in
              match block_bincode b with
              | None => (c, Err CandidateUnserializable)
              | Some d =>
                  let c := set_height_db (Some 0) (set_block_db (<[0 := d]> (block_db c)) c) in
                  (set_bc_utxo (foldl (λ m u, (add_utxo m u).1) (bc_utxo c) (genesis_rewards b)) c, Ok true)
              end
        end
    end.
Definition handle_genesis_announcement (now : Clock) (b : Block) q s : BlockNode :=
  let peer := sc_peer q in
  if negb (bh_height (header b) =? 0) then s
  else match block_at (bn_chain s) 0 with
       | Some _ =>
           if 0 <? bn_height s then s
           else
             let '(c, r) := replace_genesis_if_lower (bn_chain s) b in
             let s := put_chain c s in
             match r with
             | Ok true => gossip (MGenesisAnnouncement b) s
             | Ok false => if 0 <? default 0 (fst <$> get_peer_chain_tip (bn_peers s) peer) then exclude_genesis now peer s else s
             | Err (CandidateBad e) => if names_timestamp e then exclude_genesis now peer s else s
             | Err _ => s
             end
       | None =>
           match verify_structure b with
           | Err _ => s
           | Ok _ =>
               match add_block (c_unix now) (bn_chain s) b with
               | (c, Ok _) => gossip (MGenesisAnnouncement b) (put_chain c s)
               | (c, Err (GenesisBad e)) => let s := put_chain c s in if names_timestamp e then exclude_genesis now peer s else s
               | (c, Err _) => put_chain c s
               end
           end
       end.
(** ** The tip of a peer *)

Definition start_genesis_check (now : Clock) (peer : string) s : BlockNode :=
  if is_genesis_confirmed (bn_peers s) peer then s
  else
    let '(p, bad) := is_incompatible (c_instant now) peer (bn_peers s) in
    let s := put_peers p s in
    if bad then s
    else
      let '(p, claimed) := claim_genesis_check (c_instant now) peer (bn_peers s) in
      let s := put_peers p s in
      if claimed then spawn (GenesisTask peer (genesis_hash (bn_chain s))) s else s.

Definition set_alerts (x : gmap string (Z * Z * Z)) s :=
  put_limits (mkLimits x (tip_requests (bn_limits s)) (zombies (bn_limits s)) (alert_cycles (bn_limits s))) s.
Definition set_tip_requests (x : gmap string Z) s :=
  put_limits (mkLimits (alerts_sent (bn_limits s)) x (zombies (bn_limits s)) (alert_cycles (bn_limits s))) s.
Definition set_zombies (x : gmap string Z) s :=
  put_limits (mkLimits (alerts_sent (bn_limits s)) (tip_requests (bn_limits s)) x (alert_cycles (bn_limits s))) s.
Definition set_cycles (x : gmap string (Z * Z * Z)) s :=
  put_limits (mkLimits (alerts_sent (bn_limits s)) (tip_requests (bn_limits s)) (zombies (bn_limits s)) x) s.
Definition not_zombie (peer : string) s : BlockNode := set_zombies (delete peer (zombies (bn_limits s))) s.

(** Who is on our tip and who on theirs at our height: connected peers, then peers seen
    lately that were not counted. *)
Definition count_tip (height : Z) (ours theirs : Hash256) (acc : gset string * (Z * Z)) (e : string * Z * Hash256) : gset string * (Z * Z) :=
  let '(counted, (us, them)) := acc in
  let '(peer, h, tip) := e in
  if negb (h =? height) then acc
  else ({[ip_of peer]} ∪ counted,
        if bool_decide (tip = ours) then (us + 1, them) else if bool_decide (tip = theirs) then (us, them + 1) else (us, them)).
Definition live_tips p (peers : list string) : list (string * Z * Hash256) :=
  omap (λ peer, (λ t : Z * Hash256, (peer, t.1, t.2)) <$> get_peer_chain_tip p peer) peers.
Definition count_sides (height : Z) (ours theirs : Hash256) (live recent : list (string * Z * Hash256)) : Z * Z :=
  (foldl (λ acc e, if bool_decide (ip_of e.1.1 ∈ acc.1) then acc else count_tip height ours theirs acc e)
     (foldl (count_tip height ours theirs) (∅, (1, 0)) live) recent).2.

Definition resolution_idle n : bool := match fork_state n with FNone => true | _ => false end.
(** A fork is logged once a minute; the entry is shared with the alerts to peers behind. *)
Definition note_fork (now : Clock) (h : Z) (peer : string) s : BlockNode :=
  if match alerts_sent (bn_limits s) !! peer with Some (t, _, _) => 60 * NANOS <=? c_instant now - t | None => true end
  then set_alerts (<[peer := (c_instant now, 0, h)]> (alerts_sent (bn_limits s))) s else s.
(** The same height and another block. *)
Definition handle_fork_tip (now : Clock) (h : Z) (theirs : Hash256) q s : BlockNode * option block_msg :=
  let peer := sc_peer q in
  let inst := c_instant now in
  let ours := tip_hash (bn_chain s) in
  let s := note_fork now h peer s in
  let '(p, peers) := get_compatible_peers inst (bn_peers s) in
  let s := put_peers p s in
  let '(us, them) := count_sides h ours theirs (live_tips p peers) (get_recent_chain_tips inst FORK_ALERT_RECENT_SECS p) in
  if (them <? us) && (3 <=? us) then (s, Some (MForkAlert h theirs h ours us))
  else if h =? 0 then (s, Some MRequestGenesis)
  else if negb (resolution_idle (bn_node s)) then (s, None)
  else if c_unix now <? fork_resolution_blocked_until (bn_node s) then (s, None)
  else
    let '(s, ok) := claim_fork_request now peer s in
    (s, if ok then Some (MGetBlocks (sat_sub h 10) (add64 h 5)) else None).
Definition handle_tip_ahead (now : Clock) (h : Z) q s : BlockNode * option block_msg :=
  let peer := sc_peer q in
  let s := not_zombie peer s in
  if match tip_requests (bn_limits s) !! peer with Some t => c_instant now - t <? 60 * NANOS | None => false end then (s, None)
  else (set_tip_requests (<[peer := c_instant now]> (tip_requests (bn_limits s))) s,
        Some (MGetBlocks (add64 (bn_height s) 1) (add64 h 1))).
(** How often a peer behind us that does not move is told, and whether now. *)
Definition alert_due (now : Clock) (h : Z) (peer : string) s : bool * Z :=
  match alerts_sent (bn_limits s) !! peer with
  | Some (t, count, last) =>
      if negb (last =? h) then (true, 0) else (alert_interval count * NANOS <=? c_instant now - t, count)
  | None => (true, 0)
  end.
Definition send_sync_alert (now : Clock) (h : Z) (theirs : Hash256) q s : BlockNode * option block_msg :=
  let peer := sc_peer q in
  let '(due, count) := alert_due now h peer s in
  if due && negb (is_syncing (bn_chain s)) then
    let '(p, peers) := get_compatible_peers (c_instant now) (bn_peers s) in
    let s := put_peers p s in
    let tips := live_tips p peers in
    let us := 1 + Z.of_nat (length (filter (λ e : string * Z * Hash256, bn_height s ≤ e.1.2) tips)) in
    let behind := Z.of_nat (length (filter (λ e : string * Z * Hash256, e.1.2 < bn_height s ∧ e.1.2 ≤ h) tips)) in
    if (3 <=? us) && (behind <? us)
    then (set_alerts (<[peer := (c_instant now, as_u32 (count + 1), h)]> (alerts_sent (bn_limits s))) s,
          Some (MForkAlert h theirs (bn_height s) (tip_hash (bn_chain s)) us))
    else (s, None)
  else (s, None).
Definition handle_tip_behind (now : Clock) (h : Z) (theirs : Hash256) q s : BlockNode * option block_msg :=
  let peer := sc_peer q in
  let gap := bn_height s - h in
  let '(s, alert) := if 2 <=? gap then send_sync_alert now h theirs q s else (s, None) in
  match alert with
  | Some m => (s, Some m)
  | None =>
      if 200 <=? gap then
        let since := default (c_instant now) (zombies (bn_limits s) !! peer) in
        if ZOMBIE_TIMEOUT <=? c_instant now - since then (exclude_peer now peer (not_zombie peer s), None)
        else (set_zombies (<[peer := since]> (zombies (bn_limits s))) s, None)
      else (not_zombie peer s, None)
  end.
Definition handle_chain_tip_response (now : Clock) (h : Z) (theirs : Hash256) q s : BlockNode * option block_msg :=
  let peer := sc_peer q in
  let s := put_peers (record_chain_tip (c_instant now) peer h theirs (set_peer_height peer h (bn_peers s))) s in
  let s := start_genesis_check now peer s in
  if h =? bn_height s then
    if bool_decide (theirs = tip_hash (bn_chain s)) then (not_zombie peer s, None) else handle_fork_tip now h theirs q s
  else if bn_height s <? h then handle_tip_ahead now h q s
  else handle_tip_behind now h theirs q s.
(** ** Batches *)

Definition buffer_sync_block (b : Block) s : BlockNode * bool :=
  let h := bh_height (header b) in
  if (MAX_PENDING_BLOCKS <=? size (bn_pending s))%nat then (s, false)
  else if bool_decide (is_Some (bn_pending s !! h)) then (s, false)
  else (put_pending (<[h := b]> (bn_pending s)) s, true).
(** Every round takes a block out of the buffer. *)
Fixpoint drain_loop (fuel : nat) (now : Clock) s (applied : Z) : BlockNode * Z :=
  match fuel with
  | O => (s, applied)
  | Datatypes.S fuel =>
      let next := add64 (bn_height s) 1 in
      match bn_pending s !! next with
      | None => (s, applied)
      | Some b =>
          match incoming now b (put_pending (delete next (bn_pending s)) s) with
          | (s, Ok true) => drain_loop fuel now s (applied + 1)
          | (s, _) => (s, applied)
          end
      end
  end.
Definition clear_pending_blocks s : BlockNode := put_pending ∅ s.
Definition drain_pending_blocks (now : Clock) s : BlockNode * Z := drain_loop (size (bn_pending s)) now s 0.

Record BatchCount := mkBatch { added : Z; buffered : Z; skipped : Z; fork_detected : bool }.
Inductive batch_step := BContinue | BBreak | BReturn (r : result block_msg_error (option block_msg)).
Definition skip_one (a : BatchCount) : BatchCount := mkBatch (added a) (buffered a) (skipped a + 1) (fork_detected a).
Definition welcome_peer (first : bool) (peer : string) s : BlockNode :=
  let s := put_peers (reset_fork_errors peer (bn_peers s)) s in
  if first then clear_peer_consensus_suspension peer (put_peers (clear_incompatible peer (bn_peers s)) s) else s.
(** Fork resolution starts with confirmed and with whitelisted peers only. *)
Definition engage_fork (bs : list Block) (peer : string) s : BlockNode :=
  let s := put_peers (increment_fork_errors peer (bn_peers s)).1 s in
  if is_genesis_confirmed (bn_peers s) peer then spawn (ForkTask bs peer) s
  else if peer_whitelisted (bn_bans s) peer
  then spawn (ForkTask bs peer) (put_peers (mark_genesis_confirmed peer (bn_peers s)) s)
  else s.
Definition absorb_block (now : Clock) (bs : list Block) (b : Block) q s (a : BatchCount) : BlockNode * BatchCount * batch_step :=
  let peer := sc_peer q in
  let h := bh_height (header b) in
  if (0 <? h) && bool_decide (previous_hash (header b) = zero_hash) then (s, skip_one a, BContinue)
  else if add64 (bn_height s) 1 <? h then
    let '(s, kept) := buffer_sync_block b s in
    (s, if kept then mkBatch (added a) (buffered a + 1) (skipped a) (fork_detected a) else a, BContinue)
  else
    let '(s, r) := incoming now b s in
    match r with
    | Ok true => (welcome_peer (added a =? 0) peer s, mkBatch (added a + 1) (buffered a) (skipped a) (fork_detected a), BContinue)
    | Ok false => (s, skip_one a, BContinue)
    | Err e =>
        match verdict e with
        | (VFork _ | VWrongReward) as v =>
            let a := mkBatch (added a) (buffered a) (skipped a + 1) true in
            if (h =? 1) && (bn_height s =? 0) && match v with VFork named => named | _ => false end
            then (s, a, BReturn (Ok (Some MRequestGenesis)))
            else (engage_fork bs peer s, a, BBreak)
        | VRecipients => (exclude_peer now peer s, a, BReturn (Ok None))
        | VCorrupted =>
            (if bool_decide (is_Some (parse_ip peer)) then exclude_peer now peer s else s, a, BReturn (Err (CorruptedBlockSent peer)))
        | VEarly => (exclude_peer now peer s, a, BBreak)
        | VOther => (s, skip_one a, BContinue)
        end
    end.
Fixpoint absorb_blocks (now : Clock) (all bs : list Block) q s (a : BatchCount)
    : BlockNode * BatchCount * option (result block_msg_error (option block_msg)) :=
  match bs with
  | [] => (s, a, None)
  | b :: bs =>
      match absorb_block now all b q s a with
      | (s, a, BContinue) => absorb_blocks now all bs q s a
      | (s, a, BBreak) => (s, a, None)
      | (s, a, BReturn r) => (s, a, Some r)
      end
  end.
(** A batch without use from a peer whose genesis is not confirmed counts against it. *)
Definition record_rejected_cycle (now : Clock) (peer : string) s : BlockNode :=
  if is_genesis_confirmed (bn_peers s) peer then s
  else
    let inst := c_instant now in
    let '(last, cycles, start) := default (inst, 0, inst) (alert_cycles (bn_limits s) !! peer) in
    let in_window := inst - start <? FORK_ALERT_WINDOW in
    set_cycles (<[peer := (last, if in_window then as_u32 (cycles + 1) else 1, if in_window then start else inst)]> (alert_cycles (bn_limits s))) s.
Definition fetches_from (peer : string) n : bool :=
  match fork_state n with FetchingChain _ _ p _ _ _ _ => String.eqb p peer | _ => false end.
Definition handle_blocks_response (now : Clock) (bs : list Block) q s : reply :=
  let peer := sc_peer q in
  if bool_decide (bs = []) then (s, Ok None)
  else if should_drop_ibd_block now peer s then (s, Ok None)
  else if fetches_from peer (bn_node s) then (spawn (ForkTask bs peer) s, Ok None)
  else
    match absorb_blocks now bs bs q s (mkBatch 0 0 0 false) with
    | (s, _, Some r) => (s, r)
    | (s, a, None) =>
        let s := if (0 <? added a) || ((0 <? buffered a) && negb (fork_detected a)) then (drain_pending_blocks now s).1 else s in
        (if fork_detected a then record_rejected_cycle now peer s else s, Ok None)
    end.

(** ** Fork alerts *)

(** Whether the alert is followed: not while the peer is being counted out, not within
    thirty seconds of the last time. *)
Definition admit_alert (now : Clock) (peer : string) s : BlockNode * bool :=
  let inst := c_instant now in
  let '(last, rejected, start) as entry := default (inst, 0, inst) (alert_cycles (bn_limits s) !! peer) in
  let in_window := inst - start <? FORK_ALERT_WINDOW in
  let cycles := if in_window then rejected else 0 in
  let s := set_cycles (<[peer := entry]> (alert_cycles (bn_limits s))) s in
  if FORK_ALERT_BAN_THRESHOLD <=? cycles then
    let s := match bn_bans s, parse_ip (ip_of peer) with
             | Some bl, Some ip => put_bans (Some (record_violation inst (c_unix now) ip "AV30 fork alert spam" bl).1) s
             | _, _ => s
             end in
    (set_cycles (<[peer := (last, 0, inst)]> (alert_cycles (bn_limits s))) s, false)
  else if inst - last <? FORK_ALERT_RESPONSE_COOLDOWN then (s, false)
  else (set_cycles (<[peer := (inst, cycles, if in_window then start else inst)]> (alert_cycles (bn_limits s))) s, true).
Definition handle_fork_alert (now : Clock) (your_height : Z) (your_hash : Hash256) (height : Z) (hash : Hash256) q s : BlockNode * option block_msg :=
  let peer := sc_peer q in
  let note s := put_peers (set_peer_height peer height (record_chain_tip (c_instant now) peer height hash (bn_peers s))) s in
  if is_syncing (bn_chain s) || (add64 (bn_height s) 10 <? height) then (note s, None)
  else if bool_decide (your_hash = hash) && negb (your_height <? height) then (s, None)
  else
    let '(s, follow) := admit_alert now peer s in
    if follow
    then (note s, Some (MGetBlocks (if your_height <? height then sat_sub your_height 5 else sat_sub height 10) (add64 (Z.max your_height height) 5)))
    else (s, None).

(** ** Tasks, dispatch *)

(** [v] and [a] are what peers answer while the task runs. *)
Definition run_fork_task (now : Clock) (v : PeerView) (bs : list Block) (peer : string) s : BlockNode :=
  let '(n, r) := handle_fork (c_unix now) (c_instant now) v (bn_node s) bs peer in
  let s := put_node n s in
  match r with
  | Err e =>
      if names_recipients e && negb (peer_whitelisted (bn_bans s) peer) then
        let s := match bn_bans s, parse_ip (ip_of peer) with
                 | Some bl, Some ip => put_bans (Some (add_temp_ban (c_instant now) (c_unix now) ip (6 * 3600) "Invalid reorg reward" bl)) s
                 | _, _ => s
                 end in
        exclude_peer now peer s
      else s
  | Ok _ => s
  end.
Definition run_genesis_task (now : Clock) (a : genesis_answer) (peer : string) (ours : Hash256) s : BlockNode :=
  put_peers (release_genesis_check (c_instant now) peer (verify_genesis_compatibility (c_instant now) peer ours a (bn_peers s)).1) s.
Definition run_task (now : Clock) (v : PeerView) (a : genesis_answer) (i : nat) s : BlockNode :=
  match bn_tasks s !! i with
  | None => s
  | Some t =>
      let s := put_tasks (delete i (bn_tasks s)) s in
      match t with
      | ForkTask bs peer => run_fork_task now v bs peer s
      | GenesisTask peer ours => run_genesis_task now a peer ours s
      end
  end.

Definition note_height (h : option Z) q s : BlockNode :=
  match h with Some h => put_peers (update_peer_height (sc_peer q) h (bn_peers s)) s | None => s end.
Definition handle_pong (now : Clock) (nonce : Z) (h : option Z) q s : BlockNode :=
  let s := note_height h q s in put_peers (record_pong_received (c_instant now) (sc_peer q) nonce (bn_peers s)) s.
Definition handle_block_msg (now : Clock) (m : block_msg) (x : SyncConn * BlockNode)
    : (SyncConn * BlockNode) * result block_msg_error (option block_msg) :=
  let '(q, s) := x in
  let only (r : option block_msg) := ((q, s), Ok r) in
  let quiet s := ((q, s), Ok None) in
  let lift (y : BlockNode * option block_msg) := ((q, y.1), Ok y.2) in
  match m with
  | MGetBlocks start end_ => let '(q, r) := handle_get_blocks now start end_ q s in ((q, s), Ok r)
  | MGetBlockHeight => only (Some (MBlockHeightResponse (bn_height s)))
  | MGetChainTip => only (Some (MChainTipResponse (bn_height s) (tip_hash (bn_chain s))))
  | MGetBlockRange start end_ => only (handle_get_block_range start end_ s)
  | MGetBlockHash h => only (Some (MBlockHashResponse h (get_block_hash (bn_chain s) h)))
  | MBlockRequest h => only (handle_block_request h s)
  | MBlockInventory h => lift (handle_block_inventory now h q s)
  | MBlockResponse b | MBlockAnnouncement b => quiet (handle_block_response now b q s)
  | MGetGenesisHash => only (Some (MGenesisHashResponse (genesis_hash (bn_chain s))))
  | MGenesisHashResponse g => let '(s, r) := handle_genesis_hash_response now g q s in ((q, s), r)
  | MRequestGenesis => only (handle_request_genesis s)
  | MGenesisAnnouncement b => quiet (handle_genesis_announcement now b q s)
  | MGetChainWork => only (handle_get_chain_work s)
  | MGetChainWorkAt h => only (handle_get_chain_work_at h s)
  | MConsensusQuery h _ => only (Some (MConsensusQueryResponse true h zero_hash))
  | MForkAlert yh yg h g _ => lift (handle_fork_alert now yh yg h g q s)
  | MChainTipResponse h g => lift (handle_chain_tip_response now h g q s)
  | MBlocksResponse bs | MBlockRangeResponse bs => let '(s, r) := handle_blocks_response now bs q s in ((q, s), r)
  | MPing nonce h => ((q, note_height h q s), Ok (Some (MPong nonce (Some (bn_height s)))))
  | MPong nonce h => quiet (handle_pong now nonce h q s)
  | MBlockHeightResponse _ | MBlockHashResponse _ _ | MConsensusQueryResponse _ _ _ | MChainWorkResponse _ _ _
  | MChainWorkAtResponse _ _ _ => only None
  end.

(** Messages that are not put off during the initial sync. *)
Definition sync_essential (m : block_msg) : bool :=
  match m with
  | MConsensusQuery _ _ | MConsensusQueryResponse _ _ _ | MGetChainWork | MChainWorkResponse _ _ _
  | MGetChainWorkAt _ | MChainWorkAtResponse _ _ _ => false
  | _ => true
  end.
(** A message of a banned peer is refused before it is looked at. *)
Definition sender_gate (now : Clock) (peer : string) s : BlockNode * option ban_verdict :=
  match bn_bans s, parse_ip peer with
  | Some bl, Some ip => let '(bl, v) := is_banned (c_instant now) ip bl in (put_bans (Some bl) s, v)
  | _, _ => (s, None)
  end.
Definition handle_block_message (now : Clock) (m : block_msg) (x : SyncConn * BlockNode)
    : (SyncConn * BlockNode) * result block_msg_error (option block_msg) :=
  match sender_gate now (sc_peer x.1) x.2 with
  | (s, Some v) => ((x.1, s), Err (SenderBanned v))
  | (s, None) => if is_syncing (bn_chain s) && negb (sync_essential m) then ((x.1, s), Ok None) else handle_block_msg now m (x.1, s)
  end.
End handlers.
