(* ===== verification/BlockMessageProofs.v ===== *)
(** * Block messages keep the chain (proofs over [BlockMessages])

    What peers are served, that no history of block messages breaks the chain or replaces
    its genesis block, and how often a peer is asked. *)

From Stdlib Require Import ZArith Lia Ascii String.
From stdpp Require Import base gmap strings list.
From S2P Require Import Prelude Types Instances Address Storage UtxoManager TransactionPool BlockVotes.
From S2P Require Import Lru BlockTypes BlockVrf BlockCache BlockLedger Governance Registry Reward Utf8 Genesis TxValidation Consensus.
From S2P Require Import Chain ChainApply ChainProofs ForkChoice Reorg ReorgProofs BanList NetGuards IpText BlockRound PeerBook BlockMessages.

(** ** What is served *)

Section serving.
Context `{BlockExternals}.

Lemma sumZ_take l k : Forall (Z.le 0) l → sumZ (take k l) ≤ sumZ l.
Proof.
  intros Hl. assert (0 ≤ sumZ (drop k l)) as Hd.
  { induction (Forall_drop _ k _ Hl); unfold sumZ in *; cbn; lia. }
  rewrite <- (take_drop k l) at 2. rewrite sumZ_app. lia.
Qed.
Lemma batch_fits_take bs k : batch_fits bs = true → batch_fits (take k bs) = true.
Proof.
  unfold batch_fits, batch_size. rewrite !Z.leb_le. destruct (mapM block_bincode bs) as [ds|] eqn:E; [|intros Hs; exfalso; unfold U64, MAX_FRAME_SIZE in Hs; lia].
  assert (mapM block_bincode (take k bs) = Some (take k ds)) as ->.
  { apply mapM_Some_2. apply mapM_Some_1 in E. by apply Forall2_take. }
  rewrite fmap_take. intros Hs. etrans; [|exact Hs]. apply Z.add_le_mono_l, sumZ_take, Forall_fmap, Forall_true. intros x. cbn. lia.
Qed.
Lemma trim_search_spec fuel bs lo hi : (1 ≤ lo)%nat → (hi < lo + fuel)%nat → (lo ≤ hi + 1)%nat →
  (lo = 1%nat ∨ batch_fits (take (lo - 1) bs) = true) → (∀ j, (hi < j ≤ length bs)%nat → batch_fits (take j bs) = false) →
  let k := trim_search fuel bs lo hi (lo - 1) in
  (k = 0%nat ∨ batch_fits (take k bs) = true) ∧ ∀ j, (k < j ≤ length bs)%nat → batch_fits (take j bs) = false.
Proof.
  revert lo hi. induction fuel as [|fuel IH]; intros lo hi Hlo Hfuel Hle Hfit Hno; cbn [trim_search]; cbv zeta.
  - assert (lo = hi + 1)%nat as -> by lia. replace (hi + 1 - 1)%nat with hi in * by lia. split; [|done]. destruct Hfit; [left; lia|by right].
  - destruct (Nat.ltb_spec hi lo).
    + assert (lo = hi + 1)%nat as -> by lia. replace (hi + 1 - 1)%nat with hi in * by lia. split; [|done]. destruct Hfit; [left; lia|by right].
    + set (mid := ((lo + hi) / 2)%nat). assert (lo ≤ mid ≤ hi)%nat as Hmid.
      { split; [apply Nat.div_le_lower_bound; lia|apply Nat.Div0.div_le_upper_bound; lia]. }
      destruct (batch_fits (take mid bs)) eqn:Em.
      * pose proof (IH (mid + 1)%nat hi) as HI. replace (mid + 1 - 1)%nat with mid in HI by lia. apply HI; auto; lia.
      * rewrite (proj2 (Nat.eqb_neq mid 0)) by lia. apply IH; auto; [lia..|]. intros j Hj.
        destruct (batch_fits (take j bs)) eqn:Ej; [|done]. apply (batch_fits_take _ mid) in Ej. rewrite take_take in Ej.
        replace (mid `min` j)%nat with mid in Ej by lia. congruence.
Qed.
(** The binary search that cuts an answer to the frame limit finds the best cut: what is
    left is a prefix of the blocks, it fits into the frame unless it is empty, and no longer
    prefix fits. *)
Theorem trim_longest bs :
  trim_blocks_to_frame_limit bs `prefix_of` bs
  ∧ (trim_blocks_to_frame_limit bs = [] ∨ batch_fits (trim_blocks_to_frame_limit bs) = true)
  ∧ ∀ p, p `prefix_of` bs → batch_fits p = true → (length p ≤ length (trim_blocks_to_frame_limit bs))%nat.
Proof.
  unfold trim_blocks_to_frame_limit. destruct bs as [|b bs]; [split; [done|]; split; [by left|]; by intros p ->%prefix_nil_inv|].
  set (l := b :: bs). destruct (batch_fits l) eqn:E; [split; [done|]; split; [by right|]; intros p Hp _; by apply prefix_length|].
  destruct (trim_search_spec (Datatypes.S (length l)) l 1 (length l)) as [Hk Hno]; [lia..|by left|intros; lia|]. change (1 - 1)%nat with 0%nat in *.
  set (k := trim_search _ l 1 (length l) 0) in *. clearbody k. split; [by apply prefix_take|]. split; [destruct Hk as [->|]; [by left|by right]|].
  intros p Hp Hfit. rewrite length_take. destruct (decide (length p ≤ k)%nat); [apply prefix_length in Hp; lia|]. exfalso.
  assert (take (length p) l = p) as Et by (destruct Hp as [q ->]; by rewrite take_app_length).
  specialize (Hno (length p)). rewrite Et, Hfit in Hno. apply prefix_length in Hp. assert (true = false) by (apply Hno; lia). done.
Qed.
End serving.

Section chain_messages.
Context {S : Type} `{UtxoStorage S} `{MapIter} `{Externals} `{BlockExternals} `{!BlockCodec} `{LegacyCodec} `{Zstd} `{LruCrate}.
Context `{TxExternals} `{PoolCodec} `{VrfExternals} `{GovCodec} `{!BlockCodecLaws} `{!BlockFormat}.
Implicit Types (c : Blockchain (S := S)) (n : ForkNode (S := S)) (s : BlockNode (S := S)).

Lemma read_blocks_lookup fuel c h i : chain_inv c → 0 ≤ h →
  read_blocks fuel c h !! i = if (i <? fuel)%nat then block_at c (h + Z.of_nat i) else None.
Proof.
  intros Hi. revert h i. induction fuel as [|fuel IH]; intros h i Hh; [done|]. cbn [read_blocks].
  destruct (block_at c h) as [b|] eqn:E.
  - destruct i as [|i]; cbn [lookup list_lookup]; [by rewrite Z.add_0_r|]. cbn. rewrite IH by lia.
    change (Datatypes.S i <? Datatypes.S fuel)%nat with (i <? fuel)%nat. by replace (h + 1 + Z.of_nat i) with (h + Z.of_nat (Datatypes.S i)) by lia.
  - rewrite lookup_nil. destruct (_ <? _)%nat; [|done]. destruct (block_at c (h + Z.of_nat i)) as [b|] eqn:E'; [|done].
    pose proof (proj1 (block_at_stored c _ Hi) (mk_is_Some _ _ E')). destruct (proj2 (block_at_stored c h Hi)) as [x Hx]; [lia|congruence].
Qed.
(** A request for blocks is answered by exactly the stored blocks from its start on, at
    most fifty, up to the requested end and the tip of the chain, without a gap. *)
Theorem served_exactly c start end_ i : chain_inv c → 0 ≤ start → start + MAX_BLOCKS_PER_RESPONSE ≤ U64 →
  blocks_to_serve c start end_ !! i
    = if bool_decide (Z.of_nat i < MAX_BLOCKS_PER_RESPONSE ∧ start + Z.of_nat i ≤ end_) then block_at c (start + Z.of_nat i) else None.
Proof.
  intros Hi Hs Hu. unfold blocks_to_serve. cbv zeta.
  assert (sub64 (add64 start MAX_BLOCKS_PER_RESPONSE) 1 = start + MAX_BLOCKS_PER_RESPONSE - 1) as ->.
  { unfold sub64, add64. rewrite Zminus_mod_idemp_l. apply Z.mod_small. unfold MAX_BLOCKS_PER_RESPONSE in *. lia. }
  assert (∀ h, current_height c < h → block_at c h = None) as Habove.
  { intros h Hh. destruct (block_at c h) as [b|] eqn:E; [|done]. pose proof (proj1 (block_at_stored c _ Hi) (mk_is_Some _ _ E)). lia. }
  destruct (Z.leb_spec start (current_height c)).
  - rewrite read_blocks_lookup by done. unfold MAX_BLOCKS_PER_RESPONSE in *.
    destruct (Nat.ltb_spec i (Z.to_nat (Z.min (Z.min end_ (start + 50 - 1)) (current_height c) - start + 1))).
    + rewrite bool_decide_true by lia. done.
    + case_bool_decide; [|done]. rewrite Habove by lia. done.
  - rewrite lookup_nil. case_bool_decide; [|done]. by rewrite Habove by lia.
Qed.

(** ** The genesis block stays *)

Definition net n : NetworkType := bc_network (chain n).
Lemma core_net n n' : core (chain n') = core (chain n) → net n' = net n.
Proof. intros E. unfold net. by injection E as _ _ _ _ _ -> _. Qed.
Lemma add_block_net now c b : bc_network (add_block now c b).1 = bc_network c.
Proof.
  unfold add_block. destruct (sanitized b) as [b'|]; [|done]. destruct (check_new_block now c b'); [|done]. cbv zeta.
  destruct (block_at c _); [by destruct (_ <? _)|]. unfold commit_block. cbv zeta.
  pose proof (apply_state_core now c b') as E. injection E as _ _ _ _ _ E _.
  assert (∀ (x : Blockchain (S := S)) y, bc_network (save_block x y false).1 = bc_network x) as Hsave.
  { intros x y. unfold save_block. by destruct (block_bincode y). }
  specialize (Hsave (apply_state now c b') (trim_leader b')). rewrite E in Hsave.
  destruct (save_block _ _ _) as [c1 [?|]]; cbn [fst] in Hsave; [|done].
  assert (∀ y, bc_network (advance_chain now c1 y) = bc_network c1) as Hadv by (intros y; by destruct (advance_fields now c1 y) as (_ & _ & _ & _ & _ & ?)).
  destruct (is_syncing c1); [cbn [fst]; by rewrite Hadv|]. destruct (get_block_from_storage_only _ _); [|done].
  destruct (bool_decide _); cbn [fst]; [by rewrite Hadv|done].
Qed.
Lemma rollback_net now c t : bc_network (rollback_to_height now c t).1 = bc_network c.
Proof.
  unfold rollback_to_height, rollback_to_height_impl. destruct (_ <=? _); [done|].
  destruct (match find_last_checkpoint_before c _ with Some _ => _ | None => _ end); [done|]. destruct (_ && _); [done|]. cbv zeta.
  pose proof (undo_blocks_core (heights_down t (current_height c)) (c, [])) as E. destruct (foldl undo_block _ _) as [c1 txs]. cbn [fst] in *.
  set (c2 := foldl undo_special _ _). assert (core c2 = core c) as E2.
  { unfold c2. rewrite foldl_core by apply undo_special_core. by rewrite foldl_core. }
  clearbody c2. injection E2 as _ _ _ _ _ E2 _. cbn. rewrite <- E2. generalize (heights_down t (current_height c)). clear.
  intros l. revert c2. induction l as [|h l IH]; intros c2; [done|]. cbn [foldl]. rewrite IH. unfold remove_block. by repeat case_match.
Qed.
Lemma alternate_net now bs c : bc_network (apply_alternate now c bs).1 = bc_network c.
Proof.
  revert c. induction bs as [|b bs IH]; intros c; [done|]. cbn [apply_alternate]. cbv zeta.
  destruct (if 0 <? _ then _ else _); [|done]. pose proof (add_block_net now c b) as E. destruct (add_block now c b) as [c1 [?|]]; [|done].
  cbn [fst] in E. destruct (get_block_hash c1 _); [|done]. destruct (bool_decide _); [by rewrite IH|done].
Qed.
Lemma reorg_net now inst n a bs : net (perform_reorg now inst n a bs).1 = net n.
Proof.
  unfold perform_reorg, net. cbv zeta. destruct (reorg_checks _ _ _ _); [|done].
  pose proof (rollback_net now (chain (set_chain (set_confirmed a (chain (set_fork_state (Reorging (current_height (chain n)) (add64 a (Z.of_nat (length bs))) inst) n)))
    (set_fork_state (Reorging (current_height (chain n)) (add64 a (Z.of_nat (length bs))) inst) n))) a) as E.
  destruct (rollback_to_height _ _ _) as [c1 [?|]]; [|done]. cbn [fst] in E. pose proof (alternate_net now bs c1) as E'.
  destruct (apply_alternate now c1 bs) as [c2 [?|]]; cbn in *; congruence.
Qed.
Lemma reorg_to_net now inst v n peer a tip t bs : net (reorg_to now inst v n peer a tip t bs).1 = net n.
Proof.
  unfold reorg_to. assert (net (pass_finality_lock now inst v n a tip t).1 = net n) as E.
  { unfold pass_finality_lock. destruct (negb _); [done|]. by destruct (lock_override _ _ _ _ _ _). }
  destruct (pass_finality_lock _ _ _ _ _ _ _) as [n1 [|]]; [|done]. cbn [fst] in E. cbv zeta.
  match goal with |- context [perform_reorg now inst ?x a bs] => pose proof (reorg_net now inst x a bs) as E'; destruct (perform_reorg now inst x a bs) as [n2 [?|e]] end;
    cbn [fst] in *; [unfold net in *; cbn in *; congruence|]. destruct (predates e); unfold net in *; cbn in *; congruence.
Qed.
Lemma adopt_net now inst v n peer fh a tip t bs : net (adopt_chain now inst v n peer fh a tip t bs).1 = net n.
Proof.
  assert (∀ n p x y, net (request_blocks v n p x y).1 = net n) as Hreq by (intros; unfold request_blocks; by destruct (_ && _)).
  unfold adopt_chain, check_and_reorg. cbv zeta. destruct (filter _ bs) as [|b l]; [destruct (_ <=? _); [by rewrite Hreq|done]|].
  destruct (negb _); [by rewrite Hreq|]. destruct (_ <? _); [by rewrite Hreq|].
  destruct (get_block_hash _ _) as [g|]; [|done]. destruct (sort_by _ _) as [|f r]; [done|].
  destruct (negb _); [by destruct (a =? 0)|]. destruct (list_find _ _) as [[]|]; [done|]. destruct (_ <? _); [done|].
  destruct (contiguous _); [by rewrite reorg_to_net|done].
Qed.
Lemma handle_fork_net now inst v n bs peer : net (handle_fork now inst v n bs peer).1 = net n.
Proof.
  assert (∀ n p x y, net (request_blocks v n p x y).1 = net n) as Hreq by (intros; unfold request_blocks; by destruct (_ && _)).
  unfold handle_fork. destruct bs as [|b0 bs]; [done|]. destruct (negb _); [done|]. cbv zeta. destruct (collect_blocks _ _ _ _) as [all tip].
  destruct (_ && _ && _).
  { unfold fetch_older. destruct (match fork_state n with FetchingChain _ _ _ _ _ _ _ => _ | _ => _ end) as [[] ?]; [done|].
    cbv zeta. destruct (_ <? _); [done|]. by rewrite Hreq. }
  destruct (find_common_ancestor _ _ _) as [a|]; [|by rewrite Hreq]. unfold resolve_with. destruct (highest_block all); [|done]. cbv zeta.
  destruct (get_block_hash _ _); [|done].
  set (g := if _ && _ then genesis_check now v n peer all else _).
  assert (net g.1 = net n) as Eg.
  { unfold g. destruct (_ && _); [|done]. unfold genesis_check. destruct (block_of_height all 0); [|done]. destruct (bool_decide _); [done|].
    by destruct (has_registry v). }
  destruct g as [n1 ok]. cbn [fst] in Eg. destruct (negb ok); [done|]. destruct (is_err _); [done|]. destruct (decide_fork _ _ _ _ _ _ _ _ _); [|done].
  by rewrite adopt_net.
Qed.

Lemma incoming_low now fp n b : plain b → node_inv n → let n' := (add_block_with_fork_handling now fp n b).1 in
  block_at (chain n') 0 = block_at (chain n) 0 ∧ net n' = net n.
Proof.
  intros Hb [Hi Hr]. pose proof (ci_height _ Hi) as Hh. cbv zeta. unfold add_block_with_fork_handling. cbv zeta.
  destruct (block_bincode b); [|done]. destruct (fork_state n); try done.
  all: destruct (Z.eqb_spec (bh_height (header b)) 0) as [E0|N0];
    [unfold add_genesis; destruct (proj2 (block_at_stored (chain n) 0 Hi)) as [g Hg]; [lia|];
     destruct (proj2 (ci_complete _ Hi 0)) as [d ->]; [lia|]; by rewrite Hg|].
  all: destruct (negb _); [done|].
  all: destruct (_ =? _) eqn:En;
    [unfold append_block; destruct (get_block_hash _ _); [|done]; destruct (negb _); [done|]; destruct (validate_block _ _ _ _ _); [|done];
     pose proof (add_block_low now (chain n) b 0 Hb Hi ltac:(lia)) as El; pose proof (add_block_net now (chain n) b) as Eb;
     destruct (add_block now (chain n) b) as [c' [?|]]; by split|].
  all: destruct (Z.leb_spec (bh_height (header b)) (current_height (chain n))) as [Hle|]; [|done].
  all: unfold add_known_height; destruct (block_at (chain n) (bh_height (header b))) as [e|] eqn:Ee; [by destruct fp|].
  all: destruct (block_at_stored (chain n) (bh_height (header b)) Hi) as [_ Hs];
    assert (bh_height (header b) < 0) as Hneg by (destruct (decide (bh_height (header b) < 0)); [done|]; destruct Hs; [lia|congruence]).
  all: unfold fill_gap; cbv zeta; destruct (block_at (chain n) (bh_height (header b) - 1)) eqn:Ep;
    [pose proof (proj1 (block_at_stored _ _ Hi) (mk_is_Some _ _ Ep)); lia|].
  all: by destruct fp.
Qed.

(** ** Any history of messages *)

Definition plain_task (t : block_task) : Prop := match t with ForkTask bs _ => Forall plain bs | GenesisTask _ _ => True end.
Record sync_inv (g : Block) s : Prop := mkSyncInv {
  si_node : node_inv (bn_node s);
  si_genesis : block_at (bn_chain s) 0 = Some g;
  si_checkpoint : verify_checkpoint g (net (bn_node s)) = Ok tt;
  si_pending : ∀ h b, bn_pending s !! h = Some b → plain b;
  si_room : (size (bn_pending s) ≤ MAX_PENDING_BLOCKS)%nat;
  si_tasks : Forall plain_task (bn_tasks s);
}.
(** What leaves the chain, the buffer and the tasks alone. *)
Record quiet s s' : Prop := mkQuiet {
  qt_core : core (bn_chain s') = core (bn_chain s);
  qt_state : fork_state (bn_node s') = fork_state (bn_node s);
  qt_pending : bn_pending s' = bn_pending s;
  qt_tasks : bn_tasks s' = bn_tasks s;
}.
#[export] Instance quiet_refl : Reflexive quiet.
Proof. by intros s. Qed.
#[export] Instance quiet_trans : Transitive quiet.
Proof. intros s1 s2 s3 [A1 A2 A3 A4] [B1 B2 B3 B4]. split; congruence. Qed.
Lemma calm_inv g s s' : sync_inv g s → quiet s s' → sync_inv g s'.
Proof.
  intros [[I1 I1'] I2 I3 I4 I5 I6] [Q1 Q2 Q3 Q4]. unfold bn_chain in *. split.
  - split; [by eapply chain_inv_core|by rewrite Q2].
  - unfold bn_chain. by rewrite (core_block_at _ _ Q1).
  - by rewrite (core_net _ _ Q1).
  - by rewrite Q3.
  - by rewrite Q3.
  - by rewrite Q4.
Qed.
Lemma spawn_inv g s t : sync_inv g s → plain_task t → sync_inv g (spawn t s).
Proof. intros [I1 I2 I3 I4 I5 I6] Ht. split; try done. cbn. apply Forall_app. by split; [|constructor]. Qed.

Lemma suspend_quiet now p s : quiet s (suspend_peer_from_consensus now p s).
Proof. done. Qed.
Lemma exclude_quiet now p s : quiet s (exclude_peer now p s).
Proof. done. Qed.
Lemma exclude_genesis_quiet now p s : quiet s (exclude_genesis now p s).
Proof. done. Qed.
Lemma ban_quiet now p r s : quiet s (permanent_ban_ip now p r s).
Proof. unfold permanent_ban_ip. by repeat case_match. Qed.
Lemma send_calm p m s : quiet s (send_to p m s).
Proof. unfold send_to. by case_bool_decide. Qed.
Lemma claim_quiet now p s : quiet s (claim_fork_request now p s).1.
Proof. unfold claim_fork_request. by case_match. Qed.

Lemma incoming_inv g now b s : sync_inv g s → plain b → sync_inv g (incoming now b s).1.
Proof.
  intros [I1 I2 I3 I4 I5 I6] Hb. unfold incoming. pose proof (add_incoming_inv (c_unix now) (first_connected s) (bn_node s) b Hb I1) as Hn.
  destruct (incoming_low (c_unix now) (first_connected s) (bn_node s) b Hb I1) as [El En].
  destruct (add_block_with_fork_handling _ _ _ _) as [n' r]. cbn [fst] in *. split; try done.
  - unfold bn_chain in *. cbn. by rewrite El.
  - cbn. by rewrite En.
Qed.
Lemma block_response_inv g now b q s : sync_inv g s → plain b → sync_inv g (handle_block_response now b q s).
Proof.
  intros Hs Hb. unfold handle_block_response. cbv zeta. destruct (should_drop_ibd_block _ _ _); [done|].
  assert (quiet s (seen_before now (bh_height (header b)) s).1) as Hq.
  { unfold seen_before. destruct (bn_seen s); [|done]. by destruct (check_and_insert _ _ _). }
  destruct (seen_before _ _ _) as [s1 []]; [by eapply calm_inv|]. cbn [fst] in Hq. apply (calm_inv _ _ s1) in Hs; [|done].
  pose proof (incoming_inv g now b s1 Hs Hb) as Hi. destruct (incoming now b s1) as [s2 [[]|e]]; cbn [fst] in Hi.
  - by eapply calm_inv.
  - destruct (_ <? _); [|done]. eapply calm_inv; [exact Hi|apply send_calm].
  - destruct (verdict e); try done; try (eapply calm_inv; [exact Hi|apply exclude_quiet]).
    pose proof (claim_quiet now (sc_peer q) s2) as Hc. destruct (claim_fork_request _ _ _) as [s3 []]; cbn [fst] in Hc.
    + eapply calm_inv; [exact Hi|]. etrans; [exact Hc|apply send_calm].
    + by eapply calm_inv.
Qed.

Lemma buffer_inv g b s : sync_inv g s → plain b → sync_inv g (buffer_sync_block b s).1.
Proof.
  intros Hs Hb. unfold buffer_sync_block. cbv zeta. destruct (Nat.leb_spec MAX_PENDING_BLOCKS (size (bn_pending s))); [done|].
  case_bool_decide as E; [done|]. destruct Hs as [I1 I2 I3 I4 I5 I6]. split; try done; cbn [fst put_pending bn_pending].
  - intros h x Hx. apply lookup_insert_Some in Hx as [[_ <-]|[_ Hx]]; eauto.
  - rewrite map_size_insert_None; [lia|]. by apply eq_None_not_Some.
Qed.
Lemma drain_inv g now fuel s k : sync_inv g s → sync_inv g (drain_loop fuel now s k).1.
Proof.
  revert s k. induction fuel as [|fuel IH]; intros s k Hs; [done|]. cbn [drain_loop]. cbv zeta.
  destruct (bn_pending s !! add64 (bn_height s) 1) as [b|] eqn:E; [|done]. pose proof (si_pending _ _ Hs _ _ E) as Hb.
  set (s0 := put_pending _ s). assert (sync_inv g s0) as Hs0.
  { destruct Hs as [I1 I2 I3 I4 I5 I6]. split; try done; cbn [s0 put_pending bn_pending].
    - intros h x Hx. apply lookup_delete_Some in Hx as [_ Hx]. eauto.
    - rewrite map_size_delete_Some by by eexists. unfold MAX_PENDING_BLOCKS in *. lia. }
  pose proof (incoming_inv g now b s0 Hs0 Hb) as Hi. destruct (incoming now b s0) as [s1 [[]|]]; cbn [fst] in *; [by apply IH|done|done].
Qed.
Lemma engage_inv g bs p s : sync_inv g s → Forall plain bs → sync_inv g (engage_fork bs p s).
Proof.
  intros Hs Hb. unfold engage_fork. cbv zeta. set (s1 := put_peers _ s). assert (sync_inv g s1) as Hs1 by by eapply calm_inv.
  destruct (is_genesis_confirmed _ _); [by apply spawn_inv|]. destruct (peer_whitelisted _ _); [|done].
  apply spawn_inv; [|done]. by eapply calm_inv.
Qed.
Lemma absorb_inv g now all b q s a : sync_inv g s → Forall plain all → plain b → sync_inv g (absorb_block now all b q s a).1.1.
Proof.
  intros Hs Ha Hb. unfold absorb_block. cbv zeta. destruct (_ && _); [done|]. destruct (_ <? _).
  { pose proof (buffer_inv g b s Hs Hb) as Hi. by destruct (buffer_sync_block b s). }
  pose proof (incoming_inv g now b s Hs Hb) as Hi. destruct (incoming now b s) as [s1 [[]|e]]; cbn [fst] in Hi.
  - cbn [fst]. eapply calm_inv; [exact Hi|]. unfold welcome_peer. by destruct (added a =? 0).
  - done.
  - destruct (verdict e) as [b'| | | | |]; try done.
    + destruct (_ && _); [done|]. by apply engage_inv.
    + destruct (_ && _); [done|]. by apply engage_inv.
    + eapply calm_inv; [exact Hi|apply exclude_quiet].
    + cbn. case_bool_decide; [eapply calm_inv; [exact Hi|apply exclude_quiet]|done].
    + eapply calm_inv; [exact Hi|apply exclude_quiet].
Qed.
Lemma absorb_all_inv g now all bs q s a : sync_inv g s → Forall plain all → Forall plain bs →
  sync_inv g (absorb_blocks now all bs q s a).1.1.
Proof.
  intros Hs Ha Hb. revert s a Hs. induction Hb as [|b bs Hb Hbs IH]; intros s a Hs; [done|]. cbn [absorb_blocks].
  pose proof (absorb_inv g now all b q s a Hs Ha Hb) as Hi. destruct (absorb_block _ _ _ _ _ _) as [[s1 a1] []]; cbn in *; auto.
Qed.
Lemma batch_inv g now bs q s : sync_inv g s → Forall plain bs → sync_inv g (handle_blocks_response now bs q s).1.
Proof.
  intros Hs Hb. unfold handle_blocks_response. cbv zeta. case_bool_decide; [done|]. destruct (should_drop_ibd_block _ _ _); [done|].
  destruct (fetches_from _ _); [by apply spawn_inv|]. pose proof (absorb_all_inv g now bs bs q s (mkBatch 0 0 0 false) Hs Hb Hb) as Hi.
  destruct (absorb_blocks _ _ _ _ _ _) as [[s1 a1] [r|]]; cbn [fst] in *; [done|].
  set (s2 := if _ || _ then _ else s1). assert (sync_inv g s2) as Hs2.
  { unfold s2. destruct (_ || _); [|done]. apply drain_inv. done. }
  clearbody s2. destruct (fork_detected a1); [|done]. eapply calm_inv; [exact Hs2|]. unfold record_rejected_cycle.
  destruct (is_genesis_confirmed _ _); [done|]. cbv zeta. by destruct (default _ _) as [[? ?] ?].
Qed.

Lemma tip_response_inv g now h t q s : sync_inv g s → sync_inv g (handle_chain_tip_response now h t q s).1.
Proof.
  intros Hs. unfold handle_chain_tip_response. cbv zeta. set (s1 := put_peers _ s). assert (sync_inv g s1) as Hs1 by by eapply calm_inv.
  clearbody s1. clear Hs s. set (s2 := start_genesis_check now (sc_peer q) s1). assert (sync_inv g s2) as Hs2.
  { unfold s2, start_genesis_check. destruct (is_genesis_confirmed _ _); [done|]. destruct (is_incompatible _ _ _) as [p1 []]; [by eapply calm_inv|].
    cbv zeta. destruct (claim_genesis_check _ _ _) as [p2 []]; [|by eapply calm_inv]. apply spawn_inv; [by eapply calm_inv|done]. }
  clearbody s2. clear Hs1 s1. eapply calm_inv; [exact Hs2|]. destruct (_ =? _).
  - destruct (bool_decide _); [done|]. unfold handle_fork_tip. cbv zeta.
    assert (quiet s2 (note_fork now h (sc_peer q) s2)) as Hq by (unfold note_fork; by case_match).
    set (s3 := note_fork _ _ _ s2) in *. clearbody s3. etrans; [exact Hq|].
    destruct (get_compatible_peers _ _) as [p peers]. destruct (count_sides _ _ _ _ _) as [us them].
    destruct (_ && _); [done|]. destruct (_ =? _); [done|]. destruct (negb _); [done|]. destruct (_ <? _); [done|].
    pose proof (claim_quiet now (sc_peer q) (put_peers p s3)) as Hc. destruct (claim_fork_request _ _ _) as [s4 ok].
    by etrans; [|exact Hc].
  - destruct (_ <? _); [unfold handle_tip_ahead; cbv zeta; by case_match|]. unfold handle_tip_behind. cbv zeta.
    set (r := if 2 <=? _ then send_sync_alert now h t q s2 else (s2, None)). assert (quiet s2 r.1) as Hq.
    { unfold r. destruct (_ <=? _); [|done]. unfold send_sync_alert. cbv zeta. destruct (alert_due _ _ _ _) as [due count].
      destruct (_ && _); [|done]. destruct (get_compatible_peers _ _) as [p peers]. by destruct (_ && _). }
    destruct r as [s3 [m|]]; [done|]. cbn [fst] in Hq. destruct (_ <=? _); [|by etrans; [exact Hq|]]. by destruct (_ <=? _); (etrans; [exact Hq|]).
Qed.
Lemma alert_inv g now yh yg h t q s : sync_inv g s → sync_inv g (handle_fork_alert now yh yg h t q s).1.
Proof.
  intros Hs. eapply calm_inv; [exact Hs|]. unfold handle_fork_alert. cbv zeta. destruct (_ || _); [done|]. destruct (_ && _); [done|].
  assert (quiet s (admit_alert now (sc_peer q) s).1) as Hq.
  { unfold admit_alert. cbv zeta. destruct (default _ _) as [[? ?] ?]. destruct (_ <=? _); [by repeat case_match|]. by destruct (_ <? _). }
  destruct (admit_alert _ _ _) as [s1 []]; cbn [fst] in *; by etrans.
Qed.

(** A candidate that passes the checkpoint has the hash of the stored genesis block. *)
Section replacing.
Hypothesis hex_inj : ∀ x y, hex_encode x = hex_encode y → x = y.
Theorem replace_nothing c b g : block_at c 0 = Some g → verify_checkpoint g (bc_network c) = Ok tt → (replace_genesis_if_lower c b).1 = c.
Proof.
  intros Hg Hc. unfold replace_genesis_if_lower. destruct (0 <? _); [done|].
  destruct (check_candidate (bc_network c) b) as [[]|] eqn:Ek; [|done]. rewrite Hg.
  unfold check_candidate in Ek. rewrite !let_ok_iff in Ek. destruct Ek as (_ & _ & Ek & _).
  assert (verify_checkpoint b (bc_network c) = Ok tt) as E by (by destruct (verify_checkpoint b (bc_network c)) as [[]|]).
  assert (hash b = hash g) as ->; [|by rewrite bytes_ltb_irrefl].
  apply hex_inj. unfold verify_checkpoint in *. destruct (bc_network c); cbn [TESTNET_GENESIS_HASH MAINNET_GENESIS_HASH] in *;
    rewrite fail_ok_iff, bool_decide_eq_false in *; destruct E as [E%dec_stable _], Hc as [Hc%dec_stable _]; congruence.
Qed.

Lemma announcement_inv g now b q s : sync_inv g s → sync_inv g (handle_genesis_announcement now b q s).
Proof.
  intros Hs. unfold handle_genesis_announcement. cbv zeta. destruct (negb _); [done|]. rewrite (si_genesis _ _ Hs). destruct (0 <? _); [done|].
  pose proof (replace_nothing (bn_chain s) b g (si_genesis _ _ Hs) (si_checkpoint _ _ Hs)) as E.
  destruct (replace_genesis_if_lower _ _) as [c r]. cbn [fst] in E. subst c.
  assert (quiet s (put_chain (bn_chain s) s)) as Hq by done. eapply calm_inv; [exact Hs|]. etrans; [exact Hq|].
  destruct r as [[]|[e| |]]; try done; [by destruct (0 <? _)|by destruct (names_timestamp e)].
Qed.
Lemma genesis_hash_inv g now t q s : sync_inv g s → sync_inv g (handle_genesis_hash_response now t q s).1.
Proof.
  intros Hs. eapply calm_inv; [exact Hs|]. unfold handle_genesis_hash_response. cbv zeta. destruct (_ || _); [done|]. destruct (bool_decide _); [done|].
  destruct (_ =? _); [done|]. cbn [fst]. etrans; [apply (exclude_genesis_quiet now (sc_peer q))|apply ban_quiet].
Qed.
Lemma fork_task_inv g now v bs p s : sync_inv g s → Forall plain bs → sync_inv g (run_fork_task now v bs p s).
Proof.
  intros Hs Hb. unfold run_fork_task. pose proof (handle_fork_net (c_unix now) (c_instant now) v (bn_node s) bs p) as En.
  destruct (handle_fork_kept 0 (c_unix now) (c_instant now) v (bn_node s) bs p) as [K1 K2 K3];
    [apply (si_node _ _ Hs)|apply (si_node _ _ Hs)|done|intros a top Ha _; split; [lia|done]|].
  destruct (handle_fork _ _ _ _ _ _) as [n r]. cbn [fst] in *. cbv zeta.
  assert (sync_inv g (put_node n s)) as Hs1.
  { destruct Hs as [I1 I2 I3 I4 I5 I6]. split; try done; [unfold bn_chain in *; cbn; by rewrite K2|cbn; by rewrite En]. }
  destruct r as [|e]; [done|]. destruct (_ && _); [|done]. eapply calm_inv; [exact Hs1|].
  set (s2 := match bn_bans _ with Some _ => _ | None => _ end). assert (quiet (put_node n s) s2) as Hq by (unfold s2; by repeat case_match).
  etrans; [exact Hq|apply exclude_quiet].
Qed.
Lemma task_inv g now v a i s : sync_inv g s → sync_inv g (run_task now v a i s).
Proof.
  intros Hs. unfold run_task. destruct (bn_tasks s !! i) as [t|] eqn:E; [|done]. cbv zeta.
  assert (plain_task t) as Ht by by eapply Forall_lookup_1; [apply Hs|].
  assert (sync_inv g (put_tasks (delete i (bn_tasks s)) s)) as Hs1.
  { destruct Hs as [I1 I2 I3 I4 I5 I6]. split; try done. cbn. by apply Forall_delete. }
  destruct t as [bs p|p ours]; [by apply fork_task_inv|by eapply calm_inv].
Qed.

Definition plain_msg (m : block_msg) : Prop :=
  match m with
  | MBlocksResponse bs | MBlockRangeResponse bs => Forall plain bs
  | MBlockResponse b | MBlockAnnouncement b => plain b
  | _ => True
  end.
Lemma message_inv g now m q s : sync_inv g s → plain_msg m → sync_inv g (handle_block_msg now m (q, s)).1.2.
Proof.
  intros Hs Hm. unfold handle_block_msg. cbv zeta. destruct m; try exact Hs; cbn [fst snd].
  - by destruct (handle_get_blocks _ _ _ _ _).
  - pose proof (batch_inv g now bs q s Hs Hm) as Hi. by destruct (handle_blocks_response _ _ _ _).
  - by apply tip_response_inv.
  - pose proof (batch_inv g now bs q s Hs Hm) as Hi. by destruct (handle_blocks_response _ _ _ _).
  - eapply calm_inv; [exact Hs|]. unfold handle_block_inventory. by destruct (_ <? _).
  - by apply block_response_inv.
  - by apply block_response_inv.
  - pose proof (genesis_hash_inv g now hash q s Hs) as Hi. by destruct (handle_genesis_hash_response _ _ _ _).
  - by apply announcement_inv.
  - by apply alert_inv.
  - eapply calm_inv; [exact Hs|]. by destruct height.
  - eapply calm_inv; [exact Hs|]. unfold handle_pong. by destruct height.
Qed.

Lemma gated_inv g now m q s : sync_inv g s → plain_msg m → sync_inv g (handle_block_message now m (q, s)).1.2.
Proof.
  intros Hs Hm. unfold handle_block_message. cbn [fst snd].
  assert (sync_inv g (sender_gate now (sc_peer q) s).1) as Hi.
  { unfold sender_gate. destruct (bn_bans s) as [bl|], (parse_ip (sc_peer q)) as [ip|]; try exact Hs.
    destruct (is_banned _ _ _). eapply calm_inv; [exact Hs|done]. }
  destruct (sender_gate now (sc_peer q) s) as [s1 [v|]]; [exact Hi|]. destruct (_ && _); [exact Hi|by apply message_inv].
Qed.

(** Messages on any connection, tasks that were started, and other tasks that change the
    chain by its own operations, empty the buffer or touch neither. *)
Inductive block_event :=
| EvBlockMsg (now : Clock) (q : SyncConn) (m : block_msg)
| EvTask (now : Clock) (v : PeerView) (a : genesis_answer) (i : nat)
| EvAddBlock (now : Z) (b : Block)
| EvClearPending
| EvElse (f : BlockNode (S := S) → BlockNode (S := S)).
Definition block_exec s (e : block_event) : BlockNode :=
  match e with
  | EvBlockMsg now q m => (handle_block_message now m (q, s)).1.2
  | EvTask now v a i => run_task now v a i s
  | EvAddBlock now b => put_chain (add_block now (bn_chain s) b).1 s
  | EvClearPending => clear_pending_blocks s
  | EvElse f => f s
  end.
Definition event_ok (e : block_event) : Prop :=
  match e with
  | EvBlockMsg _ _ m => plain_msg m
  | EvTask _ _ _ _ | EvClearPending => True
  | EvAddBlock _ b => plain b
  | EvElse f => ∀ s, quiet s (f s)
  end.
Lemma block_exec_inv g s e : sync_inv g s → event_ok e → sync_inv g (block_exec s e).
Proof.
  intros Hs He. destruct e as [now q m|now v a i|now b| |f]; cbn [block_exec].
  - by apply gated_inv.
  - by apply task_inv.
  - destruct He as [Hv Hu]. destruct Hs as [[I1 I1'] I2 I3 I4 I5 I6]. pose proof (add_block_inv now _ b Hv Hu I1) as Hi. split; try done.
    + unfold bn_chain in *. cbn. rewrite add_block_low; [done|done|done|apply (ci_height _ I1)].
    + unfold net, bn_chain. cbn. by rewrite add_block_net.
  - destruct Hs as [I1 I2 I3 I4 I5 I6]. split; try done. cbn. rewrite map_size_empty. lia.
  - eapply calm_inv; [exact Hs|apply He].
Qed.
(** Whatever peers send: after any history of the messages about blocks from any peers, of
    the tasks that they start, of blocks that the node adds itself and of everything else
    that leaves the chain alone, in any interleaving, of blocks whose version does not spell
    the mark of compressed data and whose height fits into 64 bits, a node whose genesis
    block passes its checkpoint still has that genesis block, exactly the blocks up to its
    height, linked and readable through the cache, at most 500 blocks in the buffer, and no
    reorganization left half done.  (Hexadecimal writing is taken to be injective.) *)
Theorem block_messages_keep_chain g s es : sync_inv g s → Forall event_ok es →
  let s' := foldl block_exec s es in
  let c := bn_chain s' in
  block_at c 0 = Some g
  ∧ (∀ h, is_Some (block_at c h) ↔ 0 ≤ h ≤ current_height c)
  ∧ (∀ h b b', block_at c h = Some b → block_at c (h + 1) = Some b' → previous_hash (header b') = hash b)
  ∧ (∀ h, (get_block c h).2 = match block_at c h with Some b => Ok b | None => Err (BlockMissing h) end)
  ∧ (size (bn_pending s') ≤ MAX_PENDING_BLOCKS)%nat
  ∧ match fork_state (bn_node s') with Reorging _ _ _ | ReadyToReorg _ _ _ => False | _ => True end.
Proof.
  intros Hs He. cbv zeta. assert (sync_inv g (foldl block_exec s es)) as [[I1 I1'] I2 _ _ I5 _].
  { revert s Hs. induction He as [|e es He Hes IH]; intros s Hs; [done|]. cbn. by apply IH, block_exec_inv. }
  set (s' := foldl block_exec s es) in *. clearbody s'. split_and!; try done.
  - intros h. by apply block_at_stored.
  - apply (ci_linked _ I1).
  - intros h. pose proof (get_block_spec _ h I1) as Hg. unfold bn_chain. destruct (get_block (chain (bn_node s')) h). by destruct Hg as (_ & _ & _ & ->).
  - by destruct (fork_state (bn_node s')).
Qed.
End replacing.
End chain_messages.
