(* ===== verification/BlockSync.v ===== *)
(** * Blocks that arrive in any order

    A run of blocks that the node would append one after the other reaches the same chain
    when it arrives in batches of any size and order, from several peers, with repetitions:
    blocks ahead of the tip wait in the buffer until their turn. *)

From Stdlib Require Import ZArith Lia Ascii String.
From stdpp Require Import base gmap strings list.
From S2P Require Import Prelude Types Instances Address Storage UtxoManager TransactionPool BlockVotes.
From S2P Require Import Lru BlockTypes BlockVrf BlockCache BlockLedger Governance Registry Reward Utf8 Genesis TxValidation Consensus.
From S2P Require Import Chain ChainApply ChainProofs ForkChoice Reorg ReorgProofs BanList NetGuards IpText BlockRound PeerBook BlockMessages BlockMessageProofs.

Section sync.
Context {S : Type} `{UtxoStorage S} `{MapIter} `{Externals} `{BlockExternals} `{!BlockCodec} `{LegacyCodec} `{Zstd} `{LruCrate}.
Context `{TxExternals} `{PoolCodec} `{VrfExternals} `{GovCodec} `{!BlockCodecLaws} `{!BlockFormat}.
Implicit Types (c : Blockchain (S := S)) (n : ForkNode (S := S)) (s : BlockNode (S := S)).

(** ** Appending a block *)

Definition trimmed (b : Block) : Prop := trim_leader b = b.
Lemma add_block_stores now c b : plain b → trimmed b → is_Some (block_bincode b) → chain_inv c → (add_block now c b).2 = Ok tt →
  block_at (add_block now c b).1 (bh_height (header b)) = Some b ∧ previous_hash (header b) ≠ zero_hash.
Proof.
  intros [Hv _] Ht [d Hd] Hi Hok. pose proof (commit_block_spec now c b Hv) as Hc.
  unfold add_block, sanitized in *. rewrite Hd in *.
  destruct (check_new_block now c b) as [[]|] eqn:Ec; [|done]. destruct (checked_next now c b Hi Ec) as (Hn & prev & _ & _).
  destruct (block_at c (bh_height (header b))) eqn:Eb.
  { pose proof (proj1 (block_at_stored c _ Hi) (mk_is_Some _ _ Eb)). lia. }
  unfold trimmed in Ht. rewrite Ht, Hd in Hc. destruct Hc as [(R1 & R2 & R3) ->]. split.
  - match goal with |- block_at (advance_chain ?x ?y ?z, _).1 _ = _ => destruct (advance_fields x y z) as (F1 & _) end.
    cbn [fst]. unfold block_at. rewrite F1. cbn [block_db set_cache set_block_db]. rewrite lookup_insert_eq. cbn. rewrite R1. cbn. by rewrite R2.
  - unfold check_new_block in Ec. cbv zeta in Ec. rewrite !fail_ok_iff in Ec. destruct Ec as (_ & Ez & _).
    pose proof (ci_height c Hi). intros Hz. rewrite bool_decide_true in Ez by done. rewrite (proj2 (Z.ltb_lt 0 _)) in Ez by lia. done.
Qed.

(** The blocks are appended one after the other; no peer of [peers] is suspended on the way,
    so that a success changes nothing else. *)
Definition unsuspended (peers : list string) c : Prop :=
  ∀ p, p ∈ peers → (clear_consensus_suspension (registry c) p).1 = registry c.
Inductive appends (now : Z) (peers : list string) : ForkNode (S := S) → list Block → ForkNode (S := S) → Prop :=
| appends_nil n : appends now peers n [] n
| appends_cons n b bs n1 n2 :
    plain b → trimmed b → bh_height (header b) = current_height (chain n) + 1 →
    add_block_with_fork_handling now None n b = (n1, Ok true) → unsuspended peers (chain n1) →
    appends now peers n1 bs n2 → appends now peers n (b :: bs) n2.

(** No peer is asked for anything. *)
Lemma next_any_peer now fp n b : node_inv n → bh_height (header b) = current_height (chain n) + 1 → bh_height (header b) < U64 →
  add_block_with_fork_handling now fp n b = add_block_with_fork_handling now None n b.
Proof.
  intros [Hi _] Hh Hu. pose proof (ci_height _ Hi) as Hc. unfold add_block_with_fork_handling. cbv zeta.
  assert (add64 (current_height (chain n)) 1 = current_height (chain n) + 1) as E64 by (apply Z.mod_small; lia).
  by rewrite E64, Hh, Z.eqb_refl.
Qed.
Lemma append_step now n b n1 : node_inv n → fork_state n = FNone → plain b → trimmed b →
  bh_height (header b) = current_height (chain n) + 1 → add_block_with_fork_handling now None n b = (n1, Ok true) →
  node_inv n1 ∧ fork_state n1 = FNone ∧ current_height (chain n1) = current_height (chain n) + 1
  ∧ block_at (chain n1) (bh_height (header b)) = Some b ∧ previous_hash (header b) ≠ zero_hash
  ∧ (∀ h, h ≤ current_height (chain n) → block_at (chain n1) h = block_at (chain n) h).
Proof.
  intros Hn Hf Hb Ht Hh Ha. pose proof (add_incoming_inv now None n b Hb Hn) as Hn1. rewrite Ha in Hn1. cbn [fst] in Hn1.
  destruct Hn as [Hi Hr]. pose proof (ci_height _ Hi) as Hc. destruct Hb as [Hv Hu].
  unfold add_block_with_fork_handling in Ha. cbv zeta in Ha. destruct (block_bincode b) as [d|] eqn:Ed; [|done]. rewrite Hf in Ha.
  rewrite (proj2 (Z.eqb_neq _ 0)) in Ha by lia. destruct (negb _); [done|].
  assert (add64 (current_height (chain n)) 1 = current_height (chain n) + 1) as E64 by (apply Z.mod_small; lia).
  rewrite E64, Hh, Z.eqb_refl in Ha. unfold append_block in Ha. destruct (get_block_hash _ _); [|done]. destruct (negb _); [done|].
  destruct (validate_block _ _ _ _ _); [|done].
  destruct (add_block now (chain n) b) as [c' [[]|]] eqn:Ea; [|done]. injection Ha as <-. cbn [chain fork_state set_chain].
  pose proof (add_block_stores now (chain n) b (conj Hv Hu) Ht (mk_is_Some _ _ Ed) Hi) as Hst. rewrite Ea in Hst.
  pose proof (add_block_outcome now (chain n) b Hv Hi) as Ho. rewrite Ea in Ho. destruct Ho as [[? _]|[_ Ht']]; [done|].
  destruct (Hst eq_refl) as [S1 S2]. split_and!; try done.
  - pose proof (nt_height _ _ _ Ht') as E. cbn [fst] in E. lia.
  - intros h Hle. eapply new_tip_low; [exact Ht'|lia].
Qed.

(** A block that is on the chain already is skipped. *)
Lemma known_skipped now fp n b : node_inv n → fork_state n = FNone → is_Some (block_bincode b) →
  0 < bh_height (header b) ≤ current_height (chain n) → block_at (chain n) (bh_height (header b)) = Some b →
  add_block_with_fork_handling now fp n b = (n, Ok false).
Proof.
  intros [Hi _] Hf [d Hd] Hh Hb. pose proof (ci_height _ Hi) as Hc. unfold add_block_with_fork_handling. cbv zeta. rewrite Hd, Hf.
  rewrite (proj2 (Z.eqb_neq _ 0)) by lia. destruct (proj2 (ci_complete _ Hi 0)) as [g Hg]; [lia|].
  rewrite Hg, bool_decide_true by done. cbn [negb].
  assert ((bh_height (header b) =? add64 (current_height (chain n)) 1) = false) as ->.
  { apply Z.eqb_neq. unfold add64. destruct (decide (current_height (chain n) + 1 = U64)) as [->|]; [rewrite Z.mod_same; lia|].
    rewrite Z.mod_small; lia. }
  rewrite (proj2 (Z.leb_le _ _)) by lia. unfold add_known_height. rewrite Hb, bool_decide_true by done. by destruct n, fp.
Qed.

Lemma appends_heights now peers n bs n' i b : node_inv n → fork_state n = FNone → appends now peers n bs n' → bs !! i = Some b →
  bh_height (header b) = current_height (chain n) + 1 + Z.of_nat i ∧ previous_hash (header b) ≠ zero_hash ∧ is_Some (block_bincode b) ∧ plain b.
Proof.
  intros Hn Hf Ha. revert i. induction Ha as [n|n b0 bs n1 n2 Hp Ht Hh Hadd Hu Ha IH]; intros i Hb; [done|].
  destruct (append_step now n b0 n1 Hn Hf Hp Ht Hh Hadd) as (Hn1 & Hf1 & Hc & _ & Hz & _).
  destruct i as [|i]; cbn in Hb.
  - injection Hb as <-. split; [lia|]. split; [done|]. split; [|done]. unfold add_block_with_fork_handling in Hadd. cbv zeta in Hadd.
    destruct (block_bincode b0); [by eexists|done].
  - destruct (IH Hn1 Hf1 i Hb) as (E & ?). split; [lia|done].
Qed.

Lemma in_suffix {A} (l k : list A) x : l `suffix_of` k → x ∈ l → x ∈ k.
Proof. intros [p ->] Hx. apply elem_of_app. by right. Qed.

(** ** The state between messages *)

Section run.
Context (now : Clock) (peers : list string) (n0 nk : ForkNode (S := S)) (bs : list Block).
Hypothesis Hn0 : node_inv n0.
Hypothesis Hf0 : fork_state n0 = FNone.
Hypothesis Happ : appends (c_unix now) peers n0 bs nk.
Hypothesis Hfew : (length bs ≤ MAX_PENDING_BLOCKS)%nat.
Hypothesis Hroom : current_height (chain n0) + Z.of_nat (length bs) + 1 < U64.

Lemma same_height b b' : b ∈ bs → b' ∈ bs → bh_height (header b) = bh_height (header b') → b = b'.
Proof.
  intros [i Hi]%list_elem_of_lookup [j Hj]%list_elem_of_lookup E.
  destruct (appends_heights _ _ _ _ _ i b Hn0 Hf0 Happ Hi) as [Ei _]. destruct (appends_heights _ _ _ _ _ j b' Hn0 Hf0 Happ Hj) as [Ej _].
  assert (i = j) as <- by lia. congruence.
Qed.
Lemma good_block b : b ∈ bs → previous_hash (header b) ≠ zero_hash ∧ is_Some (block_bincode b) ∧ 0 < bh_height (header b) < U64.
Proof.
  intros [i Hi]%list_elem_of_lookup. destruct (appends_heights _ _ _ _ _ i b Hn0 Hf0 Happ Hi) as (Eh & Hz & Hs & _ & Hu).
  pose proof (ci_height _ (proj1 Hn0)). split_and!; try done. lia.
Qed.

(** [rest] is still to be appended; what was received is on the chain or in the buffer. *)
Record sync_state (received : Block → Prop) (rest : list Block) s : Prop := mkSyncState {
  sy_inv : node_inv (bn_node s);
  sy_idle : fork_state (bn_node s) = FNone;
  sy_rest : appends (c_unix now) peers (bn_node s) rest nk;
  sy_suffix : rest `suffix_of` bs;
  sy_count : bn_height s + Z.of_nat (length rest) = current_height (chain n0) + Z.of_nat (length bs);
  sy_done : ∀ b, b ∈ bs → b ∈ rest ∨ bh_height (header b) ≤ current_height (bn_chain s) ∧ block_at (bn_chain s) (bh_height (header b)) = Some b;
  sy_pending : ∀ h b, bn_pending s !! h = Some b → b ∈ bs ∧ h = bh_height (header b);
  sy_received : ∀ b, received b → b ∈ rest → bn_pending s !! bh_height (header b) = Some b;
  sy_confirmed : ∀ p, p ∈ peers → is_genesis_confirmed (bn_peers s) p = true;
}.
Definition settled s : Prop := bn_pending s !! add64 (bn_height s) 1 = None.

Lemma rest_height received rest s i b : sync_state received rest s → rest !! i = Some b →
  bh_height (header b) = bn_height s + 1 + Z.of_nat i.
Proof. intros [Hi Hf Hr _ _ _ _ _ _] Hb. by destruct (appends_heights _ _ _ _ _ i b Hi Hf Hr Hb). Qed.
Lemma next_height received rest s : sync_state received rest s → add64 (bn_height s) 1 = bn_height s + 1.
Proof.
  intros Hs. pose proof (ci_height _ (proj1 (sy_inv _ _ _ Hs))). pose proof (sy_count _ _ _ Hs).
  apply Z.mod_small. unfold bn_height, bn_chain in *. lia.
Qed.

(** The next block is appended. *)
Lemma sync_append received b rest s : sync_state received (b :: rest) s →
  ∃ s', incoming now b s = (s', Ok true) ∧ bn_pending s' = bn_pending s ∧ bn_peers s' = bn_peers s ∧ unsuspended peers (bn_chain s')
    ∧ sync_state received rest s'.
Proof.
  intros Hs. destruct Hs as [Hi Hf Hr Hx Hk Hd Hp Hv Hc].
  inversion Hr as [|? ? ? n1 ? Pb Tb Hh Hadd Hu Hr']; subst.
  destruct (append_step _ _ _ _ Hi Hf Pb Tb Hh Hadd) as (Hi' & Hf' & Hc' & Hat & Hz & Hlow).
  exists (put_node n1 s). unfold incoming. rewrite next_any_peer by (try done; apply Pb). rewrite Hadd. split_and!; try done.
  split; try done.
  - etrans; [|exact Hx]. by exists [b].
  - unfold bn_height, bn_chain in *. cbn [put_node bn_node length] in *. lia.
  - intros b' Hb'. destruct (Hd b' Hb') as [[->|?]%elem_of_cons|[Hle Hb]]; [right; split; [unfold bn_chain; cbn; lia|done]|by left|].
    right. unfold bn_chain in *. cbn [put_node bn_node] in *. split; [lia|]. by rewrite Hlow.
  - intros b' Hb' Hin. apply Hv; [done|by right].
Qed.
(** A block that is on the chain is skipped, and one ahead of the tip waits. *)
Lemma sync_known received rest s b : sync_state received rest s → b ∈ bs → b ∉ rest →
  incoming now b s = (s, Ok false) ∧ bh_height (header b) ≤ bn_height s.
Proof.
  intros Hs Hb Hn. destruct (sy_done _ _ _ Hs b Hb) as [|[Hle Hat]]; [done|]. destruct (good_block b Hb) as (_ & He & Hh).
  unfold incoming. rewrite known_skipped; [by destruct s|apply Hs|apply Hs|done|unfold bn_chain in *; lia|done].
Qed.

Lemma set_size_le (l : list Z) : (size (list_to_set l : gset Z) ≤ length l)%nat.
Proof.
  induction l as [|x l IH]; [done|]. cbn [list_to_set length]. rewrite size_union_alt, size_singleton.
  assert (size ((list_to_set l : gset Z) ∖ {[x]}) ≤ size (list_to_set l : gset Z))%nat by (apply subseteq_size; set_solver). lia.
Qed.
Lemma room received rest s b : sync_state received rest s → b ∈ bs → bn_pending s !! bh_height (header b) = None →
  (size (bn_pending s) < MAX_PENDING_BLOCKS)%nat.
Proof.
  intros Hs Hb Hn. pose proof (set_size_le ((λ b, bh_height (header b)) <$> bs)) as Hl. rewrite length_fmap in Hl.
  set (X := list_to_set _ : gset Z) in Hl. assert ({[bh_height (header b)]} ∪ dom (bn_pending s) ⊆ X) as Hsub.
  { intros h [->%elem_of_singleton|Hd]%elem_of_union; apply elem_of_list_to_set, list_elem_of_fmap; [by eauto|].
    apply elem_of_dom in Hd as [b' Hb']. destruct (sy_pending _ _ _ Hs _ _ Hb') as [? ->]. eauto. }
  apply subseteq_size in Hsub. rewrite size_union, size_singleton, size_dom in Hsub; [lia|].
  apply disjoint_singleton_l. by rewrite not_elem_of_dom.
Qed.
Lemma sync_buffer received rest s b : sync_state received rest s → b ∈ bs →
  let r := buffer_sync_block b s in
  sync_state (λ x, x = b ∨ received x) rest r.1 ∧ bn_node r.1 = bn_node s ∧ (r.2 = false → r.1 = s).
Proof.
  intros Hs Hb. pose proof (room received rest s b Hs Hb) as Hfree. unfold buffer_sync_block. cbv zeta.
  assert (∀ b', bn_pending s !! bh_height (header b) = Some b' → b' = b) as Hsame.
  { intros b' E. destruct (sy_pending _ _ _ Hs _ _ E) as [Hb' Eh]. by apply same_height. }
  destruct Hs as [Hi Hf Hr Hx Hk Hd Hp Hv Hc].
  destruct (bn_pending s !! bh_height (header b)) as [b'|] eqn:E.
  - rewrite (Hsame b' eq_refl) in E. rewrite bool_decide_true by done.
    replace (if (_ <=? _)%nat then (s, false) else (s, false)) with (s, false) by by destruct (_ <=? _)%nat.
    split; [|done]. split; try done. intros x [->|Hx'] Hin; [done|by apply Hv].
  - rewrite (proj2 (Nat.leb_gt _ _)) by by apply Hfree. rewrite bool_decide_false by (by intros [? ?]). split; [|done].
    split; try done; cbn [fst put_pending bn_pending bn_peers].
    + intros h x. destruct (decide (h = bh_height (header b))) as [->|]; [rewrite lookup_insert_eq; intros [= <-]; done|].
      rewrite lookup_insert_ne by done. apply Hp.
    + intros x [->|Hx'] Hin; [by rewrite lookup_insert_eq|].
      destruct (decide (bh_height (header x) = bh_height (header b))) as [Eh|].
      * rewrite Eh, lookup_insert_eq. f_equal. symmetry. apply same_height; [by eapply in_suffix|done|done].
      * rewrite lookup_insert_ne by done. by apply Hv.
Qed.
Lemma sync_put_peers received rest s p : sync_state received rest s → genesis_confirmed p = genesis_confirmed (bn_peers s) →
  sync_state received rest (put_peers p s).
Proof. intros [Hi Hf Hr Hx Hk Hd Hp Hv Hc] E. split; try done. intros x Hx'. specialize (Hc x Hx'). unfold is_genesis_confirmed in *. cbn. by rewrite E. Qed.
Lemma welcome_quiet first p s : p ∈ peers → unsuspended peers (bn_chain s) →
  ∃ k, welcome_peer first p s = put_peers k s ∧ genesis_confirmed k = genesis_confirmed (bn_peers s).
Proof.
  intros Hp Hu. unfold welcome_peer. destruct first; [|by eexists].
  exists (clear_incompatible p (reset_fork_errors p (bn_peers s))). split; [|done].
  transitivity (put_chain (set_registry (clear_consensus_suspension (registry (bn_chain s)) p).1 (bn_chain s))
                  (put_peers (clear_incompatible p (reset_fork_errors p (bn_peers s))) s)); [done|].
  rewrite (Hu p Hp). unfold bn_chain. destruct s as [[c0] ?]. by destruct c0.
Qed.

(** While nothing was added or buffered, nothing changed. *)
Definition progress (a : BatchCount) s : Prop :=
  fork_detected a = false ∧ 0 ≤ added a ∧ 0 ≤ buffered a ∧ (added a = 0 → buffered a = 0 → settled s).
Lemma absorb_one received rest s a all b q : sync_state received rest s → progress a s → sc_peer q ∈ peers → b ∈ bs →
  ∃ s' a' rest', absorb_block now all b q s a = (s', a', BContinue) ∧ sync_state (λ x, x = b ∨ received x) rest' s' ∧ progress a' s'.
Proof.
  intros Hs (Ga & Gb & Gc & Gd) Hq Hb. destruct (good_block b Hb) as (Hz & He & Hh).
  unfold absorb_block. cbv zeta. rewrite (bool_decide_false _ Hz), andb_false_r.
  destruct (decide (b ∈ rest)) as [Hin|Hout].
  - apply list_elem_of_lookup in Hin as [i Hi]. pose proof (rest_height _ _ _ _ _ Hs Hi) as Eh.
    rewrite (next_height _ _ _ Hs).
    destruct i as [|i].
    + rewrite (proj2 (Z.ltb_ge _ _)) by lia. destruct rest as [|b0 rest]; [done|]. injection Hi as ->.
      destruct (sync_append _ _ _ _ Hs) as (s' & -> & Epend & Epeer & Hu & Hs').
      destruct (welcome_quiet (added a =? 0) (sc_peer q) s' Hq Hu) as (k & -> & Ek).
      eexists _, _, rest. split; [done|]. split.
      * apply sync_put_peers; [|done]. destruct Hs' as [Hi' Hf' Hr' Hx' Hk' Hd' Hp' Hv' Hc']. split; try done.
        intros x [->|Hx''] Hin; [|by apply Hv'].
        apply list_elem_of_lookup in Hin as [j Hj]. destruct (appends_heights _ _ _ _ _ j b Hi' Hf' Hr' Hj) as [E _].
        destruct (sy_done _ _ _ Hs b Hb) as [_|[Hle _]].
        -- pose proof (rest_height _ _ _ 0 b Hs eq_refl) as E0. pose proof (rest_height _ _ _ (Datatypes.S j) b Hs Hj) as E1. lia.
        -- unfold bn_height in Eh. lia.
      * split_and!; cbn; try done; lia.
    + rewrite (proj2 (Z.ltb_lt _ _)) by lia. destruct (sync_buffer _ _ _ b Hs Hb) as (Hs' & En & Esame).
      destruct (buffer_sync_block b s) as [s' [|]]; cbn [fst snd] in *; eexists _, _, rest; (split; [done|]); split; try done.
      * split_and!; cbn; try done; lia.
      * rewrite Esame by done. by split_and!.
  - destruct (sync_known _ _ _ _ Hs Hb Hout) as [-> Hle].
    rewrite (next_height _ _ _ Hs), (proj2 (Z.ltb_ge _ _)) by lia. eexists _, _, rest. split; [done|]. split; [|by split_and!].
    destruct Hs as [Hi Hf Hr Hx Hk Hd Hp Hv Hc]. split; try done. intros x [->|Hx'] Hin; [done|by apply Hv].
Qed.

Lemma sync_weaken (r r' : Block → Prop) rest s : sync_state r rest s → (∀ x, r' x → r x) → sync_state r' rest s.
Proof. intros [Hi Hf Hr Hx Hk Hd Hp Hv Hc] Hw. split; try done. intros b Hb. by apply Hv, Hw. Qed.
Lemma absorb_many l received rest s a all q : sync_state received rest s → progress a s → sc_peer q ∈ peers → (∀ b, b ∈ l → b ∈ bs) →
  ∃ s' a' rest', absorb_blocks now all l q s a = (s', a', None) ∧ sync_state (λ x, x ∈ l ∨ received x) rest' s' ∧ progress a' s'.
Proof.
  revert received rest s a. induction l as [|b l IH]; intros received rest s a Hs Hg Hq Hl; cbn [absorb_blocks].
  - eexists _, _, rest. split; [done|]. split; [|done]. eapply sync_weaken; [exact Hs|]. intros x [Hx|]; [|done]. by apply elem_of_nil in Hx.
  - destruct (absorb_one _ _ _ _ all b q Hs Hg Hq (Hl b ltac:(by left))) as (s1 & a1 & rest1 & -> & Hs1 & Hg1).
    destruct (IH _ _ _ _ Hs1 Hg1 Hq) as (s2 & a2 & rest2 & E & Hs2 & Hg2); [intros x Hx; apply Hl; by right|].
    eexists _, _, rest2. split; [exact E|]. split; [|done]. eapply sync_weaken; [exact Hs2|].
    intros x [[->|Hx]%elem_of_cons|Hx]; tauto.
Qed.

Lemma drain_settles fuel received rest s k : sync_state received rest s → (size (bn_pending s) ≤ fuel)%nat →
  let r := drain_loop fuel now s k in ∃ rest', sync_state received rest' r.1 ∧ settled r.1.
Proof.
  cbv zeta. revert rest s k. induction fuel as [|fuel IH]; intros rest s k Hs Hfuel; cbn [drain_loop].
  - exists rest. split; [done|]. unfold settled. cbn [fst]. assert (bn_pending s = ∅) as -> by (apply map_size_empty_inv; lia). apply lookup_empty.
  - cbv zeta. rewrite (next_height _ _ _ Hs). destruct (bn_pending s !! (bn_height s + 1)) as [b|] eqn:E;
      [|exists rest; split; [done|unfold settled; cbn [fst]; by rewrite (next_height _ _ _ Hs)]].
    destruct (sy_pending _ _ _ Hs _ _ E) as [Hb Eh].
    destruct (sy_done _ _ _ Hs b Hb) as [Hin|[Hle _]]; [|unfold bn_height in *; lia].
    apply list_elem_of_lookup in Hin as [i Hi]. pose proof (rest_height _ _ _ _ _ Hs Hi) as Ei. assert (i = 0%nat) as -> by lia.
    destruct rest as [|b0 rest]; [done|]. injection Hi as ->.
    set (s0 := put_pending (delete (bn_height s + 1) (bn_pending s)) s).
    assert (sync_state (λ x, received x ∧ x ≠ b) (b :: rest) s0) as Hs0.
    { destruct Hs as [Hi Hf Hr Hx Hk Hd Hp Hv Hc]. split; try done; cbn [s0 put_pending bn_pending].
      - intros h x Hx'. apply lookup_delete_Some in Hx' as [_ Hx']. by apply Hp.
      - intros x [Hx' Hne] Hin. rewrite lookup_delete_ne; [by apply Hv|]. intros E'. apply Hne.
        apply same_height; [by eapply in_suffix|done|lia]. }
    destruct (sync_append _ _ _ _ Hs0) as (s1 & -> & Ep & _ & _ & Hs1). apply (IH rest).
    + destruct Hs1 as [Hi' Hf' Hr' Hx' Hk' Hd' Hp' Hv' Hc']. split; try done. intros x Hx Hin. apply Hv'; [split; [done|]|done]. intros ->.
      apply list_elem_of_lookup in Hin as [j Hj]. destruct (appends_heights _ _ _ _ _ j b Hi' Hf' Hr' Hj) as [E' _].
      pose proof (rest_height _ _ _ (Datatypes.S j) b Hs Hj). lia.
    + rewrite Ep. cbn [s0 put_pending bn_pending]. rewrite map_size_delete_Some by by eexists. lia.
Qed.

(** One batch, from a peer whose genesis is confirmed. *)
Definition receive (s : BlockNode (S := S)) (e : string * list Block) : BlockNode :=
  (handle_blocks_response now e.2 (mkSyncConn e.1 []) s).1.
Lemma receive_batch received rest s e : sync_state received rest s → settled s → e.1 ∈ peers → (∀ b, b ∈ e.2 → b ∈ bs) →
  ∃ rest', sync_state (λ x, x ∈ e.2 ∨ received x) rest' (receive s e) ∧ settled (receive s e).
Proof.
  intros Hs Hset Hp Hl. unfold receive, handle_blocks_response. cbv zeta. cbn [sc_peer].
  case_bool_decide as E.
  { exists rest. split; [|done]. eapply sync_weaken; [exact Hs|]. rewrite E. intros x [Hx|]; [by apply elem_of_nil in Hx|done]. }
  assert (should_drop_ibd_block now e.1 s = false) as ->.
  { unfold should_drop_ibd_block. rewrite (sy_confirmed _ _ _ Hs e.1 Hp). cbn. by rewrite andb_false_r. }
  assert (fetches_from e.1 (bn_node s) = false) as -> by (unfold fetches_from; by rewrite (sy_idle _ _ _ Hs)).
  destruct (absorb_many e.2 _ _ s (mkBatch 0 0 0 false) e.2 (mkSyncConn e.1 []) Hs) as (s1 & a1 & rest1 & -> & Hs1 & G1 & G2 & G3 & G4); [done..|].
  rewrite G1, andb_true_r. cbn [fst]. destruct ((0 <? added a1) || (0 <? buffered a1)) eqn:Ed.
  - apply (drain_settles _ _ rest1 s1 0 Hs1). reflexivity.
  - apply orb_false_iff in Ed as [E1%Z.ltb_ge E2%Z.ltb_ge]. exists rest1. split; [done|]. apply G4; lia.
Qed.
Lemma receive_batches es received rest s : sync_state received rest s → settled s → (∀ e, e ∈ es → e.1 ∈ peers ∧ ∀ b, b ∈ e.2 → b ∈ bs) →
  ∃ rest', sync_state (λ x, x ∈ mjoin es.*2 ∨ received x) rest' (foldl receive s es) ∧ settled (foldl receive s es).
Proof.
  revert received rest s. induction es as [|e es IH]; intros received rest s Hs Hset Hes; cbn.
  - exists rest. split; [|done]. eapply sync_weaken; [exact Hs|]. intros x [Hx|]; [by apply elem_of_nil in Hx|done].
  - destruct (Hes e ltac:(by left)) as [Hp Hl]. destruct (receive_batch _ _ _ _ Hs Hset Hp Hl) as (rest1 & Hs1 & Hset1).
    destruct (IH _ _ _ Hs1 Hset1) as (rest2 & Hs2 & Hset2); [intros x Hx; apply Hes; by right|].
    exists rest2. split; [|done]. eapply sync_weaken; [exact Hs2|]. intros x [Hx|Hx]; [|tauto]. apply elem_of_app in Hx. tauto.
Qed.
Lemma start_state s : bn_node s = n0 → bn_pending s = ∅ → (∀ p, p ∈ peers → is_genesis_confirmed (bn_peers s) p = true) →
  sync_state (λ _, False) bs s ∧ settled s.
Proof.
  intros Hn Hp Hc. split; [|unfold settled; by rewrite Hp, lookup_empty]. split; try (by rewrite Hn); try done.
  - unfold bn_height, bn_chain. by rewrite Hn.
  - by left.
  - intros h b. by rewrite Hp, lookup_empty.
Qed.
Lemma all_received received rest s : sync_state received rest s → settled s → (∀ b, b ∈ bs → received b) →
  bn_node s = nk ∧ current_height (chain nk) = current_height (chain n0) + Z.of_nat (length bs)
  ∧ ∀ b, b ∈ bs → block_at (chain nk) (bh_height (header b)) = Some b.
Proof.
  intros Hs Hset Hall. destruct rest as [|b rest].
  - destruct Hs as [_ _ Hr _ Hk Hd _ _ _]. inversion Hr as [n En|]; subst. split; [done|]. cbn in Hk. split; [unfold bn_height, bn_chain in *; lia|].
    intros b Hb. by destruct (Hd b Hb) as [?%elem_of_nil|[_ ?]].
  - exfalso. assert (b ∈ bs) as Hb by (eapply in_suffix; [apply Hs|by left]).
    pose proof (sy_received _ _ _ Hs b (Hall b Hb) ltac:(by left)) as E. pose proof (rest_height _ _ _ 0 b Hs eq_refl) as Eh.
    unfold settled in Hset. rewrite (next_height _ _ _ Hs) in Hset. rewrite Eh, Z.add_0_r in E. congruence.
Qed.
End run.

(** Synchronization does not depend on the order of delivery: let a run of at most 500
    blocks be one that the node, which resolves no fork and has an empty buffer, would append
    block by block.  When these blocks arrive in batches of any size and order, from any of
    the confirmed peers, none of which is suspended, with any repetitions, so that every
    block is in some batch, the node ends with exactly the chain and state of the one that
    appended them in order. *)
Theorem sync_any_order now peers s bs nk es :
  node_inv (bn_node s) → fork_state (bn_node s) = FNone → bn_pending s = ∅ →
  appends (c_unix now) peers (bn_node s) bs nk →
  (length bs ≤ MAX_PENDING_BLOCKS)%nat → bn_height s + Z.of_nat (length bs) + 1 < U64 →
  (∀ p, p ∈ peers → is_genesis_confirmed (bn_peers s) p = true) →
  (∀ e, e ∈ es → e.1 ∈ peers) → (∀ b, b ∈ mjoin es.*2 ↔ b ∈ bs) →
  bn_node (foldl (receive now) s es) = nk ∧ current_height (chain nk) = bn_height s + Z.of_nat (length bs)
  ∧ ∀ b, b ∈ bs → block_at (chain nk) (bh_height (header b)) = Some b.
Proof.
  intros Hi Hf Hp Ha Hfew Hlow Hc Hes Hall.
  destruct (start_state now peers (bn_node s) nk bs Hi Hf Ha s eq_refl Hp Hc) as [Hs Hset].
  destruct (receive_batches now peers (bn_node s) nk bs Hi Hf Ha Hfew Hlow es _ _ _ Hs Hset) as (rest & Hs' & Hset').
  { intros e He. split; [by apply Hes|]. intros b Hb. apply Hall, list_elem_of_join. exists e.2. split; [done|]. by apply list_elem_of_fmap_2. }
  apply (all_received now peers (bn_node s) nk bs Ha Hfew Hlow _ rest _ Hs' Hset'). intros b Hb. left. by apply Hall.
Qed.

(** ** An exchange with one peer *)

Lemma served_prefix c start end_ i b : chain_inv c → 0 ≤ start → start + MAX_BLOCKS_PER_RESPONSE ≤ U64 →
  trim_blocks_to_frame_limit (blocks_to_serve c start end_) !! i = Some b → block_at c (start + Z.of_nat i) = Some b ∧ (Z.of_nat i < MAX_BLOCKS_PER_RESPONSE).
Proof.
  intros Hi Hs Hu Hb. destruct (trim_longest (blocks_to_serve c start end_)) as [[k Hk] _].
  pose proof (served_exactly c start end_ i Hi Hs Hu) as E. rewrite Hk, lookup_app_l in E by by eapply lookup_lt_Some. rewrite Hb in E.
  case_bool_decide as Hd; [|done]. split; [done|]. apply Hd.
Qed.
Lemma served_some c start end_ b : chain_inv c → 0 ≤ start ≤ end_ → start + MAX_BLOCKS_PER_RESPONSE ≤ U64 →
  block_at c start = Some b → batch_fits [b] = true →
  (0 < length (trim_blocks_to_frame_limit (blocks_to_serve c start end_)) ≤ 50)%nat.
Proof.
  intros Hi Hs Hu Hb Hfit. split.
  - apply (proj2 (proj2 (trim_longest _)) [b]); [|done].
    pose proof (served_exactly c start end_ 0 Hi ltac:(lia) Hu) as E.
    rewrite bool_decide_true, Z.add_0_r, Hb in E by (unfold MAX_BLOCKS_PER_RESPONSE; lia). destruct (blocks_to_serve _ _ _) as [|x l]; [done|].
    injection E as ->. by exists l.
  - set (l := trim_blocks_to_frame_limit _). destruct (decide (length l ≤ 50)%nat) as [|Hgt]; [done|].
    destruct (lookup_lt_is_Some_2 l 50) as [x Hx]; [lia|]. destruct (served_prefix c start end_ _ x Hi ltac:(lia) Hu Hx) as [_ Hm].
    unfold MAX_BLOCKS_PER_RESPONSE in Hm. lia.
Qed.
(** The tip of a peer ahead of us makes us ask for what follows our own. *)
Lemma tip_request now them h t s : is_genesis_confirmed (bn_peers s) them = true → tip_requests (bn_limits s) !! them = None → bn_height s < h →
  ∃ s1, handle_block_msg now (MChainTipResponse h t) (mkSyncConn them [], s)
      = ((mkSyncConn them [], s1), Ok (Some (MGetBlocks (add64 (bn_height s) 1) (add64 h 1))))
    ∧ bn_node s1 = bn_node s ∧ bn_pending s1 = bn_pending s ∧ is_genesis_confirmed (bn_peers s1) them = true.
Proof.
  intros Hc Ht Hlt. set (k := record_chain_tip (c_instant now) them h t (set_peer_height them h (bn_peers s))).
  exists (set_tip_requests (<[them := c_instant now]> (tip_requests (bn_limits s))) (not_zombie them (put_peers k s))).
  assert (genesis_confirmed k = genesis_confirmed (bn_peers s)) as Ek by (unfold k, record_chain_tip; cbv zeta; by case_match).
  assert (is_genesis_confirmed k them = true) as Hc' by (unfold is_genesis_confirmed in *; by rewrite Ek).
  split; [|by split_and!].
  unfold handle_block_msg. cbv zeta. unfold handle_chain_tip_response. cbv zeta. cbn [sc_peer]. fold k. unfold start_genesis_check. cbn [bn_peers put_peers].
  rewrite Hc'. change (bn_height (put_peers k s)) with (bn_height s). rewrite (proj2 (Z.eqb_neq _ _)), (proj2 (Z.ltb_lt _ _)) by lia.
  unfold handle_tip_ahead. cbv zeta. cbn [sc_peer]. change (tip_requests (bn_limits (not_zombie them (put_peers k s)))) with (tip_requests (bn_limits s)).
  rewrite Ht. done.
Qed.
(** A node that is behind catches up with one exchange: the tip of a confirmed peer makes
    it ask for the blocks after its own, the peer answers with as many of them as a frame
    holds, and after the answer the node is higher than before and agrees with the peer on
    every block it received. *)
Theorem catch_up now us them p s nk :
  let q := mkSyncConn us [] in
  let r := mkSyncConn them [] in
  let hs := bn_height s in
  let served := trim_blocks_to_frame_limit (blocks_to_serve (bn_chain p) (hs + 1) (bn_height p + 1)) in
  chain_inv (bn_chain p) → hs < bn_height p → bn_height p + MAX_BLOCKS_PER_RESPONSE < U64 →
  node_inv (bn_node s) → fork_state (bn_node s) = FNone → bn_pending s = ∅ →
  is_genesis_confirmed (bn_peers s) them = true → tip_requests (bn_limits s) !! them = None →
  appends (c_unix now) [them] (bn_node s) served nk →
  (∀ b, block_at (bn_chain p) (hs + 1) = Some b → batch_fits [b] = true) →
  ∃ request s1, handle_block_msg now (MChainTipResponse (bn_height p) (tip_hash (bn_chain p))) (r, s) = ((r, s1), Ok (Some request))
  ∧ (handle_block_msg now request (q, p)).2 = Ok (Some (MBlocksResponse served))
  ∧ let s2 := (handle_block_msg now (MBlocksResponse served) (r, s1)).1.2 in
    bn_node s2 = nk ∧ hs < bn_height s2 ∧ ∀ h, hs < h ≤ bn_height s2 → block_at (bn_chain s2) h = block_at (bn_chain p) h.
Proof.
  intros q r hs served Hp Hlt Hu Hi Hf He Hc Ht Ha Hfit.
  pose proof (ci_height _ Hp) as Hhp. pose proof (ci_height _ (proj1 Hi)) as Hhs. change (current_height (chain (bn_node s))) with hs in Hhs.
  change (current_height (bn_chain p)) with (bn_height p) in Hhp.
  assert (add64 hs 1 = hs + 1) as E1 by (apply Z.mod_small; lia). assert (add64 (bn_height p) 1 = bn_height p + 1) as E2 by (apply Z.mod_small; unfold MAX_BLOCKS_PER_RESPONSE in *; lia).
  destruct (tip_request now them (bn_height p) (tip_hash (bn_chain p)) s Hc Ht Hlt) as (s1 & E & En & Ep & Ec).
  fold hs in E. rewrite E1, E2 in E. exists (MGetBlocks (hs + 1) (bn_height p + 1)), s1. split; [exact E|]. split.
  - unfold handle_block_msg. cbv zeta. unfold handle_get_blocks, admit_request. cbn [q recent_requests filter list_filter length Nat.leb negb app].
    rewrite (proj2 (Z.eqb_neq (hs + 1) 0)) by lia. done.
  - cbv zeta. assert ((handle_block_msg now (MBlocksResponse served) (r, s1)).1.2 = receive now s1 (them, served)) as ->.
    { unfold handle_block_msg, receive. cbv zeta. cbn [fst snd]. fold r. by destruct (handle_blocks_response now served r s1). }
    assert (∀ i b, served !! i = Some b → block_at (bn_chain p) (hs + 1 + Z.of_nat i) = Some b ∧ Z.of_nat i < MAX_BLOCKS_PER_RESPONSE) as Hserved.
    { intros i b Hb. eapply served_prefix; [done|lia|unfold MAX_BLOCKS_PER_RESPONSE in *; lia|exact Hb]. }
    destruct (proj2 (block_at_stored _ (hs + 1) Hp)) as [b0 Hb0]; [change (current_height (bn_chain p)) with (bn_height p); lia|].
    assert (0 < length served ≤ 50)%nat as Hlen.
    { eapply served_some; [done|lia|unfold MAX_BLOCKS_PER_RESPONSE in *; lia|exact Hb0|by apply Hfit]. }
    rewrite <- En in Hi, Hf, Ha.
    destruct (start_state now [them] (bn_node s1) nk served Hi Hf Ha s1 eq_refl) as [Hs Hset]; [congruence|intros x Hx; apply list_elem_of_singleton in Hx as ->; done|].
    assert (current_height (chain (bn_node s1)) = hs) as Eh by (by rewrite En).
    assert (current_height (chain (bn_node s1)) + Z.of_nat (length served) + 1 < U64) as Hlow by (unfold MAX_BLOCKS_PER_RESPONSE in *; lia).
    destruct (receive_batch now [them] (bn_node s1) nk served Hi Hf Ha ltac:(unfold MAX_PENDING_BLOCKS; lia) Hlow _ _ _ (them, served) Hs Hset) as (rest & Hs' & Hset');
      [by left|done|].
    destruct (all_received now [them] (bn_node s1) nk served Ha ltac:(unfold MAX_PENDING_BLOCKS; lia) Hlow _ rest _ Hs' Hset') as (F1 & F2 & F3); [by left|].
    split; [done|]. unfold bn_height, bn_chain. rewrite F1, F2, Eh. split; [lia|]. intros h Hh.
    destruct (lookup_lt_is_Some_2 served (Z.to_nat (h - hs - 1))) as [b Hb]; [lia|]. destruct (Hserved _ _ Hb) as [Hat _].
    replace (hs + 1 + Z.of_nat (Z.to_nat (h - hs - 1))) with h in Hat by lia. unfold bn_chain in Hat. rewrite Hat.
    destruct (appends_heights _ _ _ _ _ _ b Hi Hf Ha Hb) as [Ehb _]. rewrite Eh in Ehb.
    rewrite <- (F3 b) by by eapply list_elem_of_lookup_2. f_equal. lia.
Qed.
End sync.
