(* ===== verification/BlockSyncSamples.v ===== *)
(** * Block messages on concrete chains

    Witnesses for the theorems of [BlockMessageProofs] and [BlockSync], and the messages that
    show where the code departs from its comments. *)

From Stdlib Require Import ZArith Lia Ascii String.
From stdpp Require Import base gmap strings list pretty.
From S2P Require Import Prelude Types Instances Address Storage UtxoManager TransactionPool BlockVotes.
From S2P Require Import Lru BlockTypes BlockVrf BlockCache BlockLedger Governance GovernancePersist Registry RegistryProofs Reward Utf8 Genesis TxValidation TxProofs PoolProofs Consensus ConsensusProofs.
From S2P Require Import Chain ChainApply ChainProofs ChainLedger ChainSamples ForkChoice Reorg ReorgProofs ReorgSamples BanList NetGuards IpText BlockRound PeerBook BlockMessages BlockMessageProofs BlockSync.

(** ** Marks and alerts *)

(** A temporary mark takes the place of a permanent one, and the peer on another genesis
    block is let in again after five minutes. *)
Theorem permanent_mark_lifted bl t inst later peer p : peer_whitelisted bl (ip_of peer) = false →
  INCOMPATIBLE_RECHECK_SECS ≤ secs_since later inst →
  let marked := mark_genesis_incompatible t peer p in
  (is_incompatible later peer marked).2 = true ∧ (is_incompatible later peer (mark_incompatible bl inst peer false marked)).2 = false.
Proof.
  intros Hw Hl. cbv zeta. unfold is_incompatible, mark_incompatible, mark_genesis_incompatible. rewrite Hw.
  cbn [incompatible_peers set_incompatible]. rewrite !lookup_insert_eq. split; [done|].
  unfold recheck_due. cbn [fst snd negb andb]. by rewrite (proj2 (Z.leb_le _ _)).
Qed.

(** A peer that never answers the question for its genesis block counts as confirmed. *)
Theorem silent_peer_confirmed inst peer ours p : is_genesis_confirmed (verify_genesis_compatibility inst peer ours NoAnswer p).1 peer = true.
Proof. apply bool_decide_eq_true. cbn. set_solver. Qed.

Section alerts.
Context {S : Type} `{UtxoStorage S} `{MapIter} `{Externals} `{BlockExternals} `{!BlockCodec} `{LegacyCodec} `{Zstd} `{LruCrate}.
Context `{TxExternals} `{PoolCodec} `{VrfExternals} `{GovCodec}.
(** The first fork alert of a peer is never followed: the entry made for it says that blocks
    were requested just now. *)
Theorem first_alert_ignored now yh yg h g q (s : BlockNode (S := S)) :
  alert_cycles (bn_limits s) !! sc_peer q = None → (handle_fork_alert now yh yg h g q s).2 = None.
Proof.
  intros E. unfold handle_fork_alert. cbv zeta. destruct (_ || _); [done|]. destruct (_ && _); [done|].
  unfold admit_alert. cbv zeta. rewrite E. cbn [default]. by rewrite Z.sub_diag.
Qed.
(** While the buffer holds a block at a height, whoever sent it, another block for that
    height is dropped. *)
Theorem buffered_first_stays b b' (s : BlockNode (S := S)) : bn_pending s !! bh_height (header b) = Some b' → buffer_sync_block b s = (s, false).
Proof. intros E. unfold buffer_sync_block. cbv zeta. rewrite E, bool_decide_true by done. by destruct (_ <=? _)%nat. Qed.
End alerts.

(** ** Witnesses *)

Section sync_samples.
#[local] Existing Instance tagged_externals.
#[local] Existing Instance canonical_iter.
#[local] Existing Instance sample_tx_externals.
#[local] Existing Instance model_pool_codec.
#[local] Existing Instance model_vrf.
#[local] Existing Instance model_gov_codec.
#[local] Existing Instance model_zstd.
#[local] Existing Instance list_lru.
#[local] Existing Instance no_legacy.
#[local] Existing Instance fork_ext.
#[local] Existing Instance fork_codec.
#[local] Existing Instance fork_codec_laws.
#[local] Existing Instance fork_format.

Definition SYNC_CLOCK : Clock := mkClock 0 SAMPLE_NOW 0.
Definition sync_node (n : ForkNode (S := gmap OutPoint UTXO)) : BlockNode (S := gmap OutPoint UTXO) :=
  mkBlockNode n (mark_genesis_confirmed "9.9.9.9" (peer_book_new 0)) None None ∅ ∅ (mkLimits ∅ ∅ ∅ ∅) [] (Some []) [].
#[local] Abbreviation at_1 := (add_block_with_fork_handling SAMPLE_NOW None (on_a 0) a1).1.
#[local] Abbreviation at_2 := (add_block_with_fork_handling SAMPLE_NOW None at_1 a2).1.

Lemma unknown_unsuspended (c : Blockchain (S := gmap OutPoint UTXO)) p : (k ← resolve_address_key (registry c) p; masternodes (registry c) !! k) = None →
  unsuspended [p] c.
Proof.
  intros E x Hx. apply list_elem_of_singleton in Hx as ->. unfold clear_consensus_suspension.
  destruct (resolve_address_key _ _) as [k|]; [|done]. cbn in E |- *. by rewrite E.
Qed.
Lemma append_a1 : (add_block_with_fork_handling SAMPLE_NOW None (on_a 0) a1).2 = Ok true.
Proof. by vm_compute. Qed.
Lemma append_a2 : (add_block_with_fork_handling SAMPLE_NOW None at_1 a2).2 = Ok true.
Proof. by vm_compute. Qed.
Lemma appends_a : appends SAMPLE_NOW ["9.9.9.9"%string] (on_a 0) [a1; a2] at_2.
Proof.
  refine (appends_cons _ _ _ a1 [a2] at_1 at_2 _ _ _ (pair_result _ _ append_a1) _ (appends_cons _ _ _ a2 [] at_2 at_2 _ _ _ (pair_result _ _ append_a2) _ (appends_nil _ _ _)));
    first [apply unknown_unsuspended; by vm_compute|split; by vm_compute|by vm_compute].
Qed.
Definition two_batches : list (string * list Block) := [("9.9.9.9"%string, [a2]); ("9.9.9.9"%string, [a1; a2])].
(** The second block comes first, then both. *)
Lemma sync_any_order_witness :
  bn_node (foldl (receive SYNC_CLOCK) (sync_node (on_a 0)) two_batches) = at_2.
Proof.
  refine (proj1 (sync_any_order SYNC_CLOCK ["9.9.9.9"%string] (sync_node (on_a 0)) [a1; a2] at_2 two_batches
    (conj (on_a_inv 0) I) eq_refl eq_refl appends_a _ _ _ _ _)).
  - unfold MAX_PENDING_BLOCKS. cbn. lia.
  - vm_compute. done.
  - intros p Hp. apply list_elem_of_singleton in Hp as ->. by vm_compute.
  - intros e He. unfold two_batches in He. rewrite elem_of_cons, list_elem_of_singleton in He. apply list_elem_of_singleton. by destruct He as [->| ->].
  - intros b. unfold two_batches. cbn. rewrite !elem_of_cons, elem_of_nil. tauto.
Defined.
End sync_samples.

(** ** A node on the checkpointed genesis block *)

(** An injective writing of bytes under which the genesis block of the samples has the hash of
    the checkpoint. *)
Definition checkpoint_hex (m : bytes) : string :=
  if decide (m = block_digest testnet_genesis) then default "0"%string TESTNET_GENESIS_HASH else String "x" (pretty (Npos (countable.encode m))).
Lemma checkpoint_hex_inj x y : checkpoint_hex x = checkpoint_hex y → x = y.
Proof.
  unfold checkpoint_hex. destruct (decide _) as [->|], (decide _) as [->|]; try done. intros [= E]. apply (inj pretty) in E. injection E as E. by apply (inj countable.encode) in E.
Qed.
Definition checkpoint_externals : Externals := {|
  sha256 := tagged_digest;
  hex_encode := checkpoint_hex;
  hex_decode := bytes_of_hex;
  tx_json := model_tx_bytes;
  tx_bincode := model_tx_bytes;
  vk_from_bytes b := if (length b =? 32)%nat then Some b else None;
  ed25519_verify pk m s := bool_decide (take (length pk) s = pk);
|}.

Section checkpoint_samples.
#[local] Existing Instance checkpoint_externals.
#[local] Existing Instance canonical_iter.
#[local] Existing Instance sample_tx_externals.
#[local] Existing Instance model_pool_codec.
#[local] Existing Instance model_vrf.
#[local] Existing Instance model_gov_codec.
#[local] Existing Instance model_zstd.
#[local] Existing Instance list_lru.
#[local] Existing Instance no_legacy.
#[local] Existing Instance fork_ext.
#[local] Existing Instance fork_codec.
#[local] Existing Instance fork_codec_laws.
#[local] Existing Instance fork_format.

#[local] Abbreviation checkpoint_boot :=
  (store_hardcoded_genesis (blockchain_new Testnet ∅ ∅ ∅ None None ∅ ∅ chain_engine (registry_new None 0))).
Lemma checkpoint_boot_ok : checkpoint_boot.2 = Ok tt.
Proof. by vm_compute. Qed.
Definition checkpoint_node : BlockNode (S := gmap OutPoint UTXO) :=
  mkBlockNode (new_node checkpoint_boot.1) (peer_book_new 0) None None ∅ ∅ (mkLimits ∅ ∅ ∅ ∅) [] (Some []) [].
Lemma checkpoint_node_inv : sync_inv testnet_genesis checkpoint_node.
Proof.
  split.
  - exact (conj (genesis_inv Testnet chain_engine (registry_new None 0) None ∅ ∅ checkpoint_boot_ok) I).
  - by vm_compute.
  - by vm_compute.
  - intros h b E. cbn [bn_pending checkpoint_node] in E. by rewrite lookup_empty in E.
  - unfold MAX_PENDING_BLOCKS. cbn [bn_pending checkpoint_node]. rewrite map_size_empty. lia.
  - constructor.
Qed.
(** A peer announces another genesis block, sends a block, and claims to be ahead. *)
Definition checkpoint_history : list (block_event (S := gmap OutPoint UTXO)) :=
  [EvBlockMsg (mkClock 0 SAMPLE_NOW 0) (mkSyncConn "9.9.9.9" []) (MGenesisAnnouncement other_genesis);
   EvBlockMsg (mkClock 0 SAMPLE_NOW 0) (mkSyncConn "9.9.9.9" []) (MBlocksResponse [a1]);
   EvBlockMsg (mkClock 1 SAMPLE_NOW 0) (mkSyncConn "9.9.9.9" []) (MChainTipResponse 5 (block_digest b1));
   EvTask (mkClock 2 SAMPLE_NOW 0) (lone_peer (2, block_digest b2)) GenesisUnknown 0; EvClearPending].
Lemma block_messages_keep_chain_witness :
  block_at (bn_chain (foldl block_exec checkpoint_node checkpoint_history)) 0 = Some testnet_genesis.
Proof.
  refine (proj1 (block_messages_keep_chain checkpoint_hex_inj testnet_genesis checkpoint_node checkpoint_history checkpoint_node_inv _)).
  repeat constructor; vm_compute; done.
Defined.
End checkpoint_samples.
